(* ===== verification/_CoqProject ===== *)
-Q . S2P
Prelude.v
Interfaces.v
Pmm.v
Vmm.v
Kheap.v
Task.v
Sched.v
Threads.v
Fd.v
Ring.v
Klog.v
Ports.v
Console.v
Irq.v
Drivers.v
Stubs.v
Desc.v
Pci.v
Fs.v
Split.v
Tmpfs.v
Ext2.v
Vfs.v
Table.v
Net.v
Arp.v
Udp.v
Tcp.v
Ip.v
Socket.v
Exec.v
Shell.v
Syscall.v
Boot.v
Run.v
