(* ===== verification/Prelude.v ===== *)
(** * NeverMind: a verification development for the kernel

    NeverMind is a small x86-64 kernel in C.  This library models the kernel build
    (not the host-test variants), from [kmain] to its loop, and proves what makes its
    parts correct, each alone and then all of them on one machine.

    ** The parts and how they interact

    - Memory.  [kernel/mm/pmm.c] hands out page frames from a bitmap;
      [kernel/mm/vmm.c] keeps the four levels of page tables in such frames;
      [kernel/mm/kheap.c] cuts blocks out of runs of pages.
    - Processes.  [kernel/proc/task.c] keeps the task table and allocates kernel
      stacks from the heap; [kernel/proc/sched.c] picks tasks from the table and
      [kernel/proc/switch.S] switches stacks.
    - Files.  [kernel/proc/fd.c] maps the descriptors of a task to counted
      objects: ends of pipes, or files of [kernel/fs/vfs.c], which walks paths
      and keeps the open files, over the operations of a mounted file system:
      [kernel/fs/tmpfs.c], whose file buffers come from the heap, or
      [kernel/fs/ext2.c].
    - Interrupts.  [kernel/idt_irqs.S] saves the registers around
      [kernel/irq_isr.c], [kernel/drivers/irq.c] calls the handler and defers work,
      [pic.c] ends the interrupt, and the handlers are those of [pit.c] and
      [keyboard.c].  An exception goes through [kernel/idt_exceptions.S] to
      [kernel/exceptions.c], which reports it and halts.  [gdt.c], [idt.c] and
      [tss.c] build the tables that the processor reads.
    - Console and log.  [kernel/console.c] writes to the serial line, the screen
      and the log of [kernel/klog.c], which keeps the newest text.
    - Network.  [kernel/drivers/pci.c] finds the card; [kernel/net/net.c] passes
      its frames ([kernel/drivers/rtl8139.c]) to [arp.c] and [ipv4.c], which passes
      packets to [icmp.c], [udp.c] and [tcp.c]; [socket.c] puts sockets on top of
      the datagrams and connections.
    - System calls.  [kernel/syscall/syscall.c] dispatches the calls of programs
      to processes, descriptors and files, and to [kernel/proc/exec_registry.c]
      for the entry points of programs.
    - Shell.  [userspace/shell.c] runs scripts over the files of [vfs.c].
    - Start.  [kernel/kmain.c] starts all of these, runs the first script
      ([kernel/userspace/init.c]), and then loops with the two threads it made.

    ** The files

    - [Prelude]: machine integers, the monad of routines, loops, arrays, sums,
      searches, C strings; the tactics [wp_step], [wp_go], [wp_use]; [wp_lift], to
      run a routine on the view that its component has of a larger state.
    - [Interfaces]: the classes [PageAlloc] (what the page allocator promises to
      the page tables), [KHeap] (what the heap promises to tasks and to tmpfs;
      [shared_heap] is the promise when some blocks belong to another client) and
      [FileSys] (what the file system promises to descriptors).
    - [Pmm] (pmm.c, discharges [PageAlloc]), [Vmm] (vmm.c over any [PageAlloc],
      with the tables of entry.S and the walk of the processor), [Kheap] (kheap.c,
      discharges [KHeap]; [kheap_off] is the heap that also stays away from a
      range), [Task] (task.c, kthread_trampoline.S, over any [KHeap]), [Sched]
      (sched.c, switch.S), [Threads] (the threads as coroutines over [Sched]),
      [Fd] (fd.c, over any [FileSys]), [Ring] (circular buffers), [Klog] (klog.c).
    - [Ports] (io.h: devices behind ports, the class [PortIO]), [Console]
      (console.c and the report of exceptions.c, over any [Uart]), [Irq] (irq.c,
      irq_isr.c), [Drivers] (pic.c, pit.c, keyboard.c, over any [Pic8259] and
      [Kbd8042]), [Stubs] (idt_irqs.S, idt_exceptions.S), [Desc] (gdt.c, idt.c,
      tss.c, string.c), [Pci] (pci.c, over any [PciHost]).
    - [Fs] (fs.h, with the class [MountedFs] that a file system offers to vfs.c),
      [Split] (the loops that cut paths and lines), [Tmpfs] (tmpfs.c over any
      [KHeap]) and [Ext2] (ext2.c), which discharge [MountedFs], [Vfs] (vfs.c over
      any [MountedFs], discharges [FileSys]).
    - [Table] (tables with a used flag, for the next four), [Net] (net.c,
      rtl8139.c), [Arp], [Udp], [Tcp], [Ip] (ipv4.c, icmp.c and the input side of
      net.c), [Socket].
    - [Exec] (exec_registry.c), [Shell] (shell.c over [Vfs]), [Syscall] (syscall.c
      over [Task], [Fd], [Vfs] and [Exec]).  The descriptors that [Fd] works on are
      those in the task table of [Task].
    - [Boot] (kmain.c up to its loop, init.c, [mm_init]) puts the components on one
      machine over any [Board] of devices.  There is one heap: the stacks of the
      tasks and the buffers of tmpfs are blocks of it, apart from each other by
      [shared_heap], and from the stack of the boot code by [kheap_off].  [Run] (the
      loops of kmain.c) is what follows the start.

    ** How code becomes definitions

    A routine is a function of type [M S A]: from the state [S] of its component
    (the static data of its file as a record, with the state of the components it
    calls) to a value and a new state, or to [Stuck] with the fault: an index out
    of bounds, an address outside memory, a null pointer, a division by zero, a
    signed overflow, a shift by too much, a lock that is already held.  [wp c Q s] says that [c] run in [s] is not stuck and ends
    with [Q], so every theorem about a [wp] is also one of memory safety, absence
    of deadlock on the component's own lock, and termination.  A definition has
    the name of the C function it models.  Pointers into a table are indices,
    unsigned arithmetic is written with its wrap ([u64], [u32]), and a buffer a
    routine fills is part of its answer.

    The devices are no code of the repository: they are a type with the effect of
    reading and writing a port, and what a driver relies on of its device is a
    class with the documented behaviour ([Uart], [Pic8259], [Kbd8042], [PciHost]);
    each class has a concrete instance, which the witnesses run on.

    Loops over index ranges are [for_each], [for_all] and [for_acc].  Other loops
    take fuel and are [Stuck OutOfFuel] without it; the fuel is enough, by
    theorem: the number of headers in memory for the free list ([Kheap]), the
    size of the structure for the multiboot2 tags ([Pmm]), 512 bytes for a pipe
    ([Fd]), 8192 characters for the log ([Klog]), 256 slots for the bottom halves
    ([Irq]), the time that the transmitter takes to become empty and 20 digits for
    a number ([Console]), 512 nodes for a sibling list, 64 doublings for a capacity
    below [2^63] ([Tmpfs]), the length of a path or of a line ([Split]), the size of
    the file for cat and the length of the script ([Shell]), the number of bytes in
    the memory of programs for a string ([Syscall]), the length of a name ([Exec]).

    ** What the theorems show

    - [Run]: after [kmain], whatever interrupts and keys come between the turns of
      the threads and whatever these run on their stacks, every turn and every
      interrupt runs without a fault, each thread has its turn within 129, no tick, key or end of interrupt is
      lost, and processes, descriptors and files stay in order.
    - [Boot]: [kmain] reaches its loop from any boot information in order, on any
      board; the text it prints, the tables, the allocator, the processes, files and
      system calls on one heap, the handlers, the bus and the network are in order,
      and the first script ran.  After [mm_init] the allocator, the heap and the
      page tables are in order together.
    - [Pmm]: allocation is sound and complete, freeing ignores bad addresses,
      both initialisations establish the invariant and mark exactly the right
      frames, a page survives an allocate/free round trip.
    - [Vmm]: mapping and unmapping change the translation the processor makes at
      exactly the page asked for, or fail short of frames and change none; tables
      are allocated, kept and freed in step with their use.
    - [Kheap]: blocks in use never overlap, a freed block is reused, memory comes
      only from the page allocator.
    - [Task]: the invariant holds in every reachable state; create, fork and wait
      on every branch; an exit code reaches the parent.
    - [Sched]: a tick under either policy, fairness of round robin, the switch.
    - [Threads]: a call of [sched_yield] returns like any other call, with the
      registers, the stack pointer and the stack of the caller, whatever the other
      threads do meanwhile; under round robin every thread comes to run.
    - [Fd]: no descriptor names a freed object, in any reachable state; pipe,
      dup2 and close-on-exec on every branch; a pipe refines a queue.
    - [Klog], [Irq]: the ring buffers keep the newest text and run deferred work
      once, in order.
    - [Console]: a text of any length reaches the log, the serial line and the
      screen, where it refines the scrolling of lines; numbers print as their
      decimal digits.
    - [Drivers], [Stubs], [Desc]: only the timer and the keyboard interrupt, each
      interrupt is counted and ended once, the interrupted code gets its general
      registers, flags and stack back (not its SSE registers, which the stubs do not
      save), and the processor delivers each vector to its handler.
    - [Pci]: the devices that a scan finds, with their registers where the standard has
      them, on a bridge that takes addresses byte by byte and on one that follows the
      standard.
    - [Tmpfs], [Vfs]: the tree keeps its shape and refines a map from names to
      nodes, a file refines a sequence of bytes, opening and creating on every
      branch, splitting a path equals its specification, what is written through
      a descriptor is read back.
    - [Ext2]: creating on every branch, and that no file ever has bytes.
    - [Shell]: what a line does on every branch; a script runs to its end inside its
      buffers, but for an ls before a pipe or a redirection that finds no file and
      leaves an array as it was, which must then hold a NUL; what is redirected to a
      file is what cat prints.
    - [Arp], [Udp], [Tcp]: the cache refines the list of recent addresses, the
      ports refine bags of datagrams, the connections refine a map of ends.
    - [Ip]: any bytes received are handled within the frame; a datagram in a frame
      reaches the receiver.
    - [Socket]: the specification of every call and who owns what; bytes sent on a
      connection arrive.
    - [Syscall]: processes and descriptors are in order together in every state
      reached by system calls, and within limits on the counters every call returns or
      stops at an address that is not the program's, the latter only when a pointer
      leads there; an exit code and the bytes of a pipe travel through the calls; exec
      on every branch.
    - Some theorems and examples show faults of the code: a boot module can be
      freed, a size wraps, a forked child has no switch frame, a reaped task leaks
      its stack and its objects, a zombie is made runnable, a hole in a file shows
      old memory, a huge write never returns, a seek overflows, a write to ext2
      wraps, a small page mapped inside a large one is written over its data,
      closing a socket makes another one deaf, a second send discards the first, a
      system call follows a bad pointer, an interrupt loses an SSE register, a pipe
      from ls reads an array that was never filled and can read past it, a redirection leaves the
      tail of the old file, the bus scan finds nothing on a standard bridge, a slow
      timer runs fast, an interrupt while the lock of the bottom halves is held never
      returns.

    ** What is not modelled

    Interleaving inside a routine: each routine runs alone; the locks are checked
    to be free on entry and released on exit.  In [Run] interrupts come between
    the turns of the loops.  An interrupt inside [sched_yield] would find the
    same, as the handlers share no state with it; one inside
    [irq_run_bottom_halves] may find the lock of [irq.c] taken, and then waits for
    it for ever ([Run.interrupt_in_turn_hangs]).  The instructions that wait
    ([hlt], [pause]) and [sti] change no state of the model.  The initial contents
    of memory and of the devices are parameters.  The translation buffer of the
    processor is only a trace of invalidated addresses.  The memory of programs
    ([Syscall]) is a partial map from addresses to bytes: the handlers follow the
    pointers they are given unchecked, and an access outside the map (to an unmapped
    page, or to the kernel's own data, which share one address space with it) stops the
    model, while on the machine the latter would read or overwrite the kernel.  What
    such an access does there is not modelled.  No program runs: nothing in the kernel
    starts one.  Left out: the switch to long mode in [boot/entry.S], a fixed sequence of
    privileged instructions before any C runs (its page tables are in [Vmm]); the
    branches for host tests; the programs dmesg, ping and http of [userspace/],
    which run on the host over the C library. *)

From Stdlib Require Export ZArith Lia.
From Stdlib Require Import String Ascii.
From stdpp Require Export base tactics numbers gmap list.

#[export] Set Default Goal Selector "!".
#[global] Open Scope Z_scope.

(** ** Machine integers

    A [uintN_t] is a [Z] in [0, 2^N), an [intN_t] a [Z] in [-2^(N-1), 2^(N-1)).
    Unsigned arithmetic wraps; the conversions below write the wrap out. *)

Definition u64 (x : Z) : Z := x `mod` 18446744073709551616.
Definition u32 (x : Z) : Z := x `mod` 4294967296.
Definition u16 (x : Z) : Z := x `mod` 65536.
Definition u8 (x : Z) : Z := x `mod` 256.
Definition i32 (x : Z) : Z := (x + 2147483648) `mod` 4294967296 - 2147483648.
Definition i64 (x : Z) : Z :=
  (x + 9223372036854775808) `mod` 18446744073709551616 - 9223372036854775808.

Definition is_u64 (x : Z) : Prop := 0 <= x < 18446744073709551616.
Definition is_u32 (x : Z) : Prop := 0 <= x < 4294967296.

Definition UINT64_MAX : Z := 18446744073709551615.
Definition INT32_MAX : Z := 2147483647.

Lemma u64_small x : 0 <= x < 18446744073709551616 -> u64 x = x.
Proof. apply Z.mod_small. Qed.

Lemma u64_range x : is_u64 (u64 x).
Proof. apply Z.mod_pos_bound. lia. Qed.

Lemma u32_small x : 0 <= x < 4294967296 -> u32 x = x.
Proof. apply Z.mod_small. Qed.

Lemma u32_range x : is_u32 (u32 x).
Proof. apply Z.mod_pos_bound. lia. Qed.

Lemma i32_small x : -2147483648 <= x < 2147483648 -> i32 x = x.
Proof. intros. unfold i32. rewrite Z.mod_small by lia. lia. Qed.

Lemma i64_small x : -9223372036854775808 <= x < 9223372036854775808 -> i64 x = x.
Proof. intros. unfold i64. rewrite Z.mod_small by lia. lia. Qed.

Lemma u64_testbit x i : 0 <= i < 64 -> Z.testbit (u64 x) i = Z.testbit x i.
Proof. intros [? ?]. unfold u64. apply (Z.mod_pow2_bits_low x 64 i). lia. Qed.

Lemma u32_testbit x i : 0 <= i < 32 -> Z.testbit (u32 x) i = Z.testbit x i.
Proof. intros [? ?]. unfold u32. apply (Z.mod_pow2_bits_low x 32 i). lia. Qed.

Lemma testbit_one_shift b i : 0 <= b -> 0 <= i -> Z.testbit (Z.shiftl 1 b) i = (b =? i).
Proof.
  intros Hb Hi. rewrite Z.shiftl_1_l, Z.pow2_bits_eqb by done. done.
Qed.

(** Setting and clearing bit [b] of a [w]-bit word, as [x | (1 << b)] and
    [x & ~(1 << b)] do. *)
Definition set_bit64 (x b : Z) : Z := u64 (Z.lor x (u64 (Z.shiftl 1 b))).
Definition clear_bit64 (x b : Z) : Z := u64 (Z.land x (u64 (Z.lnot (u64 (Z.shiftl 1 b))))).

Lemma set_bit64_testbit x b i :
  0 <= b < 64 -> 0 <= i < 64 ->
  Z.testbit (set_bit64 x b) i = Z.testbit x i || (b =? i).
Proof.
  intros Hb Hi. unfold set_bit64.
  rewrite u64_testbit, Z.lor_spec, u64_testbit, testbit_one_shift by lia. done.
Qed.

Lemma clear_bit64_testbit x b i :
  0 <= b < 64 -> 0 <= i < 64 ->
  Z.testbit (clear_bit64 x b) i = Z.testbit x i && negb (b =? i).
Proof.
  intros Hb Hi. unfold clear_bit64.
  rewrite u64_testbit, Z.land_spec, u64_testbit, Z.lnot_spec by lia.
  rewrite u64_testbit, testbit_one_shift by lia. done.
Qed.

Lemma is_u64_ext x y :
  is_u64 x -> is_u64 y -> (forall i, 0 <= i < 64 -> Z.testbit x i = Z.testbit y i) -> x = y.
Proof.
  intros Hx Hy H. rewrite <- (u64_small x Hx), <- (u64_small y Hy). unfold u64.
  apply Z.bits_inj'. intros i Hi.
  destruct (Z_lt_le_dec i 64).
  - change 18446744073709551616 with (2 ^ 64).
    rewrite !Z.mod_pow2_bits_low by lia. apply H. lia.
  - change 18446744073709551616 with (2 ^ 64).
    rewrite !Z.mod_pow2_bits_high by lia. done.
Qed.

Lemma testbit_lt_pow2 x i n : 0 <= x < 2 ^ n -> 0 <= n -> Z.testbit x i = true -> 0 <= i < n.
Proof.
  intros Hx Hn Ht. destruct (Z_lt_le_dec i 0).
  { rewrite Z.testbit_neg_r in Ht by lia. done. }
  split; [lia|]. destruct (Z_lt_le_dec i n); [done|].
  rewrite <- (Z.mod_small x (2 ^ n)), Z.mod_pow2_bits_high in Ht by lia. done.
Qed.

(** [x & ~(2^n - 1)] rounds down to a multiple of [2^n]. *)
Lemma land_lnot_ones x n :
  is_u64 x -> 0 <= n -> Z.land x (u64 (Z.lnot (Z.ones n))) = x / 2 ^ n * 2 ^ n.
Proof.
  intros Hx Hn. rewrite <- Z.shiftl_mul_pow2, <- Z.shiftr_div_pow2 by done.
  apply Z.bits_inj'. intros i Hi. rewrite Z.land_spec, Z.shiftl_spec by done.
  destruct (Z_lt_le_dec i 64) as [Hi64|Hi64].
  - rewrite u64_testbit, Z.lnot_spec by lia. destruct (Z_lt_le_dec i n).
    + rewrite Z.ones_spec_low, (Z.testbit_neg_r _ (i - n)) by lia. by rewrite andb_false_r.
    + rewrite Z.ones_spec_high, Z.shiftr_spec by lia.
      by rewrite andb_true_r, Z.sub_add.
  - assert (Hz : Z.testbit x i = false).
    { destruct (Z.testbit x i) eqn:E; [|done].
      apply (testbit_lt_pow2 x i 64) in E; [lia|exact Hx|lia]. }
    rewrite Hz. simpl. destruct (Z_lt_le_dec i n); [by rewrite Z.testbit_neg_r by lia|].
    by rewrite Z.shiftr_spec, Z.sub_add by lia.
Qed.

(** [__builtin_ctzll]: the number of trailing zero bits of a nonzero word. *)
Fixpoint pos_ctz (p : positive) : Z :=
  match p with
  | xO q => 1 + pos_ctz q
  | _ => 0
  end.

Definition ctzll (x : Z) : Z :=
  match x with
  | Zpos p => pos_ctz p
  | _ => 0
  end.

Lemma pos_ctz_nonneg p : 0 <= pos_ctz p.
Proof. induction p; simpl; lia. Qed.

Lemma ctzll_nonneg x : 0 <= ctzll x.
Proof. destruct x; simpl; try lia. apply pos_ctz_nonneg. Qed.

Lemma ctzll_testbit x : 0 < x -> Z.testbit x (ctzll x) = true.
Proof.
  destruct x as [|p|p]; try lia. intros _. simpl ctzll.
  induction p as [p IH|p IH|]; try done.
  simpl pos_ctz. rewrite Z.add_1_l, Pos2Z.inj_xO.
  rewrite Z.double_bits_succ. exact IH.
Qed.

Lemma ctzll_range x : 0 < x -> is_u64 x -> 0 <= ctzll x < 64.
Proof.
  intros Hx Hr. apply (testbit_lt_pow2 x); [exact Hr|lia|]. by apply ctzll_testbit.
Qed.

(** ** Error codes ([include/nm/errno.h]) *)

Definition NM_EFAIL : Z := 1.
Definition NM_ENOENT : Z := 2.
Definition NM_ENOMEM : Z := 12.
Definition NM_EBUSY : Z := 16.
Definition NM_EINVAL : Z := 22.
Definition NM_ENOSYS : Z := 38.
Definition NM_ERR (code : Z) : Z := - code.

(** ** Computations

    A kernel routine is a function of the state of its component that either
    finishes with a value and a new state or is stuck.  A routine is stuck when
    it would index an array out of its bounds, access an address that is not in
    memory, follow a null pointer, divide by zero, overflow a signed integer, shift
    a word by its width or more, or spin on a lock that is already held (no
    other thread of control can release it within the routine). *)

Inductive fault := OutOfBounds | BadAddress | NullDeref | DivByZero | SignedOverflow | BadShift | LockHeld | OutOfFuel.

Inductive outcome (S A : Type) :=
| Done (a : A) (s : S)
| Stuck (f : fault).
Arguments Done {S A} a s.
Arguments Stuck {S A} f.

Definition M (S A : Type) : Type := S -> outcome S A.

#[export] Instance M_ret S : MRet (M S) := fun A a s => Done a s.
#[export] Instance M_bind S : MBind (M S) := fun A B k c s =>
  match c s with
  | Done a s' => k a s'
  | Stuck f => Stuck f
  end.

Definition gets {S A} (f : S -> A) : M S A := fun s => Done (f s) s.
Definition modify {S} (f : S -> S) : M S unit := fun s => Done tt (f s).
Definition stuck {S A} (f : fault) : M S A := fun _ => Stuck f.

(** Weakest precondition: [wp c Q s] says that [c] started in [s] finishes (it
    is not stuck) with a value and a state that satisfy [Q]. *)
Definition wp {S A} (c : M S A) (Q : A -> S -> Prop) (s : S) : Prop :=
  match c s with
  | Done a s' => Q a s'
  | Stuck _ => False
  end.

Section wp_rules.
Context {S A B : Type}.
Implicit Types (s : S).

Lemma wp_ret (a : A) (Q : A -> S -> Prop) s : Q a s -> wp (mret a) Q s.
Proof. done. Qed.

Lemma wp_bind (c : M S A) (k : A -> M S B) Q s :
  wp c (fun a s' => wp (k a) Q s') s -> wp (c ≫= k) Q s.
Proof. unfold wp, mbind, M_bind. destruct (c s); done. Qed.

Lemma wp_bind_inv (c : M S A) (k : A -> M S B) Q s :
  wp (c ≫= k) Q s -> wp c (fun a s' => wp (k a) Q s') s.
Proof. unfold wp, mbind, M_bind. destruct (c s); done. Qed.

Lemma wp_gets (f : S -> A) (Q : A -> S -> Prop) s : Q (f s) s -> wp (gets f) Q s.
Proof. done. Qed.

Lemma wp_modify (f : S -> S) (Q : unit -> S -> Prop) s : Q tt (f s) -> wp (modify f) Q s.
Proof. done. Qed.

Lemma wp_mono (c : M S A) (Q Q' : A -> S -> Prop) s :
  wp c Q s -> (forall a s', Q a s' -> Q' a s') -> wp c Q' s.
Proof. unfold wp. destruct (c s); auto. Qed.

Lemma wp_done (c : M S A) Q s : wp c Q s <-> exists a s', c s = Done a s' /\ Q a s'.
Proof.
  unfold wp. split.
  - destruct (c s) as [a s'|]; [eauto|done].
  - by intros (a & s' & -> & ?).
Qed.

Lemma wp_result (c : M S A) (Q : A -> S -> Prop) s a s' : wp c Q s -> c s = Done a s' -> Q a s'.
Proof. unfold wp. intros Hw E. by rewrite E in Hw. Qed.

Lemma wp_run (c : M S A) a s' Q s : c s = Done a s' -> Q a s' -> wp c Q s.
Proof. unfold wp. by intros ->. Qed.
End wp_rules.

(** ** Arrays: a C array is a list of fixed length, indexed by a C integer *)

Section arrays.
Context {A : Type}.
Implicit Types (l : list A) (i : Z).

Definition arr l i : option A := if 0 <=? i then l !! Z.to_nat i else None.
Definition upd l i (x : A) : list A := if 0 <=? i then <[Z.to_nat i := x]> l else l.
Definition zlen l : Z := Z.of_nat (length l).

Lemma arr_range l i x : arr l i = Some x -> 0 <= i < zlen l.
Proof.
  unfold arr, zlen. destruct (Z.leb_spec 0 i); [|done].
  intros ?%lookup_lt_Some. lia.
Qed.

Lemma arr_lookup l i : 0 <= i < zlen l -> exists x, arr l i = Some x.
Proof.
  unfold arr, zlen. intros Hi. destruct (Z.leb_spec 0 i); [|lia].
  destruct (lookup_lt_is_Some_2 l (Z.to_nat i)) as [x Hx]; [lia|eauto].
Qed.

Lemma arr_nat l j : arr l (Z.of_nat j) = l !! j.
Proof. unfold arr. destruct (Z.leb_spec 0 (Z.of_nat j)); [by rewrite Nat2Z.id|lia]. Qed.

Lemma Forall2_by_lookup {B} (R : A -> B -> Prop) l (l' : list B) :
  length l = length l' -> (forall (i : nat) y, l' !! i = Some y -> exists x, l !! i = Some x /\ R x y) -> Forall2 R l l'.
Proof.
  intros Hl HR. apply Forall2_same_length_lookup. split; [done|]. intros i x y Hx Hy.
  destruct (HR i y Hy) as (x' & Hx' & Hr). congruence.
Qed.

Lemma arr_none l i : ~ (0 <= i < zlen l) -> arr l i = None.
Proof.
  intros H. destruct (arr l i) eqn:E; [|done].
  exfalso. apply H. eapply arr_range; eauto.
Qed.

Lemma zlen_upd l i x : zlen (upd l i x) = zlen l.
Proof. unfold zlen, upd. destruct (0 <=? i); [by rewrite length_insert|done]. Qed.

Lemma arr_upd_eq l i x : 0 <= i < zlen l -> arr (upd l i x) i = Some x.
Proof.
  unfold arr, upd, zlen. intros Hi. destruct (Z.leb_spec 0 i); [|lia].
  apply list_lookup_insert_eq. lia.
Qed.

Lemma arr_upd_ne l i j x : i <> j -> arr (upd l i x) j = arr l j.
Proof.
  unfold arr, upd. intros Hij.
  destruct (Z.leb_spec 0 i), (Z.leb_spec 0 j); try done.
  apply list_lookup_insert_ne. lia.
Qed.

Lemma arr_upd l i j x :
  0 <= i < zlen l -> arr (upd l i x) j = if i =? j then Some x else arr l j.
Proof.
  intros Hi. destruct (Z.eqb_spec i j) as [->|]; [by apply arr_upd_eq|by apply arr_upd_ne].
Qed.

Lemma upd_id l i x : arr l i = Some x -> upd l i x = l.
Proof. unfold arr, upd. destruct (0 <=? i); [apply list_insert_id|done]. Qed.

Lemma upd_upd l i x y : upd (upd l i x) i y = upd l i y.
Proof. unfold upd. destruct (0 <=? i); [apply list_insert_insert_eq|done]. Qed.

Lemma upd_swap l i j x y : i <> j -> upd (upd l i x) j y = upd (upd l j y) i x.
Proof.
  intros Hij. unfold upd. destruct (Z.leb_spec 0 i), (Z.leb_spec 0 j); try done.
  apply list_insert_insert_ne. lia.
Qed.

Lemma arr_ext l l' : zlen l = zlen l' -> (forall i, arr l i = arr l' i) -> l = l'.
Proof.
  intros Hlen H. apply list_eq. intros n. specialize (H (Z.of_nat n)).
  unfold arr in H. destruct (Z.leb_spec 0 (Z.of_nat n)); [|lia].
  by rewrite Nat2Z.id in H.
Qed.

Lemma arr_elem l i x : arr l i = Some x -> x ∈ l.
Proof. unfold arr. destruct (0 <=? i); [|done]. apply list_elem_of_lookup_2. Qed.

Lemma elem_arr l x : x ∈ l -> exists i, arr l i = Some x.
Proof.
  intros [n Hn]%list_elem_of_lookup_1. exists (Z.of_nat n). unfold arr.
  destruct (Z.leb_spec 0 (Z.of_nat n)); [|lia]. by rewrite Nat2Z.id.
Qed.

Lemma arr_replicate n (x : A) i : 0 <= i < Z.of_nat n -> arr (replicate n x) i = Some x.
Proof.
  intros Hi. unfold arr. destruct (Z.leb_spec 0 i); [|lia].
  apply lookup_replicate_2. lia.
Qed.

Lemma Forall_arr (P : A -> Prop) l i x : Forall P l -> arr l i = Some x -> P x.
Proof. intros H Hx%arr_elem. by apply (proj1 (Forall_forall P l) H). Qed.

Lemma Forall_upd (P : A -> Prop) l i x : Forall P l -> P x -> Forall P (upd l i x).
Proof. intros. unfold upd. destruct (0 <=? i); [by apply Forall_insert|done]. Qed.
End arrays.

Lemma arr_fmap {A B} (f : A -> B) l i : arr (f <$> l) i = f <$> arr l i.
Proof. unfold arr. destruct (0 <=? i); [apply list_lookup_fmap|done]. Qed.

(** Reading and writing an element of an array that is a component of the state. *)
Definition rd {S A} (proj : S -> list A) (i : Z) : M S A := fun s =>
  match arr (proj s) i with
  | Some x => Done x s
  | None => Stuck OutOfBounds
  end.

Definition wr {S A} (proj : S -> list A) (set : list A -> S -> S) (i : Z) (x : A) : M S unit :=
  fun s =>
  match arr (proj s) i with
  | Some _ => Done tt (set (upd (proj s) i x) s)
  | None => Stuck OutOfBounds
  end.

Lemma wp_rd {S A} (proj : S -> list A) i x (Q : A -> S -> Prop) s :
  arr (proj s) i = Some x -> Q x s -> wp (rd proj i) Q s.
Proof. unfold wp, rd. by intros ->. Qed.

Lemma rd_bind {S A B} (proj : S -> list A) i x (k : A -> M S B) s :
  arr (proj s) i = Some x -> (rd proj i ≫= k) s = k x s.
Proof. unfold mbind, M_bind, rd. by intros ->. Qed.

Lemma wp_wr {S A} (proj : S -> list A) set i (x : A) (Q : unit -> S -> Prop) s :
  0 <= i < zlen (proj s) -> Q tt (set (upd (proj s) i x) s) -> wp (wr proj set i x) Q s.
Proof.
  intros [y Hy]%arr_lookup ?. unfold wp, wr. by rewrite Hy.
Qed.

(** ** Loops

    [for_each ixs body] runs [body] on the indices [ixs] in order.  The body
    answers [None] to go on with the next index and [Some r] to leave the loop
    with [r] (a [return] or a [break] that carries a value). *)

Fixpoint for_each {S R} (ixs : list Z) (body : Z -> M S (option R)) : M S (option R) :=
  match ixs with
  | [] => mret None
  | i :: ixs' =>
      r ← body i;
      match r with
      | Some x => mret (Some x)
      | None => for_each ixs' body
      end
  end.

(** A loop with no early exit. *)
Fixpoint for_all {S} (ixs : list Z) (body : Z -> M S unit) : M S unit :=
  match ixs with
  | [] => mret tt
  | i :: ixs' => body i ;; for_all ixs' body
  end.

(** The indices [a], [a+1], ..., [b-1] of [for (i = a; i < b; i++)]. *)
Definition upto (a b : Z) : list Z := seqZ a (b - a).

Lemma upto_nil a b : b <= a -> upto a b = [].
Proof. intros. unfold upto. apply seqZ_nil. lia. Qed.

Lemma upto_cons a b : a < b -> upto a b = a :: upto (a + 1) b.
Proof.
  intros. unfold upto. rewrite seqZ_cons by lia.
  replace (Z.pred (b - a)) with (b - (a + 1)) by lia.
  by replace (Z.succ a) with (a + 1) by lia.
Qed.

Lemma elem_of_upto a b i : i ∈ upto a b <-> a <= i < b.
Proof. unfold upto. rewrite elem_of_seqZ. lia. Qed.

Lemma upto_app a b c : a <= b <= c -> upto a c = upto a b ++ upto b c.
Proof.
  intros. unfold upto. replace (c - a) with ((b - a) + (c - b)) by lia.
  rewrite seqZ_app by lia. by replace (a + (b - a)) with b by lia.
Qed.

Lemma NoDup_upto a b : NoDup (upto a b).
Proof. apply NoDup_seqZ. Qed.

Lemma wp_for_each {S R} (I : Z -> S -> Prop) (body : Z -> M S (option R)) a b Q s :
  a <= b ->
  I a s ->
  (forall i t, a <= i < b -> I i t ->
     wp (body i) (fun r t' => match r with None => I (i + 1) t' | Some x => Q (Some x) t' end) t) ->
  (forall t, I b t -> Q None t) ->
  wp (for_each (upto a b) body) Q s.
Proof.
  intros Hab. remember (Z.to_nat (b - a)) as n eqn:En. revert a s Hab En.
  induction n as [|n IH]; intros a s Hab En HI Hstep Hend.
  - rewrite upto_nil by lia. apply wp_ret, Hend. by replace b with a by lia.
  - rewrite upto_cons by lia. simpl. apply wp_bind.
    eapply wp_mono; [apply Hstep; [lia|done]|].
    intros [x|] t Ht; [by apply wp_ret|].
    apply IH; [lia|lia|done| |done]. intros. apply Hstep; [lia|done].
Qed.

Lemma wp_for_all {S} (I : Z -> S -> Prop) (body : Z -> M S unit) a b Q s :
  a <= b ->
  I a s ->
  (forall i t, a <= i < b -> I i t -> wp (body i) (fun _ t' => I (i + 1) t') t) ->
  (forall t, I b t -> Q tt t) ->
  wp (for_all (upto a b) body) Q s.
Proof.
  intros Hab. remember (Z.to_nat (b - a)) as n eqn:En. revert a s Hab En.
  induction n as [|n IH]; intros a s Hab En HI Hstep Hend.
  - rewrite upto_nil by lia. apply wp_ret, Hend. by replace b with a by lia.
  - rewrite upto_cons by lia. simpl. apply wp_bind.
    eapply wp_mono; [apply Hstep; [lia|done]|].
    intros ? t Ht. apply IH; [lia|lia|done| |done]. intros. apply Hstep; [lia|done].
Qed.

(** A loop that carries a local variable. *)
Fixpoint for_acc {S B} (ixs : list Z) (acc : B) (body : B -> Z -> M S B) : M S B :=
  match ixs with
  | [] => mret acc
  | i :: ixs' => acc' ← body acc i; for_acc ixs' acc' body
  end.

Lemma wp_for_acc {S B} (I : Z -> B -> S -> Prop) (body : B -> Z -> M S B) a b acc Q s :
  a <= b ->
  I a acc s ->
  (forall i x t, a <= i < b -> I i x t -> wp (body x i) (fun x' t' => I (i + 1) x' t') t) ->
  (forall x t, I b x t -> Q x t) ->
  wp (for_acc (upto a b) acc body) Q s.
Proof.
  intros Hab. remember (Z.to_nat (b - a)) as n eqn:En. revert a acc s Hab En.
  induction n as [|n IH]; intros a acc s Hab En HI Hstep Hend.
  - rewrite upto_nil by lia. apply wp_ret, Hend. by replace b with a by lia.
  - rewrite upto_cons by lia. simpl. apply wp_bind.
    eapply wp_mono; [apply Hstep; [lia|done]|].
    intros x t Ht. apply IH; [lia|lia|done| |done]. intros. apply Hstep; [lia|done].
Qed.

(** The step tactic: take the first command of the routine apart. *)
Ltac wp_step :=
  lazymatch goal with
  | |- wp (mbind _ _) _ _ => apply wp_bind
  | |- wp (mret _) _ _ => apply wp_ret
  | |- wp (gets _) _ _ => apply wp_gets
  | |- wp (modify _) _ _ => apply wp_modify
  | |- wp (if ?b then ?x else ?y) ?Q ?s =>
      let b' := eval hnf in b in
      lazymatch b' with
      | true => change (wp x Q s)
      | false => change (wp y Q s)
      | _ => let E := fresh "E" in destruct b eqn:E
      end
  end; cbv beta.
Ltac wp_go := repeat wp_step.
(** Use a specification [H : wp c P s] of the command in front. *)
Tactic Notation "wp_use" uconstr(H) := eapply wp_mono; [eapply H|].

(** ** Sums and counts over tables *)

Fixpoint sumZ {A} (f : A -> Z) (l : list A) : Z :=
  match l with
  | [] => 0
  | x :: l => f x + sumZ f l
  end.

Definition countb {A} (p : A -> bool) (l : list A) : Z := sumZ (fun x => Z.b2z (p x)) l.

Section sums.
Context {A : Type}.
Implicit Types (l : list A) (f g : A -> Z) (p q : A -> bool).

Lemma sumZ_ext f g l : (forall x, x ∈ l -> f x = g x) -> sumZ f l = sumZ g l.
Proof.
  induction l as [|x l IH]; intros H; [done|]. simpl.
  rewrite H, IH; [done| |by left]. intros. apply H. by right.
Qed.

Lemma sumZ_Forall2 f l l' : Forall2 (fun x y => f x = f y) l l' -> sumZ f l = sumZ f l'.
Proof. induction 1; simpl; lia. Qed.

Lemma sumZ_nonneg f l : (forall x, x ∈ l -> 0 <= f x) -> 0 <= sumZ f l.
Proof.
  induction l as [|x l IH]; intros H; simpl; [lia|].
  assert (0 <= f x) by (apply H; by left).
  assert (0 <= sumZ f l) by (apply IH; intros; apply H; by right). lia.
Qed.

Lemma sumZ_change f g l x :
  NoDup l -> x ∈ l -> (forall y, y ∈ l -> y <> x -> f y = g y) ->
  sumZ f l = sumZ g l + f x - g x.
Proof.
  induction l as [|y l IH]; intros Hnd Hx H; [by apply elem_of_nil in Hx|].
  apply NoDup_cons in Hnd as [Hy Hnd]. apply elem_of_cons in Hx as [->|Hx]; simpl.
  - rewrite (sumZ_ext f g l); [lia|]. intros z Hz. apply H; [by right|]. by intros ->.
  - rewrite IH; [|done..|].
    + rewrite (H y); [lia|by left|]. by intros ->.
    + intros. apply H; [by right|done].
Qed.

Lemma sumZ_app f l l' : sumZ f (l ++ l') = sumZ f l + sumZ f l'.
Proof. induction l; simpl; lia. Qed.

Lemma sumZ_insert f l n x y :
  l !! n = Some x -> sumZ f (<[n := y]> l) = sumZ f l - f x + f y.
Proof.
  revert n. induction l as [|z l IH]; intros [|n] H; simplify_eq/=; [lia|].
  rewrite IH by done. lia.
Qed.

Lemma sumZ_upd f l i x y :
  arr l i = Some x -> sumZ f (upd l i y) = sumZ f l - f x + f y.
Proof. unfold arr, upd. destruct (0 <=? i); [apply sumZ_insert|done]. Qed.

Lemma sumZ_lookup_le f l i x :
  (forall y, y ∈ l -> 0 <= f y) -> arr l i = Some x -> f x <= sumZ f l.
Proof.
  unfold arr. destruct (0 <=? i); [|done]. generalize (Z.to_nat i) as n.
  induction l as [|z l IH]; intros [|n] Hpos H; simplify_eq/=.
  - assert (0 <= sumZ f l) by (apply sumZ_nonneg; intros; apply Hpos; by right). lia.
  - assert (f x <= sumZ f l) by (eapply IH; [|done]; intros; apply Hpos; by right).
    assert (0 <= f z) by (apply Hpos; by left). lia.
Qed.

Lemma sumZ_zero f l : (forall x, x ∈ l -> f x = 0) -> sumZ f l = 0.
Proof.
  intros H. rewrite (sumZ_ext f (fun _ => 0)) by done. clear H. induction l; simpl; lia.
Qed.

Lemma sumZ_pointwise f l l' :
  zlen l = zlen l' -> (forall i x y, arr l' i = Some x -> arr l i = Some y -> f y = f x) ->
  sumZ f l = sumZ f l'.
Proof.
  revert l'. induction l as [|x l IH]; intros [|y l'] Hl H; unfold zlen in *; simpl in *; try lia.
  rewrite (H 0 y x), (IH l') by (done || lia || (intros i a b Ha Hb; apply (H (i + 1));
    unfold arr in *; destruct (Z.leb_spec 0 i), (Z.leb_spec 0 (i + 1)); try lia; try done;
    by replace (Z.to_nat (i + 1)) with (S (Z.to_nat i)) by lia)). done.
Qed.

Lemma countb_range p l : 0 <= countb p l <= zlen l.
Proof.
  unfold countb, zlen. induction l as [|x l IH]; simpl; [lia|]. destruct (p x); simpl; lia.
Qed.

Lemma countb_ext p q l : (forall x, x ∈ l -> p x = q x) -> countb p l = countb q l.
Proof. intros H. apply sumZ_ext. intros x Hx. by rewrite H. Qed.

Lemma countb_flip p q l x :
  NoDup l -> x ∈ l -> p x = true -> q x = false ->
  (forall y, y ∈ l -> y <> x -> p y = q y) -> countb p l = countb q l + 1.
Proof.
  intros Hnd Hx Hp Hq H. unfold countb.
  rewrite (sumZ_change _ (fun y => Z.b2z (q y)) _ x) by (try done; intros; by rewrite H).
  rewrite Hp, Hq. simpl. lia.
Qed.

Lemma countb_pos p l : 0 < countb p l <-> exists x, x ∈ l /\ p x = true.
Proof.
  split.
  - induction l as [|x l IH]; unfold countb in *; simpl; [lia|].
    destruct (p x) eqn:E; intros H; simpl in H.
    + exists x. split; [by left|done].
    + destruct IH as (y & ? & ?); [lia|]. exists y. split; [by right|done].
  - intros (x & Hx & Hp). induction l as [|y l IH]; [by apply elem_of_nil in Hx|].
    pose proof (countb_range p l). unfold countb in *. simpl.
    apply elem_of_cons in Hx as [->|Hx]; [rewrite Hp; simpl; lia|].
    specialize (IH Hx). destruct (p y); simpl; lia.
Qed.

Lemma countb_upd p l i x y :
  arr l i = Some x -> countb p (upd l i y) = countb p l - Z.b2z (p x) + Z.b2z (p y).
Proof. apply (sumZ_upd (fun z => Z.b2z (p z))). Qed.

Lemma countb_all p l : (forall x, x ∈ l -> p x = true) -> countb p l = zlen l.
Proof.
  unfold countb, zlen. induction l as [|x l IH]; intros H; simpl; [done|].
  rewrite (H x) by (by left). rewrite IH by (intros; apply H; by right). simpl. lia.
Qed.

Lemma countb_none p l : (forall x, x ∈ l -> p x = false) -> countb p l = 0.
Proof. intros H. apply sumZ_zero. intros x Hx. by rewrite H. Qed.
End sums.

Lemma zlen_upto a b : a <= b -> zlen (upto a b) = b - a.
Proof. intros. unfold zlen, upto. rewrite length_seqZ. lia. Qed.

(** ** Searching a table: the first index whose element passes a test *)

Fixpoint find_from {A} (p : A -> bool) (l : list A) (i : Z) : option Z :=
  match l with
  | [] => None
  | x :: l => if p x then Some i else find_from p l (i + 1)
  end.
Definition find_idx {A} (p : A -> bool) (l : list A) : option Z := find_from p l 0.

Section find.
Context {A : Type} (p : A -> bool).
Implicit Types (l : list A).

Lemma arr_cons_0 x l : arr (x :: l) 0 = Some x.
Proof. done. Qed.

Lemma arr_cons_S x l i : 0 <= i -> arr (x :: l) (i + 1) = arr l i.
Proof.
  intros. unfold arr. destruct (Z.leb_spec 0 (i + 1)), (Z.leb_spec 0 i); try lia.
  by replace (Z.to_nat (i + 1)) with (S (Z.to_nat i)) by lia.
Qed.

Lemma find_from_spec l k :
  match find_from p l k with
  | Some i => k <= i /\ exists x, arr l (i - k) = Some x /\ p x = true /\
                forall j y, 0 <= j < i - k -> arr l j = Some y -> p y = false
  | None => forall x, x ∈ l -> p x = false
  end.
Proof.
  revert k. induction l as [|x l IH]; intros k; simpl; [by intros ? ?%elem_of_nil|].
  destruct (p x) eqn:E.
  - split; [lia|]. exists x. rewrite Z.sub_diag. split_and!; [done|done|lia].
  - specialize (IH (k + 1)). destruct (find_from p l (k + 1)) as [i|].
    + destruct IH as (Hk & y & Hy & Hp & Hmin). split; [lia|]. exists y.
      replace (i - k) with (i - (k + 1) + 1) by lia. rewrite arr_cons_S by lia.
      split_and!; [done|done|]. intros j z Hj Hz.
      destruct (decide (j = 0)) as [->|]; [rewrite arr_cons_0 in Hz; by simplify_eq|].
      replace j with (j - 1 + 1) in Hz by lia. rewrite arr_cons_S in Hz by lia.
      eapply Hmin; [|done]. lia.
    + intros y [->|Hy]%elem_of_cons; auto.
Qed.

Lemma find_idx_Some l i :
  find_idx p l = Some i ->
  exists x, arr l i = Some x /\ p x = true /\
    forall j y, 0 <= j < i -> arr l j = Some y -> p y = false.
Proof.
  unfold find_idx. pose proof (find_from_spec l 0) as H. intros E. rewrite E in H.
  rewrite Z.sub_0_r in H. destruct H as (_ & x & Hx & ?). by exists x.
Qed.

Lemma find_idx_None l : find_idx p l = None <-> forall x, x ∈ l -> p x = false.
Proof.
  unfold find_idx. pose proof (find_from_spec l 0) as H. split.
  - intros E. by rewrite E in H.
  - intros Hall. destruct (find_from p l 0) as [i|]; [|done].
    destruct H as (_ & x & Hx & Hp & _). apply arr_elem in Hx.
    rewrite Hall in Hp by done. done.
Qed.

Lemma find_idx_first l i x :
  arr l i = Some x -> p x = true ->
  (forall j y, 0 <= j < i -> arr l j = Some y -> p y = false) -> find_idx p l = Some i.
Proof.
  intros Hx Hp Hmin. destruct (find_idx p l) as [k|] eqn:E.
  - apply find_idx_Some in E as (y & Hy & Hpy & Hmin'). f_equal.
    pose proof (arr_range _ _ _ Hx). pose proof (arr_range _ _ _ Hy).
    destruct (Z.lt_trichotomy i k) as [|[|]]; [|done|].
    + rewrite (Hmin' i x) in Hp by (lia || done). done.
    + rewrite (Hmin k y) in Hpy by (lia || done). done.
  - rewrite find_idx_None in E. rewrite E in Hp by (by eapply arr_elem). done.
Qed.

Lemma find_idx_range l i : find_idx p l = Some i -> 0 <= i < zlen l.
Proof. intros (x & Hx & _)%find_idx_Some. by eapply arr_range. Qed.
End find.

(** A loop that looks for the first element of a table that passes a test and
    ends there. *)
Lemma wp_search {S A R} (p : A -> bool) (l : list A) n (body : Z -> M S (option R)) Q s :
  zlen l = n ->
  (forall i x, arr l i = Some x -> p x = false -> body i s = Done None s) ->
  match find_idx p l with
  | Some i => forall x, arr l i = Some x -> p x = true ->
      wp (body i) (fun r t => match r with Some y => Q (Some y) t | None => False end) s
  | None => Q None s
  end ->
  wp (for_each (upto 0 n) body) Q s.
Proof.
  intros Hn Hskip HQ.
  apply (wp_for_each (fun i t => t = s /\ forall j y, 0 <= j < i -> arr l j = Some y -> p y = false)).
  - unfold zlen in Hn. lia.
  - split; [done|lia].
  - intros i t Hi [-> Hmin]. destruct (arr_lookup l i) as [x Hx]; [lia|]. destruct (p x) eqn:Hp.
    + rewrite (find_idx_first p l i x Hx Hp Hmin) in HQ. eapply wp_mono; [by eapply HQ|]. by intros [y|] t.
    + eapply wp_run; [by eapply Hskip|]. split; [done|]. intros j y Hj Hy.
      destruct (decide (j = i)) as [->|]; [by simplify_eq|]. eapply Hmin; [|done]. lia.
  - intros t [-> Hmin]. rewrite (proj2 (find_idx_None p l)) in HQ; [done|].
    intros x [j Hj]%elem_arr. eapply Hmin; [|done]. apply arr_range in Hj. lia.
Qed.

(** ** C strings and vectors

    A [const char *] that is not null is an address with the characters before
    the terminating NUL; a vector of pointers is an address with the pointers
    before the terminating null pointer. *)

Record cstring := mk_cstr { cs_addr : Z; cs_chars : list Z }.
Record ptrvec := mk_vec { vec_addr : Z; vec_ptrs : list Z }.

Definition chars (s : string) : list Z :=
  List.map (fun c => Z.of_nat (nat_of_ascii c)) (list_ascii_of_string s).

(** [copy_name(dst, src, max_len)]: at most [max_len - 1] characters and a NUL;
    the rest of [dst] is left as it was. *)
Definition copy_name (dst : list Z) (src : option cstring) (max_len : Z) : list Z :=
  match src with
  | None => upd dst 0 0
  | Some c =>
      let n := Z.to_nat (Z.min (max_len - 1) (zlen (cs_chars c))) in
      take n (cs_chars c) ++ 0 :: drop (S n) dst
  end.

(** The C string held in a character buffer. *)
Fixpoint c_str (buf : list Z) : list Z :=
  match buf with
  | [] => []
  | c :: buf => if c =? 0 then [] else c :: c_str buf
  end.

Lemma c_str_app_nul l r : Forall (fun c => c <> 0) l -> c_str (l ++ 0 :: r) = l.
Proof.
  induction 1 as [|c l Hc Hl IH]; [done|]. simpl.
  destruct (Z.eqb_spec c 0); [done|]. by rewrite IH.
Qed.

Lemma copy_name_len dst src max_len :
  0 < max_len <= zlen dst -> zlen (copy_name dst src max_len) = zlen dst.
Proof.
  intros Hm. destruct src as [c|]; simpl; [|apply zlen_upd].
  unfold zlen in *. rewrite length_app, length_cons, length_take, length_drop. lia.
Qed.

Lemma copy_name_c_str dst c max_len :
  0 < max_len <= zlen dst -> Forall (fun x => x <> 0) (cs_chars c) ->
  c_str (copy_name dst (Some c) max_len) = take (Z.to_nat (max_len - 1)) (cs_chars c).
Proof.
  intros Hm Hc. simpl. rewrite c_str_app_nul.
  - destruct (Z.min_spec (max_len - 1) (zlen (cs_chars c))) as [[? ->]|[? ->]]; [done|].
    unfold zlen in *. rewrite Nat2Z.id, firstn_all, firstn_all2; [done|lia].
  - by apply Forall_take.
Qed.

(** ** A component inside a larger state *)

Definition lift_to {S T A} (get : S -> T) (set : T -> S -> S) (c : M T A) : M S A := fun s =>
  match c (get s) with
  | Done a t => Done a (set t s)
  | Stuck f => Stuck f
  end.

Lemma wp_lift {S T A} (get : S -> T) (set : T -> S -> S) (c : M T A) Q s :
  wp c (fun a t => Q a (set t s)) (get s) -> wp (lift_to get set c) Q s.
Proof. unfold wp, lift_to. by destruct (c (get s)). Qed.

(** Changing one element of an array of the state in place. *)
Definition modify_at {S A} (proj : S -> list A) (set : list A -> S -> S) (i : Z) (f : A -> A) :
    M S unit :=
  x ← rd proj i; wr proj set i (f x).

Lemma wp_modify_at {S A} (proj : S -> list A) set i (f : A -> A) x (Q : unit -> S -> Prop) s :
  arr (proj s) i = Some x -> Q tt (set (upd (proj s) i (f x)) s) ->
  wp (modify_at proj set i f) Q s.
Proof.
  intros Hx HQ. unfold modify_at. apply wp_bind. eapply wp_rd; [done|].
  apply wp_wr; [by eapply arr_range|done].
Qed.

(** ** Words in memory *)

Lemma lookup_at {V} (m : gmap Z V) a b v : a = b -> <[a := v]> m !! b = Some v.
Proof. intros ->. apply lookup_insert_eq. Qed.

(** Look a word up in a memory with a number of writes. *)
Ltac at_key := repeat first [apply lookup_at; lia | rewrite lookup_insert_ne by lia].

(** ** Copying bytes

    [for (i = 0; i < len; i++) dst[i] = src[i]], and the same loop when [dst] is
    a buffer of the caller, whose new bytes are the answer. *)

Definition copy_bytes {S} (dst src : list Z) (len : Z) : M S (list Z) :=
  for_acc (upto 0 len) dst (fun d i =>
    b ← rd (fun _ => src) i;
    match arr d i with Some _ => mret (upd d i b) | None => stuck OutOfBounds end).

Definition load_bytes {S} (src : list Z) (len : Z) : M S (list Z) :=
  for_acc (upto 0 len) [] (fun d i => b ← rd (fun _ => src) i; mret (d ++ [b])).

Lemma take_snoc_arr {A} (l : list A) i b :
  0 <= i -> arr l i = Some b -> take (Z.to_nat (i + 1)) l = take (Z.to_nat i) l ++ [b].
Proof.
  intros Hi Hb. replace (Z.to_nat (i + 1)) with (S (Z.to_nat i)) by lia. apply take_S_r.
  unfold arr in Hb. by rewrite (proj2 (Z.leb_le 0 i) Hi) in Hb.
Qed.

Lemma upd_splice (dst src : list Z) i b :
  0 <= i < zlen dst -> arr src i = Some b ->
  upd (take (Z.to_nat i) src ++ drop (Z.to_nat i) dst) i b =
  take (Z.to_nat (i + 1)) src ++ drop (Z.to_nat (i + 1)) dst.
Proof.
  intros Hi Hb. pose proof (arr_range _ _ _ Hb) as Hs. rewrite (take_snoc_arr src i b), <- app_assoc by (done || lia).
  unfold upd, zlen in *. rewrite (proj2 (Z.leb_le 0 i)) by lia.
  assert (Hl : length (take (Z.to_nat i) src) = Z.to_nat i) by (rewrite length_take; lia).
  rewrite insert_app_r_alt by lia. f_equal. rewrite Hl, Nat.sub_diag.
  destruct (lookup_lt_is_Some_2 dst (Z.to_nat i)) as [x Hx]; [lia|]. rewrite (drop_S _ _ _ Hx). simpl.
  by replace (Z.to_nat (i + 1)) with (S (Z.to_nat i)) by lia.
Qed.

Lemma wp_copy_bytes {S} dst src len (Q : list Z -> S -> Prop) s :
  0 <= len <= zlen src -> len <= zlen dst ->
  Q (take (Z.to_nat len) src ++ drop (Z.to_nat len) dst) s -> wp (copy_bytes dst src len) Q s.
Proof.
  intros Hs Hd HQ. unfold copy_bytes.
  apply (wp_for_acc (fun i d t => t = s /\ d = take (Z.to_nat i) src ++ drop (Z.to_nat i) dst)).
  - lia.
  - done.
  - intros i d t Hi [-> ->]. destruct (arr_lookup src i) as [b Hb]; [lia|].
    wp_step. eapply wp_rd; [done|]. rewrite <- (upd_splice _ _ _ b) by (done || lia).
    destruct (arr_lookup (take (Z.to_nat i) src ++ drop (Z.to_nat i) dst) i) as [x ->]; [|done].
    unfold zlen in *. rewrite length_app, length_take, length_drop. lia.
  - by intros d t [-> ->].
Qed.

Lemma wp_load_bytes {S} src len (Q : list Z -> S -> Prop) s :
  0 <= len <= zlen src -> Q (take (Z.to_nat len) src) s -> wp (load_bytes src len) Q s.
Proof.
  intros Hs HQ. unfold load_bytes. apply (wp_for_acc (fun i d t => t = s /\ d = take (Z.to_nat i) src)).
  - lia.
  - done.
  - intros i d t Hi [-> ->]. destruct (arr_lookup src i) as [b Hb]; [lia|].
    wp_step. eapply wp_rd; [done|]. apply wp_ret. by rewrite (take_snoc_arr _ _ b) by (done || lia).
  - by intros d t [-> ->].
Qed.

(** ** Bytes of a big-endian integer *)

Definition is_byte (b : Z) : Prop := 0 <= b < 256.

Lemma lor_shiftl hi lo n : 0 <= n -> 0 <= lo < 2 ^ n -> Z.lor (Z.shiftl hi n) lo = hi * 2 ^ n + lo.
Proof.
  intros Hn Hlo. rewrite <- Z.shiftl_mul_pow2 by done. assert (Hc : Z.land (Z.shiftl hi n) lo = 0).
  2: by rewrite Z.add_nocarry_lxor, Z.lxor_lor.
  apply Z.bits_inj'. intros i Hi. rewrite Z.land_spec, Z.shiftl_spec, Z.bits_0 by done.
  destruct (Z_lt_le_dec i n); [by rewrite (Z.testbit_neg_r hi) by lia|].
  destruct (Z.testbit lo i) eqn:E; [|by rewrite andb_false_r].
  apply (testbit_lt_pow2 lo i n) in E; lia.
Qed.

(** ** Tables read as bags

    The used slots of a table, in no particular order: changing one slot changes
    one element. *)

Definition olist {A} (o : option A) : list A := match o with Some x => [x] | None => [] end.

Lemma omap_upd {A B} (f : A -> option B) l i x y :
  arr l i = Some y ->
  exists r, omap f l ≡ₚ olist (f y) ++ r /\ omap f (upd l i x) ≡ₚ olist (f x) ++ r.
Proof.
  intros Hy. pose proof (arr_range _ _ _ Hy) as Hr. unfold arr, upd in *. rewrite (proj2 (Z.leb_le 0 i)) in * by lia.
  exists (omap f (take (Z.to_nat i) l) ++ omap f (drop (S (Z.to_nat i)) l)). split.
  - rewrite <- (take_drop_middle l (Z.to_nat i) y Hy) at 1. rewrite omap_app. simpl.
    destruct (f y); simpl; [by rewrite <- Permutation_middle|done].
  - rewrite insert_take_drop by (unfold zlen in Hr; lia). rewrite omap_app. simpl.
    destruct (f x); simpl; [by rewrite <- Permutation_middle|done].
Qed.

Lemma length_omap_le {A B} (f : A -> option B) l : (length (omap f l) <= length l)%nat.
Proof. induction l as [|x l IH]; [done|]. cbn. destruct (f x); cbn; lia. Qed.

(** A table with a free slot has fewer elements than slots, a full one as many. *)
Lemma zlen_omap_free {A B} (f : A -> option B) (free : A -> bool) l :
  (forall x, f x = None <-> free x = true) ->
  match find_idx free l with
  | Some _ => zlen (omap f l) < zlen l
  | None => zlen (omap f l) = zlen l
  end.
Proof.
  intros Hf. destruct (find_idx free l) as [i|] eqn:E.
  - apply find_idx_Some in E as (x & Hx & Hu%Hf & _). apply arr_elem in Hx. unfold zlen.
    induction l as [|y l IH]; [by apply elem_of_nil in Hx|]. pose proof (length_omap_le f l) as Hle. cbn.
    apply elem_of_cons in Hx as [->|Hx]; [rewrite Hu; lia|]. specialize (IH Hx). destruct (f y); cbn; lia.
  - rewrite find_idx_None in E. unfold zlen. induction l as [|y l IH]; [done|]. cbn.
    destruct (f y) eqn:Ey; [cbn; rewrite Nat2Z.inj_succ, IH by (intros; apply E; by right); lia|].
    apply Hf in Ey. by rewrite E in Ey by (by left).
Qed.

Lemma NoDup_omap {A B} (f : A -> option B) l :
  (forall i j x y b, arr l i = Some x -> arr l j = Some y -> f x = Some b -> f y = Some b -> i = j) ->
  NoDup (omap f l).
Proof.
  induction l as [|x l IH]; intros H; [constructor|]. cbn.
  assert (IH' : NoDup (omap f l)).
  { apply IH. intros i j a b c Ha Hb Hfa Hfb. pose proof (arr_range _ _ _ Ha). pose proof (arr_range _ _ _ Hb).
    assert (i + 1 = j + 1); [|lia]. eapply H; [by rewrite arr_cons_S by lia..|done|done]. }
  destruct (f x) as [b|] eqn:E; [|done]. constructor; [|done].
  intros (y & [j Hy]%elem_arr & Ey)%list_elem_of_omap. pose proof (arr_range _ _ _ Hy).
  assert (0 = j + 1); [|lia]. eapply H; [done|by rewrite arr_cons_S by lia|done|done].
Qed.

(** ** Frames

    [keeps R c]: whenever [c] answers, the old and the new state are related by
    [R], whatever the state.  For a reflexive and transitive [R] this is shown
    command by command. *)

Definition keeps {S A} (R : relation S) (c : M S A) : Prop := forall s a s', c s = Done a s' -> R s s'.

Section Keeps.
Context {S : Type} (R : relation S) `{!PreOrder R}.

Lemma keeps_ret {A} (a : A) : keeps R (mret a).
Proof. by intros s b s' [= _ <-]. Qed.

Lemma keeps_bind {A B} (c : M S A) (k : A -> M S B) : keeps R c -> (forall a, keeps R (k a)) -> keeps R (c ≫= k).
Proof.
  intros Hc Hk s b s'' E. unfold mbind, M_bind in E. destruct (c s) as [a s'|] eqn:Ec; [|done].
  etrans; [by eapply Hc|by eapply Hk].
Qed.

Lemma keeps_gets {A} (f : S -> A) : keeps R (gets f).
Proof. by intros s b s' [= _ <-]. Qed.

Lemma keeps_stuck {A} f : keeps R (stuck f : M S A).
Proof. done. Qed.

Lemma keeps_modify f : (forall s, R s (f s)) -> keeps R (modify f).
Proof. intros Hf s b s' [= _ <-]. apply Hf. Qed.

Lemma keeps_rd {A} (proj : S -> list A) i : keeps R (rd proj i).
Proof. intros s b s'. unfold rd. destruct (arr _ _); [|done]. by intros [= _ <-]. Qed.

Lemma keeps_modify_at {A} (proj : S -> list A) set i f :
  (forall s x, arr (proj s) i = Some x -> R s (set (upd (proj s) i (f x)) s)) -> keeps R (modify_at proj set i f).
Proof.
  intros Hf s b s'. unfold modify_at, mbind, M_bind, rd. destruct (arr (proj s) i) as [x|] eqn:Ex; [|done].
  unfold wr. rewrite Ex. intros [= _ <-]. by apply Hf.
Qed.

Lemma keeps_lift {T A} (get : S -> T) (set : T -> S -> S) (c : M T A) :
  (forall s t, R s (set t s)) -> keeps R (lift_to get set c).
Proof. intros Hs s b s'. unfold lift_to. destruct (c (get s)); [|done]. intros [= _ <-]. apply Hs. Qed.

(** The component a routine runs on changes in a way of its own. *)
Lemma keeps_lift_in {T A} (R' : relation T) (get : S -> T) (set : T -> S -> S) (c : M T A) :
  keeps R' c -> (forall s t, R' (get s) t -> R s (set t s)) -> keeps R (lift_to get set c).
Proof.
  intros Hc Hs s b s'. unfold lift_to. destruct (c (get s)) as [a t|] eqn:E; [|done]. intros [= _ <-]. by eapply Hs, Hc.
Qed.

Lemma keeps_wr {A} (proj : S -> list A) set i x :
  (forall s, R s (set (upd (proj s) i x) s)) -> keeps R (wr proj set i x).
Proof. intros Hs s b s'. unfold wr. destruct (arr _ _); [|done]. intros [= _ <-]. apply Hs. Qed.

Lemma keeps_for_all ixs body : (forall i, keeps R (body i)) -> keeps R (for_all ixs body).
Proof. intros Hb. induction ixs as [|i ixs IH]; simpl; [apply keeps_ret|]. by apply keeps_bind. Qed.

Lemma keeps_for_each {A} ixs (body : Z -> M S (option A)) : (forall i, keeps R (body i)) -> keeps R (for_each ixs body).
Proof.
  intros Hb. induction ixs as [|i ixs IH]; simpl; [apply keeps_ret|]. apply keeps_bind; [done|]. intros []; [apply keeps_ret|done].
Qed.

End Keeps.

Lemma wp_keeps {S A} (R : relation S) (c : M S A) (Q : A -> S -> Prop) s :
  keeps R c -> wp c (fun a s' => R s s' -> Q a s') s -> wp c Q s.
Proof. unfold wp, keeps. intros Hk. specialize (Hk s). destruct (c s) as [a s'|]; [|done]. intros HQ. by apply HQ, (Hk a). Qed.

(** ** Hints

    Facts of arrays and integers that come up everywhere: [auto with nm] closes
    ranges and table facts, [autorewrite with nm] computes lengths. *)

Create HintDb nm discriminated.
Create Rewrite HintDb nm.
#[export] Hint Resolve u64_range u32_range arr_range arr_elem Forall_upd : nm.
#[export] Hint Rewrite @zlen_upd @upd_upd @length_app @length_take @length_drop @length_replicate : nm.
