(* ===== verification/Interfaces.v ===== *)
(** * Interfaces between components

    What one component promises to another, as type classes: the clients'
    theorems are proved against the class, and the component that implements it
    discharges the laws with its own theorems. *)

From S2P Require Import Prelude.

(** The kernel heap, as [task.c] uses it ([kmalloc] and [kfree] of [mm.h]): on
    a heap in order, an allocation answers null and changes nothing, or a block
    of the requested size apart from every block already owned; a free gives up
    one block and keeps the others. *)
Class KHeap (H : Type) := {
  malloc : Z -> M H Z;
  free : Z -> M H unit;
  heap_ok : H -> Prop;
  owns : H -> Z -> Z -> Prop;
  malloc_limit : Z;

  malloc_limit_min : 65536 <= malloc_limit;
  malloc_law h n (Q : Z -> H -> Prop) :
    heap_ok h -> 0 < n <= malloc_limit ->
    Q 0 h ->
    (forall p h', heap_ok h' -> 0 < p -> p + n < 2 ^ 63 -> owns h' p n ->
       (forall q m, owns h q m -> owns h' q m /\ (p + n <= q \/ q + m <= p)) -> Q p h') ->
    wp (malloc n) Q h;
  free_law h p n (Q : unit -> H -> Prop) :
    heap_ok h -> owns h p n ->
    (forall h', heap_ok h' -> (forall q m, owns h q m -> q <> p -> owns h' q m) -> Q tt h') ->
    wp (free p) Q h;
}.

(** A heap with several clients keeps the promise to each of them: the blocks
    [kept] for the others stay owned and apart from those the client has. *)
Definition apart_from (kept : list (Z * Z)) (p n : Z) : Prop := Forall (fun b => p + n <= b.1 \/ b.1 + b.2 <= p) kept.

Lemma apart_not_in kept p n b : 0 < n -> 0 < b.2 -> apart_from kept p n -> b ∈ kept -> b.1 <> p.
Proof. intros Hn Hb Ha Hin. pose proof (proj1 (Forall_forall _ _) Ha b Hin) as Hd. simpl in Hd. lia. Qed.

#[local] Obligation Tactic := idtac.
Program Definition shared_heap {H : Type} `{KHeap H} (kept : list (Z * Z)) : KHeap H := {|
  malloc := malloc; free := free;
  heap_ok h := heap_ok h /\ Forall (fun b => 0 < b.2 /\ owns h b.1 b.2) kept;
  owns h p n := 0 < n /\ owns h p n /\ apart_from kept p n;
  malloc_limit := malloc_limit;
|}.
Next Obligation. intros H HK kept. apply malloc_limit_min. Qed.
Next Obligation.
  intros H HK kept h n Q [Hok Hk] Hn Hnull HQ. apply malloc_law; [done|done|done|]. intros p h' Hok' Hp Hend Hown Hkeep.
  apply HQ; [|done|done| |].
  - split; [done|]. eapply Forall_impl; [exact Hk|]. intros b [Hb Ho]. split; [done|]. by apply Hkeep.
  - split_and!; [lia|done|]. eapply Forall_impl; [exact Hk|]. intros b [_ Ho]. by apply Hkeep.
  - intros q m (Hm & Ho & Ha). destruct (Hkeep q m Ho) as [Ho2 Hd]. split; [by split_and!|exact Hd].
Qed.
Next Obligation.
  intros H HK kept h p n Q [Hok Hk] (Hn & Ho & Ha) HQ. eapply free_law; [done|done|]. intros h' Hok' Hkeep. apply HQ.
  - split; [done|]. apply Forall_forall. intros b Hb. rewrite Forall_forall in Hk. destruct (Hk b Hb) as [Hpos Hob].
    split; [done|]. apply Hkeep; [done|]. exact (apart_not_in kept p n b Hn Hpos Ha Hb).
  - intros q m (Hm & Hoq & Hq) Hne. split_and!; [done|by apply Hkeep|done].
Qed.

(** The page allocator, as [vmm.c] uses it ([pmm_alloc_page] and [pmm_free_page]
    of [mm.h]).  Its frames are fixed; an allocation answers 0 and changes nothing
    when every frame is in use, and otherwise the address of a frame that was not;
    a free gives up one page. *)
Class PageAlloc (P : Type) := {
  page_alloc : M P Z;
  page_free : Z -> M P unit;
  pages_ok : P -> Prop;
  page_frame : P -> Z -> Prop;
  page_used : P -> Z -> Prop;

  page_frame_range p a : pages_ok p -> page_frame p a -> 0 < a < 2 ^ 46 /\ a `mod` 4096 = 0;
  page_alloc_law p (Q : Z -> P -> Prop) :
    pages_ok p ->
    ((forall b, page_frame p b -> page_used p b) -> Q 0 p) ->
    (forall a p', pages_ok p' -> page_frame p a -> ~ page_used p a ->
       (forall b, page_frame p' b <-> page_frame p b) ->
       (forall b, page_used p' b <-> page_used p b \/ b = a) -> Q a p') ->
    wp page_alloc Q p;
  page_free_law p a (Q : unit -> P -> Prop) :
    pages_ok p -> page_used p a ->
    (forall p', pages_ok p' -> (forall b, page_frame p' b <-> page_frame p b) ->
       (forall b, page_used p' b <-> page_used p b /\ b <> a) -> Q tt p') ->
    wp (page_free a) Q p;
}.

(** The file system, as [fd.c] uses it ([fs_read], [fs_write] and [fs_close] of
    [fs.h]).  A read answers its return value with the bytes it stored; a write
    is for a file system with room, that is, one that no open file takes past the
    longest file it can hold. *)
Class FileSys (F : Type) := {
  fs_read : Z -> Z -> M F (Z * list Z);
  fs_write : Z -> list Z -> Z -> M F Z;
  fs_close : Z -> M F Z;
  fs_ok : F -> Prop;
  fs_room : F -> Z -> Prop;

  fs_read_law f fd len : fs_ok f -> 0 <= len ->
    wp (fs_read fd len) (fun r f' => fs_ok f' /\ zlen r.2 <= len) f;
  fs_write_law f fd data len :
    fs_ok f -> 0 <= len <= zlen data -> fs_room f len -> wp (fs_write fd data len) (fun r f' => fs_ok f' /\ r <= len) f;
  fs_close_law f fd : fs_ok f -> wp (fs_close fd) (fun _ f' => fs_ok f') f;
}.
