(* ===== verification/Pmm.v ===== *)
(** * Physical memory manager ([kernel/mm/pmm.c])

    The frame bitmap allocator of the kernel build (the branch of the file that
    is compiled without NEVERMIND_HOST_TEST): the bitmap and its statistics, the
    single-page and the contiguous allocation, the release of a page, and the
    two ways the bitmap is built at boot (from a list of ranges, and from the
    multiboot2 information structure in memory). *)

From S2P Require Import Prelude Interfaces.

Module Pmm.

Definition PAGE_SIZE : Z := 4096.
Definition KERNEL_VIRT_BASE : Z := 18446744071562067968. (* 0xFFFFFFFF80000000 *)
Definition MAX_FRAMES : Z := 33554432. (* 128 GiB / PAGE_SIZE *)
Definition BITMAP_WORD_BITS : Z := 64.
Definition NM_MEM_AVAILABLE : Z := 1.

(** ** State *)

Record nm_mm_stats := mk_stats {
  total_frames : Z;
  free_frames : Z;
  used_frames : Z;
  reserved_frames : Z;
}.

Record nm_mem_range := mk_range {
  range_base : Z;
  range_length : Z;
  range_type : Z;
}.

(** The globals of the file. [frame_bitmap] holds the words the C pointer of
    that name points to. *)
Record pmm := mk_pmm {
  mm_stats : nm_mm_stats;
  frame_bitmap : list Z;
  frame_limit : Z;
  bitmap_words : Z;
  bitmap_phys_base : Z;
  bitmap_bytes : Z;
  alloc_word_cursor : Z;
  pmm_lock_word : Z;
}.

Definition set_stats v s := mk_pmm v (frame_bitmap s) (frame_limit s) (bitmap_words s)
  (bitmap_phys_base s) (bitmap_bytes s) (alloc_word_cursor s) (pmm_lock_word s).
Definition set_bitmap v s := mk_pmm (mm_stats s) v (frame_limit s) (bitmap_words s)
  (bitmap_phys_base s) (bitmap_bytes s) (alloc_word_cursor s) (pmm_lock_word s).
Definition set_cursor v s := mk_pmm (mm_stats s) (frame_bitmap s) (frame_limit s)
  (bitmap_words s) (bitmap_phys_base s) (bitmap_bytes s) v (pmm_lock_word s).
Definition set_lock v s := mk_pmm (mm_stats s) (frame_bitmap s) (frame_limit s)
  (bitmap_words s) (bitmap_phys_base s) (bitmap_bytes s) (alloc_word_cursor s) v.

(** [free_frames -= n; used_frames += n], and the reverse with a negative [n]. *)
Definition stats_take (n : Z) (st : nm_mm_stats) : nm_mm_stats :=
  mk_stats (total_frames st) (u64 (free_frames st - n)) (u64 (used_frames st + n))
    (reserved_frames st).
Definition stats_reserve (st : nm_mm_stats) : nm_mm_stats :=
  mk_stats (total_frames st) (free_frames st) (used_frames st) (u64 (reserved_frames st + 1)).
Definition take_frames (n : Z) (s : pmm) : pmm := set_stats (stats_take n (mm_stats s)) s.

(** ** Lock *)

Definition pmm_lock : M pmm unit := fun s =>
  if pmm_lock_word s =? 0 then Done tt (set_lock 1 s) else Stuck LockHeld.
Definition pmm_unlock : M pmm unit := modify (set_lock 0).

(** ** The bitmap *)

Definition frame_valid (frame : Z) : M pmm bool := gets (fun s => frame <? frame_limit s).

Definition set_frame (frame : Z) : M pmm unit :=
  valid ← frame_valid frame;
  if negb valid then mret tt
  else
    w ← rd frame_bitmap (frame / BITMAP_WORD_BITS);
    wr frame_bitmap set_bitmap (frame / BITMAP_WORD_BITS)
      (set_bit64 w (frame `mod` BITMAP_WORD_BITS)).

Definition clear_frame (frame : Z) : M pmm unit :=
  valid ← frame_valid frame;
  if negb valid then mret tt
  else
    w ← rd frame_bitmap (frame / BITMAP_WORD_BITS);
    wr frame_bitmap set_bitmap (frame / BITMAP_WORD_BITS)
      (clear_bit64 w (frame `mod` BITMAP_WORD_BITS)).

Definition test_frame (frame : Z) : M pmm bool :=
  valid ← frame_valid frame;
  if negb valid then mret true
  else
    w ← rd frame_bitmap (frame / BITMAP_WORD_BITS);
    mret (negb (Z.land w (u64 (Z.shiftl 1 (frame `mod` BITMAP_WORD_BITS))) =? 0)).

(** [memset(frame_bitmap, 0xFF, bitmap_bytes)]: eight bytes of ones a word. *)
Definition mark_all_used : M pmm unit :=
  modify (fun s =>
    mk_pmm (mk_stats (frame_limit s) 0 (frame_limit s) 0)
      (replicate (Z.to_nat (bitmap_bytes s / 8)) UINT64_MAX)
      (frame_limit s) (bitmap_words s) (bitmap_phys_base s) (bitmap_bytes s) 0
      (pmm_lock_word s)).

(** ** Allocation *)

Definition alloc_single_page_unlocked : M pmm Z :=
  start ← gets alloc_word_cursor;
  words ← gets bitmap_words;
  r ← for_each (upto 0 words) (fun pass =>
    words ← gets bitmap_words;
    if words =? 0 then stuck DivByZero else
    let word_idx := u64 (start + pass) `mod` words in
    word ← rd frame_bitmap word_idx;
    if word =? UINT64_MAX then mret None else
    let free_mask := u64 (Z.lnot word) in
    if free_mask =? 0 then mret None else
    let bit := ctzll free_mask in
    let frame := u64 (word_idx * BITMAP_WORD_BITS + bit) in
    valid ← frame_valid frame;
    if negb valid then mret None else
    set_frame frame ;;
    modify (take_frames 1) ;;
    modify (set_cursor word_idx) ;;
    mret (Some (u64 (frame * PAGE_SIZE))));
  mret (default 0 r).

(** The inner loop of [pmm_alloc_pages] that tests [count] frames from [frame]. *)
Definition run_is_free (frame count : Z) : M pmm bool :=
  r ← for_each (upto 0 count) (fun i =>
    t ← test_frame (u64 (frame + i));
    if t : bool then mret (Some false) else mret None);
  mret (default true r).

Definition pmm_alloc_pages (count : Z) : M pmm Z :=
  limit ← gets frame_limit;
  if (count =? 0) || (limit <? count) then mret 0 else
  pmm_lock ;;
  free ← gets (fun s => free_frames (mm_stats s));
  if free <? count then pmm_unlock ;; mret 0 else
  if count =? 1 then
    one ← alloc_single_page_unlocked;
    pmm_unlock ;;
    mret one
  else
  cursor ← gets alloc_word_cursor;
  if limit =? 0 then stuck DivByZero else
  let start_frame := u64 (cursor * BITMAP_WORD_BITS) `mod` limit in
  r ← for_each (upto 0 limit) (fun pass =>
    let frame := u64 (start_frame + pass) `mod` limit in
    if limit <? u64 (frame + count) then mret None else
    ok ← run_is_free frame count;
    if negb ok then mret None else
    for_all (upto 0 count) (fun i => set_frame (u64 (frame + i))) ;;
    modify (take_frames count) ;;
    modify (set_cursor (u64 (frame + count) / BITMAP_WORD_BITS)) ;;
    let phys := u64 (frame * PAGE_SIZE) in
    pmm_unlock ;;
    mret (Some phys));
  match r with
  | Some phys => mret phys
  | None => pmm_unlock ;; mret 0
  end.

Definition pmm_alloc_page : M pmm Z := pmm_alloc_pages 1.

Definition pmm_free_page (phys_addr : Z) : M pmm unit :=
  if (phys_addr =? 0) || negb (phys_addr `mod` PAGE_SIZE =? 0) then mret tt else
  pmm_lock ;;
  let frame := phys_addr / PAGE_SIZE in
  valid ← frame_valid frame;
  if negb valid then pmm_unlock else
  t ← test_frame frame;
  if negb t then pmm_unlock else
  clear_frame frame ;;
  modify (take_frames (-1)) ;;
  modify (set_cursor (frame / BITMAP_WORD_BITS)) ;;
  pmm_unlock.

Definition pmm_get_stats : M pmm nm_mm_stats :=
  pmm_lock ;;
  snapshot ← gets mm_stats;
  pmm_unlock ;;
  mret snapshot.

(** ** Building the bitmap *)

Definition mark_range_available (base length : Z) : M pmm unit :=
  limit ← gets frame_limit;
  let start := u64 (u64 (base + PAGE_SIZE) - 1) / PAGE_SIZE in
  let end0 := u64 (base + length) / PAGE_SIZE in
  let end_ := if limit <? end0 then limit else end0 in
  for_all (upto start end_) (fun frame =>
    t ← test_frame frame;
    if t : bool then
      clear_frame frame ;;
      modify (take_frames (-1))
    else mret tt).

Definition reserve_range (base length : Z) : M pmm unit :=
  limit ← gets frame_limit;
  let start := base / PAGE_SIZE in
  let end0 := u64 (u64 (u64 (base + length) + PAGE_SIZE) - 1) / PAGE_SIZE in
  let end_ := if limit <? end0 then limit else end0 in
  for_all (upto start end_) (fun frame =>
    t ← test_frame frame;
    if negb t then
      set_frame frame ;;
      modify (take_frames 1) ;;
      modify (fun s => set_stats (stats_reserve (mm_stats s)) s)
    else mret tt).

Definition align_up_u64 (value align : Z) : Z :=
  Z.land (u64 (u64 (value + align) - 1)) (u64 (Z.lnot (u64 (align - 1)))).

Definition kernel_symbol_to_phys (addr : Z) : Z :=
  if KERNEL_VIRT_BASE <=? addr then u64 (addr - KERNEL_VIRT_BASE) else addr.

Section boot.
(** The linker symbols [__kernel_phys_start] and [__kernel_phys_end]. *)
Context (kernel_phys_start kernel_phys_end : Z).

Definition init_runtime_bitmap (frames min_phys_base : Z) : M pmm unit :=
  let frames := if frames =? 0 then 1 else frames in
  let frames := if MAX_FRAMES <? frames then MAX_FRAMES else frames in
  let words := u64 (u64 (frames + BITMAP_WORD_BITS) - 1) / BITMAP_WORD_BITS in
  let kernel_end_phys := kernel_symbol_to_phys kernel_phys_end in
  let min_phys_base := if min_phys_base <? kernel_end_phys then kernel_end_phys
                       else min_phys_base in
  modify (fun s => mk_pmm (mm_stats s) (frame_bitmap s) frames words
    (align_up_u64 min_phys_base PAGE_SIZE) (u64 (words * 8)) (alloc_word_cursor s)
    (pmm_lock_word s)).

(** [highest_end] after the first loop of [pmm_init_from_ranges]. *)
Definition ranges_highest_end (ranges : list nm_mem_range) : Z :=
  foldl (fun highest r =>
    if negb (range_type r =? NM_MEM_AVAILABLE) then highest else
    let end_ := u64 (range_base r + range_length r) in
    if highest <? end_ then end_ else highest) 0 ranges.

Fixpoint mark_ranges (ranges : list nm_mem_range) : M pmm unit :=
  match ranges with
  | [] => mret tt
  | r :: rest =>
      (if range_type r =? NM_MEM_AVAILABLE
       then mark_range_available (range_base r) (range_length r)
       else mret tt) ;;
      mark_ranges rest
  end.

(** The reservations every initialisation ends with. *)
Definition reserve_kernel : M pmm unit :=
  reserve_range 0 1048576 ;;
  reserve_range (kernel_symbol_to_phys kernel_phys_start)
    (u64 (kernel_symbol_to_phys kernel_phys_end - kernel_symbol_to_phys kernel_phys_start)) ;;
  base ← gets bitmap_phys_base;
  bytes ← gets bitmap_bytes;
  reserve_range base bytes.

Definition pmm_init_from_ranges (ranges : list nm_mem_range) : M pmm unit :=
  modify (set_lock 0) ;;
  let detected_frames := ranges_highest_end ranges / PAGE_SIZE in
  init_runtime_bitmap detected_frames (kernel_symbol_to_phys kernel_phys_end) ;;
  mark_all_used ;;
  mark_ranges ranges ;;
  reserve_kernel.

(** ** The multiboot2 information structure ([include/nm/multiboot2.h])

    [mem] gives the byte at a physical address; the structure is read in
    place and nothing the routine writes overlaps it. *)
Context (mem : Z -> Z).

Definition MB2_TAG_END : Z := 0.
Definition MB2_TAG_MODULE : Z := 3.
Definition MB2_TAG_MMAP : Z := 6.

Definition read32 (a : Z) : Z :=
  u8 (mem a) + u8 (mem (a + 1)) * 256 + u8 (mem (a + 2)) * 65536 + u8 (mem (a + 3)) * 16777216.
Definition read64 (a : Z) : Z := read32 a + read32 (a + 4) * 4294967296.

(** The checks at the head of both loops over the tags: [None] ends the loop,
    [Some next] is where the following tag starts. *)
Definition mb2_tag_next (cursor end_ : Z) : option Z :=
  if negb (cursor + 8 <=? end_) then None else
  if read32 cursor =? MB2_TAG_END then None else
  if read32 (cursor + 4) <? 8 then None else
  let aligned := Z.land (u64 (read32 (cursor + 4) + 7)) (u64 (Z.lnot 7)) in
  let next := cursor + aligned in
  if (next <=? cursor) || (end_ <? next) then None else Some next.

(** First pass, over the entries of a memory map. *)
Fixpoint mmap_scan (fuel : nat) (entry_ptr entry_end entry_size highest : Z) : option Z :=
  if negb (entry_ptr + 24 <=? entry_end) then Some highest else
  match fuel with
  | O => None
  | S fuel' =>
      let highest' :=
        if read32 (entry_ptr + 16) =? NM_MEM_AVAILABLE then
          let e_end := u64 (read64 entry_ptr + read64 (entry_ptr + 8)) in
          if highest <? e_end then e_end else highest
        else highest in
      mmap_scan fuel' (entry_ptr + entry_size) entry_end entry_size highest'
  end.

(** First pass, over the tags: the highest end of usable memory. *)
Fixpoint mb2_scan (fuel : nat) (cursor end_ highest : Z) : option Z :=
  match mb2_tag_next cursor end_ with
  | None => Some highest
  | Some next =>
      match fuel with
      | O => None
      | S fuel' =>
          let type := read32 cursor in
          let size := read32 (cursor + 4) in
          h1 ← (if (type =? MB2_TAG_MMAP) && (16 <=? size) && (24 <=? read32 (cursor + 8))
                then mmap_scan (Z.to_nat size) (cursor + 16) (cursor + size)
                       (read32 (cursor + 8)) highest
                else Some highest);
          let h2 :=
            if (type =? MB2_TAG_MODULE) && (16 <=? size)
               && (read32 (cursor + 8) <? read32 (cursor + 12))
               && (h1 <? read32 (cursor + 12))
            then read32 (cursor + 12) else h1 in
          mb2_scan fuel' next end_ h2
      end
  end.

(** Second pass, over the entries of a memory map. *)
Fixpoint mmap_mark (fuel : nat) (entry_ptr entry_end entry_size : Z) : M pmm unit :=
  if negb (entry_ptr + 24 <=? entry_end) then mret tt else
  match fuel with
  | O => stuck OutOfFuel
  | S fuel' =>
      (if read32 (entry_ptr + 16) =? NM_MEM_AVAILABLE
       then mark_range_available (read64 entry_ptr) (read64 (entry_ptr + 8))
       else mret tt) ;;
      mmap_mark fuel' (entry_ptr + entry_size) entry_end entry_size
  end.

(** Second pass, over the tags. *)
Fixpoint mb2_mark (fuel : nat) (cursor end_ : Z) : M pmm unit :=
  match mb2_tag_next cursor end_ with
  | None => mret tt
  | Some next =>
      match fuel with
      | O => stuck OutOfFuel
      | S fuel' =>
          let type := read32 cursor in
          let size := read32 (cursor + 4) in
          (if (type =? MB2_TAG_MMAP) && (16 <=? size) && (24 <=? read32 (cursor + 8))
           then mmap_mark (Z.to_nat size) (cursor + 16) (cursor + size) (read32 (cursor + 8))
           else mret tt) ;;
          (if (type =? MB2_TAG_MODULE) && (16 <=? size)
              && (read32 (cursor + 8) <? read32 (cursor + 12))
           then reserve_range (read32 (cursor + 8))
                  (u32 (read32 (cursor + 12) - read32 (cursor + 8)))
           else mret tt) ;;
          mb2_mark fuel' next end_
      end
  end.

Definition pmm_init_from_multiboot2 (mb2_info_ptr : Z) : M pmm unit :=
  modify (set_lock 0) ;;
  if mb2_info_ptr =? 0 then
    init_runtime_bitmap MAX_FRAMES (kernel_symbol_to_phys kernel_phys_end) ;;
    mark_all_used ;;
    reserve_kernel
  else
  let total_size := read32 mb2_info_ptr in
  if total_size <? 8 then
    init_runtime_bitmap MAX_FRAMES (kernel_symbol_to_phys kernel_phys_end) ;;
    mark_all_used ;;
    reserve_kernel
  else
  let end_ := u64 (mb2_info_ptr + total_size) in
  let cursor := u64 (mb2_info_ptr + 8) in
  match mb2_scan (Z.to_nat total_size) cursor end_ 0 with
  | None => stuck OutOfFuel
  | Some highest_end =>
      init_runtime_bitmap (highest_end / PAGE_SIZE) (u64 (mb2_info_ptr + total_size)) ;;
      mark_all_used ;;
      mb2_mark (Z.to_nat total_size) cursor end_ ;;
      reserve_kernel ;;
      reserve_range mb2_info_ptr total_size
  end.
End boot.

(** ** Specification view: which frames are in use *)

Definition frame_used (s : pmm) (f : Z) : bool :=
  match arr (frame_bitmap s) (f / BITMAP_WORD_BITS) with
  | Some w => Z.testbit w (f `mod` BITMAP_WORD_BITS)
  | None => true
  end.

(** The number of free frames below the limit. *)
Definition free_count (s : pmm) : Z :=
  countb (fun f => negb (frame_used s f)) (upto 0 (frame_limit s)).

(** The bitmap with bit [f] set or cleared. *)
Definition mark (f : Z) (b : bool) (s : pmm) : pmm :=
  match arr (frame_bitmap s) (f / BITMAP_WORD_BITS) with
  | Some w =>
      set_bitmap (upd (frame_bitmap s) (f / BITMAP_WORD_BITS)
        (if b then set_bit64 w (f `mod` BITMAP_WORD_BITS)
         else clear_bit64 w (f `mod` BITMAP_WORD_BITS))) s
  | None => s
  end.

(** The bitmap covers the frames below the limit, and the bits past the limit
    are set. *)
Record bm_ok (s : pmm) : Prop := mk_bm_ok {
  wf_limit : 0 < frame_limit s <= MAX_FRAMES;
  wf_words : bitmap_words s = (frame_limit s + 63) / 64;
  wf_len : zlen (frame_bitmap s) = bitmap_words s;
  wf_u64 : Forall is_u64 (frame_bitmap s);
  wf_pad : forall f, frame_limit s <= f -> frame_used s f = true;
}.

(** Well-formedness of the allocator at any point where the statistics and the
    bitmap agree. *)
Record wf (s : pmm) : Prop := mk_wf {
  wf_bm :> bm_ok s;
  wf_cursor : 0 <= alloc_word_cursor s <= bitmap_words s;
  wf_total : total_frames (mm_stats s) = frame_limit s;
  wf_free : free_frames (mm_stats s) = free_count s;
  wf_used : used_frames (mm_stats s) = frame_limit s - free_count s;
}.

(** The invariant between calls: frame 0 is never handed out (its address is
    the failure value) and the lock is free. *)
Record inv (s : pmm) : Prop := mk_inv {
  inv_wf :> wf s;
  inv_zero : frame_used s 0 = true;
  inv_lock : pmm_lock_word s = 0;
}.

(** What no allocation or release changes. *)
Definition same_config (s s' : pmm) : Prop :=
  frame_limit s' = frame_limit s /\ bitmap_words s' = bitmap_words s /\
  bitmap_phys_base s' = bitmap_phys_base s /\ bitmap_bytes s' = bitmap_bytes s.

Ltac pmm_lia := unfold BITMAP_WORD_BITS, MAX_FRAMES, PAGE_SIZE, UINT64_MAX in *;
  Z.to_euclidean_division_equations; lia.

Lemma word_index_range s f :
  bm_ok s -> 0 <= f < 64 * bitmap_words s ->
  0 <= f / BITMAP_WORD_BITS < zlen (frame_bitmap s).
Proof. intros H Hf. rewrite (wf_len _ H). pmm_lia. Qed.

Lemma limit_words s f : bm_ok s -> f < frame_limit s -> f < 64 * bitmap_words s.
Proof. intros H Hf. rewrite (wf_words _ H). pmm_lia. Qed.

Lemma mark_used s f b g :
  bm_ok s -> 0 <= f < 64 * bitmap_words s ->
  frame_used (mark f b s) g = if g =? f then b else frame_used s g.
Proof.
  intros H Hf. pose proof (word_index_range s f H Hf) as Hi.
  destruct (arr_lookup _ _ Hi) as [w Hw]. unfold mark. rewrite Hw.
  unfold frame_used. simpl. rewrite arr_upd by done.
  assert (Hm : forall x, 0 <= x `mod` BITMAP_WORD_BITS < 64) by (intros; pmm_lia).
  destruct (Z.eqb_spec (f / BITMAP_WORD_BITS) (g / BITMAP_WORD_BITS)) as [E|E].
  - rewrite <- E, Hw. destruct (Z.eqb_spec g f) as [->|Hne].
    + destruct b; [rewrite set_bit64_testbit by auto|rewrite clear_bit64_testbit by auto];
        rewrite Z.eqb_refl; [apply orb_true_r|apply andb_false_r].
    + assert (Hb : (f `mod` BITMAP_WORD_BITS =? g `mod` BITMAP_WORD_BITS) = false)
        by (apply Z.eqb_neq; pmm_lia).
      destruct b; [rewrite set_bit64_testbit by auto|rewrite clear_bit64_testbit by auto];
        rewrite Hb; [apply orb_false_r|apply andb_true_r].
  - destruct (Z.eqb_spec g f) as [->|]; done.
Qed.

Lemma mark_fields s f b :
  frame_limit (mark f b s) = frame_limit s /\ bitmap_words (mark f b s) = bitmap_words s /\
  bitmap_phys_base (mark f b s) = bitmap_phys_base s /\
  bitmap_bytes (mark f b s) = bitmap_bytes s /\
  alloc_word_cursor (mark f b s) = alloc_word_cursor s /\
  pmm_lock_word (mark f b s) = pmm_lock_word s /\ mm_stats (mark f b s) = mm_stats s.
Proof. unfold mark. destruct (arr _ _); done. Qed.

Lemma mark_len s f b : zlen (frame_bitmap (mark f b s)) = zlen (frame_bitmap s).
Proof. unfold mark. destruct (arr _ _); [|done]. simpl. apply zlen_upd. Qed.

Lemma mark_u64 s f b : Forall is_u64 (frame_bitmap s) -> Forall is_u64 (frame_bitmap (mark f b s)).
Proof.
  intros. unfold mark. destruct (arr _ _); [|done]. simpl.
  apply Forall_upd; [done|]. destruct b; apply u64_range.
Qed.

Lemma set_frame_run s f :
  bm_ok s -> 0 <= f < frame_limit s -> set_frame f s = Done tt (mark f true s).
Proof.
  intros H Hf. pose proof (limit_words s f H) as ?.
  destruct (arr_lookup _ _ (word_index_range s f H ltac:(lia))) as [w Hw].
  unfold set_frame, frame_valid, gets, mark, mbind, M_bind, rd, wr.
  destruct (Z.ltb_spec f (frame_limit s)); [|lia]. simpl. by rewrite Hw, Hw.
Qed.

Lemma clear_frame_run s f :
  bm_ok s -> 0 <= f < frame_limit s -> clear_frame f s = Done tt (mark f false s).
Proof.
  intros H Hf. pose proof (limit_words s f H) as ?.
  destruct (arr_lookup _ _ (word_index_range s f H ltac:(lia))) as [w Hw].
  unfold clear_frame, frame_valid, gets, mark, mbind, M_bind, rd, wr.
  destruct (Z.ltb_spec f (frame_limit s)); [|lia]. simpl. by rewrite Hw, Hw.
Qed.

Lemma land_bit w b :
  0 <= b < 64 -> negb (Z.land w (u64 (Z.shiftl 1 b)) =? 0) = Z.testbit w b.
Proof.
  intros Hb.
  assert (Hs : u64 (Z.shiftl 1 b) = 2 ^ b).
  { rewrite Z.shiftl_1_l. apply u64_small.
    change 18446744073709551616 with (2 ^ 64). split; [lia|]. apply Z.pow_lt_mono_r; lia. }
  rewrite Hs. destruct (Z.testbit w b) eqn:E.
  - apply negb_true_iff, Z.eqb_neq. intros H0.
    assert (Z.testbit (Z.land w (2 ^ b)) b = false) as Hf by (by rewrite H0, Z.testbit_0_l).
    rewrite Z.land_spec, E, Z.pow2_bits_true in Hf by lia. done.
  - apply negb_false_iff, Z.eqb_eq, Z.bits_inj'. intros i Hi.
    rewrite Z.land_spec, Z.pow2_bits_eqb, Z.testbit_0_l by lia.
    destruct (Z.eqb_spec b i) as [->|]; [by rewrite E|apply andb_false_r].
Qed.

Lemma test_frame_run s f : bm_ok s -> 0 <= f -> test_frame f s = Done (frame_used s f) s.
Proof.
  intros H Hf. unfold test_frame, frame_valid, gets, mbind, M_bind, rd.
  destruct (Z.ltb_spec f (frame_limit s)); simpl.
  - pose proof (limit_words s f H) as ?.
    destruct (arr_lookup _ _ (word_index_range s f H ltac:(lia))) as [w Hw].
    rewrite Hw. unfold frame_used. rewrite Hw, land_bit by pmm_lia. done.
  - by rewrite (wf_pad _ H) by lia.
Qed.

(** Turning one frame over and adjusting the statistics keeps the allocator
    well formed. *)
Lemma free_count_range s : bm_ok s -> 0 <= free_count s <= frame_limit s.
Proof.
  intros H. pose proof (wf_limit _ H).
  pose proof (countb_range (fun f => negb (frame_used s f)) (upto 0 (frame_limit s))) as Hc.
  rewrite zlen_upto in Hc by lia. unfold free_count. lia.
Qed.

Lemma free_count_mark s f (b : bool) :
  bm_ok s -> 0 <= f < frame_limit s -> frame_used s f = negb b ->
  free_count (mark f b s) = if b then free_count s - 1 else free_count s + 1.
Proof.
  intros H Hf Hu. pose proof (limit_words s f H) as ?.
  destruct (mark_fields s f b) as (Hl & _). unfold free_count. rewrite Hl.
  assert (Hm : forall g, frame_used (mark f b s) g = if g =? f then b else frame_used s g)
    by (intros; apply mark_used; [done|lia]).
  assert (Hin : f ∈ upto 0 (frame_limit s)) by (apply elem_of_upto; lia).
  destruct b.
  - rewrite (countb_flip (fun g => negb (frame_used s g))
      (fun g => negb (frame_used (mark f true s) g)) _ f); [lia|apply NoDup_upto|done|..].
    + by rewrite Hu.
    + by rewrite Hm, Z.eqb_refl.
    + intros g _ Hne. rewrite Hm. by destruct (Z.eqb_spec g f).
  - apply (countb_flip _ (fun g => negb (frame_used s g)) _ f); [apply NoDup_upto|done|..].
    + by rewrite Hm, Z.eqb_refl.
    + by rewrite Hu.
    + intros g _ Hne. rewrite Hm. by destruct (Z.eqb_spec g f).
Qed.

Lemma bm_ok_mark s f b : bm_ok s -> 0 <= f < frame_limit s -> bm_ok (mark f b s).
Proof.
  intros H Hf. pose proof (limit_words s f H).
  destruct (mark_fields s f b) as (Hl & Hw & _).
  constructor; rewrite ?Hl, ?Hw, ?mark_len; try apply H.
  - apply mark_u64, H.
  - intros g Hg. rewrite mark_used by (try done; lia).
    destruct (Z.eqb_spec g f); [lia|]. by apply (wf_pad _ H).
Qed.

Lemma wf_flip s f (b : bool) :
  wf s -> 0 <= f < frame_limit s -> frame_used s f = negb b ->
  wf (take_frames (if b then 1 else -1) (mark f b s)).
Proof.
  intros H Hf Hu. pose proof (bm_ok_mark s f b H Hf) as Hb.
  pose proof (free_count_mark s f b H Hf Hu) as Hc.
  pose proof (free_count_range _ Hb) as Hr.
  destruct (mark_fields s f b) as (Hl & Hw & _ & _ & Hcur & _ & Hst).
  assert (Hfc : forall n t, free_count (take_frames n t) = free_count t) by done.
  pose proof (wf_limit _ H). unfold MAX_FRAMES in *.
  pose proof (wf_free _ H). pose proof (wf_used _ H). pose proof (wf_total _ H).
  constructor; simpl; rewrite ?Hl, ?Hw, ?Hcur, ?Hst; try apply H.
  - destruct Hb. by constructor.
  - rewrite Hfc, u64_small; destruct b; lia.
  - rewrite Hfc, u64_small; destruct b; lia.
Qed.

(** Well-formedness depends neither on the lock word nor on where the next scan
    starts. *)
Lemma wf_set_cursor s c : wf s -> 0 <= c <= bitmap_words s -> wf (set_cursor c s).
Proof. intros [[] ] ?. by constructor. Qed.

Lemma wf_set_lock s v : wf s -> wf (set_lock v s).
Proof. intros [[] ]. by constructor. Qed.

Lemma wp_lock s Q : pmm_lock_word s = 0 -> Q tt (set_lock 1 s) -> wp pmm_lock Q s.
Proof. intros Hl HQ. unfold wp, pmm_lock. by rewrite Hl. Qed.

(** ** Allocation *)

(** [taken s s' f n]: the frames [f, f+n) were free in [s] and are in use in
    [s'], nothing else changed but the statistics, which count them, and the
    place where the next scan starts. *)
Record taken (s s' : pmm) (f n : Z) : Prop := mk_taken {
  taken_range : 0 < f /\ f + n <= frame_limit s;
  taken_free : forall g, f <= g < f + n -> frame_used s g = false;
  taken_used : forall g, frame_used s' g = (f <=? g) && (g <? f + n) || frame_used s g;
  taken_stats : mm_stats s' = mk_stats (total_frames (mm_stats s))
    (free_frames (mm_stats s) - n) (used_frames (mm_stats s) + n)
    (reserved_frames (mm_stats s));
  taken_config : same_config s s';
}.

(** There are [n] consecutive free frames at [f]. *)
Definition free_run (s : pmm) (f n : Z) : Prop :=
  0 <= f /\ f + n <= frame_limit s /\ forall g, f <= g < f + n -> frame_used s g = false.

Lemma take_frames_stats s n :
  wf s -> 0 <= n <= free_count s ->
  mm_stats (take_frames n s) = mk_stats (total_frames (mm_stats s))
    (free_frames (mm_stats s) - n) (used_frames (mm_stats s) + n) (reserved_frames (mm_stats s)).
Proof.
  intros H Hn. pose proof (wf_limit _ H). unfold MAX_FRAMES in *.
  pose proof (wf_free _ H). pose proof (wf_used _ H). pose proof (free_count_range s H).
  unfold take_frames, stats_take. simpl. rewrite !u64_small by lia. done.
Qed.

Lemma full_word_used s f :
  0 <= f -> arr (frame_bitmap s) (f / BITMAP_WORD_BITS) = Some UINT64_MAX -> frame_used s f = true.
Proof.
  intros Hf Hw. unfold frame_used. rewrite Hw.
  change UINT64_MAX with (Z.ones 64). apply Z.ones_spec_low. pmm_lia.
Qed.

Lemma free_bit_frame s wi w :
  bm_ok s -> arr (frame_bitmap s) wi = Some w -> w <> UINT64_MAX ->
  let bit := ctzll (u64 (Z.lnot w)) in
  u64 (Z.lnot w) <> 0 /\ 0 <= bit < 64 /\
  0 <= wi * 64 + bit < frame_limit s /\ frame_used s (wi * 64 + bit) = false.
Proof.
  intros H Hw Hne bit. pose proof (arr_range _ _ _ Hw) as Hr.
  assert (Hu : is_u64 w) by (eapply Forall_arr; [apply H|done]).
  assert (Hm : u64 (Z.lnot w) = UINT64_MAX - w).
  { unfold u64, Z.lnot, UINT64_MAX, is_u64 in *.
    replace (Z.pred (- w)) with (18446744073709551615 - w + (-1) * 18446744073709551616) by lia.
    rewrite Z_mod_plus_full, Z.mod_small; lia. }
  unfold UINT64_MAX, is_u64 in *.
  assert (Hb : 0 <= bit < 64) by (apply ctzll_range; [lia|apply u64_range]).
  assert (Hf : frame_used s (wi * 64 + bit) = false).
  { unfold frame_used, BITMAP_WORD_BITS. rewrite Z.div_add_l, Z.div_small by lia.
    rewrite Z.add_0_r, Hw, Z.add_comm, Z_mod_plus_full, Z.mod_small by lia.
    assert (Ht : Z.testbit (u64 (Z.lnot w)) bit = true) by (apply ctzll_testbit; lia).
    rewrite u64_testbit, Z.lnot_spec in Ht by lia. by apply negb_true_iff. }
  split_and!; [lia|lia|lia|lia| |done].
  destruct (Z_lt_le_dec (wi * 64 + bit) (frame_limit s)); [done|].
  rewrite (wf_pad _ H) in Hf by lia. done.
Qed.

(** [t] is [s] with the frames [f, f+n) marked in the bitmap. *)
Record run_marked (s t : pmm) (f n : Z) : Prop := mk_run_marked {
  rm_bm : bm_ok t;
  rm_eq : t = set_bitmap (frame_bitmap t) s;
  rm_used : forall g, frame_used t g = (f <=? g) && (g <? f + n) || frame_used s g;
  rm_count : free_count t = free_count s - n;
}.

Lemma run_marked_nil s f : bm_ok s -> run_marked s s f 0.
Proof.
  intros H. constructor; [done|by destruct s| |lia].
  intros g. destruct (Z.leb_spec f g), (Z.ltb_spec g (f + 0)); try lia; done.
Qed.

Lemma run_marked_snoc s t f i :
  run_marked s t f i -> 0 <= f -> 0 <= i -> f + i < frame_limit s -> frame_used s (f + i) = false ->
  run_marked s (mark (f + i) true t) f (i + 1).
Proof.
  intros [Hb He Hu Hc] Hf Hi Hl Hfree.
  assert (Hlt : frame_limit t = frame_limit s) by (by rewrite He).
  assert (Hff : frame_used t (f + i) = false).
  { rewrite Hu, Hfree. destruct (Z.ltb_spec (f + i) (f + i)); [lia|]. by rewrite andb_false_r. }
  constructor.
  - apply bm_ok_mark; [done|lia].
  - assert (Hs : forall v, set_bitmap v t = set_bitmap v s) by (intros v; by rewrite He).
    unfold mark. destruct (arr _ _); [apply Hs|done].
  - intros g. rewrite mark_used by (try done; pose proof (limit_words t (f + i) Hb); lia).
    rewrite Hu. destruct (Z.eqb_spec g (f + i)) as [->|].
    + destruct (Z.leb_spec f (f + i)), (Z.ltb_spec (f + i) (f + (i + 1))); try lia; done.
    + destruct (Z.leb_spec f g), (Z.ltb_spec g (f + (i + 1))), (Z.ltb_spec g (f + i)); try lia; done.
  - rewrite free_count_mark by (try done; lia). lia.
Qed.

Lemma wp_mark_run s f n Q :
  bm_ok s -> free_run s f n -> 0 <= n ->
  (forall t, run_marked s t f n -> Q tt t) ->
  wp (for_all (upto 0 n) (fun i => set_frame (u64 (f + i)))) Q s.
Proof.
  intros H (Hf & Hl & Hfree) Hn HQ. pose proof (wf_limit _ H). unfold MAX_FRAMES in *.
  apply (wp_for_all (fun i t => run_marked s t f i)); [lia|by apply run_marked_nil| |done].
  intros i t Hi Ht. rewrite u64_small by lia.
  assert (frame_limit t = frame_limit s) by (by rewrite (rm_eq _ _ _ _ Ht)).
  eapply wp_run; [apply set_frame_run; [apply Ht|lia]|].
  apply run_marked_snoc; [done|lia|lia|lia|]. apply Hfree. lia.
Qed.

(** Closing an allocation: the statistics count the run and the scan position moves. *)
Lemma taken_of_run s t f n c :
  wf s -> frame_used s 0 = true -> 0 < n -> free_run s f n -> run_marked s t f n ->
  0 <= c <= bitmap_words s ->
  taken s (set_cursor c (take_frames n t)) f n /\ wf (set_cursor c (take_frames n t)).
Proof.
  intros H Hz Hn (Hf & Hl & Hfree) [Hb He Hu Hc] Hcur.
  pose proof (free_count_range _ Hb). pose proof (free_count_range _ H).
  assert (f <> 0) by (intros ->; rewrite Hfree in Hz by lia; done).
  assert (Hst : mm_stats t = mm_stats s) by (by rewrite He).
  assert (Hlt : frame_limit t = frame_limit s) by (by rewrite He).
  assert (Hwt : bitmap_words t = bitmap_words s) by (by rewrite He).
  assert (Hts : mm_stats (take_frames n t) = mm_stats (take_frames n s))
    by (unfold take_frames; simpl; by rewrite Hst).
  pose proof (take_frames_stats s n H ltac:(lia)) as Hts'. rewrite <- Hts in Hts'.
  split.
  - constructor; [lia|done|exact Hu|exact Hts'|]. rewrite He. done.
  - assert (Hfc : free_count (set_cursor c (take_frames n t)) = free_count t) by done.
    constructor; rewrite ?Hfc.
    + destruct Hb. by constructor.
    + simpl. lia.
    + change (total_frames (mm_stats (take_frames n t)) = frame_limit t). rewrite Hts'. simpl.
      rewrite (wf_total _ H). lia.
    + change (free_frames (mm_stats (take_frames n t)) = free_count t). rewrite Hts'. simpl.
      rewrite (wf_free _ H). lia.
    + change (used_frames (mm_stats (take_frames n t)) = frame_limit t - free_count t).
      rewrite Hts'. simpl. rewrite (wf_used _ H). lia.
Qed.

Lemma wp_alloc_single s Q :
  wf s -> frame_used s 0 = true ->
  (free_count s = 0 -> Q 0 s) ->
  (forall f s', taken s s' f 1 -> wf s' -> pmm_lock_word s' = pmm_lock_word s ->
     Q (f * PAGE_SIZE) s') ->
  wp alloc_single_page_unlocked Q s.
Proof.
  intros H Hz Hnone Hsome. unfold alloc_single_page_unlocked. wp_go.
  pose proof (wf_limit _ H) as Hlim. pose proof (wf_words _ H) as Hwords.
  pose proof (wf_cursor _ H) as Hcur. pose proof (wf_len _ H) as Hlen.
  assert (Hw1 : 0 < bitmap_words s <= 524289) by pmm_lia.
  apply (wp_for_each (fun pass t => t = s /\ forall p, 0 <= p < pass ->
     arr (frame_bitmap s) ((alloc_word_cursor s + p) `mod` bitmap_words s) = Some UINT64_MAX)).
  - lia.
  - split; [done|lia].
  - intros pass t Hpass [-> Hfull]. wp_go.
    { apply Z.eqb_eq in E. lia. }
    cbv zeta. wp_go. rewrite u64_small by lia.
    set (wi := (alloc_word_cursor s + pass) `mod` bitmap_words s).
    assert (Hwi : 0 <= wi < zlen (frame_bitmap s)) by (rewrite Hlen; apply Z.mod_pos_bound; lia).
    destruct (arr_lookup _ _ Hwi) as [w Hw]. eapply wp_rd; [exact Hw|]. wp_go.
    { apply Z.eqb_eq in E0 as ->. split; [done|]. intros p Hp.
      destruct (Z.eq_dec p pass) as [->|]; [exact Hw|apply Hfull; lia]. }
    { apply Z.eqb_neq in E0. apply Z.eqb_eq in E1.
      destruct (free_bit_frame s wi w H Hw E0) as (? & _). congruence. }
    apply Z.eqb_neq in E0. destruct (free_bit_frame s wi w H Hw E0) as (_ & Hb & Hf & Hfree).
    unfold BITMAP_WORD_BITS in *. set (f := wi * 64 + ctzll (u64 (Z.lnot w))) in *.
    unfold MAX_FRAMES in *. rewrite (u64_small f) by lia.
    unfold frame_valid. wp_go.
    { apply negb_true_iff, Z.ltb_ge in E2. lia. }
    eapply wp_run; [apply set_frame_run; [apply H|lia]|]. wp_go. simpl.
    rewrite u64_small by (unfold PAGE_SIZE; lia).
    assert (Hrun : run_marked s (mark f true s) f 1).
    { pose proof (run_marked_snoc s s f 0 (run_marked_nil s f H)) as Hs.
      rewrite Z.add_0_r in Hs. apply Hs; [lia|lia|lia|done]. }
    edestruct (taken_of_run s (mark f true s) f 1 wi) as [Ht Hwf]; [done..|lia| |done|lia|].
    { split_and!; [lia|lia|]. intros g Hg. by replace g with f by lia. }
    apply Hsome; [done|done|]. apply mark_fields.
  - intros t [-> Hfull]. wp_go. apply Hnone. apply countb_none. intros f Hf%elem_of_upto.
    rewrite (full_word_used s f); [done|lia|].
    rewrite <- (Hfull ((f / 64 - alloc_word_cursor s) `mod` bitmap_words s)).
    + f_equal. rewrite Zplus_mod_idemp_r.
      replace (alloc_word_cursor s + (f / 64 - alloc_word_cursor s)) with (f / 64) by lia.
      rewrite Z.mod_small; [done|]. pmm_lia.
    + apply Z.mod_pos_bound. lia.
Qed.

Lemma wp_run_is_free s f n (Q : bool -> pmm -> Prop) :
  bm_ok s -> 0 <= f -> 0 <= n -> f + n <= frame_limit s ->
  (free_run s f n -> Q true s) ->
  ((exists g, f <= g < f + n /\ frame_used s g = true) -> Q false s) ->
  wp (run_is_free f n) Q s.
Proof.
  intros H Hf Hn Hl Hok Hko. pose proof (wf_limit _ H). unfold MAX_FRAMES in *.
  unfold run_is_free. wp_go.
  apply (wp_for_each (fun i t => t = s /\ forall g, f <= g < f + i -> frame_used s g = false));
    [lia|split; [done|lia]| |].
  - intros i t Hi [-> Hfree]. rewrite u64_small by lia. wp_go.
    eapply wp_run; [apply test_frame_run; [done|lia]|]. wp_go.
    + apply Hko. exists (f + i). split; [lia|done].
    + split; [done|]. intros g Hg. destruct (Z.eq_dec g (f + i)) as [->|]; [done|].
      apply Hfree. lia.
  - intros t [-> Hfree]. wp_go. apply Hok. by split_and!.
Qed.

Lemma inv_locked s : inv s -> wf (set_lock 1 s) /\ frame_used (set_lock 1 s) 0 = true.
Proof. intros H. split; [apply wf_set_lock, H|exact (inv_zero _ H)]. Qed.

Lemma set_lock_unlock s v : inv s -> set_lock 0 (set_lock v s) = s.
Proof. intros H. pose proof (inv_lock _ H) as Hl. destruct s; simpl in *. by subst. Qed.

Lemma taken_unlock s t f n : taken (set_lock 1 s) t f n -> taken s (set_lock 0 t) f n.
Proof. intros []. by constructor. Qed.

Lemma inv_taken s t f n : inv s -> taken s t f n -> wf t -> pmm_lock_word t = 0 -> inv t.
Proof.
  intros H Ht Hw Hl. constructor; [done| |done].
  rewrite (taken_used _ _ _ _ Ht), (inv_zero _ H). apply orb_true_r.
Qed.

(** What a call to [pmm_alloc_pages count] may answer. *)
Definition alloc_result (s : pmm) (count p : Z) (s' : pmm) : Prop :=
  inv s' /\
  ((p = 0 /\ s' = s /\ (count = 0 \/ ~ exists f, free_run s f count)) \/
   (0 < count /\ exists f, p = f * PAGE_SIZE /\ taken s s' f count)).

Lemma free_run_count s f n : 0 <= n -> free_run s f n -> n <= free_count s.
Proof.
  intros Hn (Hf & Hl & Hfree).
  set (p := fun g => negb (frame_used s g)).
  assert (Hsplit : free_count s = countb p (upto 0 f) + countb p (upto f (f + n)) +
                                  countb p (upto (f + n) (frame_limit s))).
  { unfold free_count, countb. fold p.
    by rewrite <- !sumZ_app, <- !upto_app by lia. }
  rewrite Hsplit.
  pose proof (countb_range p (upto 0 f)). pose proof (countb_range p (upto (f + n) (frame_limit s))).
  rewrite (countb_all p (upto f (f + n))), zlen_upto; [lia|lia|].
  intros g Hg%elem_of_upto. unfold p. by rewrite Hfree.
Qed.

Lemma wp_alloc_run s count Q :
  inv s -> 1 < count <= frame_limit s ->
  (forall p s', alloc_result s count p s' -> Q p s') ->
  (count <= free_count s) ->
  wp (pmm_alloc_pages count) Q s.
Proof.
  intros H Hc HQ Hfree. pose proof (wf_limit _ H) as Hlim. unfold MAX_FRAMES in *.
  pose proof (wf_words _ H) as Hwords. pose proof (wf_cursor _ H) as Hcur.
  destruct (inv_locked s H) as [Hw1 Hz1].
  unfold pmm_alloc_pages. wp_go.
  { destruct (Z.eqb_spec count 0), (Z.ltb_spec (frame_limit s) count); try lia; done. }
  apply wp_lock; [exact (inv_lock _ H)|]. wp_go.
  { apply Z.ltb_lt in E0. simpl in E0. rewrite (wf_free _ H) in E0. lia. }
  { apply Z.eqb_eq in E1. lia. }
  { apply Z.eqb_eq in E2. lia. }
  cbv zeta. wp_go. simpl. unfold BITMAP_WORD_BITS.
  rewrite (u64_small (alloc_word_cursor s * 64)) by pmm_lia.
  set (start := (alloc_word_cursor s * 64) `mod` frame_limit s).
  assert (Hst : 0 <= start < frame_limit s) by (apply Z.mod_pos_bound; lia).
  apply (wp_for_each (fun pass t => t = set_lock 1 s /\
           forall q, 0 <= q < pass -> ~ free_run s ((start + q) `mod` frame_limit s) count));
    [lia|split; [done|lia]| |].
  - intros pass t Hp [-> Hno]. cbv zeta. rewrite (u64_small (start + pass)) by lia.
    set (f := (start + pass) `mod` frame_limit s).
    assert (Hf : 0 <= f < frame_limit s) by (apply Z.mod_pos_bound; lia).
    rewrite (u64_small (f + count)) by lia.
    assert (Hnext : ~ free_run s f count -> forall q, 0 <= q < pass + 1 ->
              ~ free_run s ((start + q) `mod` frame_limit s) count).
    { intros Hn q Hq. destruct (Z.eq_dec q pass) as [->|]; [done|]. apply Hno. lia. }
    wp_go.
    { split; [done|]. apply Hnext. intros (_ & ? & _). apply Z.ltb_lt in E3. lia. }
    apply Z.ltb_ge in E3.
    apply wp_run_is_free; [apply Hw1|lia|lia|done| |].
    + intros Hrun. wp_go. apply wp_mark_run; [apply Hw1|done|lia|].
      intros t Ht. wp_go. unfold pmm_unlock. wp_go.
      edestruct (taken_of_run (set_lock 1 s) t f count ((f + count) / 64)) as [Htk Hwf];
        [done|done|lia|done|done|simpl; pmm_lia|].
      rewrite u64_small by (unfold PAGE_SIZE; lia). apply HQ.
      apply taken_unlock in Htk. split.
      * eapply inv_taken; [done|done| |done]. by apply wf_set_lock.
      * right. split; [lia|]. eauto.
    + intros (g & Hg & Hu). wp_go. split; [done|]. apply Hnext.
      change (frame_used s g = true) in Hu.
      intros (_ & _ & Hr). rewrite Hr in Hu by done. done.
  - intros t [-> Hno]. unfold pmm_unlock. wp_go. rewrite set_lock_unlock by done.
    apply HQ. split; [done|]. left. split_and!; [done|done|right].
    intros (f & Hr). apply (Hno ((f - start) `mod` frame_limit s)).
    + apply Z.mod_pos_bound. lia.
    + rewrite Zplus_mod_idemp_r. replace (start + (f - start)) with f by lia.
      destruct Hr as (Hf0 & Hfl & Hr). rewrite Z.mod_small by lia. by split_and!.
Qed.

(** [pmm_alloc_pages] on every input. *)
Lemma wp_alloc_pages s count Q :
  inv s -> 0 <= count ->
  (forall p s', alloc_result s count p s' -> Q p s') ->
  wp (pmm_alloc_pages count) Q s.
Proof.
  intros H Hc HQ. pose proof (wf_limit _ H) as Hlim.
  destruct (inv_locked s H) as [Hw1 Hz1].
  assert (Hfail : (count = 0 \/ ~ exists f, free_run s f count) -> Q 0 s).
  { intros. apply HQ. split; [done|]. by left. }
  destruct (decide (1 < count <= frame_limit s /\ count <= free_count s)) as [[? ?]|Hn].
  { by apply wp_alloc_run. }
  unfold pmm_alloc_pages. wp_go.
  { apply Hfail. destruct (Z.eqb_spec count 0); [by left|right].
    simpl in E. apply Z.ltb_lt in E. intros (f & ? & ? & _). lia. }
  apply orb_false_iff in E as [E1%Z.eqb_neq E2%Z.ltb_ge].
  apply wp_lock; [exact (inv_lock _ H)|]. wp_go.
  { unfold pmm_unlock. wp_go. rewrite set_lock_unlock by done. apply Hfail. right.
    apply Z.ltb_lt in E. simpl in E. rewrite (wf_free _ H) in E.
    intros (f & Hr). apply free_run_count in Hr; lia. }
  { apply Z.eqb_eq in E0 as ->. apply wp_alloc_single; [done|done|..].
    - intros Hzero. unfold pmm_unlock. wp_go. rewrite set_lock_unlock by done. apply Hfail. right.
      intros (f & Hr). apply free_run_count in Hr; [|lia].
      change (free_count s = 0) in Hzero. lia.
    - intros f s' Ht Hw Hl. unfold pmm_unlock. wp_go. apply HQ. apply taken_unlock in Ht. split.
      + eapply inv_taken; [done|done|by apply wf_set_lock|done].
      + right. split; [lia|]. eauto. }
  all: apply Z.ltb_ge in E; apply Z.eqb_neq in E0; simpl in E; rewrite (wf_free _ H) in E; lia.
Qed.

(** ** Release *)

(** [released s s' f]: frame [f] was in use and is free again. *)
Record released (s s' : pmm) (f : Z) : Prop := mk_released {
  released_used : frame_used s f = true;
  released_range : 0 < f < frame_limit s;
  released_map : forall g, frame_used s' g = negb (g =? f) && frame_used s g;
  released_stats : mm_stats s' = mk_stats (total_frames (mm_stats s))
    (free_frames (mm_stats s) + 1) (used_frames (mm_stats s) - 1)
    (reserved_frames (mm_stats s));
  released_config : same_config s s';
}.

(** The addresses [pmm_free_page] acts on. *)
Definition releasable (s : pmm) (a : Z) : bool :=
  negb (a =? 0) && (a `mod` PAGE_SIZE =? 0) && (a / PAGE_SIZE <? frame_limit s)
  && frame_used s (a / PAGE_SIZE).

Lemma released_flip s f c :
  wf s -> 0 < f < frame_limit s -> frame_used s f = true -> 0 <= c <= bitmap_words s ->
  released s (set_cursor c (take_frames (-1) (mark f false s))) f /\
  wf (set_cursor c (take_frames (-1) (mark f false s))).
Proof.
  intros H Hf Hu Hc. pose proof (wf_limit _ H). unfold MAX_FRAMES in *.
  destruct (mark_fields s f false) as (Hl & Hw & Hb & Hy & _ & _ & Hst).
  pose proof (bm_ok_mark s f false H ltac:(lia)) as Hbm.
  pose proof (free_count_mark s f false H ltac:(lia) Hu) as Hfc.
  pose proof (free_count_range _ Hbm) as Hr. pose proof (free_count_range _ H) as Hr'.
  rewrite Hl in Hr. simpl in Hfc. split.
  - constructor; [done|done| | |].
    + intros g. change (frame_used (mark f false s) g = negb (g =? f) && frame_used s g).
      rewrite mark_used by (try apply H; pose proof (limit_words s f H ltac:(lia)); lia).
      by destruct (g =? f).
    + unfold take_frames, stats_take. simpl. rewrite Hst, (wf_free _ H), (wf_used _ H).
      f_equal; rewrite u64_small; lia.
    + done.
  - apply wf_set_cursor; [|simpl; by rewrite Hw]. by apply (wf_flip s f false); [|lia|].
Qed.

Lemma wp_free_page s a Q :
  inv s -> 0 <= a ->
  (releasable s a = false -> Q tt s) ->
  (forall s', releasable s a = true -> released s s' (a / PAGE_SIZE) -> inv s' -> Q tt s') ->
  wp (pmm_free_page a) Q s.
Proof.
  intros H Ha Hno Hyes. destruct (inv_locked s H) as [Hw1 Hz1]. unfold pmm_free_page, releasable in *.
  wp_go.
  { apply Hno. destruct (a =? 0), (a `mod` PAGE_SIZE =? 0); done. }
  apply orb_false_iff in E as [E0 E1%negb_false_iff]. rewrite E0, E1 in *. simpl in *.
  apply wp_lock; [exact (inv_lock _ H)|]. cbv zeta. unfold frame_valid. wp_go.
  { unfold pmm_unlock. wp_go. rewrite set_lock_unlock by done. apply Hno.
    apply negb_true_iff in E. simpl in E. by rewrite E. }
  apply negb_false_iff in E. simpl in E. rewrite E in *. simpl in *.
  assert (Hf : 0 <= a / PAGE_SIZE < frame_limit s) by (apply Z.ltb_lt in E; pmm_lia).
  eapply wp_run; [apply test_frame_run; [apply Hw1|lia]|].
  change (frame_used (set_lock 1 s) (a / PAGE_SIZE)) with (frame_used s (a / PAGE_SIZE)). wp_go.
  { unfold pmm_unlock. wp_go. rewrite set_lock_unlock by done. apply Hno. by apply negb_true_iff. }
  apply negb_false_iff in E2.
  eapply wp_run; [apply clear_frame_run; [apply Hw1|exact Hf]|]. unfold pmm_unlock. wp_go.
  assert (Hf0 : a / PAGE_SIZE <> 0) by (apply Z.eqb_neq in E0; apply Z.eqb_eq in E1; pmm_lia).
  edestruct (released_flip (set_lock 1 s) (a / PAGE_SIZE) (a / PAGE_SIZE / BITMAP_WORD_BITS))
    as [[] Hwf]; [done|simpl; lia|done| |].
  { simpl. pose proof (wf_words _ H). pmm_lia. }
  apply Hyes; [done|by constructor|]. constructor; [by apply wf_set_lock| |done].
  match goal with |- frame_used ?t 0 = true =>
    change (frame_used (set_cursor (a / PAGE_SIZE / BITMAP_WORD_BITS)
      (take_frames (-1) (mark (a / PAGE_SIZE) false (set_lock 1 s)))) 0 = true) end.
  rewrite released_map0. destruct (Z.eqb_spec 0 (a / PAGE_SIZE)); [lia|]. apply (inv_zero _ H).
Qed.

(** Two well-formed bitmaps over the same frames that agree on every frame are
    the same list of words. *)
Lemma bitmap_ext s t :
  bm_ok s -> bm_ok t -> bitmap_words t = bitmap_words s ->
  (forall g, frame_used t g = frame_used s g) -> frame_bitmap t = frame_bitmap s.
Proof.
  intros Hs Ht Hw Hu. apply arr_ext; [by rewrite (wf_len _ Hs), (wf_len _ Ht)|].
  intros i. destruct (decide (0 <= i < zlen (frame_bitmap s))) as [Hi|Hi].
  - assert (Hi' : 0 <= i < zlen (frame_bitmap t)) by (rewrite (wf_len _ Ht), Hw, <- (wf_len _ Hs); done).
    destruct (arr_lookup _ _ Hi) as [w Hw1], (arr_lookup _ _ Hi') as [w' Hw2].
    rewrite Hw1, Hw2. f_equal. apply is_u64_ext;
      [eapply Forall_arr; [apply Ht|done]|eapply Forall_arr; [apply Hs|done]|].
    intros b Hb. specialize (Hu (i * 64 + b)). unfold frame_used, BITMAP_WORD_BITS in Hu.
    rewrite Z.div_add_l, Z.div_small, Z.add_0_r, Hw1, Hw2 in Hu by lia.
    by rewrite Z.add_comm, Z_mod_plus_full, Z.mod_small in Hu by lia.
  - rewrite !arr_none; [done|done|]. by rewrite (wf_len _ Ht), Hw, <- (wf_len _ Hs).
Qed.

(** ** Building the bitmap *)

(** [evolves s t u]: [t] is a well-formed allocator over the same frames as [s]
    in which frame [g] is in use exactly when [u g]. *)
Record evolves (s t : pmm) (u : Z -> bool) : Prop := mk_evolves {
  ev_wf : wf t;
  ev_config : same_config s t;
  ev_lock : pmm_lock_word t = pmm_lock_word s;
  ev_used : forall g, frame_used t g = u g;
}.

Lemma evolves_trans s t r u v : evolves s t u -> evolves t r v -> evolves s r v.
Proof.
  intros [? (? & ? & ? & ?) ? ?] [? (? & ? & ? & ?) ? ?].
  constructor; [done| |congruence|done]. unfold same_config. split_and!; congruence.
Qed.

Lemma evolves_ext s t u v : evolves s t u -> (forall g, u g = v g) -> evolves s t v.
Proof. intros [] H. constructor; [done..|]. intros. by rewrite <- H. Qed.

Definition in_span (a b g : Z) : bool := (a <=? g) && (g <? b).

Lemma in_span_empty a b g : b <= a -> in_span a b g = false.
Proof. unfold in_span. intros. destruct (Z.leb_spec a g), (Z.ltb_spec g b); try lia; done. Qed.

Lemma in_span_snoc a i g : a <= i -> in_span a (i + 1) g = (g =? i) || in_span a i g.
Proof.
  unfold in_span. intros.
  destruct (Z.eqb_spec g i), (Z.leb_spec a g), (Z.ltb_spec g (i + 1)), (Z.ltb_spec g i);
    try lia; done.
Qed.

Lemma evolves_flip s t u f b :
  evolves s t u -> 0 <= f < frame_limit s -> u f = negb b ->
  evolves s (take_frames (if b then 1 else -1) (mark f b t)) (fun g => if g =? f then b else u g).
Proof.
  intros [Hw Hc Hl Hu] Hf Hb.
  assert (Hlim : frame_limit t = frame_limit s) by apply Hc.
  destruct (mark_fields t f b) as (? & ? & ? & ? & _ & Hlk & _).
  constructor.
  - apply wf_flip; [done|lia|by rewrite Hu].
  - unfold same_config in *. simpl. intuition congruence.
  - simpl. congruence.
  - intros g. change (frame_used (mark f b t) g = if g =? f then b else u g).
    rewrite mark_used by (try apply Hw; pose proof (limit_words t f Hw ltac:(lia)); lia).
    by rewrite Hu.
Qed.

Lemma evolves_reserved s t u :
  evolves s t u -> evolves s (set_stats (stats_reserve (mm_stats t)) t) u.
Proof. intros [[[]] ? ? ?]. by constructor; [by constructor; [constructor|..]|..]. Qed.

Lemma evolves_refl s : wf s -> evolves s s (frame_used s).
Proof. by constructor. Qed.

Lemma wp_clear_span s a b Q :
  wf s -> 0 <= a -> b <= frame_limit s ->
  (forall t, evolves s t (fun g => negb (in_span a b g) && frame_used s g) -> Q tt t) ->
  wp (for_all (upto a b) (fun frame =>
    t ← test_frame frame;
    if t : bool then clear_frame frame ;; modify (take_frames (-1)) else mret tt)) Q s.
Proof.
  intros H Ha Hb HQ. destruct (decide (a <= b)) as [Hab|Hab].
  2:{ rewrite upto_nil by lia. wp_go. apply HQ. eapply evolves_ext; [by apply evolves_refl|].
      intros g. by rewrite in_span_empty by lia. }
  apply (wp_for_all (fun i t => evolves s t (fun g => negb (in_span a i g) && frame_used s g)));
    [done| | |done].
  { eapply evolves_ext; [by apply evolves_refl|]. intros g. by rewrite in_span_empty by lia. }
  intros i t Hi Ht. pose proof (ev_wf _ _ _ Ht) as Hwt.
  assert (Hlim : frame_limit t = frame_limit s) by apply Ht.
  wp_go. eapply wp_run; [apply test_frame_run; [apply Hwt|lia]|]. wp_go.
  - eapply wp_run; [apply clear_frame_run; [apply Hwt|lia]|]. wp_go.
    rewrite (ev_used _ _ _ Ht) in E.
    pose proof (evolves_flip s t _ i false Ht ltac:(lia) E) as Hf.
    eapply evolves_ext; [exact Hf|]. intros g. rewrite in_span_snoc by lia.
    by destruct (g =? i).
  - rewrite (ev_used _ _ _ Ht) in E. eapply evolves_ext; [exact Ht|].
    intros g. simpl. rewrite in_span_snoc by lia. destruct (Z.eqb_spec g i) as [->|]; [|done].
    by rewrite E.
Qed.

Lemma wp_set_span s a b Q :
  wf s -> 0 <= a -> b <= frame_limit s ->
  (forall t, evolves s t (fun g => in_span a b g || frame_used s g) -> Q tt t) ->
  wp (for_all (upto a b) (fun frame =>
    t ← test_frame frame;
    if negb t then
      set_frame frame ;;
      modify (take_frames 1) ;;
      modify (fun s => set_stats (stats_reserve (mm_stats s)) s)
    else mret tt)) Q s.
Proof.
  intros H Ha Hb HQ. destruct (decide (a <= b)) as [Hab|Hab].
  2:{ rewrite upto_nil by lia. wp_go. apply HQ. eapply evolves_ext; [by apply evolves_refl|].
      intros g. by rewrite in_span_empty by lia. }
  apply (wp_for_all (fun i t => evolves s t (fun g => in_span a i g || frame_used s g)));
    [done| | |done].
  { eapply evolves_ext; [by apply evolves_refl|]. intros g. by rewrite in_span_empty by lia. }
  intros i t Hi Ht. pose proof (ev_wf _ _ _ Ht) as Hwt.
  assert (Hlim : frame_limit t = frame_limit s) by apply Ht.
  wp_go. eapply wp_run; [apply test_frame_run; [apply Hwt|lia]|]. wp_go.
  - eapply wp_run; [apply set_frame_run; [apply Hwt|lia]|]. wp_go.
    apply negb_true_iff in E. rewrite (ev_used _ _ _ Ht) in E.
    pose proof (evolves_flip s t _ i true Ht ltac:(lia) E) as Hf.
    apply evolves_reserved in Hf. eapply evolves_ext; [exact Hf|]. intros g.
    rewrite in_span_snoc by lia. by destruct (g =? i).
  - apply negb_false_iff in E. rewrite (ev_used _ _ _ Ht) in E. eapply evolves_ext; [exact Ht|].
    intros g. simpl. rewrite in_span_snoc by lia. destruct (Z.eqb_spec g i) as [->|]; [|done].
    by rewrite E.
Qed.

(** Frame [f] lies inside [base, base+len). *)
Definition covers (base len f : Z) : bool :=
  (base <=? f * PAGE_SIZE) && ((f + 1) * PAGE_SIZE <=? base + len).
(** Frame [f] overlaps [base, base+len). *)
Definition touches (base len f : Z) : bool :=
  (base <? (f + 1) * PAGE_SIZE) && (f * PAGE_SIZE <? base + len).

(** The byte range stays below 2^64 - PAGE_SIZE, so none of the sums wraps. *)
Definition no_wrap (base len : Z) : Prop :=
  0 <= base /\ 0 <= len /\ base + len + PAGE_SIZE < 18446744073709551616.

Lemma wp_mark_range_available s base len Q :
  wf s -> no_wrap base len ->
  (forall t, evolves s t (fun g => negb (covers base len g && (g <? frame_limit s))
                                   && frame_used s g) -> Q tt t) ->
  wp (mark_range_available base len) Q s.
Proof.
  intros H (Hb & Hl & Hw) HQ. unfold PAGE_SIZE in *. unfold mark_range_available. wp_go. cbv zeta.
  unfold PAGE_SIZE. rewrite (u64_small (base + len)) by lia.
  rewrite (u64_small (base + 4096)), u64_small by lia.
  apply wp_clear_span; [done|pmm_lia|destruct (Z.ltb_spec (frame_limit s) ((base + len) / 4096)); lia|].
  intros t Ht. apply HQ. eapply evolves_ext; [exact Ht|]. intros g. simpl. f_equal. f_equal.
  unfold in_span, covers, PAGE_SIZE. apply eq_true_iff_eq.
  destruct (Z.ltb_spec (frame_limit s) ((base + len) / 4096));
    rewrite !andb_true_iff, !Z.leb_le, !Z.ltb_lt; pmm_lia.
Qed.

Lemma wp_reserve_range s base len Q :
  wf s -> no_wrap base len ->
  (forall t, evolves s t (fun g => touches base len g && (g <? frame_limit s)
                                   || frame_used s g) -> Q tt t) ->
  wp (reserve_range base len) Q s.
Proof.
  intros H (Hb & Hl & Hw) HQ. unfold PAGE_SIZE in *. unfold reserve_range. wp_go. cbv zeta.
  unfold PAGE_SIZE. rewrite (u64_small (base + len)) by lia.
  rewrite (u64_small (base + len + 4096)), u64_small by lia.
  apply wp_set_span; [done|pmm_lia| |].
  { destruct (Z.ltb_spec (frame_limit s) ((base + len + 4096 - 1) / 4096)); lia. }
  intros t Ht. apply HQ. eapply evolves_ext; [exact Ht|]. intros g. simpl. f_equal.
  unfold in_span, touches, PAGE_SIZE. apply eq_true_iff_eq.
  destruct (Z.ltb_spec (frame_limit s) ((base + len + 4096 - 1) / 4096));
    rewrite !andb_true_iff, ?Z.leb_le, !Z.ltb_lt; pmm_lia.
Qed.

(** The number of frames the bitmap covers for [frames] detected frames. *)
Definition clamp_frames (frames : Z) : Z :=
  Z.min MAX_FRAMES (if frames =? 0 then 1 else frames).

Lemma align_up_spec x :
  0 <= x -> x + 4096 < 18446744073709551616 ->
  align_up_u64 x PAGE_SIZE = (x + 4095) / 4096 * 4096.
Proof.
  intros. unfold align_up_u64, PAGE_SIZE. rewrite (u64_small (x + 4096)), u64_small by lia.
  change (u64 (4096 - 1)) with (Z.ones 12). rewrite land_lnot_ones by (unfold is_u64; lia).
  change (2 ^ 12) with 4096. by replace (x + 4096 - 1) with (x + 4095) by lia.
Qed.

(** A freshly built bitmap: every frame in use. *)
Record fresh (frames ke : Z) (s t : pmm) : Prop := mk_fresh {
  fresh_wf : wf t;
  fresh_limit : frame_limit t = clamp_frames frames;
  fresh_used : forall g, frame_used t g = true;
  fresh_lock : pmm_lock_word t = pmm_lock_word s;
  fresh_bytes : bitmap_bytes t = (clamp_frames frames + 63) / 64 * 8;
  fresh_base : bitmap_phys_base t = align_up_u64 ke PAGE_SIZE;
}.

Lemma replicate_ones_used s n g :
  frame_bitmap s = replicate n UINT64_MAX -> 0 <= g -> frame_used s g = true.
Proof.
  intros Hb Hg. destruct (decide (g / 64 < Z.of_nat n)) as [Hlt|Hge].
  - apply full_word_used; [done|]. rewrite Hb. apply arr_replicate. pmm_lia.
  - unfold frame_used. rewrite arr_none; [done|]. rewrite Hb. unfold zlen.
    rewrite length_replicate. unfold BITMAP_WORD_BITS. lia.
Qed.

Lemma all_used_wf s :
  0 < frame_limit s <= MAX_FRAMES -> bitmap_words s = (frame_limit s + 63) / 64 ->
  frame_bitmap s = replicate (Z.to_nat (bitmap_words s)) UINT64_MAX ->
  alloc_word_cursor s = 0 -> mm_stats s = mk_stats (frame_limit s) 0 (frame_limit s) 0 ->
  wf s /\ forall g, frame_used s g = true.
Proof.
  intros Hlim Hw Hb Hc Hst.
  assert (Hu : forall g, frame_used s g = true).
  { intros g. destruct (decide (0 <= g)); [by eapply replicate_ones_used|].
    unfold frame_used, BITMAP_WORD_BITS. rewrite arr_none; [done|].
    intros [? _]. pmm_lia. }
  assert (Hfc : free_count s = 0) by (apply countb_none; intros; by rewrite Hu).
  assert (0 < bitmap_words s) by pmm_lia.
  split; [|done]. constructor; rewrite ?Hst; simpl; try lia.
  constructor; try done.
  - rewrite Hb. unfold zlen. rewrite length_replicate. lia.
  - rewrite Hb. apply Forall_replicate. by unfold is_u64, UINT64_MAX.
Qed.

Lemma wp_fresh_bitmap ke frames min_base s (k : M pmm unit) Q :
  is_u64 frames ->
  (forall t, fresh frames (Z.max min_base (kernel_symbol_to_phys ke)) s t -> wp k Q t) ->
  wp (init_runtime_bitmap ke frames min_base ;; mark_all_used ;; k) Q s.
Proof.
  intros Hf HQ. unfold init_runtime_bitmap, mark_all_used. wp_go. cbv zeta. wp_go. apply HQ.
  assert (Hc : (if MAX_FRAMES <? (if frames =? 0 then 1 else frames) then MAX_FRAMES
                else if frames =? 0 then 1 else frames) = clamp_frames frames).
  { unfold clamp_frames. destruct (Z.ltb_spec MAX_FRAMES (if frames =? 0 then 1 else frames)); lia. }
  rewrite Hc. assert (Hr : 0 < clamp_frames frames <= MAX_FRAMES).
  { unfold clamp_frames, MAX_FRAMES, is_u64 in *. destruct (Z.eqb_spec frames 0); lia. }
  assert (Hw : u64 (u64 (clamp_frames frames + BITMAP_WORD_BITS) - 1) / BITMAP_WORD_BITS =
               (clamp_frames frames + 63) / 64).
  { unfold BITMAP_WORD_BITS, MAX_FRAMES in *.
    rewrite (u64_small (clamp_frames frames + 64)), u64_small by lia. f_equal. lia. }
  rewrite Hw. clear Hc. set (c := clamp_frames frames) in *. simpl.
  rewrite (u64_small ((c + 63) / 64 * 8)), Z.div_mul by (lia || pmm_lia).
  match goal with |- fresh _ _ _ ?t => destruct (all_used_wf t) as [Hwf Hu]; [done..|] end.
  constructor; [done|done|done|done|done|]. simpl. f_equal.
  destruct (Z.ltb_spec min_base (kernel_symbol_to_phys ke)); lia.
Qed.

(** The frames some available range covers. *)
Definition available (ranges : list nm_mem_range) (f : Z) : bool :=
  existsb (fun r => (range_type r =? NM_MEM_AVAILABLE) && covers (range_base r) (range_length r) f)
    ranges.

Definition ranges_ok (ranges : list nm_mem_range) : Prop :=
  Forall (fun r => no_wrap (range_base r) (range_length r)) ranges.

Lemma wp_mark_ranges ranges s Q :
  wf s -> ranges_ok ranges ->
  (forall t, evolves s t (fun g => negb (available ranges g && (g <? frame_limit s))
                                   && frame_used s g) -> Q tt t) ->
  wp (mark_ranges ranges) Q s.
Proof.
  revert s. induction ranges as [|r ranges IH]; intros s H Hok HQ; simpl.
  - wp_go. apply HQ. eapply evolves_ext; [by apply evolves_refl|done].
  - apply Forall_cons in Hok as [Hr Hok]. wp_go.
    + apply wp_mark_range_available; [done|done|]. intros t Ht.
      apply IH; [apply Ht|done|]. intros t' Ht'. apply HQ.
      eapply evolves_ext; [by eapply evolves_trans|]. intros g. simpl.
      rewrite (ev_used _ _ _ Ht), E. destruct (ev_config _ _ _ Ht) as [-> _]. simpl.
      destruct (covers _ _ _), (available ranges g), (g <? frame_limit s); done.
    + apply IH; [done|done|]. intros t Ht. apply HQ.
      eapply evolves_ext; [exact Ht|]. intros g. simpl. by rewrite E.
Qed.

(** The frames that [reserve_kernel] keeps: the low megabyte, the kernel image
    and the bitmap itself. *)
Definition kernel_frames (ks ke : Z) (s : pmm) (f : Z) : bool :=
  let ps := kernel_symbol_to_phys ks in
  let pe := kernel_symbol_to_phys ke in
  touches 0 1048576 f || touches ps (pe - ps) f ||
  touches (bitmap_phys_base s) (bitmap_bytes s) f.

(** The kernel image: its two symbols are ordered addresses below 2^63. *)
Definition kernel_ok (ks ke : Z) : Prop :=
  0 <= kernel_symbol_to_phys ks <= kernel_symbol_to_phys ke /\
  kernel_symbol_to_phys ke < 9223372036854775808.

Lemma wp_reserve_kernel ks ke s Q :
  wf s -> kernel_ok ks ke -> no_wrap (bitmap_phys_base s) (bitmap_bytes s) ->
  (forall t, evolves s t (fun g => kernel_frames ks ke s g && (g <? frame_limit s)
                                   || frame_used s g) -> Q tt t) ->
  wp (reserve_kernel ks ke) Q s.
Proof.
  intros H [Hk1 Hk2] Hb HQ. unfold reserve_kernel. wp_go.
  apply wp_reserve_range; [done|unfold no_wrap, PAGE_SIZE; lia|]. intros t1 H1. wp_go.
  rewrite u64_small by lia.
  apply wp_reserve_range; [apply H1|unfold no_wrap, PAGE_SIZE; lia|]. intros t2 H2. wp_go.
  destruct (ev_config _ _ _ H1) as (L1 & _ & B1 & Y1), (ev_config _ _ _ H2) as (L2 & _ & B2 & Y2).
  rewrite B2, B1, Y2, Y1.
  apply wp_reserve_range; [apply H2|done|]. intros t3 H3. apply HQ.
  eapply evolves_ext; [eapply evolves_trans; [eapply evolves_trans; [exact H1|exact H2]|exact H3]|].
  intros g. simpl. rewrite (ev_used _ _ _ H2), (ev_used _ _ _ H1), L2, L1. unfold kernel_frames.
  destruct (touches 0 _ _), (touches (kernel_symbol_to_phys ks) _ _),
    (touches (bitmap_phys_base s) _ _), (g <? frame_limit s); done.
Qed.

(** ** Initialisation from a list of ranges *)

Lemma kernel_symbol_u64 a : is_u64 a -> is_u64 (kernel_symbol_to_phys a).
Proof. unfold kernel_symbol_to_phys. intros. destruct (_ <=? _); [apply u64_range|done]. Qed.

Lemma highest_end_u64 ranges : is_u64 (ranges_highest_end ranges / PAGE_SIZE).
Proof.
  unfold ranges_highest_end.
  assert (H : forall h, is_u64 h -> is_u64 (foldl (fun highest r =>
      if negb (range_type r =? NM_MEM_AVAILABLE) then highest else
      let end_ := u64 (range_base r + range_length r) in
      if highest <? end_ then end_ else highest) h ranges)).
  { induction ranges as [|r ranges IH]; intros h Hh; [done|]. simpl. apply IH.
    destruct (negb _); [done|]. destruct (_ <? _); [apply u64_range|done]. }
  specialize (H 0 ltac:(by unfold is_u64)). unfold is_u64 in *. pmm_lia.
Qed.

Lemma fresh_no_wrap frames ke s t :
  fresh frames ke s t -> 0 <= ke < 9223372036854775808 * 2 - 16777216 ->
  no_wrap (bitmap_phys_base t) (bitmap_bytes t).
Proof.
  intros H Hk. rewrite (fresh_base _ _ _ _ H), (fresh_bytes _ _ _ _ H), align_up_spec by lia.
  pose proof (wf_limit _ (fresh_wf _ _ _ _ H)) as Hl. rewrite (fresh_limit _ _ _ _ H) in Hl.
  unfold no_wrap. pmm_lia.
Qed.

(** Where the bitmap is placed: on the first page boundary at or after [lo]. *)
Definition placed (lo : Z) (t : pmm) : Prop :=
  bitmap_phys_base t = align_up_u64 lo PAGE_SIZE /\
  bitmap_bytes t = (frame_limit t + 63) / 64 * 8.

Lemma wp_init_from_ranges ks ke ranges s Q :
  ranges_ok ranges -> kernel_ok ks ke ->
  (forall t, inv t -> frame_limit t = clamp_frames (ranges_highest_end ranges / PAGE_SIZE) ->
     placed (kernel_symbol_to_phys ke) t ->
     (forall f, 0 <= f < frame_limit t ->
        frame_used t f = kernel_frames ks ke t f || negb (available ranges f)) -> Q tt t) ->
  wp (pmm_init_from_ranges ks ke ranges) Q s.
Proof.
  intros Hok Hk HQ. unfold pmm_init_from_ranges. wp_step. wp_step. cbv zeta.
  apply wp_fresh_bitmap; [apply highest_end_u64|]. intros t1 H1. wp_go.
  apply wp_mark_ranges; [apply H1|done|]. intros t2 H2.
  destruct (ev_config _ _ _ H2) as (L2 & _ & B2 & Y2).
  apply wp_reserve_kernel; [apply H2|done| |].
  { rewrite B2, Y2. eapply fresh_no_wrap; [done|]. destruct Hk. lia. }
  intros t3 H3. destruct (ev_config _ _ _ H3) as (L3 & _ & B3 & Y3).
  apply HQ; [constructor; [apply H3| |]|..].
  - rewrite (ev_used _ _ _ H3). destruct (Z.ltb_spec 0 (frame_limit t2)); [done|].
    pose proof (wf_limit _ (ev_wf _ _ _ H2)). lia.
  - by rewrite (ev_lock _ _ _ H3), (ev_lock _ _ _ H2), (fresh_lock _ _ _ _ H1).
  - rewrite L3, L2. apply H1.
  - unfold placed. rewrite B3, B2, Y3, Y2, L3, L2, (fresh_limit _ _ _ _ H1), <- (Z.max_id (kernel_symbol_to_phys ke)).
    split; apply H1.
  - intros f Hf. rewrite (ev_used _ _ _ H3), (ev_used _ _ _ H2), (fresh_used _ _ _ _ H1).
    rewrite L3, L2 in Hf. rewrite L2. destruct (Z.ltb_spec f (frame_limit t1)); [|lia].
    rewrite !andb_true_r. unfold kernel_frames. by rewrite B3, Y3.
Qed.

(** ** Initialisation from the multiboot2 structure *)

(** What the two passes see, in the order of the tags. *)
Inductive mb2_event :=
| Avail (base len : Z)
| Module (mod_start mod_end : Z).

Section multiboot2.
Context (mem : Z -> Z).

Fixpoint mmap_events (fuel : nat) (entry_ptr entry_end entry_size : Z) : list mb2_event :=
  match fuel with
  | O => []
  | S fuel' =>
      if negb (entry_ptr + 24 <=? entry_end) then [] else
      (if read32 mem (entry_ptr + 16) =? NM_MEM_AVAILABLE
       then [Avail (read64 mem entry_ptr) (read64 mem (entry_ptr + 8))] else [])
      ++ mmap_events fuel' (entry_ptr + entry_size) entry_end entry_size
  end.

Fixpoint mb2_events (fuel : nat) (cursor end_ : Z) : list mb2_event :=
  match fuel, mb2_tag_next mem cursor end_ with
  | S fuel', Some next =>
      let type := read32 mem cursor in
      let size := read32 mem (cursor + 4) in
      (if (type =? MB2_TAG_MMAP) && (16 <=? size) && (24 <=? read32 mem (cursor + 8))
       then mmap_events (Z.to_nat size) (cursor + 16) (cursor + size) (read32 mem (cursor + 8))
       else [])
      ++ (if (type =? MB2_TAG_MODULE) && (16 <=? size)
             && (read32 mem (cursor + 8) <? read32 mem (cursor + 12))
          then [Module (read32 mem (cursor + 8)) (read32 mem (cursor + 12))] else [])
      ++ mb2_events fuel' next end_
  | _, _ => []
  end.

Definition event_end (highest : Z) (e : mb2_event) : Z :=
  match e with
  | Avail base len => let e_end := u64 (base + len) in
                      if highest <? e_end then e_end else highest
  | Module _ mod_end => if highest <? mod_end then mod_end else highest
  end.

Definition run_event (e : mb2_event) : M pmm unit :=
  match e with
  | Avail base len => mark_range_available base len
  | Module a b => reserve_range a (u32 (b - a))
  end.

Fixpoint run_events (l : list mb2_event) : M pmm unit :=
  match l with
  | [] => mret tt
  | e :: l => run_event e ;; run_events l
  end.

Lemma run_events_app l l' s : run_events (l ++ l') s = (run_events l ;; run_events l') s.
Proof.
  revert s. induction l as [|e l IH]; intros s; [done|].
  simpl. unfold mbind, M_bind. destruct (run_event e s); [|done]. apply IH.
Qed.

Lemma read32_u32 a : is_u32 (read32 mem a).
Proof. unfold read32, u8, is_u32. pose proof (Z.mod_pos_bound (mem a) 256).
  pose proof (Z.mod_pos_bound (mem (a + 1)) 256). pose proof (Z.mod_pos_bound (mem (a + 2)) 256).
  pose proof (Z.mod_pos_bound (mem (a + 3)) 256). lia. Qed.

(** Each tag moves the cursor by at least eight bytes and stays in the structure. *)
Lemma mb2_tag_next_advance cursor end_ next :
  mb2_tag_next mem cursor end_ = Some next -> cursor + 8 <= next <= end_.
Proof.
  unfold mb2_tag_next. pose proof (read32_u32 (cursor + 4)) as Hr. unfold is_u32 in Hr.
  destruct (negb _); [done|]. destruct (_ =? _); [done|].
  destruct (Z.ltb_spec (read32 mem (cursor + 4)) 8) as [|Hs]; [done|].
  rewrite (u64_small (read32 mem (cursor + 4) + 7)) by lia.
  change (Z.lnot 7) with (Z.lnot (Z.ones 3)). rewrite land_lnot_ones by (unfold is_u64; lia). change (2 ^ 3) with 8.
  destruct (_ || _) eqn:E; [done|]. intros [= <-].
  apply orb_false_iff in E as [_ E%Z.ltb_ge]. split; [|done].
  Z.to_euclidean_division_equations. lia.
Qed.

Lemma mmap_scan_events fuel ptr e_end esz h :
  24 <= esz -> e_end - ptr <= Z.of_nat fuel ->
  mmap_scan mem fuel ptr e_end esz h = Some (foldl event_end h (mmap_events fuel ptr e_end esz)).
Proof.
  intros Hs. revert ptr h. induction fuel as [|fuel IH]; intros ptr h Hf; simpl.
  - destruct (Z.leb_spec (ptr + 24) e_end); [lia|done].
  - destruct (negb (ptr + 24 <=? e_end)); [done|]. rewrite IH by lia.
    by destruct (read32 mem (ptr + 16) =? NM_MEM_AVAILABLE).
Qed.

Lemma mb2_scan_events fuel cursor end_ h :
  end_ - cursor <= Z.of_nat fuel ->
  mb2_scan mem fuel cursor end_ h = Some (foldl event_end h (mb2_events fuel cursor end_)).
Proof.
  revert cursor h. induction fuel as [|fuel IH]; intros cursor h Hf; simpl;
    destruct (mb2_tag_next mem cursor end_) as [next|] eqn:E; try done.
  - apply mb2_tag_next_advance in E. lia.
  - apply mb2_tag_next_advance in E. pose proof (read32_u32 (cursor + 4)) as Hr.
    unfold is_u32 in Hr. rewrite !foldl_app.
    destruct (_ && (24 <=? _)) eqn:Em; simpl.
    + apply andb_true_iff in Em as [Em E24%Z.leb_le].
      rewrite mmap_scan_events by lia. cbn [mbind option_bind]. rewrite IH by lia.
      destruct (_ && (read32 mem (cursor + 8) <? _)); [|done]. simpl.
      by destruct (_ <? read32 mem (cursor + 12)).
    + rewrite IH by lia. destruct (_ && (read32 mem (cursor + 8) <? _)); [|done]. simpl.
      by destruct (_ <? read32 mem (cursor + 12)).
Qed.

Lemma mmap_mark_events fuel ptr e_end esz s :
  24 <= esz -> e_end - ptr <= Z.of_nat fuel ->
  mmap_mark mem fuel ptr e_end esz s = run_events (mmap_events fuel ptr e_end esz) s.
Proof.
  intros Hs. revert ptr s. induction fuel as [|fuel IH]; intros ptr s Hf; simpl.
  - destruct (Z.leb_spec (ptr + 24) e_end); [lia|done].
  - destruct (negb (ptr + 24 <=? e_end)); [done|].
    destruct (read32 mem (ptr + 16) =? NM_MEM_AVAILABLE); simpl; unfold mbind, M_bind.
    + destruct (mark_range_available _ _ s); [|done]. apply IH. lia.
    + apply IH. lia.
Qed.

Lemma mb2_mark_events fuel cursor end_ s :
  end_ - cursor <= Z.of_nat fuel ->
  mb2_mark mem fuel cursor end_ s = run_events (mb2_events fuel cursor end_) s.
Proof.
  revert cursor s. induction fuel as [|fuel IH]; intros cursor s Hf; simpl;
    destruct (mb2_tag_next mem cursor end_) as [next|] eqn:E; try done.
  - apply mb2_tag_next_advance in E. lia.
  - apply mb2_tag_next_advance in E. pose proof (read32_u32 (cursor + 4)) as Hr.
    unfold is_u32 in Hr. rewrite run_events_app. unfold mbind, M_bind.
    assert (Hm : forall c t, (if c : bool then reserve_range (read32 mem (cursor + 8))
                 (u32 (read32 mem (cursor + 12) - read32 mem (cursor + 8))) else mret tt) t =
               run_events (if c then [Module (read32 mem (cursor + 8))
                                        (read32 mem (cursor + 12))] else []) t).
    { intros [] t; simpl; [|done]. unfold mbind, M_bind.
      destruct (reserve_range _ _ t) as [[]|]; done. }
    destruct (_ && (24 <=? _)) eqn:Em; simpl.
    + apply andb_true_iff in Em as [Em E24%Z.leb_le]. rewrite mmap_mark_events by lia.
      destruct (run_events _ s) as [[] t|]; [|done]. rewrite run_events_app, Hm.
      unfold mbind, M_bind. destruct (run_events _ t) as [[] t'|]; [|done]. apply IH. lia.
    + rewrite run_events_app, Hm. unfold mbind, M_bind.
      destruct (run_events _ s) as [[] t'|]; [|done]. apply IH. lia.
Qed.
End multiboot2.

(** The state of frame [f] after the events, in order: an available range that
    covers the frame frees it, a module that touches it takes it. *)
Definition replay (l : list mb2_event) (f : Z) (used : bool) : bool :=
  foldl (fun b e =>
    match e with
    | Avail base len => negb (covers base len f) && b
    | Module a z => touches a (z - a) f || b
    end) used l.

Definition event_ok (e : mb2_event) : Prop :=
  match e with
  | Avail base len => no_wrap base len
  | Module a b => is_u32 a /\ is_u32 b /\ a < b
  end.

Lemma wp_run_events l s Q :
  wf s -> Forall event_ok l ->
  (forall t, evolves s t (fun g => if g <? frame_limit s then replay l g (frame_used s g)
                                   else true) -> Q tt t) ->
  wp (run_events l) Q s.
Proof.
  revert s. induction l as [|e l IH]; intros s H Hok HQ; simpl.
  - wp_go. apply HQ. eapply evolves_ext; [by apply evolves_refl|]. intros g. simpl.
    destruct (Z.ltb_spec g (frame_limit s)); [done|]. by apply (wf_pad _ H).
  - apply Forall_cons in Hok as [He Hok]. wp_go.
    assert (Hstep : forall t u, evolves s t u ->
        (forall g, g < frame_limit s -> u g = replay [e] g (frame_used s g)) ->
        wp (run_events l) Q t).
    { intros t u Ht Hu. apply IH; [apply Ht|done|]. intros t' Ht'. apply HQ.
      eapply evolves_ext; [by eapply evolves_trans|]. intros g. simpl.
      destruct (ev_config _ _ _ Ht) as [-> _]. destruct (Z.ltb_spec g (frame_limit s)); [|done].
      by rewrite (ev_used _ _ _ Ht), Hu. }
    destruct e as [base len|a b]; simpl in *.
    + apply wp_mark_range_available; [done|done|]. intros t Ht. eapply Hstep; [exact Ht|].
      intros g Hg. cbv beta. destruct (Z.ltb_spec g (frame_limit s)); [|lia]. by rewrite andb_true_r.
    + destruct He as (Ha & Hb & Hab). unfold is_u32 in *. rewrite u32_small by lia.
      apply wp_reserve_range; [done|unfold no_wrap, PAGE_SIZE; lia|]. intros t Ht.
      eapply Hstep; [exact Ht|]. intros g Hg. cbv beta.
      destruct (Z.ltb_spec g (frame_limit s)); [|lia]. by rewrite andb_true_r.
Qed.

(** The events of the structure at [ptr]. *)
Definition info_events (mem : Z -> Z) (ptr : Z) : list mb2_event :=
  mb2_events mem (Z.to_nat (read32 mem ptr)) (ptr + 8) (ptr + read32 mem ptr).

Definition info_ok (mem : Z -> Z) (ptr : Z) : Prop :=
  0 < ptr < 9223372036854775808 /\ 8 <= read32 mem ptr /\ Forall event_ok (info_events mem ptr).

Lemma event_end_u64 h e : is_u64 h -> event_ok e -> is_u64 (event_end h e).
Proof.
  intros Hh He. destruct e as [base len|a b]; simpl in *.
  - destruct (_ <? _); [apply u64_range|done].
  - destruct (_ <? _); [|done]. unfold is_u32, is_u64 in *. lia.
Qed.

Lemma events_end_u64 l h : is_u64 h -> Forall event_ok l -> is_u64 (foldl event_end h l).
Proof.
  revert h. induction l as [|e l IH]; intros h Hh Hok; [done|].
  apply Forall_cons in Hok as [He Hok]. simpl. apply IH; [by apply event_end_u64|done].
Qed.

Lemma wp_init_from_multiboot2 ks ke mem ptr s Q :
  kernel_ok ks ke -> info_ok mem ptr ->
  (forall t, inv t ->
     frame_limit t = clamp_frames (foldl event_end 0 (info_events mem ptr) / PAGE_SIZE) ->
     placed (Z.max (ptr + read32 mem ptr) (kernel_symbol_to_phys ke)) t ->
     (forall f, 0 <= f < frame_limit t ->
        frame_used t f = kernel_frames ks ke t f || touches ptr (read32 mem ptr) f
                         || replay (info_events mem ptr) f true) -> Q tt t) ->
  wp (pmm_init_from_multiboot2 ks ke mem ptr) Q s.
Proof.
  intros Hk (Hp & Hsz & Hev) HQ. unfold pmm_init_from_multiboot2. cbv zeta.
  pose proof (read32_u32 mem ptr) as Hr. unfold is_u32 in Hr.
  wp_step. wp_step. wp_step; [apply Z.eqb_eq in E; lia|].
  wp_step; [apply Z.ltb_lt in E0; lia|].
  rewrite (u64_small (ptr + read32 mem ptr)), (u64_small (ptr + 8)) by lia.
  rewrite mb2_scan_events by lia. fold (info_events mem ptr). clear E E0.
  apply wp_fresh_bitmap.
  { pose proof (events_end_u64 (info_events mem ptr) 0 ltac:(by unfold is_u64) Hev) as Hu.
    unfold is_u64 in *. pmm_lia. }
  intros t1 H1. wp_step. unfold wp at 1. rewrite mb2_mark_events by lia.
  fold (info_events mem ptr). apply wp_run_events; [apply H1|done|]. intros t2 H2.
  destruct (ev_config _ _ _ H2) as (L2 & _ & B2 & Y2). wp_step.
  apply wp_reserve_kernel; [apply H2|done| |].
  { rewrite B2, Y2. eapply fresh_no_wrap; [done|]. destruct Hk. lia. }
  intros t3 H3. destruct (ev_config _ _ _ H3) as (L3 & _ & B3 & Y3).
  apply wp_reserve_range; [apply H3|unfold no_wrap, PAGE_SIZE; lia|].
  intros t4 H4. destruct (ev_config _ _ _ H4) as (L4 & _ & B4 & Y4).
  apply HQ; [constructor; [apply H4| |]|..].
  - rewrite (ev_used _ _ _ H4), (ev_used _ _ _ H3).
    destruct (Z.ltb_spec 0 (frame_limit t2)); [|pose proof (wf_limit _ (ev_wf _ _ _ H2)); lia].
    rewrite orb_assoc. apply orb_true_iff. left. apply orb_true_iff. by right.
  - by rewrite (ev_lock _ _ _ H4), (ev_lock _ _ _ H3), (ev_lock _ _ _ H2), (fresh_lock _ _ _ _ H1).
  - rewrite L4, L3, L2. apply H1.
  - unfold placed. rewrite B4, B3, B2, Y4, Y3, Y2, L4, L3, L2, (fresh_limit _ _ _ _ H1).
    split; apply H1.
  - intros f Hf. rewrite L4, L3, L2 in Hf.
    rewrite (ev_used _ _ _ H4), (ev_used _ _ _ H3), (ev_used _ _ _ H2), (fresh_used _ _ _ _ H1).
    rewrite L3, L2. destruct (Z.ltb_spec f (frame_limit t1)); [|lia].
    rewrite !andb_true_r. unfold kernel_frames. rewrite B4, B3, Y4, Y3, B2, Y2.
    destruct (replay _ _ _), (touches ptr _ _); rewrite ?orb_true_r, ?orb_false_r; done.
Qed.

(** ** A concrete machine: 2 MiB of memory, the kernel at 1 MiB *)

Definition pmm0 : pmm := mk_pmm (mk_stats 0 0 0 0) [] 0 0 0 0 0 0.
Definition demo_ranges : list nm_mem_range := [mk_range 0 654336 1; mk_range 1048576 1048576 1].
Definition demo_ks : Z := 1048576.
Definition demo_ke : Z := 1064960.
Definition demo : pmm := Eval vm_compute in
  match pmm_init_from_ranges demo_ks demo_ke demo_ranges pmm0 with
  | Done _ s => s
  | Stuck _ => pmm0
  end.

Lemma demo_ranges_ok : ranges_ok demo_ranges.
Proof. repeat constructor; unfold PAGE_SIZE; simpl; lia. Qed.

Lemma demo_kernel_ok : kernel_ok demo_ks demo_ke.
Proof. unfold kernel_ok. vm_compute. repeat split; discriminate. Qed.

Lemma demo_run : pmm_init_from_ranges demo_ks demo_ke demo_ranges pmm0 = Done tt demo.
Proof. vm_compute. reflexivity. Qed.

Lemma demo_inv : inv demo.
Proof.
  assert (H : wp (pmm_init_from_ranges demo_ks demo_ke demo_ranges) (fun _ t => inv t) pmm0).
  { by apply wp_init_from_ranges; [exact demo_ranges_ok|exact demo_kernel_ok|]. }
  destruct (proj1 (wp_done _ _ _) H) as (a & t & Hrun & Ht).
  rewrite demo_run in Hrun. by injection Hrun as _ <-.
Qed.

(** ** Properties *)

(** C1: [pmm_alloc_pages] is sound and complete.  From a state that satisfies the
    allocator's invariant, for every page count it terminates without touching
    memory outside the bitmap and with the lock released; it either returns 0
    and leaves the state as it was, which happens only when the count is 0 or no
    run of that many consecutive free frames exists, or returns the address of a
    run of free, non-zero, in-range frames, which are then exactly the frames
    that became used, and the statistics account for them. *)
Theorem pmm_alloc_pages_spec s count :
  inv s -> 0 <= count -> wp (pmm_alloc_pages count) (alloc_result s count) s.
Proof. intros. by apply wp_alloc_pages. Qed.

Lemma pmm_alloc_pages_witness :
  inv demo /\ wp (pmm_alloc_pages 3) (alloc_result demo 3) demo.
Proof.
  split; [exact demo_inv|]. apply (pmm_alloc_pages_spec demo 3); [exact demo_inv|lia].
Defined.

(** [pmm_free_page] on every address: it acts exactly on the non-zero,
    page-aligned address of an in-range frame that is in use, which becomes free
    and is counted; any other address (null, unaligned, out of range, or a frame
    that is already free: a double free) leaves the state unchanged.  The
    invariant is preserved and the lock is released. *)
Theorem pmm_free_page_spec s a :
  inv s -> 0 <= a ->
  wp (pmm_free_page a) (fun _ s' => inv s' /\
    if releasable s a then released s s' (a / PAGE_SIZE) else s' = s) s.
Proof.
  intros H Ha. apply wp_free_page; [done|done|..].
  - by intros ->.
  - by intros s' -> ? ?.
Qed.

Lemma pmm_free_page_witness :
  inv demo /\ releasable demo 1048576 = true /\
  wp (pmm_free_page 1048576) (fun _ s' => inv s' /\
    if releasable demo 1048576 then released demo s' (1048576 / PAGE_SIZE) else s' = demo) demo.
Proof.
  split; [exact demo_inv|]. split; [vm_compute; reflexivity|].
  apply (pmm_free_page_spec demo 1048576); [exact demo_inv|lia].
Defined.

(** Allocating one page and freeing it gives back the very same bitmap and
    the same statistics, whatever the allocator's state. *)
Theorem pmm_alloc_free_roundtrip s :
  inv s ->
  wp (p ← pmm_alloc_page; pmm_free_page p) (fun _ s' =>
    inv s' /\ frame_bitmap s' = frame_bitmap s /\ mm_stats s' = mm_stats s) s.
Proof.
  intros H. unfold pmm_alloc_page. wp_go. apply wp_alloc_pages; [done|lia|].
  intros p t [Ht [(-> & -> & _)|(_ & f & -> & Htk)]].
  { by apply wp_free_page. }
  pose proof (taken_range _ _ _ _ Htk) as Hf.
  assert (Hlim : frame_limit t = frame_limit s) by apply Htk.
  assert (Hdiv : f * PAGE_SIZE / PAGE_SIZE = f) by (by rewrite Z.div_mul).
  assert (Hrel : releasable t (f * PAGE_SIZE) = true).
  { unfold releasable. rewrite Hdiv, Z.mod_mul, (taken_used _ _ _ _ Htk), Hlim by done.
    destruct (Z.eqb_spec (f * PAGE_SIZE) 0), (Z.ltb_spec f (frame_limit s)),
      (Z.leb_spec f f), (Z.ltb_spec f (f + 1)); try done; pmm_lia. }
  apply wp_free_page; [done|pmm_lia|congruence|]. intros s' _ Hr Hs'. rewrite Hdiv in Hr.
  split_and!; [done| |].
  - apply bitmap_ext; [apply H|apply Hs'| |].
    { destruct (taken_config _ _ _ _ Htk) as (_ & <- & _). apply Hr. }
    intros g. rewrite (released_map _ _ _ Hr), (taken_used _ _ _ _ Htk).
    destruct (Z.eqb_spec g f) as [->|].
    + symmetry. apply (taken_free _ _ _ _ Htk). lia.
    + destruct (Z.leb_spec f g), (Z.ltb_spec g (f + 1)); try lia; done.
  - rewrite (released_stats _ _ _ Hr), (taken_stats _ _ _ _ Htk). simpl.
    destruct (mm_stats s). simpl. f_equal; lia.
Qed.

Lemma pmm_alloc_free_witness :
  wp (p ← pmm_alloc_page; pmm_free_page p) (fun _ s' =>
    inv s' /\ frame_bitmap s' = frame_bitmap demo /\ mm_stats s' = mm_stats demo) demo.
Proof. apply (pmm_alloc_free_roundtrip demo). exact demo_inv. Defined.

(** Initialisation from memory ranges establishes the invariant from any
    previous state, covers the detected memory up to 128 GiB, and leaves a frame
    free exactly when some available range contains it whole and it overlaps
    neither the first megabyte, nor the kernel image, nor the bitmap, which is
    placed on the first page boundary after the kernel. *)
Theorem pmm_init_from_ranges_spec ks ke ranges s :
  ranges_ok ranges -> kernel_ok ks ke ->
  wp (pmm_init_from_ranges ks ke ranges) (fun _ t =>
    inv t /\ frame_limit t = clamp_frames (ranges_highest_end ranges / PAGE_SIZE) /\
    placed (kernel_symbol_to_phys ke) t /\
    forall f, 0 <= f < frame_limit t ->
      frame_used t f = kernel_frames ks ke t f || negb (available ranges f)) s.
Proof. intros Hr Hk. by apply wp_init_from_ranges. Qed.

Lemma pmm_init_from_ranges_witness :
  wp (pmm_init_from_ranges demo_ks demo_ke demo_ranges) (fun _ t =>
    inv t /\ frame_limit t = clamp_frames (ranges_highest_end demo_ranges / PAGE_SIZE) /\
    placed (kernel_symbol_to_phys demo_ke) t /\
    forall f, 0 <= f < frame_limit t ->
      frame_used t f = kernel_frames demo_ks demo_ke t f || negb (available demo_ranges f)) pmm0.
Proof.
  apply (pmm_init_from_ranges_spec demo_ks demo_ke demo_ranges pmm0);
    [exact demo_ranges_ok|exact demo_kernel_ok].
Defined.

(** An information structure at 64 KiB with a module tag followed by a memory
    map of one available entry. *)
Definition le32 (x : Z) : list Z :=
  [x `mod` 256; (x / 256) `mod` 256; (x / 65536) `mod` 256; (x / 16777216) `mod` 256].
Definition demo_info : list Z :=
  concat (le32 <$>
    [72; 0;
     3; 16; 1572864; 1576960;
     6; 40; 24; 0; 1048576; 0; 1048576; 0; 1; 0;
     0; 8]).
Definition demo_mem (a : Z) : Z := default 0 (arr demo_info (a - 65536)).

Lemma demo_events : info_events demo_mem 65536 = [Module 1572864 1576960; Avail 1048576 1048576].
Proof. vm_compute. reflexivity. Qed.

Lemma demo_info_ok : info_ok demo_mem 65536.
Proof.
  unfold info_ok. rewrite demo_events. split_and!; [lia|lia|vm_compute; discriminate|].
  repeat constructor; unfold PAGE_SIZE, is_u32; simpl; lia.
Qed.

(** C19: the walk over the multiboot2 tags terminates on every structure whose
    events do not wrap (each tag moves the cursor by at least 8 bytes, so neither
    pass runs out of its fuel), the two passes see the same entries, and the
    resulting allocator satisfies the invariant; a frame is in use exactly when
    the kernel or the structure itself occupies it or the memory map and module
    tags, applied in tag order to a fully used bitmap, leave it used. *)
Theorem pmm_init_from_multiboot2_spec ks ke mem ptr s :
  kernel_ok ks ke -> info_ok mem ptr ->
  wp (pmm_init_from_multiboot2 ks ke mem ptr) (fun _ t =>
    inv t /\
    frame_limit t = clamp_frames (foldl event_end 0 (info_events mem ptr) / PAGE_SIZE) /\
    placed (Z.max (ptr + read32 mem ptr) (kernel_symbol_to_phys ke)) t /\
    forall f, 0 <= f < frame_limit t ->
      frame_used t f = kernel_frames ks ke t f || touches ptr (read32 mem ptr) f
                       || replay (info_events mem ptr) f true) s.
Proof. intros Hk Hi. by apply wp_init_from_multiboot2. Qed.

Lemma pmm_init_from_multiboot2_witness :
  wp (pmm_init_from_multiboot2 demo_ks demo_ke demo_mem 65536) (fun _ t =>
    inv t /\
    frame_limit t = clamp_frames (foldl event_end 0 (info_events demo_mem 65536) / PAGE_SIZE) /\
    placed (Z.max (65536 + read32 demo_mem 65536) (kernel_symbol_to_phys demo_ke)) t /\
    forall f, 0 <= f < frame_limit t ->
      frame_used t f = kernel_frames demo_ks demo_ke t f || touches 65536 (read32 demo_mem 65536) f
                       || replay (info_events demo_mem 65536) f true) pmm0.
Proof.
  apply (pmm_init_from_multiboot2_spec demo_ks demo_ke demo_mem 65536 pmm0);
    [exact demo_kernel_ok|exact demo_info_ok].
Defined.

(** A module tag that comes before the memory map is not protected.  The
    reservation of the module's frames is undone by the later available entry,
    so after initialisation a frame that holds the boot module is free and the
    allocator may hand it out. *)
Theorem multiboot2_module_freed :
  Module 1572864 1576960 ∈ info_events demo_mem 65536 /\
  touches 1572864 (1576960 - 1572864) 384 = true /\
  wp (pmm_init_from_multiboot2 demo_ks demo_ke demo_mem 65536)
    (fun _ t => inv t /\ frame_used t 384 = false) pmm0.
Proof.
  split_and!.
  - rewrite demo_events. by left.
  - reflexivity.
  - apply wp_init_from_multiboot2; [exact demo_kernel_ok|exact demo_info_ok|].
    intros t Ht Hl [Hb Hy] Hu. rewrite demo_events in *. split; [done|].
    rewrite Hu by (rewrite Hl; vm_compute; split; discriminate || done).
    unfold kernel_frames. rewrite Hb, Hy, Hl. vm_compute. done.
Qed.

(** ** The promise to the page tables *)

Lemma releasable_spec s a :
  releasable s a = true <-> a <> 0 /\ a `mod` PAGE_SIZE = 0 /\ a / PAGE_SIZE < frame_limit s /\ frame_used s (a / PAGE_SIZE) = true.
Proof. unfold releasable. rewrite !andb_true_iff, negb_true_iff, Z.eqb_neq, Z.eqb_eq, Z.ltb_lt. tauto. Qed.

(** The pages past the first, and those of them that are in use. *)
Definition page_at (s : pmm) (a : Z) : Prop := 0 < a /\ a `mod` 4096 = 0 /\ a / 4096 < frame_limit s.
Definition page_in_use (s : pmm) (a : Z) : Prop := 0 < a /\ releasable s a = true.

Lemma page_in_use_spec s a : page_in_use s a <-> page_at s a /\ frame_used s (a / 4096) = true.
Proof.
  unfold page_in_use, page_at. rewrite releasable_spec. unfold PAGE_SIZE. split; [tauto|].
  intros ((? & ?) & ?). split_and!; try tauto. lia.
Qed.

Lemma page_at_range s a : inv s -> page_at s a -> 0 < a < 2 ^ 46 /\ a `mod` 4096 = 0.
Proof.
  intros Hi (? & ? & ?). pose proof (wf_limit _ Hi) as Hlim. unfold MAX_FRAMES in Hlim.
  split; [|done]. Z.to_euclidean_division_equations; lia.
Qed.

Lemma pmm_page_alloc_law s (Q : Z -> pmm -> Prop) :
  inv s -> ((forall b, page_at s b -> page_in_use s b) -> Q 0 s) ->
  (forall a s', inv s' -> page_at s a -> ~ page_in_use s a -> (forall b, page_at s' b <-> page_at s b) ->
     (forall b, page_in_use s' b <-> page_in_use s b \/ b = a) -> Q a s') -> wp pmm_alloc_page Q s.
Proof.
  intros Hi H0 HQ. unfold pmm_alloc_page. apply wp_alloc_pages; [done|lia|].
  intros p s' [Hi' [(-> & -> & [?|Hfull])|(_ & f & -> & [Hr Hf Hu _ (Hl & _)])]]; [lia|..].
  { apply H0. intros b Hb. apply page_in_use_spec. split; [done|].
    destruct (frame_used s (b / 4096)) eqn:E; [done|]. destruct Hfull. exists (b / 4096).
    destruct Hb as (? & ? & ?). split_and!; [Z.to_euclidean_division_equations; lia|lia|].
    intros g ?. by replace g with (b / 4096) by lia. }
  unfold PAGE_SIZE in *. assert (Hdiv : f * 4096 / 4096 = f) by (apply Z.div_mul; lia).
  assert (Hat : page_at s (f * 4096)) by (unfold page_at; rewrite Hdiv, Z.mod_mul; lia).
  apply HQ; [done|done|..].
  - rewrite page_in_use_spec. intros [_ Hx]. rewrite Hdiv in Hx. by rewrite Hf in Hx by lia.
  - intros b. unfold page_at. by rewrite Hl.
  - intros b. rewrite !page_in_use_spec. unfold page_at. rewrite Hl, Hu, orb_true_iff, andb_true_iff, Z.leb_le, Z.ltb_lt. split.
    + intros ((? & ? & ?) & [?|?]); [right|left; tauto]. Z.to_euclidean_division_equations; lia.
    + intros [?| ->]; [tauto|]. rewrite Hdiv, Z.mod_mul by lia. split_and!; lia || (left; lia).
Qed.

Lemma pmm_page_free_law s a (Q : unit -> pmm -> Prop) :
  inv s -> page_in_use s a ->
  (forall s', inv s' -> (forall b, page_at s' b <-> page_at s b) ->
     (forall b, page_in_use s' b <-> page_in_use s b /\ b <> a) -> Q tt s') -> wp (pmm_free_page a) Q s.
Proof.
  intros Hi Hu HQ. destruct (proj1 (page_in_use_spec s a) Hu) as ((Ha & Hmod & _) & _). destruct Hu as [_ Hr].
  apply wp_free_page; [done|lia|by rewrite Hr|]. intros s' _ [_ Hrg Hm _ (Hl & _)] Hi'.
  apply HQ; [done|intros b; unfold page_at; by rewrite Hl|].
  unfold PAGE_SIZE in *. intros b. rewrite !page_in_use_spec. unfold page_at.
  rewrite Hl, Hm, andb_true_iff, negb_true_iff, Z.eqb_neq. split.
  - intros (? & ? & ?). split; [tauto|]. intros ->. done.
  - intros [((? & ? & ?) & ?) Hne]. split_and!; try done. intros E. apply Hne. Z.to_euclidean_division_equations; lia.
Qed.

#[global] Instance pmm_PageAlloc : PageAlloc pmm := {|
  page_alloc := pmm_alloc_page;
  page_free := pmm_free_page;
  pages_ok := inv;
  page_frame := page_at;
  page_used := page_in_use;
  page_frame_range := page_at_range;
  page_alloc_law := pmm_page_alloc_law;
  page_free_law := pmm_page_free_law;
|}.

End Pmm.
