(* ===== verification/Vmm.v ===== *)
(** * Page tables ([kernel/mm/vmm.c])

    The four-level page tables of x86-64: mapping 4 KiB and 2 MiB pages and
    unmapping 4 KiB pages under any root, over any page allocator ([PageAlloc]).
    Physical memory is identity mapped, so a table is a page of 512 words and a
    pointer to it is the page's address; touching a page that is not memory is a
    fault.  [translate] is the processor's walk.  The invariant [space] holds a
    tree of tables (from the path of indices, last one first, to the page), and
    the routines are shown to be updates of the map from pages to frames.  The
    boot tables of [boot/entry.S] satisfy it. *)

From S2P Require Import Prelude Interfaces Pmm.

Module Vmm.

(** ** Data *)

Definition PAGE_FLAG_PRESENT : Z := 1.
Definition PAGE_FLAG_RW : Z := 2.
Definition PAGE_FLAG_US : Z := 4.
Definition PAGE_FLAG_PS : Z := 128.
Definition KERNEL_VIRT_BASE : Z := 18446744071562067968.

(** [~0xFFFULL] and [~0x1FFFFFULL]. *)
Definition MASK_4K : Z := u64 (Z.lnot 4095).
Definition MASK_2M : Z := u64 (Z.lnot 2097151).

(** The static data of the file, physical memory by pages, the addresses given to
    [invlpg] (newest first), and the page allocator. *)
Record vmm (P : Type) := mk_vmm {
  kernel_pml4 : Z;
  vmm_lock_word : Z;
  ram : gmap Z (list Z);
  flushed : list Z;
  phys : P;
}.
#[global] Arguments mk_vmm {P} _ _ _ _ _.
#[global] Arguments kernel_pml4 {P} _.
#[global] Arguments vmm_lock_word {P} _.
#[global] Arguments ram {P} _.
#[global] Arguments flushed {P} _.
#[global] Arguments phys {P} _.

(** [(e & f) != 0] *)
Definition has (e f : Z) : bool := negb (Z.land e f =? 0).

Definition ptr_to_phys (addr : Z) : Z :=
  if KERNEL_VIRT_BASE <=? addr then addr - KERNEL_VIRT_BASE else addr.

Definition phys_to_ptr (phys : Z) : Z := phys.

Definition table_flags_from_leaf (flags : Z) : Z :=
  let out := 0 in
  let out := if has flags PAGE_FLAG_RW then Z.lor out PAGE_FLAG_RW else out in
  if has flags PAGE_FLAG_US then Z.lor out PAGE_FLAG_US else out.

(** The index of an address at the level whose entries cover [2^k] bytes. *)
Definition index (virt_addr k : Z) : Z := Z.land (Z.shiftr virt_addr k) 511.

(** The first table of the pool, which loses it. *)
Fixpoint take_prealloc (pool : list Z) : Z * list Z :=
  match pool with
  | [] => (0, [])
  | t :: pool => if t =? 0 then let '(x, pool') := take_prealloc pool in (x, t :: pool')
                 else (t, 0 :: pool)
  end.

(** ** Operations *)

Section Operations.
Context {P : Type} `{PageAlloc P}.

Definition set_lock (w : Z) (s : vmm P) : vmm P :=
  mk_vmm (kernel_pml4 s) w (ram s) (flushed s) (phys s).
Definition set_ram (m : gmap Z (list Z)) (s : vmm P) : vmm P :=
  mk_vmm (kernel_pml4 s) (vmm_lock_word s) m (flushed s) (phys s).
Definition set_flushed (l : list Z) (s : vmm P) : vmm P :=
  mk_vmm (kernel_pml4 s) (vmm_lock_word s) (ram s) l (phys s).
Definition set_phys (p : P) (s : vmm P) : vmm P :=
  mk_vmm (kernel_pml4 s) (vmm_lock_word s) (ram s) (flushed s) p.
Definition set_root (r : Z) (s : vmm P) : vmm P :=
  mk_vmm r (vmm_lock_word s) (ram s) (flushed s) (phys s).

Definition pmm {A} (c : M P A) : M (vmm P) A := lift_to phys set_phys c.

(** [table[i]] *)
Definition load (table i : Z) : M (vmm P) Z := fun s =>
  match ram s !! table with
  | Some ws => match arr ws i with Some w => Done w s | None => Stuck OutOfBounds end
  | None => Stuck OutOfBounds
  end.

(** [table[i] = w] *)
Definition store (table i w : Z) : M (vmm P) unit := fun s =>
  match ram s !! table with
  | Some ws =>
      match arr ws i with
      | Some _ => Done tt (set_ram (<[table := upd ws i w]> (ram s)) s)
      | None => Stuck OutOfBounds
      end
  | None => Stuck OutOfBounds
  end.

Definition invlpg (virt_addr : Z) : M (vmm P) unit :=
  modify (fun s => set_flushed (virt_addr :: flushed s) s).

Definition vmm_lock : M (vmm P) unit :=
  w ← gets vmm_lock_word;
  if w =? 0 then modify (set_lock 1) else stuck LockHeld.

Definition vmm_unlock : M (vmm P) unit := modify (set_lock 0).

Definition table_empty (table : Z) : M (vmm P) bool :=
  r ← for_each (upto 0 512) (fun i =>
    w ← load table i;
    mret (if has w PAGE_FLAG_PRESENT then Some false else None));
  mret (default true r).

Definition alloc_table : M (vmm P) Z :=
  phys ← pmm page_alloc;
  if phys =? 0 then mret 0
  else
    let table := phys_to_ptr phys in
    for_all (upto 0 512) (fun i => store table i 0);;
    mret table.

(** [pmm_free_page(ptr_to_phys(pool[i]))] on every table of the pool, empty slots
    left out. *)
Fixpoint free_table_pool (pool : list Z) : M (vmm P) unit :=
  match pool with
  | [] => mret tt
  | t :: pool =>
      (if negb (t =? 0) then pmm (page_free (ptr_to_phys t)) else mret tt);;
      free_table_pool pool
  end.

(** The loop of [alloc_table_pool] with [count] slots to fill after those in
    [pool]; a failure gives the slots back and leaves the pool empty. *)
Fixpoint alloc_table_pool (count : nat) (pool : list Z) : M (vmm P) (option (list Z)) :=
  match count with
  | O => mret (Some pool)
  | S count =>
      t ← alloc_table;
      if t =? 0 then free_table_pool pool;; mret None
      else alloc_table_pool count (pool ++ [t])
  end.

(** The next table on a walk and the pool that is left; 0 when one is missing and
    the pool is empty. *)
Definition get_or_create_next (table index flags : Z) (pool : list Z) : M (vmm P) (Z * list Z) :=
  entry ← load table index;
  if has entry PAGE_FLAG_PRESENT then
    let want := Z.land flags (Z.lor PAGE_FLAG_RW PAGE_FLAG_US) in
    (if negb (Z.land entry want =? want) then store table index (Z.lor entry want) else mret tt);;
    mret (phys_to_ptr (Z.land entry MASK_4K), pool)
  else
    let '(next, pool') := take_prealloc pool in
    if next =? 0 then mret (0, pool')
    else
      store table index (Z.lor (Z.lor (ptr_to_phys next) flags) PAGE_FLAG_PRESENT);;
      mret (next, pool').

Definition vmm_init (cr3 : Z) : M (vmm P) unit := modify (set_root (phys_to_ptr (Z.land cr3 MASK_4K))).

Definition vmm_kernel_root : M (vmm P) Z := gets kernel_pml4.

(** The exit of the map routines: the lock and the tables not used go back. *)
Definition finish_map (pool : list Z) (r : bool) : M (vmm P) bool :=
  vmm_unlock;; free_table_pool pool;; mret r.

Definition vmm_map_page_in (pml4 virt_addr phys_addr flags : Z) : M (vmm P) bool :=
  if pml4 =? 0 then mret false
  else
    prealloc ← alloc_table_pool 3 [];
    match prealloc with
    | None => mret false
    | Some pool =>
        vmm_lock;;
        let table_flags := table_flags_from_leaf flags in
        '(pdpt, pool) ← get_or_create_next pml4 (index virt_addr 39) table_flags pool;
        if pdpt =? 0 then finish_map pool false
        else
          '(pd, pool) ← get_or_create_next pdpt (index virt_addr 30) table_flags pool;
          if pd =? 0 then finish_map pool false
          else
            '(pt, pool) ← get_or_create_next pd (index virt_addr 21) table_flags pool;
            if pt =? 0 then finish_map pool false
            else
              store pt (index virt_addr 12)
                (Z.lor (Z.lor (Z.land phys_addr MASK_4K) (Z.land flags 4095)) PAGE_FLAG_PRESENT);;
              invlpg virt_addr;;
              finish_map pool true
    end.

Definition vmm_map_2m_in (pml4 virt_addr phys_addr flags : Z) : M (vmm P) bool :=
  if pml4 =? 0 then mret false
  else
    prealloc ← alloc_table_pool 2 [];
    match prealloc with
    | None => mret false
    | Some pool =>
        vmm_lock;;
        let table_flags := table_flags_from_leaf flags in
        '(pdpt, pool) ← get_or_create_next pml4 (index virt_addr 39) table_flags pool;
        if pdpt =? 0 then finish_map pool false
        else
          '(pd, pool) ← get_or_create_next pdpt (index virt_addr 30) table_flags pool;
          if pd =? 0 then finish_map pool false
          else
            store pd (index virt_addr 21)
              (Z.lor (Z.lor (Z.lor (Z.land phys_addr MASK_2M) (Z.land flags 4095)) PAGE_FLAG_PRESENT)
                 PAGE_FLAG_PS);;
            invlpg virt_addr;;
            finish_map pool true
    end.

(** [pmm_free_page] on each of [to_free]. *)
Fixpoint free_pages (to_free : list Z) : M (vmm P) unit :=
  match to_free with
  | [] => mret tt
  | a :: to_free => pmm (page_free a);; free_pages to_free
  end.

(** The middle of [vmm_unmap_page_in]: clear the entries of the tables that have
    become empty, the deepest first, and answer the pages to free. *)
Definition reclaim (pml4 pml4e virt_addr pdpte pde : Z) : M (vmm P) (list Z) :=
  let pdpt := phys_to_ptr (Z.land pml4e MASK_4K) in
  let pd := phys_to_ptr (Z.land pdpte MASK_4K) in
  let pt := phys_to_ptr (Z.land pde MASK_4K) in
  pt_empty ← table_empty pt;
  if negb pt_empty then mret []
  else
    let pt_phys := Z.land pde MASK_4K in
    store pd (index virt_addr 21) 0;;
    pd_empty ← table_empty pd;
    if negb pd_empty then mret [pt_phys]
    else
      let pd_phys := Z.land pdpte MASK_4K in
      store pdpt (index virt_addr 30) 0;;
      pdpt_empty ← table_empty pdpt;
      if negb pdpt_empty then mret [pt_phys; pd_phys]
      else
        let pdpt_phys := Z.land pml4e MASK_4K in
        store pml4 (index virt_addr 39) 0;;
        mret [pt_phys; pd_phys; pdpt_phys].

Definition vmm_unmap_page_in (pml4 virt_addr : Z) : M (vmm P) bool :=
  if pml4 =? 0 then mret false
  else
    vmm_lock;;
    let pml4_i := index virt_addr 39 in
    let pdpt_i := index virt_addr 30 in
    let pd_i := index virt_addr 21 in
    let pt_i := index virt_addr 12 in
    pml4e ← load pml4 pml4_i;
    if negb (has pml4e PAGE_FLAG_PRESENT) then vmm_unlock;; mret false
    else
      let pdpt := phys_to_ptr (Z.land pml4e MASK_4K) in
      pdpte ← load pdpt pdpt_i;
      if negb (has pdpte PAGE_FLAG_PRESENT) then vmm_unlock;; mret false
      else
        let pd := phys_to_ptr (Z.land pdpte MASK_4K) in
        pde ← load pd pd_i;
        if negb (has pde PAGE_FLAG_PRESENT) || has pde PAGE_FLAG_PS then vmm_unlock;; mret false
        else
          let pt := phys_to_ptr (Z.land pde MASK_4K) in
          store pt pt_i 0;;
          to_free ← reclaim pml4 pml4e virt_addr pdpte pde;
          invlpg virt_addr;;
          vmm_unlock;;
          free_pages to_free;;
          mret true.

Definition vmm_map_page (virt_addr phys_addr flags : Z) : M (vmm P) bool :=
  root ← gets kernel_pml4; vmm_map_page_in root virt_addr phys_addr flags.

Definition vmm_map_2m (virt_addr phys_addr flags : Z) : M (vmm P) bool :=
  root ← gets kernel_pml4; vmm_map_2m_in root virt_addr phys_addr flags.

Definition vmm_unmap_page (virt_addr : Z) : M (vmm P) bool :=
  root ← gets kernel_pml4; vmm_unmap_page_in root virt_addr.

End Operations.

(** ** Bits of an entry *)

Definition present (e : Z) : bool := Z.testbit e 0.
Definition writable (e : Z) : bool := Z.testbit e 1.
Definition user (e : Z) : bool := Z.testbit e 2.
Definition large (e : Z) : bool := Z.testbit e 7.

(** Bits [lo] to [hi - 1] of a word. *)
Definition field (e lo hi : Z) : Z := Z.land e (2 ^ hi - 2 ^ lo).

Lemma has_bit e k : 0 <= k -> has e (2 ^ k) = Z.testbit e k.
Proof.
  intros Hk. unfold has. destruct (Z.testbit e k) eqn:E.
  - apply negb_true_iff, Z.eqb_neq. intros Hz. apply (f_equal (fun z => Z.testbit z k)) in Hz.
    by rewrite Z.land_spec, E, Z.pow2_bits_true, Z.bits_0 in Hz by lia.
  - apply negb_false_iff, Z.eqb_eq, Z.bits_inj'. intros i Hi.
    rewrite Z.land_spec, Z.pow2_bits_eqb, Z.bits_0 by lia.
    destruct (Z.eqb_spec k i) as [->|]; [by rewrite E|apply andb_false_r].
Qed.

Lemma has_present e : has e PAGE_FLAG_PRESENT = present e.
Proof. exact (has_bit e 0 ltac:(lia)). Qed.
Lemma has_large e : has e PAGE_FLAG_PS = large e.
Proof. exact (has_bit e 7 ltac:(lia)). Qed.
Lemma has_rw e : has e PAGE_FLAG_RW = writable e.
Proof. exact (has_bit e 1 ltac:(lia)). Qed.
Lemma has_us e : has e PAGE_FLAG_US = user e.
Proof. exact (has_bit e 2 ltac:(lia)). Qed.

Lemma mask_testbit lo hi i :
  0 <= lo <= hi -> 0 <= i -> Z.testbit (2 ^ hi - 2 ^ lo) i = (lo <=? i) && (i <? hi).
Proof.
  intros ? Hi. replace (2 ^ hi - 2 ^ lo) with (Z.shiftl (Z.ones (hi - lo)) lo).
  - rewrite Z.shiftl_spec by done. destruct (Z.leb_spec lo i), (Z.ltb_spec i hi); simpl.
    + apply Z.ones_spec_low. lia.
    + apply Z.ones_spec_high. lia.
    + apply Z.testbit_neg_r. lia.
    + apply Z.testbit_neg_r. lia.
  - rewrite Z.shiftl_mul_pow2, Z.ones_equiv by lia. unfold Z.pred.
    replace (2 ^ hi) with (2 ^ (hi - lo) * 2 ^ lo) by (rewrite <- Z.pow_add_r by lia; f_equal; lia). lia.
Qed.

Lemma field_testbit e lo hi i :
  0 <= lo <= hi -> 0 <= i -> Z.testbit (field e lo hi) i = Z.testbit e i && ((lo <=? i) && (i <? hi)).
Proof. intros. unfold field. by rewrite Z.land_spec, mask_testbit. Qed.

Lemma mask_4k e : Z.land e MASK_4K = field e 12 64.
Proof. done. Qed.
Lemma mask_2m e : Z.land e MASK_2M = field e 21 64.
Proof. done. Qed.

(** A page-aligned address below [2^hi] has no bits outside [12, hi). *)
Lemma aligned_testbit n i : 0 <= n < 2 ^ 46 -> n `mod` 4096 = 0 -> ~ (12 <= i < 46) -> Z.testbit n i = false.
Proof.
  intros Hn Hm Hi. destruct (Z.testbit n i) eqn:E; [|done].
  destruct (testbit_lt_pow2 n i 46 Hn ltac:(lia) E). exfalso.
  assert (Hl : Z.testbit (n `mod` 2 ^ 12) i = true) by (rewrite Z.mod_pow2_bits_low by lia; done).
  change (2 ^ 12) with 4096 in Hl. by rewrite Hm, Z.bits_0 in Hl.
Qed.

(** The low part of a sum of fields: clearing the low bits of an address. *)
Lemma field_small a lo hi : 0 <= lo <= hi -> 0 <= a < 2 ^ hi -> field a lo hi = a - a `mod` 2 ^ lo.
Proof.
  intros ? Ha. rewrite (Z.div_mod a (2 ^ lo)) at 2 by lia.
  replace (2 ^ lo * (a / 2 ^ lo) + a `mod` 2 ^ lo - a `mod` 2 ^ lo) with ((a / 2 ^ lo) * 2 ^ lo) by lia.
  rewrite <- Z.shiftr_div_pow2, <- Z.shiftl_mul_pow2 by lia. apply Z.bits_inj'. intros i Hi.
  rewrite field_testbit, Z.shiftl_spec by lia. destruct (Z.leb_spec lo i); simpl.
  - rewrite Z.shiftr_spec by lia. replace (i - lo + lo) with i by lia.
    destruct (Z.ltb_spec i hi); [by rewrite andb_true_r|]. rewrite andb_false_r.
    destruct (Z.testbit a i) eqn:E; [|done]. destruct (testbit_lt_pow2 a i hi Ha ltac:(lia) E). lia.
  - rewrite andb_false_r. symmetry. apply Z.testbit_neg_r. lia.
Qed.

(** What the routines write: a table's address or a frame, with flags. *)
Lemma frame_flags_4k pa flags hi :
  12 <= hi <= 64 -> 0 <= pa < 2 ^ hi ->
  field (Z.lor (Z.lor (Z.land pa MASK_4K) (Z.land flags 4095)) PAGE_FLAG_PRESENT) 12 hi = pa - pa `mod` 4096.
Proof.
  intros Hhi Hp. change 4096 with (2 ^ 12). rewrite <- (field_small pa 12 hi) by lia.
  apply Z.bits_inj'. intros i Hi. rewrite mask_4k, !field_testbit, !Z.lor_spec, field_testbit, Z.land_spec by lia.
  change 4095 with (2 ^ 12 - 2 ^ 0). change PAGE_FLAG_PRESENT with (2 ^ 1 - 2 ^ 0). rewrite !mask_testbit by lia.
  destruct (Z.leb_spec 12 i), (Z.ltb_spec i hi), (Z.ltb_spec i 64), (Z.ltb_spec i 12), (Z.ltb_spec i 1), (Z.leb_spec 0 i);
    try lia; simpl; rewrite ?andb_true_r, ?andb_false_r, ?orb_false_r; done.
Qed.

Lemma frame_flags_2m pa flags hi :
  21 <= hi <= 64 -> 0 <= pa < 2 ^ hi ->
  field (Z.lor (Z.lor (Z.lor (Z.land pa MASK_2M) (Z.land flags 4095)) PAGE_FLAG_PRESENT) PAGE_FLAG_PS) 21 hi
  = pa - pa `mod` 2097152.
Proof.
  intros Hhi Hp. change 2097152 with (2 ^ 21). rewrite <- (field_small pa 21 hi) by lia.
  apply Z.bits_inj'. intros i Hi. rewrite mask_2m, !field_testbit, !Z.lor_spec, field_testbit, Z.land_spec by lia.
  change 4095 with (2 ^ 12 - 2 ^ 0). change PAGE_FLAG_PRESENT with (2 ^ 1 - 2 ^ 0).
  change PAGE_FLAG_PS with (2 ^ 8 - 2 ^ 7). rewrite !mask_testbit by lia.
  destruct (Z.leb_spec 21 i), (Z.ltb_spec i hi), (Z.ltb_spec i 64), (Z.ltb_spec i 12), (Z.ltb_spec i 1), (Z.leb_spec 0 i),
    (Z.leb_spec 7 i), (Z.ltb_spec i 8);
    try lia; simpl; rewrite ?andb_true_r, ?andb_false_r, ?orb_false_r; done.
Qed.

(** Evaluate the bits of constants. *)
Ltac const_bits :=
  repeat match goal with
  | |- context [Z.testbit ?c ?k] =>
      let v := eval vm_compute in (Z.testbit c k) in
      lazymatch v with true => idtac | false => idtac end;
      change (Z.testbit c k) with v
  end.

Ltac low_bits :=
  unfold present, large, writable, user; rewrite ?Z.lor_spec, ?Z.land_spec; const_bits;
  rewrite ?andb_true_r, ?andb_false_r, ?orb_false_r, ?orb_true_r; try done.

Lemma leaf_4k_bits pa flags :
  let e := Z.lor (Z.lor (Z.land pa MASK_4K) (Z.land flags 4095)) PAGE_FLAG_PRESENT in
  present e = true /\ writable e = writable flags /\ user e = user flags.
Proof. cbv zeta. split_and!; low_bits. Qed.

Lemma leaf_2m_bits pa flags :
  let e := Z.lor (Z.lor (Z.lor (Z.land pa MASK_2M) (Z.land flags 4095)) PAGE_FLAG_PRESENT) PAGE_FLAG_PS in
  present e = true /\ large e = true /\ writable e = writable flags /\ user e = user flags.
Proof. cbv zeta. split_and!; low_bits. Qed.

(** The flags of tables: only the bits 1 and 2. *)
Definition table_flags (w : Z) : Prop := w = 0 \/ w = 2 \/ w = 4 \/ w = 6.

Lemma table_flags_ok flags :
  let w := table_flags_from_leaf flags in
  table_flags w /\ writable w = writable flags /\ user w = user flags.
Proof.
  cbv zeta. unfold table_flags_from_leaf. rewrite has_rw, has_us. unfold table_flags.
  destruct (writable flags), (user flags); simpl; tauto.
Qed.

Lemma table_entry_bits n w :
  table_flags w -> 0 <= n < 2 ^ 46 -> n `mod` 4096 = 0 ->
  let e := Z.lor (Z.lor n w) PAGE_FLAG_PRESENT in
  present e = true /\ large e = false /\ writable e = writable w /\ user e = user w /\ Z.land e MASK_4K = n.
Proof.
  intros Hw Hn Hm. cbv zeta.
  assert (Hb : forall i, ~ (12 <= i < 46) -> Z.testbit n i = false) by (intros; by apply aligned_testbit).
  split_and!.
  1-4: unfold present, large, writable, user; rewrite !Z.lor_spec, Hb by lia; destruct Hw as [-> |[-> |[-> | ->]]]; done.
  apply Z.bits_inj'. intros i Hi. rewrite mask_4k, field_testbit, !Z.lor_spec by lia.
  destruct (Z.leb_spec 12 i).
  - assert (Z.testbit w i = false /\ Z.testbit PAGE_FLAG_PRESENT i = false) as [-> ->].
    { split; (apply Z.bits_above_log2; [destruct Hw as [-> |[-> |[-> | ->]]]; unfold PAGE_FLAG_PRESENT; lia|]).
      - destruct Hw as [-> |[-> |[-> | ->]]]; simpl; lia.
      - simpl. lia. }
    destruct (Z.ltb_spec i 64); rewrite !orb_false_r; simpl; [by rewrite andb_true_r|].
    rewrite Hb by lia. done.
  - rewrite Hb by lia. by rewrite andb_false_r.
Qed.

Lemma upgrade_bits e w :
  table_flags w ->
  let e' := Z.lor e (Z.land w (Z.lor PAGE_FLAG_RW PAGE_FLAG_US)) in
  present e' = present e /\ large e' = large e /\
  writable e' = writable e || writable w /\ user e' = user e || user w /\ Z.land e' MASK_4K = Z.land e MASK_4K.
Proof.
  intros Hw. cbv zeta. assert (Z.land w (Z.lor PAGE_FLAG_RW PAGE_FLAG_US) = w) as ->
    by (destruct Hw as [-> |[-> |[-> | ->]]]; done).
  split_and!.
  1-4: unfold present, large, writable, user; rewrite !Z.lor_spec; destruct Hw as [-> |[-> |[-> | ->]]];
    const_bits; by rewrite ?orb_false_r.
  rewrite Z.land_lor_distr_l. replace (Z.land w MASK_4K) with 0; [apply Z.lor_0_r|].
  destruct Hw as [-> |[-> |[-> | ->]]]; done.
Qed.

(** Nothing is stored when the entry already has the flags. *)
Lemma wanted_same e w :
  Z.land e (Z.land w (Z.lor PAGE_FLAG_RW PAGE_FLAG_US)) = Z.land w (Z.lor PAGE_FLAG_RW PAGE_FLAG_US) ->
  Z.lor e (Z.land w (Z.lor PAGE_FLAG_RW PAGE_FLAG_US)) = e.
Proof.
  set (v := Z.land w _). intros Hv. apply Z.bits_inj'. intros i _. apply (f_equal (fun z => Z.testbit z i)) in Hv.
  rewrite Z.land_spec in Hv. rewrite Z.lor_spec. destruct (Z.testbit e i), (Z.testbit v i); done.
Qed.

(** ** Addresses *)

(** The indices of the table that holds the last entry for [v], last one first. *)
Definition path (v : Z) : list Z := [index v 21; index v 30; index v 39].

(** The 4 KiB and the 2 MiB page of an address; the processor ignores the bits
    from 48 on. *)
Definition page_of (v : Z) : Z := (v / 4096) `mod` 2 ^ 36.
Definition big_page_of (v : Z) : Z := (v / 2097152) `mod` 2 ^ 27.

Lemma index_div v k : 0 <= k -> index v k = (v / 2 ^ k) `mod` 512.
Proof.
  intros. unfold index. change 511 with (Z.ones 9). rewrite Z.land_ones, Z.shiftr_div_pow2 by lia. done.
Qed.

Lemma index_range v k : 0 <= k -> 0 <= index v k < 512.
Proof. intros. rewrite index_div by done. apply Z.mod_pos_bound. lia. Qed.

Lemma mod_digits u a b : 0 < a -> 0 < b -> u `mod` (a * b) = u `mod` a + a * ((u / a) `mod` b).
Proof. intros. apply Z.rem_mul_r; lia. Qed.

Lemma big_page_index v : big_page_of v = index v 21 + 512 * (index v 30 + 512 * index v 39).
Proof.
  rewrite !index_div by lia. unfold big_page_of. change 2097152 with (2 ^ 21).
  change (2 ^ 27) with (512 * (512 * 512)). rewrite mod_digits, mod_digits by lia.
  by rewrite !Z.div_div by lia.
Qed.

Lemma page_index v : page_of v = index v 12 + 512 * big_page_of v.
Proof.
  rewrite !index_div by lia. unfold page_of, big_page_of. change 4096 with (2 ^ 12).
  change (2 ^ 36) with (512 * 2 ^ 27). rewrite mod_digits by lia. by rewrite !Z.div_div by lia.
Qed.

Lemma same_big_page v w : big_page_of v = big_page_of w <-> path v = path w.
Proof.
  rewrite !big_page_index. unfold path.
  pose proof (index_range v 21); pose proof (index_range v 30); pose proof (index_range v 39).
  pose proof (index_range w 21); pose proof (index_range w 30); pose proof (index_range w 39).
  split; [|intros [= -> -> ->]; done]. intros. repeat match goal with |- _ :: _ = _ :: _ => f_equal end; lia || done.
Qed.

Lemma same_page v w : page_of v = page_of w <-> path v = path w /\ index v 12 = index w 12.
Proof.
  rewrite !page_index, <- same_big_page. pose proof (index_range v 12); pose proof (index_range w 12). lia.
Qed.

(** ** Memory and the processor's walk *)

Abbreviation memory := (gmap Z (list Z)).

(** The entry at an index; a page that is not memory has no entries. *)
Definition ent (m : memory) (p i : Z) : Z := default 0 (m !! p ≫= fun ws => arr ws i).

Definition put (m : memory) (p i e : Z) : memory := alter (fun ws => upd ws i e) p m.

(** A page of memory that can be a table. *)
Definition is_page (m : memory) (p : Z) : Prop := exists ws, m !! p = Some ws /\ zlen ws = 512.

(** A page whose 512 words are zero. *)
Definition blank (m : memory) (p : Z) : Prop := is_page m p /\ forall i, ent m p i = 0.

Lemma ent_put m p i e q j :
  is_page m p -> 0 <= i < 512 -> ent (put m p i e) q j = if decide (q = p /\ j = i) then e else ent m q j.
Proof.
  intros (ws & Hp & Hl) Hi. unfold ent, put. destruct (decide (q = p)) as [->|Hq].
  - rewrite lookup_alter_eq, Hp. simpl. destruct (decide _) as [[_ ->]|Hn].
    + by rewrite arr_upd_eq by lia.
    + rewrite arr_upd_ne; [done|]. intros ->. by destruct Hn.
  - rewrite lookup_alter_ne by done. by rewrite decide_False by tauto.
Qed.

Lemma put_ne m p i e q : q <> p -> put m p i e !! q = m !! q.
Proof. intros. unfold put. by rewrite lookup_alter_ne. Qed.

Lemma is_page_put m p i e q : is_page m q -> is_page (put m p i e) q.
Proof.
  intros (ws & Hq & Hl). destruct (decide (q = p)) as [->|].
  - exists (upd ws i e). unfold put. rewrite lookup_alter_eq, Hq. by rewrite zlen_upd.
  - exists ws. by rewrite put_ne.
Qed.

(** What the processor does with an address: the physical address, whether writes
    and user accesses are allowed (every level must allow them), and the size of
    the page. *)
Record mapping := mk_mapping { to : Z; can_write : bool; can_user : bool; size : Z }.

Definition translate (m : memory) (root v : Z) : option mapping :=
  let e4 := ent m root (index v 39) in
  if negb (present e4) then None else
  let e3 := ent m (field e4 12 52) (index v 30) in
  if negb (present e3) then None else
  let rw := writable e4 && writable e3 in
  let us := user e4 && user e3 in
  if large e3 then Some (mk_mapping (field e3 30 52 + v `mod` 2 ^ 30) rw us (2 ^ 30)) else
  let e2 := ent m (field e3 12 52) (index v 21) in
  if negb (present e2) then None else
  let rw := rw && writable e2 in
  let us := us && user e2 in
  if large e2 then Some (mk_mapping (field e2 21 52 + v `mod` 2 ^ 21) rw us (2 ^ 21)) else
  let e1 := ent m (field e2 12 52) (index v 12) in
  if negb (present e1) then None else
  Some (mk_mapping (field e1 12 52 + v `mod` 2 ^ 12) (rw && writable e1) (us && user e1) (2 ^ 12)).

(** The tables below the root that the walk for [v] reads. *)
Definition walked (m : memory) (root v : Z) : list Z :=
  let e4 := ent m root (index v 39) in
  if negb (present e4) then [] else
  let e3 := ent m (field e4 12 52) (index v 30) in
  field e4 12 52 :: if negb (present e3) || large e3 then [] else
  let e2 := ent m (field e3 12 52) (index v 21) in
  field e3 12 52 :: if negb (present e2) || large e2 then [] else [field e2 12 52].

Lemma ent_same m m' p i : m' !! p = m !! p -> ent m' p i = ent m p i.
Proof. intros E. unfold ent. by rewrite E. Qed.

(** The walk depends only on what it reads. *)
Lemma translate_frame m m' root v :
  ent m' root (index v 39) = ent m root (index v 39) ->
  (forall q, q ∈ walked m root v -> m' !! q = m !! q) ->
  translate m' root v = translate m root v /\ walked m' root v = walked m root v.
Proof.
  intros Hr Hw. unfold translate, walked in *. rewrite Hr. set (e4 := ent m root _) in *.
  destruct (present e4); simpl in *; [|done].
  rewrite (ent_same m m' (field e4 12 52)) by (apply Hw; left). set (e3 := ent m (field e4 12 52) _) in *.
  destruct (present e3), (large e3); simpl in *; try done.
  rewrite (ent_same m m' (field e3 12 52)) by (apply Hw; right; left). set (e2 := ent m (field e3 12 52) _) in *.
  destruct (present e2), (large e2); simpl in *; try done.
  rewrite (ent_same m m' (field e2 12 52)) by (apply Hw; right; right; left). done.
Qed.

(** ** The tree of tables *)

(** The table an entry of the table at path [x] refers to: entries of the last
    level and entries with the size bit refer to memory. *)
Definition child (x : list Z) (e : Z) : option Z :=
  if present e && negb (large e) && (length x <? 3)%nat then Some (Z.land e MASK_4K) else None.

(** [e] allows no more than [e']. *)
Definition perm_le (e e' : Z) : Prop :=
  (writable e = true -> writable e' = true) /\ (user e = true -> user e' = true).

(** The slot [i] of the table at [x] is under the control of the tree: at the root
    only those of [own] are. *)
Definition slot (own : Z -> bool) (x : list Z) (i : Z) : Prop :=
  0 <= i < 512 /\ (x = [] -> own i = true).

Record tree_ok (own : Z -> bool) (root : Z) (T : gmap (list Z) Z) (m : memory) : Prop := mk_tree {
  tr_root : T !! [] = Some root;
  tr_inj x y p : T !! x = Some p -> T !! y = Some p -> x = y;
  tr_page x p : T !! x = Some p -> is_page m p /\ 0 < p < 2 ^ 46 /\ p `mod` 4096 = 0;
  tr_dom i x q : T !! (i :: x) = Some q -> slot own x i /\ is_Some (T !! x);
  tr_link i x p : T !! x = Some p -> slot own x i -> T !! (i :: x) = child x (ent m p i);
  tr_large i x p : T !! x = Some p -> slot own x i -> (length x < 2)%nat ->
    present (ent m p i) = true -> large (ent m p i) = false;
  tr_perm i x p q j : T !! x = Some p -> T !! (i :: x) = Some q -> 0 <= j < 512 ->
    present (ent m q j) = true -> perm_le (ent m q j) (ent m p i);
}.
#[global] Arguments tr_root {own root T m} _.
#[global] Arguments tr_inj {own root T m} _ _ _ _ _ _.
#[global] Arguments tr_page {own root T m} _ _ _ _.
#[global] Arguments tr_dom {own root T m} _ _ _ _ _.
#[global] Arguments tr_link {own root T m} _ _ _ _ _ _.
#[global] Arguments tr_large {own root T m} _ _ _ _ _ _ _ _.
#[global] Arguments tr_perm {own root T m} _ _ _ _ _ _ _ _ _ _.

(** What a last entry means. *)
Definition decode_4k (e v : Z) : option mapping :=
  if present e then Some (mk_mapping (field e 12 52 + v `mod` 2 ^ 12) (writable e) (user e) (2 ^ 12)) else None.
Definition decode_2m (e v : Z) : option mapping :=
  if present e && large e then Some (mk_mapping (field e 21 52 + v `mod` 2 ^ 21) (writable e) (user e) (2 ^ 21)) else None.

(** The mapping of an address by the tree: one entry decides. *)
Definition leaf (T : gmap (list Z) Z) (m : memory) (v : Z) : option mapping :=
  match T !! path v with
  | Some pt => decode_4k (ent m pt (index v 12)) v
  | None =>
      match T !! tail (path v) with
      | Some pd => decode_2m (ent m pd (index v 21)) v
      | None => None
      end
  end.

Lemma child_frame x e p : child x e = Some p -> 0 < p < 2 ^ 46 -> field e 12 52 = p.
Proof.
  unfold child. destruct (_ && _ && _); [|done]. intros [= <-] Hp. rewrite mask_4k in *.
  apply Z.bits_inj'. intros i Hi. rewrite !field_testbit by lia.
  destruct (Z.testbit e i) eqn:E; [|done]. simpl.
  destruct (Z.leb_spec 12 i), (Z.ltb_spec i 52), (Z.ltb_spec i 64); simpl; try done; try lia.
  assert (Hb : Z.testbit (field e 12 64) i = true).
  { rewrite field_testbit, E by lia. destruct (Z.leb_spec 12 i), (Z.ltb_spec i 64); done || lia. }
  destruct (testbit_lt_pow2 (field e 12 64) i 46 ltac:(lia) ltac:(lia) Hb). lia.
Qed.

Lemma child_none x e : present e = false -> child x e = None.
Proof. intros E. unfold child. by rewrite E. Qed.

Lemma perm_andb e e' : perm_le e e' -> writable e' && writable e = writable e /\ user e' && user e = user e.
Proof. intros [H1 H2]. split; [destruct (writable e)|destruct (user e)]; rewrite ?andb_false_r, ?H1, ?H2; done. Qed.

Section Tree.
Context {own : Z -> bool} {root : Z} {T : gmap (list Z) Z} {m : memory} (HT : tree_ok own root T m).

Lemma slot_index v k x : 0 <= k -> x <> [] -> slot own x (index v k).
Proof. intros. split; [by apply index_range|done]. Qed.

Lemma slot_top v : own (index v 39) = true -> slot own [] (index v 39).
Proof. intros. split; [by apply index_range|done]. Qed.

Lemma no_parent i x : T !! x = None -> T !! (i :: x) = None.
Proof. intros Hx. destruct (T !! (i :: x)) eqn:E; [|done]. apply (tr_dom HT) in E as [_ [? E]]. congruence. Qed.

(** An entry on the way: absent, or the next table. *)
Lemma next_table i x p :
  T !! x = Some p -> slot own x i -> (length x < 3)%nat -> present (ent m p i) = true -> large (ent m p i) = false ->
  exists q, T !! (i :: x) = Some q /\ Z.land (ent m p i) MASK_4K = q /\ field (ent m p i) 12 52 = q /\ q <> 0.
Proof.
  intros Hx Hi Hl Hp Hg. pose proof (tr_link HT i x p Hx Hi) as Hc. exists (Z.land (ent m p i) MASK_4K).
  assert (E : child x (ent m p i) = Some (Z.land (ent m p i) MASK_4K)).
  { unfold child. rewrite Hp, Hg. simpl. destruct (Nat.ltb_spec (length x) 3); [done|lia]. }
  rewrite E in Hc. destruct (tr_page HT _ _ Hc) as (_ & ? & _). split_and!; [done|done| |lia].
  by apply (child_frame x).
Qed.

(** The processor finds what the tree says. *)
Lemma translate_leaf v : own (index v 39) = true -> translate m root v = leaf T m v.
Proof.
  intros Ho. unfold translate, leaf, path. simpl tail. pose proof (tr_root HT) as H4.
  set (i4 := index v 39). set (i3 := index v 30). set (i2 := index v 21). set (e4 := ent m root i4).
  assert (Hs4 : slot own [] i4) by by apply slot_top.
  destruct (present e4) eqn:Hp4; simpl.
  2: { assert (N : T !! [i4] = None) by (rewrite (tr_link HT _ _ _ H4 Hs4); by apply child_none).
       by rewrite !(no_parent _ _ (no_parent i3 _ N)), (no_parent _ _ N). }
  assert (Hg4 : large e4 = false) by (apply (tr_large HT i4 [] root); simpl; auto with lia).
  destruct (next_table i4 [] root) as (p3 & H3 & _ & E3 & _); simpl; auto with lia.
  fold e4 in E3. rewrite E3.
  set (e3 := ent m p3 i3). assert (Hs3 : slot own [i4] i3) by by apply slot_index.
  destruct (present e3) eqn:Hp3; simpl.
  2: { assert (N : T !! [i3; i4] = None) by (rewrite (tr_link HT _ _ _ H3 Hs3); by apply child_none).
       by rewrite (no_parent _ _ N), N. }
  assert (Hg3 : large e3 = false) by (apply (tr_large HT i3 [i4] p3); simpl; auto with lia).
  destruct (perm_andb e3 e4) as [-> ->].
  { apply (tr_perm HT i4 [] root p3); try done. by apply index_range. }
  destruct (next_table i3 [i4] p3) as (p2 & H2 & _ & E2 & _); simpl; auto with lia.
  fold e3 in E2. rewrite E2, Hg3, H2. set (e2 := ent m p2 i2). assert (Hs2 : slot own [i3; i4] i2) by by apply slot_index.
  rewrite (tr_link HT _ _ _ H2 Hs2). fold e2. unfold child, decode_2m. simpl.
  destruct (present e2) eqn:Hp2; simpl; [|done]. destruct (perm_andb e2 e3) as [-> ->].
  { apply (tr_perm HT i3 [i4] p3 p2); try done. by apply index_range. }
  destruct (large e2) eqn:Hg2; simpl; [done|].
  destruct (next_table i2 [i3; i4] p2) as (p1 & H1 & E1 & E1' & _); simpl; auto with lia.
  fold e2 in E1, E1'. rewrite E1, E1'. unfold decode_4k. set (e1 := ent m p1 (index v 12)).
  destruct (present e1) eqn:Hp1; [|done]. simpl.
  destruct (perm_andb e1 e2) as [-> ->]; [|done].
  apply (tr_perm HT i2 [i3; i4] p2 p1); try done. by apply index_range.
Qed.

End Tree.

(** The tree and its mappings depend only on the tables. *)
Lemma tables_same own root T m m' :
  (forall x q, T !! x = Some q -> m' !! q = m !! q) -> tree_ok own root T m -> tree_ok own root T m'.
Proof.
  intros Htab HT. assert (Hent : forall x q j, T !! x = Some q -> ent m' q j = ent m q j)
    by (intros; eapply ent_same, Htab; eauto).
  split; try apply HT.
  - intros x q Hx. destruct (tr_page HT x q Hx) as [(ws & ? & ?) ?]. split; [|done]. exists ws. by rewrite (Htab x q Hx).
  - intros i x q Hx. rewrite (Hent x q) by done. by apply (tr_link HT).
  - intros i x q Hx. rewrite (Hent x q) by done. by apply (tr_large HT).
  - intros i x p q j Hx Hq. rewrite (Hent x p), (Hent _ q) by done. by apply (tr_perm HT i x p q j).
Qed.

Lemma leaf_same T m m' v : (forall x q, T !! x = Some q -> m' !! q = m !! q) -> leaf T m' v = leaf T m v.
Proof.
  intros Htab. unfold leaf. destruct (T !! path v) eqn:E; [by rewrite (ent_same m) by by eapply Htab|].
  destruct (T !! tail _) eqn:E'; [by rewrite (ent_same m) by by eapply Htab|done].
Qed.

(** ** Changing one entry

    [e] goes into slot [i] of the table at [x].  The child of the slot is kept, or
    dropped, or added; in each case the rest of the tree is as before. *)

Section Put.
Context {own : Z -> bool} {root : Z} {T : gmap (list Z) Z} {m : memory} (HT : tree_ok own root T m).
Context {x : list Z} {p i e : Z} (Hx : T !! x = Some p) (Hi : slot own x i).

(** The entry is no large page above the third level and allows no more than the
    entry that leads to its table. *)
Context (Hlarge : (length x < 2)%nat -> present e = true -> large e = false).
Context (Hgrant : present e = true -> forall k y r, x = k :: y -> T !! y = Some r -> perm_le e (ent m r k)).

Lemma ent_at y q j : T !! y = Some q -> ent (put m p i e) q j = if decide (y = x /\ j = i) then e else ent m q j.
Proof using HT Hx Hi.
  intros Hy. rewrite ent_put by (apply (tr_page HT x p Hx) || apply Hi).
  destruct (decide (y = x)) as [->|Hn].
  - replace q with p by congruence. apply decide_ext. tauto.
  - rewrite !decide_False; [done|tauto|]. intros [-> _]. by eapply Hn, (tr_inj HT).
Qed.

(** An entry below another one, after the change. *)
Lemma perm_put k y r q j :
  T !! y = Some r -> T !! (k :: y) = Some q -> 0 <= j < 512 ->
  (y = x -> k = i -> perm_le (ent m p i) e) ->
  present (ent (put m p i e) q j) = true -> perm_le (ent (put m p i e) q j) (ent (put m p i e) r k).
Proof using HT Hx Hi Hlarge Hgrant.
  intros Hy Hq Hj Hup. rewrite (ent_at y r k Hy), (ent_at (k :: y) q j Hq).
  destruct (decide (k :: y = x /\ j = i)) as [[E ->]|].
  - intros Hp. rewrite decide_False; [by eapply Hgrant|]. intros [-> _]. by apply (f_equal length) in E; simpl in E; lia.
  - intros Hp. pose proof (tr_perm HT k y r q j Hy Hq Hj Hp) as Hle. destruct (decide _) as [[-> ->]|]; [|done].
    replace r with p in Hle by congruence. destruct Hle, Hup; [done..|]. split; auto.
Qed.

Lemma large_put k y r :
  T !! y = Some r -> slot own y k -> (length y < 2)%nat -> present (ent (put m p i e) r k) = true ->
  large (ent (put m p i e) r k) = false.
Proof using HT Hx Hi Hlarge.
  intros Hy Hk Hl. rewrite (ent_at y r k Hy). destruct (decide _) as [[-> ->]|]; [auto|]. by apply (tr_large HT k y r).
Qed.

Lemma tree_keep q :
  T !! (i :: x) = Some q -> child x e = Some q -> perm_le (ent m p i) e -> tree_ok own root T (put m p i e).
Proof using HT Hx Hi Hlarge Hgrant.
  intros Hq Hc Hle. split; try apply HT.
  - intros y r Hy. destruct (tr_page HT y r Hy). split; [by apply is_page_put|done].
  - intros k y r Hy Hk. rewrite (ent_at y r k Hy), (tr_link HT k y r Hy Hk).
    destruct (decide _) as [[-> ->]|]; [|done]. by rewrite <- (tr_link HT i x r Hy Hk), Hq.
  - eapply large_put; eauto.
  - intros k y r q' j Hy Hq' Hj. apply (perm_put k y r q' j); auto.
Qed.

Lemma tree_drop :
  child x e = None -> (forall j, T !! (j :: i :: x) = None) -> tree_ok own root (delete (i :: x) T) (put m p i e).
Proof using HT Hx Hi Hlarge Hgrant.
  intros Hc Hno.
  assert (Hd : forall y q, delete (i :: x) T !! y = Some q -> y <> i :: x /\ T !! y = Some q)
    by (intros y q [? ?]%lookup_delete_Some; auto).
  split.
  - rewrite lookup_delete_ne by done. apply HT.
  - intros y z q [_ Hy]%Hd [_ Hz]%Hd. by apply (tr_inj HT y z q).
  - intros y q [_ Hy]%Hd. destruct (tr_page HT y q Hy). split; [by apply is_page_put|done].
  - intros k y q [Hn Hq]%Hd. destruct (tr_dom HT k y q Hq) as [? [r Hy]]. split; [done|]. exists r.
    rewrite lookup_delete_ne; [done|]. intros <-. by rewrite Hno in Hq.
  - intros k y q [Hn Hy]%Hd Hk. rewrite (ent_at y q k Hy). destruct (decide _) as [[-> ->]|Hne].
    + by rewrite lookup_delete_eq.
    + rewrite lookup_delete_ne by (intros [= <- <-]; by apply Hne). by apply (tr_link HT).
  - intros k y r [_ Hy]%Hd. by apply (large_put k y r).
  - intros k y r q j [_ Hy]%Hd [Hn Hq]%Hd Hj. apply (perm_put k y r q j); try done. intros -> ->. done.
Qed.

Lemma tree_add n :
  T !! (i :: x) = None -> child x e = Some n -> (forall y, T !! y <> Some n) ->
  0 < n < 2 ^ 46 -> n `mod` 4096 = 0 -> blank m n ->
  tree_ok own root (<[i :: x := n]> T) (put m p i e).
Proof using HT Hx Hi Hlarge Hgrant.
  intros Hnone Hc Hfresh Hn Hmod Hblank.
  assert (Hd : forall y q, <[i :: x := n]> T !! y = Some q <-> y = i :: x /\ q = n \/ y <> i :: x /\ T !! y = Some q)
    by (intros y q; rewrite lookup_insert_Some; split; intros [[? ?]|[? ?]]; auto).
  assert (Hnp : n <> p) by (intros ->; by eapply Hfresh).
  assert (Hzero : forall j, ent (put m p i e) n j = 0).
  { intros j. rewrite (ent_same m); [apply Hblank|by apply put_ne]. }
  assert (Hleafn : forall j, T !! (j :: i :: x) = None).
  { intros j. by apply (no_parent HT). }
  split.
  - rewrite lookup_insert_ne by done. apply HT.
  - intros y z q [[-> ->]|[_ Hy]]%Hd [[-> E]|[_ Hz]]%Hd; [done|by destruct (Hfresh z)|subst q; by destruct (Hfresh y)|].
    by apply (tr_inj HT y z q).
  - intros y q [[-> ->]|[_ Hy]]%Hd.
    + split_and!; [apply is_page_put, Hblank|lia|lia|done].
    + destruct (tr_page HT y q Hy). split; [by apply is_page_put|done].
  - intros k y q [[[= -> ->] ->]|[Hne Hq]]%Hd.
    + split; [done|]. exists p. apply Hd. right. split; [|done]. intros E. apply (f_equal length) in E. simpl in E. lia.
    + destruct (tr_dom HT k y q Hq) as [? [r Hy]]. split; [done|]. exists r. apply Hd. right. split; [|done].
      intros ->. by rewrite Hleafn in Hq.
  - intros k y q [[-> ->]|[Hne Hy]]%Hd Hk.
    + rewrite Hzero, lookup_insert_ne by (intros E; apply (f_equal length) in E; simpl in E; lia). by rewrite Hleafn.
    + rewrite (ent_at y q k Hy). destruct (decide _) as [[-> ->]|Hn'].
      * by rewrite lookup_insert_eq.
      * rewrite lookup_insert_ne by (intros [= <- <-]; by apply Hn'). by apply (tr_link HT).
  - intros k y r [[-> ->]|[_ Hy]]%Hd; [by rewrite Hzero|]. by apply (large_put k y r).
  - intros k y r q j [[-> ->]|[_ Hy]]%Hd [[E ->]|[Hne Hq]]%Hd Hj.
    + by rewrite Hzero.
    + by rewrite Hleafn in Hq.
    + by rewrite Hzero.
    + apply (perm_put k y r q j); try done. intros -> ->. done.
Qed.

End Put.

(** What such a change does to the mappings. *)

Section PutLeaf.
Context {own : Z -> bool} {root : Z} {T : gmap (list Z) Z} {m : memory} (HT : tree_ok own root T m).
Context {x : list Z} {p i e : Z} (Hx : T !! x = Some p) (Hi : slot own x i).

Lemma child_short q : T !! (i :: x) = Some q -> (length x < 3)%nat.
Proof using HT Hx Hi.
  intros Hq. rewrite (tr_link HT i x p Hx Hi) in Hq. unfold child in Hq.
  destruct (Nat.ltb_spec (length x) 3); [done|]. by rewrite andb_false_r in Hq.
Qed.

Lemma path_long v : path v = x -> (length x < 3)%nat -> False.
Proof. intros <-. simpl. lia. Qed.

Lemma leaf_keep q v : T !! (i :: x) = Some q -> leaf T (put m p i e) v = leaf T m v.
Proof using HT Hx Hi.
  intros Hq. pose proof (child_short q Hq) as Hl. unfold leaf. destruct (T !! path v) as [pt|] eqn:Hpt.
  - rewrite (ent_at HT Hx Hi _ _ _ Hpt), decide_False; [done|]. intros [E _]. by eapply path_long.
  - destruct (T !! tail (path v)) as [pd|] eqn:Hpd; [|done].
    rewrite (ent_at HT Hx Hi _ _ _ Hpd), decide_False; [done|]. intros [E E'].
    change (path v) with (index v 21 :: tail (path v)) in Hpt. rewrite E, E' in Hpt. congruence.
Qed.

Lemma leaf_add n v :
  T !! (i :: x) = None -> (length x < 3)%nat -> present (ent m p i) = false -> n <> p -> blank m n ->
  leaf (<[i :: x := n]> T) (put m p i e) v = leaf T m v.
Proof using HT Hx Hi.
  intros Hno Hl Hp Hnp [_ Hz]. unfold leaf.
  assert (Hz' : forall j, ent (put m p i e) n j = 0) by (intros j; rewrite (ent_same m); [apply Hz|by apply put_ne]).
  destruct (decide (path v = i :: x)) as [E|Hne].
  - rewrite E, lookup_insert_eq, Hno, Hz'. simpl tail. rewrite Hx. unfold decode_4k, decode_2m. simpl.
    injection E as -> _. by rewrite Hp.
  - rewrite lookup_insert_ne by done. destruct (T !! path v) as [pt|] eqn:Hpt.
    { rewrite (ent_at HT Hx Hi _ _ _ Hpt), decide_False; [done|]. intros [E _]. by eapply path_long. }
    destruct (decide (tail (path v) = i :: x)) as [E|Hne'].
    { by rewrite E, lookup_insert_eq, Hno, Hz'. }
    rewrite lookup_insert_ne by done. destruct (T !! tail (path v)) as [pd|] eqn:Hpd; [|done].
    rewrite (ent_at HT Hx Hi _ _ _ Hpd), decide_False; [done|]. intros [E E']. apply Hne. rewrite <- E, <- E'. done.
Qed.

Lemma leaf_clear q v :
  T !! (i :: x) = Some q -> (forall j, 0 <= j < 512 -> present (ent m q j) = false) ->
  leaf (delete (i :: x) T) (put m p i 0) v = leaf T m v.
Proof using HT Hx Hi.
  intros Hq Hz. pose proof (child_short q Hq) as Hl. unfold leaf.
  destruct (decide (path v = i :: x)) as [E|Hne].
  - rewrite E, lookup_delete_eq, Hq. simpl tail. unfold decode_4k. rewrite Hz by by apply index_range.
    rewrite lookup_delete_ne, Hx by (intros E'; apply (f_equal length) in E'; simpl in E'; lia).
    rewrite (ent_at HT Hx Hi _ _ _ Hx), decide_True; [done|]. injection E as -> _. done.
  - rewrite lookup_delete_ne by done. destruct (T !! path v) as [pt|] eqn:Hpt.
    { rewrite (ent_at HT Hx Hi _ _ _ Hpt), decide_False; [done|]. intros [E _]. by eapply path_long. }
    destruct (decide (tail (path v) = i :: x)) as [E|Hne'].
    { rewrite E, lookup_delete_eq, Hq. unfold decode_2m. by rewrite Hz by by apply index_range. }
    rewrite lookup_delete_ne by done. destruct (T !! tail (path v)) as [pd|] eqn:Hpd; [|done].
    rewrite (ent_at HT Hx Hi _ _ _ Hpd), decide_False; [done|]. intros [E E']. apply Hne. rewrite <- E, <- E'. done.
Qed.

Lemma leaf_4k v :
  length x = 3%nat ->
  leaf T (put m p i e) v = if decide (path v = x /\ index v 12 = i) then decode_4k e v else leaf T m v.
Proof using HT Hx Hi.
  intros Hl. unfold leaf. destruct (T !! path v) as [pt|] eqn:Hpt.
  - rewrite (ent_at HT Hx Hi _ _ _ Hpt). by destruct (decide _).
  - rewrite decide_False by (intros [E _]; rewrite E in Hpt; congruence).
    destruct (T !! tail (path v)) as [pd|] eqn:Hpd; [|done].
    rewrite (ent_at HT Hx Hi _ _ _ Hpd), decide_False; [done|]. intros [<- _]. by simpl in Hl.
Qed.

Lemma leaf_2m v :
  length x = 2%nat ->
  leaf (delete (i :: x) T) (put m p i e) v = if decide (path v = i :: x) then decode_2m e v else leaf T m v.
Proof using HT Hx Hi.
  intros Hl. unfold leaf. destruct (decide (path v = i :: x)) as [E|Hne].
  - rewrite E, lookup_delete_eq. simpl tail.
    rewrite lookup_delete_ne, Hx by (intros E'; apply (f_equal length) in E'; simpl in E'; lia).
    rewrite (ent_at HT Hx Hi _ _ _ Hx), decide_True; [done|]. injection E as -> _. done.
  - rewrite lookup_delete_ne by done. destruct (T !! path v) as [pt|] eqn:Hpt.
    { rewrite (ent_at HT Hx Hi _ _ _ Hpt), decide_False; [done|]. intros [E _]. eapply path_long; [done|lia]. }
    rewrite lookup_delete_ne by (intros E; apply (f_equal length) in E; simpl in E; lia).
    destruct (T !! tail (path v)) as [pd|] eqn:Hpd; [|done].
    rewrite (ent_at HT Hx Hi _ _ _ Hpd), decide_False; [done|]. intros [E E']. apply Hne. rewrite <- E, <- E'. done.
Qed.

End PutLeaf.

(** ** The invariant of an address space *)

Section Spec.
Context {P : Type} `{PageAlloc P}.
Implicit Types (s : vmm P) (T : gmap (list Z) Z).

(** The tables of the tree are pages in use, every frame of the allocator is
    memory, and what the walk reads through the root's other slots are pages in
    use outside the tree. *)
Record space (own : Z -> bool) (root : Z) T s : Prop := mk_space {
  sp_tree : tree_ok own root T (ram s);
  sp_phys : pages_ok (phys s);
  sp_used x p : T !! x = Some p -> page_used (phys s) p;
  sp_ram a : page_frame (phys s) a -> is_page (ram s) a;
  sp_foreign v q : own (index v 39) = false -> q ∈ walked (ram s) root v ->
    page_used (phys s) q /\ forall x, T !! x <> Some q;
}.

(** From [s0], where the tree is [T0], to [s]: nothing in use outside the tree has
    changed, nor has any slot of the root outside [own]. *)
Record framed (own : Z -> bool) (root : Z) T0 s0 s : Prop := mk_framed {
  fr_same q : page_used (phys s0) q -> (forall x, T0 !! x <> Some q) -> ram s !! q = ram s0 !! q;
  fr_page q : is_page (ram s0) q -> is_page (ram s) q;
  fr_root i : own i = false -> ent (ram s) root i = ent (ram s0) root i;
  fr_frames b : page_frame (phys s) b <-> page_frame (phys s0) b;
  fr_phys : pages_ok (phys s);
  fr_kernel : kernel_pml4 s = kernel_pml4 s0;
}.

Lemma framed_refl own root T s : space own root T s -> framed own root T s s.
Proof. intros Hs. by split; try apply Hs. Qed.

(** Addresses outside the tree are translated as before. *)
Lemma framed_foreign own root T s0 s v :
  space own root T s0 -> framed own root T s0 s -> own (index v 39) = false ->
  translate (ram s) root v = translate (ram s0) root v /\ walked (ram s) root v = walked (ram s0) root v.
Proof.
  intros Hs Hf Ho. apply translate_frame; [by apply Hf|]. intros q Hq.
  destruct (sp_foreign _ _ _ _ Hs v q Ho Hq). by apply Hf.
Qed.

(** A store into a table of the tree, or into a page that was not in use. *)
Lemma framed_store own root T s0 s p i e :
  framed own root T s0 s ->
  ((exists x, T !! x = Some p) \/ ~ page_used (phys s0) p) -> (p = root -> own i = true) ->
  is_page (ram s) p -> 0 <= i < 512 ->
  framed own root T s0 (set_ram (put (ram s) p i e) s).
Proof.
  intros [] Hp Hi Hpg Hr. split; simpl; auto.
  - intros q Hq Hx. rewrite put_ne; [auto|]. intros ->. destruct Hp as [[x Hp]|Hp]; [by eapply Hx|done].
  - intros q Hq. apply is_page_put. auto.
  - intros j Hj. rewrite ent_put by done. rewrite decide_False; [auto|]. intros [<- ->]. rewrite Hi in Hj; done.
Qed.

(** The tree after the call, when the used pages are known, is a space again. *)
Lemma framed_space own root T s0 T' s :
  space own root T s0 -> framed own root T s0 s -> tree_ok own root T' (ram s) ->
  (forall x p, T' !! x = Some p -> page_used (phys s) p) ->
  (forall x q, T' !! x = Some q -> (exists y, T !! y = Some q) \/ ~ page_used (phys s0) q) ->
  (forall q, page_used (phys s0) q -> (forall x, T !! x <> Some q) -> page_used (phys s) q) ->
  space own root T' s.
Proof.
  intros Hs Hf HT Hu Hnew Hkeep. split; [done|apply Hf|done|..].
  - intros a Ha%(fr_frames _ _ _ _ _ Hf). apply Hf. by apply Hs.
  - intros v q Ho Hq. destruct (framed_foreign _ _ _ _ _ v Hs Hf Ho) as [_ Hw]. rewrite Hw in Hq.
    destruct (sp_foreign _ _ _ _ Hs v q Ho Hq) as [Hqu Hno]. split; [by apply Hkeep|].
    intros x Hx. destruct (Hnew x q Hx) as [[y Hy]|?]; [by eapply Hno|done].
Qed.

(** ** Loads, stores and pages *)

Lemma wp_load_word p i (Q : Z -> vmm P -> Prop) s :
  is_page (ram s) p -> 0 <= i < 512 -> Q (ent (ram s) p i) s -> wp (load p i) Q s.
Proof.
  intros (ws & Hp & Hl) Hi. unfold ent. rewrite Hp. simpl. destruct (arr_lookup ws i) as [w Hw]; [lia|].
  rewrite Hw. simpl. intros HQ. eapply wp_run; [|exact HQ]. unfold load. by rewrite Hp, Hw.
Qed.

Lemma wp_store_word p i e (Q : unit -> vmm P -> Prop) s :
  is_page (ram s) p -> 0 <= i < 512 -> Q tt (set_ram (put (ram s) p i e) s) -> wp (store p i e) Q s.
Proof.
  intros (ws & Hp & Hl) Hi HQ. destruct (arr_lookup ws i) as [w Hw]; [lia|].
  eapply wp_run; [|exact HQ]. unfold store, put. rewrite Hp, Hw. do 3 f_equal.
  apply map_eq. intros q. destruct (decide (q = p)) as [->|].
  - by rewrite lookup_insert_eq, lookup_alter_eq, Hp.
  - by rewrite lookup_insert_ne, lookup_alter_ne by done.
Qed.

Lemma wp_pmm {A} (c : M P A) (Q : A -> vmm P -> Prop) s :
  wp c (fun a p => Q a (set_phys p s)) (phys s) -> wp (pmm c) Q s.
Proof. apply wp_lift. Qed.

Lemma wp_table_empty p (Q : bool -> vmm P -> Prop) s :
  is_page (ram s) p ->
  ((forall j, 0 <= j < 512 -> present (ent (ram s) p j) = false) -> Q true s) ->
  (forall j, 0 <= j < 512 -> present (ent (ram s) p j) = true -> Q false s) ->
  wp (table_empty p) Q s.
Proof.
  intros Hp Ht Hf. unfold table_empty. wp_step.
  apply (wp_for_each (fun k t => t = s /\ forall j, 0 <= j < k -> present (ent (ram s) p j) = false)); [lia|split; [done|lia]|..].
  - intros k t Hk [-> Hz]. wp_step. apply wp_load_word; [done|lia|]. wp_step. rewrite has_present.
    destruct (present (ent (ram s) p k)) eqn:E.
    + wp_step. by eapply Hf.
    + split; [done|]. intros j Hj. destruct (decide (j = k)) as [->|]; [done|]. apply Hz. lia.
  - intros t [-> Hz]. wp_step. by apply Ht.
Qed.

(** ** Preallocated tables *)

(** The tables of a pool. *)
Definition live (pool : list Z) : list Z := filter (fun t => t <> 0) pool.

(** A map call in progress, started in [s0] with the tree [T0]: the tree has
    become [T] with pages that were not in use, the mappings are [L], and the pool
    holds blank pages of its own. *)
Record stage (own : Z -> bool) (root : Z) T0 s0 (L : Z -> option mapping) T s (pool : list Z) : Prop := mk_stage {
  st_framed : framed own root T0 s0 s;
  st_tree : tree_ok own root T (ram s);
  st_leaf v : leaf T (ram s) v = L v;
  st_new x q : T !! x = Some q -> T0 !! x = Some q \/ ~ page_used (phys s0) q;
  st_used b : page_used (phys s) b <-> page_used (phys s0) b \/ b ∈ live pool \/ exists x, T !! x = Some b;
  st_pool n : n ∈ live pool -> page_frame (phys s0) n /\ ~ page_used (phys s0) n /\ blank (ram s) n /\ forall x, T !! x <> Some n;
  st_nodup : NoDup (live pool);
}.
#[local] Arguments st_framed {own root T0 s0 L T s pool} _.
#[local] Arguments st_tree {own root T0 s0 L T s pool} _.
#[local] Arguments st_leaf {own root T0 s0 L T s pool} _ _.
#[local] Arguments st_new {own root T0 s0 L T s pool} _ _ _ _.
#[local] Arguments st_used {own root T0 s0 L T s pool} _ _.
#[local] Arguments st_pool {own root T0 s0 L T s pool} _ _ _.

(** The lock and the trace of [invlpg] are as before. *)
Definition same_aux s s' : Prop := vmm_lock_word s' = vmm_lock_word s /\ flushed s' = flushed s.

Lemma stage_start own root T s : space own root T s -> stage own root T s (leaf T (ram s)) T s [].
Proof.
  intros Hs. split; auto using framed_refl.
  - apply Hs.
  - intros b. split; [auto|]. intros [?|[[]%elem_of_nil|[x Hx]]]; [done|]. by eapply Hs.
  - by intros ? []%elem_of_nil.
  - constructor.
Qed.

Lemma stage_aux own root T0 s0 L T s s' pool :
  ram s' = ram s -> phys s' = phys s -> kernel_pml4 s' = kernel_pml4 s ->
  stage own root T0 s0 L T s pool -> stage own root T0 s0 L T s' pool.
Proof. intros Hr Hp Hk [[] ? ? ? ? ? ?]. split; rewrite ?Hr, ?Hp; auto. by split; rewrite ?Hr, ?Hp, ?Hk. Qed.

(** The page [n] has been taken and cleared. *)
Record got (n : Z) s s' : Prop := mk_got {
  got_frame : page_frame (phys s) n;
  got_free : ~ page_used (phys s) n;
  got_phys : pages_ok (phys s');
  got_frames b : page_frame (phys s') b <-> page_frame (phys s) b;
  got_used b : page_used (phys s') b <-> page_used (phys s) b \/ b = n;
  got_ram q : q <> n -> ram s' !! q = ram s !! q;
  got_blank : blank (ram s') n;
  got_rest : kernel_pml4 s' = kernel_pml4 s /\ vmm_lock_word s' = vmm_lock_word s /\ flushed s' = flushed s;
}.

Lemma wp_clear n (Q : unit -> vmm P -> Prop) s :
  is_page (ram s) n ->
  (forall m, (forall q, q <> n -> m !! q = ram s !! q) -> blank m n -> Q tt (set_ram m s)) ->
  wp (for_all (upto 0 512) (fun i => store n i 0)) Q s.
Proof.
  intros Hn HQ.
  apply (wp_for_all (fun k t => exists m, t = set_ram m s /\ (forall q, q <> n -> m !! q = ram s !! q) /\
           is_page m n /\ forall j, 0 <= j < k -> ent m n j = 0)); [lia|..].
  - exists (ram s). split_and!; [by destruct s|done|done|lia].
  - intros k t Hk (m & -> & Hoff & Hpg & Hz). apply wp_store_word; [done|lia|].
    exists (put m n k 0). split_and!; [done| |by apply is_page_put|].
    + intros q Hq. rewrite put_ne by done. auto.
    + intros j Hj. rewrite ent_put by (done || lia). destruct (decide _); [done|]. apply Hz. lia.
  - intros t (m & -> & Hoff & Hpg & Hz). apply HQ; [done|]. split; [done|]. intros j.
    destruct (decide (0 <= j < 512)); [by apply Hz|]. destruct Hpg as (ws & Hw & Hl).
    unfold ent. rewrite Hw. simpl. by rewrite arr_none by lia.
Qed.

Lemma wp_alloc_table (Q : Z -> vmm P -> Prop) s :
  pages_ok (phys s) -> (forall a, page_frame (phys s) a -> is_page (ram s) a) ->
  ((forall b, page_frame (phys s) b -> page_used (phys s) b) -> Q 0 s) ->
  (forall n s', n <> 0 -> got n s s' -> Q n s') ->
  wp alloc_table Q s.
Proof.
  intros Hok Hram Hfull HQ. unfold alloc_table. wp_step. apply wp_pmm, page_alloc_law; [done|..].
  - intros Hall. wp_step. wp_step. destruct s. by apply Hfull.
  - intros n p Hp Hn Hfree Hfr Hu. destruct (page_frame_range _ _ Hok Hn) as [? _].
    wp_step; [by apply Z.eqb_eq in E; lia|]. wp_step. apply wp_clear; [by apply Hram|].
    intros m Hm Hz. wp_step. unfold phys_to_ptr in *. apply HQ; [lia|]. by split.
Qed.

Lemma live_cons t pool : live (t :: pool) = if decide (t = 0) then live pool else t :: live pool.
Proof. unfold live. rewrite filter_cons. destruct (decide (t = 0)) as [->|]; [by rewrite decide_False by auto|by rewrite decide_True]. Qed.

Lemma live_snoc n pool : n <> 0 -> live (pool ++ [n]) = live pool ++ [n].
Proof. intros Hn. unfold live. rewrite filter_app. f_equal. rewrite filter_cons. by rewrite decide_True. Qed.

Lemma ptr_low n : 0 <= n < 2 ^ 46 -> ptr_to_phys n = n.
Proof. intros. unfold ptr_to_phys, KERNEL_VIRT_BASE. destruct (Z.leb_spec 18446744071562067968 n); lia. Qed.

Section Stage.
Context {own : Z -> bool} {root : Z} {T0 : gmap (list Z) Z} {s0 : vmm P} {L : Z -> option mapping} (Hs0 : space own root T0 s0).

Lemma stage_ram T s pool a : stage own root T0 s0 L T s pool -> page_frame (phys s) a -> is_page (ram s) a.
Proof using Hs0. intros Hst Ha%(fr_frames _ _ _ _ _ (st_framed Hst)). by apply Hst, Hs0. Qed.

(** A blank page joins the pool. *)
Lemma stage_got s pool n s' :
  n <> 0 -> stage own root T0 s0 L T0 s pool -> got n s s' -> stage own root T0 s0 L T0 s' (pool ++ [n]).
Proof using Hs0.
  intros Hn Hst Hg. pose proof (st_framed Hst) as Hf. pose proof (st_used Hst) as Hu.
  destruct (got_rest _ _ _ Hg) as (Hk & _).
  assert (Hno : ~ page_used (phys s0) n) by (intros ?; apply (got_free _ _ _ Hg), Hu; auto).
  assert (HnT : forall x, T0 !! x <> Some n) by (intros x Hx; apply Hno; by eapply Hs0).
  assert (Hnl : n ∉ live pool) by (intros ?; apply (got_free _ _ _ Hg), Hu; auto).
  assert (Htab : forall x q, T0 !! x = Some q -> ram s' !! q = ram s !! q)
    by (intros x q Hx; apply Hg; intros ->; by eapply HnT).
  split; rewrite ?live_snoc by done.
  - split; try apply Hg.
    + intros q Hq Hx. rewrite (got_ram _ _ _ Hg) by (intros ->; done). by apply Hf.
    + intros q Hq%(fr_page _ _ _ _ _ Hf). destruct (decide (q = n)) as [->|]; [apply Hg|].
      destruct Hq as (ws & ? & ?). exists ws. by rewrite (got_ram _ _ _ Hg).
    + intros i Hi. rewrite (ent_same (ram s)) by (apply (Htab []), Hs0). by apply Hf.
    + intros b. rewrite (got_frames _ _ _ Hg). apply Hf.
    + rewrite Hk. apply Hf.
  - apply (tables_same _ _ _ _ _ Htab), Hst.
  - intros v. rewrite <- (st_leaf Hst). by apply leaf_same.
  - intros x q ?. by left.
  - intros b. rewrite (got_used _ _ _ Hg), Hu, elem_of_app, list_elem_of_singleton. tauto.
  - intros k [Hk'|Hk']%elem_of_app.
    + destruct (st_pool Hst k Hk') as (? & ? & [Hpg Hz] & ?). split_and!; [done|done| |done].
      assert (E : ram s' !! k = ram s !! k) by (apply Hg; intros ->; done). split.
      * destruct Hpg as (ws & ? & ?). exists ws. by rewrite E.
      * intros j. by rewrite (ent_same _ _ _ _ E).
    + apply list_elem_of_singleton in Hk' as ->. split_and!; [|done|apply Hg|done].
      apply (fr_frames _ _ _ _ _ Hf), Hg.
  - apply NoDup_app. split_and!; [apply Hst| |apply NoDup_singleton]. intros k Hk' ->%list_elem_of_singleton. done.
Qed.

(** A slot of the pool is given back. *)
Lemma stage_free T s t pool p :
  t <> 0 -> stage own root T0 s0 L T s (t :: pool) -> pages_ok p ->
  (forall b, page_frame p b <-> page_frame (phys s) b) ->
  (forall b, page_used p b <-> page_used (phys s) b /\ b <> t) ->
  stage own root T0 s0 L T (set_phys p s) pool.
Proof using Hs0.
  intros Ht Hst Hok Hfr Hu. destruct Hst as [[] ? ? ? Hused Hpool Hnd].
  rewrite live_cons, decide_False in * by done. apply NoDup_cons in Hnd as [Hnt Hnd].
  split; simpl; auto.
  - split; simpl; auto. intros b. by rewrite Hfr.
  - destruct (Hpool t) as (_ & Hno & _ & HnT); [by left|]. intros b. rewrite Hu, Hused, elem_of_cons. split.
    + intros [[?|[[?|?]|?]] ?]; auto. done.
    + intros Hb. split; [destruct Hb as [?|[?|?]]; auto|]. intros ->. destruct Hb as [?|[?|[x ?]]]; [done|done|by eapply HnT].
  - intros k Hk. apply Hpool. by right.
Qed.

Lemma wp_free_table_pool T pool (Q : unit -> vmm P -> Prop) s :
  stage own root T0 s0 L T s pool ->
  (forall p, stage own root T0 s0 L T (set_phys p s) [] -> Q tt (set_phys p s)) ->
  wp (free_table_pool pool) Q s.
Proof using Hs0.
  revert s. induction pool as [|t pool IH]; intros s Hst HQ; simpl.
  { wp_step. specialize (HQ (phys s)). destruct s. by apply HQ. }
  wp_step. destruct (Z.eqb_spec t 0) as [->|Ht]; simpl.
  - wp_step. apply IH; [|done]. destruct Hst. rewrite live_cons in *. by split.
  - assert (Hin : t ∈ live (t :: pool)) by (rewrite live_cons, decide_False by done; left).
    destruct (st_pool Hst t Hin) as (Hfr & _).
    destruct (page_frame_range _ _ (sp_phys _ _ _ _ Hs0) Hfr). rewrite ptr_low by lia.
    apply wp_pmm, page_free_law; [apply Hst|apply Hst; auto|]. intros p Hp Hpf Hpu.
    apply IH; [by eapply stage_free|]. intros p'. apply HQ.
Qed.

(** The pool is filled, or fewer frames than it needs are free. *)
Lemma wp_alloc_table_pool count pool (Q : option (list Z) -> vmm P -> Prop) s :
  stage own root T0 s0 L T0 s pool -> live pool = pool ->
  (forall s', stage own root T0 s0 L T0 s' [] -> same_aux s s' ->
     (exists l, (length l < count + length pool)%nat /\ forall b, page_frame (phys s0) b -> page_used (phys s0) b \/ b ∈ l) ->
     Q None s') ->
  (forall pool' s', stage own root T0 s0 L T0 s' pool' -> same_aux s s' -> live pool' = pool' ->
     length pool' = (count + length pool)%nat -> Q (Some pool') s') ->
  wp (alloc_table_pool count pool) Q s.
Proof using Hs0.
  revert pool s. induction count as [|count IH]; intros pool s Hst Hlive Hfail HQ; simpl.
  { wp_step. by apply HQ. }
  wp_step. apply wp_alloc_table; [apply Hst|intros a; by apply (stage_ram T0 s pool)|..].
  - intros Hfull. wp_step. wp_step. eapply wp_free_table_pool; [done|]. intros p Hp. wp_step. apply Hfail; [done|done|].
    exists pool. split; [lia|]. intros b Hb. apply (fr_frames _ _ _ _ _ (st_framed Hst)), Hfull in Hb.
    apply Hst in Hb as [?|[Hb|[x Hx]]]; [by left|right; by rewrite <- Hlive|left; by eapply Hs0].
  - intros n s' Hn Hg. destruct (Z.eqb_spec n 0); [done|].
    destruct (got_rest _ _ _ Hg) as (_ & Hlk & Hfl).
    apply IH; [by eapply stage_got|by rewrite live_snoc, Hlive|..]; unfold same_aux; rewrite Hlk, Hfl, length_app; simpl length;
      replace (count + (length pool + 1))%nat with (S (count + length pool)) by lia; done.
Qed.

(** One step down: the child of slot [i] of the table at [x]. *)

Lemma take_prealloc_live pool :
  live pool <> [] -> exists n pool', take_prealloc pool = (n, pool') /\ n <> 0 /\ live pool = n :: live pool'.
Proof.
  induction pool as [|t pool IH]; [done|]. intros Hl. simpl. rewrite live_cons in *.
  destruct (Z.eqb_spec t 0) as [->|Ht].
  - rewrite decide_True in * by done. destruct (IH Hl) as (n & pool' & -> & ? & E). exists n, (0 :: pool').
    by rewrite live_cons, decide_True.
  - rewrite decide_False by done. exists t, (0 :: pool). by rewrite live_cons, decide_True.
Qed.

(** The entry that leads to the table at [x] allows what [w] allows. *)
Definition grants T (m : memory) (x : list Z) (w : Z) : Prop :=
  forall k y r, x = k :: y -> T !! y = Some r -> perm_le w (ent m r k).

(** A table of the current tree may be written. *)
Lemma stage_store T s pool x p i e :
  stage own root T0 s0 L T s pool -> T !! x = Some p -> slot own x i -> framed own root T0 s0 (set_ram (put (ram s) p i e) s).
Proof using Hs0.
  intros Hst Hx Hi. pose proof (st_tree Hst) as HT. apply framed_store.
  - apply Hst.
  - destruct (st_new Hst x p Hx); eauto.
  - intros ->. apply Hi. apply (tr_inj HT _ _ root); [done|apply HT].
  - by apply (tr_page HT x).
  - apply Hi.
Qed.

Lemma blank_put (m : memory) p i e n : n <> p -> blank m n -> blank (put m p i e) n.
Proof. intros Hn [? Hz]. split; [by apply is_page_put|]. intros j. rewrite (ent_same m); [done|by apply put_ne]. Qed.

Lemma stage_keep T s pool x p i e q :
  stage own root T0 s0 L T s pool -> T !! x = Some p -> slot own x i -> T !! (i :: x) = Some q ->
  child x e = Some q -> perm_le (ent (ram s) p i) e -> ((length x < 2)%nat -> present e = true -> large e = false) ->
  grants T (ram s) x e ->
  stage own root T0 s0 L T (set_ram (put (ram s) p i e) s) pool.
Proof using Hs0.
  intros Hst Hx Hi Hq Hc Hle Hlg Hgr. pose proof (stage_store T s pool x p i e Hst Hx Hi) as Hfr.
  destruct Hst as [_ HT ? ? ? Hpool ?]. split; simpl; auto.
  - by eapply tree_keep.
  - intros v. rewrite (leaf_keep HT Hx Hi q) by done. auto.
  - intros n Hn. destruct (Hpool n Hn) as (? & ? & ? & HnT). split_and!; auto. apply blank_put; [|done].
    intros ->. by eapply HnT.
Qed.

Lemma stage_add T s pool pool' x p i e n :
  stage own root T0 s0 L T s pool -> T !! x = Some p -> slot own x i -> T !! (i :: x) = None ->
  present (ent (ram s) p i) = false -> live pool = n :: live pool' ->
  child x e = Some n -> ((length x < 2)%nat -> present e = true -> large e = false) -> grants T (ram s) x e ->
  stage own root T0 s0 L (<[i :: x := n]> T) (set_ram (put (ram s) p i e) s) pool'.
Proof using Hs0.
  intros Hst Hx Hi Hno Hpr Hl Hc Hlg Hgr. pose proof (stage_store T s pool x p i e Hst Hx Hi) as Hfr.
  destruct Hst as [? HT ? Hnew Hused Hpool Hnd]. rewrite Hl in *.
  destruct (Hpool n) as (Hnf & Hnu & Hnb & HnT); [by left|]. apply NoDup_cons in Hnd as [Hnn Hnd].
  destruct (page_frame_range _ _ (sp_phys _ _ _ _ Hs0) Hnf) as [? ?]. assert (Hnp : n <> p) by (intros ->; by eapply HnT).
  assert (Hsh : (length x < 3)%nat).
  { unfold child in Hc. destruct (Nat.ltb_spec (length x) 3); [done|]. by rewrite andb_false_r in Hc. }
  split; simpl; auto.
  - by eapply tree_add.
  - intros v. by rewrite (leaf_add HT Hx Hi n).
  - intros y q [[_ <-]|[_ Hy]]%lookup_insert_Some; auto.
  - intros b. rewrite Hused, elem_of_cons. split.
    + intros [?|[[->|?]|[y Hy]]]; auto; right; right; [exists (i :: x); apply lookup_insert_eq|].
      exists y. apply lookup_insert_Some. right. split; [|done]. intros <-. congruence.
    + intros [?|[?|[y [[_ <-]|[_ Hy]]%lookup_insert_Some]]]; eauto.
  - intros k Hk. destruct (Hpool k) as (? & ? & ? & HkT); [by right|]. split_and!; auto.
    + apply blank_put; [|done]. intros ->. by eapply HkT.
    + intros y [[_ ->]|[_ Hy]]%lookup_insert_Some; [done|by eapply HkT].
Qed.

Lemma grants_put T' (m : memory) x p i e w :
  T' !! x = Some p -> is_page m p -> 0 <= i < 512 -> perm_le w e -> grants T' (put m p i e) (i :: x) w.
Proof.
  intros Hx Hp Hi Hle k y r [= <- <-] Hr. replace r with p by congruence.
  by rewrite ent_put, decide_True by done.
Qed.

Lemma wp_get_or_create_next T s pool x p i w (Q : Z * list Z -> vmm P -> Prop) :
  stage own root T0 s0 L T s pool -> T !! x = Some p -> slot own x i -> (length x < 3)%nat ->
  table_flags w -> grants T (ram s) x w ->
  (present (ent (ram s) p i) = true -> large (ent (ram s) p i) = false) -> live pool <> [] ->
  (forall q T' s' pool', stage own root T0 s0 L T' s' pool' -> T ⊆ T' ->
     (forall y, y <> i :: x -> T' !! y = T !! y) -> T' !! (i :: x) = Some q -> q <> 0 ->
     grants T' (ram s') (i :: x) w -> (length (live pool) <= S (length (live pool')))%nat ->
     same_aux s s' -> Q (q, pool') s') ->
  wp (get_or_create_next p i w pool) Q s.
Proof using Hs0.
  intros Hst Hx Hi Hlen Hw Hgr Hlg Hl HQ. pose proof (st_tree Hst) as HT.
  destruct (tr_page HT x p Hx) as [Hpg _]. pose proof (proj1 Hi) as Hi'.
  unfold get_or_create_next. wp_step. apply wp_load_word; [done..|]. rewrite has_present.
  destruct (present (ent (ram s) p i)) eqn:Hp; cbv iota.
  - destruct (next_table HT i x p) as (q & Hq & Hqe & _ & Hq0); auto. unfold phys_to_ptr. rewrite Hqe.
    destruct (upgrade_bits (ent (ram s) p i) w Hw) as (Up & Ul & Uw & Uu & Um).
    set (want := Z.land w _) in *. set (e' := Z.lor (ent (ram s) p i) want) in *.
    assert (Hk : stage own root T0 s0 L T (set_ram (put (ram s) p i e') s) pool).
    { eapply stage_keep; try done.
      - unfold child. rewrite Up, Ul, Um, Hp, (Hlg eq_refl), Hqe. simpl. by destruct (Nat.ltb_spec (length x) 3); [|lia].
      - split; rewrite ?Uw, ?Uu; intros ->; done.
      - intros _ _. rewrite Ul. auto.
      - intros k y r -> Hr. destruct (tr_perm HT k y r p i Hr Hx Hi' Hp), (Hgr k y r eq_refl Hr).
        split; rewrite ?Uw, ?Uu, orb_true_iff; intros []; auto. }
    assert (Hg : grants T (put (ram s) p i e') (i :: x) w).
    { eapply grants_put; [done..|]. split; rewrite ?Uw, ?Uu; intros ->; apply orb_true_r. }
    destruct (Z.eqb_spec (Z.land (ent (ram s) p i) want) want) as [E|_]; cbn [negb]; wp_step.
    + wp_step. wp_step. eapply HQ; try done; [|lia].
      assert (Hsame : e' = ent (ram s) p i) by (by apply wanted_same).
      intros k y r Hky Hr. specialize (Hg k y r Hky Hr). rewrite ent_put, Hsame in Hg by done.
      destruct (decide _) as [[-> ->]|]; done.
    + apply wp_store_word; [done..|]. wp_step. eapply HQ; try done. lia.
  - destruct (take_prealloc_live pool Hl) as (n & pool' & -> & Hn & El). cbv iota beta.
    assert (Hin : n ∈ live pool) by (rewrite El; left).
    destruct (st_pool Hst n Hin) as (Hfr & _ & _ & _).
    destruct (page_frame_range _ _ (sp_phys _ _ _ _ Hs0) Hfr) as [? Hmod]. rewrite ptr_low by lia.
    destruct (table_entry_bits n w Hw) as (Ep & Eg & Ew & Eu & Em); [lia|done|].
    destruct (Z.eqb_spec n 0); [done|]. set (e := Z.lor (Z.lor n w) PAGE_FLAG_PRESENT) in *.
    assert (Hno : T !! (i :: x) = None) by (rewrite (tr_link HT i x p Hx Hi); by apply child_none).
    assert (Hle : perm_le w e) by (split; rewrite ?Ew, ?Eu; done).
    assert (Hxn : <[i :: x := n]> T !! x = Some p).
    { rewrite lookup_insert_ne; [done|]. intros E. apply (f_equal length) in E. simpl in E. lia. }
    wp_step. apply wp_store_word; [done..|]. wp_step. eapply (HQ n (<[i :: x := n]> T)); try done.
    + eapply stage_add; try done.
      * unfold child. rewrite Ep, Eg, Em. simpl. by destruct (Nat.ltb_spec (length x) 3); [|lia].
      * intros k y r -> Hr. destruct (Hgr k y r eq_refl Hr). split; rewrite ?Ew, ?Eu; auto.
    + by apply insert_subseteq.
    + intros y Hy. by rewrite lookup_insert_ne.
    + by rewrite lookup_insert_eq.
    + by eapply grants_put.
    + rewrite El. simpl. lia.
Qed.

(** Writing the last entry of a 4 KiB page. *)
Lemma stage_leaf_4k T s pool x p i e :
  stage own root T0 s0 L T s pool -> T !! x = Some p -> slot own x i -> length x = 3%nat -> grants T (ram s) x e ->
  stage own root T0 s0 (fun v => if decide (path v = x /\ index v 12 = i) then decode_4k e v else L v)
    T (set_ram (put (ram s) p i e) s) pool.
Proof using Hs0.
  intros Hst Hx Hi Hlen Hgr. pose proof (stage_store T s pool x p i e Hst Hx Hi) as Hfr.
  destruct Hst as [_ HT HL ? ? Hpool ?].
  assert (Hc : forall e', child x e' = None) by (intros e'; unfold child; rewrite Hlen; by rewrite andb_false_r).
  assert (Hno : T !! (i :: x) = None) by (by rewrite (tr_link HT i x p Hx Hi)).
  split; simpl; auto.
  - rewrite <- (delete_id T (i :: x)) by done. eapply tree_drop; auto; [intros; lia|]. intros j. by apply (no_parent HT).
  - intros v. rewrite (leaf_4k HT Hx Hi) by done. by rewrite HL.
  - intros n Hn. destruct (Hpool n Hn) as (? & ? & ? & HnT). split_and!; auto. apply blank_put; [|done].
    intros ->. by eapply HnT.
Qed.

(** Writing the entry of a 2 MiB page; a table that the entry led to is no longer
    part of the tree. *)
Lemma stage_leaf_2m T s pool x p i e :
  stage own root T0 s0 L T s pool -> T !! x = Some p -> slot own x i -> length x = 2%nat -> grants T (ram s) x e ->
  large e = true -> T !! (i :: x) = T0 !! (i :: x) ->
  stage own root T0 s0 (fun v => if decide (path v = i :: x) then decode_2m e v else L v)
    (delete (i :: x) T) (set_ram (put (ram s) p i e) s) pool.
Proof using Hs0.
  intros Hst Hx Hi Hlen Hgr Hlg Hsame. pose proof (stage_store T s pool x p i e Hst Hx Hi) as Hfr.
  destruct Hst as [_ HT HL Hnew Hused Hpool ?].
  assert (Hno : forall j, T !! (j :: i :: x) = None).
  { intros j. destruct (T !! (i :: x)) as [q|] eqn:Hq; [|by apply (no_parent HT)].
    destruct (T !! (j :: i :: x)) eqn:E; [|done]. pose proof (tr_dom HT _ _ _ E) as [Hs _].
    rewrite (tr_link HT j (i :: x) q Hq Hs) in E. unfold child in E. simpl in E. by rewrite Hlen, andb_false_r in E. }
  split; [done| | | | | |done]; cbn [ram phys set_ram].
  - eapply tree_drop; try done; [intros; lia|]. unfold child. by rewrite Hlg, andb_false_r.
  - intros v. rewrite (leaf_2m HT Hx Hi) by done. by rewrite HL.
  - intros y q [_ Hy]%lookup_delete_Some. auto.
  - intros b. rewrite Hused. split.
    + intros [?|[?|[y Hy]]]; auto. destruct (decide (y = i :: x)) as [->|Hn].
      * left. rewrite Hsame in Hy. by eapply Hs0.
      * right. right. exists y. by rewrite lookup_delete_ne.
    + intros [?|[?|[y [_ Hy]%lookup_delete_Some]]]; eauto.
  - intros n Hn. destruct (Hpool n Hn) as (? & ? & ? & HnT). split_and!; auto.
    + apply blank_put; [|done]. intros ->. by eapply HnT.
    + intros y [_ Hy]%lookup_delete_Some. by eapply HnT.
Qed.

(** A finished call. *)
Lemma stage_done T s :
  stage own root T0 s0 L T s [] ->
  space own root T s /\
  (forall b, page_used (phys s) b <-> page_used (phys s0) b \/ exists x, T !! x = Some b) /\
  (forall v, translate (ram s) root v = if own (index v 39) then L v else translate (ram s0) root v).
Proof using Hs0.
  intros [Hf HT HL Hnew Hused _ _]. split_and!.
  - eapply framed_space; try done.
    + intros x p Hx. apply Hused. eauto.
    + intros x q Hx. destruct (Hnew x q Hx); eauto.
    + intros q Hq _. apply Hused. auto.
  - intros b. rewrite Hused. split; [intros [?|[[]%elem_of_nil|?]]; auto|intros []; auto].
  - intros v. destruct (own (index v 39)) eqn:Ho; [by rewrite <- HL, (translate_leaf HT)|].
    by destruct (framed_foreign _ _ _ _ _ v Hs0 Hf Ho).
Qed.

Lemma wp_finish_map T s pool r (Q : bool -> vmm P -> Prop) :
  stage own root T0 s0 L T s pool ->
  (forall s', stage own root T0 s0 L T s' [] -> vmm_lock_word s' = 0 -> flushed s' = flushed s -> Q r s') ->
  wp (finish_map pool r) Q s.
Proof using Hs0.
  intros Hst HQ. unfold finish_map, vmm_unlock. wp_step. wp_step. wp_step.
  eapply wp_free_table_pool; [eapply stage_aux, Hst; done|]. intros p Hp. wp_step. by apply HQ.
Qed.

(** The first two steps down, shared by the two map routines. *)
Lemma wp_walk s pool va w (k : Z -> list Z -> M (vmm P) bool) Q :
  stage own root T0 s0 L T0 s pool -> own (index va 39) = true -> table_flags w -> (2 <= length (live pool))%nat ->
  (forall T s' pool' pd, stage own root T0 s0 L T s' pool' -> T0 ⊆ T ->
     (forall i, T !! (i :: tail (path va)) = T0 !! (i :: tail (path va))) ->
     T !! tail (path va) = Some pd -> grants T (ram s') (tail (path va)) w ->
     (length (live pool) <= 2 + length (live pool'))%nat -> same_aux s s' -> wp (k pd pool') Q s') ->
  wp ('(pdpt, pool) ← get_or_create_next root (index va 39) w pool;
      if pdpt =? 0 then finish_map pool false
      else
        '(pd, pool) ← get_or_create_next pdpt (index va 30) w pool;
        if pd =? 0 then finish_map pool false else k pd pool) Q s.
Proof using Hs0.
  intros Hst Ho Hw Hl HQ. pose proof (st_tree Hst) as HT. wp_step.
  apply (wp_get_or_create_next T0 s pool [] root); auto using slot_top; [apply HT|by intros ? ? ?| |destruct (live pool); [simpl in *; lia|done]|].
  { apply (tr_large HT _ []); [apply HT|by apply slot_top|simpl; lia]. }
  intros pdpt T1 s1 pool1 Hst1 Hs1 Hr1 H1 Hz1 Hg1 Hl1 [Ha1 Hb1]. pose proof (st_tree Hst1) as HT1.
  destruct (Z.eqb_spec pdpt 0); [done|]. wp_step.
  apply (wp_get_or_create_next T1 s1 pool1 [index va 39] pdpt); auto; [by apply slot_index| |destruct (live pool1); [simpl in *; lia|done]|].
  { apply (tr_large HT1 _ [index va 39]); [done|by apply slot_index|simpl; lia]. }
  intros pd T2 s2 pool2 Hst2 Hs2 Hr2 H2 Hz2 Hg2 Hl2 [Ha2 Hb2]. destruct (Z.eqb_spec pd 0); [done|].
  apply (HQ T2); auto; [by etrans| |lia|split; congruence].
  intros i. by rewrite Hr2, Hr1.
Qed.

End Stage.

(** Addresses of one page are mapped together. *)
Lemma translate_page_none {own root T s} (Hs : space own root T s) va v :
  page_of v = page_of va -> own (index va 39) = true ->
  translate (ram s) root va = None -> translate (ram s) root v = None.
Proof.
  intros [Hp Hi]%same_page Ho. pose proof (sp_tree _ _ _ _ Hs) as HT.
  assert (Ho' : own (index v 39) = true) by (injection Hp as _ _ ->; done).
  rewrite !(translate_leaf HT) by done. unfold leaf. rewrite Hp, Hi. injection Hp as -> _ _.
  unfold decode_4k, decode_2m.
  repeat match goal with |- context [match ?x with _ => _ end] => destruct x end; done.
Qed.

(** A mapping of a small page needs a last table. *)
Lemma leaf_4k_table T m v a w u : leaf T m v = Some (mk_mapping a w u 4096) -> is_Some (T !! path v).
Proof.
  unfold leaf, decode_2m. destruct (T !! path v); [done|]. destruct (T !! _); [|done].
  destruct (_ && _); [|done]. intros [=].
Qed.

(** ** Mapping *)

(** Fewer than [n] frames are free. *)
Definition short_of (n : nat) s : Prop :=
  exists l, (length l < n)%nat /\ forall b, page_frame (phys s) b -> page_used (phys s) b \/ b ∈ l.

(** What a map call does: it fails because it is short of [n] frames, and then
    every translation is as before, or it changes the translation to [view].  The
    tables are in order, the lock is free, the pages in use are those of before
    and the tables, and no page in use outside the tree has been written. *)
Definition map_result own root T s (n : nat) (view : Z -> option mapping) (va : Z) (r : bool) s' : Prop :=
  exists T', space own root T' s' /\ vmm_lock_word s' = 0 /\ kernel_pml4 s' = kernel_pml4 s /\
    (forall b, page_used (phys s') b <-> page_used (phys s) b \/ exists x, T' !! x = Some b) /\
    (forall q, page_used (phys s) q -> (forall x, T !! x <> Some q) -> ram s' !! q = ram s !! q) /\
    if r then flushed s' = va :: flushed s /\ forall v, translate (ram s') root v = view v
    else T' = T /\ flushed s' = flushed s /\ short_of n s /\ forall v, translate (ram s') root v = translate (ram s) root v.

Section Map.
Context {own : Z -> bool} {root : Z} {T : gmap (list Z) Z} {s : vmm P} (Hs : space own root T s).
Context (Hlock : vmm_lock_word s = 0) {va pa flags : Z} (Hown : own (index va 39) = true) (Hpa : 0 <= pa < 2 ^ 52).

Lemma root_not_null : (root =? 0) = false.
Proof using Hs. destruct (tr_page (sp_tree _ _ _ _ Hs) [] root) as [_ ?]; [apply Hs|]. apply Z.eqb_neq. lia. Qed.

(** The result of a finished stage. *)
Lemma stage_result n L T' s' view (r : bool) :
  stage own root T s L T' s' [] -> vmm_lock_word s' = 0 ->
  (forall v, own (index v 39) = true -> L v = if r then view v else leaf T (ram s) v) ->
  (forall v, own (index v 39) = false -> view v = translate (ram s) root v) ->
  (if r then flushed s' = va :: flushed s else T' = T /\ flushed s' = flushed s /\ short_of n s) ->
  map_result own root T s n view va r s'.
Proof using Hs.
  intros Hst Hlk HL Hv Hr. destruct (stage_done Hs T' s' Hst) as (Hsp & Hu & Ht).
  exists T'. split_and!; try done; try apply (st_framed Hst).
  assert (Hx : forall v, translate (ram s') root v = if r then view v else translate (ram s) root v).
  { intros v. rewrite Ht. destruct (own (index v 39)) eqn:Ho.
    - rewrite HL by done. destruct r; [done|]. symmetry. by apply (translate_leaf (sp_tree _ _ _ _ Hs)).
    - destruct r; [symmetry; auto|done]. }
  destruct r; [by split|]. destruct Hr as (? & ? & ?). by split_and!.
Qed.

(** The start of a map call: the root is a table; a pool that cannot be filled
    ends it. *)
Lemma wp_map_start n view (k : list Z -> M (vmm P) bool) (Q : bool -> vmm P -> Prop) :
  (forall v, own (index v 39) = false -> view v = translate (ram s) root v) ->
  (forall r s', map_result own root T s n view va r s' -> Q r s') ->
  (forall pool s', stage own root T s (leaf T (ram s)) T s' pool -> flushed s' = flushed s ->
     length (live pool) = n -> wp (k pool) Q s') ->
  wp (if root =? 0 then mret false
      else
        prealloc ← alloc_table_pool n [];
        match prealloc with
        | None => mret false
        | Some pool => vmm_lock;; k pool
        end) Q s.
Proof using Hs Hlock.
  intros Hv HQ Hk. rewrite root_not_null. wp_step.
  eapply (wp_alloc_table_pool Hs); [by apply stage_start|done|..].
  - intros s' Hst [Hlk Hfl] (l & Hl & Hfull). wp_step. apply HQ.
    eapply (stage_result n _ T s' view false); try done; [by rewrite Hlk|]. split_and!; try done.
    exists l. split; [simpl in Hl; lia|done].
  - intros pool s' Hst [Hlk Hfl] Hlive Hlen. wp_step. unfold vmm_lock. wp_step. wp_step.
    rewrite Hlk, Hlock. cbn [Z.eqb]. wp_step. apply Hk; [|done|rewrite Hlive; simpl in *; lia].
    by eapply stage_aux, Hst.
Qed.

Definition map_4k_view (v : Z) : option mapping :=
  if page_of v =? page_of va
  then Some (mk_mapping (pa - pa `mod` 4096 + v `mod` 4096) (writable flags) (user flags) 4096)
  else translate (ram s) root v.

Definition map_2m_view (v : Z) : option mapping :=
  if big_page_of v =? big_page_of va
  then Some (mk_mapping (pa - pa `mod` 2097152 + v `mod` 2097152) (writable flags) (user flags) 2097152)
  else translate (ram s) root v.

Lemma own_path v : path v = path va -> own (index v 39) = true.
Proof using Hown. intros [= _ _ ->]. done. Qed.

Lemma wp_vmm_map_page_in (Q : bool -> vmm P -> Prop) :
  (forall t, translate (ram s) root va = Some t -> size t = 4096) ->
  (forall r s', map_result own root T s 3 map_4k_view va r s' -> Q r s') ->
  wp (vmm_map_page_in root va pa flags) Q s.
Proof using Hs Hlock Hown Hpa.
  intros Hsmall HQ. destruct (table_flags_ok flags) as (Hw & Hww & Hwu).
  assert (Hv : forall v, own (index v 39) = false -> map_4k_view v = translate (ram s) root v).
  { intros v Ho. unfold map_4k_view. destruct (Z.eqb_spec (page_of v) (page_of va)) as [E%same_page|]; [|done].
    rewrite own_path in Ho; [done|apply E]. }
  apply (wp_map_start 3 map_4k_view); [done..|]. intros pool s1 Hst1 Hf1 Hl1. cbv zeta.
  apply (wp_walk Hs s1 pool va _ (fun pd pool => _) Q Hst1 Hown Hw); [lia|].
  intros T2 s2 pool2 pd Hst2 Hsub Hdeep Hpd Hg2 Hl2 [_ Hf2]. pose proof (st_tree Hst2) as HT2. wp_step.
  eapply (wp_get_or_create_next Hs T2 s2 pool2 (tail (path va)) pd); [done|done|by apply slot_index|simpl; lia|done|done| |destruct (live pool2); [simpl in *; lia|done]|].
  { intros Hp. destruct (large (ent (ram s2) pd (index va 21))) eqn:Hg; [|done].
    assert (Hl : leaf T2 (ram s2) va = decode_2m (ent (ram s2) pd (index va 21)) va).
    { unfold leaf. change (path va) with (index va 21 :: tail (path va)) at 1.
      rewrite (tr_link HT2 _ _ _ Hpd) by by apply slot_index. unfold child. by rewrite Hg, andb_false_r, Hpd. }
    rewrite (st_leaf Hst2) in Hl. unfold decode_2m in Hl. rewrite Hp, Hg in Hl. simpl in Hl.
    rewrite <- (translate_leaf (sp_tree _ _ _ _ Hs)) in Hl by done. by specialize (Hsmall _ Hl). }
  intros pt T3 s3 pool3 Hst3 Hsub3 _ Hpt Hz Hg3 _ [_ Hf3]. destruct (Z.eqb_spec pt 0); [done|].
  pose proof (st_tree Hst3) as HT3. destruct (tr_page HT3 _ _ Hpt) as [Hpg _].
  destruct (leaf_4k_bits pa flags) as (Ep & Ew & Eu). pose proof (frame_flags_4k pa flags 52 ltac:(lia) Hpa) as Ef.
  set (e := Z.lor _ PAGE_FLAG_PRESENT) in *.
  wp_step. apply wp_store_word; [done|by apply index_range|]. wp_step. apply wp_modify.
  pose proof (stage_leaf_4k Hs T3 s3 pool3 (path va) pt (index va 12) e Hst3 Hpt ltac:(by apply slot_index) eq_refl) as Hst4.
  eapply (wp_finish_map Hs T3); [eapply stage_aux, Hst4; try done|].
  { intros k y r Hk Hr. destruct (Hg3 k y r Hk Hr). split; rewrite ?Ew, ?Eu, <- ?Hww, <- ?Hwu; done. }
  intros s' Hst' Hlk Hfl. apply HQ. eapply stage_result; [done|done| |done|simpl in Hfl; congruence].
  intros v Ho. unfold map_4k_view. cbv beta. destruct (decide _) as [E|Hn]; destruct (Z.eqb_spec (page_of v) (page_of va)) as [E'|E'].
  - unfold decode_4k. by rewrite Ep, Ew, Eu, Ef.
  - by apply same_page in E.
  - by apply same_page in E'.
  - symmetry. by apply (translate_leaf (sp_tree _ _ _ _ Hs)).
Qed.

Lemma wp_vmm_map_2m_in (Q : bool -> vmm P -> Prop) :
  (forall r s', map_result own root T s 2 map_2m_view va r s' -> Q r s') ->
  wp (vmm_map_2m_in root va pa flags) Q s.
Proof using Hs Hlock Hown Hpa.
  intros HQ. destruct (table_flags_ok flags) as (Hw & Hww & Hwu).
  assert (Hv : forall v, own (index v 39) = false -> map_2m_view v = translate (ram s) root v).
  { intros v Ho. unfold map_2m_view. destruct (Z.eqb_spec (big_page_of v) (big_page_of va)) as [E%same_big_page|]; [|done].
    by rewrite own_path in Ho. }
  apply (wp_map_start 2 map_2m_view); [done..|]. intros pool s1 Hst1 Hf1 Hl1. cbv zeta.
  apply (wp_walk Hs s1 pool va _ (fun pd pool => _) Q Hst1 Hown Hw); [lia|].
  intros T2 s2 pool2 pd Hst2 Hsub Hdeep Hpd Hg2 Hl2 [_ Hf2]. pose proof (st_tree Hst2) as HT2.
  destruct (tr_page HT2 _ _ Hpd) as [Hpg _].
  destruct (leaf_2m_bits pa flags) as (Ep & Eg & Ew & Eu). pose proof (frame_flags_2m pa flags 52 ltac:(lia) Hpa) as Ef.
  set (e := Z.lor _ PAGE_FLAG_PS) in *.
  wp_step. apply wp_store_word; [done|by apply index_range|]. wp_step. apply wp_modify.
  pose proof (stage_leaf_2m Hs T2 s2 pool2 (tail (path va)) pd (index va 21) e Hst2 Hpd ltac:(by apply slot_index) eq_refl) as Hst4.
  eapply (wp_finish_map Hs (delete (path va) T2)); [eapply stage_aux, Hst4; try done|].
  { intros k y r Hk Hr. destruct (Hg2 k y r Hk Hr). split; rewrite ?Ew, ?Eu, <- ?Hww, <- ?Hwu; done. }
  intros s' Hst' Hlk Hfl. apply HQ. eapply stage_result; [done|done| |done|simpl in Hfl; congruence].
  intros v Ho. unfold map_2m_view. cbv beta.
  destruct (decide _) as [E|Hn]; destruct (Z.eqb_spec (big_page_of v) (big_page_of va)) as [E'|E'].
  - unfold decode_2m. by rewrite Ep, Eg, Ew, Eu, Ef.
  - by apply same_big_page in E.
  - by apply same_big_page in E'.
  - symmetry. by apply (translate_leaf (sp_tree _ _ _ _ Hs)).
Qed.

End Map.

(** ** Unmapping *)

(** An unmap call in progress: the tree has shrunk to [T], the tables it has lost
    are [gone], and nothing has been freed yet. *)
Record shrunk (own : Z -> bool) (root : Z) T0 s0 (L : Z -> option mapping) T s (gone : list Z) : Prop := mk_shrunk {
  sk_framed : framed own root T0 s0 s;
  sk_tree : tree_ok own root T (ram s);
  sk_leaf v : leaf T (ram s) v = L v;
  sk_sub : T ⊆ T0;
  sk_phys : phys s = phys s0;
  sk_gone q : q ∈ gone <-> exists x, T0 !! x = Some q /\ T !! x = None;
  sk_nodup : NoDup gone;
}.
#[local] Arguments sk_framed {own root T0 s0 L T s gone} _.
#[local] Arguments sk_tree {own root T0 s0 L T s gone} _.
#[local] Arguments sk_sub {own root T0 s0 L T s gone} _.
#[local] Arguments sk_gone {own root T0 s0 L T s gone} _ _.

(** The table at [x], if there is one, has an entry. *)
Definition filled T (m : memory) (x : list Z) : Prop :=
  forall q, T !! x = Some q -> exists j, 0 <= j < 512 /\ present (ent m q j) = true.

Lemma filled_parent own root T m i x q : tree_ok own root T m -> T !! (i :: x) = Some q -> filled T m x.
Proof.
  intros HT Hq p Hx. destruct (tr_dom HT i x q Hq) as [Hi _]. exists i. split; [apply Hi|].
  rewrite (tr_link HT i x p Hx Hi) in Hq. unfold child in Hq. by destruct (present _).
Qed.

(** No table on the path [x] is empty. *)
Fixpoint tidy T (m : memory) (x : list Z) : Prop :=
  match x with [] => True | i :: y => filled T m x /\ tidy T m y end.

Lemma tidy_above own root T m i x q : tree_ok own root T m -> T !! (i :: x) = Some q -> tidy T m x.
Proof.
  intros HT. revert i q. induction x as [|j x IH]; intros i q Hq; [done|]. split; [by eapply filled_parent|].
  destruct (tr_dom HT _ _ _ Hq) as [_ [r Hr]]. by eapply IH.
Qed.

Lemma tidy_none T m i x : T !! (i :: x) = None -> tidy T m x -> tidy T m (i :: x).
Proof. intros Hn Ht. split; [|done]. intros q Hq. congruence. Qed.

Section Unmap.
Context {own : Z -> bool} {root : Z} {T0 : gmap (list Z) Z} {s0 : vmm P} (Hs0 : space own root T0 s0).

(** The slot of an empty table is cleared. *)
Lemma wp_drop {L} T s gone x p i q (Q : unit -> vmm P -> Prop) :
  shrunk own root T0 s0 L T s gone -> T !! x = Some p -> slot own x i -> T !! (i :: x) = Some q ->
  (forall j, 0 <= j < 512 -> present (ent (ram s) q j) = false) ->
  (forall s', same_aux s s' -> shrunk own root T0 s0 L (delete (i :: x) T) s' (gone ++ [q]) -> Q tt s') ->
  wp (store p i 0) Q s.
Proof using Hs0.
  intros [Hf HT HL Hsub Hph Hgone Hnd] Hx Hi Hq Hz HQ. pose proof (proj1 (tr_page HT x p Hx)) as Hpg.
  apply wp_store_word; [done|apply Hi|]. apply HQ; [done|].
  assert (Hno : forall j, T !! (j :: i :: x) = None).
  { intros j. destruct (T !! (j :: i :: x)) eqn:E; [|done]. pose proof (tr_dom HT _ _ _ E) as [Hj _].
    rewrite (tr_link HT j (i :: x) q Hq Hj), child_none in E; [done|]. apply Hz, Hj. }
  pose proof (lookup_weaken _ _ _ _ Hq Hsub) as Hq0. split; simpl; try done.
  - apply framed_store; [done| | |done|apply Hi].
    + left. exists x. by eapply lookup_weaken.
    + intros ->. apply Hi. apply (tr_inj HT _ _ root); [done|apply HT].
  - by eapply tree_drop.
  - intros v. by rewrite (leaf_clear HT Hx Hi q).
  - etrans; [apply delete_subseteq|done].
  - intros r. rewrite elem_of_app, list_elem_of_singleton, Hgone. split.
    + intros [(y & Hy & Hn)| ->]; [exists y|exists (i :: x)].
      * split; [done|]. apply lookup_delete_None. by right.
      * split; [done|]. apply lookup_delete_eq.
    + intros (y & Hy & [<-|Hn]%lookup_delete_None); [right; congruence|left; eauto].
  - apply NoDup_app. split_and!; [done| |apply NoDup_singleton]. intros r Hr ->%list_elem_of_singleton.
    apply Hgone in Hr as (y & Hy & Hn). rewrite (tr_inj (sp_tree _ _ _ _ Hs0) _ _ _ Hy Hq0) in Hn. congruence.
Qed.

(** One level of the reclaiming. *)
Lemma wp_prune {L} T s gone x p i q (k : M (vmm P) (list Z)) Q :
  shrunk own root T0 s0 L T s gone -> T !! x = Some p -> slot own x i -> T !! (i :: x) = Some q ->
  (tidy T (ram s) (i :: x) -> Q gone s) ->
  (forall s', same_aux s s' -> shrunk own root T0 s0 L (delete (i :: x) T) s' (gone ++ [q]) -> wp k Q s') ->
  wp (e ← table_empty q; if negb e then mret gone else store p i 0;; k) Q s.
Proof using Hs0.
  intros Hsk Hx Hi Hq Hstop Hgo. pose proof (sk_tree Hsk) as HT. wp_step.
  apply wp_table_empty; [by apply (tr_page HT _ _ Hq)|..].
  - intros Hz. wp_step. wp_step. by eapply wp_drop.
  - intros j Hj Hp. wp_step. wp_step. apply Hstop. split; [|by eapply tidy_above].
    intros r Hr. replace r with q by congruence. eauto.
Qed.

Lemma wp_reclaim {L} T s va pml4e pdpte pde (Q : list Z -> vmm P -> Prop) :
  shrunk own root T0 s0 L T s [] -> own (index va 39) = true ->
  T !! path va = Some (Z.land pde MASK_4K) -> T !! tail (path va) = Some (Z.land pdpte MASK_4K) ->
  T !! [index va 39] = Some (Z.land pml4e MASK_4K) ->
  (forall gone T' s', shrunk own root T0 s0 L T' s' gone -> same_aux s s' -> tidy T' (ram s') (path va) -> Q gone s') ->
  wp (reclaim root pml4e va pdpte pde) Q s.
Proof using Hs0.
  intros Hsk Ho Hpt Hpd Hpdpt HQ. unfold reclaim, phys_to_ptr. cbv zeta.
  eapply (wp_prune T s [] (tail (path va))); [done|exact Hpd|by apply slot_index|exact Hpt|by eapply HQ|].
  intros s1 [Ha1 Hb1] Hsk1. set (T1 := delete _ T) in *.
  assert (H1 : T1 !! path va = None) by apply lookup_delete_eq.
  eapply (wp_prune T1 s1 _ [index va 39]); [done|unfold T1; by rewrite lookup_delete_ne|by apply slot_index|unfold T1; by rewrite lookup_delete_ne|..].
  { intros Ht. eapply HQ; [done|done|]. by apply tidy_none. }
  intros s2 [Ha2 Hb2] Hsk2. set (T2 := delete _ T1) in *.
  assert (H2 : T2 !! tail (path va) = None) by apply lookup_delete_eq.
  assert (H2' : T2 !! path va = None) by (by apply (no_parent (sk_tree Hsk2))).
  eapply (wp_prune T2 s2 _ []); [done|apply (sk_tree Hsk2)|by apply slot_top|unfold T2, T1; by rewrite !lookup_delete_ne|..].
  { intros Ht. eapply HQ; [done|split; congruence|]. apply tidy_none; [done|]. by apply tidy_none. }
  intros s3 [Ha3 Hb3] Hsk3. wp_step. pose proof (sk_tree Hsk3) as HT3.
  assert (H3 : delete [index va 39] T2 !! [index va 39] = None) by apply lookup_delete_eq.
  eapply HQ; [done|split; congruence|]. apply tidy_none; [by apply (no_parent HT3), (no_parent HT3)|].
  apply tidy_none; [by apply (no_parent HT3)|]. by apply tidy_none.
Qed.

Lemma wp_free_pages l (Q : unit -> vmm P -> Prop) s :
  pages_ok (phys s) -> NoDup l -> (forall q, q ∈ l -> page_used (phys s) q) ->
  (forall p, pages_ok p -> (forall b, page_frame p b <-> page_frame (phys s) b) ->
     (forall b, page_used p b <-> page_used (phys s) b /\ b ∉ l) -> Q tt (set_phys p s)) ->
  wp (free_pages l) Q s.
Proof.
  revert s. induction l as [|a l IH]; intros s Hok Hnd Hu HQ; simpl.
  { wp_step. specialize (HQ (phys s)). destruct s. apply HQ; [done|done|]. intros b. split; [|tauto].
    split; [done|apply not_elem_of_nil]. }
  apply NoDup_cons in Hnd as [Ha Hnd]. wp_step. apply wp_pmm, page_free_law; [done|apply Hu; left|].
  intros p Hp Hfr Hpu. apply IH; simpl; [done|done|..].
  - intros q Hq. apply Hpu. split; [apply Hu; by right|]. intros ->. done.
  - intros p' Hp' Hfr' Hpu'. apply HQ; [done|intros b; by rewrite Hfr'|]. intros b. rewrite Hpu', Hpu, not_elem_of_cons. tauto.
Qed.

(** What an unmap call does.  It answers whether there is a last table for the
    address; then the page is not mapped any more, other addresses are translated
    as before, no table on the way is empty, and exactly the tables that have left
    the tree are free. *)
Definition unmap_result s va (r : bool) s' : Prop :=
  r = bool_decide (is_Some (T0 !! path va)) /\
  if r then exists T', space own root T' s' /\ vmm_lock_word s' = 0 /\ kernel_pml4 s' = kernel_pml4 s /\
    flushed s' = va :: flushed s /\ T' ⊆ T0 /\ tidy T' (ram s') (path va) /\
    (forall b, page_used (phys s') b <-> page_used (phys s) b /\ ~ exists x, T0 !! x = Some b /\ T' !! x = None) /\
    (forall q, page_used (phys s) q -> (forall x, T0 !! x <> Some q) -> ram s' !! q = ram s !! q) /\
    (forall v, translate (ram s') root v = if page_of v =? page_of va then None else translate (ram s) root v)
  else s' = s.

(** The last entry has been cleared. *)
Lemma shrunk_start s va pt :
  s = set_lock 1 s0 -> own (index va 39) = true -> T0 !! path va = Some pt ->
  shrunk own root T0 s0 (fun v => if decide (path v = path va /\ index v 12 = index va 12) then None else leaf T0 (ram s0) v)
    T0 (set_ram (put (ram s0) pt (index va 12) 0) s) [].
Proof using Hs0.
  intros -> Ho Hpt. pose proof (stage_start own root T0 s0 Hs0) as Hst.
  assert (Hi : slot own (path va) (index va 12)) by by apply slot_index.
  eapply (stage_leaf_4k Hs0 T0 s0 [] (path va) pt (index va 12) 0) in Hst; [|done|done|done|].
  2: { intros k y r _ _. split; done. }
  destruct Hst as [Hf HT HL _ _ _ _]. split; [|exact HT|exact HL|done|done| |].
  - by destruct Hf; split.
  - intros q. split; [by intros []%elem_of_nil|]. intros (x & ? & ?). congruence.
  - constructor.
Qed.

(** The call ends well: the tables are freed. *)
Lemma wp_unmap_end s va gone T s1 (Q : bool -> vmm P -> Prop) :
  s = s0 -> is_Some (T0 !! path va) -> own (index va 39) = true -> flushed s1 = flushed s ->
  shrunk own root T0 s0 (fun v => if decide (path v = path va /\ index v 12 = index va 12) then None else leaf T0 (ram s0) v)
    T s1 gone ->
  tidy T (ram s1) (path va) ->
  (forall r s', unmap_result s va r s' -> Q r s') ->
  wp (invlpg va;; vmm_unlock;; free_pages gone;; mret true) Q s1.
Proof using Hs0.
  intros -> Hpt Ho Hfl Hsk Htidy HQ. wp_step. apply wp_modify. wp_step. apply wp_modify. wp_step.
  destruct Hsk as [Hf HT HL Hsub Hph Hgone Hnd]. apply wp_free_pages; simpl; [rewrite Hph; apply Hs0|done|..].
  { intros q (x & Hx & _)%Hgone. rewrite Hph. by eapply Hs0. }
  intros p Hp Hpf Hpu. wp_step. rewrite Hph in *. set (s' := set_phys p _).
  assert (Hf' : framed own root T0 s0 s') by (destruct Hf; split; simpl; auto).
  apply HQ. split; [by rewrite bool_decide_true|]. exists T. split_and!; simpl; try done; try apply Hf.
  - eapply framed_space; try done; simpl.
    + intros x q Hx. pose proof (lookup_weaken _ _ _ _ Hx Hsub) as Hx0. apply Hpu. split; [by eapply Hs0|].
      intros (y & Hy & Hn)%Hgone. rewrite (tr_inj (sp_tree _ _ _ _ Hs0) _ _ _ Hy Hx0) in Hn. congruence.
    + intros x q Hx. left. exists x. by eapply lookup_weaken.
    + intros q Hq Hx. apply Hpu. split; [done|]. intros (y & Hy & _)%Hgone. by eapply Hx.
  - by rewrite Hfl.
  - intros b. by rewrite Hpu, Hgone.
  - intros v. change (ram s1) with (ram s'). destruct (own (index v 39)) eqn:Hov.
    + rewrite (translate_leaf (T := T) (own := own)) by done. rewrite HL.
      rewrite <- (translate_leaf (sp_tree _ _ _ _ Hs0)) by done.
      destruct (decide _) as [E|Hn]; destruct (Z.eqb_spec (page_of v) (page_of va)) as [E'|E']; [done|..|done].
      * by apply same_page in E.
      * by apply same_page in E'.
    + destruct (framed_foreign _ _ _ _ _ v Hs0 Hf' Hov) as [-> _].
      destruct (Z.eqb_spec (page_of v) (page_of va)) as [[[= _ _ E] _]%same_page|]; [congruence|done].
Qed.

Lemma wp_vmm_unmap_page_in va (Q : bool -> vmm P -> Prop) :
  vmm_lock_word s0 = 0 -> own (index va 39) = true ->
  (forall r s', unmap_result s0 va r s' -> Q r s') ->
  wp (vmm_unmap_page_in root va) Q s0.
Proof using Hs0.
  intros Hlock Ho HQ. pose proof (sp_tree _ _ _ _ Hs0) as HT. pose proof (tr_root HT) as H4.
  assert (Hout : T0 !! path va = None -> wp (vmm_unlock;; mret false) Q (set_lock 1 s0)).
  { intros Hn. wp_step. apply wp_modify. wp_step. apply HQ. split; [by rewrite Hn|].
    destruct s0. simpl in Hlock. by rewrite Hlock. }
  unfold vmm_unmap_page_in, phys_to_ptr. rewrite (root_not_null Hs0). wp_step. unfold vmm_lock. wp_step. wp_step.
  rewrite Hlock. cbn [Z.eqb]. wp_step. cbv zeta. wp_step.
  assert (Hs4 : slot own [] (index va 39)) by by apply slot_top.
  assert (Hpg : forall x p, T0 !! x = Some p -> is_page (ram s0) p) by (intros x p Hx; apply (tr_page HT x p Hx)).
  apply wp_load_word; [by eapply Hpg|apply Hs4|]. cbn [ram set_lock]. set (e4 := ent _ root _). rewrite has_present.
  destruct (present e4) eqn:Hp4; cbn [negb].
  2: { apply Hout. do 2 apply (no_parent HT). rewrite (tr_link HT _ _ _ H4 Hs4). by apply child_none. }
  destruct (next_table HT (index va 39) [] root) as (pdpt & H3 & E3 & _ & _); auto.
  { apply (tr_large HT _ []); auto. }
  fold e4 in E3. rewrite E3. assert (Hs3 : slot own [index va 39] (index va 30)) by by apply slot_index.
  wp_step. apply wp_load_word; [by eapply Hpg|apply Hs3|]. cbn [ram set_lock]. set (e3 := ent _ pdpt _). rewrite has_present.
  destruct (present e3) eqn:Hp3; cbn [negb].
  2: { apply Hout. apply (no_parent HT). change (tail (path va)) with [index va 30; index va 39].
       rewrite (tr_link HT _ _ _ H3 Hs3). by apply child_none. }
  destruct (next_table HT (index va 30) [index va 39] pdpt) as (pd & H2 & E2 & _ & _); auto.
  { apply (tr_large HT _ [index va 39]); auto. }
  fold e3 in E2. rewrite E2. assert (Hs2 : slot own (tail (path va)) (index va 21)) by by apply slot_index.
  wp_step. apply wp_load_word; [by eapply Hpg|apply Hs2|]. cbn [ram set_lock]. set (e2 := ent _ pd _). rewrite has_present, has_large.
  assert (Hlast : T0 !! path va = child (tail (path va)) e2) by (by apply (tr_link HT)).
  destruct (present e2) eqn:Hp2; cbn [negb orb]; [|apply Hout; rewrite Hlast; by apply child_none].
  destruct (large e2) eqn:Hg2; [apply Hout; rewrite Hlast; unfold child; by rewrite Hg2, andb_false_r|].
  destruct (next_table HT (index va 21) (tail (path va)) pd) as (pt & H1 & E1 & _ & _); auto.
  fold e2 in E1. rewrite E1. change (T0 !! path va = Some pt) in H1.
  wp_step. apply wp_store_word; [by eapply Hpg|by apply index_range|]. wp_step.
  eapply (wp_reclaim T0); [by apply shrunk_start|done|by rewrite H1, E1|by rewrite E2|by rewrite E3|].
  intros gone T' s1 Hsk [_ Hfl] Htidy. eapply wp_unmap_end; [done|by rewrite H1|done|by rewrite Hfl|done|done|done].
Qed.

End Unmap.

End Spec.

(** ** The boot tables

    [setup_page_tables] of [boot/entry.S] on the three pages from [boot_pml4] on:
    the first gigabyte of memory in 2 MiB pages, at address 0 and again at the
    kernel's base, through the same tables. *)

Definition PTE_TABLE : Z := 3.
Definition PTE_2M : Z := 131.

Definition zero_page : list Z := replicate 512 0.

Definition setup_page_tables (boot_pml4 : Z) (m : memory) : memory :=
  let boot_pdpt := boot_pml4 + 4096 in
  let boot_pd := boot_pml4 + 8192 in
  let m := <[boot_pd := zero_page]> (<[boot_pdpt := zero_page]> (<[boot_pml4 := zero_page]> m)) in
  let m := put m boot_pml4 0 (Z.lor boot_pdpt PTE_TABLE) in
  let m := put m boot_pml4 511 (Z.lor boot_pdpt PTE_TABLE) in
  let m := put m boot_pdpt 0 (Z.lor boot_pd PTE_TABLE) in
  let m := put m boot_pdpt 510 (Z.lor boot_pd PTE_TABLE) in
  foldl (fun m i => put m boot_pd i (Z.lor (i * 2097152) PTE_2M)) m (upto 0 512).

(** The slots of the boot root that are not taken: 0 and 511 share one table. *)
Definition boot_own (i : Z) : bool := negb (i =? 0) && negb (i =? 511).

Lemma is_page_insert m p q : is_page m q -> is_page (<[p := zero_page]> m) q.
Proof.
  intros (ws & ? & ?). destruct (decide (p = q)) as [->|].
  - exists zero_page. by rewrite lookup_insert_eq.
  - exists ws. by rewrite lookup_insert_ne.
Qed.

Lemma is_page_zero m p : is_page (<[p := zero_page]> m) p.
Proof. exists zero_page. by rewrite lookup_insert_eq. Qed.

Lemma ent_zero m p q j : ent (<[p := zero_page]> m) q j = if decide (q = p) then 0 else ent m q j.
Proof.
  unfold ent. destruct (decide (q = p)) as [->|].
  - rewrite lookup_insert_eq. change (default 0 (arr zero_page j) = 0). destruct (arr _ _) eqn:E; [|done].
    apply arr_elem in E. unfold zero_page in E. apply elem_of_replicate in E. tauto.
  - by rewrite lookup_insert_ne.
Qed.

Lemma ent_fill (f : Z -> Z) p l m q j :
  is_page m p -> (forall i, i ∈ l -> 0 <= i < 512) ->
  is_page (foldl (fun m i => put m p i (f i)) m l) p /\
  (forall r, is_page m r -> is_page (foldl (fun m i => put m p i (f i)) m l) r) /\
  ent (foldl (fun m i => put m p i (f i)) m l) q j = if decide (q = p /\ j ∈ l) then f j else ent m q j.
Proof.
  revert m. induction l as [|i l IH]; intros m Hp Hl; simpl.
  { split_and!; [done|done|]. rewrite decide_False; [done|]. by intros [_ []%elem_of_nil]. }
  destruct (IH (put m p i (f i))) as (H1 & H2 & H3); [by apply is_page_put|intros k Hk; apply Hl; by right|].
  split_and!; [done|intros r Hr; apply H2; by apply is_page_put|]. rewrite H3.
  assert (Hi : 0 <= i < 512) by (apply Hl; left).
  destruct (decide (q = p /\ j ∈ l)) as [[-> Hj]|Hn].
  - rewrite decide_True; [done|]. split; [done|by right].
  - rewrite ent_put by done. destruct (decide (q = p /\ j = i)) as [[-> ->]|Hn'].
    + rewrite decide_True; [done|]. split; [done|left].
    + rewrite decide_False; [done|]. rewrite elem_of_cons. tauto.
Qed.

Section Boot.
Context {P : Type} `{PageAlloc P}.

(** The boot tables written into memory, as [vmm_init] finds them. *)
Definition boot_state (pml4 : Z) (m : memory) (p : P) : vmm P := mk_vmm pml4 0 (setup_page_tables pml4 m) [] p.

Context (pml4 : Z) (m : memory) (p : P) (Hok : pages_ok p) (Hram : forall a, page_frame p a -> is_page m a).
Context (Haddr : 0 < pml4 < 2 ^ 32 - 8192) (Hal : pml4 `mod` 4096 = 0).
Context (Hu4 : page_used p pml4) (Hu3 : page_used p (pml4 + 4096)) (Hu2 : page_used p (pml4 + 8192)).

Lemma boot_entries q j :
  ent (setup_page_tables pml4 m) q j =
  if decide (q = pml4 + 8192 /\ 0 <= j < 512) then Z.lor (j * 2097152) PTE_2M
  else if decide (q = pml4 + 4096 /\ (j = 0 \/ j = 510)) then Z.lor (pml4 + 8192) PTE_TABLE
  else if decide (q = pml4 /\ (j = 0 \/ j = 511)) then Z.lor (pml4 + 4096) PTE_TABLE
  else if decide (pml4 <= q <= pml4 + 8192 /\ q `mod` 4096 = 0) then 0 else ent m q j.
Proof using Haddr Hal.
  unfold setup_page_tables. cbv zeta.
  assert (HP : forall r, r = pml4 \/ r = pml4 + 4096 \/ r = pml4 + 8192 ->
    is_page (<[pml4 + 8192 := zero_page]> (<[pml4 + 4096 := zero_page]> (<[pml4 := zero_page]> m))) r).
  { intros r [->|[->| ->]]; repeat first [apply is_page_zero | apply is_page_insert]. }
  destruct (ent_fill (fun i => Z.lor (i * 2097152) PTE_2M) (pml4 + 8192) (upto 0 512)
    (put (put (put (put (<[pml4 + 8192 := zero_page]> (<[pml4 + 4096 := zero_page]> (<[pml4 := zero_page]> m)))
      pml4 0 (Z.lor (pml4 + 4096) PTE_TABLE)) pml4 511 (Z.lor (pml4 + 4096) PTE_TABLE))
      (pml4 + 4096) 0 (Z.lor (pml4 + 8192) PTE_TABLE)) (pml4 + 4096) 510 (Z.lor (pml4 + 8192) PTE_TABLE)) q j) as (_ & _ & ->).
  { repeat apply is_page_put. apply HP. auto. }
  { intros i. by rewrite elem_of_upto. }
  rewrite !ent_put, !ent_zero by (repeat apply is_page_put; auto || lia).
  assert (Hq : forall k, (k = 0 \/ k = 4096 \/ k = 8192) -> q = pml4 + k -> pml4 <= q <= pml4 + 8192 /\ q `mod` 4096 = 0).
  { intros k Hk ->. split; [lia|]. destruct Hk as [->|[->| ->]]; Z.to_euclidean_division_equations; lia. }
  pose proof (Hq 0). pose proof (Hq 4096). pose proof (Hq 8192).
  rewrite (decide_ext (q = pml4 + 8192 /\ j ∈ upto 0 512) (q = pml4 + 8192 /\ 0 <= j < 512)) by by rewrite elem_of_upto.
  repeat case_decide; try done; exfalso; Z.to_euclidean_division_equations; lia.
Qed.

Lemma boot_pages q : is_page m q \/ q = pml4 -> is_page (setup_page_tables pml4 m) q.
Proof using.
  intros Hq. unfold setup_page_tables. cbv zeta.
  eapply (ent_fill (fun i => Z.lor (i * 2097152) PTE_2M) (pml4 + 8192) (upto 0 512) _ 0 0).
  - repeat apply is_page_put. apply is_page_zero.
  - intros i. by rewrite elem_of_upto.
  - repeat apply is_page_put. do 2 apply is_page_insert. destruct Hq as [?| ->]; [by apply is_page_insert|apply is_page_zero].
Qed.

Lemma boot_table n : 0 < n < 2 ^ 32 -> n `mod` 4096 = 0 ->
  let e := Z.lor n PTE_TABLE in present e = true /\ large e = false /\ field e 12 52 = n.
Proof using.
  intros Hn Hm. destruct (table_entry_bits n 2) as (Ep & Eg & _ & _ & Em); [unfold table_flags; lia|lia|done|].
  rewrite <- Z.lor_assoc in *. change (Z.lor 2 PAGE_FLAG_PRESENT) with PTE_TABLE in *. cbv zeta. split_and!; [done..|].
  apply (child_frame []); [|lia]. unfold child. by rewrite Ep, Eg, Em.
Qed.

(** What the walk reads through the shared slots are the other two tables. *)
Lemma boot_walked v q :
  boot_own (index v 39) = false -> q ∈ walked (setup_page_tables pml4 m) pml4 v -> q = pml4 + 4096 \/ q = pml4 + 8192.
Proof using Haddr Hal.
  intros Ho. assert (Hi : index v 39 = 0 \/ index v 39 = 511).
  { unfold boot_own in Ho. destruct (Z.eqb_spec (index v 39) 0), (Z.eqb_spec (index v 39) 511); simpl in Ho; auto. done. }
  assert (Hal3 : (pml4 + 4096) `mod` 4096 = 0) by (Z.to_euclidean_division_equations; lia).
  assert (Hal2 : (pml4 + 8192) `mod` 4096 = 0) by (Z.to_euclidean_division_equations; lia).
  destruct (boot_table (pml4 + 4096)) as (Hp4 & _ & Hf4); [lia|done|].
  destruct (boot_table (pml4 + 8192)) as (Hp3 & Hg3 & Hf3); [lia|done|].
  unfold walked. rewrite (boot_entries pml4), !decide_False, decide_True by lia. rewrite Hp4, Hf4. cbn [negb].
  rewrite (boot_entries (pml4 + 4096)), decide_False by lia.
  destruct (decide (_ /\ (index v 30 = 0 \/ _))) as [?|?].
  - rewrite Hp3, Hg3, Hf3. cbn [negb orb]. rewrite boot_entries, decide_True by (split; [done|by apply index_range]).
    assert (Hg2 : large (Z.lor (index v 21 * 2097152) PTE_2M) = true) by (unfold large; rewrite Z.lor_spec; apply orb_true_r).
    rewrite Hg2, orb_true_r, !elem_of_cons. intros [?|[?|[]%elem_of_nil]]; auto.
  - rewrite decide_False, decide_True by lia. simpl. intros [->|[]%elem_of_nil]%elem_of_cons. auto.
Qed.

Lemma boot_space : space boot_own pml4 {[ [] := pml4 ]} (boot_state pml4 m p).
Proof using All.
  assert (Hz : forall i, slot boot_own [] i -> ent (setup_page_tables pml4 m) pml4 i = 0).
  { intros i [Hi Ho]. specialize (Ho eq_refl). unfold boot_own in Ho. apply andb_true_iff in Ho as [?%negb_true_iff%Z.eqb_neq ?%negb_true_iff%Z.eqb_neq].
    rewrite boot_entries, !decide_False, decide_True by lia. done. }
  split; simpl; [|done|..].
  - split.
    + by rewrite lookup_singleton_eq.
    + intros x y q [<- _]%lookup_singleton_Some [<- _]%lookup_singleton_Some. done.
    + intros x q [<- <-]%lookup_singleton_Some. split; [by apply boot_pages; right|lia].
    + intros i x q [[=] _]%lookup_singleton_Some.
    + intros i x q [<- <-]%lookup_singleton_Some Hi. rewrite lookup_singleton_ne by done. by rewrite Hz, child_none.
    + intros i x q [<- <-]%lookup_singleton_Some Hi _. by rewrite Hz.
    + intros i x q r j _ [[=] _]%lookup_singleton_Some.
  - intros x q [<- <-]%lookup_singleton_Some. done.
  - intros a Ha. apply boot_pages. left. auto.
  - intros v q Ho [->| ->]%(boot_walked v q Ho); (split; [done|]); intros x [_ ?]%lookup_singleton_Some; lia.
Qed.

End Boot.

(** ** What the routines promise *)

Section Claims.
Context {P : Type} `{PageAlloc P}.

(** C17: mapping a 4 KiB page.  In an address space whose tables are in order, for
    an address that no large page covers, the call never touches memory outside
    the tables and never deadlocks.  When it answers true, the processor translates
    every address of the page to the frame with exactly the permissions asked for
    and every other address as before; when it answers false, fewer than three
    frames are free and no translation has changed.  The frames in use are those of
    before and the tables: preallocated tables that were not needed are given
    back. *)
Theorem vmm_map_page_in_spec own root T (s : vmm P) va pa flags :
  space own root T s -> vmm_lock_word s = 0 -> own (index va 39) = true -> 0 <= pa < 2 ^ 52 ->
  (forall t, translate (ram s) root va = Some t -> size t = 4096) ->
  wp (vmm_map_page_in root va pa flags)
    (fun r s' => map_result own root T s 3
       (fun v => if page_of v =? page_of va
                 then Some (mk_mapping (pa - pa `mod` 4096 + v `mod` 4096) (writable flags) (user flags) 4096)
                 else translate (ram s) root v) va r s') s.
Proof. intros Hs Hl Ho Hp Hsm. by eapply (wp_vmm_map_page_in Hs Hl Ho Hp). Qed.

(** Mapping a 2 MiB page.  When the call answers true, the processor
    translates every address of the large page to the frames with exactly the
    permissions asked for and every other address as before, whatever was mapped
    there; when it answers false, fewer than two frames are free and no translation
    has changed. *)
Theorem vmm_map_2m_in_spec own root T (s : vmm P) va pa flags :
  space own root T s -> vmm_lock_word s = 0 -> own (index va 39) = true -> 0 <= pa < 2 ^ 52 ->
  wp (vmm_map_2m_in root va pa flags)
    (fun r s' => map_result own root T s 2
       (fun v => if big_page_of v =? big_page_of va
                 then Some (mk_mapping (pa - pa `mod` 2097152 + v `mod` 2097152) (writable flags) (user flags) 2097152)
                 else translate (ram s) root v) va r s') s.
Proof. intros Hs Hl Ho Hp. by eapply (wp_vmm_map_2m_in Hs Hl Ho Hp). Qed.

(** C18: unmapping a 4 KiB page.  The call answers true exactly when there is a last
    table for the address.  Then the page is not mapped any more, every other
    address is translated as before, no table on the way is left empty, and the
    pages freed are exactly the tables that have left the tree, so no table still in
    use and no page of data is given back; otherwise nothing changes. *)
Theorem vmm_unmap_page_in_spec own root T (s : vmm P) va :
  space own root T s -> vmm_lock_word s = 0 -> own (index va 39) = true ->
  wp (vmm_unmap_page_in root va) (unmap_result (own := own) (root := root) (T0 := T) s va) s.
Proof. intros Hs Hl Ho. by eapply (wp_vmm_unmap_page_in Hs). Qed.

(** A page that was not mapped can be mapped and unmapped again: both calls
    succeed, unless fewer than three frames are free, and then the processor
    translates every address as at the start. *)
Theorem map_unmap_roundtrip own root T (s : vmm P) va pa flags :
  space own root T s -> vmm_lock_word s = 0 -> own (index va 39) = true -> 0 <= pa < 2 ^ 52 ->
  translate (ram s) root va = None -> ~ short_of 3 s ->
  wp (r ← vmm_map_page_in root va pa flags; r' ← vmm_unmap_page_in root va; mret (r, r'))
    (fun r s' => r = (true, true) /\ forall v, translate (ram s') root v = translate (ram s) root v) s.
Proof.
  intros Hs Hl Ho Hp Hnone Hfree. wp_step. eapply (wp_vmm_map_page_in Hs Hl Ho Hp); [by rewrite Hnone|].
  intros r s1 (T1 & Hs1 & Hl1 & _ & _ & _ & Hr). destruct r; [|by destruct Hr as (_ & _ & ? & _)].
  destruct Hr as [_ Ht]. wp_step. eapply (wp_vmm_unmap_page_in Hs1); [done..|].
  intros r' s2 [Hr' Hres]. wp_step. destruct r'.
  - destruct Hres as (T2 & _ & _ & _ & _ & _ & _ & _ & _ & Ht2). split; [done|]. intros v. rewrite Ht2, Ht.
    unfold map_4k_view. destruct (Z.eqb_spec (page_of v) (page_of va)) as [E|]; [|done].
    symmetry. by apply (translate_page_none Hs va).
  - exfalso. symmetry in Hr'. apply bool_decide_eq_false in Hr'. apply Hr'.
    specialize (Ht va). unfold map_4k_view in Ht. rewrite Z.eqb_refl, (translate_leaf (sp_tree _ _ _ _ Hs1)) in Ht by done.
    by eapply leaf_4k_table.
Qed.

End Claims.

(** ** A concrete machine

    The boot tables at [0x101000], inside the kernel's frames of [Pmm.demo]; four
    megabytes of memory, two of them under the allocator. *)

Definition demo_ram : memory := list_to_map ((fun i => (i * 4096, zero_page)) <$> upto 0 1024).
Definition demo_root : Z := 1052672.
Definition demo : vmm Pmm.pmm := boot_state demo_root demo_ram Pmm.demo.
Definition demo_tree : gmap (list Z) Z := {[ [] := demo_root ]}.

(** An address under slot 1 of the root, and a frame. *)
Definition demo_va : Z := 549755826176.
Definition demo_pa : Z := 20480.

Lemma demo_pages a : 0 <= a < 4194304 -> a `mod` 4096 = 0 -> is_page demo_ram a.
Proof.
  intros Ha Hm. exists zero_page. split; [|done]. apply elem_of_list_to_map_1.
  - rewrite <- list_fmap_compose. apply NoDup_fmap_2_strong; [|apply NoDup_upto]. intros x y _ _. simpl. lia.
  - apply list_elem_of_fmap. exists (a / 4096). split; [f_equal; Z.to_euclidean_division_equations; lia|].
    apply elem_of_upto. Z.to_euclidean_division_equations; lia.
Qed.

Lemma demo_used a : a = demo_root \/ a = demo_root + 4096 \/ a = demo_root + 8192 -> Pmm.page_in_use Pmm.demo a.
Proof. intros [->|[->| ->]]; (split; [unfold demo_root; lia|vm_compute; done]). Qed.

Lemma demo_space : space boot_own demo_root demo_tree demo.
Proof.
  apply boot_space; unfold demo_root; try lia; try done; try (apply demo_used; unfold demo_root; lia).
  - exact Pmm.demo_inv.
  - intros a (? & ? & Hlim). apply demo_pages; [|done]. change (Pmm.frame_limit Pmm.demo) with 512 in Hlim.
    Z.to_euclidean_division_equations; lia.
Qed.

Lemma demo_unmapped : translate (ram demo) demo_root demo_va = None.
Proof. vm_compute. done. Qed.

Lemma demo_free : ~ short_of 3 demo.
Proof.
  intros (l & Hl & Hall).
  assert (Hf : [1228800; 1232896; 1236992] ⊆+ l).
  { apply NoDup_submseteq; [apply (bool_decide_unpack _); vm_compute; done|]. intros a Ha.
    destruct (Hall a) as [[_ Hu]|?]; [| |done]; rewrite !elem_of_cons in Ha.
    - destruct Ha as [->|[->|[->|[]%elem_of_nil]]]; unfold page_frame; simpl; unfold Pmm.page_at; change (Pmm.frame_limit Pmm.demo) with 512;
        split_and!; done || lia.
    - destruct Ha as [->|[->|[->|[]%elem_of_nil]]]; by vm_compute in Hu. }
  apply submseteq_length in Hf. simpl in Hf. lia.
Qed.

Lemma vmm_map_page_in_witness :
  wp (vmm_map_page_in demo_root demo_va demo_pa 3)
    (fun r s' => map_result boot_own demo_root demo_tree demo 3
       (fun v => if page_of v =? page_of demo_va
                 then Some (mk_mapping (demo_pa - demo_pa `mod` 4096 + v `mod` 4096) (writable 3) (user 3) 4096)
                 else translate (ram demo) demo_root v) demo_va r s') demo.
Proof.
  apply (vmm_map_page_in_spec boot_own demo_root demo_tree demo demo_va demo_pa 3).
  - exact demo_space.
  - reflexivity.
  - reflexivity.
  - unfold demo_pa. lia.
  - rewrite demo_unmapped. intros t [=].
Defined.

Lemma vmm_map_2m_in_witness :
  wp (vmm_map_2m_in demo_root demo_va demo_pa 3)
    (fun r s' => map_result boot_own demo_root demo_tree demo 2
       (fun v => if big_page_of v =? big_page_of demo_va
                 then Some (mk_mapping (demo_pa - demo_pa `mod` 2097152 + v `mod` 2097152) (writable 3) (user 3) 2097152)
                 else translate (ram demo) demo_root v) demo_va r s') demo.
Proof.
  apply (vmm_map_2m_in_spec boot_own demo_root demo_tree demo demo_va demo_pa 3).
  - exact demo_space.
  - reflexivity.
  - reflexivity.
  - unfold demo_pa. lia.
Defined.

Lemma vmm_unmap_page_in_witness :
  wp (vmm_unmap_page_in demo_root demo_va)
    (unmap_result (own := boot_own) (root := demo_root) (T0 := demo_tree) demo demo_va) demo.
Proof.
  apply (vmm_unmap_page_in_spec boot_own demo_root demo_tree demo demo_va).
  - exact demo_space.
  - reflexivity.
  - reflexivity.
Defined.

Lemma map_unmap_roundtrip_witness :
  wp (r ← vmm_map_page_in demo_root demo_va demo_pa 3; r' ← vmm_unmap_page_in demo_root demo_va; mret (r, r'))
    (fun r s' => r = (true, true) /\ forall v, translate (ram s') demo_root v = translate (ram demo) demo_root v) demo.
Proof.
  apply (map_unmap_roundtrip boot_own demo_root demo_tree demo demo_va demo_pa 3).
  - exact demo_space.
  - reflexivity.
  - reflexivity.
  - unfold demo_pa. lia.
  - exact demo_unmapped.
  - exact demo_free.
Defined.

(** A run: the three pages of the pool become tables, and the address is mapped. *)
Example map_page_run :
  match vmm_map_page_in demo_root demo_va demo_pa 3 demo with
  | Done r s' => r = true /\ translate (ram s') demo_root demo_va = Some (mk_mapping demo_pa true false 4096)
  | Stuck _ => False
  end.
Proof. vm_compute. done. Qed.

(** A page inside a large page cannot be mapped: the walk takes the large page's
    frame for a table.  On the boot tables the call answers true, the address is
    still translated by the large page, and the entry has been written over the
    data at [0x200008]. *)
Theorem map_inside_large_page :
  match vmm_map_page_in demo_root 2101248 demo_pa 3 demo with
  | Done r s' => r = true /\ translate (ram s') demo_root 2101248 = Some (mk_mapping 2101248 true false 2097152) /\
                 ent (ram demo) 2097152 1 = 0 /\ ent (ram s') 2097152 1 = 20483
  | Stuck _ => False
  end.
Proof. vm_compute. done. Qed.

End Vmm.
