(* ===== verification/Kheap.v ===== *)
(** * Kernel heap ([kernel/mm/kheap.c])

    [kmalloc] and [kfree]: blocks with a header in front, kept on a singly
    linked free list threaded through the headers, first fit, fresh pages from
    the physical memory manager, the tail of fresh pages split off. *)

From S2P Require Import Prelude Interfaces Pmm.
Import Pmm.

Module Kheap.

Definition KMALLOC_MAGIC : Z := 1296979531. (* 0x4D4E564B *)
Definition HEADER_SIZE : Z := 16.

Record kmalloc_header := mk_hdr { magic : Z; size : Z; next : Z }.

(** The heap: the page allocator, the headers in memory by address (0 is the
    null pointer) and the head of the free list. *)
Record kheap := mk_heap {
  kh_pmm : pmm;
  kh_mem : gmap Z kmalloc_header;
  free_list : Z;
}.

Definition set_pmm v h := mk_heap v (kh_mem h) (free_list h).
Definition set_mem v h := mk_heap (kh_pmm h) v (free_list h).
Definition set_free_list v h := mk_heap (kh_pmm h) (kh_mem h) v.

Definition load (a : Z) : M kheap kmalloc_header := fun h =>
  match kh_mem h !! a with
  | Some x => Done x h
  | None => Stuck (if a =? 0 then NullDeref else OutOfBounds)
  end.
Definition store (a : Z) (x : kmalloc_header) : M kheap unit :=
  if a =? 0 then stuck NullDeref else modify (fun h => set_mem (<[a := x]> (kh_mem h)) h).

Definition set_next (v : Z) (x : kmalloc_header) : kmalloc_header := mk_hdr (magic x) (size x) v.

(** [*prev = v] where [prev] is [&free_list] ([None]) or [&p->next]. *)
Definition assign_link (prev : option Z) (v : Z) : M kheap unit :=
  match prev with
  | None => modify (set_free_list v)
  | Some p => x ← load p; store p (set_next v x)
  end.

(** The loop over the free list: the block found, unlinked, or [None]. *)
Fixpoint find_fit (fuel : nat) (prev : option Z) (cur n : Z) : M kheap (option Z) :=
  if cur =? 0 then mret None else
  match fuel with
  | O => stuck OutOfFuel
  | S fuel' =>
      x ← load cur;
      if n <=? size x then
        assign_link prev (next x) ;;
        y ← load cur;
        store cur (set_next 0 y) ;;
        mret (Some (u64 (cur + HEADER_SIZE)))
      else find_fit fuel' (Some cur) (next x) n
  end.

Definition kmalloc (n : Z) : M kheap Z :=
  if n =? 0 then mret 0 else
  head ← gets free_list;
  fuel ← gets (fun h => base.size (kh_mem h));
  fit ← find_fit fuel None head n;
  match fit with
  | Some p => mret p
  | None =>
      let total := u64 (HEADER_SIZE + n) in
      let pages := u64 (u64 (total + PAGE_SIZE) - 1) / PAGE_SIZE in
      first_page ← lift_to kh_pmm set_pmm (pmm_alloc_pages pages);
      if first_page =? 0 then mret 0 else
      let hsize := u32 (u64 (u64 (pages * PAGE_SIZE) - HEADER_SIZE)) in
      store first_page (mk_hdr KMALLOC_MAGIC hsize 0) ;;
      (if n <? hsize then
         let remain := hsize - n in
         if HEADER_SIZE + 32 <? remain then
           let split := u64 (first_page + HEADER_SIZE + n) in
           fl ← gets free_list;
           store split (mk_hdr KMALLOC_MAGIC (u32 (remain - HEADER_SIZE)) fl) ;;
           modify (set_free_list split) ;;
           x ← load first_page;
           store first_page (mk_hdr (magic x) (u32 n) (next x))
         else mret tt
       else mret tt) ;;
      mret (u64 (first_page + HEADER_SIZE))
  end.

Definition kfree (ptr : Z) : M kheap unit :=
  if ptr =? 0 then mret tt else
  let header := u64 (ptr - HEADER_SIZE) in
  x ← load header;
  if negb (magic x =? KMALLOC_MAGIC) then mret tt else
  fl ← gets free_list;
  store header (set_next fl x) ;;
  modify (set_free_list header).

(** ** The free list as a list of block addresses *)

(** Following [next] from [p] passes the blocks [l] and arrives at [q]. *)
Fixpoint seg (mem : gmap Z kmalloc_header) (p : Z) (l : list Z) (q : Z) : Prop :=
  match l with
  | [] => p = q
  | a :: l => p = a /\ a <> 0 /\ exists x, mem !! a = Some x /\ seg mem (next x) l q
  end.

Lemma seg_app mem p l1 l2 q :
  seg mem p (l1 ++ l2) q <-> exists r, seg mem p l1 r /\ seg mem r l2 q.
Proof.
  revert p. induction l1 as [|a l1 IH]; intros p; simpl.
  - split; [eauto|]. by intros (r & <- & ?).
  - split.
    + intros (-> & Ha & x & Hx & (r & ? & ?)%IH). exists r. eauto 10.
    + intros (r & (-> & Ha & x & Hx & ?) & ?). split_and!; [done|done|].
      exists x. split; [done|]. apply IH. eauto.
Qed.

Lemma seg_insert mem p l q a x : a ∉ l -> seg mem p l q -> seg (<[a := x]> mem) p l q.
Proof.
  revert p. induction l as [|b l IH]; intros p Hn; [done|]. simpl.
  rewrite not_elem_of_cons in Hn. destruct Hn as [Hab Hn].
  intros (-> & Hb & y & Hy & Hs). split_and!; [done|done|]. exists y.
  rewrite lookup_insert_ne by done. eauto.
Qed.

Lemma seg_relink mem p l a x q q' :
  a ∉ l -> mem !! a = Some x -> seg mem p (l ++ [a]) q ->
  seg (<[a := set_next q' x]> mem) p (l ++ [a]) q'.
Proof.
  intros Hn Hx (r & Hl & -> & Ha & y & Hy & Hq)%seg_app. apply seg_app.
  exists a. split; [by apply seg_insert|]. simpl. split_and!; [done|done|].
  exists (set_next q' x). by rewrite lookup_insert_eq.
Qed.

(** ** Invariant *)

Definition block_end (a : Z) (x : kmalloc_header) : Z := a + HEADER_SIZE + size x.

(** Headers with their blocks lie in frames in use, and do not overlap. *)
Record blocks_ok (s : pmm) (mem : gmap Z kmalloc_header) : Prop := mk_blocks_ok {
  bo_header : forall a x, mem !! a = Some x ->
    0 < a /\ magic x = KMALLOC_MAGIC /\ is_u32 (size x) /\ block_end a x <= frame_limit s * PAGE_SIZE;
  bo_used : forall a x f, mem !! a = Some x ->
    touches a (HEADER_SIZE + size x) f = true -> frame_used s f = true;
  bo_disjoint : forall a b x y, mem !! a = Some x -> mem !! b = Some y -> a <> b ->
    block_end a x <= b \/ block_end b y <= a;
}.

(** The invariant, with the blocks on the free list. *)
Record heap_inv (h : kheap) (fl : list Z) : Prop := mk_heap_inv {
  hi_pmm : Pmm.inv (kh_pmm h);
  hi_blocks : blocks_ok (kh_pmm h) (kh_mem h);
  hi_list : seg (kh_mem h) (free_list h) fl 0;
  hi_nodup : NoDup fl;
}.

(** A block that the heap has handed out: it has a header and is not free. *)
Definition allocated (h : kheap) (fl : list Z) (a : Z) (x : kmalloc_header) : Prop :=
  kh_mem h !! a = Some x /\ a ∉ fl.

Lemma seg_length mem p l q : seg mem p l q -> NoDup l -> (length l <= base.size mem)%nat.
Proof.
  intros Hs Hn. rewrite <- (size_list_to_set (C := gset Z) l Hn), <- size_dom.
  apply subseteq_size. intros a Ha%elem_of_list_to_set. clear Hn.
  revert p Hs. induction l as [|b l IH]; intros p; [by apply elem_of_nil in Ha|].
  intros (-> & _ & x & Hx & Hs). apply elem_of_cons in Ha as [->|Ha].
  - by apply elem_of_dom.
  - by eapply IH.
Qed.

Lemma wp_load h a x Q : kh_mem h !! a = Some x -> Q x h -> wp (load a) Q h.
Proof. unfold wp, load. by intros ->. Qed.

Lemma wp_store h a x (Q : unit -> kheap -> Prop) :
  a <> 0 -> Q tt (set_mem (<[a := x]> (kh_mem h)) h) -> wp (store a x) Q h.
Proof. intros Ha ?. unfold store. by destruct (Z.eqb_spec a 0). Qed.

(** Two memories with the same blocks, that differ in the links only. *)
Definition shape (x : kmalloc_header) : Z * Z := (magic x, size x).
Definition same_blocks (m m' : gmap Z kmalloc_header) : Prop := shape <$> m = shape <$> m'.

#[export] Instance same_blocks_equiv : Equivalence same_blocks.
Proof. unfold same_blocks. split; [done|by intros ? ?|]. intros ? ? ?. congruence. Qed.

Lemma same_blocks_lookup m m' a x :
  same_blocks m m' -> m !! a = Some x ->
  exists x', m' !! a = Some x' /\ size x' = size x /\ magic x' = magic x.
Proof.
  intros H Hx. assert (Hs : (shape <$> m') !! a = Some (shape x)).
  { rewrite <- H, lookup_fmap, Hx. done. }
  rewrite lookup_fmap in Hs. destruct (m' !! a) as [x'|]; [|done].
  exists x'. unfold shape in Hs. simpl in Hs. split; [done|]. by simplify_eq.
Qed.

Lemma same_blocks_relink m a x v : m !! a = Some x -> same_blocks (<[a := set_next v x]> m) m.
Proof.
  intros Hx. unfold same_blocks. apply map_eq. intros b. rewrite !lookup_fmap, lookup_insert.
  case_decide as E; [|done]. subst. by rewrite Hx.
Qed.

(** Blocks stay well placed when only links change. *)
#[export] Instance blocks_ok_proper s : Proper (same_blocks ==> iff) (blocks_ok s).
Proof.
  assert (H : forall m m', same_blocks m m' -> blocks_ok s m -> blocks_ok s m').
  { intros m m' E [Hh Hu Hd]. symmetry in E. constructor.
    - intros a x (x' & Hx & Hs & Hm)%(same_blocks_lookup _ _ _ _ E). unfold block_end.
      rewrite <- Hs, <- Hm. by apply Hh.
    - intros a x f (x' & Hx & Hs & _)%(same_blocks_lookup _ _ _ _ E). rewrite <- Hs. by apply Hu.
    - intros a b x y (x' & Hx & Hs & _)%(same_blocks_lookup _ _ _ _ E)
        (y' & Hy & Hs' & _)%(same_blocks_lookup _ _ _ _ E).
      unfold block_end. rewrite <- Hs, <- Hs'. by apply Hd. }
  intros m m' E. split; apply H; [done|by symmetry].
Qed.

(** Taking the block [a] out of the list [pre ++ a :: l2]. *)
Lemma wp_unlink h pre a x l2 (Q : unit -> kheap -> Prop) :
  seg (kh_mem h) (free_list h) pre a -> seg (kh_mem h) (next x) l2 0 ->
  kh_mem h !! a = Some x -> a <> 0 -> NoDup (pre ++ a :: l2) ->
  (forall h', kh_pmm h' = kh_pmm h -> same_blocks (kh_mem h') (kh_mem h) ->
     seg (kh_mem h') (free_list h') (pre ++ l2) 0 -> Q tt h') ->
  wp (assign_link (last pre) (next x) ;; y ← load a; store a (set_next 0 y)) Q h.
Proof.
  intros Hpre Hl2 Hx Ha Hnd HQ. apply NoDup_app in Hnd as (Hnd1 & Hdis & Hnd2).
  apply NoDup_cons in Hnd2 as [Ha2 _].
  destruct pre as [|p pre _] using rev_ind; simpl.
  - wp_go. eapply wp_load; [done|]. apply wp_store; [done|].
    apply HQ; simpl; [done|by apply same_blocks_relink|by apply seg_insert].
  - rewrite last_snoc. simpl.
    apply seg_app in Hpre as Hp. destruct Hp as (r & Hp1 & -> & Hp0 & xp & Hxp & Hr).
    assert (p <> a) by (intros ->; apply (Hdis a); [apply elem_of_app; right|]; by left).
    assert (Hpl2 : p ∉ l2).
    { intros Hin. apply (Hdis p); [apply elem_of_app; right; by left|by right]. }
    assert (Hap : a ∉ pre ++ [p]) by (intros Hin; apply (Hdis a Hin); by left).
    apply NoDup_app in Hnd1 as (_ & Hp' & _).
    wp_go. eapply wp_load; [done|]. apply wp_store; [done|]. wp_go.
    assert (Hx' : (<[p := set_next (next x) xp]> (kh_mem h)) !! a = Some x)
      by (by rewrite lookup_insert_ne).
    eapply wp_load; [exact Hx'|]. apply wp_store; [done|]. apply HQ; simpl; [done|..].
    + etransitivity; [by apply same_blocks_relink|by apply same_blocks_relink].
    + apply seg_app. exists (next x). split.
      * apply seg_insert; [done|]. eapply seg_relink; [|done|done].
        intros Hin. apply (Hp' p Hin). by left.
      * apply seg_insert; [done|]. by apply seg_insert.
Qed.

Lemma wp_find_fit fuel h pre cur l n Q :
  seg (kh_mem h) (free_list h) pre cur -> seg (kh_mem h) cur l 0 ->
  NoDup (pre ++ l) -> (length l <= fuel)%nat ->
  ((forall a x, a ∈ l -> kh_mem h !! a = Some x -> size x < n) -> Q None h) ->
  (forall l1 a x l2 h', l = l1 ++ a :: l2 -> kh_mem h !! a = Some x -> n <= size x ->
     kh_pmm h' = kh_pmm h -> same_blocks (kh_mem h') (kh_mem h) ->
     seg (kh_mem h') (free_list h') (pre ++ l1 ++ l2) 0 -> Q (Some (u64 (a + HEADER_SIZE))) h') ->
  wp (find_fit fuel (last pre) cur n) Q h.
Proof.
  revert fuel pre cur. induction l as [|a l IH]; intros fuel pre cur Hpre Hl Hnd Hf Hno Hyes.
  - simpl in Hl. subst cur. destruct fuel; simpl; apply wp_ret, Hno; by intros ? ? ?%elem_of_nil.
  - destruct Hl as (-> & Ha & x & Hx & Hl). destruct fuel as [|fuel]; simpl in Hf; [lia|]. simpl.
    destruct (Z.eqb_spec a 0); [done|]. wp_go. eapply wp_load; [done|].
    destruct (Z.leb_spec n (size x)) as [Hfit|Hfit].
    + pose proof (wp_unlink h pre a x l
        (fun _ h' => Q (Some (u64 (a + HEADER_SIZE))) h') Hpre Hl Hx Ha Hnd) as Hu.
      specialize (Hu ltac:(intros h' Hp Hs Hseg; by eapply (Hyes [] a x l h'))).
      unfold wp, mbind, M_bind in Hu |- *.
      destruct (assign_link (last pre) (next x) h) as [[] h1|]; [|done].
      destruct (load a h1) as [y h2|]; [|done].
      by destruct (store a (set_next 0 y) h2) as [[] h3|].
    + rewrite <- (last_snoc a pre). apply IH.
      * apply seg_app. exists a. split; [done|]. simpl. eauto 10.
      * done.
      * by rewrite <- app_assoc.
      * lia.
      * intros Hall. apply Hno. intros b y [->|Hb]%elem_of_cons Hy; [|eauto].
        simplify_eq. done.
      * intros l1 b y l2 h' -> Hy Hn Hp Hs Hseg.
        eapply (Hyes (a :: l1)); [done|done|done|done|done|]. by rewrite <- app_assoc in Hseg.
Qed.

(** ** Fresh pages *)

Ltac kh_lia := unfold block_end in *; unfold HEADER_SIZE, PAGE_SIZE, is_u32 in *;
  Z.to_euclidean_division_equations; lia.

Lemma fresh_disjoint s mem f n a x :
  blocks_ok s mem -> 0 < n -> (forall g, f <= g < f + n -> frame_used s g = false) ->
  mem !! a = Some x -> block_end a x <= f * PAGE_SIZE \/ (f + n) * PAGE_SIZE <= a.
Proof.
  intros Hb Hn Hfree Hx. destruct (bo_header _ _ Hb a x Hx) as (Ha & _ & Hs & _).
  destruct (decide (block_end a x <= f * PAGE_SIZE)) as [|H1]; [by left|].
  destruct (decide ((f + n) * PAGE_SIZE <= a)) as [|H2]; [by right|]. exfalso.
  assert (exists m, a <= m < block_end a x /\ f * PAGE_SIZE <= m < (f + n) * PAGE_SIZE)
    as (m & Hm1 & Hm2).
  { exists (Z.max a (f * PAGE_SIZE)). kh_lia. }
  assert (Hg : frame_used s (m / PAGE_SIZE) = true).
  { eapply (bo_used _ _ Hb); [done|]. unfold touches. apply andb_true_iff.
    rewrite !Z.ltb_lt. kh_lia. }
  rewrite Hfree in Hg; [done|]. kh_lia.
Qed.

Lemma blocks_grow s s' mem f n : blocks_ok s mem -> taken s s' f n -> blocks_ok s' mem.
Proof.
  intros [Hh Hu Hd] Ht. destruct (taken_config _ _ _ _ Ht) as (Hl & _).
  constructor; [by rewrite Hl| |done]. intros a x g Hx Hg.
  rewrite (taken_used _ _ _ _ Ht), (Hu a x g Hx Hg). apply orb_true_r.
Qed.

Lemma blocks_insert s mem a x :
  blocks_ok s mem -> 0 < a -> magic x = KMALLOC_MAGIC -> is_u32 (size x) ->
  block_end a x <= frame_limit s * PAGE_SIZE ->
  (forall f, touches a (HEADER_SIZE + size x) f = true -> frame_used s f = true) ->
  (forall b y, mem !! b = Some y -> b <> a -> block_end a x <= b \/ block_end b y <= a) ->
  blocks_ok s (<[a := x]> mem).
Proof.
  intros [Hh Hu Hd] Ha Hm Hs He Hf Hdis. constructor.
  - intros b y. destruct (decide (a = b)) as [<-|];
      [rewrite lookup_insert_eq|rewrite lookup_insert_ne by done]; intros; simplify_eq; eauto.
  - intros b y f. destruct (decide (a = b)) as [<-|];
      [rewrite lookup_insert_eq|rewrite lookup_insert_ne by done]; intros; simplify_eq; eauto.
  - intros b c y z. destruct (decide (a = b)) as [<-|], (decide (a = c)) as [<-|];
      rewrite ?lookup_insert_eq, ?lookup_insert_ne by done; intros; simplify_eq; eauto.
    destruct (Hdis b y); [done..| |]; tauto.
Qed.

Lemma touches_run a len f n g :
  f * PAGE_SIZE <= a -> a + len <= (f + n) * PAGE_SIZE -> touches a len g = true -> f <= g < f + n.
Proof.
  unfold touches. rewrite andb_true_iff, !Z.ltb_lt. intros. kh_lia.
Qed.

(** A block inside freshly taken frames. *)
Lemma blocks_fresh s mem f n a x :
  blocks_ok s mem -> (forall g, f <= g < f + n -> frame_used s g = true) ->
  f * PAGE_SIZE <= a -> block_end a x <= (f + n) * PAGE_SIZE -> 0 < f -> f + n <= frame_limit s ->
  magic x = KMALLOC_MAGIC -> is_u32 (size x) ->
  (forall b y, mem !! b = Some y -> b <> a -> block_end a x <= b \/ block_end b y <= a) ->
  blocks_ok s (<[a := x]> mem).
Proof.
  intros Hb Hu Ha He Hf Hl Hm Hs Hd. apply blocks_insert; [done|kh_lia|done|done|kh_lia| |done].
  intros g Hg. apply Hu. eapply touches_run; [done| |done]. kh_lia.
Qed.

(** ** [kmalloc] *)

(** The blocks are the same but for their links, or those in a run of frames that
    were free are new. *)
Definition grown (h h' : kheap) : Prop :=
  (kh_pmm h' = kh_pmm h /\ same_blocks (kh_mem h') (kh_mem h)) \/
  exists f count, 0 < count /\ taken (kh_pmm h) (kh_pmm h') f count /\
    forall b y, kh_mem h' !! b = Some y ->
      kh_mem h !! b = Some y \/ (f * PAGE_SIZE <= b /\ block_end b y <= (f + count) * PAGE_SIZE).

(** What a call [kmalloc n] may answer: null with the heap unchanged, or the
    payload address [p] of a block of at least [n] bytes that was not in use and
    overlaps no block in use; the blocks in use stay so, and new blocks lie in
    frames that were free. *)
Definition kmalloc_result (h : kheap) (fl : list Z) (n p : Z) (h' : kheap) : Prop :=
  (p = 0 /\ h' = h) \/
  exists fl' x, heap_inv h' fl' /\ HEADER_SIZE < p /\
    allocated h' fl' (p - HEADER_SIZE) x /\ n <= size x /\
    p + size x <= frame_limit (kh_pmm h') * PAGE_SIZE /\ grown h h' /\
    forall b y, allocated h fl b y ->
      (exists y', allocated h' fl' b y' /\ size y' = size y) /\
      (p + size x <= b \/ block_end b y <= p - HEADER_SIZE).

Lemma block_u64 s mem a x :
  Pmm.inv s -> blocks_ok s mem -> mem !! a = Some x -> u64 (a + HEADER_SIZE) = a + HEADER_SIZE.
Proof.
  intros Hi Hb Hx. destruct (bo_header _ _ Hb a x Hx) as (? & _ & ? & ?).
  pose proof (wf_limit _ Hi). unfold MAX_FRAMES in *. apply u64_small. kh_lia.
Qed.

Lemma kmalloc_reuse h fl n l1 a x l2 h' :
  heap_inv h fl -> fl = l1 ++ a :: l2 -> kh_mem h !! a = Some x -> n <= size x ->
  kh_pmm h' = kh_pmm h -> same_blocks (kh_mem h') (kh_mem h) ->
  seg (kh_mem h') (free_list h') (l1 ++ l2) 0 ->
  kmalloc_result h fl n (a + HEADER_SIZE) h'.
Proof.
  intros [Hp Hb Hl Hnd] -> Hx Hn Hpm Hs Hseg. right.
  assert (Hb' : blocks_ok (kh_pmm h') (kh_mem h')) by (by rewrite Hpm, Hs).
  assert (Hgr : grown h h') by (by left).
  symmetry in Hs. destruct (same_blocks_lookup _ _ _ _ Hs Hx) as (x' & Hx' & Hsz & _).
  destruct (bo_header _ _ Hb' a x' Hx') as (Ha0 & _ & _ & Hend).
  apply NoDup_app in Hnd as (Hnd1 & Hdis & Hnd2). apply NoDup_cons in Hnd2 as [Ha2 Hnd2].
  assert (Ha : a ∉ l1 ++ l2).
  { rewrite elem_of_app. intros [Hin|]; [|done]. apply (Hdis a Hin). by left. }
  exists (l1 ++ l2), x'. unfold allocated. rewrite Z.add_simpl_r.
  split; [|split_and!; [kh_lia|done|done|lia|kh_lia|done|]].
  - constructor; [by rewrite Hpm|done|done|]. apply NoDup_app.
    split_and!; [done| |done]. intros b Hb1 Hb2. apply (Hdis b Hb1). by right.
  - intros b y [Hy Hnb]. destruct (same_blocks_lookup _ _ _ _ Hs Hy) as (y' & Hy' & Hszy & _).
    rewrite elem_of_app, elem_of_cons in Hnb. split.
    + exists y'. rewrite elem_of_app. tauto.
    + assert (b <> a) by tauto. rewrite Hsz. by destruct (bo_disjoint _ _ Hb a b x y); [..|left|right].
Qed.

Lemma seg_in_mem mem p l q a : seg mem p l q -> a ∈ l -> is_Some (mem !! a).
Proof.
  revert p. induction l as [|b l IH]; intros p; [by intros _ ?%elem_of_nil|].
  intros (-> & _ & x & Hx & Hs) [->|Hin]%elem_of_cons; [done|]. by eapply IH.
Qed.

Section fresh_block.
(** [count] frames at [f] were just taken from the page allocator. *)
Context (h : kheap) (fl : list Z) (s' : pmm) (f count : Z).
Context (Hinv : heap_inv h fl) (Htk : taken (kh_pmm h) s' f count) (Hi' : Pmm.inv s').
Context (Hcount : 0 < count).

Lemma fresh_away a x :
  kh_mem h !! a = Some x -> block_end a x <= f * PAGE_SIZE \/ (f + count) * PAGE_SIZE <= a.
Proof using Hcount Hinv Htk.
  intros Hx. eapply fresh_disjoint; [apply Hinv|done|apply Htk|done].
Qed.

Lemma fresh_none a : f * PAGE_SIZE <= a < (f + count) * PAGE_SIZE -> kh_mem h !! a = None.
Proof using Hcount Hinv Htk.
  intros Ha. destruct (kh_mem h !! a) as [x|] eqn:Hx; [|done].
  destruct (bo_header _ _ (hi_blocks _ _ Hinv) a x Hx) as (_ & _ & Hs & _).
  destruct (fresh_away a x Hx); kh_lia.
Qed.

Lemma fresh_not_free a : f * PAGE_SIZE <= a < (f + count) * PAGE_SIZE -> a ∉ fl.
Proof using Hcount Hinv Htk.
  intros Ha Hin. destruct (seg_in_mem _ _ _ _ a (hi_list _ _ Hinv) Hin) as [x Hx].
  by rewrite fresh_none in Hx.
Qed.

Lemma fresh_run_used g : f <= g < f + count -> frame_used s' g = true.
Proof using Htk.
  intros Hg. rewrite (taken_used _ _ _ _ Htk).
  destruct (Z.leb_spec f g), (Z.ltb_spec g (f + count)); try lia; done.
Qed.

(** The whole run is one block. *)
Lemma fresh_whole x :
  magic x = KMALLOC_MAGIC -> size x = count * PAGE_SIZE - HEADER_SIZE -> is_u32 (size x) ->
  heap_inv (mk_heap s' (<[f * PAGE_SIZE := x]> (kh_mem h)) (free_list h)) fl.
Proof using All.
  intros Hm Hs Hu. pose proof (taken_range _ _ _ _ Htk) as Hf.
  destruct (taken_config _ _ _ _ Htk) as (Hl & _).
  constructor; simpl; [done| | |apply Hinv].
  - eapply blocks_fresh; [eapply blocks_grow; [apply Hinv|done]|exact fresh_run_used|..];
      [kh_lia|kh_lia|lia|lia|done|done|].
    intros b y Hy _. destruct (fresh_away b y Hy); kh_lia.
  - apply seg_insert; [|apply Hinv]. apply fresh_not_free. kh_lia.
Qed.

(** The run is split after [n] bytes, and the rest becomes a free block. *)
Lemma fresh_split n x y :
  0 < n -> size x = n -> magic x = KMALLOC_MAGIC -> is_u32 n ->
  HEADER_SIZE + n + HEADER_SIZE + size y = count * PAGE_SIZE -> 0 <= size y ->
  is_u32 (size y) -> magic y = KMALLOC_MAGIC -> next y = free_list h ->
  let split := f * PAGE_SIZE + HEADER_SIZE + n in
  heap_inv (mk_heap s' (<[f * PAGE_SIZE := x]> (<[split := y]> (kh_mem h))) split) (split :: fl).
Proof using All.
  intros Hn Hx Hmx Hux Hsum Hy0 Huy Hmy Hny split.
  pose proof (taken_range _ _ _ _ Htk) as Hf. destruct (taken_config _ _ _ _ Htk) as (Hl & _).
  assert (Hne : f * PAGE_SIZE <> split) by (subst split; kh_lia).
  constructor; simpl; [done| | |].
  - eapply blocks_fresh;
      [eapply blocks_fresh; [eapply blocks_grow; [apply Hinv|done]|exact fresh_run_used|..]
      |exact fresh_run_used|..]; try (subst split; kh_lia || done).
    + intros b z Hz _. destruct (fresh_away b z Hz); subst split; kh_lia.
    + intros b z. destruct (decide (split = b)) as [<-|].
      * rewrite lookup_insert_eq. intros [= <-] _. left. subst split. kh_lia.
      * rewrite lookup_insert_ne by done. intros Hz _.
        destruct (fresh_away b z Hz); kh_lia.
  - split_and!; [done|subst split; kh_lia|]. exists y.
    rewrite lookup_insert_ne, lookup_insert_eq by done. split; [done|].
    rewrite Hny. apply seg_insert; [apply fresh_not_free; kh_lia|].
    apply seg_insert; [|apply Hinv]. apply fresh_not_free. subst split. kh_lia.
  - apply NoDup_cons. split; [|apply Hinv]. apply fresh_not_free. subst split. kh_lia.
Qed.

(** A block at the start of the run answers the request. *)
Lemma fresh_result n x m' head fl' :
  heap_inv (mk_heap s' m' head) fl' -> m' !! (f * PAGE_SIZE) = Some x ->
  f * PAGE_SIZE ∉ fl' -> n <= size x -> block_end (f * PAGE_SIZE) x <= (f + count) * PAGE_SIZE ->
  (forall b y, kh_mem h !! b = Some y -> m' !! b = Some y) ->
  (forall b, b ∈ fl' -> b ∈ fl \/ f * PAGE_SIZE <= b < (f + count) * PAGE_SIZE) ->
  (forall b y, m' !! b = Some y -> kh_mem h !! b = Some y \/ (f * PAGE_SIZE <= b /\ block_end b y <= (f + count) * PAGE_SIZE)) ->
  kmalloc_result h fl n (f * PAGE_SIZE + HEADER_SIZE) (mk_heap s' m' head).
Proof using All.
  intros Hi Hx Hn Hsz He Hm Hl Hg. right. exists fl', x. rewrite Z.add_simpl_r.
  pose proof (taken_range _ _ _ _ Htk) as Hf. destruct (taken_config _ _ _ _ Htk) as (Hc & _).
  split_and!; [done|kh_lia|done|done|simpl; kh_lia|right; by exists f, count|]. intros b y [Hy Hb].
  split; [|destruct (fresh_away b y Hy); kh_lia].
  exists y. split; [split; [by apply Hm|]|done]. intros [?|Hr]%Hl; [done|].
  by rewrite fresh_none in Hy.
Qed.

Lemma fresh_whole_result n x :
  magic x = KMALLOC_MAGIC -> size x = count * PAGE_SIZE - HEADER_SIZE -> is_u32 (size x) ->
  n <= size x ->
  kmalloc_result h fl n (f * PAGE_SIZE + HEADER_SIZE)
    (mk_heap s' (<[f * PAGE_SIZE := x]> (kh_mem h)) (free_list h)).
Proof using All.
  intros Hm Hs Hu Hn. eapply fresh_result; [by apply fresh_whole|apply lookup_insert_eq|..].
  - apply fresh_not_free. kh_lia.
  - done.
  - kh_lia.
  - intros b y Hy. rewrite lookup_insert_ne; [done|]. intros <-.
    rewrite fresh_none in Hy; [done|]. kh_lia.
  - by left.
  - intros b y [[<- <-]|[_ Hy]]%lookup_insert_Some; [right; kh_lia|by left].
Qed.

Lemma fresh_split_result n x y :
  0 < n -> size x = n -> magic x = KMALLOC_MAGIC -> is_u32 n ->
  HEADER_SIZE + n + HEADER_SIZE + size y = count * PAGE_SIZE -> 0 <= size y ->
  is_u32 (size y) -> magic y = KMALLOC_MAGIC -> next y = free_list h ->
  let split := f * PAGE_SIZE + HEADER_SIZE + n in
  kmalloc_result h fl n (f * PAGE_SIZE + HEADER_SIZE)
    (mk_heap s' (<[f * PAGE_SIZE := x]> (<[split := y]> (kh_mem h))) split).
Proof using All.
  intros Hn Hx Hmx Hux Hsum Hy0 Huy Hmy Hny split.
  eapply fresh_result; [by apply fresh_split|apply lookup_insert_eq|..].
  - rewrite not_elem_of_cons. split; [subst split; kh_lia|]. apply fresh_not_free. kh_lia.
  - lia.
  - subst split. kh_lia.
  - intros b z Hz.
    assert (~ (f * PAGE_SIZE <= b < (f + count) * PAGE_SIZE))
      by (intros Hr; by rewrite fresh_none in Hz).
    rewrite !lookup_insert_ne by (subst split; kh_lia). done.
  - intros b [->|Hb]%elem_of_cons; [right; subst split; kh_lia|by left].
  - intros b z [[<- <-]|[_ [[<- <-]|[_ Hz]]%lookup_insert_Some]]%lookup_insert_Some; [right|right|by left]; subst split; kh_lia.
Qed.
End fresh_block.

(** Requests up to 4 GiB minus two pages: no size computation wraps. *)
Definition KMALLOC_LIMIT : Z := 4294959104.

Lemma kmalloc_pages n :
  0 < n <= KMALLOC_LIMIT ->
  let pages := u64 (u64 (u64 (HEADER_SIZE + n) + PAGE_SIZE) - 1) / PAGE_SIZE in
  pages = (n + 4111) / 4096 /\ 0 < pages /\
  u32 (u64 (u64 (pages * PAGE_SIZE) - HEADER_SIZE)) = pages * PAGE_SIZE - HEADER_SIZE /\
  n <= pages * PAGE_SIZE - HEADER_SIZE /\ is_u32 (pages * PAGE_SIZE - HEADER_SIZE).
Proof.
  intros Hn. unfold KMALLOC_LIMIT, HEADER_SIZE, PAGE_SIZE, is_u32 in *. cbv zeta.
  rewrite (u64_small (16 + n)), (u64_small (16 + n + 4096)), u64_small by lia.
  replace (16 + n + 4096 - 1) with (n + 4111) by lia.
  assert (0 < (n + 4111) / 4096 /\ n + 16 <= (n + 4111) / 4096 * 4096 < 4294967296)
    by (Z.to_euclidean_division_equations; lia).
  rewrite (u64_small ((n + 4111) / 4096 * 4096)), u64_small, u32_small by lia.
  split_and!; lia.
Qed.

Lemma wp_kmalloc h fl n Q :
  heap_inv h fl -> 0 < n <= KMALLOC_LIMIT ->
  (forall p h', kmalloc_result h fl n p h' -> Q p h') ->
  wp (kmalloc n) Q h.
Proof.
  intros Hinv Hn HQ. unfold kmalloc. wp_go; [apply Z.eqb_eq in E; lia|].
  eapply (wp_find_fit _ h [] _ fl); [done|apply Hinv|apply Hinv|..].
  { eapply seg_length; apply Hinv. }
  2:{ intros l1 a x l2 h' Hl Hx Hsz Hp Hs Hseg. wp_go.
      rewrite (block_u64 (kh_pmm h) (kh_mem h) a x) by (done || apply Hinv).
      apply HQ. by eapply kmalloc_reuse. }
  intros _. cbv zeta. wp_go.
  destruct (kmalloc_pages n Hn) as (Hpg & Hpos & Hsz & Hle & Hu32). rewrite Hsz.
  set (pages := u64 (u64 (u64 (HEADER_SIZE + n) + PAGE_SIZE) - 1) / PAGE_SIZE) in *.
  apply wp_lift, wp_alloc_pages; [apply Hinv|lia|].
  intros p s' [Hi' [(-> & -> & _)|(_ & f & -> & Htk)]].
  { wp_go. apply HQ. left. split; [done|]. by destruct h. }
  pose proof (taken_range _ _ _ _ Htk) as Hf.
  pose proof (wf_limit _ (hi_pmm _ _ Hinv)) as Hlim. unfold MAX_FRAMES in Hlim.
  destruct (taken_config _ _ _ _ Htk) as (Hl & _).
  wp_go; [apply Z.eqb_eq in E0; kh_lia|].
  apply wp_store; [kh_lia|]. wp_go.
  - (* split *)
    rewrite u64_small, (u32_small n), u32_small by kh_lia.
    apply wp_store; [kh_lia|]. wp_go. simpl.
    eapply wp_load; [simpl; rewrite lookup_insert_ne by kh_lia; apply lookup_insert_eq|].
    apply wp_store; [kh_lia|]. wp_go. rewrite u64_small by kh_lia. apply HQ. simpl.
    unfold set_mem, set_free_list. simpl. rewrite insert_insert_ne, insert_insert_eq, insert_insert_ne by kh_lia.
    eapply (fresh_split_result h fl s' f pages); try done; simpl; kh_lia.
  - rewrite u64_small by kh_lia. apply HQ. apply (fresh_whole_result h fl s' f pages); done.
  - rewrite u64_small by kh_lia. apply HQ. apply (fresh_whole_result h fl s' f pages); done.
Qed.

(** ** [kfree] *)

(** The block [a] is on the free list again, in front; nothing else changed. *)
Record freed (h h' : kheap) (fl : list Z) (a : Z) : Prop := mk_freed {
  fr_inv : heap_inv h' (a :: fl);
  fr_pmm : kh_pmm h' = kh_pmm h;
  fr_blocks : same_blocks (kh_mem h') (kh_mem h);
}.

Definition release (h : kheap) (a : Z) (x : kmalloc_header) : kheap :=
  mk_heap (kh_pmm h) (<[a := set_next (free_list h) x]> (kh_mem h)) a.

Lemma wp_kfree h fl a x (Q : unit -> kheap -> Prop) :
  heap_inv h fl -> allocated h fl a x ->
  (freed h (release h a x) fl a -> Q tt (release h a x)) ->
  wp (kfree (a + HEADER_SIZE)) Q h.
Proof.
  intros [Hp Hb Hl Hnd] [Hx Hn] HQ. destruct (bo_header _ _ Hb a x Hx) as (Ha & Hm & Hs & He).
  pose proof (wf_limit _ Hp) as Hlim. unfold MAX_FRAMES in Hlim.
  unfold kfree. cbv zeta. rewrite Z.add_simpl_r, u64_small by kh_lia.
  wp_go; [apply Z.eqb_eq in E; kh_lia|]. eapply wp_load; [done|].
  rewrite Hm, Z.eqb_refl. wp_go. apply wp_store; [lia|]. wp_go.
  apply HQ. constructor; simpl; [|done|by apply same_blocks_relink].
  constructor; simpl; [done| | |by apply NoDup_cons].
  - by rewrite same_blocks_relink.
  - split_and!; [done|lia|]. exists (set_next (free_list h) x).
    rewrite lookup_insert_eq. split; [done|]. by apply seg_insert.
Qed.

(** First fit takes the block at the head of the list when it is large enough. *)
Lemma kmalloc_head h fl a x n :
  heap_inv h (a :: fl) -> kh_mem h !! a = Some x -> 0 < n <= size x ->
  kmalloc n h = Done (a + HEADER_SIZE)
    (mk_heap (kh_pmm h) (<[a := set_next 0 x]> (kh_mem h)) (next x)).
Proof.
  intros [Hp Hb (Hfl & Ha & _) _] Hx Hn.
  assert (Hsz : exists k, base.size (kh_mem h) = S k).
  { destruct (base.size (kh_mem h)) eqn:E; [|eauto]. apply map_size_empty_inv in E.
    by rewrite E in Hx. }
  destruct Hsz as [k Hk].
  unfold kmalloc, mbind, M_bind, gets, mret, M_ret. destruct (Z.eqb_spec n 0); [lia|].
  rewrite Hk, Hfl. simpl. unfold mbind, M_bind, load, store, modify, mret, M_ret.
  destruct (Z.eqb_spec a 0); [done|]. rewrite Hx.
  destruct (Z.leb_spec n (size x)); [|lia]. simpl. rewrite Hx.
  by rewrite (block_u64 (kh_pmm h) (kh_mem h) a x).
Qed.

(** ** The heap as an implementation of [KHeap] *)

Lemma seg_det mem p l l' : seg mem p l 0 -> seg mem p l' 0 -> l = l'.
Proof.
  revert p l'. induction l as [|a l IH]; intros p [|b l']; simpl; [done|..].
  - by intros -> (<- & ? & _).
  - by intros (-> & ? & _) ->.
  - intros (-> & _ & x & Hx & Hs) (-> & _ & y & Hy & Hs'). simplify_eq. f_equal. by eapply IH.
Qed.

Definition in_order (h : kheap) : Prop := exists fl, heap_inv h fl.

(** Before any request. *)
Lemma empty_heap p : Pmm.inv p -> heap_inv (mk_heap p ∅ 0) [].
Proof. intros Hp. constructor; [exact Hp|by constructor|done|constructor]. Qed.

Lemma empty_in_order p : Pmm.inv p -> in_order (mk_heap p ∅ 0).
Proof. intros Hp. exists []. by apply empty_heap. Qed.
Definition owned (h : kheap) (p n : Z) : Prop :=
  exists fl x, heap_inv h fl /\ allocated h fl (p - HEADER_SIZE) x /\ n <= size x.

Lemma wp_malloc_grown h n (Q : Z -> kheap -> Prop) :
  in_order h -> 0 < n <= KMALLOC_LIMIT -> Q 0 h ->
  (forall p h', in_order h' -> 0 < p -> p + n < 2 ^ 63 -> owned h' p n -> grown h h' ->
     (forall q m, owned h q m -> owned h' q m /\ (p + n <= q \/ q + m <= p)) -> Q p h') ->
  wp (kmalloc n) Q h.
Proof.
  intros [fl Hi] Hn H0 HQ. eapply wp_kmalloc; [done|done|].
  intros p h' [[-> ->]|(fl' & x & Hi' & Hp & Hx & Hsz & He & Hg & Hk)]; [done|].
  pose proof (wf_limit _ (hi_pmm _ _ Hi')) as Hlim. unfold MAX_FRAMES in Hlim.
  apply HQ; [by exists fl'|kh_lia|kh_lia|by exists fl', x|done|].
  intros q m (fl2 & y & Hi2 & Hy & Hm).
  rewrite (seg_det _ _ _ _ (hi_list _ _ Hi2) (hi_list _ _ Hi)) in Hy.
  destruct (Hk _ _ Hy) as ((y' & Hy' & Hsy) & Hd). split; [|kh_lia].
  exists fl', y'. rewrite Hsy. done.
Qed.

Lemma wp_free_same h p n (Q : unit -> kheap -> Prop) :
  owned h p n ->
  (forall h', in_order h' -> kh_pmm h' = kh_pmm h -> same_blocks (kh_mem h') (kh_mem h) ->
     (forall q m, owned h q m -> q <> p -> owned h' q m) -> Q tt h') ->
  wp (kfree p) Q h.
Proof.
  intros (fl & x & Hi & Hx & Hn) HQ. rewrite <- (Z.sub_simpl_r p HEADER_SIZE).
  eapply wp_kfree; [done|done|]. intros [Hi' Hp Hs]. apply HQ; [by eexists|done|done|].
  intros q m (fl2 & y & Hi2 & [Hy Hny] & Hm) Hq.
  rewrite (seg_det _ _ _ _ (hi_list _ _ Hi2) (hi_list _ _ Hi)) in Hny.
  symmetry in Hs. destruct (same_blocks_lookup _ _ _ _ Hs Hy) as (y' & Hy' & Hsz & _).
  eexists _, y'. split; [done|]. rewrite Hsz. split; [|done]. split; [done|].
  rewrite not_elem_of_cons. split; [lia|done].
Qed.

#[local] Obligation Tactic := idtac.
#[export] Program Instance kheap_KHeap : KHeap kheap := {
  malloc := kmalloc; free := kfree; heap_ok := in_order; owns := owned; malloc_limit := KMALLOC_LIMIT;
}.
Next Obligation. unfold KMALLOC_LIMIT. lia. Qed.
Next Obligation. intros h n Q Hi Hn H0 HQ. apply wp_malloc_grown; [done..|]. auto. Qed.
Next Obligation. intros h p n Q _ Ho HQ. eapply wp_free_same; [done|]. auto. Qed.

(** *** Memory that the heap stays away from

    When the frames of a range are in use and no block lies in it, no block ever
    will. *)

Record avoids (lo hi : Z) (h : kheap) : Prop := mk_avoids {
  av_used f : touches lo (hi - lo) f = true -> frame_used (kh_pmm h) f = true;
  av_blocks a x : kh_mem h !! a = Some x -> block_end a x <= lo \/ hi <= a;
}.

Lemma grown_avoids lo hi h h' : lo < hi -> avoids lo hi h -> in_order h' -> grown h h' -> avoids lo hi h'.
Proof.
  intros Hlh [Hu Hb] [fl Hi] [[Ep Es]|(f & n & Hn & Ht & Hg)]; split.
  - by rewrite Ep.
  - intros a x Hx. destruct (same_blocks_lookup _ _ _ _ Es Hx) as (y & Hy & Hsz & _). specialize (Hb a y Hy). kh_lia.
  - intros g Hgt. rewrite (taken_used _ _ _ _ Ht), (Hu g Hgt). apply orb_true_r.
  - intros a x Hx. destruct (Hg a x Hx) as [Hold|[Ha He]]; [by apply Hb|].
    destruct (bo_header _ _ (hi_blocks _ _ Hi) a x Hx) as (_ & _ & Hsx & _).
    destruct (decide (block_end a x <= lo)) as [|H1]; [by left|]. destruct (decide (hi <= a)) as [|H2]; [by right|]. exfalso.
    assert (Hm : exists m, lo <= m < hi /\ f * PAGE_SIZE <= m < (f + n) * PAGE_SIZE) by (exists (Z.max lo a); kh_lia).
    destruct Hm as (m & Hm1 & Hm2). assert (Hf : frame_used (kh_pmm h) (m / PAGE_SIZE) = true).
    { apply Hu. unfold touches. apply andb_true_iff. rewrite !Z.ltb_lt. kh_lia. }
    rewrite (taken_free _ _ _ _ Ht) in Hf; [done|]. kh_lia.
Qed.

Lemma owned_away lo hi h p n : avoids lo hi h -> owned h p n -> p + n <= lo \/ hi <= p.
Proof. intros [_ Hb] (fl & x & Hi & [Hx _] & Hn). specialize (Hb _ _ Hx). kh_lia. Qed.

Program Definition kheap_off (lo hi : Z) (Hlh : lo < hi) : KHeap kheap := {|
  malloc := kmalloc; free := kfree; heap_ok h := in_order h /\ avoids lo hi h;
  owns h p n := owned h p n /\ (p + n <= lo \/ hi <= p); malloc_limit := KMALLOC_LIMIT;
|}.
Next Obligation. intros. unfold KMALLOC_LIMIT. lia. Qed.
Next Obligation.
  intros lo hi Hlh h n Q [Hi Ha] Hn H0 HQ. apply wp_malloc_grown; [done..|]. intros p h' Hi' Hp Hp2 Ho Hg Hk.
  assert (Ha' : avoids lo hi h') by (by eapply grown_avoids). apply HQ; [done|done|done| |].
  - split; [done|by eapply owned_away].
  - intros q m [Hq Hqa]. destruct (Hk q m Hq) as [Hq' Hd]. done.
Qed.
Next Obligation.
  intros lo hi Hlh h p n Q [Hi Ha] [Ho _] HQ. eapply wp_free_same; [done|]. intros h' Hi' Ep Es Hk. apply HQ.
  - split; [done|]. apply (grown_avoids lo hi h); [done|done|done|by left].
  - intros q m [Hq Hqa] Hne. split; [by apply Hk|done].
Qed.

(** ** Properties *)

(** A heap over the two-megabyte machine of the page allocator, before any
    request, and after one of 100 bytes. *)
Definition heap0 : kheap := mk_heap Pmm.demo ∅ 0.
Definition heap1 : kheap := Eval vm_compute in
  match kmalloc 100 heap0 with Done _ h => h | Stuck _ => heap0 end.
Definition block1 : Z := Eval vm_compute in
  match kmalloc 100 heap0 with Done p _ => p - HEADER_SIZE | Stuck _ => 0 end.

Lemma heap0_inv : heap_inv heap0 [].
Proof. apply empty_heap, demo_inv. Qed.

Lemma heap1_inv :
  exists fl x, heap_inv heap1 fl /\ allocated heap1 fl block1 x /\ size x = 100.
Proof.
  assert (H : wp (kmalloc 100) (fun p h => h = heap1 /\ p = block1 + HEADER_SIZE) heap0)
    by (vm_compute; done).
  assert (H' : wp (kmalloc 100) (kmalloc_result heap0 [] 100) heap0).
  { apply (wp_kmalloc heap0 []); [exact heap0_inv|unfold KMALLOC_LIMIT; lia|done]. }
  unfold wp in H, H'. destruct (kmalloc 100 heap0) as [p h|]; [|done]. destruct H as [-> ->].
  destruct H' as [[? _]|(fl & x & Hi & _ & Hx & Hs & _)]; [done|].
  rewrite Z.add_simpl_r in Hx. exists fl, x. split_and!; [done|done|].
  destruct Hx as [Hx _]. vm_compute in Hx. by injection Hx as <-.
Qed.

(** C2: [kmalloc] is sound.  On a heap that satisfies the invariant, for every
    request of up to 4 GiB less two pages it terminates and follows no bad
    pointer; it answers null and leaves the heap unchanged, or the address of a
    block of at least the requested size, inside frames the page allocator has
    handed out, that overlaps no block in use; every block in use stays in use
    with its size, and the invariant holds again. *)
Theorem kmalloc_spec h fl n :
  heap_inv h fl -> 0 < n <= KMALLOC_LIMIT -> wp (kmalloc n) (kmalloc_result h fl n) h.
Proof. intros. by eapply wp_kmalloc. Qed.

Lemma kmalloc_witness :
  heap_inv heap0 [] /\ wp (kmalloc 100) (kmalloc_result heap0 [] 100) heap0.
Proof.
  split; [exact heap0_inv|].
  apply (kmalloc_spec heap0 [] 100); [exact heap0_inv|unfold KMALLOC_LIMIT; lia].
Defined.

(** Freeing and allocating again.  [kfree] of a block in use puts it in front
    of the free list, keeps the invariant and every other block; the next request
    of no more than the block's size is answered with that very block, takes no
    page, and gives back the free list and the blocks as they were. *)
Theorem kfree_kmalloc_reuse h fl a x n :
  heap_inv h fl -> allocated h fl a x -> 0 < n <= size x ->
  wp (kfree (a + HEADER_SIZE)) (fun _ h1 =>
    freed h h1 fl a /\
    wp (kmalloc n) (fun p h2 =>
      p = a + HEADER_SIZE /\ heap_inv h2 fl /\ kh_pmm h2 = kh_pmm h /\
      free_list h2 = free_list h /\ same_blocks (kh_mem h2) (kh_mem h)) h1) h.
Proof.
  intros Hi [Hx Ha] Hn. eapply wp_kfree; [done|done|]. intros Hf. split; [done|].
  pose proof (fr_inv _ _ _ _ Hf) as Hi1.
  assert (Hx1 : kh_mem (release h a x) !! a = Some (set_next (free_list h) x))
    by apply lookup_insert_eq.
  eapply wp_run; [eapply kmalloc_head; [done|done|done]|]. simpl.
  assert (Hs : same_blocks (<[a := set_next 0 (set_next (free_list h) x)]>
    (<[a := set_next (free_list h) x]> (kh_mem h))) (kh_mem h)).
  { rewrite insert_insert_eq. by apply (same_blocks_relink _ _ x 0). }
  split_and!; [done| |done|done|done]. destruct Hi as [Hp Hb Hl Hnd].
  constructor; simpl; [done|by rewrite Hs| |done].
  apply seg_insert; [done|]. by apply seg_insert.
Qed.

Lemma kfree_kmalloc_witness :
  exists fl x, heap_inv heap1 fl /\ allocated heap1 fl block1 x /\ 0 < 64 <= size x /\
  wp (kfree (block1 + HEADER_SIZE)) (fun _ h1 =>
    freed heap1 h1 fl block1 /\
    wp (kmalloc 64) (fun p h2 =>
      p = block1 + HEADER_SIZE /\ heap_inv h2 fl /\ kh_pmm h2 = kh_pmm heap1 /\
      free_list h2 = free_list heap1 /\ same_blocks (kh_mem h2) (kh_mem heap1)) h1) heap1.
Proof.
  destruct heap1_inv as (fl & x & Hi & Hx & Hs). exists fl, x.
  split; [exact Hi|]. split; [exact Hx|]. split; [lia|].
  apply (kfree_kmalloc_reuse heap1 fl block1 x 64); [exact Hi|exact Hx|lia].
Defined.

(** A request within 15 bytes of [SIZE_MAX] is answered.  The addition of
    the header size wraps to a small number, so whenever one page is free
    [kmalloc] returns a non-null pointer to a block of 4080 bytes for it. *)
Theorem kmalloc_size_wraps h fl n :
  heap_inv h fl -> UINT64_MAX - 14 <= n <= UINT64_MAX ->
  (exists f, free_run (kh_pmm h) f 1) ->
  wp (kmalloc n) (fun p h' => p <> 0 /\ exists x,
    kh_mem h' !! (p - HEADER_SIZE) = Some x /\ size x = 4080) h.
Proof.
  intros Hinv Hn Hrun. unfold UINT64_MAX in Hn.
  assert (Ht : u64 (HEADER_SIZE + n) = n - 18446744073709551600).
  { unfold u64, HEADER_SIZE. rewrite <- (Z_mod_plus_full _ (-1)), Z.mod_small; lia. }
  assert (Hpg : u64 (u64 (u64 (HEADER_SIZE + n) + PAGE_SIZE) - 1) / PAGE_SIZE = 1).
  { rewrite Ht, (u64_small (_ + _)), u64_small by kh_lia. kh_lia. }
  unfold kmalloc. wp_go; [apply Z.eqb_eq in E; lia|].
  eapply (wp_find_fit _ h [] _ fl); [done|apply Hinv|apply Hinv|..].
  { eapply seg_length; apply Hinv. }
  2:{ intros l1 a x l2 h' _ Hx Hsz _ _ _. exfalso.
      destruct (bo_header _ _ (hi_blocks _ _ Hinv) a x Hx) as (_ & _ & ? & _). kh_lia. }
  intros _. cbv zeta. rewrite Hpg. wp_go. apply wp_lift, wp_alloc_pages; [apply Hinv|lia|].
  intros p s' [Hi' [(-> & -> & [?|[]])|(_ & f & -> & Htk)]]; [done|done|].
  pose proof (taken_range _ _ _ _ Htk) as Hf.
  pose proof (wf_limit _ (hi_pmm _ _ Hinv)) as Hlim. unfold MAX_FRAMES in Hlim.
  change (u32 (u64 (u64 (1 * PAGE_SIZE) - HEADER_SIZE))) with 4080.
  wp_go; [apply Z.eqb_eq in E0; kh_lia|]. apply wp_store; [kh_lia|].
  destruct (Z.ltb_spec n 4080); [lia|]. wp_go. rewrite u64_small by kh_lia.
  split; [kh_lia|]. rewrite Z.add_simpl_r. eexists. split; [apply lookup_insert_eq|done].
Qed.

Lemma kmalloc_size_wraps_witness :
  heap_inv heap0 [] /\ wp (kmalloc UINT64_MAX) (fun p h' => p <> 0 /\ exists x,
    kh_mem h' !! (p - HEADER_SIZE) = Some x /\ size x = 4080) heap0.
Proof.
  split; [exact heap0_inv|].
  apply (kmalloc_size_wraps heap0 [] UINT64_MAX); [exact heap0_inv|unfold UINT64_MAX; lia|].
  exists 300. unfold free_run. split; [lia|]. split; [vm_compute; discriminate|].
  intros g Hg. assert (g = 300) as -> by lia. vm_compute. reflexivity.
Defined.

End Kheap.
