(* ===== verification/Task.v ===== *)
(** * Tasks ([include/nm/proc.h], [kernel/proc/task.c])

    The task table, kernel threads, fork, exec, exit and wait.  A [struct
    nm_task *] is the index of its slot in [task_table], the null pointer is
    [None].  The kernel heap that holds the stacks is a parameter of the file, a
    [KHeap]. *)

From S2P Require Import Prelude Interfaces Kheap.
From Stdlib Require Import String.

Module Task.

Definition NM_MAX_FDS : Z := 32.
Definition NM_TASK_NAME_MAX : Z := 24.
Definition NM_MAX_TASKS : Z := 128.
Definition KSTACK_SIZE : Z := 8192.

Inductive nm_task_state :=
| NM_TASK_UNUSED | NM_TASK_RUNNABLE | NM_TASK_RUNNING | NM_TASK_SLEEPING | NM_TASK_ZOMBIE.

#[export] Instance nm_task_state_eq_dec : EqDecision nm_task_state.
Proof. solve_decision. Defined.

Record nm_regs := mk_regs {
  r15 : Z;
  r14 : Z;
  r13 : Z;
  r12 : Z;
  r11 : Z;
  r10 : Z;
  r9 : Z;
  r8 : Z;
  rsi : Z;
  rdi : Z;
  rbp : Z;
  rdx : Z;
  rcx : Z;
  rbx : Z;
  rax : Z;
  rip : Z;
  rflags : Z;
  rsp : Z;
}.

Definition set_rdi v r := mk_regs (r15 r) (r14 r) (r13 r) (r12 r) (r11 r) (r10 r) (r9 r) (r8 r)
  (rsi r) v (rbp r) (rdx r) (rcx r) (rbx r) (rax r) (rip r) (rflags r) (rsp r).
Definition set_rsi v r := mk_regs (r15 r) (r14 r) (r13 r) (r12 r) (r11 r) (r10 r) (r9 r) (r8 r) v
  (rdi r) (rbp r) (rdx r) (rcx r) (rbx r) (rax r) (rip r) (rflags r) (rsp r).
Definition set_rdx v r := mk_regs (r15 r) (r14 r) (r13 r) (r12 r) (r11 r) (r10 r) (r9 r) (r8 r)
  (rsi r) (rdi r) (rbp r) v (rcx r) (rbx r) (rax r) (rip r) (rflags r) (rsp r).
Definition set_rip v r := mk_regs (r15 r) (r14 r) (r13 r) (r12 r) (r11 r) (r10 r) (r9 r) (r8 r)
  (rsi r) (rdi r) (rbp r) (rdx r) (rcx r) (rbx r) (rax r) v (rflags r) (rsp r).
Definition set_rsp v r := mk_regs (r15 r) (r14 r) (r13 r) (r12 r) (r11 r) (r10 r) (r9 r) (r8 r)
  (rsi r) (rdi r) (rbp r) (rdx r) (rcx r) (rbx r) (rax r) (rip r) (rflags r) v.
Definition set_rax v r := mk_regs (r15 r) (r14 r) (r13 r) (r12 r) (r11 r) (r10 r) (r9 r) (r8 r)
  (rsi r) (rdi r) (rbp r) (rdx r) (rcx r) (rbx r) v (rip r) (rflags r) (rsp r).

Record nm_sched_param := mk_sched {
  priority : Z;
  timeslice_ticks : Z;
  vruntime : Z;
  rr_budget : Z;
}.

Definition set_priority v r := mk_sched v (timeslice_ticks r) (vruntime r) (rr_budget r).
Definition set_timeslice_ticks v r := mk_sched (priority r) v (vruntime r) (rr_budget r).
Definition set_vruntime v r := mk_sched (priority r) (timeslice_ticks r) v (rr_budget r).
Definition set_rr_budget v r := mk_sched (priority r) (timeslice_ticks r) (vruntime r) v.

Record nm_task := mk_task {
  pid : Z;
  ppid : Z;
  is_kernel_thread : bool;
  state : nm_task_state;
  regs : nm_regs;
  cr3 : Z;
  fd_table : list Z;
  fd_cloexec_mask : Z;
  signal_mask : Z;
  exit_code : Z;
  argc : Z;
  envc : Z;
  sched : nm_sched_param;
  kernel_stack_top : Z;
  saved_rsp : Z;
  entry_name : Z;
  name : list Z;
}.

Definition set_pid v t := mk_task v (ppid t) (is_kernel_thread t) (state t) (regs t) (cr3 t)
  (fd_table t) (fd_cloexec_mask t) (signal_mask t) (exit_code t) (argc t) (envc t) (sched t)
  (kernel_stack_top t) (saved_rsp t) (entry_name t) (name t).
Definition set_ppid v t := mk_task (pid t) v (is_kernel_thread t) (state t) (regs t) (cr3 t)
  (fd_table t) (fd_cloexec_mask t) (signal_mask t) (exit_code t) (argc t) (envc t) (sched t)
  (kernel_stack_top t) (saved_rsp t) (entry_name t) (name t).
Definition set_is_kernel_thread v t := mk_task (pid t) (ppid t) v (state t) (regs t) (cr3 t)
  (fd_table t) (fd_cloexec_mask t) (signal_mask t) (exit_code t) (argc t) (envc t) (sched t)
  (kernel_stack_top t) (saved_rsp t) (entry_name t) (name t).
Definition set_state v t := mk_task (pid t) (ppid t) (is_kernel_thread t) v (regs t) (cr3 t)
  (fd_table t) (fd_cloexec_mask t) (signal_mask t) (exit_code t) (argc t) (envc t) (sched t)
  (kernel_stack_top t) (saved_rsp t) (entry_name t) (name t).
Definition set_regs v t := mk_task (pid t) (ppid t) (is_kernel_thread t) (state t) v (cr3 t)
  (fd_table t) (fd_cloexec_mask t) (signal_mask t) (exit_code t) (argc t) (envc t) (sched t)
  (kernel_stack_top t) (saved_rsp t) (entry_name t) (name t).
Definition set_fd_table v t := mk_task (pid t) (ppid t) (is_kernel_thread t) (state t) (regs t)
  (cr3 t) v (fd_cloexec_mask t) (signal_mask t) (exit_code t) (argc t) (envc t) (sched t)
  (kernel_stack_top t) (saved_rsp t) (entry_name t) (name t).
Definition set_fd_cloexec_mask v t := mk_task (pid t) (ppid t) (is_kernel_thread t) (state t)
  (regs t) (cr3 t) (fd_table t) v (signal_mask t) (exit_code t) (argc t) (envc t) (sched t)
  (kernel_stack_top t) (saved_rsp t) (entry_name t) (name t).
Definition set_exit_code v t := mk_task (pid t) (ppid t) (is_kernel_thread t) (state t) (regs t)
  (cr3 t) (fd_table t) (fd_cloexec_mask t) (signal_mask t) v (argc t) (envc t) (sched t)
  (kernel_stack_top t) (saved_rsp t) (entry_name t) (name t).
Definition set_argc v t := mk_task (pid t) (ppid t) (is_kernel_thread t) (state t) (regs t)
  (cr3 t) (fd_table t) (fd_cloexec_mask t) (signal_mask t) (exit_code t) v (envc t) (sched t)
  (kernel_stack_top t) (saved_rsp t) (entry_name t) (name t).
Definition set_envc v t := mk_task (pid t) (ppid t) (is_kernel_thread t) (state t) (regs t)
  (cr3 t) (fd_table t) (fd_cloexec_mask t) (signal_mask t) (exit_code t) (argc t) v (sched t)
  (kernel_stack_top t) (saved_rsp t) (entry_name t) (name t).
Definition set_sched v t := mk_task (pid t) (ppid t) (is_kernel_thread t) (state t) (regs t)
  (cr3 t) (fd_table t) (fd_cloexec_mask t) (signal_mask t) (exit_code t) (argc t) (envc t) v
  (kernel_stack_top t) (saved_rsp t) (entry_name t) (name t).
Definition set_kernel_stack_top v t := mk_task (pid t) (ppid t) (is_kernel_thread t) (state t)
  (regs t) (cr3 t) (fd_table t) (fd_cloexec_mask t) (signal_mask t) (exit_code t) (argc t)
  (envc t) (sched t) v (saved_rsp t) (entry_name t) (name t).
Definition set_saved_rsp v t := mk_task (pid t) (ppid t) (is_kernel_thread t) (state t) (regs t)
  (cr3 t) (fd_table t) (fd_cloexec_mask t) (signal_mask t) (exit_code t) (argc t) (envc t)
  (sched t) (kernel_stack_top t) v (entry_name t) (name t).
Definition set_entry_name v t := mk_task (pid t) (ppid t) (is_kernel_thread t) (state t) (regs t)
  (cr3 t) (fd_table t) (fd_cloexec_mask t) (signal_mask t) (exit_code t) (argc t) (envc t)
  (sched t) (kernel_stack_top t) (saved_rsp t) v (name t).
Definition set_name v t := mk_task (pid t) (ppid t) (is_kernel_thread t) (state t) (regs t)
  (cr3 t) (fd_table t) (fd_cloexec_mask t) (signal_mask t) (exit_code t) (argc t) (envc t)
  (sched t) (kernel_stack_top t) (saved_rsp t) (entry_name t) v.

(** The static data of [task.c], with the words written to the kernel stacks and
    the kernel heap. *)
Record proc (H : Type) := mk_proc {
  task_table : list nm_task;
  task_used : Z;
  next_pid : Z;
  current_task : option Z;
  proc_lock_word : Z;
  stack_mem : gmap Z Z;
  proc_heap : H;
}.
Arguments mk_proc {H} _ _ _ _ _ _ _.
Arguments task_table {H} _.
Arguments task_used {H} _.
Arguments next_pid {H} _.
Arguments current_task {H} _.
Arguments proc_lock_word {H} _.
Arguments stack_mem {H} _.
Arguments proc_heap {H} _.

Definition is_state (st : nm_task_state) (t : nm_task) : bool := bool_decide (state t = st).
Definition live (t : nm_task) : bool := negb (is_state NM_TASK_UNUSED t).

(** The number of pointers before the null pointer, at most 64. *)
Definition count_ptr_vector (vec : option ptrvec) : Z :=
  match vec with
  | None => 0
  | Some v => Z.min 64 (zlen (vec_ptrs v))
  end.

Definition vec_ptr (vec : option ptrvec) : Z :=
  match vec with
  | None => 0
  | Some v => vec_addr v
  end.

Definition name_ptr (n : option cstring) : Z :=
  match n with
  | None => 0
  | Some c => cs_addr c
  end.

Section ops.
Context {H : Type} `{KHeap H}.
Context (nm_kthread_trampoline : Z).

Definition set_table v (p : proc H) := mk_proc v (task_used p) (next_pid p) (current_task p)
  (proc_lock_word p) (stack_mem p) (proc_heap p).
Definition set_used v (p : proc H) := mk_proc (task_table p) v (next_pid p) (current_task p)
  (proc_lock_word p) (stack_mem p) (proc_heap p).
Definition set_next_pid v (p : proc H) := mk_proc (task_table p) (task_used p) v (current_task p)
  (proc_lock_word p) (stack_mem p) (proc_heap p).
Definition set_current v (p : proc H) := mk_proc (task_table p) (task_used p) (next_pid p) v
  (proc_lock_word p) (stack_mem p) (proc_heap p).
Definition set_proc_lock v (p : proc H) := mk_proc (task_table p) (task_used p) (next_pid p)
  (current_task p) v (stack_mem p) (proc_heap p).
Definition set_stack_mem v (p : proc H) := mk_proc (task_table p) (task_used p) (next_pid p)
  (current_task p) (proc_lock_word p) v (proc_heap p).
Definition set_heap (v : H) (p : proc H) := mk_proc (task_table p) (task_used p) (next_pid p)
  (current_task p) (proc_lock_word p) (stack_mem p) v.

Definition proc_lock : M (proc H) unit := fun p =>
  if proc_lock_word p =? 0 then Done tt (set_proc_lock 1 p) else Stuck LockHeld.
Definition proc_unlock : M (proc H) unit := modify (set_proc_lock 0).

Definition get_task (i : Z) : M (proc H) nm_task := rd task_table i.
Definition put_task (i : Z) (t : nm_task) : M (proc H) unit := wr task_table set_table i t.
Definition mod_task (i : Z) (f : nm_task -> nm_task) : M (proc H) unit :=
  modify_at task_table set_table i f.

Definition alloc_task_slot : M (proc H) (option Z) :=
  gets (fun p => find_idx (is_state NM_TASK_UNUSED) (take (Z.to_nat NM_MAX_TASKS) (task_table p))).

Definition alloc_task_stack : M (proc H) Z := lift_to proc_heap set_heap (malloc KSTACK_SIZE).
Definition kfree_stack (kstack : Z) : M (proc H) unit := lift_to proc_heap set_heap (free kstack).

(** [next_pid++]: the increment of an [int32_t]. *)
Definition take_pid : M (proc H) Z :=
  n ← gets next_pid;
  if n =? INT32_MAX then stuck SignedOverflow else
  modify (set_next_pid (n + 1)) ;; mret n.

(** [*(--sp) = v]: the new stack pointer. *)
Definition push (sp v : Z) : M (proc H) Z :=
  let sp' := u64 (sp - 8) in
  modify (fun p => set_stack_mem (<[sp' := v]> (stack_mem p)) p) ;; mret sp'.

Definition set_budget0 (t : nm_task) : nm_task := set_sched (set_rr_budget 0 (sched t)) t.

Definition reset_slot (t : nm_task) : nm_task :=
  set_saved_rsp 0 (set_budget0 (set_envc 0 (set_argc 0 (set_exit_code 0
    (set_fd_cloexec_mask 0 (set_pid 0 (set_state NM_TASK_UNUSED t))))))).

(** The fields common to the bootstrap task and a new kernel thread. *)
Definition fresh_fields (st : nm_task_state) (t : nm_task) : nm_task :=
  set_envc 0 (set_argc 0 (set_exit_code 0 (set_fd_cloexec_mask 0
    (set_sched (mk_sched 20 4 0 0) (set_state st (set_is_kernel_thread true t)))))).

Definition no_fds (t : nm_task) : nm_task :=
  set_fd_table (replicate (Z.to_nat NM_MAX_FDS) (-1)) t.

Definition proc_init : M (proc H) unit :=
  modify (set_proc_lock 0) ;;
  proc_lock ;;
  for_all (upto 0 NM_MAX_TASKS) (fun i => mod_task i reset_slot) ;;
  modify (set_used 0) ;;
  modify (set_next_pid 1) ;;
  modify (set_current None) ;;
  bootstrap ← alloc_task_slot;
  match bootstrap with
  | None => mret tt
  | Some b =>
      n ← take_pid;
      mod_task b (fun t => set_saved_rsp 0 (fresh_fields NM_TASK_RUNNING
        (set_ppid 0 (set_pid n t)))) ;;
      mod_task b (fun t =>
        set_name (copy_name (name t) (Some (mk_cstr 0 (chars "bootstrap"))) NM_TASK_NAME_MAX) t) ;;
      mod_task b no_fds ;;
      modify (set_used 1) ;;
      modify (set_current (Some b)) ;;
      proc_unlock
  end.

(** The words below [top] that the first switch to a new thread consumes. *)
Definition thread_frame (top entry arg : Z) : M (proc H) Z :=
  sp ← push (Z.land top (u64 (Z.lnot 15))) arg;
  sp ← push sp entry;
  sp ← push sp nm_kthread_trampoline;
  sp ← push sp 0;
  sp ← push sp 0;
  sp ← push sp 0;
  sp ← push sp 0;
  sp ← push sp 0;
  push sp 0.

Definition task_create_kernel_thread (nm : option cstring) (entry arg : Z) :
    M (proc H) (option Z) :=
  kstack ← alloc_task_stack;
  if kstack =? 0 then mret None else
  proc_lock ;;
  slot ← alloc_task_slot;
  match slot with
  | None => proc_unlock ;; kfree_stack kstack ;; mret None
  | Some t =>
      n ← take_pid;
      mod_task t (set_pid n) ;;
      cur ← gets current_task;
      parent ← match cur with
               | Some c => x ← get_task c; mret (pid x)
               | None => mret 0
               end;
      let top := u64 (kstack + KSTACK_SIZE) in
      mod_task t (fun x => set_kernel_stack_top top
        (fresh_fields NM_TASK_RUNNABLE (set_ppid parent x))) ;;
      sp ← thread_frame top entry arg;
      mod_task t (fun x => set_entry_name (name_ptr nm)
        (set_regs (set_rip entry (set_rsp top (regs x))) (set_saved_rsp sp x))) ;;
      mod_task t (fun x => set_name (copy_name (name x) nm NM_TASK_NAME_MAX) x) ;;
      mod_task t no_fds ;;
      modify (fun p => set_used (u64 (task_used p + 1)) p) ;;
      proc_unlock ;;
      mret (Some t)
  end.

Definition task_current : M (proc H) (option Z) :=
  proc_lock ;; t ← gets current_task; proc_unlock ;; mret t.

Definition task_by_pid (n : Z) : M (proc H) (option Z) :=
  proc_lock ;;
  r ← gets (fun p => find_idx (fun t => live t && (pid t =? n))
    (take (Z.to_nat NM_MAX_TASKS) (task_table p)));
  proc_unlock ;; mret r.

Definition task_by_index (index : Z) : M (proc H) (option Z) :=
  proc_lock ;;
  if NM_MAX_TASKS <=? index then proc_unlock ;; mret None else
  t ← get_task index;
  if is_state NM_TASK_UNUSED t then proc_unlock ;; mret None else
  proc_unlock ;; mret (Some index).

Definition task_count : M (proc H) Z :=
  proc_lock ;; n ← gets task_used; proc_unlock ;; mret n.

Definition nm_set_current_task (task : option Z) : M (proc H) unit :=
  proc_lock ;; modify (set_current task) ;; proc_unlock.

Definition proc_set_current (task : option Z) : M (proc H) unit :=
  proc_lock ;; modify (set_current task) ;; proc_unlock.

Definition proc_fork_current : M (proc H) (option Z) :=
  proc_lock ;;
  cur ← gets current_task;
  match cur with
  | None => proc_unlock ;; mret None
  | Some _ =>
      slot ← alloc_task_slot;
      match slot with
      | None => proc_unlock ;; mret None
      | Some child =>
          proc_unlock ;;
          kstack ← alloc_task_stack;
          if kstack =? 0 then mret None else
          proc_lock ;;
          cur ← gets current_task;
          x ← get_task child;
          match cur with
          | Some c =>
              if negb (is_state NM_TASK_UNUSED x)
              then proc_unlock ;; kfree_stack kstack ;; mret None else
              parent ← get_task c;
              put_task child parent ;;
              n ← take_pid;
              mod_task child (set_pid n) ;;
              parent ← get_task c;
              mod_task child (set_ppid (pid parent)) ;;
              let top := u64 (kstack + KSTACK_SIZE) in
              mod_task child (fun t =>
                set_saved_rsp top (set_regs (set_rax 0 (set_rsp top (regs t)))
                  (set_kernel_stack_top top (set_budget0
                    (set_exit_code 0 (set_state NM_TASK_RUNNABLE t)))))) ;;
              modify (fun p => set_used (u64 (task_used p + 1)) p) ;;
              proc_unlock ;;
              mret (Some child)
          | None => proc_unlock ;; kfree_stack kstack ;; mret None
          end
      end
  end.

Definition proc_exec_current (nm : option cstring) (entry : Z) (argv envp : option ptrvec) :
    M (proc H) Z :=
  proc_lock ;;
  cur ← gets current_task;
  match cur, nm with
  | Some c, Some nmv =>
      mod_task c (set_entry_name (cs_addr nmv)) ;;
      mod_task c (fun t => set_name (copy_name (name t) nm NM_TASK_NAME_MAX) t) ;;
      mod_task c (fun t => set_envc (count_ptr_vector envp) (set_argc (count_ptr_vector argv) t)) ;;
      mod_task c (fun t => set_regs (set_rdx (vec_ptr envp) (set_rsi (vec_ptr argv)
        (set_rdi (argc t) (regs t)))) t) ;;
      (if negb (entry =? 0) then mod_task c (fun t => set_regs (set_rip entry (regs t)) t)
       else mret tt) ;;
      proc_unlock ;;
      mret 0
  | _, _ => proc_unlock ;; mret (NM_ERR NM_EFAIL)
  end.

Definition proc_exit_current (code : Z) : M (proc H) unit :=
  proc_lock ;;
  cur ← gets current_task;
  match cur with
  | None => proc_unlock
  | Some c =>
      mod_task c (fun t => set_state NM_TASK_ZOMBIE (set_exit_code code t)) ;;
      proc_unlock
  end.

(** The children [proc_waitpid] may reap. *)
Definition reapable (parent want : Z) (t : nm_task) : bool :=
  is_state NM_TASK_ZOMBIE t && (ppid t =? parent) && negb ((0 <? want) && negb (pid t =? want)).

Definition reap (t : nm_task) : nm_task :=
  set_exit_code 0 (set_fd_cloexec_mask 0 (set_ppid 0 (set_pid 0 (set_state NM_TASK_UNUSED t)))).

(** The answer with the value stored to [*status], if any is. *)
Definition proc_waitpid (want : Z) (status : bool) : M (proc H) (Z * option Z) :=
  proc_lock ;;
  cur ← gets current_task;
  match cur with
  | None => proc_unlock ;; mret (NM_ERR NM_EFAIL, None)
  | Some c =>
      me ← get_task c;
      m ← gets (fun p => find_idx (reapable (pid me) want)
        (take (Z.to_nat NM_MAX_TASKS) (task_table p)));
      match m with
      | None => proc_unlock ;; mret (NM_ERR NM_EFAIL, None)
      | Some i =>
          x ← get_task i;
          let st := if status then Some (exit_code x) else None in
          mod_task i reap ;;
          modify (fun p => if 0 <? task_used p then set_used (task_used p - 1) p else p) ;;
          proc_unlock ;;
          mret (pid x, st)
      end
  end.
End ops.

(** ** First switch-in ([kernel/proc/switch.S], [kernel/proc/kthread_trampoline.S]) *)

(** The tail of [nm_context_switch]: six pops and a return from the stack at
    [sp]; the callee-saved registers r15, r14, r13, r12, rbx, rbp, the address
    returned to and the stack pointer after it. *)
Definition context_restore (mem : gmap Z Z) (sp : Z) : option (list Z * Z * Z) :=
  regs ← mapM (fun k => mem !! (sp + 8 * k)) (upto 0 6);
  ret ← mem !! (sp + 48);
  Some (regs, ret, sp + 56).

(** [nm_kthread_trampoline]: pops the entry point and its argument. *)
Definition trampoline_pops (mem : gmap Z Z) (sp : Z) : option (Z * Z * Z) :=
  entry ← mem !! sp;
  arg ← mem !! (sp + 8);
  Some (entry, arg, sp + 16).

(** ** Invariant *)

Definition task_shape (t : nm_task) : Prop :=
  zlen (fd_table t) = NM_MAX_FDS /\ zlen (name t) = NM_TASK_NAME_MAX.

(** The bootstrap task runs on the boot stack; every other task has a stack of
    its own, [KSTACK_SIZE] bytes below [kernel_stack_top]. *)
Definition on_own_stack (t : nm_task) : Prop := live t = true /\ pid t <> 1.
Definition stack_base (t : nm_task) : Z := kernel_stack_top t - KSTACK_SIZE.

Section invariant.
Context {H : Type} `{KHeap H}.
Implicit Types (p : proc H) (l : list nm_task).

(** The table alone: pids of live tasks are distinct, already given out, and a
    parent's is smaller. *)
Record table_ok l (np : Z) : Prop := mk_table_ok {
  to_len : zlen l = NM_MAX_TASKS;
  to_shape : Forall task_shape l;
  to_pid : forall i t, arr l i = Some t -> live t = true ->
    1 <= pid t < np /\ 0 <= ppid t < pid t;
  to_distinct : forall i j t u, arr l i = Some t -> arr l j = Some u ->
    live t = true -> live u = true -> pid t = pid u -> i = j;
}.

(** The stacks: owned, and apart from each other. *)
Record stacks_ok (h : H) l : Prop := mk_stacks_ok {
  so_owned : forall i t, arr l i = Some t -> on_own_stack t -> owns h (stack_base t) KSTACK_SIZE;
  so_apart : forall i j t u, arr l i = Some t -> arr l j = Some u -> i <> j ->
    on_own_stack t -> on_own_stack u ->
    kernel_stack_top t <= stack_base u \/ kernel_stack_top u <= stack_base t;
}.

Record proc_inv p : Prop := mk_proc_inv {
  pi_table : table_ok (task_table p) (next_pid p);
  pi_used : task_used p = countb live (task_table p);
  pi_next : 1 <= next_pid p <= INT32_MAX;
  pi_current : forall c, current_task p = Some c ->
    exists t, arr (task_table p) c = Some t /\ live t = true;
  pi_lock : proc_lock_word p = 0;
  pi_heap : heap_ok (proc_heap p);
  pi_stacks : stacks_ok (proc_heap p) (task_table p);
}.

Lemma table_take l : zlen l = NM_MAX_TASKS -> take (Z.to_nat NM_MAX_TASKS) l = l.
Proof. intros Hl. apply firstn_all2. unfold zlen, NM_MAX_TASKS in *. lia. Qed.

Lemma live_unused t : is_state NM_TASK_UNUSED t = true -> live t = false.
Proof. unfold live. by intros ->. Qed.

(** The tables a routine leaves behind. *)
Lemma table_spawn l np i old x :
  table_ok l np -> arr l i = Some old -> live old = false ->
  task_shape x -> pid x = np -> 0 <= ppid x < np -> 1 <= np -> table_ok (upd l i x) (np + 1).
Proof.
  intros [Hl Hs Hp Hd] Hi Hold Hx Hpx Hppx Hnp. pose proof (arr_range _ _ _ Hi) as Hr.
  constructor; [by rewrite zlen_upd|by apply Forall_upd| |].
  - intros j t. rewrite arr_upd by done. destruct (Z.eqb_spec i j).
    + intros [= <-] _. lia.
    + intros Hj Ht. specialize (Hp j t Hj Ht). lia.
  - intros j k t u. rewrite !arr_upd by done.
    destruct (Z.eqb_spec i j), (Z.eqb_spec i k); intros Hj Hk Hu Hv E;
      try (injection Hj as <-); try (injection Hk as <-).
    + congruence.
    + specialize (Hp k u Hk Hv). lia.
    + specialize (Hp j t Hj Hu). lia.
    + by eapply Hd.
Qed.

Lemma table_change l np i t x :
  table_ok l np -> arr l i = Some t -> live t = true -> task_shape x ->
  (live x = true -> pid x = pid t /\ ppid x = ppid t) -> table_ok (upd l i x) np.
Proof.
  intros [Hl Hs Hp Hd] Hi Ht Hx Heq. pose proof (arr_range _ _ _ Hi) as Hr.
  constructor; [by rewrite zlen_upd|by apply Forall_upd| |].
  - intros j u. rewrite arr_upd by done. destruct (Z.eqb_spec i j) as [->|].
    + intros [= <-] Hlx. destruct (Heq Hlx) as [-> ->]. by eapply Hp.
    + by apply Hp.
  - intros j k u v. rewrite !arr_upd by done.
    destruct (Z.eqb_spec i j), (Z.eqb_spec i k); intros Hj Hk Hu Hv E;
      try (injection Hj as <-); try (injection Hk as <-).
    + congruence.
    + destruct (Heq Hu) as [E' _]. subst j. eapply Hd; [exact Hi|exact Hk|done|done|lia].
    + destruct (Heq Hv) as [E' _]. subst k. eapply Hd; [exact Hj|exact Hi|done|done|lia].
    + by eapply Hd.
Qed.

Lemma stacks_change h l i t x :
  stacks_ok h l -> arr l i = Some t -> live t = true ->
  (live x = true -> pid x = pid t /\ kernel_stack_top x = kernel_stack_top t) ->
  stacks_ok h (upd l i x).
Proof.
  intros [Ho Ha] Hi Ht Heq. pose proof (arr_range _ _ _ Hi) as Hr.
  assert (Hx : on_own_stack x -> on_own_stack t /\ kernel_stack_top x = kernel_stack_top t).
  { intros [Hl Hp]. destruct (Heq Hl) as [E ?]. split; [|done]. split; [done|]. by rewrite <- E. }
  constructor; unfold stack_base in *.
  - intros j u. rewrite arr_upd by done. destruct (Z.eqb_spec i j) as [->|].
    + intros [= <-] [Hs E]%Hx. rewrite E. by eapply Ho.
    + by apply Ho.
  - intros j k u v. rewrite !arr_upd by done.
    destruct (Z.eqb_spec i j) as [E1|], (Z.eqb_spec i k) as [E2|]; intros Hj Hk Hjk Hu Hv;
      try (exfalso; congruence); try (injection Hj as <-); try (injection Hk as <-).
    + subst j. destruct (Hx Hu) as [? ->]. by eapply (Ha i k).
    + subst k. destruct (Hx Hv) as [? ->]. by eapply (Ha j i).
    + by eapply (Ha j k).
Qed.

Lemma stacks_spawn h h' l i x :
  stacks_ok h l -> 0 <= i < zlen l ->
  owns h' (stack_base x) KSTACK_SIZE ->
  (forall q m, owns h q m -> owns h' q m /\
     (stack_base x + KSTACK_SIZE <= q \/ q + m <= stack_base x)) ->
  stacks_ok h' (upd l i x).
Proof.
  intros [Ho Ha] Hr Hx Hk. constructor.
  - intros j u. rewrite arr_upd by done. destruct (Z.eqb_spec i j) as [->|].
    + by intros [= <-] _.
    + intros Hj Hu. by apply Hk, (Ho j).
  - assert (Hnew : forall j u, arr l j = Some u -> on_own_stack u ->
      kernel_stack_top x <= stack_base u \/ kernel_stack_top u <= stack_base x).
    { intros j u Hj Hu. destruct (Hk _ _ (Ho j u Hj Hu)) as [_ Hd].
      unfold stack_base, KSTACK_SIZE in *. lia. }
    intros j k u v. rewrite !arr_upd by done.
    destruct (Z.eqb_spec i j) as [E1|], (Z.eqb_spec i k) as [E2|]; intros Hj Hk' Hjk Hu Hv;
      try (exfalso; congruence); try (injection Hj as <-); try (injection Hk' as <-).
    + by eapply Hnew.
    + destruct (Hnew j u Hj Hu); auto.
    + by eapply (Ha j k).
Qed.

Lemma stacks_heap h h' l :
  stacks_ok h l -> (forall i t, arr l i = Some t -> on_own_stack t ->
    owns h (stack_base t) KSTACK_SIZE -> owns h' (stack_base t) KSTACK_SIZE) -> stacks_ok h' l.
Proof. intros [Ho Ha] Hk. constructor; [|done]. intros i t Hi Ht. by apply (Hk i), (Ho i). Qed.

Lemma live_count_full l : zlen l = NM_MAX_TASKS -> countb live l <= NM_MAX_TASKS.
Proof. intros <-. apply countb_range. Qed.

(** [p] with a new task [x] in slot [i], its stack in the heap [h]. *)
Definition spawned p (i : Z) (x : nm_task) (mem : gmap Z Z) (h : H) : proc H :=
  mk_proc (upd (task_table p) i x) (task_used p + 1) (next_pid p + 1) (current_task p) 0 mem h.

Lemma spawned_inv p i old x mem h :
  proc_inv p -> arr (task_table p) i = Some old -> live old = false ->
  task_shape x -> live x = true -> pid x = next_pid p -> 0 <= ppid x < next_pid p ->
  next_pid p < INT32_MAX -> heap_ok h -> owns h (stack_base x) KSTACK_SIZE ->
  (forall q m, owns (proc_heap p) q m -> owns h q m /\
     (stack_base x + KSTACK_SIZE <= q \/ q + m <= stack_base x)) ->
  proc_inv (spawned p i x mem h).
Proof.
  intros [Ht Hu Hn Hc Hlk Hh Hs] Hi Hold Hsh Hlx Hpx Hppx Hmax Hh' Ho Hk.
  pose proof (arr_range _ _ _ Hi) as Hr. constructor; simpl; try done.
  - eapply table_spawn; try done. lia.
  - rewrite (countb_upd _ _ _ _ _ Hi), Hold, Hlx. simpl. lia.
  - lia.
  - intros c Hcc. destruct (Hc c Hcc) as (t & Hct & Hlt). exists t.
    rewrite arr_upd_ne; [done|]. intros ->. congruence.
  - by eapply stacks_spawn.
Qed.

(** [p] with the live task in slot [i] changed in place to [x]. *)
Lemma change_inv p i t x :
  proc_inv p -> arr (task_table p) i = Some t -> live t = true -> task_shape x ->
  live x = true -> pid x = pid t -> ppid x = ppid t -> kernel_stack_top x = kernel_stack_top t ->
  proc_inv (set_table (upd (task_table p) i x) p).
Proof.
  intros [Ht Hu Hn Hc Hlk Hh Hs] Hi Hlt Hsh Hlx Hp Hpp Hk.
  pose proof (arr_range _ _ _ Hi) as Hr. constructor; simpl; try done.
  - by eapply table_change.
  - rewrite (countb_upd _ _ _ _ _ Hi), Hlt, Hlx. lia.
  - intros c Hcc. destruct (Hc c Hcc) as (u & Hcu & Hlu). rewrite arr_upd by done.
    destruct (Z.eqb_spec i c) as [->|]; eauto.
  - by eapply stacks_change.
Qed.
End invariant.

(** ** The operations *)

Section wp_ops.
Context {H : Type} `{KHeap H}.
Context (nm_kthread_trampoline : Z).
Implicit Types (p : proc H).

Lemma wp_proc_lock p (Q : unit -> proc H -> Prop) :
  proc_lock_word p = 0 -> Q tt (set_proc_lock 1 p) -> wp proc_lock Q p.
Proof. unfold wp, proc_lock. by intros ->. Qed.

Lemma wp_proc_unlock p (Q : unit -> proc H -> Prop) :
  Q tt (set_proc_lock 0 p) -> wp proc_unlock Q p.
Proof. done. Qed.

Lemma wp_take_pid p (Q : Z -> proc H -> Prop) :
  next_pid p < INT32_MAX -> Q (next_pid p) (set_next_pid (next_pid p + 1) p) -> wp take_pid Q p.
Proof.
  intros Hn HQ. unfold take_pid. wp_go; [apply Z.eqb_eq in E; lia|]. done.
Qed.

Lemma wp_alloc_stack p (Q : Z -> proc H -> Prop) :
  heap_ok (proc_heap p) -> Q 0 p ->
  (forall k h, heap_ok h -> 0 < k -> k + KSTACK_SIZE < 2 ^ 63 -> owns h k KSTACK_SIZE ->
     (forall q m, owns (proc_heap p) q m -> owns h q m /\ (k + KSTACK_SIZE <= q \/ q + m <= k)) ->
     Q k (set_heap h p)) ->
  wp alloc_task_stack Q p.
Proof.
  intros Hh Hz HQ. apply wp_lift, malloc_law; [done| |by destruct p|done].
  pose proof (malloc_limit_min (H := H)). unfold KSTACK_SIZE. lia.
Qed.

(** Freeing the stack just allocated leaves the stacks of the tasks alone. *)
Lemma wp_free_stack p h k (Q : unit -> proc H -> Prop) :
  stacks_ok (proc_heap p) (task_table p) -> heap_ok h -> owns h k KSTACK_SIZE ->
  (forall q m, owns (proc_heap p) q m -> owns h q m /\ (k + KSTACK_SIZE <= q \/ q + m <= k)) ->
  (forall h', heap_ok h' -> stacks_ok h' (task_table p) -> Q tt (set_heap h' p)) ->
  wp (kfree_stack k) Q (set_heap h p).
Proof.
  intros Hs Hh Hk Hd HQ. apply wp_lift. eapply free_law; [done|done|].
  intros h' Hh' Hkeep. apply HQ; [done|]. eapply stacks_heap; [done|].
  intros i t _ _ Ho. destruct (Hd _ _ Ho) as [Ho' ?]. apply Hkeep; [done|].
  unfold KSTACK_SIZE in *. lia.
Qed.

Lemma set_heap_inv p h :
  proc_inv p -> heap_ok h -> stacks_ok h (task_table p) -> proc_inv (set_heap h p).
Proof. by intros []. Qed.

Lemma keep_stacks p h k :
  proc_inv p ->
  (forall q m, owns (proc_heap p) q m -> owns h q m /\ (k + KSTACK_SIZE <= q \/ q + m <= k)) ->
  stacks_ok h (task_table p).
Proof. intros Hi Hd. eapply stacks_heap; [apply Hi|]. intros. by apply Hd. Qed.

(** Only the heap differs: what a failing call may change. *)
Definition only_heap p p' : Prop := exists h, p' = set_heap h p.

Definition current_pid p : Z :=
  match current_task p with
  | Some c => default 0 (pid <$> arr (task_table p) c)
  | None => 0
  end.

(** A free slot [i] was filled with the task [x], which got the next pid. *)
Record added p p' (i : Z) (x : nm_task) : Prop := mk_added {
  ad_slot : exists old, arr (task_table p) i = Some old /\ live old = false;
  ad_table : task_table p' = upd (task_table p) i x;
  ad_state : state x = NM_TASK_RUNNABLE;
  ad_pid : pid x = next_pid p /\ next_pid p' = next_pid p + 1;
  ad_ppid : ppid x = current_pid p;
  ad_used : task_used p' = task_used p + 1;
  ad_current : current_task p' = current_task p;
}.

Definition no_slot p : Prop := forall t, t ∈ task_table p -> live t = true.

(** The initial stack: a context switch to the task enters the trampoline with
    clear callee-saved registers, which pops the entry point and its argument;
    all of it lies in the task's stack. *)
Definition thread_stack p' (x : nm_task) (entry arg : Z) : Prop :=
  exists sp, context_restore (stack_mem p') (saved_rsp x) =
               Some (replicate 6 0, nm_kthread_trampoline, sp) /\
    trampoline_pops (stack_mem p') sp = Some (entry, arg, kernel_stack_top x / 16 * 16) /\
    0 < saved_rsp x /\ stack_base x <= saved_rsp x /\ saved_rsp x + 72 <= kernel_stack_top x /\
    KSTACK_SIZE < kernel_stack_top x < 2 ^ 63.

(** Memory outside the stack of [x] is as it was. *)
Definition off_stack p p' (x : nm_task) : Prop :=
  forall a, a < stack_base x \/ kernel_stack_top x <= a -> stack_mem p' !! a = stack_mem p !! a.

Definition thread_fields (x : nm_task) (nm : option cstring) (entry : Z) : Prop :=
  is_kernel_thread x = true /\ sched x = mk_sched 20 4 0 0 /\
  fd_table x = replicate 32 (-1) /\ fd_cloexec_mask x = 0 /\ exit_code x = 0 /\
  argc x = 0 /\ envc x = 0 /\ rip (regs x) = entry /\ rsp (regs x) = kernel_stack_top x /\
  zlen (name x) = NM_TASK_NAME_MAX /\
  (forall c, nm = Some c -> Forall (fun z => z <> 0) (cs_chars c) ->
     c_str (name x) = take 23 (cs_chars c)).

Definition create_result p nm entry arg (r : option Z) p' : Prop :=
  proc_inv p' /\
  match r with
  | None => only_heap p p'
  | Some i => exists x, added p p' i x /\ thread_fields x nm entry /\ thread_stack p' x entry arg /\ off_stack p p' x
  end /\ (no_slot p -> r = None).

Lemma wp_slot p (Q : option Z -> proc H -> Prop) :
  zlen (task_table p) = NM_MAX_TASKS ->
  (no_slot p -> Q None p) ->
  (forall i old, arr (task_table p) i = Some old -> live old = false -> Q (Some i) p) ->
  wp alloc_task_slot Q p.
Proof.
  intros Hl Hn Hs. unfold alloc_task_slot. apply wp_gets. rewrite table_take by done.
  destruct (find_idx _ _) as [i|] eqn:E.
  - apply find_idx_Some in E as (old & Hi & Hu & _). eapply Hs; [done|]. by apply live_unused.
  - rewrite find_idx_None in E. apply Hn. intros t Ht. unfold live. by rewrite E.
Qed.
End wp_ops.

Ltac task_go :=
  repeat first [wp_step
    | lazymatch goal with |- wp proc_unlock _ _ => apply wp_proc_unlock; cbv beta end].

(** Compute the state of a run to a record. *)
Ltac proc_state :=
  unfold set_table, set_used, set_next_pid, set_current, set_proc_lock, set_stack_mem, set_heap;
  cbn [task_table task_used next_pid current_task proc_lock_word stack_mem proc_heap].

(** Change slot [i] of a table that is the old one with slot [i] changed. *)
Ltac on_task :=
  task_go;
  eapply wp_modify_at;
    [first [eassumption | proc_state; apply arr_upd_eq; eassumption]|];
  proc_state; rewrite ?upd_upd.

Section specs.
Context {H : Type} `{KHeap H}.
Context (nm_kthread_trampoline : Z).
Implicit Types (p : proc H).

Lemma context_restore_eq (mem : gmap Z Z) sp r sp' :
  (forall k, 0 <= k < 6 -> mem !! (sp + 8 * k) = Some 0) -> sp' = sp + 56 ->
  mem !! (sp + 48) = Some r -> context_restore mem sp = Some (replicate 6 0, r, sp').
Proof.
  intros Hk -> Hr. unfold context_restore. rewrite Hr.
  change (upto 0 6) with [0; 1; 2; 3; 4; 5]. simpl. by rewrite !Hk by lia.
Qed.

Lemma wp_push p sp v (Q : Z -> proc H -> Prop) :
  8 <= sp < 2 ^ 63 -> Q (sp - 8) (set_stack_mem (<[sp - 8 := v]> (stack_mem p)) p) ->
  wp (push sp v) Q p.
Proof. intros Hs HQ. unfold push. cbv zeta. wp_go. by rewrite u64_small by lia. Qed.

Lemma wp_thread_frame p top entry arg (Q : Z -> proc H -> Prop) :
  128 <= top < 2 ^ 63 ->
  (forall mem, let b := top / 16 * 16 in
     context_restore mem (b - 72) = Some (replicate 6 0, nm_kthread_trampoline, b - 16) ->
     trampoline_pops mem (b - 16) = Some (entry, arg, b) ->
     (forall a, a < b - 72 \/ b <= a -> mem !! a = stack_mem p !! a) ->
     Q (b - 72) (set_stack_mem mem p)) ->
  wp (thread_frame nm_kthread_trampoline top entry arg) Q p.
Proof.
  intros Ht HQ. unfold thread_frame. change 15 with (Z.ones 4).
  rewrite land_lnot_ones by (unfold is_u64; lia). change (2 ^ 4) with 16.
  assert (Hb : 112 <= top / 16 * 16 < 2 ^ 63) by (Z.to_euclidean_division_equations; lia).
  cbv zeta in HQ. revert HQ Hb. generalize (top / 16 * 16) as b. intros b HQ Hb.
  destruct p as [tbl used np cur lk mem h].
  do 9 (try apply wp_bind; apply wp_push; [lia|]; cbn [set_stack_mem stack_mem task_table
    task_used next_pid current_task proc_lock_word proc_heap]; cbv beta).
  replace (b - 8 - 8 - 8 - 8 - 8 - 8 - 8 - 8 - 8) with (b - 72) by lia. apply HQ.
  - apply context_restore_eq; [|lia|at_key].
    intros k Hk. assert (k = 0 \/ k = 1 \/ k = 2 \/ k = 3 \/ k = 4 \/ k = 5) as Hc by lia.
    destruct_or! Hc; subst k; at_key.
  - unfold trampoline_pops.
    assert (forall v w : option Z, v = Some entry -> w = Some arg -> (v ≫= fun e => w ≫= fun a =>
      Some (e, a, b - 16 + 16)) = Some (entry, arg, b)) as Hb2.
    { intros ? ? -> ->. simpl. do 2 f_equal. lia. }
    apply Hb2; at_key.
  - intros a Ha. by rewrite !lookup_insert_ne by lia.
Qed.



(** The fields of a table slot's new contents are read off by computation. *)
Lemma current_pid_range p : proc_inv p -> 0 <= current_pid p < next_pid p.
Proof.
  intros Hi. unfold current_pid. destruct (current_task p) as [c|] eqn:E.
  - destruct (pi_current _ Hi c E) as (t & Ht & Hl). rewrite Ht. simpl.
    destruct (to_pid _ _ (pi_table _ Hi) c t Ht Hl). lia.
  - pose proof (pi_next _ Hi). lia.
Qed.

(** Reading the pid of the current task when slot [i] has just been given a pid. *)
Lemma wp_parent p i x old (Q : Z -> proc H -> Prop) :
  proc_inv p -> arr (task_table p) i = Some old -> live old = false ->
  forall p1, current_task p1 = current_task p -> task_table p1 = upd (task_table p) i x ->
  Q (current_pid p) p1 ->
  wp (match current_task p1 with
      | Some c => y ← get_task c; mret (pid y)
      | None => mret 0
      end) Q p1.
Proof.
  intros Hi Hx Hold p1 Hc Ht HQ. unfold current_pid in HQ. rewrite Hc.
  destruct (current_task p) as [c|] eqn:E; [|done].
  destruct (pi_current _ Hi c E) as (t & Htc & Hl). rewrite Htc in HQ.
  wp_go. eapply wp_rd; [|wp_go; exact HQ]. rewrite Ht, arr_upd_ne; [done|].
  intros ->. congruence.
Qed.

(** The task that [task_create_kernel_thread] puts into the slot that held [old]. *)
Definition thread_task (nm : option cstring) (entry k n par sp : Z) (old : nm_task) : nm_task :=
  no_fds (set_name (copy_name (name old) nm NM_TASK_NAME_MAX) (set_entry_name (name_ptr nm)
    (set_regs (set_rip entry (set_rsp (k + KSTACK_SIZE) (regs old)))
      (set_saved_rsp sp (set_kernel_stack_top (k + KSTACK_SIZE)
        (fresh_fields NM_TASK_RUNNABLE (set_ppid par (set_pid n old)))))))).

Lemma thread_task_fields nm entry k n par sp old :
  zlen (name old) = NM_TASK_NAME_MAX -> thread_fields (thread_task nm entry k n par sp old) nm entry.
Proof.
  intros Hn. unfold thread_fields. simpl. split_and!; try done.
  - by rewrite copy_name_len by (unfold NM_TASK_NAME_MAX in *; lia).
  - intros c -> Hc. by rewrite copy_name_c_str by (done || unfold NM_TASK_NAME_MAX in *; lia).
Qed.

Lemma used_incr p i old :
  proc_inv p -> arr (task_table p) i = Some old -> live old = false ->
  u64 (task_used p + 1) = task_used p + 1.
Proof.
  intros Hi _ _. rewrite (pi_used _ Hi). pose proof (countb_range live (task_table p)).
  pose proof (to_len _ _ (pi_table _ Hi)) as Hl. unfold NM_MAX_TASKS in Hl.
  apply u64_small. lia.
Qed.

Lemma spawned_added p i old x mem h :
  arr (task_table p) i = Some old -> live old = false -> state x = NM_TASK_RUNNABLE ->
  pid x = next_pid p -> ppid x = current_pid p -> added p (spawned p i x mem h) i x.
Proof. intros. constructor; eauto. Qed.

Lemma slot_shape p i old : proc_inv p -> arr (task_table p) i = Some old -> task_shape old.
Proof. intros Hi. apply (Forall_arr task_shape). apply Hi. Qed.

Lemma no_slot_full p i old : arr (task_table p) i = Some old -> live old = false -> ~ no_slot p.
Proof. intros Hi%arr_elem Hl Hn. by rewrite (Hn old Hi) in Hl. Qed.

Lemma wp_create p nm entry arg (Q : option Z -> proc H -> Prop) :
  proc_inv p -> next_pid p < INT32_MAX ->
  (forall r p', create_result nm_kthread_trampoline p nm entry arg r p' -> Q r p') ->
  wp (task_create_kernel_thread nm_kthread_trampoline nm entry arg) Q p.
Proof.
  intros Hi Hmax HQ. unfold task_create_kernel_thread. task_go.
  apply wp_alloc_stack; [apply Hi| |].
  { task_go. apply HQ. split_and!; [done| |done]. exists (proc_heap p). by destruct p. }
  intros k h Hh Hk Hk63 Ho Hd. task_go; [apply Z.eqb_eq in E; lia|].
  apply wp_proc_lock; [apply Hi|]. task_go. apply wp_slot; [apply Hi| |].
  { intros Hno. task_go.
    change (set_proc_lock 0 (set_proc_lock 1 (set_heap h p))) with (set_heap h (set_proc_lock 0 p)).
    eapply wp_free_stack; [apply Hi|done|done|done|]. intros h' Hh' Hs. task_go.
    assert (Hp : set_proc_lock 0 p = p) by (destruct Hi; by destruct p; simplify_eq/=).
    rewrite Hp. apply HQ. split_and!; [by apply set_heap_inv|by eexists|done]. }
  intros i old Hi0 Hold. simpl in Hi0. pose proof (arr_range _ _ _ Hi0) as Hr.
  task_go. apply wp_take_pid; [done|]. on_task. task_go.
  eapply (wp_parent p); [done|done|done|done|done|]. on_task. task_go.
  rewrite (u64_small (k + _)) by (unfold KSTACK_SIZE in *; lia).
  apply wp_thread_frame; [unfold KSTACK_SIZE in *; lia|].
  intros mem b Hctx Hpop Hoff. do 3 on_task. task_go. proc_state. rewrite (used_incr p i old) by done.
  set (x := thread_task nm entry k (next_pid p) (current_pid p) (b - 72) old).
  change (Q (Some i) (spawned p i x mem h)). apply HQ.
  destruct (slot_shape p i old) as [_ Hname]; [done..|].
  pose proof (thread_task_fields nm entry k (next_pid p) (current_pid p) (b - 72) old Hname) as Hf.
  assert (Hb : stack_base x = k) by (unfold stack_base; simpl; lia).
  split_and!; [|exists x; split_and!; [by eapply spawned_added|done| |]|].
  - eapply spawned_inv; rewrite ?Hb; try done; [|by apply current_pid_range].
    split; [done|]. apply Hf.
  - exists (b - 16). unfold stack_base. simpl. subst b. unfold KSTACK_SIZE in *.
    split_and!; [done|done|Z.to_euclidean_division_equations; lia..].
  - intros a. unfold stack_base. simpl. subst b. unfold KSTACK_SIZE in *. intros Ha. apply Hoff. Z.to_euclidean_division_equations; lia.
  - intros Hno. by destruct (no_slot_full p i old).
Qed.
(** ** Fork *)

(** The child [x] of [me]: a copy but for its identity, its stack and the value
    0 in rax. *)
Definition forked (me x : nm_task) : Prop :=
  fd_table x = fd_table me /\ fd_cloexec_mask x = fd_cloexec_mask me /\ cr3 x = cr3 me /\
  name x = name me /\ entry_name x = entry_name me /\ signal_mask x = signal_mask me /\
  is_kernel_thread x = is_kernel_thread me /\ argc x = argc me /\ envc x = envc me /\
  regs x = set_rax 0 (set_rsp (kernel_stack_top x) (regs me)) /\
  sched x = set_rr_budget 0 (sched me) /\ exit_code x = 0 /\ saved_rsp x = kernel_stack_top x /\
  KSTACK_SIZE < kernel_stack_top x.

Definition fork_result p (r : option Z) p' : Prop :=
  proc_inv p' /\
  match r with
  | None => only_heap p p'
  | Some i => exists c me x, current_task p = Some c /\ arr (task_table p) c = Some me /\
      added p p' i x /\ forked me x /\ stack_mem p' = stack_mem p /\ i <> c
  end /\ (no_slot p \/ current_task p = None -> r = None).

Definition fork_task (n par top : Z) (me : nm_task) : nm_task :=
  set_saved_rsp top (set_regs (set_rax 0 (set_rsp top (regs me))) (set_kernel_stack_top top
    (set_budget0 (set_exit_code 0 (set_state NM_TASK_RUNNABLE (set_ppid par (set_pid n me))))))).

Lemma unlock_id p : proc_inv p -> set_proc_lock 0 (set_proc_lock 1 p) = p.
Proof. intros Hi. pose proof (pi_lock _ Hi). destruct p. by simplify_eq/=. Qed.

Lemma only_heap_refl p : only_heap p p.
Proof. exists (proc_heap p). by destruct p. Qed.

Lemma unlock_fail p : proc_inv p -> fork_result p None (set_proc_lock 0 (set_proc_lock 1 p)).
Proof. intros Hi. rewrite unlock_id by done. split_and!; [done|apply only_heap_refl|done]. Qed.

Lemma wp_fork p (Q : option Z -> proc H -> Prop) :
  proc_inv p -> next_pid p < INT32_MAX ->
  (forall r p', fork_result p r p' -> Q r p') -> wp proc_fork_current Q p.
Proof.
  intros Hi Hmax HQ. unfold proc_fork_current. task_go. apply wp_proc_lock; [apply Hi|].
  do 2 wp_step. destruct (current_task (set_proc_lock 1 p)) as [c|] eqn:Hc.
  2:{ task_go. by apply HQ, unlock_fail. }
  task_go. apply wp_slot; [apply Hi| |].
  { intros _. task_go. by apply HQ, unlock_fail. }
  intros i old Hi0 Hold. simpl in Hc, Hi0. task_go. rewrite unlock_id by done.
  apply wp_alloc_stack; [apply Hi| |].
  { task_go. apply HQ. split_and!; [done|apply only_heap_refl|done]. }
  intros k h Hh Hk Hk63 Ho Hd. task_go; [apply Z.eqb_eq in E; lia|].
  apply wp_proc_lock; [apply Hi|]. task_go. eapply wp_rd; [exact Hi0|].
  simpl. rewrite Hc. unfold live in Hold. rewrite Hold. task_go.
  destruct (pi_current _ Hi c Hc) as (me & Hme & Hlme).
  assert (Hne : i <> c) by (intros ->; unfold live in *; congruence).
  pose proof (arr_range _ _ _ Hi0) as Hr.
  eapply wp_rd; [exact Hme|]. task_go. apply wp_wr; [done|]. task_go.
  apply wp_take_pid; [done|]. on_task. task_go.
  eapply wp_rd; [proc_state; by rewrite arr_upd_ne|]. do 2 on_task. task_go. proc_state.
  rewrite (used_incr p i old), (u64_small (k + _)) by (done || unfold KSTACK_SIZE in *; lia).
  assert (Hcp : current_pid p = pid me) by (unfold current_pid; by rewrite Hc, Hme).
  set (x := fork_task (next_pid p) (pid me) (k + KSTACK_SIZE) me).
  change (Q (Some i) (spawned p i x (stack_mem p) h)). apply HQ.
  assert (Hb : stack_base x = k) by (unfold stack_base; simpl; lia).
  split_and!; [|exists c, me, x; split_and!; try done; [by eapply spawned_added
    |unfold forked; split_and!; try done; simpl; lia]|].
  - eapply spawned_inv; rewrite ?Hb; try done; [exact (slot_shape p c me Hi Hme)|].
    simpl. rewrite <- Hcp. by apply current_pid_range.
  - intros [Hno|?]; [by destruct (no_slot_full p i old)|congruence].
Qed.

(** ** Exec, exit and wait *)

(** The current task's slot is changed, nothing else. *)
Lemma current_change p c t x :
  proc_inv p -> current_task p = Some c -> arr (task_table p) c = Some t ->
  live t = true -> task_shape x -> live x = true -> pid x = pid t -> ppid x = ppid t ->
  kernel_stack_top x = kernel_stack_top t ->
  proc_inv (set_table (upd (task_table p) c x) p).
Proof. intros. by eapply change_inv. Qed.

Definition exec_task (nm : cstring) (entry : Z) (argv envp : option ptrvec) (t : nm_task) : nm_task :=
  let r := set_rdx (vec_ptr envp) (set_rsi (vec_ptr argv)
             (set_rdi (count_ptr_vector argv) (regs t))) in
  set_regs (if entry =? 0 then r else set_rip entry r)
    (set_envc (count_ptr_vector envp) (set_argc (count_ptr_vector argv)
      (set_name (copy_name (name t) (Some nm) NM_TASK_NAME_MAX) (set_entry_name (cs_addr nm) t)))).

Lemma wp_exec p nm entry argv envp (Q : Z -> proc H -> Prop) :
  proc_inv p ->
  (forall c t nmv, current_task p = Some c -> nm = Some nmv -> arr (task_table p) c = Some t ->
     proc_inv (set_table (upd (task_table p) c (exec_task nmv entry argv envp t)) p) ->
     Q 0 (set_table (upd (task_table p) c (exec_task nmv entry argv envp t)) p)) ->
  (current_task p = None \/ nm = None -> Q (NM_ERR NM_EFAIL) p) ->
  wp (proc_exec_current nm entry argv envp) Q p.
Proof.
  intros Hi HQ Hf. unfold proc_exec_current. task_go. apply wp_proc_lock; [apply Hi|].
  do 2 wp_step. destruct (current_task (set_proc_lock 1 p)) as [c|] eqn:Hc.
  2:{ task_go. rewrite unlock_id by done. apply Hf. by left. }
  destruct nm as [nmv|].
  2:{ task_go. rewrite unlock_id by done. apply Hf. by right. }
  simpl in Hc. destruct (pi_current _ Hi c Hc) as (t & Ht & Hl).
  pose proof (arr_range _ _ _ Ht) as Hr.
  assert (Hinv : proc_inv (set_table (upd (task_table p) c (exec_task nmv entry argv envp t)) p)).
  { destruct (slot_shape p c t) as [Hfd Hnm]; [done..|].
    eapply current_change; try done. split; [done|].
    change (zlen (copy_name (name t) (Some nmv) NM_TASK_NAME_MAX) = NM_TASK_NAME_MAX).
    by rewrite copy_name_len by (unfold NM_TASK_NAME_MAX in *; lia). }
  specialize (HQ c t nmv Hc eq_refl Ht Hinv). pose proof (pi_lock _ Hi) as Hlk.
  do 4 on_task. unfold exec_task in HQ. cbv zeta in HQ.
  task_go; destruct (Z.eqb_spec entry 0) as [->|]; try done.
  - on_task. task_go. proc_state. destruct p; simplify_eq/=. exact HQ.
  - proc_state. destruct p; simplify_eq/=. exact HQ.
Qed.

Definition zombie (code : Z) (t : nm_task) : nm_task :=
  set_state NM_TASK_ZOMBIE (set_exit_code code t).

Lemma wp_exit p code (Q : unit -> proc H -> Prop) :
  proc_inv p ->
  (forall c t, current_task p = Some c -> arr (task_table p) c = Some t ->
     proc_inv (set_table (upd (task_table p) c (zombie code t)) p) ->
     Q tt (set_table (upd (task_table p) c (zombie code t)) p)) ->
  (current_task p = None -> Q tt p) -> wp (proc_exit_current code) Q p.
Proof.
  intros Hi HQ Hf. unfold proc_exit_current. task_go. apply wp_proc_lock; [apply Hi|].
  do 2 wp_step. destruct (current_task (set_proc_lock 1 p)) as [c|] eqn:Hc.
  2:{ task_go. rewrite unlock_id by done. by apply Hf. }
  simpl in Hc. destruct (pi_current _ Hi c Hc) as (t & Ht & Hl).
  on_task. task_go. pose proof (pi_lock _ Hi) as Hlk.
  assert (Hinv : proc_inv (set_table (upd (task_table p) c (zombie code t)) p)).
  { eapply current_change; try done. exact (slot_shape p c t Hi Ht). }
  specialize (HQ c t Hc Ht Hinv). proc_state. destruct p; simplify_eq/=. exact HQ.
Qed.

(** The children that a wait of [parent] is for: its zombies, all of them or, when
    [want] is positive, the one with that pid. *)
Definition awaited (parent want : Z) (t : nm_task) : Prop :=
  state t = NM_TASK_ZOMBIE /\ ppid t = parent /\ (0 < want -> pid t = want).

(** The slot once its task has been waited for: unused, with neither pid, parent,
    close-on-exec marks nor exit code, and otherwise as it was. *)
Definition freed (t : nm_task) : nm_task :=
  mk_task 0 0 (is_kernel_thread t) NM_TASK_UNUSED (regs t) (cr3 t) (fd_table t) 0 (signal_mask t) 0 (argc t) (envc t)
    (sched t) (kernel_stack_top t) (saved_rsp t) (entry_name t) (name t).

(** What [proc_waitpid] may answer: -1 with nothing changed when there is no
    child to wait for, else the pid and exit code of the first one, whose slot
    becomes free. *)
Definition wait_result p (want : Z) (status : bool) (r : Z * option Z) p' : Prop :=
  proc_inv p' /\
  ((r = (NM_ERR NM_EFAIL, None) /\ p' = p /\
    (current_task p = None \/ forall i t, arr (task_table p) i = Some t -> ~ awaited (current_pid p) want t)) \/
   exists i t, current_task p <> None /\ arr (task_table p) i = Some t /\ awaited (current_pid p) want t /\
     (forall j u, j < i -> arr (task_table p) j = Some u -> ~ awaited (current_pid p) want u) /\
     r = (pid t, if status then Some (exit_code t) else None) /\
     p' = mk_proc (upd (task_table p) i (freed t)) (task_used p - 1) (next_pid p) (current_task p) 0
            (stack_mem p) (proc_heap p)).

Lemma awaited_spec par want t : reapable par want t = true <-> awaited par want t.
Proof.
  unfold reapable, awaited, is_state. rewrite !andb_true_iff, bool_decide_eq_true, negb_true_iff, Z.eqb_eq.
  destruct (Z.ltb_spec 0 want), (Z.eqb_spec (pid t) want); cbn [negb andb]; intuition (done || lia).
Qed.

Lemma not_awaited par want t : reapable par want t = false <-> ~ awaited par want t.
Proof. rewrite <- awaited_spec. by destruct (reapable par want t). Qed.

Lemma reap_inv p i c t :
  proc_inv p -> arr (task_table p) i = Some t -> live t = true ->
  current_task p = Some c -> i <> c ->
  proc_inv (mk_proc (upd (task_table p) i (reap t)) (task_used p - 1) (next_pid p)
    (current_task p) 0 (stack_mem p) (proc_heap p)).
Proof.
  intros Hi Ht Hl Hc Hne. pose proof (slot_shape p i t Hi Ht) as Hsh.
  destruct Hi as [Htb Hu Hn Hcu Hlk Hh Hs]. constructor; simpl; try done.
  - by eapply table_change.
  - rewrite (countb_upd _ _ _ _ _ Ht), Hl. simpl. lia.
  - intros c' Hc'. destruct (Hcu c' Hc') as (u & Hu' & Hlu). exists u.
    rewrite arr_upd_ne by congruence. done.
  - by eapply stacks_change.
Qed.

Lemma awaited_live par want t : awaited par want t -> live t = true /\ ppid t = par.
Proof. intros (Hz & Hp & _). unfold live, is_state. by rewrite Hz. Qed.

Lemma wp_waitpid p want status (Q : Z * option Z -> proc H -> Prop) :
  proc_inv p -> (forall r p', wait_result p want status r p' -> Q r p') ->
  wp (proc_waitpid want status) Q p.
Proof.
  intros Hi HQ. unfold proc_waitpid. task_go. apply wp_proc_lock; [apply Hi|].
  do 2 wp_step. destruct (current_task (set_proc_lock 1 p)) as [c|] eqn:Hc; simpl in Hc.
  2:{ task_go. rewrite unlock_id by done. apply HQ. split; [done|]. left. auto. }
  destruct (pi_current _ Hi c Hc) as (me & Hme & Hlme).
  assert (Hcp : current_pid p = pid me) by (unfold current_pid; by rewrite Hc, Hme).
  wp_step. eapply wp_rd; [exact Hme|]. do 2 wp_step. simpl. rewrite table_take by apply Hi.
  destruct (find_idx (reapable (pid me) want) (task_table p)) as [i|] eqn:Ef.
  2:{ task_go. rewrite unlock_id by done. apply HQ. split; [done|]. left.
      rewrite Hcp. split_and!; [done|done|right]. intros i t Ht. apply not_awaited. apply (proj1 (find_idx_None _ _) Ef). by eapply arr_elem. }
  destruct (find_idx_Some _ _ _ Ef) as (t & Ht & Hr & Hfirst). apply awaited_spec in Hr.
  destruct (awaited_live _ _ _ Hr) as [Hl Hpp].
  assert (Hne : i <> c).
  { intros ->. assert (t = me) as -> by congruence.
    destruct (to_pid _ _ (pi_table _ Hi) c me Ht Hl). lia. }
  wp_step. eapply wp_rd; [exact Ht|]. on_task. task_go. proc_state.
  assert (Hpos : 0 < task_used p).
  { rewrite (pi_used _ Hi). apply countb_pos. exists t. split; [by eapply arr_elem|done]. }
  destruct (Z.ltb_spec 0 (task_used p)); [|lia]. proc_state.
  apply HQ. split; [by eapply reap_inv|]. right. exists i, t. rewrite Hcp. split_and!; try done; [congruence|].
  intros j u Hj Hu. apply not_awaited. pose proof (arr_range _ _ _ Hu). eapply Hfirst; [|exact Hu]. lia.
Qed.

(** Waiting for a given child that is a zombie. *)
Lemma wp_wait_zombie p i z (Q : Z * option Z -> proc H -> Prop) :
  proc_inv p -> current_task p <> None ->
  arr (task_table p) i = Some z -> state z = NM_TASK_ZOMBIE -> ppid z = current_pid p ->
  (let p' := mk_proc (upd (task_table p) i (freed z)) (task_used p - 1) (next_pid p)
     (current_task p) 0 (stack_mem p) (proc_heap p) in
   proc_inv p' -> Q (pid z, Some (exit_code z)) p') ->
  wp (proc_waitpid (pid z) true) Q p.
Proof.
  intros Hi Hc Hz Hst Hpp HQ. cbv zeta in HQ.
  assert (Hl : live z = true) by (unfold live, is_state; by rewrite Hst).
  apply wp_waitpid; [done|].
  intros r p' [Hi' [(_ & _ & [?|Hno])|(j & t & _ & Ht & Hr & _ & -> & ->)]]; [done|..].
  - by destruct (Hno i z Hz).
  - assert (Hp : pid t = pid z).
    { destruct (to_pid _ _ (pi_table _ Hi) i z Hz Hl), Hr as (_ & _ & Hw). apply Hw. lia. }
    destruct (awaited_live _ _ _ Hr) as [Hlt _].
    assert (j = i) as -> by (by eapply (to_distinct _ _ (pi_table _ Hi))).
    assert (t = z) as -> by congruence. by apply HQ.
Qed.

(** ** Initialisation *)

Definition bootstrap_task (old : nm_task) : nm_task :=
  no_fds (set_name (copy_name (name old) (Some (mk_cstr 0 (chars "bootstrap"))) NM_TASK_NAME_MAX)
    (set_saved_rsp 0 (fresh_fields NM_TASK_RUNNING (set_ppid 0 (set_pid 1 (reset_slot old)))))).

Definition init_table (l : list nm_task) : list nm_task :=
  match l with
  | [] => []
  | b :: l' => bootstrap_task b :: (reset_slot <$> l')
  end.

Lemma wp_reset_all p (Q : unit -> proc H -> Prop) :
  zlen (task_table p) = NM_MAX_TASKS ->
  Q tt (set_table (reset_slot <$> task_table p) p) ->
  wp (for_all (upto 0 NM_MAX_TASKS) (fun i => mod_task i reset_slot)) Q p.
Proof.
  intros Hl HQ.
  apply (wp_for_all (fun i q => exists l, q = set_table l p /\ zlen l = NM_MAX_TASKS /\
    forall j, arr l j = if j <? i then reset_slot <$> arr (task_table p) j else arr (task_table p) j)).
  - done.
  - exists (task_table p). split_and!; [by destruct p|done|]. intros j.
    destruct (Z.ltb_spec j 0); [|done]. by rewrite arr_none by lia.
  - intros i q Hi (l & -> & Hll & Hj). destruct (arr_lookup l i) as [x Hx]; [lia|].
    eapply wp_modify_at; [exact Hx|]. exists (upd l i (reset_slot x)).
    split_and!; [done|by rewrite zlen_upd|]. intros j. rewrite arr_upd by lia.
    pose proof (Hj i) as Hji. rewrite Z.ltb_irrefl, Hx in Hji.
    destruct (Z.eqb_spec i j) as [<-|].
    + destruct (Z.ltb_spec i (i + 1)); [|lia]. by rewrite <- Hji.
    + rewrite Hj. destruct (Z.ltb_spec j i), (Z.ltb_spec j (i + 1)); try lia; done.
  - intros q (l & -> & Hll & Hj). replace l with (reset_slot <$> task_table p); [done|].
    apply arr_ext; [unfold zlen in *; by rewrite length_fmap, Hl|].
    intros j. rewrite arr_fmap, Hj. destruct (Z.ltb_spec j NM_MAX_TASKS); [done|].
    by rewrite arr_none by lia.
Qed.

Lemma wp_proc_init p (Q : unit -> proc H -> Prop) :
  zlen (task_table p) = NM_MAX_TASKS ->
  Q tt (mk_proc (init_table (task_table p)) 1 2 (Some 0) 0 (stack_mem p) (proc_heap p)) ->
  wp proc_init Q p.
Proof.
  intros Hl HQ. unfold proc_init. task_go. apply wp_proc_lock; [done|]. task_go.
  apply wp_reset_all; [done|]. task_go. unfold alloc_task_slot. wp_step. proc_state.
  unfold init_table in HQ.
  destruct (task_table p) as [|b l] eqn:Eb; [done|].
  rewrite table_take by (unfold zlen in *; rewrite length_fmap; done). simpl.
  task_go. apply wp_take_pid; [done|]. proc_state.
  assert (Hr : 0 <= 0 < zlen (reset_slot b :: (reset_slot <$> l))) by (unfold zlen; simpl; lia).
  task_go. eapply wp_modify_at; [done|]. do 2 on_task. task_go. proc_state. exact HQ.
Qed.

Lemma init_arr l i t :
  arr (init_table l) i = Some t ->
  (i = 0 /\ exists b, arr l 0 = Some b /\ t = bootstrap_task b) \/ live t = false.
Proof.
  unfold init_table. destruct l as [|b l]; [by rewrite arr_none by (unfold zlen; simpl; lia)|].
  simpl. intros Hi. pose proof (arr_range _ _ _ Hi).
  destruct (decide (i = 0)) as [->|]; [left|right].
  - rewrite arr_cons_0 in Hi. simplify_eq. split; [done|]. by exists b.
  - replace i with (i - 1 + 1) in Hi by lia. rewrite arr_cons_S, arr_fmap in Hi by lia.
    destruct (arr l (i - 1)) as [u|]; [|done]. by simplify_eq/=.
Qed.

Lemma init_shape l :
  zlen l = NM_MAX_TASKS -> Forall task_shape l ->
  zlen (init_table l) = NM_MAX_TASKS /\ Forall task_shape (init_table l).
Proof.
  intros Hl Hs. unfold init_table. destruct l as [|b l]; [done|]. simpl.
  apply Forall_cons in Hs as [[Hfd Hnm] Hs]. split.
  - rewrite <- Hl. unfold zlen. simpl. by rewrite length_fmap.
  - constructor; [|by apply Forall_fmap].
    split; [done|]. change (zlen (copy_name (name b)
      (Some (mk_cstr 0 (chars "bootstrap"))) NM_TASK_NAME_MAX) = NM_TASK_NAME_MAX).
    by rewrite copy_name_len by (unfold NM_TASK_NAME_MAX in *; lia).
Qed.

Lemma init_count l : l <> [] -> countb live (init_table l) = 1.
Proof.
  destruct l as [|b l]; [done|]. intros _. unfold init_table. simpl.
  change (countb live (bootstrap_task b :: (reset_slot <$> l)))
    with (1 + countb live (reset_slot <$> l)).
  rewrite countb_none; [done|]. intros x (y & -> & _)%list_elem_of_fmap. done.
Qed.

Lemma init_inv p :
  zlen (task_table p) = NM_MAX_TASKS -> Forall task_shape (task_table p) -> heap_ok (proc_heap p) ->
  proc_inv (mk_proc (init_table (task_table p)) 1 2 (Some 0) 0 (stack_mem p) (proc_heap p)).
Proof.
  intros Hl Hs Hh. destruct (init_shape _ Hl Hs) as [Hl' Hs']. constructor; simpl; try done.
  - constructor; [done|done| |].
    + intros i t [(-> & b & _ & ->)|Hn]%init_arr Hlv; [simpl; lia|congruence].
    + intros i j t u [[-> _]|Hn]%init_arr [[-> _]|Hm]%init_arr; congruence.
  - rewrite init_count; [done|]. by intros E; rewrite E in Hl.
  - intros c [= <-]. destruct (arr_lookup (task_table p) 0) as [b Hb]; [by rewrite Hl|].
    destruct (task_table p) as [|b' l]; [done|]. by eexists.
  - constructor.
    + intros i t [(-> & b & _ & ->)|Hn]%init_arr [Hlv Hp]; [by destruct Hp|congruence].
    + intros i j t u [(-> & b & _ & ->)|Hn]%init_arr _ _ [Hlv Hp] _; [by destruct Hp|congruence].
Qed.

Lemma wp_set_current p c (Q : unit -> proc H -> Prop) :
  proc_inv p ->
  (forall t, c = Some t -> exists x, arr (task_table p) t = Some x /\ live x = true) ->
  (proc_inv (set_current c p) -> Q tt (set_current c p)) -> wp (proc_set_current c) Q p.
Proof.
  intros Hi Hc HQ. unfold proc_set_current. task_go. apply wp_proc_lock; [apply Hi|]. task_go.
  assert (E : set_proc_lock 0 (set_current c (set_proc_lock 1 p)) = set_current c p).
  { pose proof (pi_lock _ Hi). destruct p. by simplify_eq/=. }
  rewrite E. apply HQ. destruct Hi. by constructor.
Qed.

(** ** The process component as a transition system *)

Inductive step : proc H -> proc H -> Prop :=
| step_create p nm entry arg r p' :
    next_pid p < INT32_MAX ->
    task_create_kernel_thread nm_kthread_trampoline nm entry arg p = Done r p' -> step p p'
| step_fork p r p' : next_pid p < INT32_MAX -> proc_fork_current p = Done r p' -> step p p'
| step_exec p nm entry argv envp r p' :
    proc_exec_current nm entry argv envp p = Done r p' -> step p p'
| step_exit p code p' : proc_exit_current code p = Done tt p' -> step p p'
| step_wait p want status r p' : proc_waitpid want status p = Done r p' -> step p p'
| step_switch p c x p' :
    arr (task_table p) c = Some x -> live x = true ->
    proc_set_current (Some c) p = Done tt p' -> step p p'.

Lemma wp_inv {A} (c : M (proc H) A) p r p' : wp c (fun _ => proc_inv) p -> c p = Done r p' -> proc_inv p'.
Proof. unfold wp. intros Hw E. by rewrite E in Hw. Qed.

Lemma step_inv p p' : proc_inv p -> step p p' -> proc_inv p'.
Proof.
  intros Hi Hst. destruct Hst; eapply wp_inv; eauto.
  - apply wp_create; [done..|]. by intros ? ? [? _].
  - apply wp_fork; [done..|]. by intros ? ? [? _].
  - apply wp_exec; [done|by intros ? ? ? _ _ _ ?|done].
  - apply wp_exit; [done|by intros ? ? _ _ ?|done].
  - apply wp_waitpid; [done|]. by intros ? ? [? _].
  - apply wp_set_current; [done|intros t [= <-]; eauto|done].
Qed.
End specs.

(** ** Properties *)

Section properties.
Context {H : Type} `{KHeap H}.
Context (nm_kthread_trampoline : Z).
Implicit Types (p : proc H).

(** C3: every state of the process component that can be reached from boot
    satisfies the invariant.  From any task table and a heap in order, after
    [proc_init] and any sequence of thread creations, forks, execs, exits, waits
    and switches to live tasks (as long as pids are left), the live tasks have
    distinct pids below [next_pid] and parents with smaller pids, [task_used]
    counts them, the current task is live, the lock is free, and each task other
    than the bootstrap task owns a kernel stack that overlaps no other. *)
Theorem proc_reachable_inv p0 p1 p :
  zlen (task_table p0) = NM_MAX_TASKS -> Forall task_shape (task_table p0) ->
  heap_ok (proc_heap p0) -> proc_init p0 = Done tt p1 ->
  rtc (step nm_kthread_trampoline) p1 p -> proc_inv p.
Proof.
  intros Hl Hs Hh Hinit Hr.
  assert (Hi : proc_inv p1).
  { eapply wp_inv; [|exact Hinit]. apply wp_proc_init; [done|]. by apply init_inv. }
  clear Hinit. induction Hr as [|p q r Hst Hr IH]; [done|]. apply IH. by eapply step_inv.
Qed.



(** C12: [proc_waitpid] is sound and complete.  It answers -1 and changes nothing
    exactly when there is no current task or no child of it is a zombie, or, when a
    pid is given (a positive number), the child with that pid is none; else it
    answers the pid and exit code of the first such child and frees its slot, where
    the pid, the parent, the close-on-exec marks and the exit code are cleared and
    nothing else changes, and no other slot. *)
Theorem proc_waitpid_spec p want status :
  proc_inv p -> wp (proc_waitpid want status) (wait_result p want status) p.
Proof. intros. by apply wp_waitpid. Qed.

(** A child is forked, scheduled, exits with [code]; the parent waits for it. *)
Definition fork_exit_wait (code : Z) : M (proc H) (option (Z * option Z)) :=
  parent ← task_current;
  child ← proc_fork_current;
  match child with
  | None => mret None
  | Some i =>
      x ← get_task i;
      proc_set_current (Some i) ;;
      proc_exit_current code ;;
      proc_set_current parent ;;
      w ← proc_waitpid (pid x) true;
      mret (Some w)
  end.

(** Exit codes reach the parent.  When a process forks, the child exits with
    a code and the parent waits for it, the parent gets the child's pid and that
    code, the child's slot is free again, and every other task, the number of
    tasks and the current task are as before the fork. *)
Theorem fork_exit_wait_code p code :
  proc_inv p -> next_pid p < INT32_MAX ->
  wp (fork_exit_wait code) (fun r p' => proc_inv p' /\
    match r with
    | None => only_heap p p'
    | Some w => w = (next_pid p, Some code) /\ task_used p' = task_used p /\
        current_task p' = current_task p /\
        exists i t, arr (task_table p) i = Some t /\ live t = false /\
          (forall t', arr (task_table p') i = Some t' -> live t' = false) /\
          forall j, j <> i -> arr (task_table p') j = arr (task_table p) j
    end) p.
Proof.
  intros Hi Hmax. unfold fork_exit_wait, task_current. task_go.
  apply wp_proc_lock; [apply Hi|]. task_go. rewrite unlock_id by done. simpl.
  apply wp_fork; [done..|]. intros [i|] p1 (Hi1 & Hf & _); [|by task_go].
  destruct Hf as (c & me & x & Hc & Hme & [(old & Ho & Hlo) Ht1 Hst [Hpx Hn1] Hpp Hu1 Hc1] & _ & _ & Hne).
  pose proof (arr_range _ _ _ Ho) as Hr.
  assert (Hx : arr (task_table p1) i = Some x) by (rewrite Ht1; by apply arr_upd_eq).
  assert (Hlx : live x = true) by (unfold live, is_state; by rewrite Hst).
  task_go. eapply wp_rd; [exact Hx|]. task_go.
  apply wp_set_current; [done|intros t [= <-]; eauto|]. intros Hi2. task_go.
  apply wp_exit; [done| |done]. intros i' x' [= <-] Hx' Hi3. simpl in Hx', Hi3 |- *.
  rewrite Hx in Hx'. injection Hx' as <-. rewrite Ht1, upd_upd in *. task_go.
  apply wp_set_current; [done| |].
  { intros c' Hc'. rewrite Hc in Hc'. injection Hc' as <-. simpl.
    rewrite arr_upd_ne by done. by destruct (pi_current _ Hi c Hc) as (? & ? & ?); eauto. }
  intros Hi4. task_go. change (pid x) with (pid (zombie code x)).
  eapply (wp_wait_zombie _ i (zombie code x)); simpl;
    [exact Hi4|by rewrite Hc|by apply arr_upd_eq|done| |].
  { rewrite Hpp. unfold current_pid. simpl. by rewrite Hc, arr_upd_ne by done. }
  intros Hi5. task_go. split; [exact Hi5|]. simpl. rewrite Hpx, upd_upd.
  split_and!; [done|lia|done|]. exists i, old. split_and!; [done|done|..].
  - rewrite arr_upd_eq by done. by intros t [= <-].
  - intros j Hj. by rewrite arr_upd_ne by done.
Qed.

(** A forked child has no frame for its first switch.  Its saved stack
    pointer is the very top of its stack, although a switch to it pops seven
    words from there: every address [nm_context_switch] reads lies outside the
    child's stack, and the child is runnable with a saved stack pointer, so the
    scheduler may pick it. *)
Theorem fork_child_frame_outside p i p' :
  proc_inv p -> next_pid p < INT32_MAX -> proc_fork_current p = Done (Some i) p' ->
  exists x, arr (task_table p') i = Some x /\ state x = NM_TASK_RUNNABLE /\ saved_rsp x <> 0 /\
    forall k, 0 <= k < 7 -> ~ (stack_base x <= saved_rsp x + 8 * k < kernel_stack_top x).
Proof.
  intros Hi Hmax Hrun.
  assert (Hf : wp proc_fork_current (fork_result p) p) by (by apply wp_fork).
  unfold wp in Hf. rewrite Hrun in Hf. destruct Hf as (Hi' & Hf & _).
  destruct Hf as (c & me & x & _ & _ & [(old & Ho & _) Ht Hst [Hpx _] _ _ _] & Hfk & _).
  exists x. unfold forked in Hfk. destruct_and! Hfk.
  assert (Hx : arr (task_table p') i = Some x)
    by (rewrite Ht; apply arr_upd_eq; by eapply arr_range).
  split_and!; [done|done|unfold KSTACK_SIZE in *; lia|intros; lia].
Qed.

(** Waiting for a child leaks its kernel stack.  The slot of the reaped task
    is free again, yet the heap still holds the [KSTACK_SIZE] bytes of its stack
    as allocated, and no task of the table refers to them any more. *)
Theorem waitpid_leaks_stack p want status i t :
  proc_inv p -> current_task p <> None ->
  arr (task_table p) i = Some t -> awaited (current_pid p) want t -> pid t <> 1 ->
  (forall j u, j < i -> arr (task_table p) j = Some u -> ~ awaited (current_pid p) want u) ->
  wp (proc_waitpid want status) (fun _ p' =>
    owns (proc_heap p') (stack_base t) KSTACK_SIZE /\
    forall j u, arr (task_table p') j = Some u -> on_own_stack u ->
      kernel_stack_top u <> kernel_stack_top t) p.
Proof.
  intros Hi Hc Ht Hr Hpid Hfirst. apply wp_waitpid; [done|].
  destruct (awaited_live _ _ _ Hr) as [Hl _].
  assert (Hown : on_own_stack t) by (by split).
  intros r p' [Hi' [(_ & _ & [?|Hno])|(j & t2 & _ & Ht2 & Hr2 & Hfj & _ & ->)]]; [done|..].
  { by destruct (Hno i t Ht). }
  assert (j = i) as ->.
  { destruct (Z.lt_trichotomy i j) as [Hij|[?|Hij]]; [by destruct (Hfj i t)|done|by destruct (Hfirst j t2)]. }
  simplify_eq. simpl. split; [by apply (so_owned _ _ (pi_stacks _ Hi) i)|].
  intros k u. pose proof (arr_range _ _ _ Ht). rewrite arr_upd by done.
  destruct (Z.eqb_spec i k) as [<-|Hik].
  - intros [= <-] [Hlr _]. done.
  - intros Hk Hu Heq. destruct (so_apart _ _ (pi_stacks _ Hi) i k t u) as [Ha|Ha]; try done.
    all: unfold stack_base, KSTACK_SIZE in Ha; lia.
Qed.
End properties.

(** *** A concrete machine: the kernel heap over two megabytes *)

#[local] Existing Instance Kheap.kheap_KHeap.

Definition task0 : nm_task :=
  mk_task 0 0 false NM_TASK_UNUSED (mk_regs 0 0 0 0 0 0 0 0 0 0 0 0 0 0 0 0 0 0) 0
    (replicate 32 0) 0 0 0 0 0 (mk_sched 0 0 0 0) 0 0 0 (replicate 24 0).
Definition boot0 : proc Kheap.kheap := mk_proc (replicate 128 task0) 0 0 None 0 ∅ Kheap.heap0.
Definition boot1 : proc Kheap.kheap := Eval vm_compute in
  match proc_init boot0 with Done _ p => p | Stuck _ => boot0 end.
(** After a fork. *)
Definition boot2 : proc Kheap.kheap := Eval vm_compute in
  match proc_fork_current boot1 with Done _ p => p | Stuck _ => boot0 end.
(** After the child exited with code 7. *)
Definition boot3 : proc Kheap.kheap := Eval vm_compute in
  match (proc_set_current (Some 1) ;; proc_exit_current 7 ;; proc_set_current (Some 0)) boot2 with
  | Done _ p => p
  | Stuck _ => boot0
  end.

Lemma boot_init : proc_init boot0 = Done tt boot1.
Proof. vm_compute. reflexivity. Qed.

Lemma boot0_shape : Forall task_shape (task_table boot0).
Proof. apply Forall_replicate. done. Qed.

Lemma boot0_heap : heap_ok (proc_heap boot0).
Proof. exists []. exact Kheap.heap0_inv. Qed.

Lemma boot1_inv : proc_inv boot1.
Proof.
  eapply wp_inv; [|exact boot_init]. apply wp_proc_init; [done|].
  apply init_inv; [done|exact boot0_shape|exact boot0_heap].
Qed.

Lemma boot_fork : proc_fork_current boot1 = Done (Some 1) boot2.
Proof. vm_compute. reflexivity. Qed.

Lemma boot2_step : step 0 boot1 boot2.
Proof. eapply step_fork; [|exact boot_fork]. vm_compute. reflexivity. Qed.

Lemma boot2_inv : proc_inv boot2.
Proof. eapply step_inv; [exact boot1_inv|exact boot2_step]. Qed.

Lemma boot3_inv : proc_inv boot3.
Proof.
  apply (wp_inv (proc_set_current (Some 1) ;; proc_exit_current 7 ;; proc_set_current (Some 0))
    boot2 tt); [|vm_compute; reflexivity].
  wp_step. apply wp_set_current; [exact boot2_inv|intros t [= <-]; by eexists|]. intros Hi.
  wp_step. apply wp_exit; [exact Hi| |done]. intros c t [= <-] Ht Hi'.
  apply wp_set_current; [exact Hi'|intros u [= <-]; by eexists|done].
Qed.

Lemma proc_reachable_witness : rtc (step 0) boot1 boot2 /\ proc_inv boot2.
Proof.
  split; [apply rtc_once; exact boot2_step|].
  apply (proc_reachable_inv 0 boot0 boot1 boot2);
    [reflexivity|exact boot0_shape|exact boot0_heap|exact boot_init|].
  apply rtc_once. exact boot2_step.
Defined.



Lemma proc_waitpid_witness : proc_inv boot3 /\ wp (proc_waitpid (-1) true) (wait_result boot3 (-1) true) boot3.
Proof. split; [exact boot3_inv|]. apply (proc_waitpid_spec boot3). exact boot3_inv. Defined.

Lemma fork_exit_wait_witness :
  wp (fork_exit_wait 7) (fun r p' => proc_inv p' /\
    match r with
    | None => only_heap boot1 p'
    | Some w => w = (next_pid boot1, Some 7) /\ task_used p' = task_used boot1 /\
        current_task p' = current_task boot1 /\
        exists i t, arr (task_table boot1) i = Some t /\ live t = false /\
          (forall t', arr (task_table p') i = Some t' -> live t' = false) /\
          forall j, j <> i -> arr (task_table p') j = arr (task_table boot1) j
    end) boot1.
Proof. apply (fork_exit_wait_code boot1 7); [exact boot1_inv|vm_compute; reflexivity]. Defined.

Lemma fork_child_frame_witness :
  exists x, arr (task_table boot2) 1 = Some x /\ state x = NM_TASK_RUNNABLE /\ saved_rsp x <> 0 /\
    forall k, 0 <= k < 7 -> ~ (stack_base x <= saved_rsp x + 8 * k < kernel_stack_top x).
Proof.
  apply (fork_child_frame_outside boot1 1 boot2);
    [exact boot1_inv|vm_compute; reflexivity|exact boot_fork].
Defined.

Lemma waitpid_leaks_witness :
  exists t, arr (task_table boot3) 1 = Some t /\ wp (proc_waitpid (-1) true) (fun _ p' =>
    owns (proc_heap p') (stack_base t) KSTACK_SIZE /\
    forall j u, arr (task_table p') j = Some u -> on_own_stack u ->
      kernel_stack_top u <> kernel_stack_top t) boot3.
Proof.
  eexists. split; [reflexivity|].
  apply (waitpid_leaks_stack boot3 (-1) true 1);
    [exact boot3_inv|discriminate|reflexivity| |vm_compute; discriminate|].
  - split_and!; [vm_compute; reflexivity|vm_compute; reflexivity|lia].
  - intros j u Hj Hu (Hz & _). pose proof (arr_range _ _ _ Hu). assert (j = 0) as -> by lia.
    vm_compute in Hu. injection Hu as <-. discriminate.
Defined.

End Task.
