(* ===== verification/Sched.v ===== *)
(** * Scheduler ([kernel/proc/sched.c], [kernel/proc/switch.S])

    Round robin and fair picks over the task table, the accounting of run time,
    the tick and the yield, with the context switch as far as it saves and
    restores the callee-saved registers. *)

From S2P Require Import Prelude Interfaces Kheap Task.
Import Task.

Module Sched.

Inductive nm_sched_policy := NM_SCHED_RR | NM_SCHED_CFS.

#[export] Instance nm_sched_policy_eq_dec : EqDecision nm_sched_policy.
Proof. solve_decision. Defined.

(** The processor as a context switch sees it: the stack pointer at entry (the
    return address is the word it points to), the callee-saved registers in the
    order they are popped (r15, r14, r13, r12, rbx, rbp), and where it goes on. *)
Record cpu := mk_cpu { cpu_rsp : Z; cpu_saved : list Z; cpu_rip : Z }.

(** The static data of [sched.c], with the process component and the processor. *)
Record sched_st (H : Type) := mk_st {
  sc_proc : proc H;
  global_policy : nm_sched_policy;
  rr_cursor : Z;
  sc_cpu : cpu;
}.
Arguments mk_st {H} _ _ _ _.
Arguments sc_proc {H} _.
Arguments global_policy {H} _.
Arguments rr_cursor {H} _.
Arguments sc_cpu {H} _.

Definition priority_weight (priority : Z) : Z :=
  let priority := if 39 <? priority then 39 else priority in 40 - priority.

Section ops.
Context {H : Type}.
Implicit Types (s : sched_st H).

Definition set_sc_proc (v : proc H) s := mk_st v (global_policy s) (rr_cursor s) (sc_cpu s).
Definition set_policy v s := mk_st (sc_proc s) v (rr_cursor s) (sc_cpu s).
Definition set_rr_cursor v s := mk_st (sc_proc s) (global_policy s) v (sc_cpu s).
Definition set_cpu v s := mk_st (sc_proc s) (global_policy s) (rr_cursor s) v.

Definition on_proc {A} (c : M (proc H) A) : M (sched_st H) A := lift_to sc_proc set_sc_proc c.

Definition sched_init (policy : nm_sched_policy) : M (sched_st H) unit :=
  modify (set_policy policy) ;; modify (set_rr_cursor 0).

Definition sched_set_policy (policy : nm_sched_policy) : M (sched_st H) unit :=
  modify (set_policy policy).

Definition sched_get_policy : M (sched_st H) nm_sched_policy := gets global_policy.

Definition is_cur (i : Z) (cur : option Z) : bool := bool_decide (Some i = cur).

Definition pick_rr : M (sched_st H) (option Z) :=
  cur ← on_proc task_current;
  r ← for_each (upto 0 128) (fun probe =>
    cursor ← gets rr_cursor;
    let idx := u64 (cursor + probe) `mod` 128 in
    task ← on_proc (task_by_index idx);
    match task with
    | None => mret None
    | Some i =>
        t ← on_proc (get_task i);
        if (is_state NM_TASK_RUNNABLE t || is_state NM_TASK_RUNNING t)
           && (is_cur i cur || negb (saved_rsp t =? 0))
        then modify (set_rr_cursor ((idx + 1) `mod` 128)) ;; mret (Some i)
        else mret None
    end);
  match r with
  | Some i => mret (Some i)
  | None => on_proc task_current
  end.

(** One pass of [pick_cfs] over the tasks in state [st]. *)
Definition cfs_pass (st : nm_task_state) (cur : option Z) (best : option Z) :
    M (sched_st H) (option Z) :=
  for_acc (upto 0 128) best (fun best idx =>
    task ← on_proc (task_by_index idx);
    match task with
    | None => mret best
    | Some i =>
        t ← on_proc (get_task i);
        if negb (is_state st t) then mret best else
        if negb (is_cur i cur) && (saved_rsp t =? 0) then mret best else
        match best with
        | None => mret (Some i)
        | Some b =>
            u ← on_proc (get_task b);
            mret (if vruntime (sched t) <? vruntime (sched u) then Some i else best)
        end
    end).

Definition pick_cfs : M (sched_st H) (option Z) :=
  cur ← on_proc task_current;
  best ← cfs_pass NM_TASK_RUNNABLE cur None;
  match best with
  | Some b => mret (Some b)
  | None =>
      best ← cfs_pass NM_TASK_RUNNING cur None;
      match best with
      | Some b => mret (Some b)
      | None => on_proc task_current
      end
  end.

Definition sched_pick_next : M (sched_st H) (option Z) :=
  policy ← gets global_policy;
  match policy with
  | NM_SCHED_CFS => pick_cfs
  | NM_SCHED_RR => pick_rr
  end.

Definition charge_cfs (ticks : Z) (t : nm_task) : nm_task :=
  let w := priority_weight (priority (sched t)) in
  set_sched (set_vruntime (u64 (vruntime (sched t) + u64 (ticks * 1024) / w)) (sched t)) t.

Definition charge_rr (ticks : Z) (t : nm_task) : nm_task :=
  let t := set_sched (set_rr_budget (u64 (rr_budget (sched t) + ticks)) (sched t)) t in
  if timeslice_ticks (sched t) <=? rr_budget (sched t)
  then set_state NM_TASK_RUNNABLE (set_sched (set_rr_budget 0 (sched t)) t)
  else t.

Definition sched_on_run (task : option Z) (ticks : Z) : M (sched_st H) unit :=
  match task with
  | None => mret tt
  | Some i =>
      if ticks =? 0 then mret tt else
      policy ← gets global_policy;
      match policy with
      | NM_SCHED_CFS =>
          t ← on_proc (get_task i);
          if priority_weight (priority (sched t)) =? 0 then stuck DivByZero else
          on_proc (mod_task i (charge_cfs ticks))
      | NM_SCHED_RR => on_proc (mod_task i (charge_rr ticks))
      end
  end.

(** The hand-over that [sched_tick] and [sched_yield] share. *)
Definition hand_over (c n : Z) : M (sched_st H) unit :=
  on_proc (mod_task c (set_state NM_TASK_RUNNABLE)) ;;
  on_proc (mod_task n (set_state NM_TASK_RUNNING)) ;;
  on_proc (proc_set_current (Some n)).

Definition sched_tick (ticks : Z) : M (sched_st H) unit :=
  cur ← on_proc task_current;
  match cur with
  | None => mret tt
  | Some c =>
      sched_on_run (Some c) ticks ;;
      next ← sched_pick_next;
      match next with
      | None => mret tt
      | Some n => if n =? c then mret tt else hand_over c n
      end
  end.

Fixpoint push_all (l : list Z) (sp : Z) : M (sched_st H) Z :=
  match l with
  | [] => mret sp
  | v :: l => sp' ← on_proc (push sp v); push_all l sp'
  end.

(** [nm_context_switch(&old->saved_rsp, new_rsp)]: six pushes (rbp first), the
    stack pointer to the old task, then six pops and the return from the new
    stack. *)
Definition nm_context_switch (old new_rsp : Z) : M (sched_st H) unit :=
  c ← gets sc_cpu;
  sp ← push_all (rev (cpu_saved c)) (cpu_rsp c);
  on_proc (mod_task old (set_saved_rsp sp)) ;;
  mem ← gets (fun s => stack_mem (sc_proc s));
  match context_restore mem new_rsp with
  | Some (regs, ret, sp') => modify (set_cpu (mk_cpu sp' regs ret))
  | None => stuck OutOfBounds
  end.

Definition sched_yield : M (sched_st H) unit :=
  cur ← on_proc task_current;
  match cur with
  | None => mret tt
  | Some c =>
      next ← sched_pick_next;
      match next with
      | None => mret tt
      | Some n =>
          if n =? c then mret tt else
          hand_over c n ;;
          t ← on_proc (get_task n);
          if negb (saved_rsp t =? 0) then nm_context_switch c (saved_rsp t) else mret tt
      end
  end.
End ops.

(** ** Picks *)

Section picks.
Context {H : Type} `{KHeap H}.
Implicit Types (s : sched_st H).

Record sched_inv s : Prop := mk_sched_inv {
  si_proc : proc_inv (sc_proc s);
  si_cursor : 0 <= rr_cursor s < 128;
  si_priority : forall i t, arr (task_table (sc_proc s)) i = Some t -> 0 <= priority (sched t);
}.

Definition tasks s : list nm_task := task_table (sc_proc s).
Definition current s : option Z := current_task (sc_proc s).

(** The test of [pick_rr]: it can run, and it is the current task or has a stack
    to switch to. *)
Definition can_switch s (i : Z) (t : nm_task) : bool :=
  is_cur i (current s) || negb (saved_rsp t =? 0).
Definition eligible s (i : Z) : bool :=
  match arr (tasks s) i with
  | Some t => (is_state NM_TASK_RUNNABLE t || is_state NM_TASK_RUNNING t) && can_switch s i t
  | None => false
  end.

Lemma set_sc_proc_id s : set_sc_proc (sc_proc s) s = s.
Proof. by destruct s. Qed.

Lemma wp_task_current s (Q : option Z -> sched_st H -> Prop) :
  proc_lock_word (sc_proc s) = 0 -> Q (current s) s -> wp (on_proc task_current) Q s.
Proof.
  intros Hl HQ. apply wp_lift. unfold task_current. task_go. apply wp_proc_lock; [done|].
  task_go. destruct s as [p]. destruct p. by simplify_eq/=.
Qed.

Lemma wp_task_by_index s i (Q : option Z -> sched_st H -> Prop) :
  proc_inv (sc_proc s) -> 0 <= i < 128 ->
  (forall t, arr (tasks s) i = Some t -> Q (if live t then Some i else None) s) ->
  wp (on_proc (task_by_index i)) Q s.
Proof.
  intros Hi Hr HQ. destruct (arr_lookup (tasks s) i) as [t Ht].
  { unfold tasks. by rewrite (to_len _ _ (pi_table _ Hi)). }
  specialize (HQ t Ht). unfold live in HQ.
  apply wp_lift. unfold task_by_index. task_go. apply wp_proc_lock; [apply Hi|].
  unfold NM_MAX_TASKS. destruct (Z.leb_spec 128 i); [lia|]. wp_step.
  eapply wp_rd; [exact Ht|]. destruct (is_state NM_TASK_UNUSED t); task_go;
    rewrite unlock_id, set_sc_proc_id by done; exact HQ.
Qed.

Lemma wp_get_task s i t (Q : nm_task -> sched_st H -> Prop) :
  arr (tasks s) i = Some t -> Q t s -> wp (on_proc (get_task i)) Q s.
Proof. intros Ht HQ. apply wp_lift. eapply wp_rd; [exact Ht|]. by rewrite set_sc_proc_id. Qed.

Lemma runs_live t : is_state NM_TASK_RUNNABLE t || is_state NM_TASK_RUNNING t = true -> live t = true.
Proof. unfold live, is_state. by destruct (state t). Qed.

(** The slot [d] places after the cursor. *)
Definition probe s (d : Z) : Z := (rr_cursor s + d) `mod` 128.

Lemma probe_range s d : 0 <= probe s d < 128.
Proof. apply Z.mod_pos_bound. lia. Qed.

(** What [pick_rr] answers: the first eligible slot in cyclic order from the
    cursor, which moves behind it, or the current task. *)
Definition rr_result s (r : option Z) s' : Prop :=
  (exists d, 0 <= d < 128 /\ eligible s (probe s d) = true /\ r = Some (probe s d) /\
     (forall d', 0 <= d' < d -> eligible s (probe s d') = false) /\
     s' = set_rr_cursor ((probe s d + 1) `mod` 128) s) \/
  ((forall i, 0 <= i < 128 -> eligible s i = false) /\ r = current s /\ s' = s).

Lemma probe_onto s i : 0 <= rr_cursor s < 128 -> 0 <= i < 128 ->
  exists d, 0 <= d < 128 /\ probe s d = i.
Proof.
  intros Hc Hi. exists ((i - rr_cursor s) `mod` 128). unfold probe.
  split; [apply Z.mod_pos_bound; lia|]. rewrite Zplus_mod_idemp_r, Z.mod_small; lia.
Qed.

Lemma wp_pick_rr s (Q : option Z -> sched_st H -> Prop) :
  sched_inv s -> (forall r s', rr_result s r s' -> Q r s') -> wp pick_rr Q s.
Proof.
  intros [Hi Hc Hprio] HQ. unfold pick_rr. wp_step. apply wp_task_current; [apply Hi|]. wp_step.
  apply (wp_for_each (fun d t => t = s /\ forall d', 0 <= d' < d -> eligible s (probe s d') = false)).
  - done.
  - split; [done|]. intros. lia.
  - intros d t Hd [-> Hno]. wp_step. wp_step. cbv zeta. rewrite u64_small by lia.
    fold (probe s d). pose proof (probe_range s d) as Hp. wp_step.
    apply wp_task_by_index; [done|done|]. intros t Ht.
    assert (Hel : eligible s (probe s d) =
      (is_state NM_TASK_RUNNABLE t || is_state NM_TASK_RUNNING t) && can_switch s (probe s d) t).
    { unfold eligible. by rewrite Ht. }
    assert (Hnext : eligible s (probe s d) = false ->
      forall d', 0 <= d' < d + 1 -> eligible s (probe s d') = false).
    { intros E d' Hd'. destruct (decide (d' = d)) as [->|]; [done|]. apply Hno. lia. }
    destruct (live t) eqn:Hl.
    + wp_step. eapply wp_get_task; [done|]. fold (can_switch s (probe s d) t). rewrite <- Hel.
      destruct (eligible s (probe s d)) eqn:E; wp_go; [|auto].
      apply HQ. left. exists d. done.
    + wp_go. split; [done|]. apply Hnext. rewrite Hel.
      destruct (_ || _) eqn:E; [|done]. by rewrite runs_live in Hl.
  - intros t [-> Hno]. apply wp_task_current; [apply Hi|]. apply HQ. right.
    split; [|done]. intros i Hii. destruct (probe_onto s i Hc Hii) as (d & Hd & <-). by apply Hno.
Qed.

(** A pass of [pick_cfs]: the candidates it looks at. *)
Definition candidate s (st : nm_task_state) (i : Z) : bool :=
  match arr (tasks s) i with
  | Some t => is_state st t && can_switch s i t
  | None => false
  end.
Definition vruntime_at s (i : Z) : Z := default 0 (vruntime ∘ sched <$> arr (tasks s) i).

(** The first candidate below [n] with the least virtual run time. *)
Definition least s (st : nm_task_state) (n : Z) (best : option Z) : Prop :=
  match best with
  | None => forall i, 0 <= i < n -> candidate s st i = false
  | Some b => 0 <= b < n /\ candidate s st b = true /\
      (forall i, 0 <= i < n -> candidate s st i = true -> vruntime_at s b <= vruntime_at s i) /\
      (forall i, 0 <= i < b -> candidate s st i = true -> vruntime_at s b < vruntime_at s i)
  end.

Lemma least_skip s st n best :
  least s st n best -> candidate s st n = false -> 0 <= n -> least s st (n + 1) best.
Proof.
  intros Hl Hc Hn. unfold least in *. destruct best as [b|].
  - destruct Hl as (Hb & Hcb & Hmin & Hfst). split_and!; [lia|lia|done| |done].
    intros i Hi Hci. apply Hmin; [|done]. destruct (decide (i = n)) as [->|]; [congruence|lia].
  - intros i Hi. destruct (decide (i = n)) as [->|]; [done|]. apply Hl. lia.
Qed.

Lemma least_take s st n best :
  least s st n best -> candidate s st n = true -> 0 <= n ->
  match best with Some b => vruntime_at s n < vruntime_at s b | None => True end ->
  least s st (n + 1) (Some n).
Proof.
  intros Hl Hc Hn Hlt. assert (Hall : forall i, 0 <= i < n -> candidate s st i = true ->
    vruntime_at s n < vruntime_at s i).
  { intros i Hi Hci. destruct best as [b|]; simpl in Hl.
    - destruct Hl as (_ & _ & Hmin & _). specialize (Hmin i Hi Hci). lia.
    - by rewrite Hl in Hci. }
  simpl. split_and!; [lia|lia|done| |done]. intros i Hi Hci.
  destruct (decide (i = n)) as [->|]; [done|]. apply Z.lt_le_incl, Hall; [lia|done].
Qed.

Lemma least_keep s st n b :
  least s st n (Some b) -> candidate s st n = true -> vruntime_at s b <= vruntime_at s n ->
  least s st (n + 1) (Some b).
Proof.
  intros (Hb & Hcb & Hmin & Hfst) Hc Hle. simpl. split_and!; [lia|lia|done| |done].
  intros i Hi Hci. destruct (decide (i = n)) as [->|]; [done|]. apply Hmin; [lia|done].
Qed.

Lemma wp_cfs_pass s st (Q : option Z -> sched_st H -> Prop) :
  sched_inv s -> st <> NM_TASK_UNUSED ->
  (forall best, least s st 128 best -> Q best s) -> wp (cfs_pass st (current s) None) Q s.
Proof.
  intros [Hi Hc Hprio] Hst HQ. unfold cfs_pass.
  apply (wp_for_acc (fun n best t => t = s /\ least s st n best)).
  - done.
  - split; [done|]. intros i. lia.
  - intros n best t Hn [-> Hl]. wp_step. apply wp_task_by_index; [done|done|]. intros t Ht.
    assert (Hcand : candidate s st n = is_state st t && can_switch s n t)
      by (unfold candidate; by rewrite Ht).
    assert (Hv : vruntime_at s n = vruntime (sched t)) by (unfold vruntime_at; by rewrite Ht).
    assert (Hdead : live t = false -> is_state st t = false).
    { unfold live, is_state. destruct (state t); try done. intros _. by apply bool_decide_eq_false. }
    destruct (live t) eqn:Hlt; [|wp_go; split; [done|apply least_skip; [done| |lia]];
      by rewrite Hcand, Hdead].
    wp_step. eapply wp_get_task; [done|].
    destruct (is_state st t) eqn:Est; simpl negb;
      [|wp_go; split; [done|apply least_skip; [done|by rewrite Hcand|lia]]].
    assert (Hsw : negb (is_cur n (current s)) && (saved_rsp t =? 0) = negb (can_switch s n t)).
    { unfold can_switch. by rewrite negb_orb, negb_involutive. }
    rewrite Hsw. destruct (can_switch s n t) eqn:Esw; simpl negb;
      [|wp_go; split; [done|apply least_skip; [done|by rewrite Hcand|lia]]].
    destruct best as [b|]; [|wp_go; split; [done|by eapply least_take; [..|lia|]]].
    destruct (arr_lookup (tasks s) b) as [u Hu].
    { unfold tasks. rewrite (to_len _ _ (pi_table _ Hi)). unfold NM_MAX_TASKS.
      destruct Hl as [? _]. lia. }
    assert (Hvb : vruntime_at s b = vruntime (sched u)) by (unfold vruntime_at; by rewrite Hu).
    wp_step. eapply wp_get_task; [done|]. rewrite <- Hv, <- Hvb.
    destruct (Z.ltb_spec (vruntime_at s n) (vruntime_at s b)); wp_go; split; try done.
    + by eapply least_take; [..|lia|].
    + by apply least_keep.
  - intros best t [-> Hl]. by apply HQ.
Qed.

(** What [pick_cfs] answers. *)
Definition cfs_result s (r : option Z) : Prop :=
  (exists b, r = Some b /\ least s NM_TASK_RUNNABLE 128 (Some b)) \/
  (least s NM_TASK_RUNNABLE 128 None /\
   ((exists b, r = Some b /\ least s NM_TASK_RUNNING 128 (Some b)) \/
    (least s NM_TASK_RUNNING 128 None /\ r = current s))).

Lemma wp_pick_cfs s (Q : option Z -> sched_st H -> Prop) :
  sched_inv s -> (forall r, cfs_result s r -> Q r s) -> wp pick_cfs Q s.
Proof.
  intros Hi HQ. pose proof (pi_lock _ (si_proc _ Hi)). unfold pick_cfs.
  wp_step. apply wp_task_current; [done|]. wp_step. apply wp_cfs_pass; [done|done|].
  intros [b|] Hb; [wp_go; apply HQ; left; eauto|]. wp_step. apply wp_cfs_pass; [done|done|].
  intros [b'|] Hb'; [wp_go; apply HQ; right; eauto|]. apply wp_task_current; [done|].
  apply HQ. right. auto.
Qed.
End picks.

(** ** Tick and yield *)

Section turns.
Context {H : Type} `{KHeap H}.
Implicit Types (s : sched_st H).

Definition may_run (t : nm_task) : bool := is_state NM_TASK_RUNNABLE t || is_state NM_TASK_RUNNING t.

(** The scheduler changes of a task only its state, to one that may run, and
    its accounts. *)
Definition kept (t x : nm_task) : Prop :=
  pid x = pid t /\ ppid x = ppid t /\ kernel_stack_top x = kernel_stack_top t /\
  saved_rsp x = saved_rsp t /\ fd_table x = fd_table t /\
  (name x = name t /\ priority (sched x) = priority (sched t)) /\
  (state x = state t \/ may_run x = true).

Lemma kept_refl t : kept t t.
Proof. unfold kept. auto 10. Qed.

Lemma kept_live t x : kept t x -> live t = true -> live x = true.
Proof.
  intros (_ & _ & _ & _ & _ & _ & [E|E]) Hl; [unfold live, is_state in *; by rewrite E|].
  by apply runs_live.
Qed.

Lemma kept_may_run t x : kept t x -> may_run t = true -> may_run x = true.
Proof. intros (_ & _ & _ & _ & _ & _ & [E|E]) Hl; [|done]. unfold may_run, is_state in *. by rewrite E. Qed.

Lemma kept_state t st :
  st = NM_TASK_RUNNABLE \/ st = NM_TASK_RUNNING -> kept t (set_state st t).
Proof. intros Hs. unfold kept. simpl. split_and!; try done. right. by destruct Hs as [->| ->]. Qed.

Lemma kept_trans t x y : kept t x -> kept x y -> kept t y.
Proof.
  intros Hx Hy. pose proof (kept_may_run _ _ Hy) as Hm. unfold kept in *.
  destruct Hx as (? & ? & ? & ? & ? & [? ?] & Hx), Hy as (? & ? & ? & ? & ? & [? ?] & Hy).
  split_and!; try congruence. destruct Hx as [Hx|Hx], Hy as [Hy|Hy]; auto. left. congruence.
Qed.

Lemma kept_charge_cfs ticks t : kept t (charge_cfs ticks t).
Proof. unfold kept. auto 10. Qed.

Lemma kept_charge_rr ticks t : kept t (charge_rr ticks t).
Proof. unfold kept, charge_rr. destruct (_ <=? _); simpl; auto 10. Qed.

(** [s] with slot [i] changed. *)
Definition put s (i : Z) (x : nm_task) : sched_st H :=
  set_sc_proc (set_table (upd (tasks s) i x) (sc_proc s)) s.

Lemma wp_mod s i t f (Q : unit -> sched_st H -> Prop) :
  arr (tasks s) i = Some t -> Q tt (put s i (f t)) -> wp (on_proc (mod_task i f)) Q s.
Proof. intros Ht HQ. apply wp_lift. eapply wp_modify_at; [exact Ht|exact HQ]. Qed.

Lemma kept_inv s i t x :
  sched_inv s -> arr (tasks s) i = Some t -> live t = true -> kept t x -> sched_inv (put s i x).
Proof.
  intros [Hi Hc Hprio] Ht Hl Hk. constructor; simpl; [|done|].
  2:{ intros j u. rewrite arr_upd by (by eapply arr_range). destruct (i =? j); [|by apply Hprio].
      intros [= <-]. destruct Hk as (_ & _ & _ & _ & _ & [_ ->] & _). by eapply Hprio. }
  pose proof (kept_live _ _ Hk Hl) as Hlx. destruct (slot_shape _ _ _ Hi Ht) as [Hfd Hnm].
  unfold kept in Hk. destruct_and! Hk. eapply change_inv; try done. by split; congruence.
Qed.

Lemma priority_weight_range prio : 0 <= prio -> 1 <= priority_weight prio <= 40.
Proof. intros. unfold priority_weight. destruct (Z.ltb_spec 39 prio); lia. Qed.

Lemma wp_on_run s i t ticks (Q : unit -> sched_st H -> Prop) :
  sched_inv s -> arr (tasks s) i = Some t ->
  (forall x, kept t x ->
     x = (if ticks =? 0 then t else match global_policy s with
          | NM_SCHED_CFS => charge_cfs ticks t | NM_SCHED_RR => charge_rr ticks t end) ->
     Q tt (put s i x)) ->
  wp (sched_on_run (Some i) ticks) Q s.
Proof.
  intros Hi Ht HQ. pose proof (si_priority _ Hi i t Ht) as Hp. unfold sched_on_run. destruct (ticks =? 0) eqn:E.
  { wp_go. specialize (HQ t (kept_refl t) eq_refl). unfold put in HQ.
    rewrite (upd_id _ _ _ Ht) in HQ. destruct s as [p]. destruct p. exact HQ. }
  do 2 wp_step. destruct (global_policy s).
  - eapply wp_mod; [done|]. apply HQ; [apply kept_charge_rr|done].
  - wp_step. eapply wp_get_task; [done|].
    pose proof (priority_weight_range _ Hp). destruct (Z.eqb_spec (priority_weight (priority (sched t))) 0); [lia|].
    eapply wp_mod; [done|]. apply HQ; [apply kept_charge_cfs|done].
Qed.

(** The answer of the pick, with the state after it. *)
Definition pick_result s (r : option Z) s' : Prop :=
  match global_policy s with
  | NM_SCHED_RR => rr_result s r s'
  | NM_SCHED_CFS => cfs_result s r /\ s' = s
  end.

Lemma wp_pick_next s (Q : option Z -> sched_st H -> Prop) :
  sched_inv s -> (forall r s', pick_result s r s' -> Q r s') -> wp sched_pick_next Q s.
Proof.
  intros Hi HQ. unfold sched_pick_next, pick_result in *. do 2 wp_step.
  destruct (global_policy s); [by apply wp_pick_rr|]. apply wp_pick_cfs; [done|]. auto.
Qed.

Lemma candidate_live s st i :
  st <> NM_TASK_UNUSED -> candidate s st i = true ->
  exists t, arr (tasks s) i = Some t /\ live t = true /\ state t = st.
Proof.
  unfold candidate. destruct (arr (tasks s) i) as [t|]; [|done]. intros Hst [Hs _]%andb_true_iff.
  unfold is_state in Hs. apply bool_decide_eq_true in Hs. exists t. split_and!; [done| |done].
  unfold live, is_state. rewrite Hs. by rewrite bool_decide_eq_false_2.
Qed.

(** A pick moves the cursor at most, and picks a task that may run or the current one. *)
Lemma pick_frame s r s' :
  sched_inv s -> pick_result s r s' ->
  (exists k, 0 <= k < 128 /\ s' = set_rr_cursor k s) /\
  (r = current s \/ exists n t, r = Some n /\ arr (tasks s) n = Some t /\ may_run t = true).
Proof.
  intros [Hi Hc Hprio] Hp. unfold pick_result in Hp. assert (Hs : s = set_rr_cursor (rr_cursor s) s) by (by destruct s).
  assert (Hst : forall st b, st = NM_TASK_RUNNABLE \/ st = NM_TASK_RUNNING ->
    least s st 128 (Some b) -> exists n t, Some b = Some n /\ arr (tasks s) n = Some t /\ may_run t = true).
  { intros st b Hst (_ & Hb & _). destruct (candidate_live s st b) as (t & Ht & _ & E);
      [by destruct Hst as [->| ->]|done|]. exists b, t. split_and!; [done|done|].
    unfold may_run, is_state. rewrite E. by destruct Hst as [->| ->]. }
  destruct (global_policy s).
  - destruct Hp as [(d & Hd & He & -> & _ & ->)|(_ & -> & ->)]; [|eauto].
    split; [eexists; split; [apply Z.mod_pos_bound; lia|done]|]. right.
    unfold eligible in He. destruct (arr (tasks s) (probe s d)) as [t|] eqn:Ht; [|done].
    apply andb_true_iff in He as [He _]. eauto 10.
  - destruct Hp as [Hr ->]. split; [eauto|].
    destruct Hr as [(b & -> & Hb)|(_ & [(b & -> & Hb)|(_ & ->)])]; [right|right|by left]; eauto.
Qed.

(** The state after [c] handed the processor over to [n]. *)
Definition handed s (c n : Z) (x u : nm_task) : sched_st H :=
  let p := sc_proc s in
  set_sc_proc (set_current (Some n) (set_table
    (upd (upd (tasks s) c (set_state NM_TASK_RUNNABLE x)) n (set_state NM_TASK_RUNNING u)) p)) s.

Lemma wp_hand_over s c n x u (Q : unit -> sched_st H -> Prop) :
  sched_inv s -> arr (tasks s) c = Some x -> live x = true ->
  arr (tasks s) n = Some u -> live u = true -> n <> c ->
  (sched_inv (handed s c n x u) -> Q tt (handed s c n x u)) -> wp (hand_over c n) Q s.
Proof.
  intros Hi Hx Hlx Hu Hlu Hne HQ. unfold hand_over. wp_step. eapply wp_mod; [done|].
  assert (Hi1 : sched_inv (put s c (set_state NM_TASK_RUNNABLE x)))
    by (eapply kept_inv; [done..|apply kept_state; auto]).
  assert (Hu1 : arr (tasks (put s c (set_state NM_TASK_RUNNABLE x))) n = Some u)
    by (unfold tasks; simpl; by rewrite arr_upd_ne).
  wp_step. eapply wp_mod; [exact Hu1|].
  assert (Hi2 : sched_inv (put (put s c (set_state NM_TASK_RUNNABLE x)) n (set_state NM_TASK_RUNNING u)))
    by (eapply kept_inv; [done..|apply kept_state; auto]).
  apply wp_lift, wp_set_current; [apply Hi2| |].
  - intros t [= <-]. eexists. split; [simpl; apply arr_upd_eq|done].
    by eapply arr_range.
  - intros Hi3. apply HQ. constructor; [exact Hi3|apply Hi2|apply Hi2].
Qed.

(** What a tick does: the current task [c] is charged, a task is picked, and if
    it is another one the processor is handed over. *)
Definition turn s s' : Prop :=
  exists c t x r s2, current s = Some c /\ arr (tasks s) c = Some t /\ live t = true /\ kept t x /\
    pick_result (put s c x) r s2 /\
    ((r = Some c /\ s' = s2) \/
     exists n u, r = Some n /\ n <> c /\ arr (tasks s2) n = Some u /\ live u = true /\
       s' = handed s2 c n x u).

Lemma put_slot s i x : 0 <= i < zlen (tasks s) -> arr (tasks (put s i x)) i = Some x.
Proof. intros. by apply arr_upd_eq. Qed.

(** The tail that [sched_tick] and [sched_yield] share, from the pick on. *)
Lemma wp_pick_and_hand s c x (k : Z -> M (sched_st H) unit) (Q : unit -> sched_st H -> Prop) :
  sched_inv s -> current s = Some c -> arr (tasks s) c = Some x -> live x = true ->
  (forall s2, pick_result s (Some c) s2 -> sched_inv s2 -> Q tt s2) ->
  (forall n u s2, pick_result s (Some n) s2 -> sched_inv s2 -> n <> c ->
     arr (tasks s2) n = Some u -> live u = true -> sched_inv (handed s2 c n x u) ->
     wp (k n) Q (handed s2 c n x u)) ->
  wp (next ← sched_pick_next;
      match next with
      | None => mret tt
      | Some n => if n =? c then mret tt else hand_over c n ;; k n
      end) Q s.
Proof.
  intros Hi Hc Hx Hlx Hsame Hother. wp_step. apply wp_pick_next; [done|]. intros r s2 Hr.
  destruct (pick_frame s r s2 Hi Hr) as [(cu & Hcu & Hs2) Hn].
  assert (Hi2 : sched_inv s2) by (subst s2; destruct Hi; by constructor).
  destruct r as [n|]; [|destruct Hn as [Hn|(? & ? & ? & _)]; congruence].
  destruct (Z.eqb_spec n c) as [->|Hne]; [wp_go; by apply Hsame|].
  destruct Hn as [Hn|(n' & u & [= <-] & Hu & Hm)]; [congruence|].
  assert (Hlu : live u = true) by (by apply runs_live).
  wp_step. eapply wp_hand_over; [done|by subst s2|done|by subst s2|done|done|].
  intros Hi3. eapply Hother; try done. by subst s2.
Qed.

Lemma wp_tick s ticks (Q : unit -> sched_st H -> Prop) :
  sched_inv s -> (current s = None -> Q tt s) ->
  (forall s', sched_inv s' -> turn s s' -> Q tt s') -> wp (sched_tick ticks) Q s.
Proof.
  intros Hi Hnone HQ. unfold sched_tick. wp_step. apply wp_task_current; [apply (pi_lock _ (si_proc _ Hi))|].
  destruct (current s) as [c|] eqn:Hc; [|wp_go; by apply Hnone].
  destruct (pi_current _ (si_proc _ Hi) c Hc) as (t & Ht & Hl).
  wp_step. eapply wp_on_run; [done|exact Ht|]. intros x Hk _.
  assert (Hi1 : sched_inv (put s c x)) by (by eapply kept_inv).
  assert (Hx : arr (tasks (put s c x)) c = Some x) by (apply put_slot; by eapply arr_range).
  pose proof (wp_pick_and_hand (put s c x) c x (fun _ => mret tt) Q Hi1 Hc Hx
    (kept_live _ _ Hk Hl)) as Hw.
  eapply wp_bind_inv in Hw; [apply wp_bind; eapply wp_mono; [exact Hw|]|..].
  - intros [n|] s2; [|done]. destruct (n =? c); [done|]. intros Hh%wp_bind_inv.
    eapply wp_mono; [exact Hh|]. by intros [] s3.
  - intros s2 Hp Hi2. apply HQ; [done|]. exists c, t, x, (Some c), s2. split_and!; auto.
  - intros n u s2 Hp Hi2 Hne Hu Hlu Hi3. wp_go. apply HQ; [done|].
    exists c, t, x, (Some n), s2. split_and!; try done. right. exists n, u. done.
Qed.

(** At most the current task is marked as running. *)
Definition running_ok s : Prop :=
  forall i t, arr (tasks s) i = Some t -> state t = NM_TASK_RUNNING -> current s = Some i.

Lemma turn_running s s' : running_ok s -> turn s s' -> sched_inv s -> running_ok s'.
Proof.
  intros Hr (c & t & x & r & s2 & Hc & Ht & Hl & Hk & Hp & Hs') Hi.
  pose proof (arr_range _ _ _ Ht) as Hrg.
  assert (Hi1 : sched_inv (put s c x)) by (by eapply kept_inv).
  destruct (pick_frame _ _ _ Hi1 Hp) as [(cu & _ & ->) _].
  assert (Hoff : forall i u, i <> c -> arr (upd (tasks s) c x) i = Some u -> state u <> NM_TASK_RUNNING).
  { intros i u Hne Hu Hst. rewrite arr_upd_ne in Hu by done. specialize (Hr i u Hu Hst). congruence. }
  destruct Hs' as [[-> ->]|(n & u & -> & Hne & Hu & Hlu & ->)]; intros i v Hv Hst.
  - destruct (decide (i = c)) as [->|Hic]; [done|]. by destruct (Hoff i v Hic Hv).
  - unfold handed, tasks in Hv. simpl in Hv. unfold tasks in Hv. rewrite upd_upd in Hv.
    destruct (decide (i = n)) as [->|Hin]; [done|]. rewrite arr_upd_ne in Hv by done.
    destruct (decide (i = c)) as [->|Hic].
    + rewrite arr_upd_eq in Hv by done. by simplify_eq/=.
    + rewrite arr_upd_ne in Hv by done. specialize (Hr i v Hv Hst). congruence.
Qed.

(** A task that can be switched to. *)
Definition ready s (i : Z) : Prop :=
  exists t, arr (tasks s) i = Some t /\ may_run t = true /\ saved_rsp t <> 0.

Lemma ready_eligible s i : ready s i -> eligible s i = true.
Proof.
  intros (t & Ht & Hm & Hs). unfold eligible, can_switch. rewrite Ht. unfold may_run in Hm.
  rewrite Hm. destruct (Z.eqb_spec (saved_rsp t) 0); [done|]. by rewrite orb_true_r.
Qed.

Lemma ready_put s i c t x : arr (tasks s) c = Some t -> kept t x -> ready s i -> ready (put s c x) i.
Proof.
  intros Ht Hk (u & Hu & Hm & Hs). unfold ready, tasks. simpl.
  rewrite arr_upd by (by eapply arr_range). destruct (Z.eqb_spec c i) as [<-|]; [|eauto].
  assert (u = t) as -> by congruence. exists x. split_and!; [done|by eapply kept_may_run|].
  by destruct Hk as (_ & _ & _ & -> & _).
Qed.

Lemma ready_handed s c n x u i :
  arr (tasks s) c = Some x -> arr (tasks s) n = Some u -> n <> c ->
  ready s i -> ready (handed s c n x u) i.
Proof.
  intros Hx Hu Hne Hr.
  assert (Hr2 : ready (put (put s c (set_state NM_TASK_RUNNABLE x)) n (set_state NM_TASK_RUNNING u)) i).
  { eapply ready_put; [|apply kept_state; auto|].
    - unfold tasks. simpl. rewrite arr_upd_ne; done.
    - eapply ready_put; [done|apply kept_state; auto|done]. }
  exact Hr2.
Qed.

(** How far slot [i] is from the cursor. *)
Definition dist s (i : Z) : Z := (i - rr_cursor s) `mod` 128.

Lemma dist_step s i d :
  0 <= rr_cursor s < 128 -> 0 <= i < 128 -> 0 <= d < dist s i ->
  (i - (probe s d + 1) `mod` 128) `mod` 128 = dist s i - d - 1.
Proof.
  intros Hc Hi. unfold dist, probe. intros Hd.
  rewrite Zplus_mod_idemp_l, Zminus_mod_idemp_r.
  pose proof (Z.mod_pos_bound (i - rr_cursor s) 128 ltac:(lia)).
  rewrite <- (Z.mod_small ((i - rr_cursor s) `mod` 128 - d - 1) 128) by lia.
  rewrite <- Z.sub_add_distr, Zminus_mod_idemp_l. f_equal. lia.
Qed.

Lemma probe_dist s i : 0 <= rr_cursor s < 128 -> 0 <= i < 128 -> probe s (dist s i) = i.
Proof. intros. unfold probe, dist. rewrite Zplus_mod_idemp_r, Z.mod_small; lia. Qed.

Lemma ready_range s i : sched_inv s -> ready s i -> 0 <= i < 128.
Proof.
  intros Hi (t & Ht & _). apply arr_range in Ht. unfold tasks in Ht.
  by rewrite (to_len _ _ (pi_table _ (si_proc _ Hi))) in Ht.
Qed.

(** One turn of round robin brings every ready task closer to the front. *)
Lemma turn_rr s s' i :
  sched_inv s -> global_policy s = NM_SCHED_RR -> turn s s' -> ready s i ->
  global_policy s' = NM_SCHED_RR /\ ready s' i /\
  (current s' = Some i \/ (current s' <> None /\ dist s' i < dist s i)).
Proof.
  intros Hi Hpol (c & t & x & r & s2 & Hc & Ht & Hl & Hk & Hp & Hs') Hready.
  pose proof (ready_range _ _ Hi Hready) as Hir. pose proof (si_cursor _ Hi) as Hcu.
  pose proof (ready_put _ _ _ _ _ Ht Hk Hready) as Hr1. pose proof (ready_eligible _ _ Hr1) as Hr1e.
  unfold pick_result in Hp. change (global_policy (put s c x)) with (global_policy s) in Hp. rewrite Hpol in Hp.
  destruct Hp as [(d & Hd & He & -> & Hmin & ->)|(Hno & _)];
    [|by rewrite Hno in Hr1e].
  assert (Hpr : forall d, probe (put s c x) d = probe s d) by done. rewrite Hpr in *.
  assert (Hle : d <= dist s i).
  { destruct (Z_le_gt_dec d (dist s i)); [done|]. exfalso.
    assert (E : eligible (put s c x) (probe (put s c x) (dist s i)) = false).
    { apply Hmin. pose proof (Z.mod_pos_bound (i - rr_cursor s) 128). unfold dist in *. lia. }
    rewrite Hpr, probe_dist in E by done. congruence. }
  assert (Hfront : Some (probe s d) = Some i \/ (Some (probe s d) <> None /\
    (i - (probe s d + 1) `mod` 128) `mod` 128 < dist s i)).
  { destruct (decide (d = dist s i)) as [->|]; [left; by rewrite probe_dist|right].
    rewrite dist_step by lia. split; [done|lia]. }
  destruct Hs' as [[Hpc ->]|(n & u & [= <-] & Hne & Hu & Hlu & ->)].
  - split_and!; [done|exact Hr1|]. change (current _) with (current s). by rewrite Hc, <- Hpc.
  - split_and!; [done| |exact Hfront]. apply ready_handed; [|done|done|exact Hr1].
    apply put_slot. by eapply arr_range.
Qed.

(** The current task after each of [n] ticks. *)
Fixpoint ticks_log (n : nat) (tk : Z) : M (sched_st H) (list (option Z)) :=
  match n with
  | O => mret []
  | S n => sched_tick tk ;; c ← gets current; l ← ticks_log n tk; mret (c :: l)
  end.

Lemma wp_ticks_total n tk s : sched_inv s -> wp (ticks_log n tk) (fun _ _ => True) s.
Proof.
  revert s. induction n as [|n IH]; intros s Hi; [done|]. simpl. wp_step.
  assert (Hrest : forall s1, sched_inv s1 ->
    wp (c ← gets current; l ← ticks_log n tk; mret (c :: l)) (fun _ _ => True) s1).
  { intros s1 Hi1. wp_go. eapply wp_mono; [by apply IH|done]. }
  apply wp_tick; auto.
Qed.

Lemma wp_ticks_fair n tk s i :
  sched_inv s -> global_policy s = NM_SCHED_RR -> current s <> None -> ready s i ->
  dist s i < Z.of_nat n -> wp (ticks_log n tk) (fun log _ => Some i ∈ log) s.
Proof.
  revert s. induction n as [|n IH]; intros s Hi Hpol Hc Hr Hd.
  { pose proof (Z.mod_pos_bound (i - rr_cursor s) 128). unfold dist in Hd. lia. }
  simpl. wp_step. apply wp_tick; [done|done|]. intros s1 Hi1 Ht.
  destruct (turn_rr _ _ _ Hi Hpol Ht Hr) as (Hpol1 & Hr1 & Hcase). wp_go.
  assert (Hc1 : current s1 <> None) by (destruct Hcase as [E|[? _]]; [by rewrite E|done]).
  destruct Hcase as [E|[_ Hlt]].
  - eapply wp_mono; [by apply wp_ticks_total|]. intros log t _. wp_go. rewrite E. by left.
  - eapply wp_mono; [apply IH; try done; lia|]. intros log t Hin. wp_go. by right.
Qed.

Lemma pick_eligible s r s' n :
  sched_inv s -> pick_result s r s' -> 0 <= n < 128 -> eligible s n = true ->
  exists m, r = Some m /\ eligible s m = true.
Proof.
  intros Hi Hp Hn He. unfold pick_result in Hp.
  assert (Hcand : forall b, eligible s b =
    candidate s NM_TASK_RUNNABLE b || candidate s NM_TASK_RUNNING b).
  { intros b. unfold eligible, candidate. destruct (arr (tasks s) b); [|done]. apply andb_orb_distrib_l. }
  destruct (global_policy s).
  - destruct Hp as [(d & _ & Hd & -> & _)|(Hno & _)]; [eauto|]. by rewrite Hno in He.
  - destruct Hp as [Hr _]. rewrite Hcand in He.
    destruct Hr as [(b & -> & _ & Hb & _)|(Hno & [(b & -> & _ & Hb & _)|(Hno2 & _)])].
    + exists b. by rewrite Hcand, Hb.
    + exists b. by rewrite Hcand, Hb, orb_true_r.
    + by rewrite Hno, Hno2 in He.
Qed.

(** ** The context switch *)

(** Pushing [l] from [sp] down. *)
Lemma wp_push_all l s sp (Q : Z -> sched_st H -> Prop) :
  8 * zlen l <= sp < 2 ^ 63 ->
  (forall mem,
     (forall k v, arr l k = Some v -> mem !! (sp - 8 * (k + 1)) = Some v) ->
     (forall a, a < sp - 8 * zlen l \/ sp <= a -> mem !! a = stack_mem (sc_proc s) !! a) ->
     Q (sp - 8 * zlen l) (set_sc_proc (set_stack_mem mem (sc_proc s)) s)) ->
  wp (push_all l sp) Q s.
Proof.
  revert s sp. induction l as [|v l IH]; intros s sp Hsp HQ; simpl.
  - apply wp_ret. specialize (HQ (stack_mem (sc_proc s))). replace (sp - 8 * zlen []) with sp in HQ
      by (unfold zlen; simpl; lia).
    destruct s as [p]. destruct p. apply HQ; [|done]. intros k v Hk. apply arr_elem in Hk.
    by apply elem_of_nil in Hk.
  - assert (Hz : zlen (v :: l) = zlen l + 1) by (unfold zlen; simpl; lia). rewrite Hz in *.
    pose proof (Zle_0_nat (length l)) as Hnn. fold (zlen l) in Hnn.
    wp_step. apply wp_lift, wp_push; [lia|]. apply IH; [lia|]. simpl. intros mem Hm Ho.
    replace (sp - 8 - 8 * zlen l) with (sp - 8 * (zlen l + 1)) in * by lia. apply HQ.
    + intros k w Hk. pose proof (arr_range _ _ _ Hk). destruct (decide (k = 0)) as [->|].
      * rewrite arr_cons_0 in Hk. injection Hk as <-. rewrite Ho by lia. at_key.
      * replace k with (k - 1 + 1) in Hk by lia. rewrite arr_cons_S in Hk by lia.
        specialize (Hm (k - 1) w Hk). by replace (sp - 8 * (k + 1)) with (sp - 8 - 8 * (k - 1 + 1)) by lia.
    + intros a Ha. rewrite Ho by lia. by rewrite lookup_insert_ne by lia.
Qed.

Lemma context_restore_ext (mem mem' : gmap Z Z) sp :
  (forall k, 0 <= k <= 6 -> mem' !! (sp + 8 * k) = mem !! (sp + 8 * k)) ->
  context_restore mem' sp = context_restore mem sp.
Proof.
  intros Hk. unfold context_restore. change (upto 0 6) with [0; 1; 2; 3; 4; 5]. simpl.
  rewrite !Hk by lia. pose proof (Hk 6) as H6. change (8 * 6) with 48 in H6. by rewrite H6 by lia.
Qed.


(** A frame for the context switch at [sp] that the pushes below [rsp] miss. *)
Definition frame_at s (sp : Z) (f : list Z * Z * Z) : Prop :=
  context_restore (stack_mem (sc_proc s)) sp = Some f /\
  (sp + 56 <= cpu_rsp (sc_cpu s) - 48 \/ cpu_rsp (sc_cpu s) <= sp).

(** The processor is in a call of [sched_yield]: the return address is on top
    of the stack. *)
Definition cpu_ok s (ret : Z) : Prop :=
  zlen (cpu_saved (sc_cpu s)) = 6 /\ 48 <= cpu_rsp (sc_cpu s) < 2 ^ 63 /\
  stack_mem (sc_proc s) !! cpu_rsp (sc_cpu s) = Some ret.

(** What the switch from [c] to the frame [f] leaves: the registers of [f] in
    the processor, and on the stack of [c], below the return address, a frame with
    its own. *)
Definition switched s (c : Z) (f : list Z * Z * Z) (ret : Z) s' : Prop :=
  (cpu_saved (sc_cpu s'), cpu_rip (sc_cpu s'), cpu_rsp (sc_cpu s')) = f /\
  exists t t', arr (tasks s) c = Some t /\ tasks s' = upd (tasks s) c t' /\
    t' = set_saved_rsp (saved_rsp t') t /\
    context_restore (stack_mem (sc_proc s')) (saved_rsp t') =
      Some (cpu_saved (sc_cpu s), ret, cpu_rsp (sc_cpu s) + 8) /\
    saved_rsp t' = cpu_rsp (sc_cpu s) - 48 /\
    (forall a, a < cpu_rsp (sc_cpu s) - 48 \/ cpu_rsp (sc_cpu s) <= a ->
       stack_mem (sc_proc s') !! a = stack_mem (sc_proc s) !! a) /\
    s' = mk_st (set_stack_mem (stack_mem (sc_proc s')) (set_table (tasks s') (sc_proc s))) (global_policy s) (rr_cursor s) (sc_cpu s').

Lemma saved_frame (regs : list Z) (mem : gmap Z Z) rsp ret :
  zlen regs = 6 -> mem !! rsp = Some ret ->
  (forall k v, arr (rev regs) k = Some v -> mem !! (rsp - 8 * (k + 1)) = Some v) ->
  context_restore mem (rsp - 48) = Some (regs, ret, rsp + 8).
Proof.
  intros Hl Hr Hk. unfold context_restore. change (upto 0 6) with [0; 1; 2; 3; 4; 5].
  destruct regs as [|a [|b [|c [|d [|e [|f [|]]]]]]]; unfold zlen in Hl; simpl in Hl; try lia.
  assert (Hw : forall k j v, arr [f; e; d; c; b; a] j = Some v -> k = 5 - j ->
    mem !! (rsp - 48 + 8 * k) = Some v).
  { intros k j v Hj ->. rewrite <- (Hk j v Hj). f_equal. lia. }
  simpl. rewrite (Hw 0 5 a), (Hw 1 4 b), (Hw 2 3 c), (Hw 3 2 d), (Hw 4 1 e), (Hw 5 0 f) by done.
  simpl. replace (rsp - 48 + 48) with rsp by lia. rewrite Hr. simpl. do 2 f_equal. lia.
Qed.

Lemma wp_switch s c t sp f ret (Q : unit -> sched_st H -> Prop) :
  arr (tasks s) c = Some t -> cpu_ok s ret -> frame_at s sp f ->
  (forall s', switched s c f ret s' -> global_policy s' = global_policy s ->
     rr_cursor s' = rr_cursor s -> sc_proc s' = set_stack_mem (stack_mem (sc_proc s'))
       (set_table (tasks s') (sc_proc s)) -> Q tt s') ->
  wp (nm_context_switch c sp) Q s.
Proof.
  intros Ht (Hlen & Hrsp & Hret) [Hf Haway] HQ. unfold nm_context_switch. wp_go.
  assert (Hl : zlen (rev (cpu_saved (sc_cpu s))) = 6) by (unfold zlen in *; by rewrite length_rev).
  apply wp_push_all; [lia|]. rewrite Hl. intros mem Hm Ho. wp_step.
  eapply wp_mod; [exact Ht|]. do 2 wp_step. simpl.
  rewrite (context_restore_ext (stack_mem (sc_proc s))) by (intros; apply Ho; lia). rewrite Hf.
  destruct f as [[regs rip] sp']. wp_go. apply HQ; [|done..]. split; [done|].
  exists t, (set_saved_rsp (cpu_rsp (sc_cpu s) - 8 * 6) t). simpl. change (8 * 6) with 48 in *.
  split_and!; [done|done|done| |done|done|done].
  apply saved_frame; [done| |done]. rewrite Ho by lia. done.
Qed.

Lemma pick_other s n c s2 :
  sched_inv s -> pick_result s (Some n) s2 -> current s = Some c -> n <> c -> eligible s n = true.
Proof.
  intros Hi Hp Hc Hne. unfold pick_result in Hp.
  assert (Hcand : forall st, st = NM_TASK_RUNNABLE \/ st = NM_TASK_RUNNING ->
    candidate s st n = true -> eligible s n = true).
  { intros st Hst. unfold candidate, eligible. destruct (arr (tasks s) n); [|done].
    rewrite !andb_true_iff, orb_true_iff. destruct Hst as [->| ->]; tauto. }
  destruct (global_policy s).
  - destruct Hp as [(d & _ & Hd & [= ->] & _)|(_ & E & _)]; [done|congruence].
  - destruct Hp as [[(b & [= <-] & _ & Hb & _)|(_ & [(b & [= <-] & _ & Hb & _)|(_ & E)])] _];
      [eauto..|congruence].
Qed.

(** Every other task that may run has a frame to switch to. *)
Definition frames_ok s (c : Z) : Prop :=
  forall n u, n <> c -> arr (tasks s) n = Some u -> may_run u = true -> saved_rsp u <> 0 ->
    exists f, frame_at s (saved_rsp u) f.

(** What a yield of [c] does. *)
Definition yielded s (c : Z) (ret : Z) s' : Prop :=
  pick_result s (Some c) s' \/
  exists n t u f s2, pick_result s (Some n) s2 /\ n <> c /\ arr (tasks s) c = Some t /\
    arr (tasks s) n = Some u /\ frame_at s (saved_rsp u) f /\
    switched (handed s2 c n t u) c f ret s' /\ current s' = Some n.

Lemma switched_inv s c f ret s' :
  sched_inv s -> switched s c f ret s' -> sc_proc s' = set_stack_mem (stack_mem (sc_proc s'))
    (set_table (tasks s') (sc_proc s)) -> rr_cursor s' = rr_cursor s ->
  (forall t, arr (tasks s) c = Some t -> live t = true) -> sched_inv s'.
Proof.
  intros Hi (_ & t & t' & Ht & Htb & Ht' & _) Hp Hcu Hl.
  assert (Hk : sched_inv (put s c t')).
  { destruct Hi as [Hi Hc Hprio]. constructor; simpl; [|done|].
    - eapply change_inv; try (done || by rewrite Ht'); [by apply Hl| |].
      + rewrite Ht'. exact (slot_shape _ _ _ Hi Ht).
      + rewrite Ht'. exact (Hl t Ht).
    - intros j u. rewrite arr_upd by (by eapply arr_range). destruct (c =? j); [|by apply Hprio].
      intros [= <-]. rewrite Ht'. exact (Hprio c t Ht). }
  destruct Hk as [[Htb' Hu Hn Hc Hlk Hh Hs] Hcur Hprio]. unfold put in *. simpl in *.
  constructor; [|by rewrite Hcu|].
  - rewrite Hp, Htb. by constructor.
  - rewrite Hp, Htb. exact Hprio.
Qed.

Lemma switched_running s c f ret s' :
  running_ok s -> switched s c f ret s' -> current s' = current s -> running_ok s'.
Proof.
  intros Hr (_ & t & t' & Ht & Htb & Ht' & _) Hc i u Hu Hst. rewrite Hc. rewrite Htb in Hu.
  rewrite arr_upd in Hu by (by eapply arr_range). destruct (Z.eqb_spec c i) as [<-|]; [|eauto].
  injection Hu as <-. rewrite Ht' in Hst. by eapply (Hr c t).
Qed.

Lemma wp_yield s c ret (Q : unit -> sched_st H -> Prop) :
  sched_inv s -> running_ok s -> current s = Some c -> cpu_ok s ret -> frames_ok s c ->
  (forall s', sched_inv s' -> running_ok s' -> yielded s c ret s' -> Q tt s') ->
  wp sched_yield Q s.
Proof.
  intros Hi Hrun Hc Hcpu Hfr HQ. unfold sched_yield. wp_step.
  apply wp_task_current; [apply (pi_lock _ (si_proc _ Hi))|]. rewrite Hc.
  destruct (pi_current _ (si_proc _ Hi) c Hc) as (t & Ht & Hl).
  change (arr (tasks s) c = Some t) in Ht.
  assert (Hput : put s c t = s).
  { unfold put. rewrite (upd_id _ _ _ Ht). destruct s as [p]. by destruct p. }
  eapply (wp_pick_and_hand s c t); [done..| |].
  - intros s2 Hp Hi2. apply HQ; [done| |by left]. eapply turn_running; [done| |done].
    exists c, t, t, (Some c), s2. rewrite Hput. split_and!; auto using kept_refl.
  - intros n u s2 Hp Hi2 Hne Hu Hlu Hi3.
    pose proof (pick_other s n c s2 Hi Hp Hc Hne) as He.
    destruct (pick_frame s _ s2 Hi Hp) as [(cu & _ & Hs2) _].
    assert (Hu0 : arr (tasks s) n = Some u) by (by subst s2).
    assert (Hm : may_run u = true /\ saved_rsp u <> 0).
    { unfold eligible, can_switch in He. rewrite Hu0, Hc in He. apply andb_true_iff in He as [Hm Hs].
      split; [done|]. unfold is_cur in Hs. rewrite bool_decide_eq_false_2 in Hs by congruence.
      by destruct (Z.eqb_spec (saved_rsp u) 0). }
    destruct Hm as [Hm Hsp]. destruct (Hfr n u Hne Hu0 Hm Hsp) as (f & Hf).
    assert (Hrun3 : running_ok (handed s2 c n t u)).
    { eapply (turn_running s); [done| |done]. exists c, t, t, (Some n), s2. rewrite Hput.
      split_and!; auto using kept_refl. right. by exists n, u. }
    pose proof (arr_range _ _ _ Hu) as Hrn. pose proof (arr_range _ _ _ Ht) as Hrc.
    assert (Hn3 : arr (tasks (handed s2 c n t u)) n = Some (set_state NM_TASK_RUNNING u)).
    { apply arr_upd_eq. by rewrite zlen_upd. }
    assert (Hc3 : arr (tasks (handed s2 c n t u)) c = Some (set_state NM_TASK_RUNNABLE t)).
    { unfold handed, tasks. simpl. rewrite arr_upd_ne by done. apply arr_upd_eq.
      unfold tasks. by subst s2. }
    wp_step. eapply wp_get_task; [exact Hn3|]. simpl.
    destruct (Z.eqb_spec (saved_rsp u) 0); [done|]. simpl.
    eapply (wp_switch _ c); [exact Hc3|by subst s2|by subst s2; exact Hf|].
    intros s' Hsw _ Hcu Hp'. assert (Hcur : current s' = Some n) by (unfold current; by rewrite Hp').
    apply HQ.
    + eapply switched_inv; [exact Hi3|done|done|done|]. intros v Hv. rewrite Hc3 in Hv. by simplify_eq.
    + by eapply switched_running.
    + right. exists n, t, u, f, s2. done.
Qed.
End turns.

(** ** Properties *)

Section properties.
Context {H : Type} `{KHeap H}.
Implicit Types (s : sched_st H).

(** A scheduler tick, under either policy.  It keeps the invariant of the
    process table and marks at most the current task as running; it charges the
    current task, picks, and hands over when another task is picked.  The round
    robin pick is the first task at or after the cursor, in cyclic order, that
    may run and is current or has a saved stack; the fair pick is the first
    runnable such task with the least virtual run time, or else a running one;
    both fall back on the current task. *)
Theorem sched_tick_spec s ticks :
  sched_inv s -> running_ok s -> current s <> None ->
  wp (sched_tick ticks) (fun _ s' => sched_inv s' /\ running_ok s' /\ turn s s') s.
Proof.
  intros Hi Hr Hc. apply wp_tick; [done|done|]. intros s' Hi' Ht.
  split_and!; [done|by eapply turn_running|done].
Qed.

(** Round robin is fair.  Under round robin, a task that may run and has a
    saved stack becomes the current task within 128 ticks, whatever the other
    tasks of the table are and however many ticks are charged. *)
Theorem rr_fair s i tk :
  sched_inv s -> global_policy s = NM_SCHED_RR -> current s <> None -> ready s i ->
  wp (ticks_log 128 tk) (fun log _ => Some i ∈ log) s.
Proof.
  intros Hi Hpol Hc Hr. apply wp_ticks_fair; try done.
  pose proof (Z.mod_pos_bound (i - rr_cursor s) 128). unfold dist. lia.
Qed.

(** [sched_yield] switches contexts faithfully.  When every other task that
    may run has a frame on its stack, a yield keeps the invariant and either
    goes on with the same task or makes the picked task current and running, the
    old one runnable, loads the picked task's callee-saved registers, return
    address and stack pointer, and leaves on the old task's stack a frame from
    which a later switch resumes it after its call with the same registers and
    stack pointer. *)
Theorem sched_yield_spec s c ret :
  sched_inv s -> running_ok s -> current s = Some c -> cpu_ok s ret -> frames_ok s c ->
  wp sched_yield (fun _ s' => sched_inv s' /\ running_ok s' /\ yielded s c ret s') s.
Proof. intros. eapply wp_yield; eauto. Qed.

(** A tick brings an exited task back to life.  When the current task has
    exited (it is a zombie) and another task can be switched to, the tick leaves
    the zombie in a state that may run, so that its parent can no longer wait
    for it and it may be scheduled again. *)
Theorem tick_revives_zombie s c t n ticks :
  sched_inv s -> current s = Some c -> arr (tasks s) c = Some t -> state t = NM_TASK_ZOMBIE ->
  ready s n ->
  wp (sched_tick ticks) (fun _ s' =>
    exists t', arr (tasks s') c = Some t' /\ pid t' = pid t /\ may_run t' = true) s.
Proof.
  intros Hi Hc Ht Hz Hn. apply wp_tick; [done|congruence|].
  intros s' Hi' (c' & t' & x & r & s2 & Hc' & Ht' & Hl & Hk & Hp & Hs').
  assert (c' = c) as -> by congruence. assert (t' = t) as -> by congruence.
  pose proof (arr_range _ _ _ Ht) as Hr.
  assert (Hi1 : sched_inv (put s c x)) by (by eapply kept_inv).
  pose proof (ready_put _ _ _ _ _ Ht Hk Hn) as Hn1.
  destruct (pick_eligible _ _ _ n Hi1 Hp) as (m & -> & Hm);
    [by eapply ready_range|by apply ready_eligible|].
  destruct (pick_frame _ _ _ Hi1 Hp) as [(cu & _ & ->) _].
  assert (Hpx : pid x = pid t) by apply Hk.
  destruct Hs' as [[[= ->] ->]|(k & u & _ & Hne & Hu & _ & ->)].
  - exists x. unfold eligible in Hm. rewrite put_slot in Hm by done.
    apply andb_true_iff in Hm as [Hm _]. split_and!; [by apply arr_upd_eq|done|done].
  - exists (set_state NM_TASK_RUNNABLE x). split_and!; [|done|done].
    unfold handed, tasks. simpl. rewrite arr_upd_ne by done. apply arr_upd_eq.
    unfold tasks. simpl. by rewrite zlen_upd.
Qed.
End properties.


(** *** A concrete machine: the bootstrap task and one kernel thread *)

#[local] Existing Instance Kheap.kheap_KHeap.

(** A kernel thread created at boot. *)
Definition boot_t : proc Kheap.kheap := Eval vm_compute in
  match task_create_kernel_thread 4096 None 12288 5 boot1 with Done _ p => p | Stuck _ => boot1 end.
(** The bootstrap task is in a call on the boot stack, with its return address. *)
Definition s0 : sched_st Kheap.kheap :=
  mk_st (set_stack_mem (<[8192 := 777]> (stack_mem boot_t)) boot_t) NM_SCHED_RR 0
    (mk_cpu 8192 [1; 2; 3; 4; 5; 6] 0).
(** The bootstrap task has exited. *)
Definition boot_z : proc Kheap.kheap := Eval vm_compute in
  match proc_exit_current 3 boot_t with Done _ p => p | Stuck _ => boot1 end.
Definition s_z : sched_st Kheap.kheap := mk_st boot_z NM_SCHED_RR 0 (mk_cpu 8192 [1; 2; 3; 4; 5; 6] 0).

Lemma boot_t_inv : proc_inv boot_t.
Proof.
  apply (step_inv 4096 boot1); [exact boot1_inv|].
  apply (step_create 4096 boot1 None 12288 5 (Some 1)); vm_compute; reflexivity.
Qed.

Lemma boot_z_inv : proc_inv boot_z.
Proof.
  apply (step_inv 4096 boot_t); [exact boot_t_inv|]. apply (step_exit 4096 boot_t 3).
  vm_compute. reflexivity.
Qed.

(** A property of every slot of a concrete table, by evaluation. *)
Lemma all_slots (l : list nm_task) (P : Z -> nm_task -> bool) :
  zlen l = 128 ->
  forallb (fun i => match arr l i with Some t => P i t | None => true end) (upto 0 128) = true ->
  forall i t, arr l i = Some t -> P i t = true.
Proof.
  intros Hl Hall i t Ht. rewrite forallb_forall in Hall. pose proof (arr_range _ _ _ Ht) as Hr.
  specialize (Hall i). rewrite Ht in Hall. apply Hall. apply list_elem_of_In, elem_of_upto. lia.
Qed.

Lemma boot_priorities (p : proc Kheap.kheap) i t :
  zlen (task_table p) = 128 ->
  forallb (fun i => match arr (task_table p) i with
                    | Some t => 0 <=? priority (sched t) | None => true end) (upto 0 128) = true ->
  arr (task_table p) i = Some t -> 0 <= priority (sched t).
Proof.
  intros Hl Hall Ht. apply Z.leb_le. by apply (all_slots _ (fun _ t => 0 <=? priority (sched t)) Hl Hall i).
Qed.

Lemma s0_inv : sched_inv s0.
Proof.
  constructor; [|done|].
  - destruct boot_t_inv. by constructor.
  - intros i t. apply (boot_priorities boot_t); vm_compute; reflexivity.
Qed.

Lemma s_z_inv : sched_inv s_z.
Proof.
  constructor; [exact boot_z_inv|done|].
  intros i t. apply (boot_priorities boot_z); vm_compute; reflexivity.
Qed.

Lemma s0_running : running_ok s0.
Proof.
  intros i t Ht Hst.
  assert (Hp : negb (is_state NM_TASK_RUNNING t) || (i =? 0) = true).
  { apply (all_slots (tasks s0) (fun i t => negb (is_state NM_TASK_RUNNING t) || (i =? 0)));
      [done|vm_compute; reflexivity|exact Ht]. }
  unfold is_state in Hp. rewrite Hst in Hp. simpl in Hp. apply Z.eqb_eq in Hp. by subst i.
Qed.

Lemma s0_ready : ready s0 1.
Proof. eexists. split; [reflexivity|]. split; [reflexivity|]. vm_compute. discriminate. Qed.

Lemma s0_cpu : cpu_ok s0 777.
Proof. split; [done|]. split; [vm_compute; split; [discriminate|reflexivity]|]. vm_compute. reflexivity. Qed.

Lemma s0_frames : frames_ok s0 0.
Proof.
  intros n u Hne Hu Hm _.
  assert (Hp : negb (may_run u) || (n =? 0) || (n =? 1) = true).
  { apply (all_slots (tasks s0) (fun n u => negb (may_run u) || (n =? 0) || (n =? 1)));
      [done|vm_compute; reflexivity|exact Hu]. }
  rewrite Hm in Hp. simpl in Hp. apply orb_true_iff in Hp as [Hp|Hp]; apply Z.eqb_eq in Hp; [done|].
  subst n. vm_compute in Hu. injection Hu as <-. eexists. split; [vm_compute; reflexivity|].
  right. vm_compute. discriminate.
Qed.

Lemma sched_tick_witness :
  wp (sched_tick 1) (fun _ s' => sched_inv s' /\ running_ok s' /\ turn s0 s') s0.
Proof. apply (sched_tick_spec s0 1); [exact s0_inv|exact s0_running|discriminate]. Defined.

Lemma rr_fair_witness : ready s0 1 /\ wp (ticks_log 128 1) (fun log _ => Some 1 ∈ log) s0.
Proof.
  split; [exact s0_ready|].
  apply (rr_fair s0 1 1); [exact s0_inv|reflexivity|discriminate|exact s0_ready].
Defined.

Lemma sched_yield_witness :
  frames_ok s0 0 /\ wp sched_yield (fun _ s' => sched_inv s' /\ running_ok s' /\ yielded s0 0 777 s') s0.
Proof.
  split; [exact s0_frames|].
  apply (sched_yield_spec s0 0 777);
    [exact s0_inv|exact s0_running|reflexivity|exact s0_cpu|exact s0_frames].
Defined.

Lemma tick_revives_witness :
  exists t, arr (tasks s_z) 0 = Some t /\ state t = NM_TASK_ZOMBIE /\
  wp (sched_tick 1) (fun _ s' =>
    exists t', arr (tasks s') 0 = Some t' /\ pid t' = pid t /\ may_run t' = true) s_z.
Proof.
  eexists. split; [reflexivity|]. split; [reflexivity|].
  apply (tick_revives_zombie s_z 0 _ 1 1); [exact s_z_inv|reflexivity|reflexivity|reflexivity|].
  eexists. split; [reflexivity|]. split; [reflexivity|]. vm_compute. discriminate.
Defined.

End Sched.
