(* ===== verification/Threads.v ===== *)
(** * Threads over the scheduler

    The kernel threads as coroutines.  Between two calls of [sched_yield] a thread
    runs its own code, of which only this is assumed: it stays on the stack of the
    thread, and comes to the next call.  Each thread that waits has its registers on
    its stack, as [nm_context_switch] left them. *)

From S2P Require Import Prelude Interfaces Kheap Task Sched.
Import Task Sched.

Module Threads.

(** The callee-saved registers, the address to go on at and the stack pointer. *)
Abbreviation context := (list Z * Z * Z)%type.

Section threads.
Context {H : Type} `{KHeap H}.
(** The stack of the boot code, on which the task with pid 1 runs. *)
Context (boot_low boot_top : Z).
Implicit Types (s : sched_st H) (t u : nm_task).

(** ** Stacks *)

Definition low t : Z := if pid t =? 1 then boot_low else stack_base t.
Definition top t : Z := if pid t =? 1 then boot_top else kernel_stack_top t.

(** The boot stack is no stack of another task. *)
Definition boot_apart s : Prop :=
  forall i t, arr (tasks s) i = Some t -> on_own_stack t -> kernel_stack_top t <= boot_low \/ boot_top <= stack_base t.

Lemma stacks_apart s i j t u :
  sched_inv s -> boot_apart s -> i <> j -> arr (tasks s) i = Some t -> arr (tasks s) j = Some u ->
  live t = true -> live u = true -> top t <= low u \/ top u <= low t.
Proof.
  intros Hi Hb Hne Ht Hu Hlt Hlu. unfold low, top. destruct (Z.eqb_spec (pid t) 1) as [Et|Et], (Z.eqb_spec (pid u) 1) as [Eu|Eu].
  - destruct Hne. apply (to_distinct _ _ (pi_table _ (si_proc _ Hi)) i j t u); [done..|congruence].
  - destruct (Hb j u Hu); [by split|right|left]; lia.
  - destruct (Hb i t Ht); [by split|left|right]; lia.
  - apply (so_apart _ _ (pi_stacks _ (si_proc _ Hi)) i j t u); [done..|by split|by split].
Qed.

(** A thread that waits: its context is on its stack. *)
Definition waits s t (f : context) : Prop :=
  context_restore (stack_mem (sc_proc s)) (saved_rsp t) = Some f /\ low t <= saved_rsp t /\ saved_rsp t + 56 <= top t.

(** The current thread calls [nm_context_switch] with [ret] on its stack. *)
Definition calling s t (ret : Z) : Prop :=
  cpu_ok s ret /\ 48 < cpu_rsp (sc_cpu s) /\ low t + 48 <= cpu_rsp (sc_cpu s) /\ cpu_rsp (sc_cpu s) + 8 <= top t.

(** Every task that may run and has a saved stack pointer waits with a context, but
    for the current one. *)
Definition roomy t : Prop := 0 <= low t /\ low t + KSTACK_SIZE <= top t < 2 ^ 63.

Record threads_ok s : Prop := mk_threads_ok {
  th_sched : sched_inv s;
  th_running : running_ok s;
  th_current : current s <> None;
  th_boot : boot_apart s;
  th_room i t : arr (tasks s) i = Some t -> live t = true -> roomy t;
  th_waits i t : current s <> Some i -> arr (tasks s) i = Some t -> may_run t = true -> saved_rsp t <> 0 -> exists f, waits s t f;
}.

(** The context of a thread that waits. *)
Definition suspended s (i : Z) : option context :=
  if bool_decide (current s = Some i) then None else
  t ← arr (tasks s) i;
  if may_run t && negb (saved_rsp t =? 0) then context_restore (stack_mem (sc_proc s)) (saved_rsp t) else None.

(** The context to which a call with [ret] on the stack returns. *)
Definition return_to s (ret : Z) : context := (cpu_saved (sc_cpu s), ret, cpu_rsp (sc_cpu s) + 8).
Definition now s : context := (cpu_saved (sc_cpu s), cpu_rip (sc_cpu s), cpu_rsp (sc_cpu s)).

(** Two memories agree on the stack of [t] from [a] on. *)
Definition stack_same s s' t (a : Z) : Prop :=
  forall b, Z.max a (low t) <= b < top t -> stack_mem (sc_proc s') !! b = stack_mem (sc_proc s) !! b.

Lemma may_run_live t : may_run t = true -> live t = true.
Proof. apply runs_live. Qed.

Lemma running_live s c t : threads_ok s -> current s = Some c -> arr (tasks s) c = Some t -> live t = true.
Proof. intros Hi Hc Ht. destruct (pi_current _ (si_proc _ (th_sched _ Hi)) c Hc) as (v & Hv & Hl). unfold tasks in Ht. by simplify_eq. Qed.

Lemma frames s c t ret : threads_ok s -> current s = Some c -> arr (tasks s) c = Some t -> calling s t ret -> frames_ok s c.
Proof.
  intros Hi Hc Ht (_ & _ & Hlo & Hhi) n u Hne Hu Hm Hs. destruct (th_waits _ Hi n u) as (f & Hf & Hlu & Hhu); [congruence|done..|].
  exists f. split; [done|]. destruct (stacks_apart s n c u t) as [Ha|Ha];
    [apply Hi|apply Hi|done|done|done|by apply may_run_live|by eapply running_live|lia|lia].
Qed.
(** ** New threads *)

Lemma context_at_kept (mem mem' : gmap Z Z) sp lo hi :
  lo <= sp -> sp + 56 <= hi -> (forall a, lo <= a < hi -> mem' !! a = mem !! a) -> context_restore mem' sp = context_restore mem sp.
Proof. intros Hl Hh Hm. apply context_restore_ext. intros k Hk. apply Hm. lia. Qed.

(** Every live task has the processor or can be switched to. *)
Definition staffed s : Prop := forall i t, arr (tasks s) i = Some t -> live t = true -> current s = Some i \/ ready s i.

(** Before the first thread is made the bootstrap task is alone. *)
Lemma alone_ok p pol k :
  proc_inv p -> current_task p = Some 0 -> (forall i t, arr (task_table p) i = Some t -> i <> 0 -> live t = false) ->
  (forall t, arr (task_table p) 0 = Some t -> live t = true -> pid t = 1) -> Forall (fun t => 0 <= priority (sched t)) (task_table p) ->
  0 <= boot_low -> boot_low + KSTACK_SIZE <= boot_top < 2 ^ 63 -> threads_ok (mk_st p pol 0 k) /\ staffed (mk_st p pol 0 k).
Proof.
  intros Hi Hc Hoff H1 Hpr Hlow Htop. assert (Hz : forall i t, arr (task_table p) i = Some t -> live t = true -> i = 0).
  { intros i t Ht Hl. destruct (decide (i = 0)); [done|]. by rewrite (Hoff i t) in Hl. }
  split; [split|].
  - split; [done|simpl; lia|]. intros i t Ht. rewrite Forall_forall in Hpr. by eapply Hpr, arr_elem.
  - intros i t Ht Hst. unfold current. simpl. rewrite Hc. f_equal. symmetry. apply (Hz i t Ht). unfold live, is_state. by rewrite Hst.
  - unfold current. simpl. by rewrite Hc.
  - intros i t Ht [Hl Hp]. pose proof (Hz i t Ht Hl) as ->. by rewrite (H1 t Ht Hl) in Hp.
  - intros i t Ht Hl. pose proof (Hz i t Ht Hl) as ->. unfold roomy, low, top. by rewrite (H1 t Ht Hl).
  - intros i t Hne Ht Hm _. destruct Hne. unfold current. simpl. rewrite Hc. f_equal. symmetry. apply (Hz i t Ht). by apply may_run_live.
  - intros i t Ht Hl. left. unfold current. simpl. rewrite Hc. f_equal. symmetry. by apply (Hz i t Ht).
Qed.

Lemma created_ok tramp s nm entry arg r p' :
  threads_ok s -> create_result tramp (sc_proc s) nm entry arg r p' -> boot_apart (set_sc_proc p' s) ->
  threads_ok (set_sc_proc p' s) /\ (staffed s -> staffed (set_sc_proc p' s)).
Proof.
  intros Hi (Hp' & Hr & _) Hb. pose proof Hi as [[Hp Hcu Hpr] Hrun Hcur _ Hrm Hw]. destruct r as [i|].
  2: { destruct Hr as [h ->]. split; [by split|done]. }
  destruct Hr as (x & [Hold Htb Hst [Hpid _] _ _ Hct] & (_ & Hsx & _) & Hstk & Hoff).
  destruct Hold as (old & Hold & Hlo). pose proof (arr_range _ _ _ Hold) as Hri.
  set (s' := set_sc_proc p' s) in *. assert (Ht' : forall j, arr (tasks s') j = if i =? j then Some x else arr (tasks s) j).
  { intros j. unfold tasks, s'. simpl. rewrite Htb, arr_upd by done. done. }
  assert (Hc' : current s' = current s) by (exact Hct).
  assert (Hlx : live x = true) by (unfold live, is_state; by rewrite Hst).
  assert (Hcx : current s <> Some i).
  { intros Hc. destruct (pi_current _ Hp i Hc) as (t & Ht & Hl). congruence. }
  assert (Hx1 : pid x <> 1) by (rewrite Hpid; pose proof (pi_current _ Hp) as Hpc; destruct (current_task (sc_proc s)) as [c|] eqn:Ec; [|done];
    destruct (Hpc c eq_refl) as (t & Ht & Hl); destruct (to_pid _ _ (pi_table _ Hp) c t Ht Hl); lia).
  assert (Hlt : low x = stack_base x /\ top x = kernel_stack_top x) by (unfold low, top; by rewrite (proj2 (Z.eqb_neq _ _) Hx1)).
  destruct Hstk as (sp & Hctx & _ & Hpos & Hlow & Htop & Hrg).
  assert (Hsi : sched_inv s').
  { split; [done|exact Hcu|]. intros j t. fold (tasks s'). rewrite Ht'. destruct (i =? j); [intros [= <-]; by rewrite Hsx|apply Hpr]. }
  split; [split|].
  - done.
  - intros j t. rewrite Ht'. destruct (Z.eqb_spec i j); [intros [= <-]; congruence|]. rewrite Hc'. apply Hrun.
  - by rewrite Hc'.
  - done.
  - intros j t. rewrite Ht'. destruct (Z.eqb_spec i j) as [<-|Hij]; [|apply Hrm]. intros [= <-] _. unfold roomy, stack_base in *. lia.
  - intros j t. rewrite Ht', Hc'. destruct (Z.eqb_spec i j) as [<-|Hij].
    + intros _ [= <-] _ _. eexists. split; [exact Hctx|]. lia.
    + intros Hne Ht Hm Hs. destruct (Hw j t Hne Ht Hm Hs) as (f & Hf & Hl & Hh). exists f. split; [|done].
      rewrite <- Hf. eapply (context_at_kept _ _ _ (low t) (top t)); [done|done|]. intros a Ha. apply Hoff.
      destruct (stacks_apart s' j i t x) as [Hd|Hd]; [done|done|done| | |by apply may_run_live|done|lia|lia].
      * by rewrite Ht', (proj2 (Z.eqb_neq i j)).
      * by rewrite Ht', Z.eqb_refl.
  - intros Hall j t. rewrite Ht', Hc'. assert (Hrd : ready s' i).
    { exists x. rewrite Ht', Z.eqb_refl. split; [done|]. split; [unfold may_run, is_state; by rewrite Hst|lia]. }
    destruct (Z.eqb_spec i j) as [<-|Hij]; [intros _ _; by right|]. intros Ht Hl. destruct (Hall j t Ht Hl) as [|(u & Hu & Hm)]; [by left|right].
    exists u. by rewrite Ht', (proj2 (Z.eqb_neq i j)).
Qed.

(** ** A yield *)

(** The processor goes from [c] to [n]. *)
Record switched_to s (c n ret : Z) s' : Prop := mk_switched_to {
  sw_other : n <> c;
  sw_current : current s' = Some n;
  sw_now : suspended s n = Some (now s');
  sw_suspended i : suspended s' i =
    if decide (i = c) then Some (return_to s ret) else if decide (i = n) then None else suspended s i;
  sw_memory a : a < cpu_rsp (sc_cpu s) - 48 \/ cpu_rsp (sc_cpu s) <= a -> stack_mem (sc_proc s') !! a = stack_mem (sc_proc s) !! a;
  sw_tasks : exists t u, arr (tasks s) c = Some t /\ arr (tasks s) n = Some u /\ forall i, arr (tasks s') i =
    if decide (i = c) then Some (set_saved_rsp (cpu_rsp (sc_cpu s) - 48) (set_state NM_TASK_RUNNABLE t))
    else if decide (i = n) then Some (set_state NM_TASK_RUNNING u) else arr (tasks s) i;
  sw_rest : exists k, s' = mk_st (set_stack_mem (stack_mem (sc_proc s')) (set_current (Some n) (set_table (tasks s') (sc_proc s))))
    (global_policy s) k (sc_cpu s');
}.

(** What a yield of [c] does: nothing but move the cursor, or a switch. *)
Definition yields s (c ret : Z) s' : Prop :=
  (exists k, s' = set_rr_cursor k s) \/ exists n, switched_to s c n ret s'.

(** What waits on other stacks is left alone by stores on the stack of [c]. *)
Lemma waits_kept s s' c t i u f :
  threads_ok s -> current s = Some c -> arr (tasks s) c = Some t -> i <> c -> arr (tasks s) i = Some u -> may_run u = true ->
  waits s u f -> (forall a, a < low t \/ top t <= a -> stack_mem (sc_proc s') !! a = stack_mem (sc_proc s) !! a) ->
  context_restore (stack_mem (sc_proc s')) (saved_rsp u) = context_restore (stack_mem (sc_proc s)) (saved_rsp u).
Proof.
  intros Hi Hc Ht Hne Hu Hm (Hf & Hlo & Hhi) Hmem. apply context_restore_ext. intros k Hk. apply Hmem.
  destruct (stacks_apart s i c u t) as [Ha|Ha];
    [apply Hi|apply Hi|done|done|done|by apply may_run_live|by eapply running_live|lia|lia].
Qed.

Lemma picked_eligible s c n s2 :
  sched_inv s -> pick_result s (Some n) s2 -> current s = Some c -> n <> c -> ready s n.
Proof.
  intros Hi Hp Hc Hne. pose proof (pick_other _ _ _ _ Hi Hp Hc Hne) as He. unfold eligible, can_switch in He.
  destruct (arr (tasks s) n) as [u|] eqn:Hu; [|done]. apply andb_true_iff in He as [Hm Hs]. exists u. split; [done|]. split; [done|].
  unfold is_cur in Hs. rewrite bool_decide_eq_false_2 in Hs by congruence. by destruct (Z.eqb_spec (saved_rsp u) 0).
Qed.

Lemma yielded_yields s c t ret s' :
  threads_ok s -> current s = Some c -> arr (tasks s) c = Some t -> calling s t ret -> yielded s c ret s' -> yields s c ret s'.
Proof.
  intros Hi Hc Ht Hcall [Hp|(n & t0 & u & f & s2 & Hp & Hne & Ht0 & Hu & Hf & Hsw & Hcur)].
  { left. destruct (pick_frame _ _ _ (th_sched _ Hi) Hp) as [(k & _ & ->) _]. by exists k. }
  right. exists n. assert (t0 = t) as -> by congruence. clear Ht0.
  destruct (pick_frame _ _ _ (th_sched _ Hi) Hp) as [(k & _ & ->) _].
  destruct (picked_eligible _ _ _ _ (th_sched _ Hi) Hp Hc Hne) as (u0 & Hu0 & Hm & Hs). assert (u0 = u) as -> by congruence. clear Hu0.
  destruct Hsw as (Hnow & x & x' & Hx & Hx' & Ex & Hret & Esp & Hmem & Hs').
  pose proof (arr_range _ _ _ Ht) as Hrc. pose proof (arr_range _ _ _ Hu) as Hrn.
  assert (x = set_state NM_TASK_RUNNABLE t) as ->.
  { unfold handed, tasks in Hx. simpl in Hx. rewrite arr_upd_ne, arr_upd_eq in Hx by (done || unfold tasks; simpl; done). congruence. }
  set (s2 := handed (set_rr_cursor k s) c n t u) in *. change (sc_cpu s2) with (sc_cpu s) in *.
  change (stack_mem (sc_proc s2)) with (stack_mem (sc_proc s)) in Hmem.
  assert (Htasks : forall i, arr (tasks s') i = if decide (i = c) then Some (set_saved_rsp (cpu_rsp (sc_cpu s) - 48) (set_state NM_TASK_RUNNABLE t))
    else if decide (i = n) then Some (set_state NM_TASK_RUNNING u) else arr (tasks s) i).
  { intros i. rewrite Hx', <- Esp, <- Ex. unfold s2, handed, tasks. simpl. fold (tasks s).
    assert (Hl : zlen (upd (tasks s) c (set_state NM_TASK_RUNNABLE t)) = zlen (tasks s)) by apply zlen_upd.
    rewrite arr_upd by (by rewrite !zlen_upd). destruct (Z.eqb_spec c i), (decide (i = c)); try congruence.
    rewrite arr_upd by lia. destruct (Z.eqb_spec n i), (decide (i = n)); try congruence. by rewrite arr_upd_ne. }
  destruct Hcall as ((_ & _ & _) & H48 & Hlo & Hhi).
  split.
  - done.
  - done.
  - unfold suspended. rewrite bool_decide_eq_false_2 by congruence. rewrite Hu. simpl. rewrite Hm. destruct (Z.eqb_spec (saved_rsp u) 0); [done|].
    simpl. rewrite (proj1 Hf). by rewrite <- Hnow.
  - intros i. unfold suspended. rewrite Hcur. rewrite Htasks. destruct (decide (i = c)) as [->|Hic].
    + rewrite bool_decide_eq_false_2 by congruence. simpl. rewrite (proj2 (Z.eqb_neq (_ - 48) 0)) by lia. rewrite <- Esp. exact Hret.
    + destruct (decide (i = n)) as [->|Hin]; [by rewrite bool_decide_eq_true_2|]. rewrite !bool_decide_eq_false_2 by congruence.
      destruct (arr (tasks s) i) as [v|] eqn:Hv; [|done]. simpl. destruct (may_run v) eqn:Hmv; [|done].
      destruct (Z.eqb_spec (saved_rsp v) 0) as [|Hsv]; [done|]. simpl. destruct (th_waits _ Hi i v) as [g Hg]; [congruence|done..|].
      eapply (waits_kept s s' c t i v); [done..|]. intros a Ha. apply Hmem. lia.
  - exact Hmem.
  - exists t, u. done.
  - by exists k.
Qed.

(** A task keeps its identity, its stack and its descriptors. *)
Definition same_task t t' : Prop :=
  pid t' = pid t /\ kernel_stack_top t' = kernel_stack_top t /\ live t' = live t /\ fd_table t' = fd_table t /\
  fd_cloexec_mask t' = fd_cloexec_mask t.

#[global] Instance same_task_preorder : PreOrder same_task.
Proof. split; [by intros t|]. intros t u v (? & ? & ? & ? & ?) (? & ? & ? & ? & ?). unfold same_task. split_and!; congruence. Qed.

Lemma yields_task s c t ret s' i v' :
  threads_ok s -> current s = Some c -> arr (tasks s) c = Some t -> yields s c ret s' -> arr (tasks s') i = Some v' ->
  exists v, arr (tasks s) i = Some v /\ same_task v v'.
Proof.
  intros Hi Hc Ht [[k ->]|[n Hsw]] Hv'; [by exists v'|]. destruct (sw_tasks _ _ _ _ _ Hsw) as (t0 & u & Ht0 & Hu & Htb).
  assert (t0 = t) as -> by congruence. rewrite Htb in Hv'. pose proof (running_live _ _ _ Hi Hc Ht) as Hl.
  destruct (decide (i = c)) as [->|]; [|destruct (decide (i = n)) as [->|]].
  - injection Hv' as <-. exists t. unfold same_task. by rewrite Hl.
  - injection Hv' as <-. exists u. unfold same_task. split_and!; try done. symmetry.
    pose proof (sw_now _ _ _ _ _ Hsw) as Hn. unfold suspended in Hn. destruct (bool_decide _); [done|]. rewrite Hu in Hn. simpl in Hn.
    destruct (may_run u) eqn:Hm; [|done]. by apply may_run_live.
  - by exists v'.
Qed.

Lemma yields_tasks s c t ret s' :
  threads_ok s -> current s = Some c -> arr (tasks s) c = Some t -> yields s c ret s' -> sched_inv s' ->
  Forall2 same_task (tasks s) (tasks s').
Proof.
  intros Hi Hc Ht Hy Hi'. apply Forall2_by_lookup.
  - pose proof (to_len _ _ (pi_table _ (si_proc _ Hi'))) as El. pose proof (to_len _ _ (pi_table _ (si_proc _ (th_sched _ Hi)))) as El'.
    unfold zlen, tasks in *. lia.
  - intros i v' Hv'. rewrite <- arr_nat in Hv'. setoid_rewrite <- arr_nat. by eapply yields_task.
Qed.

Lemma yields_ok s c t ret s' :
  threads_ok s -> current s = Some c -> arr (tasks s) c = Some t -> calling s t ret -> yields s c ret s' ->
  sched_inv s' -> running_ok s' -> threads_ok s'.
Proof.
  intros Hi Hc Ht Hcall Hy Hsi Hrun. split; [done|done|..].
  - destruct Hy as [[k ->]|[n Hsw]]; [apply Hi|by rewrite (sw_current _ _ _ _ _ Hsw)].
  - intros i v' Hv' [Hl Hp]. destruct (yields_task _ _ _ _ _ _ _ Hi Hc Ht Hy Hv') as (v & Hv & Ep & Et & El & _).
    unfold stack_base. rewrite Et. apply (th_boot _ Hi i v Hv). split; congruence.
  - intros i v' Hv' Hl. destruct (yields_task _ _ _ _ _ _ _ Hi Hc Ht Hy Hv') as (v & Hv & Ep & Et & El & _).
    unfold roomy, low, top, stack_base. rewrite Ep, Et. apply (th_room _ Hi i v Hv). congruence.
  - destruct Hy as [[k ->]|[n Hsw]]; [apply Hi|]. intros i v' Hne Hv' Hm Hs.
    destruct (sw_tasks _ _ _ _ _ Hsw) as (t0 & u & Ht0 & Hu & Htb). assert (t0 = t) as -> by congruence.
    pose proof (sw_suspended _ _ _ _ _ Hsw i) as Hsu. pose proof (sw_current _ _ _ _ _ Hsw) as Hcu. unfold suspended in Hsu.
    rewrite bool_decide_eq_false_2, Hv' in Hsu by done. simpl in Hsu. rewrite Hm, (proj2 (Z.eqb_neq _ 0) Hs) in Hsu. simpl in Hsu.
    rewrite Htb in Hv'. destruct Hcall as (_ & H48 & Hlo & Hhi). destruct (decide (i = c)) as [->|Hic].
    + exists (return_to s ret). injection Hv' as <-. split; [exact Hsu|]. unfold low, top, stack_base in *. simpl. lia.
    + destruct (decide (i = n)) as [->|Hin]; [congruence|]. destruct (th_waits _ Hi i v') as (f & Hf & Hb); [congruence|done..|].
      exists f. split; [|done]. rewrite Hsu, bool_decide_eq_false_2 by congruence. rewrite Hv'. simpl.
      by rewrite Hm, (proj2 (Z.eqb_neq _ 0) Hs).
Qed.

Lemma wp_thread_yield s c t ret (Q : unit -> sched_st H -> Prop) :
  threads_ok s -> current s = Some c -> arr (tasks s) c = Some t -> calling s t ret ->
  (forall s', threads_ok s' -> yields s c ret s' -> yielded s c ret s' -> Q tt s') -> wp sched_yield Q s.
Proof.
  intros Hi Hc Ht Hcall HQ. eapply wp_yield; [apply Hi|apply Hi|exact Hc|apply Hcall|by eapply frames|].
  intros s' Hsi Hrun Hy. pose proof (yielded_yields _ _ _ _ _ Hi Hc Ht Hcall Hy) as Hy'. apply HQ; [|done|done].
  by eapply yields_ok.
Qed.

Lemma yields_staffed s c t ret s' :
  threads_ok s -> current s = Some c -> arr (tasks s) c = Some t -> calling s t ret -> yields s c ret s' -> staffed s -> staffed s'.
Proof.
  intros Hi Hc Ht (_ & H48 & _ & _) Hy Hall i v' Hv' Hl. destruct (yields_task _ _ _ _ _ _ _ Hi Hc Ht Hy Hv') as (v & Hv & _ & _ & El & _).
  destruct Hy as [[k ->]|[n Hsw]]; [by apply (Hall i v')|]. rewrite (sw_current _ _ _ _ _ Hsw).
  destruct (sw_tasks _ _ _ _ _ Hsw) as (t0 & u & _ & _ & Htb). unfold ready. rewrite Htb.
  destruct (decide (i = n)) as [->|Hin]; [by left|]. right. destruct (decide (i = c)) as [->|Hic].
  - eexists. split; [done|]. split; [done|]. simpl. lia.
  - destruct (Hall i v Hv) as [Hci|Hr]; [congruence|congruence|exact Hr].
Qed.

(** ** The steps of the machine *)

(** The state after the current thread ran: its registers and its stack. *)
Definition after_code s (mem : gmap Z Z) (k : cpu) : sched_st H := set_cpu k (set_sc_proc (set_stack_mem mem (sc_proc s)) s).

Definition code s c s' : Prop :=
  exists t mem k, arr (tasks s) c = Some t /\ s' = after_code s mem k /\
    forall a, a < low t \/ top t <= a -> mem !! a = stack_mem (sc_proc s) !! a.

Definition call s c s' : Prop :=
  exists t ret, arr (tasks s) c = Some t /\ calling s t ret /\ sched_yield s = Done tt s'.

Inductive step s s' : Prop :=
| step_code c : current s = Some c -> code s c s' -> step s s'
| step_yield c : current s = Some c -> call s c s' -> step s s'.

Lemma code_ok s c s' : threads_ok s -> current s = Some c -> code s c s' ->
  threads_ok s' /\ current s' = Some c /\ tasks s' = tasks s /\ forall i, suspended s' i = suspended s i.
Proof.
  intros Hi Hc (t & mem & k & Ht & -> & Hmem).
  assert (Hk : forall i u, i <> c -> arr (tasks s) i = Some u -> may_run u = true -> saved_rsp u <> 0 ->
    context_restore mem (saved_rsp u) = context_restore (stack_mem (sc_proc s)) (saved_rsp u)).
  { intros i u Hne Hu Hm Hs. destruct (th_waits _ Hi i u) as [f Hf]; [congruence|done..|].
    by apply (waits_kept s (after_code s mem k) c t i u f). }
  split_and!; [|done|done|].
  - destruct Hi as [[Hp Hcu Hpr] Hr Hcur Hb Hrm Hw]. split; [split; [by destruct Hp|done|done]|done|done|done|done|].
    intros i u Hne Hu Hm Hs. destruct (Hw i u Hne Hu Hm Hs) as (f & Hf & Hbd). exists f. split; [|done]. rewrite <- Hf.
    apply (Hk i); [|done..]. intros ->. by apply Hne.
  - intros i. unfold suspended. change (current (after_code s mem k)) with (current s). change (tasks (after_code s mem k)) with (tasks s).
    destruct (bool_decide _) eqn:E; [done|]. apply bool_decide_eq_false in E. destruct (arr (tasks s) i) as [u|] eqn:Hu; [|done]. simpl.
    destruct (may_run u) eqn:Hm; [|done]. destruct (Z.eqb_spec (saved_rsp u) 0); [done|]. simpl. apply (Hk i); [|done..].
    intros ->. congruence.
Qed.

Lemma code_refl s c t : arr (tasks s) c = Some t -> code s c s.
Proof. intros Ht. exists t, (stack_mem (sc_proc s)), (sc_cpu s). split_and!; [done| |done]. destruct s as [p]. by destruct p. Qed.

Lemma code_trans s c s1 s2 : code s c s1 -> code s1 c s2 -> code s c s2.
Proof.
  intros (t & mem & k & Ht & -> & Hm) (t' & mem' & k' & Ht' & -> & Hm'). change (arr (tasks s) c = Some t') in Ht'.
  assert (t' = t) as -> by congruence. exists t, mem', k'. split_and!; [done|done|]. intros a Ha. rewrite Hm' by done. by apply Hm.
Qed.

(** Code can always come to a call. *)
Lemma comes_to_call s c : threads_ok s -> current s = Some c ->
  exists t s', arr (tasks s) c = Some t /\ code s c s' /\ calling s' t 0.
Proof.
  intros Hi Hc. destruct (pi_current _ (si_proc _ (th_sched _ Hi)) c Hc) as (t & Ht & Hl). destruct (th_room _ Hi c t Ht Hl) as (H0' & H1 & H2).
  exists t, (after_code s (<[top t - 64 := 0]> (stack_mem (sc_proc s))) (mk_cpu (top t - 64) [0; 0; 0; 0; 0; 0] 0)). unfold KSTACK_SIZE in *.
  split; [done|]. split; [eexists t, _, _; split_and!; [done|done|]|].
  - intros a Ha. rewrite lookup_insert_ne; [done|lia].
  - split; [|simpl; lia]. split; [done|]. split; [simpl; lia|]. apply lookup_insert_eq.
Qed.

Lemma call_ok s c s' : threads_ok s -> current s = Some c -> call s c s' ->
  exists t ret, arr (tasks s) c = Some t /\ calling s t ret /\ threads_ok s' /\ yields s c ret s' /\ yielded s c ret s'.
Proof.
  intros Hi Hc (t & ret & Ht & Hcall & Hrun). exists t, ret. split; [done|]. split; [done|].
  eapply (wp_result _ (fun _ s' => threads_ok s' /\ yields s c ret s' /\ yielded s c ret s')); [|exact Hrun]. by eapply wp_thread_yield.
Qed.

Lemma call_kept s c s' : threads_ok s -> current s = Some c -> call s c s' ->
  Forall2 same_task (tasks s) (tasks s') /\ proc_heap (sc_proc s') = proc_heap (sc_proc s) /\ global_policy s' = global_policy s /\
  (staffed s -> staffed s').
Proof.
  intros Hi Hc Hcall. destruct (call_ok _ _ _ Hi Hc Hcall) as (t & ret & Ht & Hcl & Hi' & Hy & _).
  split; [by eapply yields_tasks, Hi'|]. split_and!; [| |by eapply yields_staffed].
  - destruct Hy as [[k ->]|[n Hsw]]; [done|]. by destruct (sw_rest _ _ _ _ _ Hsw) as [k ->].
  - destruct Hy as [[k ->]|[n Hsw]]; [done|]. by destruct (sw_rest _ _ _ _ _ Hsw) as [k ->].
Qed.

Lemma step_ok s s' : threads_ok s -> step s s' -> threads_ok s'.
Proof. intros Hi [c Hc Hcode|c Hc Hcall]; [by eapply code_ok|]. by destruct (call_ok _ _ _ Hi Hc Hcall) as (? & ? & _ & _ & ? & _). Qed.

(** ** A call of [sched_yield] returns *)

(** [c] waits with the context [f], and its stack from [a] on is that of [s0]. *)
Record parked s0 c t0 (f : context) (a : Z) s : Prop := mk_parked {
  pk_ok : threads_ok s;
  pk_away : current s <> Some c;
  pk_suspended : suspended s c = Some f;
  pk_task : exists t, arr (tasks s) c = Some t /\ pid t = pid t0 /\ kernel_stack_top t = kernel_stack_top t0;
  pk_stack : stack_same s0 s t0 a;
}.

Lemma same_range t t0 : pid t = pid t0 -> kernel_stack_top t = kernel_stack_top t0 -> low t = low t0 /\ top t = top t0.
Proof. unfold low, top, stack_base. by intros -> ->. Qed.

(** What the current thread stores misses the stack of [c]. *)
Lemma stack_kept s0 c t0 f a s s' d u :
  parked s0 c t0 f a s -> current s = Some d -> arr (tasks s) d = Some u ->
  (forall b, b < low u \/ top u <= b -> stack_mem (sc_proc s') !! b = stack_mem (sc_proc s) !! b) -> stack_same s0 s' t0 a.
Proof.
  intros [Hi Hne Hsu (t & Ht & Ep & Et) Hst] Hd Hu Hmem b Hb. destruct (same_range _ _ Ep Et) as [El Eh].
  rewrite Hmem; [by apply Hst|]. assert (Hl : live t = true).
  { unfold suspended in Hsu. rewrite bool_decide_eq_false_2, Ht in Hsu by done. simpl in Hsu.
    destruct (may_run t) eqn:Hm; [by apply may_run_live|done]. }
  destruct (stacks_apart s c d t u) as [Ha|Ha]; [apply Hi|apply Hi|congruence|done|done|done|by eapply running_live|lia|lia].
Qed.

Lemma parked_code s0 c t0 f a s s' d : parked s0 c t0 f a s -> current s = Some d -> code s d s' -> parked s0 c t0 f a s'.
Proof.
  intros Hp Hd Hcode. destruct (code_ok _ _ _ (pk_ok _ _ _ _ _ _ Hp) Hd Hcode) as (Hi' & Hd' & Htk & Hsu).
  destruct Hcode as (u & mem & k & Hu & -> & Hmem). pose proof Hp as [Hi Hne Hs Ht Hst]. split.
  - done.
  - congruence.
  - by rewrite Hsu.
  - by rewrite Htk.
  - by eapply stack_kept.
Qed.

Lemma parked_call s0 c t0 f a s s' d : parked s0 c t0 f a s -> current s = Some d -> call s d s' ->
  (current s' <> Some c -> parked s0 c t0 f a s') /\ (current s' = Some c -> now s' = f) /\ stack_same s0 s' t0 a.
Proof.
  intros Hp Hd Hcall. pose proof Hp as [Hi Hne Hs (t & Ht & Ep & Et) Hst].
  destruct (call_ok _ _ _ Hi Hd Hcall) as (u & ret & Hu & (_ & H48 & Hlo & Hhi) & Hi' & Hy & _).
  assert (Hcd : c <> d) by congruence.
  assert (Hst' : stack_same s0 s' t0 a).
  { eapply stack_kept; [exact Hp|exact Hd|exact Hu|]. intros b Hb. destruct Hy as [[k ->]|[n Hsw]]; [done|].
    apply (sw_memory _ _ _ _ _ Hsw). lia. }
  split_and!; [|intros Hc|done].
  - intros Hne'. split; [done|done| | |done].
    + destruct Hy as [[k ->]|[n Hsw]]; [exact Hs|]. rewrite (sw_suspended _ _ _ _ _ Hsw), decide_False by done.
      rewrite decide_False; [done|]. intros ->. by rewrite (sw_current _ _ _ _ _ Hsw) in Hne'.
    + destruct Hy as [[k ->]|[n Hsw]]; [by exists t|]. destruct (sw_tasks _ _ _ _ _ Hsw) as (w & v & _ & _ & Htb).
      exists t. rewrite Htb, decide_False, decide_False; [done| |done]. intros ->. by rewrite (sw_current _ _ _ _ _ Hsw) in Hne'.
  - destruct Hy as [[k ->]|[n Hsw]]; [done|]. pose proof (sw_current _ _ _ _ _ Hsw) as En. assert (n = c) as -> by congruence.
    pose proof (sw_now _ _ _ _ _ Hsw). congruence.
Qed.

(** Steps that leave [c] waiting. *)
Definition away c s s' : Prop := step s s' /\ current s' <> Some c.

Lemma parked_away s0 c t0 f a s s' : parked s0 c t0 f a s -> rtc (away c) s s' -> parked s0 c t0 f a s'.
Proof.
  intros Hp Hr. induction Hr as [|s s1 s2 [Hst Hne] Hr IH]; [done|]. apply IH.
  destruct Hst as [d Hd Hcode|d Hd Hcall]; [by eapply parked_code|]. by eapply (parked_call s0 c t0 f a s s1 d).
Qed.

(** ** Properties *)

(** The threads stay in order whatever they do, and a call of [sched_yield] never
    faults. *)
Theorem threads_reachable s s' c t ret :
  threads_ok s -> rtc step s s' -> current s' = Some c -> arr (tasks s') c = Some t -> calling s' t ret ->
  threads_ok s' /\ exists s2, sched_yield s' = Done tt s2.
Proof.
  intros Hi Hr Hc Ht Hcall. assert (Hi' : threads_ok s').
  { clear Hc Ht Hcall. induction Hr as [|s1 s2 s3 Hst Hr IH]; [done|]. apply IH. by eapply step_ok. }
  split; [done|]. assert (Hw : wp sched_yield (fun _ _ => True) s') by (by eapply wp_thread_yield).
  apply wp_done in Hw as ([] & s2 & E & _). by exists s2.
Qed.

(** C9: a call of [sched_yield] returns like any other call.  Whatever the other
    threads run on their own stacks and however often they yield meanwhile, when the
    thread that called runs again it has the callee-saved registers, the return
    address and the stack pointer of its call, and from there up its stack is as it
    left it. *)
Theorem yield_returns s0 c t ret s1 s2 s3 :
  threads_ok s0 -> current s0 = Some c -> arr (tasks s0) c = Some t -> calling s0 t ret -> sched_yield s0 = Done tt s1 ->
  current s1 <> Some c -> rtc (away c) s1 s2 -> step s2 s3 -> current s3 = Some c ->
  now s3 = return_to s0 ret /\ stack_same s0 s3 t (cpu_rsp (sc_cpu s0)).
Proof.
  intros Hi Hc Ht Hcall Hrun Hne Haway Hst Hc3.
  assert (Hcl : call s0 c s1) by (by exists t, ret).
  destruct (call_ok _ _ _ Hi Hc Hcl) as (t' & ret' & Ht' & Hcall' & Hi1 & Hy & _).
  assert (t' = t) as -> by congruence. assert (ret' = ret) as ->.
  { destruct Hcall as ((_ & _ & E1) & _), Hcall' as ((_ & _ & E2) & _). congruence. }
  assert (Hp : parked s0 c t (return_to s0 ret) (cpu_rsp (sc_cpu s0)) s1).
  { destruct Hy as [[k ->]|[n Hsw]]; [done|]. split.
    - done.
    - done.
    - by rewrite (sw_suspended _ _ _ _ _ Hsw), decide_True.
    - destruct (sw_tasks _ _ _ _ _ Hsw) as (w & v & Hw & _ & Htb). rewrite Htb, decide_True by done. eexists. split; [done|].
      simpl. by assert (w = t) as -> by congruence.
    - intros b Hb. apply (sw_memory _ _ _ _ _ Hsw). lia. }
  eapply parked_away in Hp; [|exact Haway]. destruct Hst as [d Hd Hcode|d Hd Hcall2].
  - destruct (code_ok _ _ _ (pk_ok _ _ _ _ _ _ Hp) Hd Hcode) as (_ & Hd' & _). pose proof (pk_away _ _ _ _ _ _ Hp). congruence.
  - destruct (parked_call _ _ _ _ _ _ _ _ Hp Hd Hcall2) as (_ & Hn & Hs). split; [by apply Hn|done].
Qed.

(** *** Turns *)

(** A yield, like a tick, takes every thread that can be switched to closer to the
    processor. *)
Lemma yielded_rr s c t ret s' i :
  threads_ok s -> current s = Some c -> arr (tasks s) c = Some t -> calling s t ret -> yielded s c ret s' ->
  global_policy s = NM_SCHED_RR -> ready s i ->
  global_policy s' = NM_SCHED_RR /\ ready s' i /\ (current s' = Some i \/ dist s' i < dist s i).
Proof.
  intros Hi Hc Ht (_ & H48 & _ & _) Hy Hpol Hr. pose proof (running_live _ _ _ Hi Hc Ht) as Hl.
  assert (Hput : put s c t = s) by (unfold put; rewrite (upd_id _ _ _ Ht); destruct s as [p]; by destruct p).
  destruct Hy as [Hp|(n & t0 & u & f & s2 & Hp & Hne & Ht0 & Hu & Hf & Hsw & Hcur)].
  - destruct (turn_rr s s' i) as (? & ? & [?|[_ ?]]); [apply Hi|done| |done|tauto|tauto].
    exists c, t, t, (Some c), s'. rewrite Hput. split_and!; auto using kept_refl.
  - assert (t0 = t) as -> by congruence. destruct (pick_frame _ _ _ (th_sched _ Hi) Hp) as [(k & _ & ->) _].
    destruct (picked_eligible _ _ _ _ (th_sched _ Hi) Hp Hc Hne) as (u0 & Hu0 & Hm & Hs). assert (u0 = u) as -> by congruence.
    destruct (turn_rr s (handed (set_rr_cursor k s) c n t u) i) as (Hpol2 & Hr2 & Hd); [apply Hi|done| |done|].
    { exists c, t, t, (Some n), (set_rr_cursor k s). rewrite Hput. split_and!; auto using kept_refl. right. exists n, u.
      split_and!; try done. by apply may_run_live. }
    destruct Hsw as (_ & x & x' & Hx & Htb & Ex & _ & Esp & _ & Hs'). assert (Ec : current s' = current (handed (set_rr_cursor k s) c n t u)) by (by rewrite Hs').
    assert (Edist : dist s' i = dist (handed (set_rr_cursor k s) c n t u) i) by (by rewrite Hs').
    assert (Epol : global_policy s' = global_policy s) by (by rewrite Hs').
    rewrite Epol, Ec, Edist. split; [done|].
    set (s2 := handed (set_rr_cursor k s) c n t u) in *. change (cpu_rsp (sc_cpu s2)) with (cpu_rsp (sc_cpu s)) in Esp.
    split; [|destruct Hd as [?|[_ ?]]; [by left|by right]].
    destruct Hr2 as (v & Hv & Hmv & Hsv). unfold ready. rewrite Htb.
    destruct (decide (i = c)) as [->|Hic]; [|exists v; by rewrite arr_upd_ne].
    assert (v = x) as -> by congruence. exists x'. rewrite arr_upd_eq by (by eapply arr_range). split; [done|]. rewrite Ex.
    split; [done|]. simpl. lia.
Qed.

(** Rounds of some code and a yield, with the thread that each yield goes to. *)
Inductive rounds : sched_st H -> list Z -> sched_st H -> Prop :=
| rounds_nil s : rounds s [] s
| rounds_cons s c s1 s2 n l s3 :
    current s = Some c -> code s c s1 -> call s1 c s2 -> current s2 = Some n -> rounds s2 l s3 -> rounds s (n :: l) s3.

(** Under round robin every thread that can be switched to runs within 128 yields,
    whatever the threads run between them. *)
Theorem threads_fair s l s' i :
  threads_ok s -> global_policy s = NM_SCHED_RR -> ready s i -> rounds s l s' -> 128 <= zlen l -> i ∈ l.
Proof.
  intros Hi Hpol Hr Hrounds Hl. assert (Hd : dist s i < zlen l).
  { pose proof (Z.mod_pos_bound (i - rr_cursor s) 128). unfold dist. lia. }
  clear Hl. induction Hrounds as [s|s c s1 s2 n l s3 Hc Hcode Hcall Hn Hrounds IH].
  { pose proof (Z.mod_pos_bound (i - rr_cursor s) 128). unfold dist, zlen in Hd. simpl in Hd. lia. }
  destruct (code_ok _ _ _ Hi Hc Hcode) as (Hi1 & Hc1 & Ht1 & _). destruct Hcode as (t & mem & k & Ht & -> & _).
  destruct (call_ok _ _ _ Hi1 Hc1 Hcall) as (t1 & ret & Ht1' & Hcl & Hi2 & _ & Hy).
  destruct (yielded_rr _ _ _ _ _ i Hi1 Hc1 Ht1' Hcl Hy Hpol) as (Hpol2 & Hr2 & Hd2); [destruct Hr as (u & Hu & Hm); exists u; by rewrite Ht1|].
  apply elem_of_cons. destruct Hd2 as [E|Hd2]; [left; congruence|right]. apply IH; [done..|].
  change (dist (after_code s mem k) i) with (dist s i) in Hd2. unfold zlen in *. simpl in Hd. lia.
Qed.

(** Once every live task can be switched to, or has the processor, each runs within
    129 yields. *)
Theorem staffed_fair s l s' i t :
  threads_ok s -> global_policy s = NM_SCHED_RR -> staffed s -> arr (tasks s) i = Some t -> live t = true ->
  rounds s l s' -> 129 <= zlen l -> i ∈ l.
Proof.
  intros Hi Hpol Hall Ht Hlv Hrounds Hl. destruct (Hall i t Ht Hlv) as [Hci|Hr]; [|eapply threads_fair; eauto; lia].
  inversion Hrounds as [|? c s1 s2 n l' ? Hc Hcode Hcall Hn Hrest]; subst; [unfold zlen in Hl; simpl in Hl; lia|].
  assert (c = i) as -> by congruence. destruct (code_ok _ _ _ Hi Hci Hcode) as (Hi1 & Hc1 & Ht1 & _).
  destruct (call_ok _ _ _ Hi1 Hc1 Hcall) as (t1 & ret & Ht1' & (_ & H48 & _) & Hi2 & Hy & Hyd).
  apply elem_of_cons. destruct (decide (n = i)) as [->|Hne]; [by left|right].
  assert (Hpol2 : global_policy s2 = NM_SCHED_RR).
  { destruct (call_kept _ _ _ Hi1 Hc1 Hcall) as (_ & _ & -> & _). by destruct Hcode as (? & ? & ? & _ & -> & _). }
  apply (threads_fair s2 l' s' i); [done|done| |done|unfold zlen in *; simpl in Hl; lia].
  destruct Hy as [[k ->]|[m Hsw]]; [change (current s1 = Some n) in Hn; congruence|]. destruct (sw_tasks _ _ _ _ _ Hsw) as (t0 & u & _ & _ & Htb).
  unfold ready. rewrite Htb, decide_True by done. eexists. split; [done|]. split; [done|]. simpl. lia.
Qed.
End threads.

(** *** Two threads that yield to each other *)

Section examples.
#[local] Existing Instance Kheap.kheap_KHeap.

(** The bootstrap task, on a stack from 4096 to 12288, is about to yield. *)
Definition c0 : sched_st Kheap.kheap := set_rr_cursor 1 s0.

(** Code that comes to a call 64 bytes below the top of its stack. *)
Definition to_call (s : sched_st Kheap.kheap) : option (sched_st Kheap.kheap) :=
  c ← current s; t ← arr (tasks s) c;
  let a := top 12288 t - 64 in
  if (48 <? a) && (a <? 2 ^ 63) && (low 4096 t + 48 <=? a) then
    Some (after_code s (<[a := 888]> (stack_mem (sc_proc s))) (mk_cpu a [c; 2; 3; 4; 5; 6] 0))
  else None.

Fixpoint run (n : nat) (s : sched_st Kheap.kheap) : option (list Z * sched_st Kheap.kheap) :=
  match n with
  | O => Some ([], s)
  | S n =>
      s1 ← to_call s;
      match sched_yield s1 with
      | Done _ s2 => m ← current s2; r ← run n s2; Some (m :: r.1, r.2)
      | Stuck _ => None
      end
  end.

Lemma to_call_code s s1 : to_call s = Some s1 -> exists c t, current s = Some c /\ arr (tasks s) c = Some t /\
  code 4096 12288 s c s1 /\ calling 4096 12288 s1 t 888.
Proof.
  unfold to_call. destruct (current s) as [c|] eqn:Hc; [|done]. simpl. destruct (arr (tasks s) c) as [t|] eqn:Ht; [|done]. simpl.
  set (a := top 12288 t - 64). destruct (_ && _) eqn:E; [|done]. intros [= <-]. exists c, t. rewrite !andb_true_iff, !Z.ltb_lt, Z.leb_le in E.
  split_and!; [done|done| |].
  - exists t. eexists _, _. split_and!; [done|done|]. intros b Hb. rewrite lookup_insert_ne; [done|]. unfold a in *. lia.
  - split; [|unfold a in *; simpl; lia]. split; [done|]. split; [simpl; lia|]. apply lookup_insert_eq.
Qed.

Lemma run_rounds n s l s' : run n s = Some (l, s') -> rounds 4096 12288 s l s' /\ zlen l = Z.of_nat n.
Proof.
  revert s l. induction n as [|n IH]; intros s l; simpl; [intros [= <- <-]; split; [constructor|done]|].
  destruct (to_call s) as [s1|] eqn:E; [|done]. simpl. destruct (sched_yield s1) as [[] s2|] eqn:Ey; [|done].
  destruct (current s2) as [m|] eqn:Em; [|done]. simpl. destruct (run n s2) as [[l2 s3]|] eqn:Er; [|done]. simpl. intros [= <- <-].
  destruct (to_call_code _ _ E) as (c & t & Hc & Ht & Hcode & Hcall). destruct (IH _ _ Er) as [Hr Hl]. split.
  - econstructor; [exact Hc|exact Hcode| |exact Em|exact Hr]. exists t, 888. split; [|done].
    destruct Hcode as (t' & mem & k & Ht' & -> & _). exact Ht.
  - unfold zlen in *. simpl. lia.
Qed.

Lemma c0_slots P : forallb (fun i => match arr (tasks c0) i with Some t => P i t | None => true end) (upto 0 128) = true ->
  forall i t, arr (tasks c0) i = Some t -> P i t = true.
Proof. by apply all_slots. Qed.

Lemma c0_ok : threads_ok 4096 12288 c0.
Proof.
  split.
  - destruct s0_inv as [Hp _ Hpr]. by split.
  - exact s0_running.
  - done.
  - intros i t Ht [Hl Hp]. right. pose proof (c0_slots (fun _ t => negb (live t) || (pid t =? 1) || (12288 <=? stack_base t)) ltac:(vm_compute; reflexivity) i t Ht) as E.
    cbv beta in E. rewrite Hl, (proj2 (Z.eqb_neq _ _) Hp) in E. by apply Z.leb_le.
  - intros i t Ht Hl. pose proof (c0_slots (fun _ t => negb (live t) || ((0 <=? low 4096 t) && (low 4096 t + KSTACK_SIZE <=? top 12288 t) && (top 12288 t <? 2 ^ 63)))
      ltac:(vm_compute; reflexivity) i t Ht) as E. cbv beta in E. rewrite Hl in E. apply andb_true_iff in E as [[?%Z.leb_le ?%Z.leb_le]%andb_true_iff ?%Z.ltb_lt]. by split.
  - intros i t Hne Ht Hm _. pose proof (c0_slots (fun i t => negb (may_run t) || (i =? 0) || (i =? 1)) ltac:(vm_compute; reflexivity) i t Ht) as E.
    cbv beta in E. rewrite Hm in E. simpl in E. apply orb_true_iff in E as [E|E]; apply Z.eqb_eq in E; [by subst i|]. subst i.
    vm_compute in Ht. injection Ht as <-. eexists. split; [vm_compute; reflexivity|]. vm_compute. split; discriminate.
Qed.

Lemma rounds_128 : exists l s', rounds 4096 12288 c0 l s' /\ zlen l = 128.
Proof.
  destruct (run 128 c0) as [[l s']|] eqn:E.
  - exists l, s'. by apply (run_rounds 128).
  - exfalso. assert (is_Some (run 128 c0) -> False) as Hn by (rewrite E; by intros [? ?]). apply Hn.
    apply (bool_decide_unpack _). vm_compute. exact I.
Qed.

Lemma threads_fair_witness : exists l s', rounds 4096 12288 c0 l s' /\ 1 ∈ l.
Proof.
  destruct rounds_128 as (l & s' & Hr & Hl). exists l, s'. split; [exact Hr|].
  apply (threads_fair 4096 12288 c0 l s' 1); [exact c0_ok|reflexivity|exact s0_ready|exact Hr|lia].
Defined.

(** The bootstrap task yields, the thread runs and yields back. *)
Definition y1 : sched_st Kheap.kheap := Eval vm_compute in match sched_yield c0 with Done _ s => s | Stuck _ => c0 end.
Definition y2 : sched_st Kheap.kheap := Eval vm_compute in default y1 (to_call y1).
Definition y3 : sched_st Kheap.kheap := Eval vm_compute in match sched_yield y2 with Done _ s => s | Stuck _ => c0 end.
Definition first_task : nm_task := Eval vm_compute in default task0 (arr (tasks c0) 0).

Lemma y2_call : to_call y1 = Some y2.
Proof. vm_compute. reflexivity. Qed.

Lemma yield_returns_witness : now y3 = ([1; 2; 3; 4; 5; 6], 777, 8200) /\ stack_same 4096 12288 c0 y3 first_task 8192.
Proof.
  apply (yield_returns 4096 12288 c0 0 first_task 777 y1 y2 y3).
  - exact c0_ok.
  - reflexivity.
  - vm_compute. reflexivity.
  - vm_compute. repeat split; discriminate.
  - vm_compute. reflexivity.
  - discriminate.
  - destruct (to_call_code _ _ y2_call) as (c & t & Hc & Ht & Hcode & _). apply rtc_once. split; [by eapply step_code|discriminate].
  - destruct (to_call_code _ _ y2_call) as (c & t & Hc & Ht & Hcode & Hcall). eapply (step_yield _ _ _ _ c).
    + destruct Hcode as (? & ? & ? & _ & -> & _). exact Hc.
    + exists t, 888. split; [destruct Hcode as (? & ? & ? & _ & -> & _); exact Ht|]. split; [exact Hcall|vm_compute; reflexivity].
  - reflexivity.
Defined.
End examples.
End Threads.
