(* ===== verification/Fd.v ===== *)
(** * File descriptors and pipes ([kernel/proc/fd.c])

    The descriptor tables of the tasks refer to reference-counted objects, which
    are open files of the file system or ends of a pipe; a pipe is a ring of 512
    bytes.  The task table is the one of [task.c]; the file system is a parameter
    of the file, a [FileSys]. *)

From S2P Require Import Prelude Interfaces Kheap Task.
Import Task.

Module Fd.

Definition NM_PIPE_MAX : Z := 16.
Definition NM_PIPE_BUF : Z := 512.
Definition NM_FDOBJ_MAX : Z := 128.

Inductive nm_fdobj_kind := NM_FDOBJ_NONE | NM_FDOBJ_FS | NM_FDOBJ_PIPE_R | NM_FDOBJ_PIPE_W.

#[export] Instance nm_fdobj_kind_eq_dec : EqDecision nm_fdobj_kind.
Proof. solve_decision. Defined.

Record nm_pipe := mk_pipe {
  p_used : bool;
  p_buf : list Z;
  read_pos : Z;
  write_pos : Z;
  readers : Z;
  writers : Z;
}.

Record nm_fdobj := mk_obj {
  o_used : bool;
  refcnt : Z;
  kind : nm_fdobj_kind;
  fs_fd : Z;
  pipe_id : Z;
}.

Definition set_p_used v p := mk_pipe v (p_buf p) (read_pos p) (write_pos p) (readers p) (writers p).
Definition set_p_buf v p := mk_pipe (p_used p) v (read_pos p) (write_pos p) (readers p) (writers p).
Definition set_read_pos v p := mk_pipe (p_used p) (p_buf p) v (write_pos p) (readers p) (writers p).
Definition set_write_pos v p := mk_pipe (p_used p) (p_buf p) (read_pos p) v (readers p) (writers p).
Definition set_readers v p := mk_pipe (p_used p) (p_buf p) (read_pos p) (write_pos p) v (writers p).
Definition set_writers v p := mk_pipe (p_used p) (p_buf p) (read_pos p) (write_pos p) (readers p) v.

Definition set_refcnt v o := mk_obj (o_used o) v (kind o) (fs_fd o) (pipe_id o).

(** The static data of [fd.c], with the task table and the file system. *)
Record fdst (F : Type) := mk_fdst {
  fd_tasks : list nm_task;
  pipe_table : list nm_pipe;
  fdobj_table : list nm_fdobj;
  fd_lock_word : Z;
  fd_fs : F;
}.
Arguments mk_fdst {F} _ _ _ _ _.
Arguments fd_tasks {F} _.
Arguments pipe_table {F} _.
Arguments fdobj_table {F} _.
Arguments fd_lock_word {F} _.
Arguments fd_fs {F} _.

Section ops.
Context {F : Type} `{FileSys F}.
Implicit Types (s : fdst F).

Definition set_fd_tasks v s := mk_fdst v (pipe_table s) (fdobj_table s) (fd_lock_word s) (fd_fs s).
Definition set_pipes v s := mk_fdst (fd_tasks s) v (fdobj_table s) (fd_lock_word s) (fd_fs s).
Definition set_objs v s := mk_fdst (fd_tasks s) (pipe_table s) v (fd_lock_word s) (fd_fs s).
Definition set_fd_lock v s := mk_fdst (fd_tasks s) (pipe_table s) (fdobj_table s) v (fd_fs s).
Definition set_fs (v : F) s := mk_fdst (fd_tasks s) (pipe_table s) (fdobj_table s) (fd_lock_word s) v.

Definition fd_lock : M (fdst F) unit := fun s =>
  if fd_lock_word s =? 0 then Done tt (set_fd_lock 1 s) else Stuck LockHeld.
Definition fd_unlock : M (fdst F) unit := modify (set_fd_lock 0).

Definition task_at (i : Z) : M (fdst F) nm_task := rd fd_tasks i.
Definition mod_task_at (i : Z) (f : nm_task -> nm_task) : M (fdst F) unit :=
  modify_at fd_tasks set_fd_tasks i f.
Definition pipe_at (k : Z) : M (fdst F) nm_pipe := rd pipe_table k.
Definition mod_pipe (k : Z) (f : nm_pipe -> nm_pipe) : M (fdst F) unit :=
  modify_at pipe_table set_pipes k f.
Definition obj_at (id : Z) : M (fdst F) nm_fdobj := rd fdobj_table id.
Definition mod_obj (id : Z) (f : nm_fdobj -> nm_fdobj) : M (fdst F) unit :=
  modify_at fdobj_table set_objs id f.

(** [task->fd_table[fd]], read and written. *)
Definition fd_entry (task fd : Z) : M (fdst F) Z :=
  t ← task_at task;
  match arr (fd_table t) fd with
  | Some id => mret id
  | None => stuck OutOfBounds
  end.
Definition set_fd_entry (task fd id : Z) : M (fdst F) unit :=
  t ← task_at task;
  match arr (fd_table t) fd with
  | Some _ => mod_task_at task (fun t => set_fd_table (upd (fd_table t) fd id) t)
  | None => stuck OutOfBounds
  end.

Definition alloc_task_fd (task : option Z) : M (fdst F) Z :=
  match task with
  | None => mret (NM_ERR NM_EINVAL)
  | Some i =>
      t ← task_at i;
      match find_idx (fun id => id =? -1) (take (Z.to_nat NM_MAX_FDS) (fd_table t)) with
      | Some fd => mret fd
      | None => mret (NM_ERR NM_ENOMEM)
      end
  end.

Definition alloc_fdobj : M (fdst F) Z :=
  r ← gets (fun s => find_idx (fun o => negb (o_used o)) (take (Z.to_nat NM_FDOBJ_MAX) (fdobj_table s)));
  match r with
  | Some i => mod_obj i (fun _ => mk_obj true 0 NM_FDOBJ_NONE (-1) (-1)) ;; mret i
  | None => mret (NM_ERR NM_ENOMEM)
  end.

(** The object of an identifier, as its index in the table. *)
Definition fdobj_get (id : Z) : M (fdst F) (option Z) :=
  if (id <? 0) || (NM_FDOBJ_MAX <=? id) then mret None else
  o ← obj_at id;
  if negb (o_used o) then mret None else mret (Some id).

Definition acquire_end (k : nm_fdobj_kind) (p : nm_pipe) : nm_pipe :=
  match k with
  | NM_FDOBJ_PIPE_R => set_readers (u32 (readers p + 1)) p
  | NM_FDOBJ_PIPE_W => set_writers (u32 (writers p + 1)) p
  | _ => p
  end.

Definition pipe_on_endpoint_acquire (k : nm_fdobj_kind) (pid : Z) : M (fdst F) unit :=
  if (pid <? 0) || (NM_PIPE_MAX <=? pid) then mret tt else
  p ← pipe_at pid;
  if negb (p_used p) then mret tt else mod_pipe pid (acquire_end k).

Definition release_end (k : nm_fdobj_kind) (p : nm_pipe) : nm_pipe :=
  let p := match k with
           | NM_FDOBJ_PIPE_R => if 0 <? readers p then set_readers (readers p - 1) p else p
           | NM_FDOBJ_PIPE_W => if 0 <? writers p then set_writers (writers p - 1) p else p
           | _ => p
           end in
  if (readers p =? 0) && (writers p =? 0)
  then set_write_pos 0 (set_read_pos 0 (set_p_used false p)) else p.

Definition pipe_on_endpoint_release (k : nm_fdobj_kind) (pid : Z) : M (fdst F) unit :=
  if (pid <? 0) || (NM_PIPE_MAX <=? pid) then mret tt else
  p ← pipe_at pid;
  if negb (p_used p) then mret tt else mod_pipe pid (release_end k).

Definition fdobj_retain (id : Z) : M (fdst F) Z :=
  r ← fdobj_get id;
  match r with
  | None => mret (NM_ERR NM_ENOENT)
  | Some id =>
      mod_obj id (fun o => set_refcnt (u32 (refcnt o + 1)) o) ;;
      o ← obj_at id;
      pipe_on_endpoint_acquire (kind o) (pipe_id o) ;;
      mret 0
  end.

Definition fdobj_release (id : Z) : M (fdst F) Z :=
  r ← fdobj_get id;
  match r with
  | None => mret (NM_ERR NM_ENOENT)
  | Some id =>
      o ← obj_at id;
      if refcnt o =? 0 then mret (NM_ERR NM_ENOENT) else
      pipe_on_endpoint_release (kind o) (pipe_id o) ;;
      mod_obj id (fun o => set_refcnt (refcnt o - 1) o) ;;
      o ← obj_at id;
      if 0 <? refcnt o then mret 0 else
      (if bool_decide (kind o = NM_FDOBJ_FS) && (0 <=? fs_fd o)
       then lift_to fd_fs set_fs (fs_close (fs_fd o)) ;; mret tt else mret tt) ;;
      mod_obj id (fun o => mk_obj false (refcnt o) NM_FDOBJ_NONE (-1) (-1)) ;;
      mret 0
  end.

Definition bad_fd (fd : Z) : bool := (fd <? 0) || (NM_MAX_FDS <=? fd).

Definition task_fdobj_id (task : option Z) (fd : Z) : M (fdst F) Z :=
  match task with
  | None => mret (NM_ERR NM_EINVAL)
  | Some i => if bad_fd fd then mret (NM_ERR NM_EINVAL) else fd_entry i fd
  end.

Definition task_install_fdobj (task : option Z) (fd id : Z) : M (fdst F) Z :=
  match task with
  | None => mret (NM_ERR NM_EINVAL)
  | Some i => if bad_fd fd then mret (NM_ERR NM_EINVAL) else set_fd_entry i fd id ;; mret 0
  end.

(** [mask &= ~(1U << fd)] and [mask |= 1U << fd] on a [uint32_t]. *)
Definition mask_clear (m fd : Z) : Z := Z.land m (u32 (Z.lnot (Z.shiftl 1 fd))).
Definition mask_set (m fd : Z) : Z := Z.lor m (Z.shiftl 1 fd).

Definition clear_cloexec (fd : Z) (t : nm_task) : nm_task :=
  set_fd_cloexec_mask (mask_clear (fd_cloexec_mask t) fd) t.

Definition task_close_fd (task : option Z) (fd : Z) : M (fdst F) Z :=
  match task with
  | None => mret (NM_ERR NM_EINVAL)
  | Some i =>
      if bad_fd fd then mret (NM_ERR NM_EINVAL) else
      id ← fd_entry i fd;
      if id =? -1 then mret (NM_ERR NM_ENOENT) else
      r ← fdobj_release id;
      if negb (r =? 0) then mret (NM_ERR NM_ENOENT) else
      set_fd_entry i fd (-1) ;;
      mod_task_at i (clear_cloexec fd) ;;
      mret 0
  end.

Definition create_pipe_endpoint_obj (k : nm_fdobj_kind) (pid : Z) : M (fdst F) Z :=
  id ← alloc_fdobj;
  if id <? 0 then mret (NM_ERR NM_ENOMEM) else
  mod_obj id (fun o => mk_obj (o_used o) 1 k (fs_fd o) pid) ;;
  mret id.

Definition create_fs_obj (fs_fd : Z) : M (fdst F) Z :=
  id ← alloc_fdobj;
  if id <? 0 then mret (NM_ERR NM_ENOMEM) else
  mod_obj id (fun o => mk_obj (o_used o) 1 NM_FDOBJ_FS fs_fd (pipe_id o)) ;;
  mret id.

(** A routine on the pipe [k] of the table. *)
Definition at_pipe {A} (k : Z) (c : M nm_pipe A) : M (fdst F) A := fun s =>
  match arr (pipe_table s) k with
  | None => Stuck OutOfBounds
  | Some p =>
      match c p with
      | Done a p' => Done a (set_pipes (upd (pipe_table s) k p') s)
      | Stuck f => Stuck f
      end
  end.

(** The loops run at most once per byte of the ring. *)
Definition PIPE_FUEL : nat := 512.

Fixpoint read_loop (fuel : nat) (count len : Z) : M nm_pipe (list Z) :=
  p ← gets (fun p => p);
  if (count <? len) && (read_pos p <? write_pos p) then
    match fuel with
    | O => stuck OutOfFuel
    | S fuel =>
        b ← rd p_buf (read_pos p `mod` NM_PIPE_BUF);
        modify (set_read_pos (u64 (read_pos p + 1))) ;;
        rest ← read_loop fuel (count + 1) len;
        mret (b :: rest)
    end
  else mret [].

(** The return value, with the bytes stored to [buf]. *)
Definition read_from_pipe (buf : bool) (len : Z) : M nm_pipe (Z * list Z) :=
  p ← gets (fun p => p);
  if negb (p_used p) || negb buf then mret (NM_ERR NM_EFAIL, []) else
  out ← read_loop PIPE_FUEL 0 len;
  mret (zlen out, out).

Fixpoint write_loop (fuel : nat) (data : list Z) (written len : Z) : M nm_pipe Z :=
  p ← gets (fun p => p);
  if (written <? len) && (u64 (write_pos p - read_pos p) <? NM_PIPE_BUF) then
    match fuel with
    | O => stuck OutOfFuel
    | S fuel =>
        match arr data written with
        | None => stuck OutOfBounds
        | Some b =>
            wr p_buf set_p_buf (write_pos p `mod` NM_PIPE_BUF) b ;;
            modify (set_write_pos (u64 (write_pos p + 1))) ;;
            write_loop fuel data (written + 1) len
        end
    end
  else mret written.

Definition write_to_pipe (buf : option (list Z)) (len : Z) : M nm_pipe Z :=
  p ← gets (fun p => p);
  match buf with
  | None => mret (NM_ERR NM_EFAIL)
  | Some data =>
      if negb (p_used p) then mret (NM_ERR NM_EFAIL) else write_loop PIPE_FUEL data 0 len
  end.

Definition bad_pipe (k : Z) : bool := (k <? 0) || (NM_PIPE_MAX <=? k).

Definition read_from_fdobj (obj : option Z) (buf : bool) (len : Z) : M (fdst F) (Z * list Z) :=
  match obj with
  | None => mret (NM_ERR NM_EFAIL, [])
  | Some id =>
      o ← obj_at id;
      match kind o with
      | NM_FDOBJ_PIPE_R =>
          if bad_pipe (pipe_id o) then mret (NM_ERR NM_EFAIL, [])
          else at_pipe (pipe_id o) (read_from_pipe buf len)
      | NM_FDOBJ_FS => lift_to fd_fs set_fs (fs_read (fs_fd o) len)
      | _ => mret (NM_ERR NM_EFAIL, [])
      end
  end.

Definition write_to_fdobj (obj : option Z) (buf : option (list Z)) (len : Z) : M (fdst F) Z :=
  match obj with
  | None => mret (NM_ERR NM_EFAIL)
  | Some id =>
      o ← obj_at id;
      match kind o with
      | NM_FDOBJ_PIPE_W =>
          if bad_pipe (pipe_id o) then mret (NM_ERR NM_EFAIL)
          else at_pipe (pipe_id o) (write_to_pipe buf len)
      | NM_FDOBJ_FS => lift_to fd_fs set_fs (fs_write (fs_fd o) (default [] buf) len)
      | _ => mret (NM_ERR NM_EFAIL)
      end
  end.

Definition bad_obj (id : Z) : bool := (id <? 0) || (NM_FDOBJ_MAX <=? id).

Definition adopt_legacy_fs_fd (task : option Z) (fd : Z) : M (fdst F) Z :=
  legacy ← task_fdobj_id task fd;
  if bad_obj legacy then mret (NM_ERR NM_EINVAL) else
  obj ← fdobj_get legacy;
  match obj with
  | Some _ => mret legacy
  | None =>
      id ← create_fs_obj legacy;
      if id <? 0 then mret (NM_ERR NM_ENOMEM) else
      task_install_fdobj task fd id ;;
      mret id
  end.

Definition reset_pipe (p : nm_pipe) : nm_pipe := mk_pipe false (p_buf p) 0 0 0 0.
Definition reset_obj (o : nm_fdobj) : nm_fdobj := mk_obj false 0 NM_FDOBJ_NONE (-1) (-1).

Definition nm_fd_init : M (fdst F) unit :=
  modify (set_fd_lock 0) ;;
  fd_lock ;;
  for_all (upto 0 NM_PIPE_MAX) (fun i => mod_pipe i reset_pipe) ;;
  for_all (upto 0 NM_FDOBJ_MAX) (fun i => mod_obj i reset_obj) ;;
  fd_unlock.

(** A read takes the object of the descriptor, or else one it adopts for a raw
    file-system descriptor. *)
Definition nm_fd_read (task : option Z) (fd : Z) (buf : bool) (len : Z) : M (fdst F) (Z * list Z) :=
  fd_lock ;;
  if bool_decide (task = None) || negb buf then fd_unlock ;; mret (NM_ERR NM_EINVAL, []) else
  id ← task_fdobj_id task fd;
  if id =? -1 then fd_unlock ;; mret (NM_ERR NM_ENOENT, []) else
  obj ← (if bad_obj id then mret None else fdobj_get id);
  match obj with
  | Some o => r ← read_from_fdobj (Some o) buf len; fd_unlock ;; mret r
  | None =>
      adopted ← adopt_legacy_fs_fd task fd;
      obj ← (if adopted <? 0 then mret None else fdobj_get adopted);
      match obj with
      | Some o => r ← read_from_fdobj (Some o) buf len; fd_unlock ;; mret r
      | None => fd_unlock ;; mret (NM_ERR NM_ENOENT, [])
      end
  end.

Definition nm_fd_write (task : option Z) (fd : Z) (buf : option (list Z)) (len : Z) : M (fdst F) Z :=
  fd_lock ;;
  if bool_decide (task = None) || bool_decide (buf = None)
  then fd_unlock ;; mret (NM_ERR NM_EINVAL) else
  id ← task_fdobj_id task fd;
  if id =? -1 then fd_unlock ;; mret (NM_ERR NM_ENOENT) else
  obj ← (if bad_obj id then mret None else fdobj_get id);
  match obj with
  | Some o => r ← write_to_fdobj (Some o) buf len; fd_unlock ;; mret r
  | None =>
      adopted ← adopt_legacy_fs_fd task fd;
      obj ← (if adopted <? 0 then mret None else fdobj_get adopted);
      match obj with
      | Some o => r ← write_to_fdobj (Some o) buf len; fd_unlock ;; mret r
      | None => fd_unlock ;; mret (NM_ERR NM_ENOENT)
      end
  end.

(** An entry that is not an object in use is taken for a raw descriptor. *)
Definition adopt_if_legacy (task : option Z) (fd id : Z) : M (fdst F) bool :=
  if bad_obj id then mret true else
  obj ← fdobj_get id;
  match obj with
  | Some _ => mret true
  | None => r ← adopt_legacy_fs_fd task fd; mret (0 <=? r)
  end.

Definition nm_fd_close (task : option Z) (fd : Z) : M (fdst F) Z :=
  fd_lock ;;
  if bool_decide (task = None) || bad_fd fd then fd_unlock ;; mret (NM_ERR NM_EINVAL) else
  id ← task_fdobj_id task fd;
  if id =? -1 then fd_unlock ;; mret (NM_ERR NM_ENOENT) else
  ok ← adopt_if_legacy task fd id;
  if negb ok then fd_unlock ;; mret (NM_ERR NM_EFAIL) else
  r ← task_close_fd task fd;
  fd_unlock ;; mret r.

(** The return value, with the two descriptors when it is 0. *)
Definition nm_fd_pipe (task : option Z) (ptrs : bool) : M (fdst F) (Z * option (Z * Z)) :=
  fd_lock ;;
  match task with
  | None => fd_unlock ;; mret (NM_ERR NM_EINVAL, None)
  | Some i =>
      if negb ptrs then fd_unlock ;; mret (NM_ERR NM_EINVAL, None) else
      k ← gets (fun s => find_idx (fun p => negb (p_used p)) (take (Z.to_nat NM_PIPE_MAX) (pipe_table s)));
      match k with
      | None => fd_unlock ;; mret (NM_ERR NM_ENOMEM, None)
      | Some k =>
          rdfd ← alloc_task_fd task;
          if rdfd <? 0 then fd_unlock ;; mret (NM_ERR NM_ENOMEM, None) else
          set_fd_entry i rdfd (-2) ;;
          wrfd ← alloc_task_fd task;
          if wrfd <? 0 then
            set_fd_entry i rdfd (-1) ;; fd_unlock ;; mret (NM_ERR NM_ENOMEM, None)
          else
          mod_pipe k (fun p => mk_pipe true (p_buf p) 0 0 1 1) ;;
          rd_obj ← create_pipe_endpoint_obj NM_FDOBJ_PIPE_R k;
          if rd_obj <? 0 then
            set_fd_entry i rdfd (-1) ;;
            mod_pipe k (fun p => set_writers 0 (set_readers 0 (set_p_used false p))) ;;
            fd_unlock ;; mret (NM_ERR NM_ENOMEM, None)
          else
          wr_obj ← create_pipe_endpoint_obj NM_FDOBJ_PIPE_W k;
          if wr_obj <? 0 then
            set_fd_entry i rdfd (-1) ;;
            fdobj_release rd_obj ;;
            mod_pipe k (fun p => set_writers 0 (set_readers 0 (set_p_used false p))) ;;
            fd_unlock ;; mret (NM_ERR NM_ENOMEM, None)
          else
          task_install_fdobj task rdfd rd_obj ;;
          task_install_fdobj task wrfd wr_obj ;;
          fd_unlock ;;
          mret (0, Some (rdfd, wrfd))
      end
  end.

Definition nm_fd_dup2 (task : option Z) (oldfd newfd : Z) : M (fdst F) Z :=
  fd_lock ;;
  match task with
  | None => fd_unlock ;; mret (NM_ERR NM_EINVAL)
  | Some i =>
      if bad_fd oldfd || bad_fd newfd then fd_unlock ;; mret (NM_ERR NM_EINVAL) else
      old_obj ← task_fdobj_id task oldfd;
      if old_obj =? -1 then fd_unlock ;; mret (NM_ERR NM_ENOENT) else
      if oldfd =? newfd then fd_unlock ;; mret newfd else
      new_obj ← task_fdobj_id task newfd;
      closed ← (if negb (new_obj =? -1) then task_close_fd task newfd else mret 0);
      if negb (closed =? 0) then fd_unlock ;; mret (NM_ERR NM_EFAIL) else
      r ← fdobj_retain old_obj;
      if negb (r =? 0) then fd_unlock ;; mret (NM_ERR NM_EFAIL) else
      task_install_fdobj task newfd old_obj ;;
      mod_task_at i (clear_cloexec newfd) ;;
      fd_unlock ;;
      mret newfd
  end.

Definition nm_fd_on_fork_child (child : option Z) : M (fdst F) Z :=
  fd_lock ;;
  match child with
  | None => fd_unlock ;; mret (NM_ERR NM_EINVAL)
  | Some i =>
      for_all (upto 0 NM_MAX_FDS) (fun fd =>
        id ← fd_entry i fd;
        if id =? -1 then mret tt else
        r ← fdobj_retain id;
        if negb (r =? 0) then set_fd_entry i fd (-1) else mret tt) ;;
      fd_unlock ;;
      mret 0
  end.

Definition nm_fd_set_cloexec (task : option Z) (fd : Z) (enabled : bool) : M (fdst F) Z :=
  fd_lock ;;
  match task with
  | None => fd_unlock ;; mret (NM_ERR NM_EINVAL)
  | Some i =>
      if bad_fd fd then fd_unlock ;; mret (NM_ERR NM_EINVAL) else
      id ← fd_entry i fd;
      if id =? -1 then fd_unlock ;; mret (NM_ERR NM_EINVAL) else
      mod_task_at i (fun t => if enabled
        then set_fd_cloexec_mask (mask_set (fd_cloexec_mask t) fd) t else clear_cloexec fd t) ;;
      fd_unlock ;;
      mret 0
  end.

Definition nm_fd_get_cloexec (task : option Z) (fd : Z) : M (fdst F) Z :=
  fd_lock ;;
  match task with
  | None => fd_unlock ;; mret (NM_ERR NM_EINVAL)
  | Some i =>
      if bad_fd fd then fd_unlock ;; mret (NM_ERR NM_EINVAL) else
      id ← fd_entry i fd;
      if id =? -1 then fd_unlock ;; mret (NM_ERR NM_EINVAL) else
      t ← task_at i;
      fd_unlock ;;
      mret (if Z.land (fd_cloexec_mask t) (Z.shiftl 1 fd) =? 0 then 0 else 1)
  end.

Definition nm_fd_close_on_exec (task : option Z) : M (fdst F) unit :=
  match task with
  | None => mret tt
  | Some i =>
      fd_lock ;;
      for_all (upto 0 NM_MAX_FDS) (fun fd =>
        t ← task_at i;
        if Z.land (fd_cloexec_mask t) (Z.shiftl 1 fd) =? 0 then mret tt else
        id ← task_fdobj_id task fd;
        if id =? -1 then mod_task_at i (clear_cloexec fd) else
        ok ← adopt_if_legacy task fd id;
        if negb ok then mret tt else
        task_close_fd task fd ;; mret tt) ;;
      fd_unlock
  end.
End ops.


(** ** A pipe is a bounded queue *)

Record pipe_wf (p : nm_pipe) : Prop := mk_pipe_wf {
  pw_len : zlen (p_buf p) = NM_PIPE_BUF;
  pw_order : 0 <= read_pos p <= write_pos p;
  pw_bound : write_pos p - read_pos p <= NM_PIPE_BUF;
  pw_width : is_u64 (write_pos p);
}.

Definition ring (buf : list Z) (i : Z) : Z := default 0 (arr buf (i `mod` NM_PIPE_BUF)).
Definition contents (p : nm_pipe) : list Z := ring (p_buf p) <$> upto (read_pos p) (write_pos p).

Lemma contents_len p : pipe_wf p -> zlen (contents p) = write_pos p - read_pos p.
Proof.
  intros [_ Ho _ _]. unfold contents, zlen. rewrite length_fmap. apply zlen_upto. lia.
Qed.

Lemma ring_at p i : pipe_wf p -> arr (p_buf p) (i `mod` NM_PIPE_BUF) = Some (ring (p_buf p) i).
Proof.
  intros [Hl _ _ _]. unfold ring. destruct (arr_lookup (p_buf p) (i `mod` NM_PIPE_BUF)) as [b Hb].
  - rewrite Hl. apply Z.mod_pos_bound. done.
  - by rewrite Hb.
Qed.

Lemma read_one p :
  pipe_wf p -> read_pos p < write_pos p ->
  contents p = ring (p_buf p) (read_pos p) :: contents (set_read_pos (read_pos p + 1) p).
Proof. intros _ Hlt. unfold contents. simpl. by rewrite upto_cons. Qed.

Lemma read_one_wf p :
  pipe_wf p -> read_pos p < write_pos p -> pipe_wf (set_read_pos (read_pos p + 1) p).
Proof. intros [Hl Ho Hb Hw] Hlt. constructor; simpl; try done; lia. Qed.

Lemma wp_read_loop fuel p count len (Q : list Z -> nm_pipe -> Prop) :
  pipe_wf p -> write_pos p - read_pos p <= Z.of_nat fuel -> count <= len ->
  (let n := Z.min (len - count) (write_pos p - read_pos p) in
   pipe_wf (set_read_pos (read_pos p + n) p) ->
   Q (take (Z.to_nat n) (contents p)) (set_read_pos (read_pos p + n) p)) ->
  wp (read_loop fuel count len) Q p.
Proof.
  revert p count Q. induction fuel as [|fuel IH]; intros p count Q Hw Hf Hc HQ; simpl; wp_step; wp_step.
  all: cbv zeta in HQ; pose proof (pw_order _ Hw) as Ho.
  all: destruct (Z.ltb_spec count len) as [Hcl|Hcl], (Z.ltb_spec (read_pos p) (write_pos p)) as [Hrw|Hrw];
    try (simpl; apply wp_ret; replace (Z.min (len - count) (write_pos p - read_pos p)) with 0 in HQ by lia;
      rewrite Z.add_0_r in HQ; destruct p; by apply HQ).
  { lia. }
  simpl. wp_step. eapply wp_rd; [by apply ring_at|]. wp_go.
  assert (Hu : u64 (read_pos p + 1) = read_pos p + 1).
  { apply u64_small. pose proof (pw_width _ Hw) as Hwd. unfold is_u64 in Hwd. lia. }
  rewrite Hu. apply IH; [by apply read_one_wf|simpl; lia|lia|]. simpl. intros Hw'. wp_go.
  set (m := Z.min (len - (count + 1)) (write_pos p - (read_pos p + 1))) in *.
  replace (Z.min (len - count) (write_pos p - read_pos p)) with (m + 1) in HQ by lia.
  rewrite (read_one p) in HQ by done. replace (Z.to_nat (m + 1)) with (S (Z.to_nat m)) in HQ by lia.
  simpl in HQ. unfold set_read_pos in *. simpl in *.
  replace (read_pos p + 1 + m) with (read_pos p + (m + 1)) in * by lia. by apply HQ.
Qed.

(** One byte written. *)
Definition write_one (b : Z) (p : nm_pipe) : nm_pipe :=
  set_write_pos (write_pos p + 1) (set_p_buf (upd (p_buf p) (write_pos p `mod` NM_PIPE_BUF) b) p).

Lemma write_one_wf b p :
  pipe_wf p -> write_pos p - read_pos p < NM_PIPE_BUF -> is_u64 (write_pos p + 1) ->
  pipe_wf (write_one b p).
Proof.
  intros [Hl Ho Hb Hw] Hlt Hu. constructor; simpl; [by rewrite zlen_upd|lia..|done].
Qed.

Lemma write_one_contents b p :
  pipe_wf p -> write_pos p - read_pos p < NM_PIPE_BUF -> contents (write_one b p) = contents p ++ [b].
Proof.
  intros Hw Hlt. pose proof (pw_order _ Hw). pose proof (pw_len _ Hw) as Hl. unfold contents. simpl.
  rewrite (upto_app _ (write_pos p)) by lia. rewrite fmap_app, (upto_cons (write_pos p)) by lia.
  rewrite (upto_nil (write_pos p + 1)) by lia. simpl.
  assert (Hr : 0 <= write_pos p `mod` NM_PIPE_BUF < zlen (p_buf p))
    by (rewrite Hl; by apply Z.mod_pos_bound).
  f_equal.
  - apply list_fmap_ext. intros n i Hi%list_elem_of_lookup_2. apply elem_of_upto in Hi.
    unfold ring. rewrite arr_upd_ne; [done|]. intros E.
    assert (Hd : (write_pos p - i) `mod` NM_PIPE_BUF = 0) by (rewrite Zminus_mod, E, Z.sub_diag; done).
    rewrite Z.mod_small in Hd by lia. lia.
  - unfold ring. by rewrite arr_upd_eq by done.
Qed.

(** Writing adds a prefix of the data, as much as there is room for. *)
Record wrote (p p' : nm_pipe) (data : list Z) : Prop := mk_wrote {
  wo_wf : pipe_wf p';
  wo_contents : contents p' = contents p ++ data;
  wo_ends : readers p' = readers p /\ writers p' = writers p /\ p_used p' = p_used p;
  wo_pos : read_pos p' = read_pos p /\ write_pos p' = write_pos p + zlen data;
}.

Lemma take_drop_cons (data : list Z) w b n :
  arr data w = Some b -> 0 <= n ->
  take (Z.to_nat (n + 1)) (drop (Z.to_nat w) data) =
  b :: take (Z.to_nat n) (drop (Z.to_nat (w + 1)) data).
Proof.
  intros Hb Hn. pose proof (arr_range _ _ _ Hb). unfold arr in Hb.
  destruct (Z.leb_spec 0 w); [|lia]. rewrite (drop_S _ b) by done.
  replace (Z.to_nat (n + 1)) with (S (Z.to_nat n)) by lia.
  by replace (Z.to_nat (w + 1)) with (S (Z.to_nat w)) by lia.
Qed.

Lemma wp_write_loop fuel data p w len (Q : Z -> nm_pipe -> Prop) :
  pipe_wf p -> NM_PIPE_BUF - (write_pos p - read_pos p) <= Z.of_nat fuel ->
  0 <= w <= len -> len <= zlen data -> read_pos p + NM_PIPE_BUF < 2 ^ 64 ->
  (let n := Z.min (len - w) (NM_PIPE_BUF - (write_pos p - read_pos p)) in
   forall p', wrote p p' (take (Z.to_nat n) (drop (Z.to_nat w) data)) -> Q (w + n) p') ->
  wp (write_loop fuel data w len) Q p.
Proof.
  revert p w Q. induction fuel as [|fuel IH]; intros p w Q Hw Hf Hwl Hlen Hmax HQ; simpl; wp_step; wp_step.
  all: cbv zeta in HQ; pose proof (pw_order _ Hw) as Ho; pose proof (pw_bound _ Hw) as Hb.
  all: unfold NM_PIPE_BUF in *; rewrite u64_small by lia.
  all: destruct (Z.ltb_spec w len) as [Hcl|Hcl], (Z.ltb_spec (write_pos p - read_pos p) 512) as [Hrw|Hrw];
    try (simpl; apply wp_ret; replace (Z.min (len - w) (512 - (write_pos p - read_pos p))) with 0 in HQ by lia;
      rewrite Z.add_0_r in HQ; apply HQ; constructor; [done|by rewrite app_nil_r|done|unfold zlen; simpl; lia]).
  { lia. }
  simpl. destruct (arr_lookup data w) as [b Hbd]; [lia|]. rewrite Hbd.
  wp_step. apply wp_wr; [rewrite (pw_len _ Hw); by apply Z.mod_pos_bound|]. wp_step.
  wp_step. simpl. rewrite u64_small by lia.
  change (wp (write_loop fuel data (w + 1) len) Q (write_one b p)).
  assert (Hw' : pipe_wf (write_one b p)).
  { apply write_one_wf; [done|done|]. unfold is_u64. lia. }
  pose proof (write_one_contents b p Hw Hrw) as Hc.
  apply IH; [done|simpl; lia|lia|done|simpl; lia|]. simpl. intros p' [Hwf Hct He Hp].
  set (m := Z.min (len - (w + 1)) (512 - (write_pos p + 1 - read_pos p))) in *.
  replace (Z.min (len - w) (512 - (write_pos p - read_pos p))) with (m + 1) in HQ by lia.
  replace (w + 1 + m) with (w + (m + 1)) by lia. apply HQ.
  rewrite (take_drop_cons _ _ b) by (done || lia). constructor; [done| |done|].
  - rewrite Hct, Hc. by rewrite <- app_assoc.
  - simpl in Hp. unfold zlen in *. simpl. lia.
Qed.

Lemma wp_read_pipe p len (Q : Z * list Z -> nm_pipe -> Prop) :
  pipe_wf p -> p_used p = true -> 0 <= len ->
  (let n := Z.min len (write_pos p - read_pos p) in
   pipe_wf (set_read_pos (read_pos p + n) p) ->
   Q (n, take (Z.to_nat n) (contents p)) (set_read_pos (read_pos p + n) p)) ->
  wp (read_from_pipe true len) Q p.
Proof.
  intros Hw Hu Hl HQ. unfold read_from_pipe. wp_step. wp_step. rewrite Hu. cbn [negb orb]. wp_step.
  apply wp_read_loop; [done|unfold PIPE_FUEL; apply Hw|done|]. rewrite Z.sub_0_r. cbv zeta.
  intros Hw'. wp_go. specialize (HQ Hw'). pose proof (pw_order _ Hw).
  pose proof (contents_len _ Hw) as Hc. unfold zlen in *.
  replace (Z.of_nat (length (take _ _))) with (Z.min len (write_pos p - read_pos p)); [done|].
  rewrite length_take. lia.
Qed.

Lemma wp_write_pipe p data len (Q : Z -> nm_pipe -> Prop) :
  pipe_wf p -> p_used p = true -> 0 <= len <= zlen data -> write_pos p + NM_PIPE_BUF < 2 ^ 64 ->
  (let n := Z.min len (NM_PIPE_BUF - (write_pos p - read_pos p)) in
   forall p', wrote p p' (take (Z.to_nat n) data) -> Q n p') ->
  wp (write_to_pipe (Some data) len) Q p.
Proof.
  intros Hw Hu Hl Hmax HQ. pose proof (pw_order _ Hw). unfold write_to_pipe.
  wp_step. wp_step. rewrite Hu. cbn [negb].
  apply wp_write_loop; [done|unfold PIPE_FUEL, NM_PIPE_BUF; lia|lia|lia|lia|].
  rewrite Z.sub_0_r. done.
Qed.

(** ** Reference counts *)

(** How many descriptors of live tasks name the object [id]. *)
Definition refs (ts : list nm_task) (id : Z) : Z :=
  sumZ (fun t => if live t then countb (fun x => x =? id) (fd_table t) else 0) ts.

Definition refcnt_of (objs : list nm_fdobj) (id : Z) : Z :=
  match arr objs id with
  | Some o => if o_used o then refcnt o else 0
  | None => 0
  end.

(** The references to the [kd] end of the pipe [k]. *)
Definition weight (k : Z) (kd : nm_fdobj_kind) (o : nm_fdobj) : Z :=
  if o_used o && bool_decide (kind o = kd) && (pipe_id o =? k) then refcnt o else 0.
Definition load (objs : list nm_fdobj) (k : Z) (kd : nm_fdobj_kind) : Z := sumZ (weight k kd) objs.

Definition obj_ok (o : nm_fdobj) : Prop :=
  o_used o = true -> 0 < refcnt o < 2 ^ 32 /\
    match kind o with
    | NM_FDOBJ_FS => 0 <= fs_fd o /\ pipe_id o = -1
    | NM_FDOBJ_PIPE_R | NM_FDOBJ_PIPE_W => 0 <= pipe_id o < NM_PIPE_MAX
    | NM_FDOBJ_NONE => False
    end.

(** A pipe is in use exactly while it has ends, and counts them. *)
Record pipe_ok (objs : list nm_fdobj) (k : Z) (p : nm_pipe) : Prop := mk_pipe_ok {
  po_used : p_used p = (0 <? load objs k NM_FDOBJ_PIPE_R + load objs k NM_FDOBJ_PIPE_W);
  po_ends : p_used p = true -> pipe_wf p /\
    readers p = load objs k NM_FDOBJ_PIPE_R /\ writers p = load objs k NM_FDOBJ_PIPE_W;
  po_buf : zlen (p_buf p) = NM_PIPE_BUF;
  po_width : load objs k NM_FDOBJ_PIPE_R < 2 ^ 32 /\ load objs k NM_FDOBJ_PIPE_W < 2 ^ 32;
}.

Record tables_ok (objs : list nm_fdobj) (pipes : list nm_pipe) : Prop := mk_tables_ok {
  tb_objs : zlen objs = NM_FDOBJ_MAX;
  tb_pipes : zlen pipes = NM_PIPE_MAX;
  tb_obj : Forall obj_ok objs;
  tb_pipe : forall k p, arr pipes k = Some p -> pipe_ok objs k p;
}.

(** Every descriptor of a live task is counted by its object: in particular an
    object that is referred to is in use. *)
Definition counted (ts : list nm_task) (objs : list nm_fdobj) : Prop :=
  forall id, id <> -1 -> refs ts id <= refcnt_of objs id.

Lemma weight_nonneg k kd o : obj_ok o -> 0 <= weight k kd o.
Proof.
  intros Ho. unfold weight. destruct (o_used o) eqn:E; [|done].
  destruct (Ho E). simpl. destruct (_ && _); lia.
Qed.

Lemma load_nonneg objs k kd : Forall obj_ok objs -> 0 <= load objs k kd.
Proof.
  intros Ho. apply sumZ_nonneg. intros o Hin. apply weight_nonneg.
  by apply (proj1 (Forall_forall obj_ok objs) Ho).
Qed.

Lemma load_ge objs k kd id o :
  Forall obj_ok objs -> arr objs id = Some o -> weight k kd o <= load objs k kd.
Proof.
  intros Ho Hid. apply (sumZ_lookup_le _ _ id); [|done]. intros o' Hin. apply weight_nonneg.
  by apply (proj1 (Forall_forall obj_ok objs) Ho).
Qed.

Lemma load_upd objs k kd id o o' :
  arr objs id = Some o -> load (upd objs id o') k kd = load objs k kd - weight k kd o + weight k kd o'.
Proof. apply sumZ_upd. Qed.

(** One object and at most its pipe change. *)
Definition upd_pipe (pipes : list nm_pipe) (k : Z) (f : nm_pipe -> nm_pipe) : list nm_pipe :=
  match arr pipes k with
  | Some p => upd pipes k (f p)
  | None => pipes
  end.

Lemma tables_change objs pipes id o o' k f :
  tables_ok objs pipes -> arr objs id = Some o -> obj_ok o' ->
  (forall j kd, j <> k -> weight j kd o' = weight j kd o) ->
  (forall p, arr pipes k = Some p -> pipe_ok (upd objs id o') k (f p)) ->
  tables_ok (upd objs id o') (upd_pipe pipes k f).
Proof.
  intros [Hlo Hlp Ho Hp] Hid Ho' Hw Hk. constructor.
  - by rewrite zlen_upd.
  - unfold upd_pipe. destruct (arr pipes k); [by rewrite zlen_upd|done].
  - by apply Forall_upd.
  - assert (Hoff : forall j p, j <> k -> arr pipes j = Some p -> pipe_ok (upd objs id o') j p).
    { intros j p Hj Hjp. destruct (Hp j p Hjp) as [Hu He Hb Hwd].
      assert (El : forall kd, load (upd objs id o') j kd = load objs j kd).
      { intros kd. rewrite (load_upd _ _ _ _ o) by done. rewrite Hw by done. lia. }
      constructor; rewrite ?El; done. }
    unfold upd_pipe. destruct (arr pipes k) as [pk|] eqn:Ek.
    + intros j p. rewrite arr_upd by (by eapply arr_range). destruct (Z.eqb_spec k j) as [<-|].
      * intros [= <-]. by apply Hk.
      * by apply Hoff.
    + intros j p Hj. apply Hoff; [|done]. intros ->. congruence.
Qed.

Lemma obj_at_ok objs pipes id o : tables_ok objs pipes -> arr objs id = Some o -> obj_ok o.
Proof. intros Ht. apply (Forall_arr obj_ok). apply Ht. Qed.

(** The entry [fd] of task [i] replaced. *)
Lemma refs_entry ts i t t' fd old new id :
  arr ts i = Some t -> live t = true -> arr (fd_table t) fd = Some old ->
  live t' = true -> fd_table t' = upd (fd_table t) fd new ->
  refs (upd ts i t') id = refs ts id - Z.b2z (old =? id) + Z.b2z (new =? id).
Proof.
  intros Ht Hl Hfd Hl' Hfd'. unfold refs. rewrite (sumZ_upd _ _ _ _ _ Ht), Hl, Hl', Hfd'.
  rewrite (countb_upd _ _ _ _ _ Hfd). lia.
Qed.

Lemma refs_same ts i t t' id :
  arr ts i = Some t -> live t' = live t -> fd_table t' = fd_table t -> refs (upd ts i t') id = refs ts id.
Proof. intros Ht Hl Hfd. unfold refs. rewrite (sumZ_upd _ _ _ _ _ Ht), Hl, Hfd. lia. Qed.

Lemma refs_nonneg ts id : 0 <= refs ts id.
Proof.
  apply sumZ_nonneg. intros t _. destruct (live t); [|done].
  pose proof (countb_range (fun x => x =? id) (fd_table t)). lia.
Qed.

Lemma refs_pos ts i t fd id :
  arr ts i = Some t -> live t = true -> arr (fd_table t) fd = Some id -> 0 < refs ts id.
Proof.
  intros Ht Hl Hfd. unfold refs.
  assert (Hc : 0 < countb (fun x => x =? id) (fd_table t)).
  { apply countb_pos. exists id. split; [by eapply arr_elem|]. apply Z.eqb_refl. }
  pose proof (sumZ_lookup_le (fun t => if live t then countb (fun x => x =? id) (fd_table t) else 0)
    ts i t) as Hle. simpl in Hle. rewrite Hl in Hle.
  apply (Z.lt_le_trans _ _ _ Hc), Hle; [|done]. intros u _. destruct (live u); [|done].
  pose proof (countb_range (fun x => x =? id) (fd_table u)). lia.
Qed.

(** A descriptor of a live task is free or names an object in use. *)
Lemma counted_used ts objs i t fd id :
  counted ts objs -> arr ts i = Some t -> live t = true -> arr (fd_table t) fd = Some id ->
  id <> -1 -> exists o, arr objs id = Some o /\ o_used o = true /\ refs ts id <= refcnt o.
Proof.
  intros Hc Ht Hl Hfd Hne. pose proof (refs_pos _ _ _ _ _ Ht Hl Hfd) as Hp. specialize (Hc id Hne).
  unfold refcnt_of in Hc. destruct (arr objs id) as [o|]; [|lia].
  destruct (o_used o) eqn:E; [|lia]. eauto.
Qed.

(** ** Retain and release *)

Definition drop_obj (o : nm_fdobj) : nm_fdobj :=
  if 1 <? refcnt o then set_refcnt (refcnt o - 1) o else mk_obj false 0 NM_FDOBJ_NONE (-1) (-1).
Definition drop_end (k : nm_fdobj_kind) (p : nm_pipe) : nm_pipe :=
  if p_used p then release_end k p else p.
Definition keep_end (k : nm_fdobj_kind) (p : nm_pipe) : nm_pipe :=
  if p_used p then acquire_end k p else p.

Lemma weight_elsewhere o j kd : pipe_id o <> j -> weight j kd o = 0.
Proof.
  intros Hne. unfold weight. destruct (Z.eqb_spec (pipe_id o) j); [done|]. by rewrite andb_false_r.
Qed.

Lemma weight_end o kd :
  o_used o = true -> weight (pipe_id o) kd o = if bool_decide (kind o = kd) then refcnt o else 0.
Proof. intros Hu. unfold weight. rewrite Hu, Z.eqb_refl, andb_true_r. done. Qed.

Lemma drop_weight o j kd :
  o_used o = true -> obj_ok o -> weight j kd (drop_obj o) =
  weight j kd o - Z.b2z (bool_decide (kind o = kd) && (pipe_id o =? j)).
Proof.
  intros Hu Ho. destruct (Ho Hu) as [Hr _]. unfold drop_obj.
  destruct (Z.ltb_spec 1 (refcnt o)); unfold weight; simpl; rewrite Hu; simpl;
    destruct (bool_decide (kind o = kd) && (pipe_id o =? j)); simpl; lia.
Qed.

Lemma drop_ok o : o_used o = true -> obj_ok o -> obj_ok (drop_obj o).
Proof.
  intros Hu Ho. destruct (Ho Hu) as [Hr Hk]. unfold drop_obj.
  destruct (Z.ltb_spec 1 (refcnt o)); intros Hu'; [|done]. simpl. split; [lia|done].
Qed.

(** The pipe of an end that is given up. *)
Lemma drop_end_ok objs id o p :
  Forall obj_ok objs -> arr objs id = Some o -> o_used o = true -> 0 <= pipe_id o ->
  pipe_ok objs (pipe_id o) p -> pipe_ok (upd objs id (drop_obj o)) (pipe_id o) (drop_end (kind o) p).
Proof.
  intros Hall Hid Hu Hpid [Hpu He Hb Hw].
  assert (Ho : obj_ok o) by (by eapply (Forall_arr obj_ok)). destruct (Ho Hu) as [Hr Hk].
  assert (Hl : forall kd, load (upd objs id (drop_obj o)) (pipe_id o) kd =
    load objs (pipe_id o) kd - Z.b2z (bool_decide (kind o = kd))).
  { intros kd. rewrite (load_upd _ _ _ _ o), drop_weight, Z.eqb_refl, andb_true_r by done. lia. }
  pose proof (load_nonneg objs (pipe_id o) NM_FDOBJ_PIPE_R Hall) as HR.
  pose proof (load_nonneg objs (pipe_id o) NM_FDOBJ_PIPE_W Hall) as HW.
  pose proof (load_ge objs (pipe_id o) (kind o) id o Hall Hid) as Hge.
  rewrite weight_end, bool_decide_eq_true_2 in Hge by done.
  assert (Hused : p_used p = true).
  { rewrite Hpu. apply Z.ltb_lt. destruct (kind o); lia || done. }
  destruct (He Hused) as (Hwf & Hrd & Hwr). unfold drop_end, release_end. rewrite Hused.
  destruct Hwf as [Hwl Hwo Hwb Hww].
  destruct (kind o) eqn:Ek; [done|lia| |].
  - destruct (Z.ltb_spec 0 (readers p)); [|lia]. simpl.
    destruct (Z.eqb_spec (readers p - 1) 0), (Z.eqb_spec (writers p) 0); simpl;
      constructor; rewrite ?Hl; simpl; try done; try lia.
    all: rewrite ?Hused; try (intros _; split; [by constructor|lia]).
    all: symmetry; (apply Z.ltb_lt || apply Z.ltb_ge); lia.
  - destruct (Z.ltb_spec 0 (writers p)); [|lia]. simpl.
    destruct (Z.eqb_spec (readers p) 0), (Z.eqb_spec (writers p - 1) 0); simpl;
      constructor; rewrite ?Hl; simpl; try done; try lia.
    all: rewrite ?Hused; try (intros _; split; [by constructor|lia]).
    all: symmetry; (apply Z.ltb_lt || apply Z.ltb_ge); lia.
Qed.

Lemma drop_tables objs pipes id o :
  tables_ok objs pipes -> arr objs id = Some o -> o_used o = true ->
  tables_ok (upd objs id (drop_obj o)) (upd_pipe pipes (pipe_id o) (drop_end (kind o))).
Proof.
  intros Ht Hid Hu. pose proof (obj_at_ok _ _ _ _ Ht Hid) as Ho.
  eapply tables_change; [done|done|by apply drop_ok| |].
  - intros j kd Hj. rewrite drop_weight by done.
    destruct (Z.eqb_spec (pipe_id o) j); [done|]. rewrite andb_false_r. simpl. lia.
  - intros p Hp. apply drop_end_ok; [apply Ht|done|done| |by apply Ht].
    apply arr_range in Hp. lia.
Qed.

Lemma drop_refcnt objs id o j :
  arr objs id = Some o -> o_used o = true -> obj_ok o ->
  refcnt_of (upd objs id (drop_obj o)) j = refcnt_of objs j - Z.b2z (id =? j).
Proof.
  intros Hid Hu Ho. destruct (Ho Hu) as [Hr _]. unfold refcnt_of.
  rewrite arr_upd by (by eapply arr_range). destruct (Z.eqb_spec id j) as [<-|].
  - rewrite Hid, Hu. unfold drop_obj. destruct (Z.ltb_spec 1 (refcnt o)); simpl; rewrite ?Hu; lia.
  - simpl. lia.
Qed.

Definition keep_obj (o : nm_fdobj) : nm_fdobj := set_refcnt (refcnt o + 1) o.

(** There is room for [n] more references to the object [o]. *)
Definition room (objs : list nm_fdobj) (o : nm_fdobj) (n : Z) : Prop :=
  refcnt o + n < 2 ^ 32 /\ forall kd, load objs (pipe_id o) kd + n < 2 ^ 32.

Lemma keep_weight o j kd :
  o_used o = true -> weight j kd (keep_obj o) =
  weight j kd o + Z.b2z (bool_decide (kind o = kd) && (pipe_id o =? j)).
Proof.
  intros Hu. unfold weight, keep_obj. simpl. rewrite Hu. simpl.
  destruct (bool_decide (kind o = kd) && (pipe_id o =? j)); simpl; lia.
Qed.

Lemma keep_end_ok objs id o p :
  Forall obj_ok objs -> arr objs id = Some o -> o_used o = true -> 0 <= pipe_id o ->
  room objs o 1 -> pipe_ok objs (pipe_id o) p ->
  pipe_ok (upd objs id (keep_obj o)) (pipe_id o) (keep_end (kind o) p).
Proof.
  intros Hall Hid Hu Hpid [_ Hroom] [Hpu He Hb Hw].
  assert (Ho : obj_ok o) by (by eapply (Forall_arr obj_ok)). destruct (Ho Hu) as [Hr Hk].
  assert (Hl : forall kd, load (upd objs id (keep_obj o)) (pipe_id o) kd =
    load objs (pipe_id o) kd + Z.b2z (bool_decide (kind o = kd))).
  { intros kd. rewrite (load_upd _ _ _ _ o), keep_weight, Z.eqb_refl, andb_true_r by done. lia. }
  pose proof (load_nonneg objs (pipe_id o) NM_FDOBJ_PIPE_R Hall) as HR.
  pose proof (load_nonneg objs (pipe_id o) NM_FDOBJ_PIPE_W Hall) as HW.
  pose proof (load_ge objs (pipe_id o) (kind o) id o Hall Hid) as Hge.
  rewrite weight_end, bool_decide_eq_true_2 in Hge by done.
  assert (Hused : p_used p = true).
  { rewrite Hpu. apply Z.ltb_lt. destruct (kind o); lia || done. }
  destruct (He Hused) as (Hwf & Hrd & Hwr). unfold keep_end, acquire_end. rewrite Hused.
  pose proof (Hroom NM_FDOBJ_PIPE_R). pose proof (Hroom NM_FDOBJ_PIPE_W).
  destruct Hwf as [Hwl Hwo Hwb Hww].
  destruct (kind o) eqn:Ek; [done|lia| |]; rewrite u32_small by lia;
    constructor; rewrite ?Hl; simpl; try done; try lia.
  all: rewrite ?Hused; try (intros _; split; [by constructor|lia]).
  all: symmetry; apply Z.ltb_lt; lia.
Qed.

Lemma keep_tables objs pipes id o :
  tables_ok objs pipes -> arr objs id = Some o -> o_used o = true -> room objs o 1 ->
  tables_ok (upd objs id (keep_obj o)) (upd_pipe pipes (pipe_id o) (keep_end (kind o))).
Proof.
  intros Ht Hid Hu Hroom. pose proof (obj_at_ok _ _ _ _ Ht Hid) as Ho. destruct (Ho Hu) as [Hr Hk].
  eapply tables_change; [done|done| | |].
  - intros _. simpl. destruct Hroom. split; [lia|done].
  - intros j kd Hj. rewrite keep_weight by done.
    destruct (Z.eqb_spec (pipe_id o) j); [done|]. rewrite andb_false_r. simpl. lia.
  - intros p Hp. apply keep_end_ok; [apply Ht|done|done| |done|by apply Ht].
    apply arr_range in Hp. lia.
Qed.

Lemma keep_refcnt objs id o j :
  arr objs id = Some o -> o_used o = true ->
  refcnt_of (upd objs id (keep_obj o)) j = refcnt_of objs j + Z.b2z (id =? j).
Proof.
  intros Hid Hu. unfold refcnt_of. rewrite arr_upd by (by eapply arr_range).
  destruct (Z.eqb_spec id j) as [<-|]; [rewrite Hid, Hu; simpl; rewrite Hu; lia|simpl; lia].
Qed.

(** ** The operations *)

(** Compute the fields of a state. *)
Ltac fd_state := cbn [fd_tasks pipe_table fdobj_table fd_lock_word fd_fs].

Section wp_ops.
Context {F : Type} `{FileSys F}.
Implicit Types (s : fdst F).

Record fd_core s : Prop := mk_fd_core {
  fc_tables : tables_ok (fdobj_table s) (pipe_table s);
  fc_shape : Forall task_shape (fd_tasks s);
  fc_counted : counted (fd_tasks s) (fdobj_table s);
  fc_fs : fs_ok (fd_fs s);
}.

Definition fd_inv s : Prop := fd_core s /\ fd_lock_word s = 0.

Lemma wp_fd_lock s (Q : unit -> fdst F -> Prop) :
  fd_lock_word s = 0 -> Q tt (set_fd_lock 1 s) -> wp fd_lock Q s.
Proof. unfold wp, fd_lock. by intros ->. Qed.

Lemma wp_fd_unlock s (Q : unit -> fdst F -> Prop) : Q tt (set_fd_lock 0 s) -> wp fd_unlock Q s.
Proof. done. Qed.

Lemma fd_relock s : fd_lock_word s = 0 -> set_fd_lock 0 (set_fd_lock 1 s) = s.
Proof. intros Hl. destruct s. by simplify_eq/=. Qed.

Lemma core_lock s v : fd_core s -> fd_core (set_fd_lock v s).
Proof. by intros []. Qed.

Lemma wp_obj_get s id (Q : option Z -> fdst F -> Prop) :
  zlen (fdobj_table s) = NM_FDOBJ_MAX ->
  Q (match arr (fdobj_table s) id with
     | Some o => if o_used o then Some id else None
     | None => None
     end) s -> wp (fdobj_get id) Q s.
Proof.
  intros Hl HQ. unfold fdobj_get.
  destruct (Z.ltb_spec id 0), (Z.leb_spec NM_FDOBJ_MAX id); simpl;
    try (apply wp_ret; rewrite arr_none in HQ by lia; done).
  destruct (arr_lookup (fdobj_table s) id) as [o Ho]; [lia|]. rewrite Ho in HQ.
  wp_step. eapply wp_rd; [exact Ho|]. destruct (o_used o); wp_go; done.
Qed.

Lemma wp_end_release s k kd (Q : unit -> fdst F -> Prop) :
  zlen (pipe_table s) = NM_PIPE_MAX ->
  Q tt (set_pipes (upd_pipe (pipe_table s) k (drop_end kd)) s) ->
  wp (pipe_on_endpoint_release kd k) Q s.
Proof.
  intros Hl HQ. unfold pipe_on_endpoint_release, upd_pipe, drop_end in *.
  assert (Hid : set_pipes (pipe_table s) s = s) by (by destruct s).
  destruct (Z.ltb_spec k 0), (Z.leb_spec NM_PIPE_MAX k); simpl;
    try (apply wp_ret; rewrite arr_none, Hid in HQ by lia; done).
  destruct (arr_lookup (pipe_table s) k) as [p Hp]; [lia|]. rewrite Hp in HQ.
  wp_step. eapply wp_rd; [exact Hp|]. destruct (p_used p); simpl.
  - eapply wp_modify_at; [exact Hp|done].
  - apply wp_ret. by rewrite upd_id, Hid in HQ.
Qed.

Lemma wp_end_acquire s k kd (Q : unit -> fdst F -> Prop) :
  zlen (pipe_table s) = NM_PIPE_MAX ->
  Q tt (set_pipes (upd_pipe (pipe_table s) k (keep_end kd)) s) ->
  wp (pipe_on_endpoint_acquire kd k) Q s.
Proof.
  intros Hl HQ. unfold pipe_on_endpoint_acquire, upd_pipe, keep_end in *.
  assert (Hid : set_pipes (pipe_table s) s = s) by (by destruct s).
  destruct (Z.ltb_spec k 0), (Z.leb_spec NM_PIPE_MAX k); simpl;
    try (apply wp_ret; rewrite arr_none, Hid in HQ by lia; done).
  destruct (arr_lookup (pipe_table s) k) as [p Hp]; [lia|]. rewrite Hp in HQ.
  wp_step. eapply wp_rd; [exact Hp|]. destruct (p_used p); simpl.
  - eapply wp_modify_at; [exact Hp|done].
  - apply wp_ret. by rewrite upd_id, Hid in HQ.
Qed.

(** The state after one reference to [o], the object [id], is given up. *)
Definition dropped s (id : Z) (o : nm_fdobj) (f : F) : fdst F :=
  mk_fdst (fd_tasks s) (upd_pipe (pipe_table s) (pipe_id o) (drop_end (kind o)))
    (upd (fdobj_table s) id (drop_obj o)) (fd_lock_word s) f.

Lemma wp_obj_release s id o (Q : Z -> fdst F -> Prop) :
  zlen (fdobj_table s) = NM_FDOBJ_MAX -> zlen (pipe_table s) = NM_PIPE_MAX -> fs_ok (fd_fs s) ->
  arr (fdobj_table s) id = Some o -> o_used o = true -> obj_ok o ->
  (forall f, fs_ok f -> Q 0 (dropped s id o f)) -> wp (fdobj_release id) Q s.
Proof.
  intros Hlo Hlp Hfs Ho Hu Hok HQ. destruct (Hok Hu) as [Hr Hk].
  pose proof (arr_range _ _ _ Ho) as Hrg. unfold dropped, drop_obj in HQ.
  unfold fdobj_release. wp_step. apply wp_obj_get; [done|]. rewrite Ho, Hu.
  wp_step. eapply wp_rd; [exact Ho|]. destruct (Z.eqb_spec (refcnt o) 0); [lia|].
  wp_step. apply wp_end_release; [done|]. wp_step. eapply wp_modify_at; [exact Ho|].
  wp_step. eapply wp_rd; [by apply arr_upd_eq|]. simpl.
  destruct (Z.ltb_spec 1 (refcnt o)), (Z.ltb_spec 0 (refcnt o - 1)); try lia.
  { apply wp_ret. destruct s. by apply HQ. }
  wp_step.
  assert (Hend : forall f, fs_ok f -> wp (mod_obj id (fun o0 => mk_obj false (refcnt o0) NM_FDOBJ_NONE (-1) (-1)) ;;
      mret 0) Q (mk_fdst (fd_tasks s) (upd_pipe (pipe_table s) (pipe_id o) (drop_end (kind o)))
      (upd (fdobj_table s) id (set_refcnt (refcnt o - 1) o)) (fd_lock_word s) f)).
  { intros f Hf. wp_step. eapply wp_modify_at; [by apply arr_upd_eq|]. simpl.
    unfold set_objs. simpl. rewrite upd_upd. apply wp_ret.
    replace (refcnt o - 1) with 0 by lia. by apply HQ. }
  destruct (bool_decide (kind o = NM_FDOBJ_FS) && (0 <=? fs_fd o)).
  - wp_step. apply wp_lift. eapply wp_mono; [by apply fs_close_law|]. intros r f Hf.
    apply wp_ret. by apply (Hend f).
  - apply wp_ret. by apply (Hend (fd_fs s)).
Qed.

Definition retained s (id : Z) (o : nm_fdobj) : fdst F :=
  mk_fdst (fd_tasks s) (upd_pipe (pipe_table s) (pipe_id o) (keep_end (kind o)))
    (upd (fdobj_table s) id (keep_obj o)) (fd_lock_word s) (fd_fs s).

Lemma wp_obj_retain s id o (Q : Z -> fdst F -> Prop) :
  tables_ok (fdobj_table s) (pipe_table s) -> arr (fdobj_table s) id = Some o -> o_used o = true ->
  room (fdobj_table s) o 1 -> Q 0 (retained s id o) -> wp (fdobj_retain id) Q s.
Proof.
  intros Ht Ho Hu [Hroom _] HQ. destruct (obj_at_ok _ _ _ _ Ht Ho Hu) as [Hr Hk].
  unfold fdobj_retain. wp_step. apply wp_obj_get; [apply Ht|]. rewrite Ho, Hu.
  wp_step. eapply wp_modify_at; [exact Ho|]. rewrite u32_small by lia.
  wp_step. eapply wp_rd; [apply arr_upd_eq; by eapply arr_range|].
  wp_step. apply wp_end_acquire; [apply Ht|]. wp_go. exact HQ.
Qed.

Lemma good_fd fd : bad_fd fd = false <-> 0 <= fd < NM_MAX_FDS.
Proof. unfold bad_fd. destruct (Z.ltb_spec fd 0), (Z.leb_spec NM_MAX_FDS fd); simpl; split; done || lia. Qed.

Lemma entry_exists s i t fd :
  fd_core s -> arr (fd_tasks s) i = Some t -> bad_fd fd = false -> exists id, arr (fd_table t) fd = Some id.
Proof.
  intros Hc Ht Hfd%good_fd. apply arr_lookup.
  destruct (Forall_arr task_shape _ i t (fc_shape _ Hc) Ht) as [-> _]. done.
Qed.

Lemma wp_entry s i t fd id (Q : Z -> fdst F -> Prop) :
  arr (fd_tasks s) i = Some t -> arr (fd_table t) fd = Some id -> Q id s -> wp (fd_entry i fd) Q s.
Proof. intros Ht Hfd HQ. unfold fd_entry. wp_step. eapply wp_rd; [exact Ht|]. by rewrite Hfd. Qed.

Lemma wp_set_entry s i t fd old id (Q : unit -> fdst F -> Prop) :
  arr (fd_tasks s) i = Some t -> arr (fd_table t) fd = Some old ->
  Q tt (set_fd_tasks (upd (fd_tasks s) i (set_fd_table (upd (fd_table t) fd id) t)) s) ->
  wp (set_fd_entry i fd id) Q s.
Proof.
  intros Ht Hfd HQ. unfold set_fd_entry. wp_step. eapply wp_rd; [exact Ht|]. rewrite Hfd.
  eapply wp_modify_at; [exact Ht|exact HQ].
Qed.

Lemma shape_upd ts i t t' :
  Forall task_shape ts -> arr ts i = Some t -> zlen (fd_table t') = zlen (fd_table t) ->
  name t' = name t -> Forall task_shape (upd ts i t').
Proof.
  intros Hs Ht Hfd Hn. destruct (Forall_arr task_shape _ i t Hs Ht) as [? ?].
  apply Forall_upd; [done|]. split; [by rewrite Hfd|by rewrite Hn].
Qed.

(** ** Closing a descriptor *)

Definition closed_task (fd : Z) (t : nm_task) : nm_task :=
  clear_cloexec fd (set_fd_table (upd (fd_table t) fd (-1)) t).

(** The state after the descriptor [fd] of task [i], for the object [id], is closed. *)
Definition closed s (i fd id : Z) (t : nm_task) (o : nm_fdobj) (f : F) : fdst F :=
  set_fd_tasks (upd (fd_tasks s) i (closed_task fd t)) (dropped s id o f).

Lemma closed_core s i fd id t o f :
  fd_core s -> arr (fd_tasks s) i = Some t -> live t = true -> arr (fd_table t) fd = Some id ->
  id <> -1 -> arr (fdobj_table s) id = Some o -> o_used o = true -> fs_ok f ->
  fd_core (closed s i fd id t o f).
Proof.
  intros [Htb Hsh Hct Hfs] Ht Hl Hfd Hne Ho Hu Hf. constructor; simpl; [| | |done].
  - by apply drop_tables.
  - eapply shape_upd; [done|done|simpl; by rewrite zlen_upd|done].
  - intros j Hj. rewrite (refs_entry _ _ t _ fd id (-1)) by done.
    rewrite drop_refcnt by (done || by eapply obj_at_ok). specialize (Hct j Hj).
    destruct (Z.eqb_spec (-1) j); [lia|]. simpl. lia.
Qed.

Lemma wp_close_fd s i t fd (Q : Z -> fdst F -> Prop) :
  fd_core s -> arr (fd_tasks s) i = Some t -> live t = true ->
  (bad_fd fd = true -> Q (NM_ERR NM_EINVAL) s) ->
  (arr (fd_table t) fd = Some (-1) -> Q (NM_ERR NM_ENOENT) s) ->
  (forall id o f, arr (fd_table t) fd = Some id -> id <> -1 -> bad_fd fd = false ->
     arr (fdobj_table s) id = Some o -> o_used o = true ->
     fd_core (closed s i fd id t o f) -> Q 0 (closed s i fd id t o f)) ->
  wp (task_close_fd (Some i) fd) Q s.
Proof.
  intros Hc Ht Hl Hbad Hnone Hok. unfold task_close_fd. destruct (bad_fd fd) eqn:Eb; [wp_go; auto|].
  destruct (entry_exists s i t fd Hc Ht Eb) as [id Hfd].
  wp_step. eapply wp_entry; [done|done|]. destruct (Z.eqb_spec id (-1)) as [->|Hne]; [wp_go; auto|].
  destruct (counted_used _ _ _ _ _ _ (fc_counted _ Hc) Ht Hl Hfd Hne) as (o & Ho & Hu & _).
  wp_step. eapply wp_obj_release; [apply Hc|apply Hc|apply Hc|done|done| |].
  { eapply obj_at_ok; [apply Hc|done]. }
  intros f Hf. simpl.
  wp_step. eapply wp_set_entry; [exact Ht|done|].
  wp_step. eapply wp_modify_at; [apply arr_upd_eq; by eapply arr_range|].
  wp_go. unfold set_fd_tasks, dropped. simpl. rewrite upd_upd.
  apply (Hok id o f); try done. by apply closed_core.
Qed.

(** The entry is an object in use, so there is nothing to adopt. *)
Lemma wp_adopt s i t fd id (Q : bool -> fdst F -> Prop) :
  fd_core s -> arr (fd_tasks s) i = Some t -> live t = true -> arr (fd_table t) fd = Some id ->
  id <> -1 -> Q true s -> wp (adopt_if_legacy (Some i) fd id) Q s.
Proof.
  intros Hc Ht Hl Hfd Hne HQ. unfold adopt_if_legacy.
  destruct (counted_used _ _ _ _ _ _ (fc_counted _ Hc) Ht Hl Hfd Hne) as (o & Ho & Hu & _).
  destruct (bad_obj id); [done|]. wp_step. apply wp_obj_get; [apply Hc|]. by rewrite Ho, Hu.
Qed.

Definition close_result s (i fd : Z) (r : Z) s' : Prop :=
  fd_inv s' /\ exists t, arr (fd_tasks s) i = Some t /\
  match arr (fd_table t) fd with
  | None => r = NM_ERR NM_EINVAL /\ s' = s
  | Some id =>
      if id =? -1 then r = NM_ERR NM_ENOENT /\ s' = s else
      r = 0 /\ exists o f, arr (fdobj_table s) id = Some o /\ s' = closed s i fd id t o f
  end.

Lemma wp_fd_close s i t fd (Q : Z -> fdst F -> Prop) :
  fd_inv s -> arr (fd_tasks s) i = Some t -> live t = true ->
  (forall r s', close_result s i fd r s' -> Q r s') -> wp (nm_fd_close (Some i) fd) Q s.
Proof.
  intros [Hc Hlk] Ht Hl HQ. pose proof (core_lock s 1 Hc) as Hc1.
  unfold nm_fd_close. wp_step. apply wp_fd_lock; [done|].
  assert (Hsame : forall r, (bad_fd fd = true /\ r = NM_ERR NM_EINVAL) \/
    (arr (fd_table t) fd = Some (-1) /\ r = NM_ERR NM_ENOENT) -> Q r s).
  { intros r Hr. apply HQ. split; [done|]. exists t. split; [done|].
    destruct Hr as [[Hb ->]|[-> ->]]; [|done]. rewrite arr_none; [done|].
    destruct (Forall_arr task_shape _ i t (fc_shape _ Hc) Ht) as [-> _].
    intros Hr%good_fd. congruence. }
  rewrite bool_decide_eq_false_2 by done. cbn [orb]. destruct (bad_fd fd) eqn:Eb.
  { wp_step. apply wp_fd_unlock. rewrite fd_relock by done. wp_go. auto. }
  destruct (entry_exists s i t fd Hc Ht Eb) as [id Hfd].
  wp_step. unfold task_fdobj_id. rewrite Eb. eapply wp_entry; [exact Ht|done|].
  destruct (Z.eqb_spec id (-1)) as [->|Hne].
  { wp_step. apply wp_fd_unlock. rewrite fd_relock by done. wp_go. auto. }
  wp_step. eapply wp_adopt; [done|exact Ht|done|done|done|]. simpl. wp_step.
  eapply wp_close_fd; [done|exact Ht|done|congruence|congruence|].
  intros id' o f Hfd' _ _ Ho Hu Hcc. assert (id' = id) as -> by congruence.
  wp_step. apply wp_fd_unlock. wp_go. apply HQ. split; [split; [apply (core_lock _ 0 Hcc)|done]|].
  exists t. split; [done|]. rewrite Hfd. destruct (Z.eqb_spec id (-1)); [done|].
  split; [done|]. exists o, f. split; [done|]. destruct s. by simplify_eq/=.
Qed.

(** ** Sharing an object: dup2 and fork *)

(** No count is within [n] of the width of its field. *)
Definition all_room (objs : list nm_fdobj) (n : Z) : Prop :=
  forall id o, arr objs id = Some o -> o_used o = true -> room objs o n.

Lemma room_retained objs id o n :
  all_room objs (n + 1) -> arr objs id = Some o -> o_used o = true -> 0 <= n ->
  all_room (upd objs id (keep_obj o)) n.
Proof.
  intros Hr Ho Hu Hn j o' Hj Hu'.
  assert (Hload : forall k kd, load (upd objs id (keep_obj o)) k kd <= load objs k kd + 1).
  { intros k kd. rewrite (load_upd _ _ _ _ o), keep_weight by done. destruct (_ && _); simpl; lia. }
  assert (Ho2 : exists o2, arr objs j = Some o2 /\ o_used o2 = true /\ pipe_id o2 = pipe_id o' /\
    refcnt o' <= refcnt o2 + 1).
  { rewrite arr_upd in Hj by (by eapply arr_range). destruct (Z.eqb_spec id j) as [<-|].
    - injection Hj as <-. exists o. simpl. split_and!; done || lia.
    - exists o'. split_and!; done || lia. }
  destruct Ho2 as (o2 & Hj2 & Hu2 & Hp & Hrc). destruct (Hr j o2 Hj2 Hu2) as [Hr1 Hr2].
  split; [lia|]. intros kd. specialize (Hload (pipe_id o') kd). specialize (Hr2 kd).
  rewrite Hp in Hr2. lia.
Qed.

Lemma room_dropped objs id o n :
  all_room objs n -> arr objs id = Some o -> o_used o = true -> obj_ok o ->
  all_room (upd objs id (drop_obj o)) n.
Proof.
  intros Hr Ho Hu Hok j o' Hj Hu'. destruct (Hok Hu) as [Hpos _].
  assert (Hload : forall k kd, load (upd objs id (drop_obj o)) k kd <= load objs k kd).
  { intros k kd. rewrite (load_upd _ _ _ _ o), drop_weight by done. destruct (_ && _); simpl; lia. }
  assert (Ho2 : exists o2, arr objs j = Some o2 /\ o_used o2 = true /\ pipe_id o2 = pipe_id o' /\
    refcnt o' <= refcnt o2).
  { rewrite arr_upd in Hj by (by eapply arr_range). destruct (Z.eqb_spec id j) as [<-|].
    - injection Hj as <-. exists o. unfold drop_obj in *.
      destruct (Z.ltb_spec 1 (refcnt o)); [|done]. simpl. split_and!; done || lia.
    - exists o'. split_and!; done || lia. }
  destruct Ho2 as (o2 & Hj2 & Hu2 & Hp & Hrc). destruct (Hr j o2 Hj2 Hu2) as [Hr1 Hr2].
  split; [lia|]. intros kd. specialize (Hload (pipe_id o') kd). specialize (Hr2 kd).
  rewrite Hp in Hr2. lia.
Qed.

(** A free entry of task [i] becomes one more reference to the object [id]. *)
Lemma share_core s i t t' fd id o :
  fd_core s -> arr (fd_tasks s) i = Some t -> live t = true -> arr (fd_table t) fd = Some (-1) ->
  arr (fdobj_table s) id = Some o -> o_used o = true -> room (fdobj_table s) o 1 ->
  live t' = true -> fd_table t' = upd (fd_table t) fd id -> name t' = name t ->
  fd_core (set_fd_tasks (upd (fd_tasks s) i t') (retained s id o)).
Proof.
  intros [Htb Hsh Hct Hfs] Ht Hl Hfd Ho Hu Hr Hl' Hfd' Hn. constructor; simpl; [| | |done].
  - by apply keep_tables.
  - eapply shape_upd; [done|done|by rewrite Hfd', zlen_upd|done].
  - intros j Hj. rewrite (refs_entry _ _ t _ fd (-1) id) by done.
    rewrite keep_refcnt by done. specialize (Hct j Hj).
    destruct (Z.eqb_spec (-1) j); [lia|]. simpl. lia.
Qed.

Lemma mask_clear_bit m fd : 0 <= fd < 32 -> 0 <= m -> Z.testbit (mask_clear m fd) fd = false.
Proof.
  intros Hfd Hm. unfold mask_clear.
  rewrite Z.land_spec, u32_testbit, Z.lnot_spec, testbit_one_shift, Z.eqb_refl by lia.
  apply andb_false_r.
Qed.

Lemma mask_clear_other m fd j :
  0 <= fd < 32 -> 0 <= j < 32 -> j <> fd -> Z.testbit (mask_clear m fd) j = Z.testbit m j.
Proof.
  intros Hfd Hj Hne. unfold mask_clear.
  rewrite Z.land_spec, u32_testbit, Z.lnot_spec, testbit_one_shift by lia.
  destruct (Z.eqb_spec fd j); [lia|]. apply andb_true_r.
Qed.

(** What [dup2] leaves: [newfd] names the object [id] of [oldfd], its count is one
    higher, that of the object [old] it named before one lower. *)
Record duped s s' (i oldfd newfd : Z) : Prop := mk_duped {
  du_entry : exists t t' id old, arr (fd_tasks s) i = Some t /\
    arr (fd_table t) oldfd = Some id /\ arr (fd_table t) newfd = Some old /\
    fd_tasks s' = upd (fd_tasks s) i t' /\ fd_table t' = upd (fd_table t) newfd id /\
    fd_cloexec_mask t' = (if old =? -1 then mask_clear (fd_cloexec_mask t) newfd
      else mask_clear (mask_clear (fd_cloexec_mask t) newfd) newfd) /\
    forall j, j <> -1 -> refcnt_of (fdobj_table s') j =
      refcnt_of (fdobj_table s) j + Z.b2z (id =? j) - Z.b2z (old =? j);
}.

Definition dup2_result s (i oldfd newfd : Z) (r : Z) s' : Prop :=
  fd_inv s' /\
  if bad_fd oldfd || bad_fd newfd then r = NM_ERR NM_EINVAL /\ s' = s else
  exists t id, arr (fd_tasks s) i = Some t /\ arr (fd_table t) oldfd = Some id /\
    if id =? -1 then r = NM_ERR NM_ENOENT /\ s' = s else
    if oldfd =? newfd then r = newfd /\ s' = s else r = newfd /\ duped s s' i oldfd newfd.

(** The second half of [dup2]: [newfd] is free in [s1]. *)
Lemma wp_dup_tail s1 i t1 oldfd newfd id (Q : Z -> fdst F -> Prop) :
  fd_core s1 -> arr (fd_tasks s1) i = Some t1 -> live t1 = true ->
  arr (fd_table t1) oldfd = Some id -> id <> -1 -> arr (fd_table t1) newfd = Some (-1) ->
  bad_fd newfd = false -> all_room (fdobj_table s1) 1 ->
  (forall o t', arr (fdobj_table s1) id = Some o -> o_used o = true ->
     t' = clear_cloexec newfd (set_fd_table (upd (fd_table t1) newfd id) t1) ->
     fd_core (set_fd_tasks (upd (fd_tasks s1) i t') (retained s1 id o)) ->
     Q newfd (set_fd_lock 0 (set_fd_tasks (upd (fd_tasks s1) i t') (retained s1 id o)))) ->
  wp (r ← fdobj_retain id;
      if negb (r =? 0) then fd_unlock ;; mret (NM_ERR NM_EFAIL) else
      task_install_fdobj (Some i) newfd id ;;
      mod_task_at i (clear_cloexec newfd) ;;
      fd_unlock ;;
      mret newfd) Q s1.
Proof.
  intros Hc Ht Hl Hold Hne Hnew Hb Hroom HQ.
  destruct (counted_used _ _ _ _ _ _ (fc_counted _ Hc) Ht Hl Hold Hne) as (o & Ho & Hu & _).
  wp_step. eapply wp_obj_retain; [apply Hc|done|done|by apply (Hroom id)|]. simpl.
  wp_step. unfold task_install_fdobj. rewrite Hb. wp_step.
  eapply wp_set_entry; [exact Ht|done|]. wp_step. wp_step.
  eapply wp_modify_at; [apply arr_upd_eq; by eapply arr_range|]. wp_step. apply wp_fd_unlock. wp_go.
  unfold set_fd_tasks, retained. simpl. rewrite upd_upd. eapply (HQ o); [done|done|done|].
  eapply share_core; try done. by apply (Hroom id).
Qed.

Lemma wp_dup2 s i t oldfd newfd (Q : Z -> fdst F -> Prop) :
  fd_inv s -> arr (fd_tasks s) i = Some t -> live t = true -> all_room (fdobj_table s) 1 ->
  (forall r s', dup2_result s i oldfd newfd r s' -> Q r s') -> wp (nm_fd_dup2 (Some i) oldfd newfd) Q s.
Proof.
  intros [Hc Hlk] Ht Hl Hroom HQ. pose proof (core_lock s 1 Hc) as Hc1.
  unfold nm_fd_dup2, dup2_result in *. wp_step. apply wp_fd_lock; [done|].
  destruct (bad_fd oldfd || bad_fd newfd) eqn:Eb.
  { wp_step. apply wp_fd_unlock. rewrite fd_relock by done. wp_go. by apply HQ. }
  apply orb_false_iff in Eb as [Eo En].
  destruct (entry_exists s i t oldfd Hc Ht Eo) as [id Hold].
  destruct (entry_exists s i t newfd Hc Ht En) as [old Hnew].
  wp_step. unfold task_fdobj_id. rewrite Eo, En. eapply wp_entry; [exact Ht|done|].
  destruct (Z.eqb_spec id (-1)) as [->|Hne].
  { wp_step. apply wp_fd_unlock. rewrite fd_relock by done. wp_go. apply HQ. split; [done|]. by exists t, (-1). }
  destruct (Z.eqb_spec oldfd newfd) as [->|Hdiff].
  { wp_step. apply wp_fd_unlock. rewrite fd_relock by done. wp_go. apply HQ. split; [done|].
    exists t, id. split_and!; [done|done|]. by destruct (Z.eqb_spec id (-1)). }
  assert (Hfin : forall s', fd_core s' -> fd_lock_word s' = 0 -> duped s s' i oldfd newfd -> Q newfd s').
  { intros s' Hcs Hl0 Hd. apply HQ. split; [done|]. exists t, id. split_and!; [done|done|].
    by destruct (Z.eqb_spec id (-1)). }
  wp_step. eapply wp_entry; [exact Ht|done|]. destruct (Z.eqb_spec old (-1)) as [->|Hno].
  - cbn [negb]. wp_step. apply wp_ret. change (negb (0 =? 0)) with false. cbv iota.
    eapply (wp_dup_tail (set_fd_lock 1 s) i t oldfd newfd id); try done.
    intros o t' Ho Hu -> Hcs. apply Hfin; [apply (core_lock _ 0 Hcs)|done|]. constructor.
    exists t. eexists. exists id, (-1). split_and!; try done.
    intros j Hj. simpl in Ho. change (fdobj_table (set_fd_lock 0 _)) with (upd (fdobj_table s) id (keep_obj o)).
    rewrite (keep_refcnt _ _ _ _ Ho Hu). destruct (Z.eqb_spec (-1) j); [lia|].
    change (Z.b2z false) with 0. lia.
  - cbn [negb]. wp_step. eapply wp_close_fd; [done|exact Ht|done|congruence|congruence|].
    intros old' o' f Hnew' _ _ Ho' Hu' Hcl. assert (old' = old) as -> by congruence.
    change (negb (0 =? 0)) with false. cbv iota.
    pose proof (arr_range _ _ _ Ht) as Hr. pose proof (arr_range _ _ _ Hnew) as Hrn.
    assert (Hok' : obj_ok o') by (eapply obj_at_ok; [apply Hc|done]).
    eapply (wp_dup_tail (closed (set_fd_lock 1 s) i newfd old t o' f) i (closed_task newfd t)
      oldfd newfd id); try done.
    + by apply arr_upd_eq.
    + simpl. by rewrite arr_upd_ne by done.
    + simpl. by apply arr_upd_eq.
    + by apply room_dropped.
    + intros o t' Ho Hu -> Hcs. apply Hfin; [apply (core_lock _ 0 Hcs)|done|]. constructor.
      exists t. eexists. exists id, old. simpl. rewrite upd_upd. split_and!; try done.
      * simpl. by rewrite upd_upd.
      * simpl. destruct (Z.eqb_spec old (-1)); done.
      * intros j Hj. simpl in Ho, Ho'. rewrite (keep_refcnt _ _ _ _ Ho Hu), (drop_refcnt _ _ _ _ Ho' Hu' Hok'). lia.
Qed.

(** ** Fork *)

(** The child with its first [k] descriptors only. *)
Definition part (k : Z) (t : nm_task) : nm_task :=
  set_fd_table (take (Z.to_nat k) (fd_table t) ++
    replicate (Z.to_nat (NM_MAX_FDS - k)) (-1)) t.

Lemma part_table k t fd :
  zlen (fd_table t) = NM_MAX_FDS -> 0 <= k <= NM_MAX_FDS -> 0 <= fd < NM_MAX_FDS ->
  arr (fd_table (part k t)) fd = if fd <? k then arr (fd_table t) fd else Some (-1).
Proof.
  intros Hl Hk Hfd. unfold part, arr, zlen, NM_MAX_FDS in *. simpl.
  destruct (Z.leb_spec 0 fd); [|lia]. destruct (Z.ltb_spec fd k).
  - rewrite lookup_app_l by (rewrite length_take; lia). apply lookup_take_lt. lia.
  - rewrite lookup_app_r by (rewrite length_take; lia). rewrite length_take.
    apply lookup_replicate_2. lia.
Qed.

Lemma part_len k t :
  zlen (fd_table t) = NM_MAX_FDS -> 0 <= k <= NM_MAX_FDS -> zlen (fd_table (part k t)) = NM_MAX_FDS.
Proof.
  intros Hl Hk. unfold part, zlen, NM_MAX_FDS in *. simpl.
  rewrite length_app, length_take, length_replicate. lia.
Qed.

Lemma part_step k t id :
  zlen (fd_table t) = NM_MAX_FDS -> 0 <= k < NM_MAX_FDS -> arr (fd_table t) k = Some id ->
  fd_table (part (k + 1) t) = upd (fd_table (part k t)) k id.
Proof.
  intros Hl Hk Hid. apply arr_ext.
  - rewrite zlen_upd, !part_len by lia. done.
  - intros fd. destruct (decide (0 <= fd < NM_MAX_FDS)) as [Hfd|Hfd].
    + rewrite arr_upd by (rewrite part_len; lia). rewrite !part_table by lia.
      destruct (Z.eqb_spec k fd) as [<-|]; [destruct (Z.ltb_spec k (k + 1)); [done|lia]|].
      destruct (Z.ltb_spec fd k), (Z.ltb_spec fd (k + 1)); done || lia.
    + rewrite !arr_none; rewrite ?zlen_upd, ?part_len; try done; lia.
Qed.

Lemma part_all t : zlen (fd_table t) = NM_MAX_FDS -> part NM_MAX_FDS t = t.
Proof.
  intros Hl. unfold part. rewrite firstn_all2 by (unfold zlen, NM_MAX_FDS in *; lia).
  simpl. rewrite app_nil_r. by destruct t.
Qed.

(** The child in slot [i] copies the table of the live task in slot [j], and
    everything but its copies is counted. *)
Record fork_pre s (i : Z) (child : nm_task) : Prop := mk_fork_pre {
  fp_child : arr (fd_tasks s) i = Some child /\ live child = true;
  fp_parent : exists j parent, j <> i /\ arr (fd_tasks s) j = Some parent /\ live parent = true /\
    fd_table child = fd_table parent;
  fp_core : fd_core (set_fd_tasks (upd (fd_tasks s) i (part 0 child)) s);
  fp_lock : fd_lock_word s = 0;
  fp_room : all_room (fdobj_table s) NM_MAX_FDS;
}.

Lemma fork_step ts i child j parent sk k id :
  arr ts i = Some child -> live child = true -> zlen (fd_table child) = NM_MAX_FDS ->
  j <> i -> arr ts j = Some parent -> live parent = true -> fd_table child = fd_table parent ->
  0 <= k < NM_MAX_FDS -> arr (fd_table child) k = Some id -> id <> -1 ->
  fd_tasks sk = ts -> all_room (fdobj_table sk) (NM_MAX_FDS - k) ->
  fd_core (set_fd_tasks (upd ts i (part k child)) sk) ->
  exists o, arr (fdobj_table sk) id = Some o /\ o_used o = true /\ room (fdobj_table sk) o 1 /\
    fd_core (set_fd_tasks (upd ts i (part (k + 1) child)) (retained sk id o)) /\
    all_room (fdobj_table (retained sk id o)) (NM_MAX_FDS - (k + 1)).
Proof.
  intros Hi Hl Hlen Hji Hj Hlp Hcp Hk Hid Hne Hts Hroom Hc. pose proof (arr_range _ _ _ Hi) as Hr.
  destruct (counted_used _ _ j parent k id (fc_counted _ Hc)) as (o & Ho & Hu & _);
    [simpl; by rewrite arr_upd_ne|done|by rewrite <- Hcp|done|]. simpl in Ho.
  assert (Hr1 : room (fdobj_table sk) o 1).
  { destruct (Hroom id o Ho Hu) as [? Hrl]. split; [lia|]. intros kd. specialize (Hrl kd). lia. }
  exists o. split_and!; [done|done|done| |].
  - eapply (share_core _ i (part k child) (part (k + 1) child) k id o) in Hc; try done.
    + unfold set_fd_tasks, retained in *. simpl in *. by rewrite upd_upd in Hc.
    + by apply arr_upd_eq.
    + rewrite part_table by lia. destruct (Z.ltb_spec k k); [lia|done].
    + by apply part_step.
  - apply room_retained; [|done|done|lia].
    by replace (NM_MAX_FDS - (k + 1) + 1) with (NM_MAX_FDS - k) by lia.
Qed.

Lemma wp_fork_child s i child (Q : Z -> fdst F -> Prop) :
  fork_pre s i child ->
  (forall s', fd_inv s' -> fd_tasks s' = fd_tasks s -> Q 0 s') ->
  wp (nm_fd_on_fork_child (Some i)) Q s.
Proof.
  intros [[Hi Hl] (j & parent & Hji & Hj & Hlp & Hcp) Hc Hlk Hroom] HQ.
  pose proof (arr_range _ _ _ Hi) as Hr.
  assert (Hlen : zlen (fd_table child) = NM_MAX_FDS).
  { rewrite Hcp. apply (Forall_arr task_shape _ j _ (fc_shape _ Hc)). simpl. by rewrite arr_upd_ne. }
  unfold nm_fd_on_fork_child. wp_step. apply wp_fd_lock; [done|]. wp_step.
  apply (wp_for_all (fun k sk => fd_tasks sk = fd_tasks s /\
    fd_core (set_fd_tasks (upd (fd_tasks s) i (part k child)) sk) /\
    all_room (fdobj_table sk) (NM_MAX_FDS - k))).
  - done.
  - split_and!; [done|by apply (core_lock _ 1) in Hc|done].
  - intros k sk Hk (Hts & Hck & Hrk).
    destruct (arr_lookup (fd_table child) k) as [id Hid]; [lia|].
    wp_step. eapply wp_entry; [by rewrite Hts|done|]. destruct (Z.eqb_spec id (-1)) as [->|Hne].
    + apply wp_ret. split_and!; [done| |].
      * replace (part (k + 1) child) with (part k child); [done|]. unfold part. f_equal.
        change (fd_table (part k child) = fd_table (part (k + 1) child)).
        rewrite (part_step k child (-1)) by done. rewrite upd_id; [done|].
        rewrite part_table by lia. destruct (Z.ltb_spec k k); [lia|done].
      * intros id o Ho Hu. destruct (Hrk id o Ho Hu) as [? Hrl]. split; [lia|].
        intros kd. specialize (Hrl kd). lia.
    + destruct (fork_step (fd_tasks s) i child j parent sk k id) as (o & Ho & Hu & Hr1 & Hc' & Hrm); try done.
      wp_step. eapply wp_obj_retain; [apply Hck|exact Ho|done|done|]. simpl. apply wp_ret. done.
  - intros sk (Hts & Hck & _). rewrite part_all, (upd_id _ _ _ Hi) in Hck by done.
    wp_step. apply wp_fd_unlock. wp_go. apply HQ; [|done]. split; [|done]. apply core_lock.
    rewrite <- Hts in Hck. by destruct sk.
Qed.

(** ** Close on exec *)

Lemma mask_test m fd : 0 <= fd -> (Z.land m (Z.shiftl 1 fd) =? 0) = negb (Z.testbit m fd).
Proof.
  intros Hfd. destruct (Z.testbit m fd) eqn:E; simpl.
  - apply Z.eqb_neq. intros Hz. assert (Hb : Z.testbit (Z.land m (Z.shiftl 1 fd)) fd = true).
    { by rewrite Z.land_spec, testbit_one_shift, Z.eqb_refl, E by done. }
    rewrite Hz, Z.bits_0 in Hb. done.
  - apply Z.eqb_eq, Z.bits_inj'. intros i Hi.
    rewrite Z.land_spec, testbit_one_shift, Z.bits_0 by done.
    destruct (Z.eqb_spec fd i) as [<-|]; [by rewrite E|apply andb_false_r].
Qed.

(** The task after its descriptors below [k] marked close-on-exec are closed. *)
Record exec_closed (k : Z) (t t' : nm_task) : Prop := mk_exec_closed {
  ec_live : live t' = live t;
  ec_entry : forall fd, 0 <= fd < NM_MAX_FDS -> arr (fd_table t') fd =
    if (fd <? k) && Z.testbit (fd_cloexec_mask t) fd then Some (-1) else arr (fd_table t) fd;
  ec_mask : forall fd, 0 <= fd < NM_MAX_FDS ->
    Z.testbit (fd_cloexec_mask t') fd = (k <=? fd) && Z.testbit (fd_cloexec_mask t) fd;
  ec_width : 0 <= fd_cloexec_mask t';
}.

Lemma exec_skip k t t' :
  exec_closed k t t' -> Z.testbit (fd_cloexec_mask t) k = false -> 0 <= k -> exec_closed (k + 1) t t'.
Proof.
  intros [Hl He Hm Hw] Hb Hk. constructor; [done| | |done].
  - intros fd Hfd. rewrite He by done. destruct (decide (fd = k)) as [->|].
    + rewrite Hb. by rewrite !andb_false_r.
    + destruct (Z.ltb_spec fd k), (Z.ltb_spec fd (k + 1)); done || lia.
  - intros fd Hfd. rewrite Hm by done. destruct (decide (fd = k)) as [->|].
    + rewrite Hb. by rewrite !andb_false_r.
    + destruct (Z.leb_spec k fd), (Z.leb_spec (k + 1) fd); done || lia.
Qed.

Lemma exec_close k t t' t2 :
  exec_closed k t t' -> Z.testbit (fd_cloexec_mask t) k = true -> 0 <= k < NM_MAX_FDS ->
  zlen (fd_table t') = NM_MAX_FDS ->
  live t2 = live t' -> fd_cloexec_mask t2 = mask_clear (fd_cloexec_mask t') k ->
  fd_table t2 = upd (fd_table t') k (-1) -> exec_closed (k + 1) t t2.
Proof.
  intros [Hl He Hm Hw] Hb Hk Hlen Hl2 Hm2 Hf2. constructor.
  - congruence.
  - intros fd Hfd. rewrite Hf2, arr_upd, He by lia. destruct (Z.eqb_spec k fd) as [<-|].
    + destruct (Z.ltb_spec k (k + 1)); [|lia]. by rewrite Hb.
    + destruct (Z.ltb_spec fd k), (Z.ltb_spec fd (k + 1)); done || lia.
  - intros fd Hfd. rewrite Hm2. unfold NM_MAX_FDS in *. destruct (decide (fd = k)) as [->|].
    + rewrite mask_clear_bit by done. destruct (Z.leb_spec (k + 1) k); [lia|done].
    + rewrite mask_clear_other, Hm by lia.
      destruct (Z.leb_spec k fd), (Z.leb_spec (k + 1) fd); done || lia.
  - rewrite Hm2. unfold mask_clear. apply Z.land_nonneg. by left.
Qed.

Definition exec_result s (i : Z) s' : Prop :=
  fd_inv s' /\ exists t t', arr (fd_tasks s) i = Some t /\ fd_tasks s' = upd (fd_tasks s) i t' /\
    exec_closed NM_MAX_FDS t t'.

Lemma wp_close_on_exec s i t (Q : unit -> fdst F -> Prop) :
  fd_inv s -> arr (fd_tasks s) i = Some t -> live t = true -> 0 <= fd_cloexec_mask t ->
  (forall s', exec_result s i s' -> Q tt s') -> wp (nm_fd_close_on_exec (Some i)) Q s.
Proof.
  intros [Hc Hlk] Ht Hl Hm HQ. pose proof (arr_range _ _ _ Ht) as Hr.
  unfold nm_fd_close_on_exec. wp_step. apply wp_fd_lock; [done|]. wp_step.
  apply (wp_for_all (fun k sk => fd_core sk /\ exists t', fd_tasks sk = upd (fd_tasks s) i t' /\
    exec_closed k t t')).
  - done.
  - split; [by apply core_lock|]. exists t. split; [by rewrite (upd_id _ _ _ Ht)|].
    constructor; try done; intros fd Hfd.
    + destruct (Z.ltb_spec fd 0); [lia|done].
    + destruct (Z.leb_spec 0 fd); [done|lia].
  - intros k sk Hk (Hck & t' & Hts & Hec).
    assert (Ht' : arr (fd_tasks sk) i = Some t') by (rewrite Hts; by apply arr_upd_eq).
    assert (Hlt' : live t' = true) by (rewrite (ec_live _ _ _ Hec); done).
    destruct (Forall_arr task_shape _ i t' (fc_shape _ Hck) Ht') as [Hlen _].
    assert (Hb : bad_fd k = false) by (by apply good_fd).
    wp_step. eapply wp_rd; [exact Ht'|]. rewrite mask_test, (ec_mask _ _ _ Hec) by lia.
    destruct (Z.leb_spec k k); [|lia]. simpl andb.
    destruct (Z.testbit (fd_cloexec_mask t) k) eqn:Eb; cbn [negb];
      [|apply wp_ret; split; [done|]; exists t'; split; [done|by apply exec_skip; [..|lia]]].
    destruct (entry_exists sk i t' k Hck Ht' Hb) as [id Hid].
    wp_step. unfold task_fdobj_id. rewrite Hb. eapply wp_entry; [exact Ht'|done|].
    destruct (Z.eqb_spec id (-1)) as [->|Hne].
    + eapply wp_modify_at; [exact Ht'|].
      assert (Hsame : forall j, refs (upd (fd_tasks sk) i (clear_cloexec k t')) j = refs (fd_tasks sk) j)
        by (intros j; by apply (refs_same _ i t')).
      split; [|exists (clear_cloexec k t'); split; [simpl; by rewrite Hts, upd_upd|]].
      * destruct Hck as [Htb Hsh Hct Hfs]. constructor; try done; simpl.
        -- by eapply shape_upd.
        -- intros j Hj. rewrite Hsame. by apply Hct.
      * eapply exec_close; try done. simpl. by rewrite upd_id.
    + wp_step. eapply wp_adopt; [done|exact Ht'|done|done|done|]. cbn [negb].
      wp_step. eapply wp_close_fd; [done|exact Ht'|done|congruence|congruence|].
      intros id' o f Hid' _ _ Ho Hu Hcl. apply wp_ret. split; [done|].
      exists (closed_task k t'). split; [simpl; by rewrite Hts, upd_upd|]. by eapply exec_close.
  - intros sk (Hck & t' & Hts & Hec). apply wp_fd_unlock. apply HQ.
    split; [split; [by apply core_lock|done]|]. by exists t, t'.
Qed.

(** ** Creating a pipe *)

(** The objects and pipes in use, which is all the operations look at. *)
Definition obj_view s (j : Z) : option nm_fdobj :=
  o ← arr (fdobj_table s) j; if o_used o then Some o else None.
Definition pipe_view s (k : Z) : option nm_pipe :=
  p ← arr (pipe_table s) k; if p_used p then Some p else None.
Definition same_view s s' : Prop :=
  fd_tasks s' = fd_tasks s /\ (forall j, obj_view s' j = obj_view s j) /\
  (forall k, pipe_view s' k = pipe_view s k).

#[export] Instance same_view_equiv : Equivalence same_view.
Proof.
  split; [done|..].
  - intros s t (? & Ho & Hp). split_and!; [done|intros; by rewrite Ho|intros; by rewrite Hp].
  - intros s t u (E1 & Ho & Hp) (E2 & Ho2 & Hp2).
    split_and!; [congruence|intros; by rewrite Ho2|intros; by rewrite Hp2].
Qed.

Definition new_end (kd : nm_fdobj_kind) (k : Z) : nm_fdobj := mk_obj true 1 kd (-1) k.

Lemma wp_alloc_fdobj s (Q : Z -> fdst F -> Prop) :
  zlen (fdobj_table s) = NM_FDOBJ_MAX ->
  ((forall o, o ∈ fdobj_table s -> o_used o = true) -> Q (NM_ERR NM_ENOMEM) s) ->
  (forall id o, arr (fdobj_table s) id = Some o -> o_used o = false ->
     Q id (set_objs (upd (fdobj_table s) id (mk_obj true 0 NM_FDOBJ_NONE (-1) (-1))) s)) ->
  wp alloc_fdobj Q s.
Proof.
  intros Hl Hno Hyes. unfold alloc_fdobj. wp_step. wp_step.
  rewrite firstn_all2 by (unfold zlen, NM_FDOBJ_MAX in *; lia).
  destruct (find_idx _ (fdobj_table s)) as [id|] eqn:E.
  - apply find_idx_Some in E as (o & Ho & Hu & _). apply negb_true_iff in Hu.
    wp_step. eapply wp_modify_at; [exact Ho|]. wp_go. by eapply Hyes.
  - wp_go. apply Hno. rewrite find_idx_None in E. intros o Hin. by apply negb_false_iff, E.
Qed.

Lemma wp_new_end s kd k (Q : Z -> fdst F -> Prop) :
  zlen (fdobj_table s) = NM_FDOBJ_MAX ->
  ((forall o, o ∈ fdobj_table s -> o_used o = true) -> Q (NM_ERR NM_ENOMEM) s) ->
  (forall id o, arr (fdobj_table s) id = Some o -> o_used o = false -> 0 <= id ->
     Q id (set_objs (upd (fdobj_table s) id (new_end kd k)) s)) ->
  wp (create_pipe_endpoint_obj kd k) Q s.
Proof.
  intros Hl Hno Hyes. unfold create_pipe_endpoint_obj. wp_step.
  apply wp_alloc_fdobj; [done|intros; wp_go; auto|].
  intros id o Ho Hu. pose proof (arr_range _ _ _ Ho) as Hr. destruct (Z.ltb_spec id 0); [lia|].
  wp_step. eapply wp_modify_at; [by apply arr_upd_eq|]. wp_go. simpl. unfold set_objs. simpl.
  rewrite upd_upd. by eapply Hyes; [| |lia].
Qed.

Lemma wp_alloc_task_fd s i t (Q : Z -> fdst F -> Prop) :
  arr (fd_tasks s) i = Some t -> zlen (fd_table t) = NM_MAX_FDS ->
  ((forall id, id ∈ fd_table t -> id <> -1) -> Q (NM_ERR NM_ENOMEM) s) ->
  (forall fd, arr (fd_table t) fd = Some (-1) -> Q fd s) -> wp (alloc_task_fd (Some i)) Q s.
Proof.
  intros Ht Hl Hno Hyes. unfold alloc_task_fd. wp_step. eapply wp_rd; [exact Ht|].
  rewrite firstn_all2 by (unfold zlen, NM_MAX_FDS in *; lia).
  destruct (find_idx _ (fd_table t)) as [fd|] eqn:E; wp_go.
  - apply find_idx_Some in E as (id & Hid & Hz & _). apply Z.eqb_eq in Hz. subst id. by apply Hyes.
  - apply Hno. rewrite find_idx_None in E. intros id Hin. by apply Z.eqb_neq, E.
Qed.

Lemma unused_weight o j kd : o_used o = false -> weight j kd o = 0.
Proof. unfold weight. by intros ->. Qed.

Lemma new_end_weight kd k j kd' :
  weight j kd' (new_end kd k) = Z.b2z (bool_decide (kd = kd') && (k =? j)).
Proof. unfold weight. simpl. by destruct (_ && _). Qed.

(** An unused pipe has no ends. *)
Lemma unused_pipe objs k p :
  Forall obj_ok objs -> pipe_ok objs k p -> p_used p = false ->
  load objs k NM_FDOBJ_PIPE_R = 0 /\ load objs k NM_FDOBJ_PIPE_W = 0.
Proof.
  intros Ho [Hu _ _ _] E. rewrite E in Hu. symmetry in Hu. apply Z.ltb_ge in Hu.
  pose proof (load_nonneg objs k NM_FDOBJ_PIPE_R Ho). pose proof (load_nonneg objs k NM_FDOBJ_PIPE_W Ho). lia.
Qed.

(** A new end on the pipe [k]. *)
Lemma add_end_tables objs pipes id o k p kd f :
  tables_ok objs pipes -> arr objs id = Some o -> o_used o = false -> arr pipes k = Some p ->
  kd = NM_FDOBJ_PIPE_R \/ kd = NM_FDOBJ_PIPE_W ->
  pipe_ok (upd objs id (new_end kd k)) k (f p) ->
  tables_ok (upd objs id (new_end kd k)) (upd pipes k (f p)).
Proof.
  intros Ht Ho Hu Hk Hkd Hpk.
  assert (E : upd pipes k (f p) = upd_pipe pipes k f) by (unfold upd_pipe; by rewrite Hk). rewrite E.
  eapply tables_change; [done|done| | |].
  - intros _. pose proof (arr_range _ _ _ Hk) as Hr. rewrite (tb_pipes _ _ Ht) in Hr.
    simpl. split; [lia|]. by destruct Hkd as [->| ->].
  - intros j kd' Hj. rewrite new_end_weight, unused_weight by done.
    destruct (Z.eqb_spec k j); [done|]. by rewrite andb_false_r.
  - intros p' Hp'. by simplify_eq.
Qed.

Definition fresh_pipe (p : nm_pipe) : nm_pipe := mk_pipe true (p_buf p) 0 0 1 1.

Lemma fresh_wf p r w : zlen (p_buf p) = NM_PIPE_BUF -> pipe_wf (mk_pipe true (p_buf p) 0 0 r w).
Proof. intros Hl. constructor; simpl; try done; unfold NM_PIPE_BUF; lia. Qed.

(** Both ends of a fresh pipe. *)
Lemma two_ends objs pipes k p id1 o1 id2 o2 :
  tables_ok objs pipes -> arr pipes k = Some p -> p_used p = false ->
  arr objs id1 = Some o1 -> o_used o1 = false ->
  arr (upd objs id1 (new_end NM_FDOBJ_PIPE_R k)) id2 = Some o2 -> o_used o2 = false ->
  tables_ok (upd (upd objs id1 (new_end NM_FDOBJ_PIPE_R k)) id2 (new_end NM_FDOBJ_PIPE_W k))
    (upd pipes k (fresh_pipe p)).
Proof.
  intros Ht Hk Hp Ho1 Hu1 Ho2 Hu2. pose proof (tb_pipe _ _ Ht k p Hk) as Hpo.
  destruct (unused_pipe _ _ _ (tb_obj _ _ Ht) Hpo Hp) as [HR HW]. pose proof (po_buf _ _ _ Hpo) as Hb.
  pose proof (arr_range _ _ _ Hk) as Hr.
  set (objs1 := upd objs id1 (new_end NM_FDOBJ_PIPE_R k)) in *.
  assert (HR1 : load objs1 k NM_FDOBJ_PIPE_R = 1).
  { unfold objs1. rewrite (load_upd _ _ _ _ o1), new_end_weight, unused_weight, Z.eqb_refl by done. simpl. lia. }
  assert (HW1 : load objs1 k NM_FDOBJ_PIPE_W = 0).
  { unfold objs1. rewrite (load_upd _ _ _ _ o1), new_end_weight, unused_weight by done. simpl. lia. }
  assert (Ht1 : tables_ok objs1 (upd pipes k (mk_pipe true (p_buf p) 0 0 1 0))).
  { apply (add_end_tables objs pipes id1 o1 k p NM_FDOBJ_PIPE_R
      (fun p => mk_pipe true (p_buf p) 0 0 1 0)); auto. fold objs1.
    constructor; rewrite ?HR1, ?HW1; done. }
  replace (upd pipes k (fresh_pipe p)) with
    (upd (upd pipes k (mk_pipe true (p_buf p) 0 0 1 0)) k (fresh_pipe p)) by (by rewrite upd_upd).
  apply (add_end_tables objs1 _ id2 o2 k (mk_pipe true (p_buf p) 0 0 1 0) NM_FDOBJ_PIPE_W fresh_pipe);
    auto; [by apply arr_upd_eq|].
  assert (HR2 : load (upd objs1 id2 (new_end NM_FDOBJ_PIPE_W k)) k NM_FDOBJ_PIPE_R = 1).
  { rewrite (load_upd _ _ _ _ o2), new_end_weight, unused_weight by done. simpl. lia. }
  assert (HW2 : load (upd objs1 id2 (new_end NM_FDOBJ_PIPE_W k)) k NM_FDOBJ_PIPE_W = 1).
  { rewrite (load_upd _ _ _ _ o2), new_end_weight, unused_weight, Z.eqb_refl by done. simpl. lia. }
  constructor; rewrite ?HR2, ?HW2; done.
Qed.

(** A new pipe: the first unused pipe is in use and empty, and two free
    descriptors of the task name its two ends, which are new objects. *)
Record pipe_made s s' (i rdfd wrfd : Z) : Prop := mk_pipe_made {
  pm_made : exists t k p id1 id2,
    arr (fd_tasks s) i = Some t /\ rdfd <> wrfd /\
    arr (fd_table t) rdfd = Some (-1) /\ arr (fd_table t) wrfd = Some (-1) /\
    fd_tasks s' = upd (fd_tasks s) i (set_fd_table (upd (upd (fd_table t) rdfd id1) wrfd id2) t) /\
    arr (pipe_table s) k = Some p /\ p_used p = false /\
    pipe_table s' = upd (pipe_table s) k (fresh_pipe p) /\
    id1 <> id2 /\ obj_view s id1 = None /\ obj_view s id2 = None /\
    0 <= id1 < NM_FDOBJ_MAX /\ 0 <= id2 < NM_FDOBJ_MAX /\
    fdobj_table s' = upd (upd (fdobj_table s) id1 (new_end NM_FDOBJ_PIPE_R k)) id2
      (new_end NM_FDOBJ_PIPE_W k);
}.

(** Why a pipe cannot be made: no pipe left, or fewer than two descriptors or
    objects. *)
Definition shortage s (t : nm_task) : Prop :=
  (forall p, p ∈ pipe_table s -> p_used p = true) \/
  countb (fun id => id =? -1) (fd_table t) < 2 \/
  countb (fun o => negb (o_used o)) (fdobj_table s) < 2.

Definition pipe_result s (i : Z) (r : Z * option (Z * Z)) s' : Prop :=
  fd_inv s' /\
  match r with
  | (e, Some (rdfd, wrfd)) => e = 0 /\ pipe_made s s' i rdfd wrfd
  | (e, None) => e = NM_ERR NM_ENOMEM /\ same_view s s' /\
      exists t, arr (fd_tasks s) i = Some t /\ shortage s t
  end.

(** Scratch left in unused slots does not matter. *)
Lemma scratch_core s s' :
  fd_core s -> fd_tasks s' = fd_tasks s -> fs_ok (fd_fs s') ->
  zlen (fdobj_table s') = NM_FDOBJ_MAX -> zlen (pipe_table s') = NM_PIPE_MAX ->
  (forall j, obj_view s' j = obj_view s j) ->
  (forall k p p', arr (pipe_table s) k = Some p -> arr (pipe_table s') k = Some p' ->
     p' = p \/ (p_used p = false /\ p_used p' = false /\ zlen (p_buf p') = NM_PIPE_BUF)) ->
  fd_core s'.
Proof.
  intros [Htb Hsh Hct Hfs] Ets Efs Hlo Hlp Hov Hpv. destruct Htb as [Hlo0 Hlp0 Hob Hpp].
  assert (Hobj : forall j o o', arr (fdobj_table s) j = Some o -> arr (fdobj_table s') j = Some o' ->
    (o' = o /\ o_used o = true) \/ (o_used o = false /\ o_used o' = false)).
  { intros j o o' Hj Hj'. specialize (Hov j). unfold obj_view in Hov. rewrite Hj, Hj' in Hov. simpl in Hov.
    destruct (o_used o), (o_used o'); simplify_eq; auto. }
  assert (Hload : forall k kd, load (fdobj_table s') k kd = load (fdobj_table s) k kd).
  { intros k kd. unfold load. apply sumZ_pointwise; [unfold zlen in *; lia|].
    intros j o o' Hj Hj'. destruct (Hobj j o o' Hj Hj') as [[-> _]|[Hu Hu']]; [done|].
    by rewrite !unused_weight. }
  constructor; [constructor; try done| | |].
  - apply Forall_forall. intros o' (j & Hj')%elem_arr.
    destruct (arr_lookup (fdobj_table s) j) as [o Hj]; [rewrite Hlo0; rewrite <- Hlo; by eapply arr_range|].
    destruct (Hobj j o o' Hj Hj') as [[-> _]|[_ Hu']]; [by eapply (Forall_arr obj_ok)|].
    intros Hu. congruence.
  - intros k p' Hk'. destruct (arr_lookup (pipe_table s) k) as [p Hk];
      [rewrite Hlp0; rewrite <- Hlp; by eapply arr_range|].
    pose proof (Hpp k p Hk) as Hpo.
    destruct (Hpv k p p' Hk Hk') as [->|(Hu & Hu' & Hb)].
    + destruct Hpo. constructor; rewrite ?Hload; done.
    + destruct (unused_pipe _ _ _ Hob Hpo Hu) as [HR HW].
      constructor; rewrite ?Hload, ?HR, ?HW; try done. congruence.
  - by rewrite Ets.
  - intros id Hid. rewrite Ets. etransitivity; [by apply Hct|]. apply Z.eq_le_incl.
    unfold refcnt_of. destruct (arr (fdobj_table s') id) as [o'|] eqn:Hj'.
    + destruct (arr_lookup (fdobj_table s) id) as [o Hj]; [rewrite Hlo0; rewrite <- Hlo; by eapply arr_range|].
      rewrite Hj. destruct (Hobj id o o' Hj Hj') as [[-> ->]|[-> ->]]; done.
    + rewrite arr_none; [done|]. rewrite Hlo0, <- Hlo. intros Hr.
      destruct (arr_lookup (fdobj_table s') id Hr). congruence.
  - done.
Qed.

(** The two descriptors installed. *)
Lemma made_core s i t k p id1 o1 id2 o2 rdfd wrfd :
  fd_core s -> arr (fd_tasks s) i = Some t -> live t = true ->
  arr (fd_table t) rdfd = Some (-1) -> arr (fd_table t) wrfd = Some (-1) -> rdfd <> wrfd ->
  arr (pipe_table s) k = Some p -> p_used p = false ->
  arr (fdobj_table s) id1 = Some o1 -> o_used o1 = false ->
  arr (upd (fdobj_table s) id1 (new_end NM_FDOBJ_PIPE_R k)) id2 = Some o2 -> o_used o2 = false ->
  fd_core (mk_fdst
    (upd (fd_tasks s) i (set_fd_table (upd (upd (fd_table t) rdfd id1) wrfd id2) t))
    (upd (pipe_table s) k (fresh_pipe p))
    (upd (upd (fdobj_table s) id1 (new_end NM_FDOBJ_PIPE_R k)) id2 (new_end NM_FDOBJ_PIPE_W k))
    (fd_lock_word s) (fd_fs s)).
Proof.
  intros [Htb Hsh Hct Hfs] Ht Hl Hrd Hwr Hne Hk Hp Ho1 Hu1 Ho2 Hu2.
  pose proof (arr_range _ _ _ Ht) as Hr. constructor; simpl; [by eapply two_ends| | |done].
  - eapply shape_upd; [done|done|simpl; by rewrite !zlen_upd|done].
  - intros j Hj. specialize (Hct j Hj).
    set (t1 := set_fd_table (upd (fd_table t) rdfd id1) t).
    replace (upd (fd_tasks s) i (set_fd_table (upd (upd (fd_table t) rdfd id1) wrfd id2) t))
      with (upd (upd (fd_tasks s) i t1) i (set_fd_table (upd (upd (fd_table t) rdfd id1) wrfd id2) t))
      by (by rewrite upd_upd).
    rewrite (refs_entry _ _ t1 _ wrfd (-1) id2) by (done || (by apply arr_upd_eq) || (simpl; by rewrite arr_upd_ne)).
    rewrite (refs_entry _ _ t _ rdfd (-1) id1) by done.
    destruct (Z.eqb_spec (-1) j); [lia|]. change (Z.b2z false) with 0.
    unfold refcnt_of in *. pose proof (arr_range _ _ _ Ho1) as Hr1. pose proof (arr_range _ _ _ Ho2) as Hr2.
    assert (Hne12 : id1 <> id2).
    { intros <-. rewrite arr_upd_eq in Ho2 by done. injection Ho2 as <-. done. }
    rewrite arr_upd by done. destruct (Z.eqb_spec id2 j) as [<-|].
    + rewrite arr_upd_ne in Ho2 by done. rewrite Ho2, Hu2 in Hct.
      destruct (Z.eqb_spec id1 id2); [done|]. simpl. lia.
    + rewrite arr_upd by done.
      destruct (Z.eqb_spec id1 j) as [<-|]; [rewrite Ho1, Hu1 in Hct|]; simpl; lia.
Qed.

Lemma obj_view_upd s s' id o :
  fdobj_table s' = upd (fdobj_table s) id o -> obj_view s id = None -> o_used o = false ->
  forall j, obj_view s' j = obj_view s j.
Proof.
  intros E Hv Hu j. destruct (decide (id = j)) as [<-|]; unfold obj_view in *; rewrite E.
  - destruct (decide (0 <= id < zlen (fdobj_table s))).
    + rewrite arr_upd_eq by done. simpl. by rewrite Hu, Hv.
    + rewrite !arr_none; rewrite ?zlen_upd; done.
  - by rewrite arr_upd_ne.
Qed.

Lemma free_view s id o : arr (fdobj_table s) id = Some o -> o_used o = false -> obj_view s id = None.
Proof. intros Ho Hu. unfold obj_view. rewrite Ho. simpl. by rewrite Hu. Qed.

(** What every failing path leaves: the pipe slot and possibly one object slot
    with scratch in them. *)
Lemma pipe_failed s i t k p objs b ro wo r w f :
  fd_inv s -> arr (fd_tasks s) i = Some t -> arr (pipe_table s) k = Some p -> p_used p = false ->
  shortage s t ->
  (objs = fdobj_table s \/ exists id o o', arr (fdobj_table s) id = Some o /\ o_used o = false /\
     o_used o' = false /\ objs = upd (fdobj_table s) id o') ->
  zlen b = NM_PIPE_BUF -> fs_ok f ->
  pipe_result s i (NM_ERR NM_ENOMEM, None)
    (mk_fdst (fd_tasks s) (upd (pipe_table s) k (mk_pipe false b ro wo r w)) objs 0 f).
Proof.
  intros [Hc Hlk] Ht Hk Hp Hsh Hob Hb Hf. pose proof (arr_range _ _ _ Hk) as Hr.
  set (s' := mk_fdst _ _ _ _ _).
  assert (Hov : forall j, obj_view s' j = obj_view s j).
  { destruct Hob as [E|(id & o & o' & Ho & Hu & Hu' & E)].
    - intros j. unfold obj_view. simpl. by rewrite E.
    - eapply obj_view_upd; [exact E|by eapply free_view|done]. }
  assert (Hpv : forall j, pipe_view s' j = pipe_view s j).
  { intros j. unfold pipe_view. simpl. rewrite arr_upd by done.
    destruct (Z.eqb_spec k j) as [<-|]; [|done]. rewrite Hk. simpl. by rewrite Hp. }
  split; [split; [|done]|split_and!; [done|by split_and!|by exists t]].
  eapply scratch_core; try done.
  - simpl. destruct Hob as [->|(? & ? & ? & _ & _ & _ & ->)]; rewrite ?zlen_upd; apply Hc.
  - simpl. rewrite zlen_upd. apply Hc.
  - simpl. intros j q q' Hq Hq'. rewrite arr_upd in Hq' by done.
    destruct (Z.eqb_spec k j) as [<-|]; [right|left; congruence].
    assert (q = p) as -> by congruence. injection Hq' as <-. done.
Qed.

Lemma second_fd_none ft fd :
  arr ft fd = Some (-1) -> (forall id, id ∈ upd ft fd (-2) -> id <> -1) ->
  countb (fun id => id =? -1) ft < 2.
Proof.
  intros Hfd Hno. pose proof (countb_upd (fun id => id =? -1) ft fd (-1) (-2) Hfd) as E.
  rewrite (countb_none _ (upd ft fd (-2))) in E; [simpl in E; lia|].
  intros id Hin. apply Z.eqb_neq. by apply Hno.
Qed.

Lemma second_obj_none objs id o o' :
  arr objs id = Some o -> o_used o = false -> o_used o' = true ->
  (forall x, x ∈ upd objs id o' -> o_used x = true) ->
  countb (fun o => negb (o_used o)) objs < 2.
Proof.
  intros Ho Hu Hu' Hall. pose proof (countb_upd (fun o => negb (o_used o)) objs id o o' Ho) as E.
  rewrite (countb_none _ (upd objs id o')), Hu, Hu' in E; [simpl in E; lia|].
  intros x Hin. by rewrite Hall.
Qed.

(** From the creation of the two end objects on: [s2] has the pipe in use and
    the first descriptor reserved. *)
Lemma wp_pipe_ends s i t k p rdfd wrfd (Q : Z * option (Z * Z) -> fdst F -> Prop) :
  fd_inv s -> arr (fd_tasks s) i = Some t -> live t = true -> arr (pipe_table s) k = Some p ->
  p_used p = false -> arr (fd_table t) rdfd = Some (-1) -> rdfd <> wrfd ->
  arr (fd_table t) wrfd = Some (-1) -> bad_fd rdfd = false -> bad_fd wrfd = false ->
  (forall r s', pipe_result s i r s' -> Q r s') ->
  wp (rd_obj ← create_pipe_endpoint_obj NM_FDOBJ_PIPE_R k;
      if rd_obj <? 0 then
        set_fd_entry i rdfd (-1) ;;
        mod_pipe k (fun p => set_writers 0 (set_readers 0 (set_p_used false p))) ;;
        fd_unlock ;; mret (NM_ERR NM_ENOMEM, None)
      else
      wr_obj ← create_pipe_endpoint_obj NM_FDOBJ_PIPE_W k;
      if wr_obj <? 0 then
        set_fd_entry i rdfd (-1) ;;
        fdobj_release rd_obj ;;
        mod_pipe k (fun p => set_writers 0 (set_readers 0 (set_p_used false p))) ;;
        fd_unlock ;; mret (NM_ERR NM_ENOMEM, None)
      else
      task_install_fdobj (Some i) rdfd rd_obj ;;
      task_install_fdobj (Some i) wrfd wr_obj ;;
      fd_unlock ;;
      mret (0, Some (rdfd, wrfd))) Q
    (mk_fdst (upd (fd_tasks s) i (set_fd_table (upd (fd_table t) rdfd (-2)) t))
      (upd (pipe_table s) k (fresh_pipe p)) (fdobj_table s) 1 (fd_fs s)).
Proof.
  intros Hi Ht Hl Hk Hp Hrd Hne Hwr Hbr Hbw HQ. pose proof Hi as [Hc Hlk].
  pose proof (arr_range _ _ _ Ht) as Hr. pose proof (arr_range _ _ _ Hrd) as Hrf.
  pose proof (arr_range _ _ _ Hk) as Hrk. pose proof (po_buf _ _ _ (tb_pipe _ _ (fc_tables _ Hc) k p Hk)) as Hb.
  set (t1 := set_fd_table (upd (fd_table t) rdfd (-2)) t).
  assert (Hrest : upd (upd (fd_tasks s) i t1) i (set_fd_table (upd (fd_table t1) rdfd (-1)) t1) = fd_tasks s).
  { rewrite upd_upd. simpl. rewrite upd_upd, (upd_id _ _ _ Hrd).
    replace (set_fd_table (fd_table t) t1) with t by (by destruct t). by apply upd_id. }
  wp_step. apply wp_new_end; [apply Hc| |].
  - intros Hall. wp_step. wp_step. eapply wp_set_entry; [by apply arr_upd_eq|simpl; by apply arr_upd_eq|].
    wp_step. eapply wp_modify_at; [simpl; by apply arr_upd_eq|]. wp_step. apply wp_fd_unlock. wp_go.
    unfold set_fd_lock, set_pipes, set_fd_tasks. fd_state. rewrite Hrest, upd_upd. apply HQ.
    eapply pipe_failed; try done; [|by left|apply Hc]. right; right. rewrite countb_none; [done|].
    intros o Hin. by rewrite Hall.
  - intros id1 o1 Ho1 Hu1 H01. simpl in Ho1. pose proof (arr_range _ _ _ Ho1) as Hr1.
    destruct (Z.ltb_spec id1 0); [lia|]. wp_step. apply wp_new_end; [simpl; rewrite zlen_upd; apply Hc| |].
    + intros Hall. wp_step. wp_step. eapply wp_set_entry; [by apply arr_upd_eq|simpl; by apply arr_upd_eq|].
      wp_step. eapply (wp_obj_release _ id1 (new_end NM_FDOBJ_PIPE_R k));
        [simpl; rewrite zlen_upd; apply Hc|simpl; rewrite zlen_upd; apply Hc|apply Hc|by apply arr_upd_eq|done| |].
      { intros _. simpl. split; [lia|]. by rewrite (tb_pipes _ _ (fc_tables _ Hc)) in Hrk. }
      intros f Hf. unfold dropped, set_fd_tasks, set_objs. fd_state. rewrite Hrest, upd_upd.
      unfold upd_pipe. cbn [pipe_id new_end]. rewrite arr_upd_eq by done.
      wp_step. eapply wp_modify_at; [simpl; apply arr_upd_eq; by rewrite zlen_upd|].
      wp_step. apply wp_fd_unlock. wp_go. unfold set_fd_lock, set_pipes. simpl. rewrite !upd_upd.
      apply HQ. eapply pipe_failed; try done.
      * right; right.
        eapply (second_obj_none _ id1 o1 (new_end NM_FDOBJ_PIPE_R k)); [done|done|done|exact Hall].
      * right. by exists id1, o1, (drop_obj (new_end NM_FDOBJ_PIPE_R k)).
    + intros id2 o2 Ho2 Hu2 H02. simpl in Ho2. pose proof (arr_range _ _ _ Ho2) as Hr2.
      destruct (Z.ltb_spec id2 0); [lia|]. unfold task_install_fdobj. rewrite Hbr, Hbw.
      wp_step. wp_step. eapply wp_set_entry; [by apply arr_upd_eq|simpl; by apply arr_upd_eq|]. wp_step.
      wp_step. wp_step.
      eapply wp_set_entry; [simpl; apply arr_upd_eq; by rewrite zlen_upd|simpl; by rewrite !arr_upd_ne|].
      wp_step. wp_step. apply wp_fd_unlock. wp_go.
      unfold set_fd_lock, set_objs, set_fd_tasks. fd_state. rewrite !upd_upd.
      change (set_fd_table _ (set_fd_table (upd (fd_table t) rdfd id1) t1)) with
        (set_fd_table (upd (upd (fd_table t) rdfd id1) wrfd id2) t).
      assert (Hne12 : id1 <> id2).
      { intros <-. rewrite arr_upd_eq in Ho2 by done. injection Ho2 as <-. done. }
      rewrite zlen_upd, (tb_objs _ _ (fc_tables _ Hc)) in *.
      apply HQ. split; [split; [|done]|split; [done|]].
      * pose proof (made_core s i t k p id1 o1 id2 o2 rdfd wrfd Hc Ht Hl Hrd Hwr Hne Hk Hp Ho1 Hu1 Ho2 Hu2)
          as Hmc. by apply (core_lock _ 0) in Hmc.
      * constructor. exists t, k, p, id1, id2. rewrite arr_upd_ne in Ho2 by done.
        split_and!; try done; try lia; by eapply free_view.
Qed.

Lemma wp_pipe s i t (Q : Z * option (Z * Z) -> fdst F -> Prop) :
  fd_inv s -> arr (fd_tasks s) i = Some t -> live t = true ->
  (forall r s', pipe_result s i r s' -> Q r s') -> wp (nm_fd_pipe (Some i) true) Q s.
Proof.
  intros Hi Ht Hl HQ. pose proof Hi as [Hc Hlk]. pose proof (arr_range _ _ _ Ht) as Hr.
  destruct (Forall_arr task_shape _ i t (fc_shape _ Hc) Ht) as [Hlen _].
  assert (Hfail : shortage s t -> Q (NM_ERR NM_ENOMEM, None) s).
  { intros Hs. apply HQ. split; [done|]. split_and!; [done|done|by exists t]. }
  unfold nm_fd_pipe. wp_step. apply wp_fd_lock; [done|]. cbn [negb]. wp_step. wp_step. fd_state.
  rewrite firstn_all2 by (pose proof (tb_pipes _ _ (fc_tables _ Hc)) as E; simpl;
    unfold zlen, NM_PIPE_MAX in *; lia).
  destruct (find_idx _ (pipe_table (set_fd_lock 1 s))) as [k|] eqn:Ek; simpl in Ek.
  2:{ wp_step. apply wp_fd_unlock. rewrite fd_relock by done. wp_go. apply Hfail. left.
      rewrite find_idx_None in Ek. intros p Hin. by apply negb_false_iff, Ek. }
  apply find_idx_Some in Ek as (p & Hk & Hp & _). apply negb_true_iff in Hp.
  wp_step. eapply wp_alloc_task_fd; [exact Ht|done| |].
  { intros Hno. wp_step. wp_step. apply wp_fd_unlock. rewrite fd_relock by done. wp_go. apply Hfail. right; left.
    rewrite countb_none; [done|]. intros id Hin. by apply Z.eqb_neq, Hno. }
  intros rdfd Hrd. pose proof (arr_range _ _ _ Hrd) as Hrr. destruct (Z.ltb_spec rdfd 0); [lia|].
  wp_step. eapply wp_set_entry; [exact Ht|done|]. wp_step.
  eapply wp_alloc_task_fd; [by apply arr_upd_eq|simpl; by rewrite zlen_upd| |].
  { intros Hno. wp_step. wp_step. eapply wp_set_entry; [by apply arr_upd_eq|simpl; by apply arr_upd_eq|].
    wp_step. apply wp_fd_unlock. wp_go. unfold set_fd_lock, set_fd_tasks. simpl.
    rewrite !upd_upd, (upd_id _ _ _ Hrd).
    match goal with |- context [upd (fd_tasks s) i ?x] => replace x with t by (by destruct t) end.
    rewrite (upd_id _ _ _ Ht). destruct s. simplify_eq/=. apply Hfail. right; left.
    by eapply second_fd_none. }
  intros wrfd Hwr. simpl in Hwr. pose proof (arr_range _ _ _ Hwr) as Hrw. rewrite zlen_upd in Hrw.
  destruct (Z.ltb_spec wrfd 0); [lia|].
  assert (Hne : rdfd <> wrfd) by (intros <-; by rewrite arr_upd_eq in Hwr by done).
  rewrite arr_upd_ne in Hwr by done.
  wp_step. eapply wp_modify_at; [exact Hk|]. apply (wp_pipe_ends s i t k p rdfd wrfd); try done.
  all: apply good_fd; lia.
Qed.

(** ** Reading and writing *)

Lemma wp_at_pipe {A} s k p (c : M nm_pipe A) (Q : A -> fdst F -> Prop) :
  arr (pipe_table s) k = Some p ->
  wp c (fun a p' => Q a (set_pipes (upd (pipe_table s) k p') s)) p -> wp (at_pipe k c) Q s.
Proof. intros Hk. unfold wp, at_pipe. rewrite Hk. by destruct (c p). Qed.

(** The bytes of a pipe change, its ends do not. *)
Lemma pipe_bytes_core s k p p' :
  fd_core s -> arr (pipe_table s) k = Some p -> p_used p = true -> pipe_wf p' ->
  readers p' = readers p -> writers p' = writers p -> p_used p' = p_used p ->
  fd_core (set_pipes (upd (pipe_table s) k p') s).
Proof.
  intros [[Hlo Hlp Hob Hpp] Hsh Hct Hfs] Hk Hu Hw Hr Hwr Hpu. constructor; simpl; try done.
  constructor; [done|by rewrite zlen_upd|done|]. intros j q. rewrite arr_upd by (by eapply arr_range).
  destruct (Z.eqb_spec k j) as [<-|]; [|by apply Hpp]. intros [= <-].
  destruct (Hpp k p Hk) as [Hpu' He Hb Hwd]. destruct (He Hu) as (_ & HR & HW).
  constructor; [by rewrite Hpu| |apply Hw|done]. intros _. split; [done|]. by rewrite Hr, Hwr.
Qed.

(** The end of a pipe that a descriptor in use names. *)
Lemma end_pipe s id o :
  fd_core s -> arr (fdobj_table s) id = Some o -> o_used o = true ->
  kind o = NM_FDOBJ_PIPE_R \/ kind o = NM_FDOBJ_PIPE_W ->
  bad_pipe (pipe_id o) = false /\
  exists p, arr (pipe_table s) (pipe_id o) = Some p /\ p_used p = true /\ pipe_wf p.
Proof.
  intros Hc Ho Hu Hk. destruct (obj_at_ok _ _ _ _ (fc_tables _ Hc) Ho Hu) as [Hr Hko].
  assert (Hrg : 0 <= pipe_id o < NM_PIPE_MAX) by (by destruct Hk as [E|E]; rewrite E in Hko).
  split. { unfold bad_pipe. destruct (Z.ltb_spec (pipe_id o) 0), (Z.leb_spec NM_PIPE_MAX (pipe_id o)); done || lia. }
  destruct (arr_lookup (pipe_table s) (pipe_id o)) as [p Hp]; [by rewrite (tb_pipes _ _ (fc_tables _ Hc))|].
  pose proof (tb_pipe _ _ (fc_tables _ Hc) _ _ Hp) as Hpo.
  assert (Hused : p_used p = true).
  { rewrite (po_used _ _ _ Hpo). apply Z.ltb_lt.
    pose proof (tb_obj _ _ (fc_tables _ Hc)) as Hall.
    pose proof (load_nonneg (fdobj_table s) (pipe_id o) NM_FDOBJ_PIPE_R Hall).
    pose proof (load_nonneg (fdobj_table s) (pipe_id o) NM_FDOBJ_PIPE_W Hall).
    pose proof (load_ge (fdobj_table s) (pipe_id o) (kind o) id o Hall Ho) as Hge.
    rewrite weight_end, bool_decide_eq_true_2 in Hge by done. destruct Hk as [E|E]; rewrite E in Hge; lia. }
  exists p. split_and!; [done|done|]. by apply (po_ends _ _ _ Hpo).
Qed.

(** What a read answers: never more bytes than asked for. *)
Definition read_result s (i fd len : Z) (r : Z * list Z) s' : Prop :=
  fd_inv s' /\ fd_tasks s' = fd_tasks s /\ fdobj_table s' = fdobj_table s /\
  exists t, arr (fd_tasks s) i = Some t /\
  match arr (fd_table t) fd ≫= fun id => obj_view s id with
  | None => r = (NM_ERR NM_ENOENT, []) /\ s' = s
  | Some o =>
      match kind o with
      | NM_FDOBJ_PIPE_R => exists p, pipe_view s (pipe_id o) = Some p /\
          let n := Z.min len (zlen (contents p)) in
          r = (n, take (Z.to_nat n) (contents p)) /\
          s' = set_pipes (upd (pipe_table s) (pipe_id o) (set_read_pos (read_pos p + n) p)) s
      | NM_FDOBJ_FS => exists f, s' = set_fs f s /\ zlen r.2 <= len
      | _ => r = (NM_ERR NM_EFAIL, []) /\ s' = s
      end
  end.

Lemma read_at_most s i fd len r s' : 0 <= len -> read_result s i fd len r s' -> zlen r.2 <= len.
Proof.
  intros Hl (_ & _ & _ & t & _ & Hr).
  destruct (arr (fd_table t) fd ≫= _) as [o|]; [|by destruct Hr as [-> _]].
  destruct (kind o); [by destruct Hr as [-> _]|by destruct Hr as (f & _ & ?)| |by destruct Hr as [-> _]].
  destruct Hr as (p & _ & -> & _). cbn [snd]. unfold zlen in *. rewrite length_take. lia.
Qed.

Lemma wp_read_obj s1 id o len (Q : Z * list Z -> fdst F -> Prop) :
  fd_core s1 -> arr (fdobj_table s1) id = Some o -> o_used o = true -> 0 <= len ->
  (forall p, kind o = NM_FDOBJ_PIPE_R -> arr (pipe_table s1) (pipe_id o) = Some p -> p_used p = true ->
     let n := Z.min len (zlen (contents p)) in
     let s2 := set_pipes (upd (pipe_table s1) (pipe_id o) (set_read_pos (read_pos p + n) p)) s1 in
     fd_core s2 -> Q (n, take (Z.to_nat n) (contents p)) s2) ->
  (forall r f, kind o = NM_FDOBJ_FS -> fs_ok f -> zlen r.2 <= len -> Q r (set_fs f s1)) ->
  (kind o = NM_FDOBJ_PIPE_W -> Q (NM_ERR NM_EFAIL, []) s1) ->
  wp (read_from_fdobj (Some id) true len) Q s1.
Proof.
  intros Hc Ho Hu Hlen Hpipe Hfs Hw. unfold read_from_fdobj. wp_step. eapply wp_rd; [exact Ho|].
  destruct (obj_at_ok _ _ _ _ (fc_tables _ Hc) Ho Hu) as [_ Hk].
  destruct (kind o) eqn:Ek; [done| | |].
  - apply wp_lift. eapply wp_mono; [apply fs_read_law; [apply Hc|done]|]. intros r f [Hf Hr]. by apply Hfs.
  - destruct (end_pipe s1 id o Hc Ho Hu) as (-> & p & Hp & Hpu & Hwf); [by left|].
    eapply wp_at_pipe; [done|]. apply wp_read_pipe; [done|done|done|]. cbv zeta. intros Hwf'.
    specialize (Hpipe p eq_refl Hp Hpu). cbv zeta in Hpipe. rewrite contents_len in Hpipe by done.
    apply Hpipe. by eapply pipe_bytes_core.
  - apply wp_ret. by apply Hw.
Qed.

(** The lookup that reads and writes start with: a descriptor in use leads to
    its object, anything else to the error. *)
Lemma wp_descriptor {A} s i t fd (fail : M (fdst F) A) (use : Z -> M (fdst F) A) Q :
  fd_core s -> arr (fd_tasks s) i = Some t -> live t = true ->
  ((arr (fd_table t) fd ≫= fun id => obj_view s id) = None -> wp fail Q s) ->
  (forall id o, (arr (fd_table t) fd ≫= fun id => obj_view s id) = Some o ->
     arr (fdobj_table s) id = Some o -> o_used o = true -> wp (use id) Q s) ->
  wp (id ← task_fdobj_id (Some i) fd;
      if id =? -1 then fail else
      obj ← (if bad_obj id then mret None else fdobj_get id);
      match obj with
      | Some o => use o
      | None =>
          adopted ← adopt_legacy_fs_fd (Some i) fd;
          obj ← (if adopted <? 0 then mret None else fdobj_get adopted);
          match obj with
          | Some o => use o
          | None => fail
          end
      end) Q s.
Proof.
  intros Hc Ht Hl Hnone Huse. destruct (bad_fd fd) eqn:Eb.
  { unfold adopt_legacy_fs_fd, task_fdobj_id. rewrite Eb.
    do 2 wp_step. change (NM_ERR NM_EINVAL =? -1) with false. cbv iota.
    change (bad_obj (NM_ERR NM_EINVAL)) with true. cbv iota. do 7 wp_step. cbv iota. apply Hnone.
    rewrite arr_none; [done|]. destruct (Forall_arr task_shape _ i t (fc_shape _ Hc) Ht) as [-> _].
    intros Hr%good_fd. congruence. }
  destruct (entry_exists s i t fd Hc Ht Eb) as [id Hid]. wp_step. unfold task_fdobj_id at 1. rewrite Eb.
  eapply wp_entry; [exact Ht|done|]. rewrite Hid in *. destruct (Z.eqb_spec id (-1)) as [->|Hne].
  { apply Hnone. simpl. unfold obj_view. by rewrite arr_none by lia. }
  destruct (counted_used _ _ _ _ _ _ (fc_counted _ Hc) Ht Hl Hid Hne) as (o & Ho & Hu & _).
  assert (Hgood : bad_obj id = false).
  { pose proof (arr_range _ _ _ Ho) as Hr. rewrite (tb_objs _ _ (fc_tables _ Hc)) in Hr.
    unfold bad_obj. destruct (Z.ltb_spec id 0), (Z.leb_spec NM_FDOBJ_MAX id); done || lia. }
  rewrite Hgood. wp_step. apply wp_obj_get; [apply Hc|]. rewrite Ho, Hu. eapply (Huse id o); try done.
  simpl. unfold obj_view. rewrite Ho. simpl. by rewrite Hu.
Qed.

Lemma wp_read s i t fd len (Q : Z * list Z -> fdst F -> Prop) :
  fd_inv s -> arr (fd_tasks s) i = Some t -> live t = true -> 0 <= len ->
  (forall r s', read_result s i fd len r s' -> Q r s') -> wp (nm_fd_read (Some i) fd true len) Q s.
Proof.
  intros [Hc Hlk] Ht Hl Hlen HQ. unfold nm_fd_read. wp_step. apply wp_fd_lock; [done|].
  rewrite bool_decide_eq_false_2 by done. cbn [orb negb].
  eapply (wp_descriptor (set_fd_lock 1 s)); [by apply core_lock|exact Ht|done|..].
  { intros E. change ((arr (fd_table t) fd ≫= fun id => obj_view s id) = None) in E.
    wp_step. apply wp_fd_unlock. rewrite fd_relock by done. wp_go. apply HQ.
    split_and!; [done|done|done|]. exists t. split; [done|]. by rewrite E. }
  intros id o Hview Ho Hu. wp_step.
  eapply (wp_read_obj (set_fd_lock 1 s)); [by apply core_lock|exact Ho|done|done|..].
  - intros p Ek Hp Hpu n s2 Hc2. change (arr (pipe_table s) (pipe_id o) = Some p) in Hp.
    wp_step. apply wp_fd_unlock. wp_go. apply HQ.
    split_and!; [by apply (core_lock _ 0) in Hc2|done|done|]. exists t. split; [done|].
    change ((arr (fd_table t) fd ≫= fun id => obj_view s id) = Some o) in Hview. rewrite Hview, Ek.
    exists p. split; [unfold pipe_view; rewrite Hp; simpl; by rewrite Hpu|].
    split; [done|]. unfold s2. destruct s. by simplify_eq/=.
  - intros r f Ek Hf Hr. wp_step. apply wp_fd_unlock. wp_go. apply HQ.
    split_and!; [split; [by destruct Hc; constructor|done]|done|done|]. exists t. split; [done|].
    change ((arr (fd_table t) fd ≫= fun id => obj_view s id) = Some o) in Hview. rewrite Hview, Ek.
    exists f. split; [destruct s; by simplify_eq/=|by destruct r].
  - intros Ek. wp_step. apply wp_fd_unlock. rewrite fd_relock by done. wp_go. apply HQ.
    split_and!; [done|done|done|]. exists t. split; [done|].
    change ((arr (fd_table t) fd ≫= fun id => obj_view s id) = Some o) in Hview. by rewrite Hview, Ek.
Qed.

(** What a write of the [len] bytes of [data] answers. *)
Definition write_result s (i fd : Z) (data : list Z) (r : Z) s' : Prop :=
  fd_inv s' /\ fd_tasks s' = fd_tasks s /\ fdobj_table s' = fdobj_table s /\
  exists t, arr (fd_tasks s) i = Some t /\
  match arr (fd_table t) fd ≫= fun id => obj_view s id with
  | None => r = NM_ERR NM_ENOENT /\ s' = s
  | Some o =>
      match kind o with
      | NM_FDOBJ_PIPE_W => exists p p', pipe_view s (pipe_id o) = Some p /\
          r = Z.min (zlen data) (NM_PIPE_BUF - zlen (contents p)) /\
          wrote p p' (take (Z.to_nat r) data) /\
          s' = set_pipes (upd (pipe_table s) (pipe_id o) p') s
      | NM_FDOBJ_FS => exists f, s' = set_fs f s /\ r <= zlen data
      | _ => r = NM_ERR NM_EFAIL /\ s' = s
      end
  end.

Lemma write_at_most s i fd data r s' : write_result s i fd data r s' -> r <= zlen data.
Proof.
  intros (_ & _ & _ & t & _ & Hr). assert (Hz : 0 <= zlen data) by (unfold zlen; lia).
  assert (He : NM_ERR NM_ENOENT <= zlen data /\ NM_ERR NM_EFAIL <= zlen data) by (unfold NM_ERR, NM_ENOENT, NM_EFAIL; lia).
  destruct (arr (fd_table t) fd ≫= _) as [o|]; [|destruct Hr as [-> _]; apply He].
  destruct (kind o); [destruct Hr as [-> _]; apply He| |destruct Hr as [-> _]; apply He|].
  - by destruct Hr as (f & _ & ?).
  - destruct Hr as (p & p' & _ & -> & _). lia.
Qed.

(** No write position is near the width of its field. *)
Definition positions_ok s : Prop :=
  forall k p, arr (pipe_table s) k = Some p -> p_used p = true -> write_pos p + NM_PIPE_BUF < 2 ^ 64.

Lemma wp_write s i t fd data (Q : Z -> fdst F -> Prop) :
  fd_inv s -> positions_ok s -> arr (fd_tasks s) i = Some t -> live t = true ->
  (forall o, (arr (fd_table t) fd ≫= fun id => obj_view s id) = Some o -> kind o = NM_FDOBJ_FS ->
     fs_room (fd_fs s) (zlen data)) ->
  (forall r s', write_result s i fd data r s' -> Q r s') ->
  wp (nm_fd_write (Some i) fd (Some data) (zlen data)) Q s.
Proof.
  intros [Hc Hlk] Hpos Ht Hl Hroom HQ. unfold nm_fd_write. wp_step. apply wp_fd_lock; [done|].
  rewrite !bool_decide_eq_false_2 by done. cbn [orb].
  assert (Hlen : 0 <= zlen data) by (unfold zlen; lia).
  eapply (wp_descriptor (set_fd_lock 1 s)); [by apply core_lock|exact Ht|done|..].
  { intros E. change ((arr (fd_table t) fd ≫= fun id => obj_view s id) = None) in E.
    wp_step. apply wp_fd_unlock. rewrite fd_relock by done. wp_go. apply HQ.
    split_and!; [done|done|done|]. exists t. split; [done|]. by rewrite E. }
  intros id o Hview Ho Hu. change ((arr (fd_table t) fd ≫= fun id => obj_view s id) = Some o) in Hview.
  destruct (obj_at_ok _ _ _ _ (fc_tables _ Hc) Ho Hu) as [_ Hk].
  wp_step. unfold write_to_fdobj. wp_step. eapply wp_rd; [exact Ho|].
  destruct (kind o) eqn:Ek; [done| | |].
  - apply wp_lift. eapply wp_mono; [apply fs_write_law; [apply Hc|done|by apply (Hroom _ Hview)]|]. intros r f [Hf Hr].
    wp_step. apply wp_fd_unlock. wp_go. apply HQ.
    split_and!; [split; [by destruct Hc; constructor|done]|done|done|]. exists t. split; [done|].
    rewrite Hview, Ek. exists f. split; [destruct s; by simplify_eq/=|done].
  - wp_step. wp_step. apply wp_fd_unlock. rewrite fd_relock by done. wp_go. apply HQ.
    split_and!; [done|done|done|]. exists t. split; [done|]. by rewrite Hview, Ek.
  - destruct (end_pipe s id o Hc Ho Hu) as (-> & p & Hp & Hpu & Hwf); [by right|].
    eapply wp_at_pipe; [exact Hp|]. apply wp_write_pipe; [done|done|lia|by apply (Hpos _ _ Hp)|].
    rewrite <- contents_len by done. cbv zeta. intros p' Hw. wp_step. apply wp_fd_unlock. wp_go. apply HQ.
    destruct (wo_ends _ _ _ Hw) as (Hr & Hwr & Hpu').
    split_and!; [split; [|done]|done|done|].
    { apply (core_lock _ 0), (pipe_bytes_core (set_fd_lock 1 s) _ p); try done; [by apply core_lock|apply Hw]. }
    exists t. split; [done|]. rewrite Hview, Ek. exists p, p'.
    split; [unfold pipe_view; rewrite Hp; simpl; by rewrite Hpu|]. split; [done|]. split; [done|].
    destruct s. by simplify_eq/=.
Qed.

(** ** Flags and initialisation *)

(** A task keeps its descriptors, its name and whether it is live. *)
Definition same_fds (t t' : nm_task) : Prop :=
  live t' = live t /\ fd_table t' = fd_table t /\ name t' = name t.

Lemma same_fds_core s i t t' :
  fd_core s -> arr (fd_tasks s) i = Some t -> same_fds t t' ->
  fd_core (set_fd_tasks (upd (fd_tasks s) i t') s).
Proof.
  intros [Htb Hsh Hct Hfs] Ht (Hl & Hf & Hn). constructor; simpl; try done.
  - eapply shape_upd; [done|done|by rewrite Hf|done].
  - intros j Hj. rewrite (refs_same _ i t) by done. by apply Hct.
Qed.

Lemma wp_set_cloexec s i t fd enabled (Q : Z -> fdst F -> Prop) :
  fd_inv s -> arr (fd_tasks s) i = Some t ->
  (forall r s', fd_inv s' -> Q r s') -> wp (nm_fd_set_cloexec (Some i) fd enabled) Q s.
Proof.
  intros [Hc Hlk] Ht HQ. pose proof (core_lock s 1 Hc) as Hc1.
  unfold nm_fd_set_cloexec. wp_step. apply wp_fd_lock; [done|]. destruct (bad_fd fd) eqn:Eb.
  { wp_step. apply wp_fd_unlock. rewrite fd_relock by done. wp_go. by apply HQ. }
  destruct (entry_exists s i t fd Hc Ht Eb) as [id Hid]. wp_step. eapply wp_entry; [exact Ht|done|].
  destruct (id =? -1).
  { wp_step. apply wp_fd_unlock. rewrite fd_relock by done. wp_go. by apply HQ. }
  wp_step. eapply wp_modify_at; [exact Ht|]. wp_step. apply wp_fd_unlock. wp_go. apply HQ.
  split; [|done]. apply (core_lock _ 0), (same_fds_core (set_fd_lock 1 s) i t); [done|done|].
  by destruct enabled.
Qed.

Lemma wp_reset {A} (proj : fdst F -> list A) (set : list A -> fdst F -> fdst F) (f : A -> A) n s
    (Q : unit -> fdst F -> Prop) :
  0 <= n -> zlen (proj s) = n ->
  (forall l u, proj (set l u) = l) -> (forall l l' u, set l (set l' u) = set l u) ->
  set (proj s) s = s ->
  Q tt (set (f <$> proj s) s) ->
  wp (for_all (upto 0 n) (fun i => modify_at proj set i f)) Q s.
Proof.
  intros Hn Hl Hps Hss Hid HQ.
  apply (wp_for_all (fun i u => exists l, u = set l s /\ zlen l = n /\
    forall j, arr l j = if j <? i then f <$> arr (proj s) j else arr (proj s) j)).
  - done.
  - exists (proj s). split_and!; [done|done|]. intros j. destruct (Z.ltb_spec j 0); [|done].
    by rewrite arr_none by lia.
  - intros i u Hi (l & -> & Hll & Hj). destruct (arr_lookup l i) as [x Hx]; [lia|].
    eapply wp_modify_at; [by rewrite Hps|]. rewrite Hps, Hss. exists (upd l i (f x)).
    split_and!; [done|by rewrite zlen_upd|]. intros j. rewrite arr_upd by lia.
    pose proof (Hj i) as Hji. rewrite Z.ltb_irrefl, Hx in Hji. destruct (Z.eqb_spec i j) as [<-|].
    + destruct (Z.ltb_spec i (i + 1)); [|lia]. by rewrite <- Hji.
    + rewrite Hj. destruct (Z.ltb_spec j i), (Z.ltb_spec j (i + 1)); try lia; done.
  - intros u (l & -> & Hll & Hj). replace l with (f <$> proj s); [done|].
    apply arr_ext; [unfold zlen in *; by rewrite length_fmap, Hl|].
    intros j. rewrite arr_fmap, Hj. destruct (Z.ltb_spec j n); [done|]. by rewrite arr_none by lia.
Qed.

Definition no_descriptors (ts : list nm_task) : Prop := forall id, id <> -1 -> refs ts id = 0.

(** The file system may be set up later. *)
Lemma wp_fd_init_early s (Q : unit -> fdst F -> Prop) :
  zlen (pipe_table s) = NM_PIPE_MAX -> Forall (fun p => zlen (p_buf p) = NM_PIPE_BUF) (pipe_table s) ->
  zlen (fdobj_table s) = NM_FDOBJ_MAX -> Forall task_shape (fd_tasks s) -> no_descriptors (fd_tasks s) ->
  (forall s', (forall v, fs_ok v -> fd_inv (set_fs v s')) -> fd_tasks s' = fd_tasks s -> fd_fs s' = fd_fs s -> Q tt s') ->
  wp nm_fd_init Q s.
Proof.
  intros Hlp Hbuf Hlo Hsh Hnd HQ. unfold nm_fd_init. wp_step. wp_step. wp_step.
  apply wp_fd_lock; [done|]. wp_step. apply wp_reset; [done|done|done|done|by destruct s|].
  wp_step. apply wp_reset; [done|done|done|done|by destruct s|]. apply wp_fd_unlock.
  assert (Hw : forall k kd, load (reset_obj <$> fdobj_table s) k kd = 0).
  { intros k kd. apply sumZ_zero. by intros o (o' & -> & _)%list_elem_of_fmap. }
  apply HQ; [|done|done]. intros v Hv. split; [|done]. constructor; simpl; [|done| |done].
  - constructor; [unfold zlen in *; by rewrite length_fmap|unfold zlen in *; by rewrite length_fmap| |].
    + apply Forall_fmap, Forall_forall. by intros o _.
    + intros k p'. rewrite arr_fmap. destruct (arr (pipe_table s) k) as [p|] eqn:Hk; [|done].
      intros [= <-]. constructor; rewrite ?Hw; try done.
      exact (Forall_arr (fun p => zlen (p_buf p) = NM_PIPE_BUF) _ k p Hbuf Hk).
  - intros j Hj. rewrite Hnd by done. unfold refcnt_of. rewrite arr_fmap.
    by destruct (arr (fdobj_table s) j).
Qed.

Lemma wp_fd_init s (Q : unit -> fdst F -> Prop) :
  zlen (pipe_table s) = NM_PIPE_MAX -> Forall (fun p => zlen (p_buf p) = NM_PIPE_BUF) (pipe_table s) ->
  zlen (fdobj_table s) = NM_FDOBJ_MAX -> Forall task_shape (fd_tasks s) ->
  no_descriptors (fd_tasks s) -> fs_ok (fd_fs s) ->
  (forall s', fd_inv s' -> fd_tasks s' = fd_tasks s -> Q tt s') -> wp nm_fd_init Q s.
Proof.
  intros Hlp Hbuf Hlo Hsh Hnd Hfs HQ. apply wp_fd_init_early; [done..|]. intros s' Hi Ht Hf. apply HQ; [|done].
  specialize (Hi (fd_fs s') ltac:(by rewrite Hf)). by destruct s'.
Qed.

(** ** The descriptor component as a transition system *)

(** A new task in slot [i], which was free, forked from the task in slot [j]. *)
Definition with_child s (i : Z) (child : nm_task) : fdst F := set_fd_tasks (upd (fd_tasks s) i child) s.

Inductive fd_step : fdst F -> fdst F -> Prop :=
| fds_close s i t fd r s' :
    arr (fd_tasks s) i = Some t -> live t = true -> nm_fd_close (Some i) fd s = Done r s' -> fd_step s s'
| fds_pipe s i t r s' :
    arr (fd_tasks s) i = Some t -> live t = true -> nm_fd_pipe (Some i) true s = Done r s' -> fd_step s s'
| fds_dup2 s i t oldfd newfd r s' :
    arr (fd_tasks s) i = Some t -> live t = true -> all_room (fdobj_table s) 1 ->
    nm_fd_dup2 (Some i) oldfd newfd s = Done r s' -> fd_step s s'
| fds_fork s i j old parent child r s' :
    arr (fd_tasks s) j = Some parent -> live parent = true ->
    arr (fd_tasks s) i = Some old -> live old = false ->
    live child = true -> fd_table child = fd_table parent -> name child = name parent ->
    all_room (fdobj_table s) NM_MAX_FDS ->
    nm_fd_on_fork_child (Some i) (with_child s i child) = Done r s' -> fd_step s s'
| fds_exec s i t s' :
    arr (fd_tasks s) i = Some t -> live t = true -> 0 <= fd_cloexec_mask t ->
    nm_fd_close_on_exec (Some i) s = Done tt s' -> fd_step s s'
| fds_cloexec s i t fd enabled r s' :
    arr (fd_tasks s) i = Some t -> nm_fd_set_cloexec (Some i) fd enabled s = Done r s' -> fd_step s s'
| fds_read s i t fd len r s' :
    arr (fd_tasks s) i = Some t -> live t = true -> 0 <= len ->
    nm_fd_read (Some i) fd true len s = Done r s' -> fd_step s s'
| fds_write s i t fd data r s' :
    arr (fd_tasks s) i = Some t -> live t = true -> positions_ok s -> fs_room (fd_fs s) (zlen data) ->
    nm_fd_write (Some i) fd (Some data) (zlen data) s = Done r s' -> fd_step s s'
| fds_spawn s i old t :
    arr (fd_tasks s) i = Some old -> live old = false -> task_shape t ->
    (forall id, id ∈ fd_table t -> id = -1) ->
    fd_step s (set_fd_tasks (upd (fd_tasks s) i t) s)
| fds_state s i t t' :
    arr (fd_tasks s) i = Some t -> same_fds t t' -> fd_step s (set_fd_tasks (upd (fd_tasks s) i t') s)
| fds_reap s i t :
    arr (fd_tasks s) i = Some t -> live t = true ->
    fd_step s (set_fd_tasks (upd (fd_tasks s) i (reap t)) s).

Lemma refs_drop ts i t t' id :
  arr ts i = Some t -> live t' = false -> refs (upd ts i t') id <= refs ts id.
Proof.
  intros Ht Hl. unfold refs. rewrite (sumZ_upd _ _ _ _ _ Ht), Hl.
  destruct (live t); [|lia]. pose proof (countb_range (fun x => x =? id) (fd_table t)). lia.
Qed.

Lemma refs_free ts i old t' id :
  arr ts i = Some old -> live old = false -> (forall x, x ∈ fd_table t' -> x = -1) -> id <> -1 ->
  refs (upd ts i t') id = refs ts id.
Proof.
  intros Ht Hl Hno Hid. unfold refs. rewrite (sumZ_upd _ _ _ _ _ Ht), Hl.
  destruct (live t'); [|lia]. rewrite countb_none; [lia|].
  intros x Hx. apply Z.eqb_neq. rewrite (Hno x Hx). lia.
Qed.

Lemma part_0_free t x : x ∈ fd_table (part 0 t) -> x = -1.
Proof.
  intros Hx. change (x ∈ replicate 32 (-1)) in Hx. by apply elem_of_replicate in Hx as [-> _].
Qed.

Lemma fork_pre_of s i j old parent child :
  fd_inv s -> arr (fd_tasks s) j = Some parent -> live parent = true ->
  arr (fd_tasks s) i = Some old -> live old = false ->
  live child = true -> fd_table child = fd_table parent -> name child = name parent ->
  all_room (fdobj_table s) NM_MAX_FDS -> fork_pre (with_child s i child) i child.
Proof.
  intros [Hc Hlk] Hj Hlp Hi Hlo Hlc Hf Hn Hroom. pose proof (arr_range _ _ _ Hi) as Hr.
  assert (Hji : j <> i) by (intros ->; congruence).
  destruct (Forall_arr task_shape _ j parent (fc_shape _ Hc) Hj) as [Hfl Hnl].
  constructor; try done; simpl.
  - split; [by apply arr_upd_eq|done].
  - exists j, parent. split_and!; [done|by rewrite arr_upd_ne|done|done].
  - destruct Hc as [Htb Hsh Hct Hfs]. constructor; simpl; try done.
    + rewrite upd_upd. apply Forall_upd; [done|]. split; [|simpl; by rewrite Hn].
      apply part_len; [congruence|done].
    + intros id Hid. rewrite upd_upd, (refs_free _ i old) by (done || apply part_0_free). by apply Hct.
Qed.

Lemma wp_fd_inv {A} (c : M (fdst F) A) s r s' :
  wp c (fun _ => fd_inv) s -> c s = Done r s' -> fd_inv s'.
Proof. unfold wp. intros Hw E. by rewrite E in Hw. Qed.

Lemma fd_step_inv s s' : fd_inv s -> fd_step s s' -> fd_inv s'.
Proof.
  intros Hi Hst. destruct Hst as [s i t fd r s' Ht Hl E|s i t r s' Ht Hl E|s i t o n r s' Ht Hl Hr E
    |s i j old parent child r s' Hj Hlp Ho Hlo Hlc Hf Hn Hr E|s i t s' Ht Hl Hm E|s i t fd en r s' Ht E
    |s i t fd len r s' Ht Hl Hlen E|s i t fd data r s' Ht Hl Hp Hrm E|s i old t Ho Hlo Hsh Hno
    |s i t t' Ht Hsf|s i t Ht Hl];
    try (eapply wp_fd_inv; [|exact E]).
  - eapply wp_fd_close; [done|done|done|]. by intros ? ? [? _].
  - eapply wp_pipe; [done|done|done|]. by intros ? ? [? _].
  - eapply wp_dup2; [done|done|done|done|]. by intros ? ? [? _].
  - eapply wp_fork_child; [|done].
    exact (fork_pre_of s i j old parent child Hi Hj Hlp Ho Hlo Hlc Hf Hn Hr).
  - eapply wp_close_on_exec; [done|done|done|done|]. by intros ? [? _].
  - eapply wp_set_cloexec; [done|done|]. done.
  - eapply wp_read; [done|done|done|done|]. by intros ? ? [? _].
  - eapply wp_write; [done|done|done|done|done|]. by intros ? ? [? _].
  - destruct Hi as [[Htb Hs Hct Hfs] Hlk]. split; [|done]. constructor; simpl; try done.
    + by apply Forall_upd.
    + intros id Hid. rewrite (refs_free _ i old) by done. by apply Hct.
  - destruct Hi as [Hc Hlk]. split; [|done]. by eapply same_fds_core.
  - destruct Hi as [[Htb Hs Hct Hfs] Hlk]. split; [|done]. constructor; simpl; try done.
    + by eapply shape_upd.
    + intros id Hid. etransitivity; [by eapply refs_drop|]. by apply Hct.
Qed.
End wp_ops.


(** ** The abstract pipe

    What a pipe promises to its users: a queue of at most 512 bytes.  A write
    appends as much of the data as fits and answers how much, a read takes bytes
    from the front. *)

Inductive pipe_op := Write (data : list Z) | Read (len : Z).
Inductive pipe_answer := Wrote (n : Z) | Got (n : Z) (bytes : list Z).

Definition queue_step (q : list Z) (op : pipe_op) : pipe_answer * list Z :=
  match op with
  | Write data =>
      let n := Z.min (zlen data) (NM_PIPE_BUF - zlen q) in (Wrote n, q ++ take (Z.to_nat n) data)
  | Read len =>
      let n := Z.min len (zlen q) in (Got n (take (Z.to_nat n) q), drop (Z.to_nat n) q)
  end.

Fixpoint queue_run (q : list Z) (ops : list pipe_op) : list pipe_answer * list Z :=
  match ops with
  | [] => ([], q)
  | op :: ops =>
      let '(a, q1) := queue_step q op in
      let '(l, q2) := queue_run q1 ops in (a :: l, q2)
  end.

Definition op_ok (op : pipe_op) : Prop := match op with Write _ => True | Read len => 0 <= len end.

Section fifo.
Context {F : Type} `{FileSys F}.
Implicit Types (s : fdst F).

(** The same operations through the descriptors [rdfd] and [wrfd] of task [i]. *)
Definition pipe_do (i rdfd wrfd : Z) (op : pipe_op) : M (fdst F) pipe_answer :=
  match op with
  | Write data => n ← nm_fd_write (Some i) wrfd (Some data) (zlen data); mret (Wrote n)
  | Read len => r ← nm_fd_read (Some i) rdfd true len; mret (Got (fst r) (snd r))
  end.

Fixpoint pipe_run (i rdfd wrfd : Z) (ops : list pipe_op) : M (fdst F) (list pipe_answer) :=
  match ops with
  | [] => mret []
  | op :: ops => a ← pipe_do i rdfd wrfd op; l ← pipe_run i rdfd wrfd ops; mret (a :: l)
  end.

(** The two descriptors are the two ends of one pipe, which holds [q]; [n] more
    fillings of the ring fit into the width of its positions. *)
Record holds s (i rdfd wrfd n : Z) (q : list Z) : Prop := mk_holds {
  ho_inv : fd_inv s;
  ho_pipe : exists t rid wid ro wo p, arr (fd_tasks s) i = Some t /\ live t = true /\
    arr (fd_table t) rdfd = Some rid /\ arr (fd_table t) wrfd = Some wid /\
    obj_view s rid = Some ro /\ obj_view s wid = Some wo /\
    kind ro = NM_FDOBJ_PIPE_R /\ kind wo = NM_FDOBJ_PIPE_W /\ pipe_id wo = pipe_id ro /\
    pipe_view s (pipe_id ro) = Some p /\ contents p = q;
  ho_room : forall k p, arr (pipe_table s) k = Some p -> p_used p = true ->
    write_pos p + (n + 1) * NM_PIPE_BUF < 2 ^ 64;
}.

Lemma drop_upto a b n : 0 <= n <= b - a -> drop (Z.to_nat n) (upto a b) = upto (a + n) b.
Proof.
  intros Hn. rewrite (upto_app a (a + n) b) by lia.
  replace (Z.to_nat n) with (length (upto a (a + n)));
    [apply drop_app_length|]. pose proof (zlen_upto a (a + n)). unfold zlen in *. lia.
Qed.

Lemma contents_read p n :
  pipe_wf p -> 0 <= n <= write_pos p - read_pos p ->
  contents (set_read_pos (read_pos p + n) p) = drop (Z.to_nat n) (contents p).
Proof.
  intros Hw Hn. unfold contents. simpl. rewrite <- fmap_drop, drop_upto; [done|lia].
Qed.

Lemma pipe_view_arr s k p : pipe_view s k = Some p -> arr (pipe_table s) k = Some p /\ p_used p = true.
Proof.
  unfold pipe_view. destruct (arr (pipe_table s) k) as [p'|]; simpl; [|done].
  destruct (p_used p') eqn:E; [|done]. by intros [= <-].
Qed.

Lemma pipe_view_upd s s' k p p' :
  pipe_table s' = upd (pipe_table s) k p' -> arr (pipe_table s) k = Some p -> p_used p' = true ->
  pipe_view s' k = Some p'.
Proof.
  intros E Hk Hu. unfold pipe_view. rewrite E, arr_upd_eq by (by eapply arr_range). simpl. by rewrite Hu.
Qed.

(** The descriptor layer simulates the queue, one operation at a time. *)
Lemma fifo_step s i rdfd wrfd n q op :
  holds s i rdfd wrfd n q -> op_ok op -> 1 <= n ->
  wp (pipe_do i rdfd wrfd op) (fun a s' =>
    a = fst (queue_step q op) /\ holds s' i rdfd wrfd (n - 1) (snd (queue_step q op))) s.
Proof.
  intros [Hi (t & rid & wid & ro & wo & p & Ht & Hl & Hr & Hw & Hro & Hwo & Hkr & Hkw & Hid & Hp & <-) Hrm] Hok Hn.
  destruct (pipe_view_arr _ _ _ Hp) as [Hpa Hpu].
  pose proof (tb_pipe _ _ (fc_tables _ (proj1 Hi)) _ _ Hpa) as Hpo.
  destruct (po_ends _ _ _ Hpo Hpu) as (Hwf & _ & _). pose proof (contents_len _ Hwf) as Hcl.
  pose proof (pw_order _ Hwf) as Hord.
  assert (Hstep : forall s' p', fd_inv s' -> fd_tasks s' = fd_tasks s -> fdobj_table s' = fdobj_table s ->
    pipe_table s' = upd (pipe_table s) (pipe_id ro) p' -> p_used p' = true ->
    write_pos p' <= write_pos p + NM_PIPE_BUF -> holds s' i rdfd wrfd (n - 1) (contents p')).
  { intros s' p' Hi' Ets Eob Epi Hu' Hle. constructor; [done| |].
    - exists t, rid, wid, ro, wo, p'. rewrite Ets. unfold obj_view in *. rewrite Eob.
      split_and!; try done. by eapply pipe_view_upd.
    - intros k x. rewrite Epi, arr_upd by (by eapply arr_range). unfold NM_PIPE_BUF in *.
      destruct (Z.eqb_spec (pipe_id ro) k) as [<-|].
      + intros [= <-] _. specialize (Hrm _ _ Hpa Hpu). lia.
      + intros Hx Hxu. specialize (Hrm k x Hx Hxu). lia. }
  destruct op as [data|len]; simpl.
  - wp_step. eapply wp_write; [done| |done|done|..].
    { intros k x Hx Hxu. specialize (Hrm k x Hx Hxu). unfold NM_PIPE_BUF in *. nia. }
    { intros o. rewrite Hw. simpl. rewrite Hwo. intros [= <-]. by rewrite Hkw. }
    intros r s' (Hi' & Ets & Eob & t' & Ht' & Hres). wp_go. assert (t' = t) as -> by congruence.
    rewrite Hw in Hres. simpl in Hres. rewrite Hwo, Hkw in Hres.
    destruct Hres as (p0 & p' & Hp0 & -> & Hwr & Es). rewrite Hid, Hp in Hp0. injection Hp0 as <-.
    split; [done|]. rewrite <- (wo_contents _ _ _ Hwr).
    destruct (wo_ends _ _ _ Hwr) as (_ & _ & Hu'). destruct (wo_pos _ _ _ Hwr) as [_ Hwp].
    apply Hstep; [done|done|done|by rewrite Es, Hid|congruence|]. rewrite Hwp. unfold zlen.
    rewrite length_take. unfold zlen, NM_PIPE_BUF in *. lia.
  - wp_step. eapply wp_read; [done|done|done|done|].
    intros r s' (Hi' & Ets & Eob & t' & Ht' & Hres). wp_go. assert (t' = t) as -> by congruence.
    rewrite Hr in Hres. simpl in Hres. rewrite Hro, Hkr in Hres.
    destruct Hres as (p0 & Hp0 & -> & Es). rewrite Hp in Hp0. injection Hp0 as <-. simpl in Hok.
    split; [done|].
    rewrite <- contents_read by (done || (rewrite Hcl; unfold zlen in *; lia)).
    apply Hstep; [done|done|done|by rewrite Es|done|simpl; unfold NM_PIPE_BUF; lia].
Qed.

Lemma fifo_run ops s i rdfd wrfd n q :
  holds s i rdfd wrfd n q -> Forall op_ok ops -> zlen ops <= n ->
  wp (pipe_run i rdfd wrfd ops) (fun l s' =>
    l = fst (queue_run q ops) /\ holds s' i rdfd wrfd (n - zlen ops) (snd (queue_run q ops))) s.
Proof.
  revert s n q. induction ops as [|op ops IH]; intros s n q Hh Hok Hn; simpl.
  { apply wp_ret. split; [done|]. unfold zlen. simpl. by rewrite Z.sub_0_r. }
  apply Forall_cons in Hok as [Ho Hok]. unfold zlen in Hn. simpl in Hn.
  wp_step. eapply wp_mono; [apply fifo_step; [done|done|lia]|]. intros a s1 [-> Hh1].
  destruct (queue_step q op) as [a1 q1]. simpl in *.
  wp_step. eapply wp_mono; [apply (IH s1 (n - 1) q1); [done|done|unfold zlen; lia]|].
  intros l s2 [-> Hh2]. wp_go. destruct (queue_run q1 ops) as [l2 q2]. simpl in *. split; [done|].
  unfold zlen in *. simpl. by replace (n - Z.of_nat (S (length ops))) with (n - 1 - Z.of_nat (length ops)) by lia.
Qed.
End fifo.

(** ** Properties *)

Section properties.
Context {F : Type} `{FileSys F}.
Implicit Types (s : fdst F).

(** C7: no descriptor ever names a freed object.  From [nm_fd_init] on, after any
    sequence of closes, pipes, dup2s, forks, execs, flag changes, reads, writes,
    spawns, state changes and reaped tasks (as long as no 32-bit count is about
    to overflow and no write takes a file past the limit of the file system), every descriptor of a live task is -1 or names an object in use
    whose reference count is at least the number of descriptors that name it,
    every pipe is in use exactly while it has ends and its reader and writer
    counts are the references to them, and every ring is well formed. *)
Theorem fd_reachable_inv s0 s1 s :
  zlen (pipe_table s0) = NM_PIPE_MAX -> Forall (fun p => zlen (p_buf p) = NM_PIPE_BUF) (pipe_table s0) ->
  zlen (fdobj_table s0) = NM_FDOBJ_MAX -> Forall task_shape (fd_tasks s0) ->
  no_descriptors (fd_tasks s0) -> fs_ok (fd_fs s0) ->
  nm_fd_init s0 = Done tt s1 -> rtc fd_step s1 s -> fd_inv s.
Proof.
  intros Hlp Hb Hlo Hsh Hnd Hfs Hinit Hr.
  assert (Hi : fd_inv s1).
  { eapply wp_fd_inv; [|exact Hinit]. by apply wp_fd_init. }
  clear Hinit. induction Hr as [|s t u Hst Hr IH]; [done|]. apply IH. by eapply fd_step_inv.
Qed.

(** C16: [nm_fd_pipe] on every branch.  Without a task or a place for the answers it
    fails and changes nothing.  It fails exactly for want of a pipe, of two
    free descriptors or of two free objects, and then undoes its partial work: the
    descriptors and everything in use are as before.  Else it answers two
    distinct descriptors that were free, for the ends of an empty pipe that was
    not in use, and touches nothing else. *)
Theorem nm_fd_pipe_spec s task ptrs :
  fd_inv s -> (forall i, task = Some i -> exists t, arr (fd_tasks s) i = Some t /\ live t = true) ->
  wp (nm_fd_pipe task ptrs) (fun r s' =>
    match task, ptrs with
    | Some i, true => pipe_result s i r s'
    | _, _ => r = (NM_ERR NM_EINVAL, None) /\ s' = s
    end) s.
Proof.
  intros Hi Ht. destruct task as [i|]; [destruct ptrs|].
  - destruct (Ht i eq_refl) as (t & Hti & Hl). by eapply wp_pipe.
  - unfold nm_fd_pipe. wp_step. apply wp_fd_lock; [apply Hi|]. cbn [negb]. wp_step. apply wp_fd_unlock.
    rewrite fd_relock by apply Hi. by wp_step.
  - unfold nm_fd_pipe. wp_step. apply wp_fd_lock; [apply Hi|]. wp_step. apply wp_fd_unlock.
    rewrite fd_relock by apply Hi. by wp_step.
Qed.

(** [nm_fd_dup2] on every branch.  Bad descriptors and a free old descriptor
    are errors that change nothing, equal descriptors change nothing; else the
    new descriptor names the old one's object, what it named before loses one
    reference (and is closed when that was the last) and the object gains one,
    the close-on-exec flag of the new descriptor is cleared, and no other
    descriptor changes. *)
Theorem nm_fd_dup2_spec s i t oldfd newfd :
  fd_inv s -> arr (fd_tasks s) i = Some t -> live t = true -> all_room (fdobj_table s) 1 ->
  wp (nm_fd_dup2 (Some i) oldfd newfd) (dup2_result s i oldfd newfd) s.
Proof. intros. by eapply wp_dup2. Qed.

(** [nm_fd_close_on_exec] closes exactly the descriptors of the task that are
    marked close-on-exec, clears all marks, and leaves every other descriptor of
    this and of other tasks alone. *)
Theorem nm_fd_close_on_exec_spec s i t :
  fd_inv s -> arr (fd_tasks s) i = Some t -> live t = true -> 0 <= fd_cloexec_mask t ->
  wp (nm_fd_close_on_exec (Some i)) (fun _ s' => exec_result s i s') s.
Proof. intros. by eapply wp_close_on_exec. Qed.

(** A pipe is made and used through its two descriptors. *)
Definition pipe_session (i : Z) (ops : list pipe_op) : M (fdst F) (option (list pipe_answer)) :=
  r ← nm_fd_pipe (Some i) true;
  match snd r with
  | None => mret None
  | Some (rdfd, wrfd) => l ← pipe_run i rdfd wrfd ops; mret (Some l)
  end.

Lemma made_holds s s' i t rdfd wrfd n :
  fd_inv s' -> arr (fd_tasks s) i = Some t -> live t = true -> pipe_made s s' i rdfd wrfd ->
  0 <= n -> (n + 1) * NM_PIPE_BUF < 2 ^ 64 ->
  (forall k p, arr (pipe_table s) k = Some p -> p_used p = true ->
     write_pos p + (n + 1) * NM_PIPE_BUF < 2 ^ 64) ->
  holds s' i rdfd wrfd n [].
Proof.
  intros Hi Ht Hl [(t' & k & p & id1 & id2 & Ht' & Hne & Hr & Hw & Ets & Hk & Hpu & Epi & Hid & Hv1 & Hv2
    & Hr1 & Hr2 & Eob)] Hn Hmax Hpos.
  assert (t' = t) as -> by congruence. pose proof (arr_range _ _ _ Ht) as Hrt.
  pose proof (arr_range _ _ _ Hr) as Hrr. pose proof (arr_range _ _ _ Hw) as Hrw.
  pose proof (arr_range _ _ _ Hk) as Hrk.
  assert (Hlo : zlen (fdobj_table s) = NM_FDOBJ_MAX).
  { rewrite <- (zlen_upd (fdobj_table s) id1 (new_end NM_FDOBJ_PIPE_R k)).
    rewrite <- (zlen_upd _ id2 (new_end NM_FDOBJ_PIPE_W k)), <- Eob. apply Hi. }
  constructor; [done| |].
  - eexists _, id1, id2, (new_end NM_FDOBJ_PIPE_R k), (new_end NM_FDOBJ_PIPE_W k), (fresh_pipe p).
    rewrite Ets, arr_upd_eq by done. unfold obj_view, pipe_view. rewrite Eob, Epi.
    split_and!; try done.
    + simpl. rewrite arr_upd_ne by done. by apply arr_upd_eq.
    + simpl. apply arr_upd_eq. by rewrite zlen_upd.
    + rewrite arr_upd_ne, arr_upd_eq by (done || lia). done.
    + rewrite arr_upd_eq by (rewrite zlen_upd; lia). done.
    + simpl. by rewrite arr_upd_eq.
  - intros j x. rewrite Epi, arr_upd by done. destruct (Z.eqb_spec k j) as [<-|]; [|by apply Hpos].
    intros [= <-] _. done.
Qed.

(** C8: a pipe is a first-in first-out queue of 512 bytes.  For every sequence of
    writes and reads through the two descriptors that [nm_fd_pipe] answers, each
    call returns what the abstract queue returns: bytes come out once, in the
    order they went in, a write takes as much as there is room for, a read what
    there is. *)
Theorem pipe_refines_queue s i t ops :
  fd_inv s -> arr (fd_tasks s) i = Some t -> live t = true -> Forall op_ok ops ->
  (zlen ops + 1) * NM_PIPE_BUF < 2 ^ 64 ->
  (forall k p, arr (pipe_table s) k = Some p -> p_used p = true ->
     write_pos p + (zlen ops + 1) * NM_PIPE_BUF < 2 ^ 64) ->
  wp (pipe_session i ops) (fun r s' => fd_inv s' /\
    match r with
    | None => same_view s s' /\ shortage s t
    | Some l => l = fst (queue_run [] ops)
    end) s.
Proof.
  intros Hi Ht Hl Hops Hmax Hpos. unfold pipe_session. wp_step. eapply wp_pipe; [done|done|done|].
  intros [e [[rdfd wrfd]|]] s1 (Hi1 & Hres); simpl.
  - destruct Hres as [-> Hmade]. wp_step.
    eapply wp_mono; [apply (fifo_run ops s1 i rdfd wrfd (zlen ops) []); [|done|done]|].
    + eapply made_holds; try done. unfold zlen. lia.
    + intros l s2 [-> Hh]. wp_go. split; [apply Hh|done].
  - destruct Hres as (_ & Hv & t' & Ht' & Hs). wp_go. split; [done|].
    split; [done|]. assert (t' = t) as -> by congruence. done.
Qed.

(** A reaped task's open objects are never given back.  Waiting for a task
    that still has a descriptor open frees its slot without closing it, so that
    afterwards the object's reference count exceeds the number of descriptors of
    live tasks that name it, and closing those can not bring it to zero. *)
Theorem reap_leaks_objects s i t fd id :
  fd_inv s -> arr (fd_tasks s) i = Some t -> live t = true ->
  arr (fd_table t) fd = Some id -> id <> -1 ->
  let s' := set_fd_tasks (upd (fd_tasks s) i (reap t)) s in
  fd_inv s' /\ refs (fd_tasks s') id < refcnt_of (fdobj_table s') id.
Proof.
  intros Hi Ht Hl Hfd Hid. split; [eapply fd_step_inv; [done|by apply (fds_reap s i t)]|].
  destruct Hi as [Hc _]. pose proof (fc_counted _ Hc id Hid) as Hle. simpl.
  assert (Hlt : refs (upd (fd_tasks s) i (reap t)) id < refs (fd_tasks s) id); [|lia].
  unfold refs. rewrite (sumZ_upd _ _ _ _ _ Ht), Hl. simpl.
  assert (Hp : 0 < countb (fun x => x =? id) (fd_table t)); [|lia].
  apply countb_pos. exists id. split; [by eapply arr_elem|apply Z.eqb_refl].
Qed.
End properties.

(** *** A concrete machine *)

(** A file system with no file. *)
#[export, refine] Instance no_files : FileSys unit := {
  fs_read := fun _ _ => mret (NM_ERR NM_EFAIL, []);
  fs_write := fun _ _ _ => mret (NM_ERR NM_EFAIL);
  fs_close := fun _ => mret (NM_ERR NM_EFAIL);
  fs_ok := fun _ => True;
  fs_room := fun _ _ => True;
}.
Proof.
  - intros. apply wp_ret. split; [done|done].
  - intros. apply wp_ret. split; [done|unfold NM_ERR, NM_EFAIL; lia].
  - intros. apply wp_ret. done.
Defined.

Definition task_run : nm_task :=
  set_fd_table (replicate 32 (-1)) (set_state NM_TASK_RUNNING (set_pid 1 task0)).
Definition fd0 : fdst unit :=
  mk_fdst [task_run; task0] (replicate 16 (mk_pipe false (replicate 512 0) 0 0 0 0))
    (replicate 128 (mk_obj false 0 NM_FDOBJ_NONE 0 0)) 0 tt.
Definition fd1 : fdst unit := Eval vm_compute in
  match nm_fd_init fd0 with Done _ s => s | Stuck _ => fd0 end.
(** After a pipe was made, and its write end marked close-on-exec. *)
Definition fd2 : fdst unit := Eval vm_compute in
  match (nm_fd_pipe (Some 0) true ;; nm_fd_set_cloexec (Some 0) 1 true) fd1 with
  | Done _ s => s
  | Stuck _ => fd0
  end.

Lemma fd0_no_descriptors : no_descriptors (fd_tasks fd0).
Proof.
  intros id Hid. apply sumZ_zero. intros t [->|[->|Hin]%elem_of_cons]%elem_of_cons;
    [|done|by apply elem_of_nil in Hin].
  change (countb (fun x => x =? id) (replicate 32 (-1)) = 0). apply countb_none.
  intros x [-> _]%elem_of_replicate. apply Z.eqb_neq. lia.
Qed.

Lemma fd0_shape : Forall task_shape (fd_tasks fd0).
Proof. by repeat constructor. Qed.

Lemma fd1_init : nm_fd_init fd0 = Done tt fd1.
Proof. vm_compute. reflexivity. Qed.

Lemma fd0_bufs : Forall (fun p => zlen (p_buf p) = NM_PIPE_BUF) (pipe_table fd0).
Proof. by apply Forall_replicate. Qed.

Lemma fd1_inv : fd_inv fd1.
Proof.
  eapply wp_fd_inv; [|exact fd1_init]. apply wp_fd_init;
    [done|exact fd0_bufs|done|exact fd0_shape|exact fd0_no_descriptors|done|done].
Qed.

Lemma fd2_inv : fd_inv fd2.
Proof.
  eapply (wp_fd_inv (nm_fd_pipe (Some 0) true ;; nm_fd_set_cloexec (Some 0) 1 true) fd1 0);
    [|vm_compute; reflexivity].
  wp_step. eapply wp_pipe; [exact fd1_inv|reflexivity|done|]. intros [e [[a b]|]] s [Hs Hr].
  - destruct Hr as [_ [(t & k & p & id1 & id2 & Ht & _ & _ & _ & Ets & _)]].
    eapply wp_set_cloexec; [exact Hs| |done]. rewrite Ets. apply arr_upd_eq. by eapply arr_range.
  - destruct Hr as (_ & (Ets & _) & _). eapply wp_set_cloexec; [exact Hs| |done]. by rewrite Ets.
Qed.

(** After a pipe was made and its read end closed. *)
Definition fd_piped : fdst unit := Eval vm_compute in match nm_fd_pipe (Some 0) true fd1 with Done _ s => s | Stuck _ => fd0 end.
Definition fd_closed : fdst unit := Eval vm_compute in match nm_fd_close (Some 0) 0 fd_piped with Done _ s => s | Stuck _ => fd0 end.

Lemma fd_reachable_witness : rtc fd_step fd1 fd_closed /\ fd_inv fd_closed.
Proof.
  assert (Hst : rtc fd_step fd1 fd_closed).
  { eapply rtc_l; [eapply (fds_pipe fd1 0 task_run (0, Some (0, 1)) fd_piped); [reflexivity|reflexivity|vm_compute; reflexivity]|].
    apply rtc_once. eapply (fds_close fd_piped 0 _ 0 0); [reflexivity|reflexivity|vm_compute; reflexivity]. }
  split; [exact Hst|].
  apply (fd_reachable_inv fd0 fd1 fd_closed);
    [reflexivity|exact fd0_bufs|reflexivity|exact fd0_shape|exact fd0_no_descriptors|exact I|exact fd1_init|exact Hst].
Defined.

Lemma nm_fd_pipe_witness : fd_inv fd1 /\ wp (nm_fd_pipe (Some 0) true) (pipe_result fd1 0) fd1.
Proof.
  split; [exact fd1_inv|].
  apply (nm_fd_pipe_spec fd1 (Some 0) true); [exact fd1_inv|]. intros i [= <-]. by exists task_run.
Defined.

Lemma fd2_room : all_room (fdobj_table fd2) 1.
Proof.
  intros id o Ho Hu.
  assert (Hall : Forall (fun o => refcnt o < 10 /\ (pipe_id o = -1 \/ pipe_id o = 0)) (fdobj_table fd2))
    by (by apply (bool_decide_eq_true_1 _); vm_compute; reflexivity).
  destruct (Forall_arr _ _ id o Hall Ho) as [Hr Hp]. split; [lia|].
  intros kd. destruct Hp as [->| ->], kd; vm_compute; reflexivity.
Qed.

Lemma nm_fd_dup2_witness :
  exists t, arr (fd_tasks fd2) 0 = Some t /\ wp (nm_fd_dup2 (Some 0) 0 5) (dup2_result fd2 0 0 5) fd2.
Proof.
  eexists. split; [reflexivity|].
  eapply (nm_fd_dup2_spec fd2 0 _ 0 5); [exact fd2_inv|reflexivity|reflexivity|exact fd2_room].
Defined.

Lemma nm_fd_close_on_exec_witness :
  exists t, arr (fd_tasks fd2) 0 = Some t /\ fd_cloexec_mask t = 2 /\
  wp (nm_fd_close_on_exec (Some 0)) (fun _ s' => exec_result fd2 0 s') fd2.
Proof.
  eexists. split; [reflexivity|]. split; [reflexivity|].
  eapply (nm_fd_close_on_exec_spec fd2 0 _); [exact fd2_inv|reflexivity|reflexivity|vm_compute; discriminate].
Defined.

Lemma pipe_refines_queue_witness :
  wp (pipe_session 0 [Write [1; 2; 3]; Read 2; Write [4]; Read 9]) (fun r s' => fd_inv s' /\
    match r with
    | None => same_view fd1 s' /\ shortage fd1 task_run
    | Some l => l = fst (queue_run [] [Write [1; 2; 3]; Read 2; Write [4]; Read 9])
    end) fd1.
Proof.
  apply (pipe_refines_queue fd1 0 task_run [Write [1; 2; 3]; Read 2; Write [4]; Read 9]);
    [exact fd1_inv|reflexivity|reflexivity| |vm_compute; reflexivity|].
  - repeat constructor; simpl; lia.
  - intros k p Hk Hu.
    assert (Hall : Forall (fun p => p_used p = false) (pipe_table fd1))
      by (by apply (bool_decide_eq_true_1 _); vm_compute; reflexivity).
    rewrite (Forall_arr _ _ k p Hall Hk) in Hu. done.
Defined.

Lemma reap_leaks_witness :
  exists t, arr (fd_tasks fd2) 0 = Some t /\ arr (fd_table t) 0 = Some 0 /\
  let s' := set_fd_tasks (upd (fd_tasks fd2) 0 (reap t)) fd2 in
  fd_inv s' /\ refs (fd_tasks s') 0 < refcnt_of (fdobj_table s') 0.
Proof.
  eexists. split; [reflexivity|]. split; [reflexivity|].
  eapply (reap_leaks_objects fd2 0 _ 0 0); [exact fd2_inv|reflexivity|reflexivity|reflexivity|discriminate].
Defined.

End Fd.
