(* ===== verification/Ring.v ===== *)
(** * Circular buffers

    The kernel log and the queue of deferred interrupt work keep their items in
    an array of [N] slots between a start index [a] and an end index [b], both
    below [N]; the buffer is empty when they are equal, so it holds at most
    [N - 1] items.  The lemmas here are shared by both. *)

From S2P Require Import Prelude.

Module Ring.

Section ring.
Context {A : Type} (d : A) (N : Z).
Implicit Types (l : list A) (a b : Z).

Definition span a b : Z := (b - a) `mod` N.
Definition slot l i : A := default d (arr l (i `mod` N)).
Definition items l a b : list A := slot l <$> upto a (a + span a b).

(** The indices are in range and the array has [N] slots. *)
Record ring_ok l a b : Prop := mk_ring_ok {
  ro_size : 1 < N;
  ro_len : zlen l = N;
  ro_a : 0 <= a < N;
  ro_b : 0 <= b < N;
}.

Lemma span_range a b : 1 < N -> 0 <= span a b < N.
Proof. intros. apply Z.mod_pos_bound. lia. Qed.

Lemma items_len l a b : 1 < N -> zlen (items l a b) = span a b.
Proof.
  intros Hn. unfold items, zlen. rewrite length_fmap. pose proof (span_range a b Hn).
  etransitivity; [apply zlen_upto; lia|lia].
Qed.

Lemma span_empty a b : 0 <= a < N -> 0 <= b < N -> span a b = 0 <-> a = b.
Proof.
  intros Ha Hb. unfold span. split; [|intros ->; by rewrite Z.sub_diag].
  intros E. apply Z.mod_divide in E as [q Hq]; [|lia]. assert (q = 0) by nia. subst q. lia.
Qed.

Lemma items_empty l a : items l a a = [].
Proof. unfold items, span. rewrite Z.sub_diag. simpl. by rewrite Z.add_0_r, upto_nil by lia. Qed.

Lemma next_span a b :
  0 <= a < N -> 0 <= b < N -> (b + 1) `mod` N <> a -> span a ((b + 1) `mod` N) = span a b + 1.
Proof.
  intros Ha Hb Hne. unfold span in *. rewrite Zminus_mod_idemp_l.
  pose proof (Z.mod_pos_bound (b - a) N ltac:(lia)) as Hr.
  replace (b + 1 - a) with (b - a + 1) by lia. rewrite <- Zplus_mod_idemp_l.
  destruct (decide ((b - a) `mod` N + 1 = N)) as [E|]; [|rewrite Z.mod_small; lia].
  exfalso. apply Hne. symmetry. apply (span_empty a); [lia|apply Z.mod_pos_bound; lia|].
  unfold span. rewrite Zminus_mod_idemp_l. replace (b + 1 - a) with (b - a + 1) by lia.
  rewrite <- Zplus_mod_idemp_l, E. apply Z.mod_same. lia.
Qed.

Lemma slot_other l a b i x :
  ring_ok l a b -> a <= i < a + span a b -> slot (upd l b x) i = slot l i.
Proof.
  intros [Hn Hl Ha Hb] Hi. unfold slot. rewrite arr_upd_ne; [done|]. intros E.
  assert (Hz : (b - i) `mod` N = 0).
  { rewrite Zminus_mod, <- E, (Z.mod_small b), Z.sub_diag by lia. apply Z.mod_0_l. lia. }
  pose proof (span_range a b Hn) as Hr.
  assert (Hs : (b - i) `mod` N = (span a b - (i - a)) `mod` N).
  { unfold span. rewrite Zminus_mod_idemp_l. f_equal. lia. }
  rewrite Hs, Z.mod_small in Hz by lia. lia.
Qed.

(** An item added at the end. *)
Lemma items_push l a b x :
  ring_ok l a b -> (b + 1) `mod` N <> a ->
  items (upd l b x) a ((b + 1) `mod` N) = items l a b ++ [x].
Proof.
  intros Hok Hne. pose proof Hok as [Hn Hl Ha Hb]. unfold items. rewrite next_span by done.
  pose proof (span_range a b Hn) as Hr.
  rewrite (upto_app a (a + span a b)) by lia. rewrite fmap_app. f_equal.
  - apply list_fmap_ext. intros k i Hi%list_elem_of_lookup_2. apply elem_of_upto in Hi.
    by eapply slot_other.
  - rewrite upto_cons, upto_nil by lia. simpl. f_equal. unfold slot, span.
    rewrite Zplus_mod_idemp_r. replace (a + (b - a)) with b by lia.
    by rewrite Z.mod_small, arr_upd_eq by lia.
Qed.

(** The first item taken off. *)
Lemma items_pop l a b :
  ring_ok l a b -> a <> b -> items l a b = slot l a :: items l ((a + 1) `mod` N) b.
Proof.
  intros [Hn Hl Ha Hb] Hne. unfold items.
  assert (Hpos : 0 < span a b).
  { pose proof (span_range a b Hn). pose proof (span_empty a b Ha Hb). lia. }
  rewrite upto_cons by lia. simpl. f_equal.
  assert (Hs : span ((a + 1) `mod` N) b = span a b - 1).
  { unfold span. rewrite Zminus_mod_idemp_r. replace (b - (a + 1)) with (b - a - 1) by lia.
    rewrite <- Zminus_mod_idemp_l. apply Z.mod_small. pose proof (span_range a b Hn). unfold span in *. lia. }
  rewrite Hs. apply list_eq. intros k. rewrite !list_lookup_fmap. unfold upto.
  destruct (decide (Z.of_nat k < span a b - 1)) as [Hk|Hk].
  - rewrite !lookup_seqZ_lt by lia. simpl. f_equal. unfold slot. f_equal. f_equal.
    by rewrite Zplus_mod_idemp_l.
  - rewrite !lookup_seqZ_ge by lia. done.
Qed.

Lemma ring_push_ok l a b x : ring_ok l a b -> ring_ok (upd l b x) a ((b + 1) `mod` N).
Proof. intros [Hn Hl Ha Hb]. constructor; [done|by rewrite zlen_upd|done|apply Z.mod_pos_bound; lia]. Qed.

Lemma ring_pop_ok l a b : ring_ok l a b -> ring_ok l ((a + 1) `mod` N) b.
Proof. intros [Hn Hl Ha Hb]. constructor; [done|done|apply Z.mod_pos_bound; lia|done]. Qed.

Lemma slot_arr l a b : ring_ok l a b -> arr l a = Some (slot l a).
Proof.
  intros [Hn Hl Ha Hb]. unfold slot. rewrite Z.mod_small by lia.
  destruct (arr_lookup l a) as [x Hx]; [lia|]. by rewrite Hx.
Qed.

(** When the end meets the start the buffer was full. *)
Lemma full_span a b : 0 <= a < N -> 0 <= b < N -> (b + 1) `mod` N = a -> span a b = N - 1.
Proof.
  intros Ha Hb <-. unfold span. rewrite Zminus_mod_idemp_r. replace (b - (b + 1)) with (-1) by lia.
  rewrite <- (Z_mod_plus_full (-1) 1 N), Z.mod_small; lia.
Qed.
End ring.

(** The last [n] elements of a list. *)
Definition lastn {A} (n : Z) (l : list A) : list A := drop (Z.to_nat (zlen l - n)) l.

Lemma lastn_short {A} n (l : list A) : zlen l <= n -> lastn n l = l.
Proof. intros. unfold lastn. replace (Z.to_nat (zlen l - n)) with O by lia. done. Qed.

Lemma lastn_len {A} n (l : list A) : 0 <= n -> zlen (lastn n l) = Z.min n (zlen l).
Proof. intros. unfold lastn, zlen in *. rewrite length_drop. lia. Qed.

Lemma lastn_snoc {A} n (l : list A) x :
  0 < n -> lastn n (lastn n l ++ [x]) = lastn n (l ++ [x]).
Proof.
  intros Hn. unfold lastn. unfold zlen. rewrite !length_app, length_drop. simpl.
  destruct (decide (Z.of_nat (length l) <= n)) as [Hle|Hgt].
  - replace (Z.to_nat (Z.of_nat (length l) - n)) with O by lia. simpl. do 2 f_equal. lia.
  - rewrite !drop_app. rewrite drop_drop, length_drop.
    f_equal; [f_equal; lia|]. f_equal. lia.
Qed.

End Ring.
