(* ===== verification/Klog.v ===== *)
(** * Kernel log ([kernel/klog.c])

    A ring of 8192 characters that overwrites the oldest ones, and the copy that
    [klog_read] makes of it. *)

From S2P Require Import Prelude Ring.
From Stdlib Require Import String.
Import Ring.

Module Klog.

Definition KLOG_CAP : Z := 8192.

Record klog := mk_klog { ring : list Z; head : Z; tail : Z; ready : bool }.

Definition set_ring v k := mk_klog v (head k) (tail k) (ready k).
Definition set_head v k := mk_klog (ring k) v (tail k) (ready k).
Definition set_tail v k := mk_klog (ring k) (head k) v (ready k).
Definition set_ready v k := mk_klog (ring k) (head k) (tail k) v.

Definition klog_init : M klog unit :=
  modify (set_head 0) ;; modify (set_tail 0) ;; modify (set_ready true).

Definition klog_putc (c : Z) : M klog unit :=
  r ← gets ready;
  if negb r then mret tt else
  h ← gets head;
  wr ring set_ring h c ;;
  modify (set_head (u64 (h + 1) `mod` KLOG_CAP)) ;;
  h ← gets head;
  t ← gets tail;
  if h =? t then modify (set_tail (u64 (t + 1) `mod` KLOG_CAP)) else mret tt.

Fixpoint put_chars (cs : list Z) : M klog unit :=
  match cs with
  | [] => mret tt
  | c :: cs => klog_putc c ;; put_chars cs
  end.

Definition klog_write (msg : option cstring) : M klog unit :=
  match msg with
  | None => mret tt
  | Some m => put_chars (cs_chars m)
  end.

(** The loop of [klog_read]: the characters from [p] on; [n] are copied. *)
Fixpoint read_loop (fuel : nat) (p n cap : Z) : M klog (list Z) :=
  h ← gets head;
  if negb (p =? h) && (n + 1 <? cap) then
    match fuel with
    | O => stuck OutOfFuel
    | S fuel =>
        c ← rd ring p;
        rest ← read_loop fuel (u64 (p + 1) `mod` KLOG_CAP) (n + 1) cap;
        mret (c :: rest)
    end
  else mret [].

(** The return value, with what is stored to [out] (nothing if it is empty). *)
Definition klog_read (out : bool) (cap : Z) : M klog (Z * list Z) :=
  r ← gets ready;
  if negb r || negb out || (cap =? 0) then mret (0, []) else
  t ← gets tail;
  cs ← read_loop (Z.to_nat KLOG_CAP) t 0 cap;
  mret (zlen cs, cs ++ [0]).

(** ** Specification *)

Definition log_of (k : klog) : list Z := items 0 KLOG_CAP (ring k) (tail k) (head k).

(** The log holds the last 8191 of the characters [cs] put since the start. *)
Record logged (k : klog) (cs : list Z) : Prop := mk_logged {
  lg_ready : ready k = true;
  lg_ring : ring_ok KLOG_CAP (ring k) (tail k) (head k);
  lg_log : log_of k = lastn (KLOG_CAP - 1) cs;
}.

Lemma idx_next i : 0 <= i < KLOG_CAP -> u64 (i + 1) `mod` KLOG_CAP = (i + 1) `mod` KLOG_CAP.
Proof. intros. by rewrite u64_small by (unfold KLOG_CAP in *; lia). Qed.

Lemma wp_putc k cs c (Q : unit -> klog -> Prop) :
  logged k cs -> (forall k', logged k' (cs ++ [c]) -> Q tt k') -> wp (klog_putc c) Q k.
Proof.
  intros [Hr Hok Hlog] HQ. pose proof Hok as [_ Hlen Ht Hh]. unfold klog_putc. do 2 wp_step.
  rewrite Hr. simpl negb. cbv iota. do 2 wp_step. wp_step.
  apply wp_wr; [lia|]. do 2 wp_step. rewrite idx_next by done. do 4 wp_step. simpl.
  set (h' := (head k + 1) `mod` KLOG_CAP).
  pose proof (ring_push_ok _ _ _ _ c Hok) as Hok'. fold h' in Hok'.
  assert (Hll : zlen (log_of k) = span KLOG_CAP (tail k) (head k)) by (by apply items_len).
  pose proof (span_range KLOG_CAP (tail k) (head k) ltac:(done)) as Hsr.
  assert (Hsn : lastn (KLOG_CAP - 1) (cs ++ [c]) = lastn (KLOG_CAP - 1) (log_of k ++ [c])).
  { rewrite Hlog. symmetry. by apply lastn_snoc. }
  destruct (Z.eqb_spec h' (tail k)) as [E|Hne].
  - apply wp_modify. rewrite idx_next by done. apply HQ.
    constructor; simpl; [done|by apply ring_pop_ok|]. rewrite Hsn. unfold log_of. simpl.
    assert (Hfull : span KLOG_CAP (tail k) (head k) = KLOG_CAP - 1) by (by apply full_span).
    assert (Hpop : items 0 KLOG_CAP (ring k) (tail k) (head k) =
      slot 0 KLOG_CAP (ring k) (tail k) :: items 0 KLOG_CAP (ring k) ((tail k + 1) `mod` KLOG_CAP) (head k)).
    { apply items_pop; [done|]. intros E2. pose proof (proj2 (span_empty KLOG_CAP _ _ Ht Hh) E2).
      unfold KLOG_CAP in *. lia. }
    rewrite Hpop. unfold lastn. unfold log_of in Hll. rewrite Hpop in Hll.
    unfold zlen in *. simpl in *. rewrite length_app. simpl.
    replace (Z.to_nat _) with 1%nat by lia. simpl.
    change h' with ((head k + 1) `mod` KLOG_CAP). apply items_push; [by apply ring_pop_ok|].
    fold h'. rewrite E. intros E3. unfold KLOG_CAP in *. Z.to_euclidean_division_equations. lia.
  - apply wp_ret, HQ. constructor; simpl; [done|done|]. rewrite Hsn. unfold log_of. simpl.
    unfold h'. rewrite items_push by done. fold (log_of k). rewrite lastn_short; [done|].
    unfold zlen in *. rewrite length_app. simpl.
    assert (span KLOG_CAP (tail k) (head k) + 1 = span KLOG_CAP (tail k) h') as Hsp
      by (symmetry; by apply next_span).
    pose proof (span_range KLOG_CAP (tail k) h' ltac:(done)). lia.
Qed.

Lemma wp_put_chars l k cs (Q : unit -> klog -> Prop) :
  logged k cs -> (forall k', logged k' (cs ++ l) -> Q tt k') -> wp (put_chars l) Q k.
Proof.
  revert k cs. induction l as [|c l IH]; intros k cs Hk HQ; simpl.
  - apply wp_ret, HQ. by rewrite app_nil_r.
  - wp_step. eapply wp_putc; [done|]. intros k' Hk'. eapply IH; [done|].
    intros k2. rewrite <- app_assoc. apply HQ.
Qed.

(** The copy: characters from index [p], which is in the log, up to the room. *)
Lemma wp_klog_read_loop fuel k p n cap (Q : list Z -> klog -> Prop) :
  ring_ok KLOG_CAP (ring k) p (head k) -> span KLOG_CAP p (head k) <= Z.of_nat fuel ->
  0 <= n -> n + 1 <= cap ->
  Q (take (Z.to_nat (cap - 1 - n)) (items 0 KLOG_CAP (ring k) p (head k))) k ->
  wp (read_loop fuel p n cap) Q k.
Proof.
  revert p n Q. induction fuel as [|fuel IH]; intros p n Q Hok Hf Hn Hc HQ; simpl; wp_step; wp_step;
    pose proof Hok as [_ Hlen Hp Hh]; pose proof (span_range KLOG_CAP p (head k) ltac:(done)) as Hsr;
    (destruct (Z.eqb_spec p (head k)) as [->|Hne];
      [simpl; apply wp_ret; by rewrite items_empty, take_nil in HQ|]); simpl;
    (destruct (Z.ltb_spec (n + 1) cap) as [Hlt|Hge];
      [|apply wp_ret; by replace (Z.to_nat (cap - 1 - n)) with O in HQ by lia]).
  - exfalso. apply Hne, (span_empty KLOG_CAP); [done|done|lia].
  - assert (Hpop := items_pop 0 KLOG_CAP _ _ _ Hok Hne).
    wp_step. eapply wp_rd; [by eapply slot_arr|]. rewrite idx_next by done. wp_step.
    apply IH; [by apply ring_pop_ok| |lia|lia|].
    + assert (Hl1 : zlen (items 0 KLOG_CAP (ring k) p (head k)) = span KLOG_CAP p (head k)) by (by apply items_len).
      rewrite Hpop in Hl1. rewrite <- (items_len 0 KLOG_CAP (ring k)) by done. unfold zlen in *. simpl in Hl1. lia.
    + wp_go. rewrite Hpop in HQ. replace (Z.to_nat (cap - 1 - n)) with (S (Z.to_nat (cap - 1 - (n + 1)))) in HQ by lia.
      exact HQ.
Qed.

(** A session: the log is started, messages are written, and it is read. *)
Definition session (msgs : list cstring) (cap : Z) : M klog (Z * list Z) :=
  klog_init ;;
  foldr (fun m k => klog_write (Some m) ;; k) (mret tt) msgs ;;
  klog_read true cap.

Definition all_chars (msgs : list cstring) : list Z := mjoin (cs_chars <$> msgs).

Lemma wp_writes msgs k cs (Q : unit -> klog -> Prop) :
  logged k cs -> (forall k', logged k' (cs ++ all_chars msgs) -> Q tt k') ->
  wp (foldr (fun m k => klog_write (Some m) ;; k) (mret tt) msgs) Q k.
Proof.
  revert k cs. induction msgs as [|m msgs IH]; intros k cs Hk HQ; simpl.
  - apply wp_ret, HQ. unfold all_chars. simpl. by rewrite app_nil_r.
  - wp_step. eapply wp_put_chars; [done|]. intros k' Hk'. eapply IH; [done|].
    intros k2. rewrite <- app_assoc. apply HQ.
Qed.

(** ** Properties *)

(** The log keeps the newest text.  After [klog_init] and any sequence of
    messages, a read with room for [cap] characters answers the oldest
    [cap - 1] of the last 8191 characters written, in order, followed by a NUL,
    and its length; it terminates, stays inside the ring, and takes nothing out
    of the log. *)
Theorem klog_keeps_newest k msgs cap :
  zlen (ring k) = KLOG_CAP -> 0 < cap ->
  wp (session msgs cap) (fun r k' =>
    let text := take (Z.to_nat (cap - 1)) (lastn (KLOG_CAP - 1) (all_chars msgs)) in
    r = (zlen text, text ++ [0]) /\ logged k' (all_chars msgs)) k.
Proof.
  intros Hl Hc. unfold session, klog_init. wp_go.
  eapply (wp_writes msgs _ []).
  { constructor; simpl; [done| |]; [by constructor|]. unfold log_of. simpl. by rewrite items_empty. }
  intros k' Hk'. simpl in Hk'. pose proof Hk' as [Hr Hok Hlog]. unfold klog_read. wp_step. wp_step.
  rewrite Hr. cbn [negb orb]. destruct (Z.eqb_spec cap 0); [lia|]. wp_step. wp_step. wp_step.
  apply wp_klog_read_loop; [done| |lia|lia|].
  - pose proof (span_range KLOG_CAP (tail k') (head k') ltac:(done)). unfold KLOG_CAP in *. lia.
  - wp_go. fold (log_of k'). rewrite Hlog, Z.sub_0_r. done.
Qed.

Definition klog0 : klog := mk_klog (replicate (Z.to_nat 8192) 0) 17 4 false.

Lemma klog_keeps_newest_witness :
  wp (session [mk_cstr 1 (chars "boot"); mk_cstr 2 (chars " ok")] 6) (fun r k' =>
    let msgs := [mk_cstr 1 (chars "boot"); mk_cstr 2 (chars " ok")] in
    let text := take (Z.to_nat (6 - 1)) (lastn (KLOG_CAP - 1) (all_chars msgs)) in
    r = (zlen text, text ++ [0]) /\ logged k' (all_chars msgs)) klog0.
Proof.
  apply (klog_keeps_newest klog0 [mk_cstr 1 (chars "boot"); mk_cstr 2 (chars " ok")] 6).
  - vm_compute. reflexivity.
  - lia.
Defined.

End Klog.
