(* ===== verification/Ports.v ===== *)
(** * Port input and output ([include/nm/io.h])

    The devices behind the ports are a parameter: a type [D] of device states with
    what reading and writing a port does ([PortIO]).  What a driver relies on of
    its device is a class of its own, stated next to the driver. *)

From S2P Require Import Prelude.

Class PortIO (D : Type) := {
  port_in : Z -> D -> Z * D;
  port_out : Z -> Z -> D -> D;

  port_in_byte p d : is_byte (port_in p d).1;
}.

Module Ports.

Section ops.
Context {D : Type} `{PortIO D}.
Implicit Types (d : D).

Definition outb (port value : Z) : M D unit := modify (port_out (u16 port) (u8 value)).

Definition inb (port : Z) : M D Z := fun d => let r := port_in (u16 port) d in Done r.1 r.2.

Definition io_wait : M D unit := outb 0x80 0.

Lemma wp_outb port value (Q : unit -> D -> Prop) d :
  Q tt (port_out (u16 port) (u8 value) d) -> wp (outb port value) Q d.
Proof. done. Qed.

Lemma wp_inb port (Q : Z -> D -> Prop) d :
  (forall v d', port_in (u16 port) d = (v, d') -> is_byte v -> Q v d') -> wp (inb port) Q d.
Proof. intros HQ. pose proof (port_in_byte (u16 port) d). unfold wp, inb. destruct (port_in _ d) as [v d'] eqn:E. by apply HQ. Qed.

(** Accesses to ports in [P] only. *)
Definition access (P : Z -> Prop) : relation D := fun d d' =>
  exists p, P p /\ (d' = (port_in p d).2 \/ exists v, d' = port_out p v d).
Definition via (P : Z -> Prop) : relation D := rtc (access P).

Lemma keeps_inb (P : Z -> Prop) p : P (u16 p) -> keeps (via P) (inb p).
Proof. intros Hp d v d' E. unfold inb in E. injection E as _ <-. apply rtc_once. exists (u16 p). auto. Qed.

Lemma keeps_outb (P : Z -> Prop) p v : P (u16 p) -> keeps (via P) (outb p v).
Proof. intros Hp. apply keeps_modify. intros d. apply rtc_once. exists (u16 p). split; [done|]. right. eauto. Qed.

(** What no port of [P] changes. *)
Lemma via_same {A} (P : Z -> Prop) (f : D -> A) d d' :
  (forall p d, P p -> f (port_in p d).2 = f d) -> (forall p v d, P p -> f (port_out p v d) = f d) -> via P d d' -> f d' = f d.
Proof.
  intros Hin Hout Hv. induction Hv as [|d1 d2 d3 (p & Hp & [-> |[v ->]]) _ IH]; [done|by rewrite IH, Hin|by rewrite IH, Hout].
Qed.

(** A run of writes. *)
Fixpoint outs (ws : list (Z * Z)) : M D unit :=
  match ws with [] => mret tt | w :: ws => outb w.1 w.2 ;; outs ws end.
End ops.

Lemma u8_small x : 0 <= x < 256 -> u8 x = x.
Proof. apply Z.mod_small. Qed.

Lemma u8_byte x : is_byte (u8 x).
Proof. apply Z.mod_pos_bound. lia. Qed.

Lemma u16_small x : 0 <= x < 65536 -> u16 x = x.
Proof. apply Z.mod_small. Qed.

End Ports.
