(* ===== verification/Console.v ===== *)
(** * Console ([kernel/console.c], with the numbers of [kernel/exceptions.c] and
    [kernel/kmain.c])

    Text goes to three places: the log of [Klog], the serial line, and the text
    screen of 80 columns and 25 rows.  The serial line is any device that keeps
    the class [Uart]; the screen is the memory it shows. *)

From S2P Require Import Prelude Ports Ring Klog.
From Stdlib Require Import String.
Import Ports.

(** What the console relies on of the serial controller (a 16550): the line
    control register reads back, bit 7 of it switches the data port to the
    divisor, the status register says when the transmitter takes a character,
    which it does after a number of reads, and a character written then is sent. *)
Class Uart (D : Type) `{PortIO D} := {
  lcr : D -> Z;
  sent : D -> list Z;
  thr_empty : D -> Prop;
  thr_wait : D -> nat;

  lsr_read d : let r := port_in 0x3FD d in
    lcr r.2 = lcr d /\ sent r.2 = sent d /\
    (if Z.land r.1 0x20 =? 0 then (thr_wait r.2 < thr_wait d)%nat else thr_empty r.2);
  lcr_write v d : lcr (port_out 0x3FB v d) = v /\ sent (port_out 0x3FB v d) = sent d;
  ctl_write p v d : p = 0x3F9 \/ p = 0x3FA \/ p = 0x3FC ->
    lcr (port_out p v d) = lcr d /\ sent (port_out p v d) = sent d;
  divisor_write v d : Z.testbit (lcr d) 7 = true ->
    lcr (port_out 0x3F8 v d) = lcr d /\ sent (port_out 0x3F8 v d) = sent d;
  thr_write v d : Z.testbit (lcr d) 7 = false -> thr_empty d ->
    lcr (port_out 0x3F8 v d) = lcr d /\ sent (port_out 0x3F8 v d) = sent d ++ [v];
}.

Module Console.

Definition COM1 : Z := 0x3F8.
Definition VGA_COLS : Z := 80.
Definition VGA_ROWS : Z := 25.
Definition NEWLINE : Z := 10.

(** ** The screen *)

Record vga := mk_vga { vga_mem : list Z; vga_row : Z; vga_col : Z; vga_attr : Z }.

Definition set_mem v s := mk_vga v (vga_row s) (vga_col s) (vga_attr s).
Definition set_row v s := mk_vga (vga_mem s) v (vga_col s) (vga_attr s).
Definition set_col v s := mk_vga (vga_mem s) (vga_row s) v (vga_attr s).

(** A cell of the screen: the attribute above the character. *)
Definition cell (attr c : Z) : Z := u16 (Z.lor (Z.shiftl attr 8) (u8 c)).
Definition SPACE : Z := 32.

Definition vga_scroll : M vga unit :=
  row ← gets vga_row;
  if row <? VGA_ROWS then mret tt else
  for_all (upto 1 VGA_ROWS) (fun r =>
    for_all (upto 0 VGA_COLS) (fun c =>
      x ← rd vga_mem (r * VGA_COLS + c);
      wr vga_mem set_mem ((r - 1) * VGA_COLS + c) x)) ;;
  for_all (upto 0 VGA_COLS) (fun c =>
    a ← gets vga_attr;
    wr vga_mem set_mem ((VGA_ROWS - 1) * VGA_COLS + c) (cell a SPACE)) ;;
  modify (set_row (VGA_ROWS - 1)).

Definition vga_putc (c : Z) : M vga unit :=
  if c =? NEWLINE then
    row ← gets vga_row;
    modify (set_row (u16 (row + 1))) ;;
    modify (set_col 0) ;;
    vga_scroll
  else
    row ← gets vga_row;
    col ← gets vga_col;
    a ← gets vga_attr;
    wr vga_mem set_mem (row * VGA_COLS + col) (cell a c) ;;
    modify (set_col (u16 (col + 1))) ;;
    col ← gets vga_col;
    if VGA_COLS <=? col then
      modify (set_col 0) ;;
      row ← gets vga_row;
      modify (set_row (u16 (row + 1))) ;;
      vga_scroll
    else mret tt.

(** ** The serial line *)

Section Serial.
Context {D : Type} `{Uart D}.

Definition serial_init : M D unit :=
  outb (COM1 + 1) 0x00 ;;
  outb (COM1 + 3) 0x80 ;;
  outb (COM1 + 0) 0x03 ;;
  outb (COM1 + 1) 0x00 ;;
  outb (COM1 + 3) 0x03 ;;
  outb (COM1 + 2) 0xC7 ;;
  outb (COM1 + 4) 0x0B.

(** [while ((inb(COM1 + 5) & 0x20) == 0);] *)
Fixpoint wait_thr (fuel : nat) : M D unit :=
  v ← inb (COM1 + 5);
  if Z.land v 0x20 =? 0 then
    match fuel with O => stuck OutOfFuel | S fuel => wait_thr fuel end
  else mret tt.

(** The controller is busy for [thr_wait] more reads of its status. *)
Definition serial_putc (c : Z) : M D unit :=
  fuel ← gets thr_wait;
  wait_thr fuel ;;
  outb COM1 (u8 c).
End Serial.

(** ** The console *)

Record console (D : Type) := mk_console { c_log : Klog.klog; c_dev : D; c_vga : vga }.
Arguments mk_console {D} _ _ _.
Arguments c_log {D} _.
Arguments c_dev {D} _.
Arguments c_vga {D} _.

Section ops.
Context {D : Type} `{Uart D}.
Implicit Types (s : console D).

Definition set_log v s : console D := mk_console v (c_dev s) (c_vga s).
Definition set_dev v s : console D := mk_console (c_log s) v (c_vga s).
Definition set_vga v s : console D := mk_console (c_log s) (c_dev s) v.
Definition on_log {A} (c : M Klog.klog A) : M (console D) A := lift_to c_log set_log c.
Definition on_dev {A} (c : M D A) : M (console D) A := lift_to c_dev set_dev c.
Definition on_vga {A} (c : M vga A) : M (console D) A := lift_to c_vga set_vga c.

Definition console_init : M (console D) unit :=
  on_vga (modify (set_row 0)) ;;
  on_vga (modify (set_col 0)) ;;
  on_dev serial_init.

Definition console_putc (c : Z) : M (console D) unit :=
  on_log (Klog.klog_putc c) ;;
  on_dev (serial_putc c) ;;
  on_vga (vga_putc c).

(** [str] is the string before its NUL. *)
Fixpoint console_write (str : list Z) : M (console D) unit :=
  match str with
  | [] => mret tt
  | c :: str => console_putc c ;; console_write str
  end.

(** *** Numbers *)

Definition hex : list Z := chars "0123456789abcdef".

Definition console_write_hex_u64 (value : Z) : M (console D) unit :=
  console_write (chars "0x") ;;
  for_all (reverse (upto 0 16)) (fun i =>
    let nibble := u8 (Z.land (Z.shiftr value (i * 4)) 0xF) in
    c ← rd (fun _ => hex) nibble;
    console_putc c).

(** [while (value > 0 && idx < 32) { buf[idx++] = '0' + value % 10; value /= 10; }]:
    at most [32 - idx] turns. *)
Fixpoint digits_loop (fuel : nat) (value idx : Z) (buf : list Z) : M (console D) (Z * list Z) :=
  if (0 <? value) && (idx <? 32) then
    match fuel with
    | O => stuck OutOfFuel
    | S fuel =>
        match arr buf idx with
        | Some _ => digits_loop fuel (value / 10) (idx + 1) (upd buf idx (48 + value `mod` 10))
        | None => stuck OutOfBounds
        end
    end
  else mret (idx, buf).

(** [while (idx > 0) console_putc(buf[--idx]);] *)
Definition put_digits (idx : Z) (buf : list Z) : M (console D) unit :=
  for_all (reverse (upto 0 idx)) (fun i => c ← rd (fun _ => buf) i; console_putc c).

(** [buf] starts with what is on the stack. *)
Definition console_write_u64 (stack : list Z) (value : Z) : M (console D) unit :=
  if value =? 0 then console_putc 48 else
  r ← digits_loop 32 value 0 stack;
  put_digits r.1 r.2.

(** What [nm_exception_dispatch] prints before it stops the processor for good;
    [stack] holds the words at the address [sp], [cr2] is the register. *)
Definition nm_exception_dispatch (cr2_reg sp : Z) (stack : list Z) : M (console D) unit :=
  vec ← rd (fun _ => stack) 0;
  err ← rd (fun _ => stack) 1;
  rip ← rd (fun _ => stack) 2;
  cs ← rd (fun _ => stack) 3;
  rflags ← rd (fun _ => stack) 4;
  let cr2 := if vec =? 14 then cr2_reg else 0 in
  console_write (chars "[EXC] vec=") ;;
  console_write_hex_u64 vec ;;
  console_write (chars " err=") ;;
  console_write_hex_u64 err ;;
  console_write (chars " rip=") ;;
  console_write_hex_u64 rip ;;
  console_write (chars " cs=") ;;
  console_write_hex_u64 cs ;;
  console_write (chars " rflags=") ;;
  console_write_hex_u64 rflags ;;
  (if vec =? 14 then console_write (chars " cr2=") ;; console_write_hex_u64 cr2 else mret tt) ;;
  console_write (chars " rsp=") ;;
  console_write_hex_u64 sp ;;
  console_write [NEWLINE].
End ops.

(** ** What the screen shows

    Text read as lines: a newline ends one, and so does the eightieth character.
    The screen shows the last 25 lines.  A line starts out as what was on the
    screen before, for the first 25, and as blanks for those that scrolled in. *)

Definition put_char (l : list (list Z) * list Z) (c : Z) : list (list Z) * list Z :=
  if c =? NEWLINE then (l.1 ++ [l.2], [])
  else if zlen l.2 + 1 <? VGA_COLS then (l.1, l.2 ++ [c])
  else (l.1 ++ [l.2 ++ [c]], []).

Definition layout (text : list Z) : list (list Z) * list Z := foldl put_char ([], []) text.

(** Light grey on black. *)
Definition ATTR : Z := 7.

(** What a character looks like: its byte, and the attribute in the byte above. *)
Definition glyph (c : Z) : Z := 256 * ATTR + c mod 256.

Lemma cell_glyph c : cell ATTR c = glyph c.
Proof.
  assert (Hall : forallb (fun x => u16 (Z.lor (Z.shiftl 7 8) x) =? 256 * 7 + x) (upto 0 256) = true) by (vm_compute; reflexivity).
  rewrite forallb_forall in Hall. apply Z.eqb_eq, Hall, list_elem_of_In, elem_of_upto. change (0 <= c mod 256 < 256).
  by apply Z.mod_pos_bound.
Qed.

Definition behind (m0 : list Z) (i c : Z) : Z :=
  if i <? VGA_ROWS then default 0 (arr m0 (i * VGA_COLS + c)) else glyph 32.

Definition shown (m0 : list Z) (ls : list (list Z)) (i c : Z) : Z :=
  match l ← arr ls i; arr l c with Some ch => glyph ch | None => behind m0 i c end.

(** Row 0 of the memory shows line [top]. *)
Record painted (m0 : list Z) (ls : list (list Z)) (top : Z) (mem : list Z) : Prop := mk_painted {
  pt_len : zlen mem = VGA_ROWS * VGA_COLS;
  pt_cell r c : 0 <= r < VGA_ROWS -> 0 <= c < VGA_COLS -> arr mem (r * VGA_COLS + c) = Some (shown m0 ls (top + r) c);
}.

Record screen (m0 : list Z) (l : list (list Z) * list Z) (v : vga) : Prop := mk_screen {
  sc_row : vga_row v = Z.min (zlen l.1) (VGA_ROWS - 1);
  sc_col : vga_col v = zlen l.2;
  sc_room : zlen l.2 < VGA_COLS;
  sc_attr : vga_attr v = ATTR;
  sc_mem : painted m0 (l.1 ++ [l.2]) (zlen l.1 - vga_row v) (vga_mem v);
}.

Lemma wp_scroll_stay v (Q : unit -> vga -> Prop) : vga_row v < VGA_ROWS -> Q tt v -> wp vga_scroll Q v.
Proof. intros Hr HQ. unfold vga_scroll. do 2 wp_step. by rewrite (proj2 (Z.ltb_lt _ _)). Qed.

(** Two memories that agree but for a shift up of the cells before [k]. *)
Definition shifted (m : list Z) (k : Z) (v v' : vga) : Prop :=
  (vga_row v' = vga_row v /\ vga_col v' = vga_col v /\ vga_attr v' = vga_attr v) /\
  zlen (vga_mem v') = zlen m /\ forall i, arr (vga_mem v') i = if (0 <=? i) && (i <? k) then arr m (i + 80) else arr m i.

Lemma shifted_step m k v v' x :
  shifted m k v v' -> 0 <= k -> k + 80 < zlen m -> arr (vga_mem v') (k + 80) = Some x ->
  shifted m (k + 1) v (set_mem (upd (vga_mem v') k x) v').
Proof.
  intros (Hs & Hl & Hc) Hk Hlen Hx. split_and!; [apply Hs..|by cbn; rewrite zlen_upd|]. intros i. cbn.
  rewrite arr_upd by lia. rewrite Hc in Hx. destruct (Z.ltb_spec (k + 80) k); [lia|]. rewrite andb_false_r in Hx.
  destruct (Z.eqb_spec k i) as [<-|Hne].
  - rewrite (proj2 (Z.leb_le 0 k)), (proj2 (Z.ltb_lt k (k + 1))) by lia. by rewrite <- Hx.
  - rewrite Hc. destruct (Z.ltb_spec i k), (Z.ltb_spec i (k + 1)); try done; lia.
Qed.

Lemma wp_scroll v (Q : unit -> vga -> Prop) :
  zlen (vga_mem v) = VGA_ROWS * VGA_COLS -> VGA_ROWS <= vga_row v ->
  (forall mem, zlen mem = VGA_ROWS * VGA_COLS ->
     (forall r c, 0 <= r < VGA_ROWS -> 0 <= c < VGA_COLS -> arr mem (r * VGA_COLS + c) =
        if r =? VGA_ROWS - 1 then Some (cell (vga_attr v) SPACE) else arr (vga_mem v) ((r + 1) * VGA_COLS + c)) ->
     Q tt (mk_vga mem (VGA_ROWS - 1) (vga_col v) (vga_attr v))) ->
  wp vga_scroll Q v.
Proof.
  intros Hl Hr HQ. unfold vga_scroll, VGA_ROWS, VGA_COLS in *. do 2 wp_step. rewrite (proj2 (Z.ltb_ge _ _)) by done. wp_step.
  apply (wp_for_all (fun r t => shifted (vga_mem v) ((r - 1) * 80) v t)); [lia|split_and!; try done| |].
  { intros i. destruct (Z.leb_spec 0 i), (Z.ltb_spec i ((1 - 1) * 80)); try done; lia. }
  - intros r t Hrr Ht. apply (wp_for_all (fun c t => shifted (vga_mem v) ((r - 1) * 80 + c) v t)); [lia| |clear t Ht|].
    + by rewrite Z.add_0_r.
    + intros c t Hc Ht. pose proof Ht as (_ & Hlt & _). destruct (arr_lookup (vga_mem t) (r * 80 + c)) as [x Hx]; [lia|].
      wp_step. eapply wp_rd; [done|]. apply wp_wr; [lia|]. rewrite Z.add_assoc. eapply shifted_step; [done|lia|lia|].
      rewrite <- Hx. f_equal. lia.
    + intros t' Ht'. by replace ((r + 1 - 1) * 80) with ((r - 1) * 80 + 80) by lia.
  - intros t ((Ht1 & Ht2 & Ht3) & Hlt & Ht). wp_step.
    apply (wp_for_all (fun c t' => (vga_row t' = vga_row v /\ vga_col t' = vga_col v /\ vga_attr t' = vga_attr v) /\
      zlen (vga_mem t') = 2000 /\
      forall i, arr (vga_mem t') i = if (1920 <=? i) && (i <? 1920 + c) then Some (cell (vga_attr v) SPACE) else arr (vga_mem t) i)).
    + lia.
    + split_and!; try done; [lia|]. intros i. destruct (Z.leb_spec 1920 i), (Z.ltb_spec i (1920 + 0)); try done; lia.
    + intros c t' Hc ((? & ? & Ha) & Hl' & Hc'). do 2 wp_step. apply wp_wr; [lia|]. cbn. split_and!; [done..|by rewrite zlen_upd|].
      intros i. rewrite arr_upd by lia. rewrite Ha, Hc'. change ((25 - 1) * 80) with 1920.
      destruct (Z.eqb_spec (1920 + c) i); destruct (Z.leb_spec 1920 i), (Z.ltb_spec i (1920 + c)), (Z.ltb_spec i (1920 + (c + 1)));
        try done; lia.
    + intros t' ((? & Hc1 & Ha) & Hl' & Hc'). apply wp_modify. unfold set_row. rewrite Hc1, Ha. apply HQ; [done|].
      intros r c Hrr Hc. rewrite Hc', Ht. replace (r * 80 + c + 80) with ((r + 1) * 80 + c) by lia.
      change ((25 - 1) * 80) with 1920. change (25 - 1) with 24. clear -Hrr Hc.
      destruct (Z.eqb_spec r 24), (Z.leb_spec 1920 (r * 80 + c)), (Z.ltb_spec (r * 80 + c) (1920 + 80)),
        (Z.leb_spec 0 (r * 80 + c)), (Z.ltb_spec (r * 80 + c) 1920); try done; lia.
Qed.

Lemma arr_app_split {A} (l1 l2 : list A) i :
  0 <= i -> arr (l1 ++ l2) i = if i <? zlen l1 then arr l1 i else arr l2 (i - zlen l1).
Proof.
  intros Hi. unfold arr, zlen. rewrite (proj2 (Z.leb_le 0 i)) by done. destruct (Z.ltb_spec i (Z.of_nat (Datatypes.length l1))).
  - apply lookup_app_l. lia.
  - rewrite (proj2 (Z.leb_le 0 _)) by lia. rewrite lookup_app_r by lia. f_equal. lia.
Qed.

Lemma zlen_snoc {A} (l : list A) x : zlen (l ++ [x]) = zlen l + 1.
Proof. unfold zlen. rewrite length_app. cbn. lia. Qed.

(** Lengthening the last line paints one cell. *)
Lemma shown_snoc m0 ls cur ch i c :
  0 <= i -> 0 <= c ->
  shown m0 (ls ++ [cur ++ [ch]]) i c =
    if (i =? zlen ls) && (c =? zlen cur) then glyph ch else shown m0 (ls ++ [cur]) i c.
Proof.
  intros Hi Hc. unfold shown. rewrite !arr_app_split by done. destruct (Z.ltb_spec i (zlen ls)).
  { rewrite (proj2 (Z.eqb_neq _ _)) by lia. done. }
  destruct (Z.eqb_spec i (zlen ls)) as [->|Hne]; cbn [andb].
  - rewrite Z.sub_diag, !arr_cons_0. cbn. rewrite arr_app_split by done. destruct (Z.eqb_spec c (zlen cur)) as [->|].
    + by rewrite Z.ltb_irrefl, Z.sub_diag.
    + destruct (Z.ltb_spec c (zlen cur)); [done|]. rewrite arr_none by (unfold zlen; cbn; unfold zlen in *; lia).
      by rewrite (arr_none cur) by lia.
  - by rewrite !(arr_none [_]) by (unfold zlen; cbn; unfold zlen in *; lia).
Qed.

(** A new empty line shows nothing new. *)
Lemma shown_nil m0 ls i c : 0 <= i -> shown m0 (ls ++ [[]]) i c = shown m0 ls i c.
Proof.
  intros Hi. unfold shown. rewrite arr_app_split by done. destruct (Z.ltb_spec i (zlen ls)); [done|].
  rewrite (arr_none ls) by lia. destruct (arr [[]] (i - zlen ls)) as [l|] eqn:E; [|done].
  apply arr_elem, list_elem_of_singleton in E as ->. cbn.
  by rewrite (arr_none [] c) by (unfold zlen; cbn; lia).
Qed.

Lemma shown_below m0 ls i c : zlen ls <= i -> VGA_ROWS <= i -> shown m0 ls i c = glyph 32.
Proof. intros Hl Hi. unfold shown. rewrite arr_none by lia. cbn. unfold behind. by rewrite (proj2 (Z.ltb_ge _ _)). Qed.

(** The start of a line: the row moves down, or the screen scrolls. *)
Lemma wp_line_end m0 ls v (Q : unit -> vga -> Prop) :
  0 < zlen ls -> vga_row v = Z.min (zlen ls - 1) (VGA_ROWS - 1) + 1 -> vga_col v = 0 -> vga_attr v = ATTR ->
  painted m0 ls (zlen ls - vga_row v) (vga_mem v) ->
  (forall v', screen m0 (ls, []) v' -> Q tt v') -> wp vga_scroll Q v.
Proof.
  intros Hls Hrow Hcol Hattr [Hlen Hcell] HQ. destruct (Z_lt_le_dec (vga_row v) VGA_ROWS) as [Hr|Hr].
  - apply wp_scroll_stay; [done|]. apply HQ. constructor; cbn; [unfold VGA_ROWS in *; lia|done|done|done|].
    constructor; [done|]. intros r c Hr' Hc. rewrite shown_nil by (unfold VGA_ROWS in *; lia). by apply Hcell.
  - apply wp_scroll; [done|done|]. intros mem Hml Hmem. apply HQ. constructor; cbn.
    + unfold VGA_ROWS in *. lia.
    + done.
    + done.
    + done.
    + constructor; [done|]. intros r c Hr' Hc. rewrite shown_nil by (unfold VGA_ROWS in *; lia). rewrite Hmem by done.
      destruct (Z.eqb_spec r (VGA_ROWS - 1)).
      * rewrite shown_below by (unfold VGA_ROWS in *; lia). by rewrite Hattr, cell_glyph.
      * rewrite Hcell by lia. do 2 f_equal. unfold VGA_ROWS in *. lia.
Qed.

Lemma wp_vga_putc m0 l v ch (Q : unit -> vga -> Prop) :
  screen m0 l v -> (forall v', screen m0 (put_char l ch) v' -> Q tt v') -> wp (vga_putc ch) Q v.
Proof.
  intros [Hrow Hcol Hroom Hattr Hmem] HQ. destruct l as [ls cur]. cbn [fst snd] in *. unfold put_char in HQ. cbn [fst snd] in HQ.
  assert (Hls : 0 <= zlen ls) by (unfold zlen; lia). assert (Hcur : 0 <= zlen cur) by (unfold zlen; lia).
  unfold vga_putc. destruct (ch =? NEWLINE).
  { wp_step. wp_step. do 2 wp_step. do 2 wp_step. cbn. rewrite u16_small by (unfold VGA_ROWS in *; lia).
    apply (wp_line_end m0 (ls ++ [cur])); cbn; rewrite ?zlen_snoc; [lia|lia|done|done| |done].
    destruct Hmem as [Hlen Hcell]. constructor; [done|]. intros r c Hr Hc. rewrite Hcell by done. do 2 f_equal. lia. }
  assert (Hk : 0 <= vga_row v * VGA_COLS + vga_col v < zlen (vga_mem v)) by (rewrite (pt_len _ _ _ _ Hmem); unfold VGA_ROWS, VGA_COLS in *; lia).
  assert (Hat : painted m0 (ls ++ [cur ++ [ch]]) (zlen ls - vga_row v)
                  (upd (vga_mem v) (vga_row v * VGA_COLS + vga_col v) (cell (vga_attr v) ch))).
  { destruct Hmem as [Hlen Hcell]. constructor; [by rewrite zlen_upd|]. intros r c Hr Hc.
    rewrite shown_snoc by (unfold VGA_ROWS in *; lia). rewrite arr_upd, Hcell, Hattr, cell_glyph by done.
    destruct (Z.eqb_spec (vga_row v * VGA_COLS + vga_col v) (r * VGA_COLS + c)), (Z.eqb_spec (zlen ls - vga_row v + r) (zlen ls)),
      (Z.eqb_spec c (zlen cur)); try done; exfalso; unfold VGA_ROWS, VGA_COLS in *; lia. }
  do 3 (wp_step; wp_step). wp_step. apply wp_wr; [done|]. do 2 wp_step. do 2 wp_step. cbn.
  rewrite u16_small by (unfold VGA_COLS in *; lia). rewrite Hcol in *.
  destruct (Z.leb_spec VGA_COLS (zlen cur + 1)); destruct (Z.ltb_spec (zlen cur + 1) VGA_COLS); try lia.
  - do 2 wp_step. do 2 wp_step. do 2 wp_step. cbn. rewrite u16_small by (unfold VGA_ROWS in *; lia).
    apply (wp_line_end m0 (ls ++ [cur ++ [ch]])); cbn; rewrite ?zlen_snoc; [lia|lia|done|done| |done].
    destruct Hat as [Hlen Hcell]. constructor; [done|]. intros r c Hr Hc. rewrite Hcell by done. do 2 f_equal. lia.
  - wp_step. apply HQ. constructor; cbn; rewrite ?zlen_snoc; done.
Qed.

(** ** The serial line *)

Section SerialSpec.
Context {D : Type} `{Uart D}.
Implicit Types (d : D).

(** The data port takes characters. *)
Definition line_up d : Prop := Z.testbit (lcr d) 7 = false.

Lemma wp_serial_init d (Q : unit -> D -> Prop) :
  (forall d', line_up d' -> sent d' = sent d -> Q tt d') -> wp serial_init Q d.
Proof.
  intros HQ. unfold serial_init. repeat (wp_step; apply wp_outb). apply wp_outb.
  change (u16 (COM1 + 1)) with 0x3F9. change (u16 (COM1 + 3)) with 0x3FB. change (u16 (COM1 + 0)) with 0x3F8.
  change (u16 (COM1 + 2)) with 0x3FA. change (u16 (COM1 + 4)) with 0x3FC.
  change (u8 0x80) with 0x80. change (u8 3) with 3.
  set (d1 := port_out 0x3FB 0x80 (port_out 0x3F9 (u8 0) d)).
  assert (H1 : lcr d1 = 0x80 /\ sent d1 = sent d).
  { unfold d1. destruct (lcr_write 0x80 (port_out 0x3F9 (u8 0) d)) as [-> ->]. split; [done|]. apply ctl_write. auto. }
  set (d2 := port_out 0x3F9 (u8 0) (port_out 0x3F8 3 d1)).
  assert (H2 : sent d2 = sent d).
  { unfold d2. destruct (ctl_write 0x3F9 (u8 0) (port_out 0x3F8 3 d1)) as [_ ->]; [auto|].
    destruct (divisor_write 3 d1) as [_ ->]; [by rewrite (proj1 H1)|]. apply H1. }
  destruct (lcr_write 3 d2) as [H3 H4]. set (d3 := port_out 0x3FB 3 d2) in *.
  destruct (ctl_write 0x3FA (u8 0xC7) d3) as [H5 H6]; [auto|]. set (d4 := port_out 0x3FA (u8 0xC7) d3) in *.
  destruct (ctl_write 0x3FC (u8 0x0B) d4) as [H7 H8]; [auto|].
  apply HQ; [unfold line_up; by rewrite H7, H5, H3|]. by rewrite H8, H6, H4.
Qed.

Lemma wp_wait_thr fuel d (Q : unit -> D -> Prop) :
  (thr_wait d <= fuel)%nat -> (forall d', thr_empty d' -> lcr d' = lcr d -> sent d' = sent d -> Q tt d') ->
  wp (wait_thr fuel) Q d.
Proof.
  revert d. induction fuel as [|fuel IH]; intros d Hf HQ; cbn [wait_thr]; wp_step; apply wp_inb; intros v d' E _;
    pose proof (lsr_read d) as (Hl & Hs & Hb); change (u16 (COM1 + 5)) with 0x3FD in E; rewrite E in Hl, Hs, Hb;
    cbn [fst snd] in *; (destruct (Z.land v 0x20 =? 0); [|apply wp_ret; by apply HQ]); [lia|].
  apply IH; [lia|]. intros d2 H2 Hl2 Hs2. apply HQ; congruence.
Qed.

Lemma wp_serial_putc c d (Q : unit -> D -> Prop) :
  line_up d -> (forall d', line_up d' -> sent d' = sent d ++ [u8 c] -> Q tt d') -> wp (serial_putc c) Q d.
Proof.
  intros Hup HQ. unfold serial_putc. do 2 wp_step. wp_step. apply wp_wait_thr; [done|]. intros d' He Hl Hs.
  apply wp_outb. rewrite (u8_small (u8 c)) by apply u8_byte. change (u16 COM1) with 0x3F8.
  assert (Hup' : Z.testbit (lcr d') 7 = false) by (by rewrite Hl). destruct (thr_write (u8 c) d' Hup' He) as [Hl2 Hs2].
  apply HQ; [unfold line_up; by rewrite Hl2|]. by rewrite Hs2, Hs.
Qed.
End SerialSpec.

(** ** The console *)

Section spec.
Context {D : Type} `{Uart D}.
Implicit Types (s : console D).

(** [text] is what was written since the start: the log holds its end, the serial
    line sent it after [base], and the screen, which was [m0], shows its last lines. *)
Record printed (m0 base text : list Z) s : Prop := mk_printed {
  pr_log : Klog.logged (c_log s) text;
  pr_line : line_up (c_dev s);
  pr_sent : sent (c_dev s) = base ++ (u8 <$> text);
  pr_screen : screen m0 (layout text) (c_vga s);
}.

Lemma wp_console_putc m0 base text s c (Q : unit -> console D -> Prop) :
  printed m0 base text s -> (forall s', printed m0 base (text ++ [c]) s' -> Q tt s') -> wp (console_putc c) Q s.
Proof.
  intros [Hlog Hline Hsent Hscr] HQ. unfold console_putc. wp_step. apply wp_lift. eapply Klog.wp_putc; [done|].
  intros k Hk. wp_step. apply wp_lift. apply wp_serial_putc; [done|]. intros d Hd Hs. apply wp_lift.
  eapply wp_vga_putc; [done|]. intros v Hv. apply HQ. constructor; cbn; [done|done| |].
  - rewrite Hs. cbn. by rewrite Hsent, fmap_app, app_assoc.
  - unfold layout. by rewrite foldl_app.
Qed.

Lemma wp_console_write str m0 base text s (Q : unit -> console D -> Prop) :
  printed m0 base text s -> (forall s', printed m0 base (text ++ str) s' -> Q tt s') -> wp (console_write str) Q s.
Proof.
  revert text s. induction str as [|c str IH]; intros text s Hp HQ; cbn [console_write].
  - apply wp_ret, HQ. by rewrite app_nil_r.
  - wp_step. eapply wp_console_putc; [done|]. intros s' Hp'. eapply IH; [done|]. intros s2. rewrite <- app_assoc. apply HQ.
Qed.

(** A loop that prints a character for each index writes a string. *)
Lemma for_all_write (f : Z -> Z) body ixs s :
  (forall i t, i ∈ ixs -> body i t = console_putc (f i) t) -> for_all ixs body s = console_write (f <$> ixs) s.
Proof.
  revert s. induction ixs as [|i ixs IH]; intros s Hb; [done|]. cbn. unfold mbind, M_bind. rewrite Hb by (by left).
  destruct (console_putc (f i) s) as [[] s'|]; [|done]. apply IH. intros. apply Hb. by right.
Qed.

Lemma wp_for_all_write (f : Z -> Z) body ixs m0 base text s (Q : unit -> console D -> Prop) :
  (forall i t, i ∈ ixs -> body i t = console_putc (f i) t) ->
  printed m0 base text s -> (forall s', printed m0 base (text ++ (f <$> ixs)) s' -> Q tt s') ->
  wp (for_all ixs body) Q s.
Proof. intros Hb Hp HQ. unfold wp. rewrite (for_all_write f) by done. by eapply wp_console_write. Qed.

(** *** Numbers *)

Definition hex_digit (n : Z) : Z := default 0 (arr hex n).
Definition nibble (value i : Z) : Z := Z.land (Z.shiftr value (i * 4)) 0xF.
Definition hex_text (value : Z) : list Z := (fun i => hex_digit (nibble value i)) <$> reverse (upto 0 16).

(** Reading a number back. *)
Definition hex_value (c : Z) : Z := default 0 (find_idx (fun x => x =? c) hex).
Definition parse_hex (l : list Z) : Z := foldl (fun a c => a * 16 + hex_value c) 0 l.

Lemma nibble_div value i : 0 <= i -> nibble value i = (value / 16 ^ i) `mod` 16.
Proof.
  intros Hi. unfold nibble. rewrite Z.shiftr_div_pow2 by lia. change 0xF with (Z.ones 4). rewrite Z.land_ones by lia.
  rewrite (Z.mul_comm i), Z.pow_mul_r by lia. by change (2 ^ 4) with 16.
Qed.

Lemma nibble_range value i : 0 <= i -> 0 <= nibble value i < 16.
Proof. intros. rewrite nibble_div by done. apply Z.mod_pos_bound. lia. Qed.

Lemma arr_hex n : 0 <= n < 16 -> arr hex n = Some (hex_digit n).
Proof. intros Hn. unfold hex_digit. by destruct (arr_lookup hex n ltac:(done)) as [x ->]. Qed.

Lemma hex_value_digit n : 0 <= n < 16 -> hex_value (hex_digit n) = n.
Proof.
  intros Hn. assert (Hall : forallb (fun k => hex_value (hex_digit k) =? k) (upto 0 16) = true) by (vm_compute; reflexivity).
  rewrite forallb_forall in Hall. apply Z.eqb_eq, Hall, list_elem_of_In, elem_of_upto. lia.
Qed.

Lemma reverse_upto_S n : 0 <= n -> reverse (upto 0 (n + 1)) = n :: reverse (upto 0 n).
Proof.
  intros. rewrite (upto_app 0 n (n + 1)) by lia. rewrite reverse_app, (upto_cons n), upto_nil by lia. done.
Qed.

Lemma parse_hex_digits value (n : nat) a :
  foldl (fun a c => a * 16 + hex_value c) a ((fun i => hex_digit (nibble value i)) <$> reverse (upto 0 (Z.of_nat n))) =
  a * 16 ^ Z.of_nat n + value `mod` (16 ^ Z.of_nat n).
Proof.
  revert a. induction n as [|n IH]; intros a.
  - change (16 ^ Z.of_nat 0) with 1. rewrite Z.mod_1_r, upto_nil by lia. cbn [reverse rev_append fmap list_fmap foldl]. lia.
  - rewrite Nat2Z.inj_succ, <- Z.add_1_r, reverse_upto_S by lia. cbn [fmap list_fmap foldl].
    rewrite IH. rewrite hex_value_digit by (apply nibble_range; lia). rewrite nibble_div by lia.
    rewrite Z.pow_add_r by lia. change (16 ^ 1) with 16. assert (Hp : 0 < 16 ^ Z.of_nat n) by (apply Z.pow_pos_nonneg; lia).
    rewrite (Z.rem_mul_r value) by lia. ring.
Qed.

Lemma parse_hex_text value : is_u64 value -> parse_hex (hex_text value) = value.
Proof.
  intros Hv. unfold parse_hex, hex_text. change 16 with (Z.of_nat 16) at 2. rewrite parse_hex_digits.
  change (16 ^ Z.of_nat 16) with 18446744073709551616. apply Z.mod_small, Hv.
Qed.

Lemma hex_text_length value : Datatypes.length (hex_text value) = 16%nat.
Proof. unfold hex_text. by rewrite length_fmap, length_reverse. Qed.

Lemma wp_write_hex value m0 base text s (Q : unit -> console D -> Prop) :
  printed m0 base text s -> (forall s', printed m0 base (text ++ chars "0x" ++ hex_text value) s' -> Q tt s') ->
  wp (console_write_hex_u64 value) Q s.
Proof.
  intros Hp HQ. unfold console_write_hex_u64. wp_step. eapply wp_console_write; [done|]. intros s' Hp'.
  eapply (wp_for_all_write (fun i => hex_digit (nibble value i))); [|done|].
  - intros i t Hi. rewrite elem_of_reverse, elem_of_upto in Hi. cbv zeta.
    pose proof (nibble_range value i ltac:(lia)) as Hn. fold (nibble value i). rewrite u8_small by lia.
    apply rd_bind, arr_hex, Hn.
  - intros s2. rewrite <- app_assoc. apply HQ.
Qed.

(** The decimal digits of a number, last one first; 32 are room enough. *)
Fixpoint rev_dec (fuel : nat) (value : Z) : list Z :=
  match fuel with
  | O => []
  | S fuel => if 0 <? value then 48 + value `mod` 10 :: rev_dec fuel (value / 10) else []
  end.
Definition decimal (value : Z) : list Z := if value =? 0 then chars "0" else reverse (rev_dec 32 value).
Definition parse_dec (l : list Z) : Z := foldl (fun a c => a * 10 + (c - 48)) 0 l.

Lemma parse_rev_dec fuel value : 0 <= value < 10 ^ Z.of_nat fuel -> parse_dec (reverse (rev_dec fuel value)) = value.
Proof.
  revert value. induction fuel as [|fuel IH]; intros value Hv; [cbn in *; lia|]. cbn [rev_dec].
  destruct (Z.ltb_spec 0 value); [|cbn; lia]. rewrite Nat2Z.inj_succ, Z.pow_succ_r in Hv by lia.
  unfold parse_dec in *. rewrite reverse_cons, foldl_app, IH by (Z.to_euclidean_division_equations; lia). cbn [foldl].
  pose proof (Z.div_mod value 10 ltac:(lia)). lia.
Qed.

Lemma parse_decimal value : is_u64 value -> parse_dec (decimal value) = value.
Proof.
  intros Hv. unfold decimal. destruct (Z.eqb_spec value 0) as [->|]; [done|]. apply parse_rev_dec.
  unfold is_u64 in Hv. change (10 ^ Z.of_nat 32) with 100000000000000000000000000000000. lia.
Qed.

Lemma rev_dec_length fuel (n : nat) value :
  value < 10 ^ Z.of_nat n -> (Datatypes.length (rev_dec fuel value) <= n)%nat.
Proof.
  revert n value. induction fuel as [|fuel IH]; intros n value Hv; cbn [rev_dec]; [cbn; lia|].
  destruct (Z.ltb_spec 0 value); [|cbn; lia]. destruct n as [|n]; [cbn in Hv; lia|]. cbn [Datatypes.length]. apply le_n_S, IH.
  rewrite Nat2Z.inj_succ, Z.pow_succ_r in Hv by lia. Z.to_euclidean_division_equations; lia.
Qed.

Lemma wp_digits_loop fuel value idx buf s (Q : Z * list Z -> console D -> Prop) :
  zlen buf = 32 -> 0 <= idx -> idx + Z.of_nat fuel = 32 ->
  (forall buf', zlen buf' = 32 -> take (Z.to_nat (idx + zlen (rev_dec fuel value))) buf' = take (Z.to_nat idx) buf ++ rev_dec fuel value ->
     Q (idx + zlen (rev_dec fuel value), buf') s) ->
  wp (digits_loop fuel value idx buf) Q s.
Proof.
  revert value idx buf. induction fuel as [|fuel IH]; intros value idx buf Hl Hi Hf HQ; cbn [digits_loop rev_dec] in *.
  { rewrite (proj2 (Z.ltb_ge idx 32)), andb_false_r by lia. apply wp_ret. specialize (HQ buf). cbn in HQ.
    rewrite Z.add_0_r, app_nil_r in HQ. by apply HQ. }
  rewrite (proj2 (Z.ltb_lt idx 32)), andb_true_r by lia. destruct (0 <? value).
  2:{ apply wp_ret. specialize (HQ buf). cbn in HQ. rewrite Z.add_0_r, app_nil_r in HQ. by apply HQ. }
  destruct (arr_lookup buf idx) as [x Hx]; [lia|]. rewrite Hx.
  set (ds := rev_dec fuel (value / 10)) in *. set (b := 48 + value `mod` 10) in *.
  assert (El : zlen (b :: ds) = 1 + zlen ds) by (unfold zlen; cbn; lia).
  apply IH; [by rewrite zlen_upd|lia|lia|]. fold ds. intros buf' Hl' Ht. rewrite El in HQ.
  replace (idx + 1 + zlen ds) with (idx + (1 + zlen ds)) in * by lia. apply HQ; [done|]. rewrite Ht.
  rewrite (take_snoc_arr _ _ b) by (done || (apply arr_upd_eq; lia)). rewrite <- app_assoc. f_equal.
  unfold upd. rewrite (proj2 (Z.leb_le 0 idx)) by done. by rewrite take_insert_ge by lia.
Qed.

Lemma take_digits idx buf :
  0 <= idx <= zlen buf -> (fun i => default 0 (arr buf i)) <$> reverse (upto 0 idx) = reverse (take (Z.to_nat idx) buf).
Proof.
  intros Hi. rewrite fmap_reverse. f_equal. remember (Z.to_nat idx) as n eqn:En.
  replace idx with (Z.of_nat n) in * by lia. clear En idx. induction n as [|n IH]; [done|].
  rewrite Nat2Z.inj_succ, <- Z.add_1_r, (upto_app 0 (Z.of_nat n)), (upto_cons (Z.of_nat n)), (upto_nil (Z.of_nat n + 1)) by lia.
  rewrite fmap_app, IH by lia. destruct (arr_lookup buf (Z.of_nat n)) as [x Hx]; [lia|]. cbn. rewrite Hx. cbn.
  rewrite arr_nat in Hx. by rewrite (take_S_r _ _ _ Hx).
Qed.

Lemma wp_write_u64 stack value m0 base text s (Q : unit -> console D -> Prop) :
  zlen stack = 32 -> 0 <= value ->
  printed m0 base text s -> (forall s', printed m0 base (text ++ decimal value) s' -> Q tt s') ->
  wp (console_write_u64 stack value) Q s.
Proof.
  intros Hst Hv Hp HQ. unfold console_write_u64, decimal in *. destruct (value =? 0).
  { by eapply wp_console_putc. }
  wp_step. apply wp_digits_loop; [done|lia|done|]. intros buf Hl Ht. rewrite Z.add_0_l in *. cbn [fst snd].
  set (ds := rev_dec 32 value) in *. clearbody ds. change (take (Z.to_nat 0) stack ++ ds) with ds in Ht. assert (Hds : 0 <= zlen ds <= zlen buf).
  { split; [unfold zlen; lia|]. apply (f_equal Datatypes.length) in Ht. rewrite length_take in Ht. unfold zlen in *. lia. }
  unfold put_digits. eapply (wp_for_all_write (fun i => default 0 (arr buf i))); [|done|].
  - intros i t Hi. rewrite elem_of_reverse, elem_of_upto in Hi. destruct (arr_lookup buf i) as [x Hx]; [lia|].
    rewrite Hx. by apply rd_bind.
  - by rewrite take_digits, Ht by done.
Qed.

(** ** The report of an exception *)

Definition report (cr2 sp vec err rip cs rflags : Z) : list Z :=
  chars "[EXC] vec=" ++ (chars "0x" ++ hex_text vec) ++ chars " err=" ++ (chars "0x" ++ hex_text err) ++
  chars " rip=" ++ (chars "0x" ++ hex_text rip) ++ chars " cs=" ++ (chars "0x" ++ hex_text cs) ++
  chars " rflags=" ++ (chars "0x" ++ hex_text rflags) ++
  (if vec =? 14 then chars " cr2=" ++ (chars "0x" ++ hex_text cr2) else []) ++
  chars " rsp=" ++ (chars "0x" ++ hex_text sp) ++ [NEWLINE].

(** The numbers of a report: after each equals sign, the sixteen digits that
    follow [0x]. *)
Fixpoint numbers (l : list Z) : list Z :=
  match l with
  | [] => []
  | c :: l => if c =? 61 then parse_hex (take 16 (drop 2 l)) :: numbers l else numbers l
  end.

Lemma numbers_plain p l : Forall (fun c => c <> 61) p -> numbers (p ++ l) = numbers l.
Proof. induction 1 as [|c p Hc Hp IH]; [done|]. cbn. by rewrite (proj2 (Z.eqb_neq _ _)). Qed.

Lemma hex_plain value : Forall (fun c => c <> 61) (chars "0x" ++ hex_text value).
Proof.
  apply Forall_app. split; [repeat constructor; done|]. apply Forall_fmap, Forall_forall. intros i _. cbn.
  unfold hex_digit. destruct (arr hex _) as [x|] eqn:E; [|done]. apply arr_elem in E. cbn.
  assert (Hall : Forall (fun c => c <> 61) hex) by (repeat constructor; done). by apply (proj1 (Forall_forall _ _) Hall).
Qed.

Lemma numbers_field p value l :
  Forall (fun c => c <> 61) p -> is_u64 value -> numbers (p ++ 61 :: (chars "0x" ++ hex_text value) ++ l) = value :: numbers l.
Proof.
  intros Hp Hv. rewrite numbers_plain by done. cbn [numbers]. change (61 =? 61) with true. cbv iota. f_equal.
  - rewrite <- app_assoc. change (drop 2 (chars "0x" ++ hex_text value ++ l)) with (hex_text value ++ l).
    rewrite take_app_length' by (by rewrite hex_text_length). by apply parse_hex_text.
  - apply numbers_plain, hex_plain.
Qed.

Lemma numbers_report cr2 sp vec err rip cs rflags :
  Forall is_u64 [cr2; sp; vec; err; rip; cs; rflags] ->
  numbers (report cr2 sp vec err rip cs rflags) =
  [vec; err; rip; cs; rflags] ++ (if vec =? 14 then [cr2] else []) ++ [sp].
Proof.
  intros Hall. repeat (apply Forall_cons in Hall as [? Hall]). unfold report.
  change (chars "[EXC] vec=") with (chars "[EXC] vec" ++ [61]). change (chars " err=") with (chars " err" ++ [61]).
  change (chars " rip=") with (chars " rip" ++ [61]). change (chars " cs=") with (chars " cs" ++ [61]).
  change (chars " rflags=") with (chars " rflags" ++ [61]). change (chars " cr2=") with (chars " cr2" ++ [61]).
  change (chars " rsp=") with (chars " rsp" ++ [61]).
  assert (Hsnoc : forall a b : list Z, (a ++ [61]) ++ b = a ++ 61 :: b) by (intros; by rewrite <- app_assoc). rewrite !Hsnoc.
  assert (Hend : numbers (chars " rsp" ++ 61 :: (chars "0x" ++ hex_text sp) ++ [NEWLINE]) = [sp]).
  { rewrite numbers_field; [done|repeat constructor; done|done]. }
  do 5 (rewrite numbers_field; [|repeat constructor; done|done]). cbn [app]. do 5 f_equal.
  destruct (vec =? 14); [|exact Hend].
  rewrite <- app_assoc. cbn [app]. rewrite numbers_field; [|repeat constructor; done|done]. by f_equal.
Qed.

Lemma wp_report cr2 sp vec err rip cs rflags rest m0 base text s (Q : unit -> console D -> Prop) :
  printed m0 base text s ->
  (forall s', printed m0 base (text ++ report (if vec =? 14 then cr2 else 0) sp vec err rip cs rflags) s' -> Q tt s') ->
  wp (nm_exception_dispatch cr2 sp (vec :: err :: rip :: cs :: rflags :: rest)) Q s.
Proof.
  intros Hp HQ. unfold nm_exception_dispatch. do 5 (wp_step; eapply wp_rd; [reflexivity|]). cbv zeta. unfold report in HQ.
  do 5 (wp_step; eapply wp_console_write; [done|]; clear Hp; intros ? Hp; wp_step; eapply wp_write_hex; [done|]; clear Hp; intros ? Hp).
  wp_step. assert (Hend : forall t s, printed m0 base t s ->
    (forall s', printed m0 base (t ++ chars " rsp=" ++ (chars "0x" ++ hex_text sp) ++ [NEWLINE]) s' -> Q tt s') ->
    wp (console_write (chars " rsp=") ;; console_write_hex_u64 sp ;; console_write [NEWLINE]) Q s).
  { clear. intros t s Hp HQ. wp_step. eapply wp_console_write; [done|]. clear Hp. intros ? Hp. wp_step. eapply wp_write_hex; [done|].
    clear Hp. intros ? Hp. eapply wp_console_write; [done|]. intros sf. rewrite <- !app_assoc. apply HQ. }
  destruct (vec =? 14).
  - wp_step. eapply wp_console_write; [done|]. clear Hp. intros ? Hp. eapply wp_write_hex; [done|]. clear Hp. intros ? Hp.
    eapply Hend; [done|]. intros sf. rewrite <- !app_assoc. rewrite <- !app_assoc in HQ. apply HQ.
  - apply wp_ret. eapply Hend; [done|]. intros sf. rewrite <- !app_assoc. rewrite <- !app_assoc in HQ. apply HQ.
Qed.

Lemma wp_console_init k s (Q : unit -> console D -> Prop) :
  Klog.logged (c_log s) k -> zlen (vga_mem (c_vga s)) = VGA_ROWS * VGA_COLS -> vga_attr (c_vga s) = ATTR -> k = [] ->
  (forall s', printed (vga_mem (c_vga s)) (sent (c_dev s)) [] s' -> Q tt s') -> wp console_init Q s.
Proof.
  intros Hk Hm Ha -> HQ. unfold console_init. do 2 (wp_step; apply wp_lift, wp_modify). apply wp_lift, wp_serial_init.
  intros d Hd Hs. apply HQ. constructor; cbn; [done|done|by rewrite Hs, app_nil_r|].
  constructor; cbn; [done|done|done|done|]. constructor; [done|]. intros r c Hr Hc.
  change (zlen (@nil (list Z)) - 0 + r) with r.
  assert (Er : shown (vga_mem (c_vga s)) [[]] r c = default 0 (arr (vga_mem (c_vga s)) (r * VGA_COLS + c))).
  { rewrite (shown_nil _ [] r c) by lia. unfold shown. rewrite arr_none by (unfold zlen; cbn; lia). cbn. unfold behind.
    by rewrite (proj2 (Z.ltb_lt r VGA_ROWS)) by lia. }
  cbn. rewrite Er. destruct (arr_lookup (vga_mem (c_vga s)) (r * VGA_COLS + c)) as [x ->]; [unfold VGA_ROWS, VGA_COLS in *; lia|done].
Qed.

(** ** The ports it uses: those of the serial controller *)

Definition uart_port (p : Z) : Prop := 0x3F8 <= p <= 0x3FF.
Definition on_line : relation (console D) := fun s s' => via uart_port (c_dev s) (c_dev s').

#[local] Instance on_line_pre : PreOrder on_line.
Proof. split; [intros s; apply rtc_refl|intros s1 s2 s3; unfold on_line; intros H12 H23; by etrans]. Qed.

Lemma keeps_serial_init : keeps (via uart_port) serial_init.
Proof. unfold serial_init. repeat first [apply (keeps_bind (via (D := D) uart_port)); [|intros] | by apply keeps_outb]. Qed.

Lemma keeps_serial_putc c : keeps (via uart_port) (serial_putc c).
Proof.
  unfold serial_putc. apply (keeps_bind (via uart_port)); [apply (keeps_gets (via uart_port))|]. intros fuel.
  apply (keeps_bind (via uart_port)); [|intros; by apply keeps_outb]. induction fuel as [|fuel IH]; cbn [wait_thr].
  all: apply (keeps_bind (via uart_port)); [by apply keeps_inb|intros v; destruct (_ =? 0)]; first [exact IH | apply keeps_stuck | apply (keeps_ret (via uart_port))].
Qed.

Lemma keeps_on_log {A} (c : M Klog.klog A) : keeps on_line (on_log c).
Proof. apply keeps_lift. intros s k. apply rtc_refl. Qed.
Lemma keeps_on_vga {A} (c : M vga A) : keeps on_line (on_vga c).
Proof. apply keeps_lift. intros s k. apply rtc_refl. Qed.
Lemma keeps_on_dev {A} (c : M D A) : keeps (via uart_port) c -> keeps on_line (on_dev c).
Proof. intros Hc. by apply (keeps_lift_in _ (via uart_port)). Qed.

Lemma keeps_console_init : keeps on_line console_init.
Proof.
  unfold console_init. do 2 (apply (keeps_bind on_line); [apply keeps_on_vga|intros]). apply keeps_on_dev, keeps_serial_init.
Qed.

Lemma keeps_console_putc c : keeps on_line (console_putc c).
Proof.
  unfold console_putc. apply (keeps_bind on_line); [apply keeps_on_log|intros].
  apply (keeps_bind on_line); [apply keeps_on_dev, keeps_serial_putc|intros; apply keeps_on_vga].
Qed.

Lemma keeps_console_write str : keeps on_line (console_write str).
Proof. induction str; cbn [console_write]; [apply (keeps_ret on_line)|]. by apply (keeps_bind on_line); [apply keeps_console_putc|]. Qed.

Lemma keeps_write_u64 stack value : keeps on_line (console_write_u64 stack value).
Proof.
  unfold console_write_u64, put_digits. destruct (value =? 0); [apply keeps_console_putc|]. apply (keeps_bind on_line).
  - generalize 32%nat as fuel, 0 as idx, stack as buf. intros fuel. revert value.
    induction fuel as [|fuel IH]; intros value idx buf; cbn [digits_loop]; destruct (_ && _); try apply (keeps_ret on_line); [apply keeps_stuck|].
    destruct (arr buf idx); [apply IH|apply keeps_stuck].
  - intros r. apply (keeps_for_all on_line). intros i. apply (keeps_bind on_line); [apply (keeps_rd on_line)|]. intros c. apply keeps_console_putc.
Qed.

(** ** Properties *)

(** C29: the console shows what is written.  Started on any screen, with text of any
    length, it ends without a store outside the screen or a wait that does not end;
    the log holds the end of the text, the serial line has sent all of it, and the
    screen shows its last 25 lines, a line ending at a newline or after 80
    characters: a cell of the screen is the byte of the character plus 256 times the
    attribute 7, and a cell that no character reached is as it was before, or blank
    where the screen scrolled. *)
Theorem console_write_spec s str :
  zlen (Klog.ring (c_log s)) = Klog.KLOG_CAP -> zlen (vga_mem (c_vga s)) = VGA_ROWS * VGA_COLS -> vga_attr (c_vga s) = ATTR ->
  wp (on_log Klog.klog_init ;; console_init ;; console_write str)
    (fun _ s' => printed (vga_mem (c_vga s)) (sent (c_dev s)) str s') s.
Proof.
  intros Hk Hm Ha. wp_step. apply wp_lift. unfold Klog.klog_init. wp_go. eapply (wp_console_init []); [|done|done|done|].
  { cbn. constructor; cbn; [done|by constructor|]. unfold Klog.log_of. cbn. by rewrite Ring.items_empty. }
  intros s1 H1. by eapply wp_console_write.
Qed.

(** What the exception handler prints can be read back.  The report of an
    exception is written whole, and the numbers in it are the vector, the error
    code, the saved registers, the faulting address for a page fault only, and the
    stack pointer, every one as it was. *)
Theorem exception_report_roundtrip m0 base text s cr2 sp vec err rip cs rflags rest :
  printed m0 base text s -> Forall is_u64 [cr2; sp; vec; err; rip; cs; rflags] ->
  wp (nm_exception_dispatch cr2 sp (vec :: err :: rip :: cs :: rflags :: rest)) (fun _ s' => exists msg,
    printed m0 base (text ++ msg) s' /\ numbers msg = [vec; err; rip; cs; rflags] ++ (if vec =? 14 then [cr2] else []) ++ [sp]) s.
Proof.
  intros Hp Hall. eapply wp_report; [done|]. intros s' Hp'. eexists. split; [done|].
  repeat (apply Forall_cons in Hall as [? Hall]). rewrite numbers_report; [by destruct (vec =? 14)|].
  repeat (apply Forall_cons; split); try done. by destruct (vec =? 14).
Qed.
End spec.

(** *** A concrete serial controller: busy for two reads after each character *)

Record com := mk_com { com_lcr : Z; com_busy : nat; com_sent : list Z }.

#[export] Program Instance com_ports : PortIO com := {
  port_in p d :=
    if p =? 0x3FD then match com_busy d with
      | O => (0x20, d)
      | S k => (0, mk_com (com_lcr d) k (com_sent d))
      end
    else (0xFF, d);
  port_out p v d :=
    if p =? 0x3FB then mk_com v (com_busy d) (com_sent d)
    else if (p =? 0x3F8) && negb (Z.testbit (com_lcr d) 7) then mk_com (com_lcr d) 2 (com_sent d ++ [v])
    else d;
}.
Next Obligation. intros p d. cbn. destruct (p =? 1021); [destruct (com_busy d)|]; split; cbn; lia. Qed.

#[export] Program Instance com_uart : Uart com := {
  lcr := com_lcr; sent := com_sent; thr_empty d := com_busy d = O; thr_wait := com_busy;
}.
Next Obligation. intros d. cbn. destruct (com_busy d) as [|k] eqn:E; cbn; split_and!; try done. change (Z.land 0 32 =? 0) with true. cbv iota. lia. Qed.
Next Obligation. done. Qed.
Next Obligation. by intros p v d [->|[->| ->]]. Qed.
Next Obligation. intros v d Hb. cbn -[Z.testbit]. by rewrite Hb. Qed.
Next Obligation. intros v d Hb _. cbn -[Z.testbit]. by rewrite Hb. Qed.

Definition console0 : console com :=
  mk_console Klog.klog0 (mk_com 0x83 5 []) (mk_vga (replicate 2000 0x0741) 3 9 7).

Lemma console_write_witness :
  wp (on_log Klog.klog_init ;; console_init ;; console_write (chars "boot"))
    (fun _ s' => printed (vga_mem (c_vga console0)) (sent (c_dev console0)) (chars "boot") s') console0.
Proof. apply (console_write_spec console0 (chars "boot")); vm_compute; reflexivity. Defined.

Definition console1 : console com := Eval vm_compute in
  match (on_log Klog.klog_init ;; console_init) console0 with Done _ s => s | Stuck _ => console0 end.

Lemma console1_printed : printed (replicate 2000 0x0741) [] [] console1.
Proof.
  assert (Hw : wp (on_log Klog.klog_init ;; console_init) (fun _ => printed (replicate 2000 0x0741) [] []) console0).
  { wp_step. apply wp_lift. unfold Klog.klog_init. wp_go. eapply (wp_console_init []); [|done..|done].
    cbn. constructor; cbn; [done|by constructor|done]. }
  exact Hw.
Qed.

Lemma exception_report_witness :
  wp (nm_exception_dispatch 4096 1000 [14; 2; 1048576; 8; 582]) (fun _ s' => exists msg,
    printed (replicate 2000 0x0741) [] ([] ++ msg) s' /\
    numbers msg = [14; 2; 1048576; 8; 582] ++ (if 14 =? 14 then [4096] else []) ++ [1000]) console1.
Proof.
  apply (exception_report_roundtrip (replicate 2000 0x0741) [] [] console1 4096 1000 14 2 1048576 8 582 []).
  - exact console1_printed.
  - repeat constructor; discriminate.
Defined.

End Console.
