(* ===== verification/Irq.v ===== *)
(** * Interrupt dispatch ([include/nm/irq.h], [kernel/drivers/irq.c], [kernel/irq_isr.c])

    The table of handlers, and the queue of bottom halves that interrupts defer.
    Handlers are function pointers; what a handler does is a parameter, a
    function of the drivers' state, which is apart from the tables here (the
    handlers of the repository, [pit_irq_top] and [keyboard_irq_top], touch only
    their driver). *)

From S2P Require Import Prelude Ring.
Import Ring.

Module Irq.

Definition NM_MAX_IRQ : Z := 256.
Definition NM_BH_QUEUE_CAP : Z := 256.

Record nm_irq_desc := mk_desc {
  used : bool;
  irq : Z;
  top_half : Z;
  bottom_half : Z;
  ctx : Z;
  name : Z;
  hit_count : Z;
}.

Record bh_item := mk_item { fn : Z; item_ctx : Z }.

(** The static data of [irq.c], with the drivers' state [world]. *)
Record irqst (W : Type) := mk_irqst {
  irq_table : list nm_irq_desc;
  bh_queue : list bh_item;
  bh_head : Z;
  bh_tail : Z;
  irq_lock_word : Z;
  world : W;
}.
Arguments mk_irqst {W} _ _ _ _ _ _.
Arguments irq_table {W} _.
Arguments bh_queue {W} _.
Arguments bh_head {W} _.
Arguments bh_tail {W} _.
Arguments irq_lock_word {W} _.
Arguments world {W} _.

Section ops.
Context {W : Type}.
(** What the handler [f] does on interrupt [i] with its context. *)
Context (run_top : Z -> Z -> Z -> W -> W) (run_bottom : Z -> Z -> W -> W).
(** The acknowledgement to the interrupt controller. *)
Context (pic_send_eoi : Z -> W -> W).
Implicit Types (s : irqst W).

Definition set_table v s := mk_irqst v (bh_queue s) (bh_head s) (bh_tail s) (irq_lock_word s) (world s).
Definition set_queue v s := mk_irqst (irq_table s) v (bh_head s) (bh_tail s) (irq_lock_word s) (world s).
Definition set_bh_head v s := mk_irqst (irq_table s) (bh_queue s) v (bh_tail s) (irq_lock_word s) (world s).
Definition set_bh_tail v s := mk_irqst (irq_table s) (bh_queue s) (bh_head s) v (irq_lock_word s) (world s).
Definition set_irq_lock v s := mk_irqst (irq_table s) (bh_queue s) (bh_head s) (bh_tail s) v (world s).
Definition set_world (v : W) s :=
  mk_irqst (irq_table s) (bh_queue s) (bh_head s) (bh_tail s) (irq_lock_word s) v.

Definition irq_lock : M (irqst W) unit := fun s =>
  if irq_lock_word s =? 0 then Done tt (set_irq_lock 1 s) else Stuck LockHeld.
Definition irq_unlock : M (irqst W) unit := modify (set_irq_lock 0).
Definition call (f : W -> W) : M (irqst W) unit := modify (fun s => set_world (f (world s)) s).
Definition mod_desc (i : Z) (f : nm_irq_desc -> nm_irq_desc) : M (irqst W) unit :=
  modify_at irq_table set_table i f.

Definition bh_enqueue (f c : Z) : M (irqst W) Z :=
  t ← gets bh_tail;
  h ← gets bh_head;
  let next := u64 (t + 1) `mod` NM_BH_QUEUE_CAP in
  if next =? h then mret (NM_ERR NM_EBUSY) else
  wr bh_queue set_queue t (mk_item f c) ;;
  modify (set_bh_tail next) ;;
  mret 0.

Definition irq_init : M (irqst W) unit :=
  modify (set_irq_lock 0) ;;
  irq_lock ;;
  for_all (upto 0 NM_MAX_IRQ) (fun i => mod_desc i (fun _ => mk_desc false i 0 0 0 0 0)) ;;
  modify (set_bh_head 0) ;;
  modify (set_bh_tail 0) ;;
  irq_unlock.

Definition bad_irq (i : Z) : bool := (i <? 0) || (NM_MAX_IRQ <=? i).

Definition irq_register (i top bottom c nm : Z) : M (irqst W) Z :=
  if bad_irq i || (top =? 0) then mret (NM_ERR NM_EFAIL) else
  irq_lock ;;
  mod_desc i (fun d => mk_desc true (irq d) top bottom c nm 0) ;;
  irq_unlock ;;
  mret 0.

Definition irq_unregister (i : Z) : M (irqst W) Z :=
  if bad_irq i then mret (NM_ERR NM_EFAIL) else
  irq_lock ;;
  mod_desc i (fun d => mk_desc false (irq d) 0 0 0 0 0) ;;
  irq_unlock ;;
  mret 0.

Definition hit (d : nm_irq_desc) : nm_irq_desc :=
  mk_desc (used d) (irq d) (top_half d) (bottom_half d) (ctx d) (name d) (u64 (hit_count d + 1)).

Definition irq_handle (i : Z) : M (irqst W) Z :=
  if bad_irq i then mret (NM_ERR NM_EFAIL) else
  irq_lock ;;
  d ← rd irq_table i;
  if negb (used d) || (top_half d =? 0) then irq_unlock ;; mret (NM_ERR NM_EFAIL) else
  mod_desc i hit ;;
  irq_unlock ;;
  call (run_top (top_half d) i (ctx d)) ;;
  (if negb (bottom_half d =? 0)
   then irq_lock ;; bh_enqueue (bottom_half d) (ctx d) ;; irq_unlock
   else mret tt) ;;
  mret 0.

(** The loop takes one item per turn, so as many turns as the queue has slots
    are enough. *)
Fixpoint run_bottoms (fuel : nat) : M (irqst W) unit :=
  irq_lock ;;
  h ← gets bh_head;
  t ← gets bh_tail;
  if h =? t then irq_unlock else
  match fuel with
  | O => stuck OutOfFuel
  | S fuel =>
      item ← rd bh_queue h;
      modify (set_bh_head (u64 (h + 1) `mod` NM_BH_QUEUE_CAP)) ;;
      irq_unlock ;;
      (if negb (fn item =? 0) then call (run_bottom (fn item) (item_ctx item)) else mret tt) ;;
      run_bottoms fuel
  end.

Definition irq_run_bottom_halves : M (irqst W) unit := run_bottoms (Z.to_nat NM_BH_QUEUE_CAP).

Definition irq_get_desc (i : Z) : M (irqst W) (option Z) :=
  if bad_irq i then mret None else
  irq_lock ;;
  d ← rd irq_table i;
  irq_unlock ;;
  mret (if used d then Some i else None).

Definition nm_irq_isr (vector : Z) : M (irqst W) unit :=
  if (32 <=? vector) && (vector <? 48)
  then irq_handle vector ;; call (pic_send_eoi (u8 (vector - 32)))
  else irq_handle (i32 vector) ;; mret tt.

(** ** Specification *)

Definition item0 : bh_item := mk_item 0 0.

(** The bottom halves waiting, oldest first. *)
Definition pending s : list bh_item := items item0 NM_BH_QUEUE_CAP (bh_queue s) (bh_head s) (bh_tail s).

Record irq_inv s : Prop := mk_irq_inv {
  ii_table : zlen (irq_table s) = NM_MAX_IRQ;
  ii_queue : ring_ok NM_BH_QUEUE_CAP (bh_queue s) (bh_head s) (bh_tail s);
  ii_lock : irq_lock_word s = 0;
}.

Lemma wp_irq_lock s (Q : unit -> irqst W -> Prop) :
  irq_lock_word s = 0 -> Q tt (set_irq_lock 1 s) -> wp irq_lock Q s.
Proof. unfold wp, irq_lock. by intros ->. Qed.

Lemma wp_irq_unlock s (Q : unit -> irqst W -> Prop) : Q tt (set_irq_lock 0 s) -> wp irq_unlock Q s.
Proof. done. Qed.

Lemma bh_next i : 0 <= i < NM_BH_QUEUE_CAP -> u64 (i + 1) `mod` NM_BH_QUEUE_CAP = (i + 1) `mod` NM_BH_QUEUE_CAP.
Proof. intros. by rewrite u64_small by (unfold NM_BH_QUEUE_CAP in *; lia). Qed.

Lemma pending_len s : irq_inv s -> zlen (pending s) = span NM_BH_QUEUE_CAP (bh_head s) (bh_tail s).
Proof. intros [_ Hq _]. apply items_len, Hq. Qed.

(** Deferring: the item goes to the end of the queue, unless 255 are waiting. *)
Lemma wp_enqueue s f c (Q : Z -> irqst W -> Prop) :
  ring_ok NM_BH_QUEUE_CAP (bh_queue s) (bh_head s) (bh_tail s) ->
  (zlen (pending s) = NM_BH_QUEUE_CAP - 1 -> Q (NM_ERR NM_EBUSY) s) ->
  (forall s', ring_ok NM_BH_QUEUE_CAP (bh_queue s') (bh_head s') (bh_tail s') ->
     pending s' = pending s ++ [mk_item f c] -> zlen (pending s) < NM_BH_QUEUE_CAP - 1 ->
     irq_table s' = irq_table s -> irq_lock_word s' = irq_lock_word s -> world s' = world s -> Q 0 s') ->
  wp (bh_enqueue f c) Q s.
Proof.
  intros Hok Hfull Hput. pose proof Hok as [Hn Hl Hh Ht]. unfold bh_enqueue. do 4 wp_step. cbv zeta.
  rewrite bh_next by done.
  assert (Hlen : zlen (pending s) = span NM_BH_QUEUE_CAP (bh_head s) (bh_tail s)) by (by apply items_len).
  destruct (Z.eqb_spec ((bh_tail s + 1) `mod` NM_BH_QUEUE_CAP) (bh_head s)) as [E|Hne].
  - apply wp_ret, Hfull. rewrite Hlen. by apply full_span.
  - wp_step. apply wp_wr; [lia|]. wp_go. apply Hput; try done; simpl.
    + by apply ring_push_ok.
    + unfold pending. simpl. by apply items_push.
    + rewrite Hlen. pose proof (next_span _ _ _ Hh Ht Hne) as Hs.
      pose proof (span_range NM_BH_QUEUE_CAP (bh_head s) ((bh_tail s + 1) `mod` NM_BH_QUEUE_CAP) Hn). lia.
Qed.

(** What [irq_handle] does with the descriptor [d] of the interrupt. *)
Definition handled s (i : Z) (r : Z) s' : Prop :=
  irq_inv s' /\
  match arr (irq_table s) i with
  | Some d =>
      if used d && negb (top_half d =? 0) then
        r = 0 /\ world s' = run_top (top_half d) i (ctx d) (world s) /\
        irq_table s' = upd (irq_table s) i (hit d) /\
        pending s' = pending s ++
          (if negb (bottom_half d =? 0) && (zlen (pending s) <? NM_BH_QUEUE_CAP - 1)
           then [mk_item (bottom_half d) (ctx d)] else [])
      else r = NM_ERR NM_EFAIL /\ s' = s
  | None => r = NM_ERR NM_EFAIL /\ s' = s
  end.

Lemma irq_relock s : irq_lock_word s = 0 -> set_irq_lock 0 (set_irq_lock 1 s) = s.
Proof. intros Hl. destruct s. by simplify_eq/=. Qed.

Lemma wp_handle s i (Q : Z -> irqst W -> Prop) :
  irq_inv s -> (forall r s', handled s i r s' -> Q r s') -> wp (irq_handle i) Q s.
Proof.
  intros Hi HQ. pose proof Hi as [Ht Hq Hl]. unfold handled in HQ. unfold irq_handle, bad_irq.
  destruct (Z.ltb_spec i 0), (Z.leb_spec NM_MAX_IRQ i); cbn [orb];
    try (apply wp_ret, HQ; split; [done|]; by rewrite arr_none by lia).
  destruct (arr_lookup (irq_table s) i) as [d Hd]; [lia|]. rewrite Hd in HQ.
  wp_step. apply wp_irq_lock; [done|]. wp_step. eapply wp_rd; [exact Hd|].
  destruct (used d) eqn:Eu; cbn [negb orb andb] in *;
    [|wp_step; apply wp_irq_unlock; rewrite irq_relock by done; wp_go; by apply HQ].
  destruct (Z.eqb_spec (top_half d) 0) as [E|Hne]; cbn [negb] in *;
    [wp_step; apply wp_irq_unlock; rewrite irq_relock by done; wp_go; by apply HQ|].
  wp_step. eapply wp_modify_at; [exact Hd|]. wp_step. apply wp_irq_unlock.
  wp_step. apply wp_modify. wp_step. destruct (Z.eqb_spec (bottom_half d) 0) as [Eb|Hnb]; cbn [negb andb] in *.
  - wp_go. apply HQ. split; [constructor; simpl; [by rewrite zlen_upd|done|done]|].
    split_and!; [done|done|done|by rewrite app_nil_r].
  - wp_step. apply wp_irq_lock; [done|]. wp_step. apply wp_enqueue; [done| |].
    + intros Hfull. change (zlen (pending s) = NM_BH_QUEUE_CAP - 1) in Hfull.
      apply wp_irq_unlock. wp_go. apply HQ. split; [constructor; simpl; [by rewrite zlen_upd|done|done]|].
      split_and!; [done|done|done|]. rewrite Hfull. destruct (Z.ltb_spec (NM_BH_QUEUE_CAP - 1) (NM_BH_QUEUE_CAP - 1)); [lia|].
      by rewrite app_nil_r.
    + intros s' Hok' Hp Hlt Htb _ Hw. change (zlen (pending s) < NM_BH_QUEUE_CAP - 1) in Hlt.
      apply wp_irq_unlock. wp_go. apply HQ. split.
      { constructor; simpl; [rewrite Htb; simpl; by rewrite zlen_upd|done|done]. }
      split_and!; [done|by simpl; rewrite Hw|by simpl; rewrite Htb|].
      change (pending (set_irq_lock 0 s')) with (pending s'). rewrite Hp.
      destruct (Z.ltb_spec (zlen (pending s)) (NM_BH_QUEUE_CAP - 1)); [done|lia].
Qed.

(** Starting: no handler and nothing deferred. *)
Lemma wp_irq_init s (Q : unit -> irqst W -> Prop) :
  zlen (irq_table s) = NM_MAX_IRQ -> zlen (bh_queue s) = NM_BH_QUEUE_CAP ->
  (forall s', irq_inv s' -> pending s' = [] -> world s' = world s ->
     (forall i, 0 <= i < NM_MAX_IRQ -> arr (irq_table s') i = Some (mk_desc false i 0 0 0 0 0)) -> Q tt s') ->
  wp irq_init Q s.
Proof.
  intros Ht Hq HQ. unfold irq_init. do 2 wp_step. wp_step. apply wp_irq_lock; [done|]. wp_step.
  apply (wp_for_all (fun i t => zlen (irq_table t) = NM_MAX_IRQ /\ bh_queue t = bh_queue s /\ world t = world s /\
    forall j, 0 <= j < i -> arr (irq_table t) j = Some (mk_desc false j 0 0 0 0 0))).
  - done.
  - split_and!; [done|done|done|lia].
  - intros i t Hi (Hl & Hb & Hw & Hd). destruct (arr_lookup (irq_table t) i) as [d Ed]; [lia|].
    eapply wp_modify_at; [done|]. cbn. split_and!; [by rewrite zlen_upd|done|done|]. intros j Hj.
    rewrite arr_upd by lia. destruct (Z.eqb_spec i j) as [->|]; [done|]. apply Hd. lia.
  - intros t (Hl & Hb & Hw & Hd). do 4 wp_step. apply wp_irq_unlock, HQ; [|by apply items_empty|done|done].
    constructor; cbn; [done|constructor; by rewrite ?Hb|done].
Qed.

Lemma wp_irq_register s i top bottom c nm (Q : Z -> irqst W -> Prop) :
  irq_inv s -> 0 <= i < NM_MAX_IRQ -> top <> 0 ->
  (forall s' n, irq_inv s' -> pending s' = pending s -> world s' = world s ->
     irq_table s' = upd (irq_table s) i (mk_desc true n top bottom c nm 0) -> Q 0 s') ->
  wp (irq_register i top bottom c nm) Q s.
Proof.
  intros Hi Hr Htop HQ. pose proof Hi as [Ht Hq Hl]. unfold irq_register, bad_irq.
  rewrite (proj2 (Z.ltb_ge i 0)), (proj2 (Z.leb_gt NM_MAX_IRQ i)), (proj2 (Z.eqb_neq top 0)) by lia. cbn [orb].
  destruct (arr_lookup (irq_table s) i) as [d Hd]; [lia|]. wp_step. apply wp_irq_lock; [done|]. wp_step.
  eapply wp_modify_at; [exact Hd|]. wp_step. apply wp_irq_unlock, wp_ret. eapply HQ; [|done|done|done].
  constructor; cbn; [by rewrite zlen_upd|done|done].
Qed.

(** The effect of running a list of bottom halves in order. *)
Definition run_items (l : list bh_item) (w : W) : W :=
  foldl (fun w it => if fn it =? 0 then w else run_bottom (fn it) (item_ctx it) w) w l.

Lemma wp_run_bottoms fuel s (Q : unit -> irqst W -> Prop) :
  irq_inv s -> zlen (pending s) <= Z.of_nat fuel ->
  (forall s', irq_inv s' -> pending s' = [] -> irq_table s' = irq_table s ->
     world s' = run_items (pending s) (world s) -> Q tt s') ->
  wp (run_bottoms fuel) Q s.
Proof.
  revert s. induction fuel as [|fuel IH]; intros s Hi Hf HQ; pose proof Hi as [Ht Hq Hl];
    pose proof Hq as [Hn Hlq Hh Htl]; simpl; wp_step; (apply wp_irq_lock; [done|]); do 4 wp_step; simpl;
    (destruct (Z.eqb_spec (bh_head s) (bh_tail s)) as [E|Hne];
      [apply wp_irq_unlock; rewrite irq_relock by done;
       assert (Hp : pending s = []) by (unfold pending; rewrite E; apply items_empty);
       apply HQ; [done|done|done|by rewrite Hp]|]).
  - exfalso. apply Hne, (span_empty NM_BH_QUEUE_CAP); [done|done|]. rewrite pending_len in Hf by done.
    pose proof (span_range NM_BH_QUEUE_CAP (bh_head s) (bh_tail s) Hn). lia.
  - assert (Hpop : pending s = slot item0 NM_BH_QUEUE_CAP (bh_queue s) (bh_head s) ::
      pending (set_bh_head ((bh_head s + 1) `mod` NM_BH_QUEUE_CAP) s)) by (by apply items_pop).
    set (it := slot item0 NM_BH_QUEUE_CAP (bh_queue s) (bh_head s)) in *.
    wp_step. eapply wp_rd; [simpl; by eapply (slot_arr item0)|]. fold it. rewrite bh_next by done.
    do 3 wp_step. apply wp_irq_unlock. wp_step.
    assert (Hrest : forall w, w = (if fn it =? 0 then world s else run_bottom (fn it) (item_ctx it) (world s)) ->
      wp (run_bottoms fuel) Q (mk_irqst (irq_table s) (bh_queue s) ((bh_head s + 1) `mod` NM_BH_QUEUE_CAP)
        (bh_tail s) 0 w)).
    { intros w Hw. apply IH.
      - constructor; simpl; [done|by apply ring_pop_ok|done].
      - change (pending (mk_irqst _ _ _ _ _ _)) with
          (pending (set_bh_head ((bh_head s + 1) `mod` NM_BH_QUEUE_CAP) s)).
        rewrite Hpop in Hf. unfold zlen in *. simpl in Hf. lia.
      - intros s' Hi' Hp' Htb Hw'. apply HQ; [done|done|done|]. rewrite Hw', Hpop. simpl. by rewrite Hw. }
    destruct (fn it =? 0) eqn:Ef; cbn [negb].
    + apply wp_ret. by apply Hrest.
    + apply (wp_modify (S := irqst W)). by apply Hrest.
Qed.

(** A burst of interrupts. *)
Fixpoint burst (ns : list Z) : M (irqst W) unit :=
  match ns with
  | [] => mret tt
  | i :: ns => irq_handle i ;; burst ns
  end.

(** What the table makes of interrupt [i]: the effect of its top half and the
    bottom half it defers. *)
Definition live_desc (tbl : list nm_irq_desc) (i : Z) : option nm_irq_desc :=
  d ← arr tbl i; if used d && negb (top_half d =? 0) then Some d else None.
Definition topped (tbl : list nm_irq_desc) (i : Z) (w : W) : W :=
  match live_desc tbl i with Some d => run_top (top_half d) i (ctx d) w | None => w end.
Definition deferred (tbl : list nm_irq_desc) (i : Z) : list bh_item :=
  match live_desc tbl i with
  | Some d => if bottom_half d =? 0 then [] else [mk_item (bottom_half d) (ctx d)]
  | None => []
  end.

(** Counting a hit does not change what the table does. *)
Lemma live_desc_hit tbl i d j :
  arr tbl i = Some d ->
  live_desc (upd tbl i (hit d)) j = if i =? j then hit <$> live_desc tbl j else live_desc tbl j.
Proof.
  intros Hd. unfold live_desc. rewrite arr_upd by (by eapply arr_range).
  destruct (Z.eqb_spec i j) as [<-|]; [|done]. rewrite Hd. simpl. by destruct (used d && _).
Qed.

Lemma topped_hit tbl i d j w : arr tbl i = Some d -> topped (upd tbl i (hit d)) j w = topped tbl j w.
Proof.
  intros Hd. unfold topped. rewrite (live_desc_hit _ _ _ _ Hd).
  destruct (i =? j); [|done]. by destruct (live_desc tbl j).
Qed.

Lemma deferred_hit tbl i d j : arr tbl i = Some d -> deferred (upd tbl i (hit d)) j = deferred tbl j.
Proof.
  intros Hd. unfold deferred. rewrite (live_desc_hit _ _ _ _ Hd).
  destruct (i =? j); [|done]. by destruct (live_desc tbl j).
Qed.

Definition all_topped (tbl : list nm_irq_desc) (ns : list Z) (w : W) : W :=
  foldl (fun w i => topped tbl i w) w ns.
Definition all_deferred (tbl : list nm_irq_desc) (ns : list Z) : list bh_item :=
  mjoin (deferred tbl <$> ns).

Lemma handled_next s i r s' :
  handled s i r s' -> zlen (pending s) + zlen (deferred (irq_table s) i) <= NM_BH_QUEUE_CAP - 1 ->
  irq_inv s' /\ world s' = topped (irq_table s) i (world s) /\
  pending s' = pending s ++ deferred (irq_table s) i /\
  (forall j w, topped (irq_table s') j w = topped (irq_table s) j w) /\
  (forall j, deferred (irq_table s') j = deferred (irq_table s) j).
Proof.
  intros [Hi Hh] Hroom. split; [done|]. unfold topped at 1, deferred at 1, live_desc.
  unfold deferred, live_desc in Hroom.
  destruct (arr (irq_table s) i) as [d|] eqn:Hd; simpl in *.
  2:{ destruct Hh as [_ ->]. by rewrite app_nil_r. }
  destruct (used d && negb (top_half d =? 0)) eqn:Eu; simpl in *.
  2:{ destruct Hh as [_ ->]. by rewrite app_nil_r. }
  destruct Hh as (_ & Hw & Ht & Hp). split_and!; [done| |..].
  - rewrite Hp. destruct (bottom_half d =? 0); simpl in *; [done|].
    destruct (Z.ltb_spec (zlen (pending s)) (NM_BH_QUEUE_CAP - 1)); [done|]. unfold zlen in *. simpl in *. lia.
  - intros j w. rewrite Ht. by apply topped_hit.
  - intros j. rewrite Ht. by apply deferred_hit.
Qed.

Lemma all_deferred_cons tbl i ns : all_deferred tbl (i :: ns) = deferred tbl i ++ all_deferred tbl ns.
Proof. done. Qed.

Lemma wp_burst ns s (Q : unit -> irqst W -> Prop) :
  irq_inv s -> zlen (pending s) + zlen (all_deferred (irq_table s) ns) <= NM_BH_QUEUE_CAP - 1 ->
  (forall s', irq_inv s' -> world s' = all_topped (irq_table s) ns (world s) ->
     pending s' = pending s ++ all_deferred (irq_table s) ns -> Q tt s') ->
  wp (burst ns) Q s.
Proof.
  revert s. induction ns as [|i ns IH]; intros s Hi Hroom HQ; simpl.
  { apply wp_ret, HQ; [done|done|]. by rewrite app_nil_r. }
  rewrite all_deferred_cons in *. unfold zlen in Hroom. rewrite length_app in Hroom.
  wp_step. apply wp_handle; [done|]. intros r s' Hh.
  destruct (handled_next _ _ _ _ Hh) as (Hi' & Hw & Hp & Ht & Hd); [unfold zlen; lia|].
  assert (Hall : all_deferred (irq_table s') ns = all_deferred (irq_table s) ns).
  { unfold all_deferred. f_equal. apply list_fmap_ext. intros ? j _. apply Hd. }
  assert (Htop : forall w, all_topped (irq_table s') ns w = all_topped (irq_table s) ns w).
  { clear -Ht. unfold all_topped. induction ns as [|j ns IH]; intros w; simpl; [done|]. by rewrite Ht, IH. }
  apply IH; [done| |].
  - rewrite Hall, Hp. unfold zlen. rewrite length_app. lia.
  - intros s2 Hi2 Hw2 Hp2. apply HQ; [done| |].
    + by rewrite Hw2, Htop, Hw.
    + by rewrite Hp2, Hall, Hp, app_assoc.
Qed.

(** ** Properties *)

(** C34: deferred work runs once, in order.  When a burst of interrupts defers no
    more bottom halves than the queue has room for, the top halves run at once in
    the order of the interrupts, and [irq_run_bottom_halves] then terminates and
    runs every bottom half that was pending or was deferred exactly once, first
    in first out, leaving the queue empty. *)
Theorem bottom_halves_fifo s ns :
  irq_inv s -> zlen (pending s) + zlen (all_deferred (irq_table s) ns) <= NM_BH_QUEUE_CAP - 1 ->
  wp (burst ns ;; irq_run_bottom_halves) (fun _ s' => irq_inv s' /\ pending s' = [] /\
    world s' = run_items (pending s ++ all_deferred (irq_table s) ns)
                 (all_topped (irq_table s) ns (world s))) s.
Proof.
  intros Hi Hroom. wp_step. apply wp_burst; [done|done|]. intros s1 Hi1 Hw Hp.
  unfold irq_run_bottom_halves. apply wp_run_bottoms; [done| |].
  - rewrite Hp. unfold zlen in *. rewrite length_app. unfold NM_BH_QUEUE_CAP in *. lia.
  - intros s2 Hi2 Hp2 _ Hw2. split_and!; [done|done|]. by rewrite Hw2, Hp, Hw.
Qed.

(** [irq_handle] on every branch.  A number out of range and an interrupt
    without a handler are errors that change nothing; else the top half runs with
    its context, the hit is counted, and the bottom half, if there is one, is
    queued, unless 255 are waiting, in which case it is dropped. *)
Theorem irq_handle_spec s i : irq_inv s -> wp (irq_handle i) (handled s i) s.
Proof. intros. by apply wp_handle. Qed.
End ops.

(** *** A concrete machine: the drivers' state is the list of calls made *)

Definition log_top (f i c : Z) (w : list (Z * Z)) : list (Z * Z) := w ++ [(f, c)].
Definition log_bottom (f c : Z) (w : list (Z * Z)) : list (Z * Z) := w ++ [(f, c)].
Definition irq0 : irqst (list (Z * Z)) :=
  mk_irqst (replicate 256 (mk_desc false 0 0 0 0 0 0)) (replicate 256 item0) 0 0 0 [].
Definition irq1 : irqst (list (Z * Z)) := Eval vm_compute in
  match (irq_init ;; irq_register 32 100 200 7 0 ;; irq_register 33 101 201 8 0) irq0 with
  | Done _ s => s
  | Stuck _ => irq0
  end.

Lemma irq1_inv : irq_inv irq1.
Proof. constructor; [done| |done]. by constructor. Qed.

Lemma bottom_halves_fifo_witness :
  wp (burst log_top [32; 33; 32] ;; irq_run_bottom_halves log_bottom) (fun _ s' =>
    irq_inv s' /\ pending s' = [] /\
    world s' = run_items log_bottom (pending irq1 ++ all_deferred (irq_table irq1) [32; 33; 32])
                 (all_topped log_top (irq_table irq1) [32; 33; 32] (world irq1))) irq1.
Proof.
  apply (bottom_halves_fifo log_top log_bottom irq1 [32; 33; 32]); [exact irq1_inv|].
  vm_compute. discriminate.
Defined.

Lemma irq_handle_witness : irq_inv irq1 /\ wp (irq_handle log_top 33) (handled log_top irq1 33) irq1.
Proof. split; [exact irq1_inv|]. apply (irq_handle_spec log_top irq1 33). exact irq1_inv. Defined.

End Irq.
