(* ===== verification/Drivers.v ===== *)
(** * The interrupt controller, the timer and the keyboard
    ([kernel/drivers/pic.c], [kernel/drivers/pit.c], [kernel/drivers/keyboard.c])

    The drivers over the ports of [Ports], and their handlers as the handlers of
    [Irq].  What the drivers rely on of the two interrupt controllers (8259) and
    of the keyboard controller (8042) are the classes [Pic8259] and [Kbd8042]. *)

From S2P Require Import Prelude Ports Ring Irq.
From Stdlib Require Import String Ascii.
Import Ports.

(** One interrupt controller: the vector of its first line, the mask register,
    the initialisation word it expects next ([0] when it operates), and the ends
    of interrupt it was told. *)
Record chip := mk_chip { base : Z; imr : Z; icw : Z; eois : Z }.

(** The command port: 0x11 starts the initialisation, which clears the mask and
    waits for three words; 0x20 ends the interrupt in service. *)
Definition chip_command (v : Z) (c : chip) : chip :=
  if v =? 0x11 then mk_chip (base c) 0 2 (eois c) else mk_chip (base c) (imr c) (icw c) (eois c + 1).

(** The data port: the words of the initialisation, then the mask. *)
Definition chip_data (v : Z) (c : chip) : chip :=
  if icw c =? 2 then mk_chip (Z.land v 0xF8) (imr c) 3 (eois c)
  else if icw c =? 3 then mk_chip (base c) (imr c) 4 (eois c)
  else if icw c =? 4 then mk_chip (base c) (imr c) 0 (eois c)
  else mk_chip (base c) v (icw c) (eois c).

Class Pic8259 (D : Type) `{PortIO D} := {
  pics : D -> chip * chip;

  pic_cmd1 v d : v = 0x11 \/ v = 0x20 -> pics (port_out 0x20 v d) = (chip_command v (pics d).1, (pics d).2);
  pic_cmd2 v d : v = 0x11 \/ v = 0x20 -> pics (port_out 0xA0 v d) = ((pics d).1, chip_command v (pics d).2);
  pic_data1 v d : pics (port_out 0x21 v d) = (chip_data v (pics d).1, (pics d).2);
  pic_data2 v d : pics (port_out 0xA1 v d) = ((pics d).1, chip_data v (pics d).2);
  pic_wait v d : pics (port_out 0x80 v d) = pics d;
  pic_read1 d : pics (port_in 0x21 d).2 = pics d /\ (icw (pics d).1 = 0 -> (port_in 0x21 d).1 = u8 (imr (pics d).1));
  pic_read2 d : pics (port_in 0xA1 d).2 = pics d /\ (icw (pics d).2 = 0 -> (port_in 0xA1 d).1 = u8 (imr (pics d).2));
}.

(** The keyboard controller holds the scan codes of the keys; bit 0 of its status
    says whether there is one. *)
Class Kbd8042 (D : Type) `{PortIO D} := {
  scancodes : D -> list Z;

  kbd_status d : scancodes (port_in 0x64 d).2 = scancodes d /\
    (Z.land (port_in 0x64 d).1 1 = 0 <-> scancodes d = []);
  kbd_data d sc q : scancodes d = sc :: q -> (port_in 0x60 d).1 = u8 sc /\ scancodes (port_in 0x60 d).2 = q;
}.

Module Drivers.

(** ** The interrupt controllers *)

Definition PIC1_COMMAND : Z := 0x20.
Definition PIC1_DATA : Z := 0x21.
Definition PIC2_COMMAND : Z := 0xA0.
Definition PIC2_DATA : Z := 0xA1.
Definition PIC_EOI : Z := 0x20.

Section pic.
Context {D : Type} `{PortIO D}.

Definition pic_remap (offset1 offset2 : Z) : M D unit :=
  a1 ← inb PIC1_DATA;
  a2 ← inb PIC2_DATA;
  outb PIC1_COMMAND 0x11 ;;
  io_wait ;;
  outb PIC2_COMMAND 0x11 ;;
  io_wait ;;
  outb PIC1_DATA offset1 ;;
  io_wait ;;
  outb PIC2_DATA offset2 ;;
  io_wait ;;
  outb PIC1_DATA 0x04 ;;
  io_wait ;;
  outb PIC2_DATA 0x02 ;;
  io_wait ;;
  outb PIC1_DATA 0x01 ;;
  io_wait ;;
  outb PIC2_DATA 0x01 ;;
  io_wait ;;
  outb PIC1_DATA a1 ;;
  outb PIC2_DATA a2.

Definition pic_set_mask (irq_line : Z) (masked : bool) : M D unit :=
  let port := if irq_line <? 8 then PIC1_DATA else PIC2_DATA in
  let line := if irq_line <? 8 then irq_line else u8 (irq_line - 8) in
  value ← inb port;
  if 32 <=? line then stuck BadShift else
  let value :=
    if masked then Z.lor value (u8 (u32 (Z.shiftl 1 line)))
    else Z.land value (u8 (u32 (Z.lnot (u32 (Z.shiftl 1 line))))) in
  outb port value.

Definition pic_send_eoi (irq_line : Z) : M D unit :=
  (if 8 <=? irq_line then outb PIC2_COMMAND PIC_EOI else mret tt) ;;
  outb PIC1_COMMAND PIC_EOI.

Definition pic_init : M D unit :=
  pic_remap 0x20 0x28 ;;
  outb PIC1_DATA 0xFF ;;
  outb PIC2_DATA 0xFF ;;
  pic_set_mask 0 false ;;
  pic_set_mask 1 false.
End pic.

(** ** The timer and the keyboard

    The static data of [pit.c] and [keyboard.c], with the devices. *)

Record drv (D : Type) := mk_drv { g_pit_ticks : Z; g_last_char : Z; d_dev : D }.
Arguments mk_drv {D} _ _ _.
Arguments g_pit_ticks {D} _.
Arguments g_last_char {D} _.
Arguments d_dev {D} _.

Definition PIT_CH0 : Z := 0x40.
Definition PIT_CMD : Z := 0x43.
Definition PIT_BASE_HZ : Z := 1193182.
Definition KBD_DATA_PORT : Z := 0x60.
Definition KBD_STATUS_PORT : Z := 0x64.

(** The table of [scancode_to_ascii]; its other entries are 0. *)
Definition map : list Z :=
  [0; 27] ++ chars "1234567890-=" ++ [8; 9] ++ chars "qwertyuiop[]" ++ [10; 0] ++ chars "asdfghjkl;" ++ chars "'`" ++ [0] ++
  chars "\zxcvbnm,./" ++ [0; 42; 0; 32] ++ replicate 70 0.

Definition scancode_to_ascii {S} (sc : Z) : M S Z := if 128 <=? sc then mret 0 else rd (fun _ => map) sc.

Section drivers.
Context {D : Type} `{PortIO D}.
Implicit Types (w : drv D).

Definition set_ticks v w : drv D := mk_drv v (g_last_char w) (d_dev w).
Definition set_last v w : drv D := mk_drv (g_pit_ticks w) v (d_dev w).
Definition set_dev v w : drv D := mk_drv (g_pit_ticks w) (g_last_char w) v.
Definition on_dev {A} (c : M D A) : M (drv D) A := lift_to d_dev set_dev c.

Definition pit_irq_top : M (drv D) unit :=
  t ← gets g_pit_ticks; modify (set_ticks (u64 (t + 1))).

Definition pit_ticks : M (drv D) Z := gets g_pit_ticks.

Definition keyboard_irq_top : M (drv D) unit :=
  st ← on_dev (inb KBD_STATUS_PORT);
  if Z.land st 1 =? 0 then mret tt else
  sc ← on_dev (inb KBD_DATA_PORT);
  if negb (Z.land sc 0x80 =? 0) then mret tt else
  c ← scancode_to_ascii sc;
  if negb (c =? 0) then modify (set_last c) else mret tt.

Definition keyboard_poll_char : M (drv D) Z :=
  c ← gets g_last_char; modify (set_last (-1)) ;; mret c.

(** ** The handlers in the table of [Irq]

    A handler is a number in the table; these two are the repository's. *)

Definition PIT_TOP : Z := 1.
Definition KEYBOARD_TOP : Z := 2.

(** The state a routine ends in. *)
Definition after {A} (c : M (drv D) A) (w : drv D) : drv D := match c w with Done _ w' => w' | Stuck _ => w end.

Definition run_top (f irq ctx : Z) (w : drv D) : drv D :=
  if f =? PIT_TOP then after pit_irq_top w
  else if f =? KEYBOARD_TOP then after keyboard_irq_top w
  else w.

Definition send_eoi (irq_line : Z) (w : drv D) : drv D := after (on_dev (pic_send_eoi irq_line)) w.

Definition on_drv {A} (c : M (drv D) A) : M (Irq.irqst (drv D)) A := lift_to Irq.world Irq.set_world c.

Definition pit_init (hz : Z) : M (Irq.irqst (drv D)) unit :=
  let hz := if hz =? 0 then 100 else hz in
  let divisor := u16 (PIT_BASE_HZ / hz) in
  on_drv (on_dev (outb PIT_CMD 0x36)) ;;
  on_drv (on_dev (outb PIT_CH0 (u8 (Z.land divisor 0xFF)))) ;;
  on_drv (on_dev (outb PIT_CH0 (u8 (Z.land (Z.shiftr divisor 8) 0xFF)))) ;;
  Irq.irq_register 32 PIT_TOP 0 0 1 ;;
  mret tt.

Definition keyboard_init : M (Irq.irqst (drv D)) unit :=
  Irq.irq_register 33 KEYBOARD_TOP 0 0 2 ;;
  mret tt.

(** The entry for interrupt [vector], with the handlers above. *)
Definition isr (vector : Z) : M (Irq.irqst (drv D)) unit := Irq.nm_irq_isr run_top send_eoi vector.
End drivers.

(** ** Specification of the controllers *)

Definition with_imr (v : Z) (c : chip) : chip := mk_chip (base c) v (icw c) (eois c).

(** A mask with the bit of a line set or cleared. *)
Definition mask_line (line : Z) (masked : bool) (v : Z) : Z :=
  u8 (if masked then Z.lor v (u8 (u32 (Z.shiftl 1 line))) else Z.land v (u8 (u32 (Z.lnot (u32 (Z.shiftl 1 line)))))).

Definition mask_of (ps : chip * chip) (line : Z) : bool :=
  if line <? 8 then Z.testbit (imr ps.1) line else Z.testbit (imr ps.2) (line - 8).

Lemma u8_testbit x i : 0 <= i < 8 -> Z.testbit (u8 x) i = Z.testbit x i.
Proof. intros [? ?]. unfold u8. apply (Z.mod_pow2_bits_low x 8 i). lia. Qed.

Lemma mask_line_bits line masked v i :
  0 <= line < 8 -> 0 <= i < 8 -> Z.testbit (mask_line line masked v) i = if i =? line then masked else Z.testbit v i.
Proof.
  intros Hl Hi. unfold mask_line. rewrite u8_testbit by done. rewrite (Z.eqb_sym i). destruct masked.
  - rewrite Z.lor_spec, u8_testbit, u32_testbit, testbit_one_shift by lia. destruct (line =? i); [apply orb_true_r|apply orb_false_r].
  - rewrite Z.land_spec, u8_testbit, u32_testbit, Z.lnot_spec, u32_testbit, testbit_one_shift by lia.
    destruct (line =? i); [apply andb_false_r|apply andb_true_r].
Qed.

Section picspec.
Context {D : Type} `{Pic8259 D}.
Implicit Types (d : D).

Lemma wp_pic_remap offset1 offset2 d (Q : unit -> D -> Prop) :
  (forall a1 a2 d', pics d' = (mk_chip (Z.land (u8 offset1) 0xF8) a1 0 (eois (pics d).1), mk_chip (Z.land (u8 offset2) 0xF8) a2 0 (eois (pics d).2)) ->
     Q tt d') ->
  wp (pic_remap offset1 offset2) Q d.
Proof.
  intros HQ. unfold pic_remap, io_wait. wp_step. apply wp_inb. intros a1 d1 E1 _. wp_step. apply wp_inb. intros a2 d2 E2 _.
  change (u16 PIC1_DATA) with 0x21 in E1. change (u16 PIC2_DATA) with 0xA1 in E2.
  assert (Ed : pics d2 = pics d).
  { destruct (pic_read1 d) as [P1 _]. destruct (pic_read2 d1) as [P2 _]. rewrite E1 in P1. rewrite E2 in P2. cbn in *. congruence. }
  repeat (wp_step; apply wp_outb). apply wp_outb. apply (HQ (u8 a1) (u8 a2)).
  change (u16 PIC1_DATA) with 0x21. change (u16 PIC2_DATA) with 0xA1. change (u16 PIC1_COMMAND) with 0x20.
  change (u16 PIC2_COMMAND) with 0xA0. change (u16 0x80) with 0x80. change (u8 0x11) with 0x11.
  rewrite !pic_data2, !pic_data1, !pic_wait, !pic_data2, !pic_wait, !pic_data1, !pic_wait, !pic_data2, !pic_wait, !pic_data1,
    !pic_wait, !pic_data2, !pic_wait, !pic_data1, !pic_wait, !pic_cmd2, !pic_wait, !pic_cmd1, Ed by auto.
  done.
Qed.

Lemma wp_pic_set_mask line masked d (Q : unit -> D -> Prop) :
  0 <= line < 16 -> icw (pics d).1 = 0 -> icw (pics d).2 = 0 ->
  (forall d', pics d' = (if line <? 8 then (with_imr (mask_line line masked (u8 (imr (pics d).1))) (pics d).1, (pics d).2)
                         else ((pics d).1, with_imr (mask_line (line - 8) masked (u8 (imr (pics d).2))) (pics d).2)) -> Q tt d') ->
  wp (pic_set_mask line masked) Q d.
Proof.
  intros Hl H1 H2 HQ. unfold pic_set_mask. cbv zeta. revert HQ. destruct (Z.ltb_spec line 8); intros HQ; wp_step; apply wp_inb; intros v d' E _.
  - change (u16 PIC1_DATA) with 0x21 in E. destruct (pic_read1 d) as [Hp Hv]. specialize (Hv H1). rewrite E in Hp, Hv. cbn in Hp, Hv. subst v.
    rewrite (proj2 (Z.leb_gt _ _)) by lia. apply wp_outb, HQ. change (u16 PIC1_DATA) with 0x21.
    rewrite pic_data1, Hp. unfold chip_data, with_imr. by rewrite H1.
  - change (u16 PIC2_DATA) with 0xA1 in E. destruct (pic_read2 d) as [Hp Hv]. specialize (Hv H2). rewrite E in Hp, Hv. cbn in Hp, Hv. subst v.
    rewrite u8_small by lia. rewrite (proj2 (Z.leb_gt _ _)) by lia. apply wp_outb, HQ. change (u16 PIC2_DATA) with 0xA1.
    rewrite pic_data2, Hp. unfold chip_data, with_imr. by rewrite H2.
Qed.

(** Masking changes the bit of its line and no other. *)
Theorem pic_set_mask_spec line masked d :
  0 <= line < 16 -> icw (pics d).1 = 0 -> icw (pics d).2 = 0 ->
  wp (pic_set_mask line masked) (fun _ d' => forall i, 0 <= i < 16 ->
    mask_of (pics d') i = if i =? line then masked else mask_of (pics d) i) d.
Proof.
  intros Hl H1 H2. apply wp_pic_set_mask; [done..|]. intros d' Hd i Hi. unfold mask_of. rewrite Hd.
  destruct (Z.ltb_spec line 8), (Z.ltb_spec i 8); cbn [fst snd imr with_imr].
  - rewrite mask_line_bits by lia. destruct (i =? line); [done|]. apply u8_testbit. lia.
  - by rewrite (proj2 (Z.eqb_neq i line)) by lia.
  - by rewrite (proj2 (Z.eqb_neq i line)) by lia.
  - rewrite mask_line_bits by lia. destruct (Z.eqb_spec i line), (Z.eqb_spec (i - 8) (line - 8)); try lia; [done|]. apply u8_testbit. lia.
Qed.

(** After [pic_init], whatever state the controllers were in, they operate with the
    vectors from 32 and from 40, and every line but the timer and the keyboard is
    masked. *)
Lemma wp_pic_init d (Q : unit -> D -> Prop) :
  (forall d', pics d' = (mk_chip 32 0xFC 0 (eois (pics d).1), mk_chip 40 0xFF 0 (eois (pics d).2)) -> Q tt d') -> wp pic_init Q d.
Proof.
  intros HQ. unfold pic_init. wp_step. apply wp_pic_remap. intros a1 a2 d1 E1. wp_step. apply wp_outb. wp_step. apply wp_outb.
  change (u16 PIC1_DATA) with 0x21. change (u16 PIC2_DATA) with 0xA1. change (u8 0xFF) with 0xFF.
  set (d2 := port_out 0xA1 0xFF (port_out 0x21 0xFF d1)).
  assert (E2 : pics d2 = (mk_chip 32 0xFF 0 (eois (pics d).1), mk_chip 40 0xFF 0 (eois (pics d).2))).
  { unfold d2. by rewrite pic_data2, pic_data1, E1. }
  wp_step. apply wp_pic_set_mask; [lia|by rewrite E2..|]. intros d3 E3. rewrite E2 in E3. cbn in E3.
  apply wp_pic_set_mask; [lia|by rewrite E3..|]. intros d4 E4. rewrite E3 in E4. apply HQ. by rewrite E4.
Qed.

Lemma wp_send_eoi line d (Q : unit -> D -> Prop) :
  (forall d', pics d' = (chip_command 0x20 (pics d).1, if 8 <=? line then chip_command 0x20 (pics d).2 else (pics d).2) -> Q tt d') ->
  wp (pic_send_eoi line) Q d.
Proof.
  intros HQ. unfold pic_send_eoi. wp_step. destruct (8 <=? line); [apply wp_outb|apply wp_ret]; apply wp_outb, HQ;
    change (u16 PIC1_COMMAND) with 0x20; change (u16 PIC2_COMMAND) with 0xA0; change (u8 PIC_EOI) with 0x20;
    rewrite pic_cmd1 by auto; [by rewrite pic_cmd2 by auto|done].
Qed.
End picspec.

(** ** The timer's rate *)

(** The divisor that reaches the timer; it counts 65536 for 0. *)
Definition pit_reload (hz : Z) : Z :=
  let d := u16 (PIT_BASE_HZ / (if hz =? 0 then 100 else hz)) in if d =? 0 then 65536 else d.

(** Within the range of the timer the period is the closest from below. *)
Lemma pit_reload_good hz : 19 <= hz <= PIT_BASE_HZ -> pit_reload hz * hz <= PIT_BASE_HZ < (pit_reload hz + 1) * hz.
Proof.
  intros Hh. unfold pit_reload, PIT_BASE_HZ in *. rewrite (proj2 (Z.eqb_neq hz 0)) by lia.
  assert (Hd : 1 <= 1193182 / hz < 65536) by (Z.to_euclidean_division_equations; nia).
  rewrite u16_small by lia. rewrite (proj2 (Z.eqb_neq (1193182 / hz) 0)) by lia. Z.to_euclidean_division_equations; nia.
Qed.

(** Below it the divisor is cut to 16 bits: 18 interrupts a second are asked for
    and 1588 come. *)
Example pit_too_slow : pit_reload 18 = 751 /\ PIT_BASE_HZ / pit_reload 18 = 1588.
Proof. done. Qed.

(** The two bytes written to the timer are the divisor. *)
Lemma pit_bytes x : 0 <= x < 65536 -> u8 (Z.land x 0xFF) + 256 * u8 (Z.land (Z.shiftr x 8) 0xFF) = x.
Proof.
  intros Hx. change 0xFF with (Z.ones 8). rewrite !Z.land_ones, Z.shiftr_div_pow2 by lia. unfold u8. change (2 ^ 8) with 256.
  Z.to_euclidean_division_equations; lia.
Qed.

(** ** Interrupts *)

(** What a scan code makes of the last character typed. *)
Definition key (last sc : Z) : Z :=
  if 128 <=? u8 sc then last else let c := default 0 (arr map (u8 sc)) in if c =? 0 then last else c.

Lemma map_len : zlen map = 128.
Proof. done. Qed.

Lemma land_0x80 sc : is_byte sc -> (Z.land sc 0x80 =? 0) = negb (128 <=? sc).
Proof.
  intros Hsc. assert (Hall : forallb (fun x => Bool.eqb (Z.land x 0x80 =? 0) (negb (128 <=? x))) (upto 0 256) = true)
    by (vm_compute; reflexivity).
  rewrite forallb_forall in Hall. apply Bool.eqb_prop, Hall, list_elem_of_In, elem_of_upto, Hsc.
Qed.

(** The devices together: the ports of one leave the others alone. *)
Class PcDevices (D : Type) `{PortIO D} := {
  pc_pic :: Pic8259 D;
  pc_kbd :: Kbd8042 D;
  kbd_pics p d : p = 0x60 \/ p = 0x64 -> pics (port_in p d).2 = pics d;
  pit_pics p v d : p = 0x40 \/ p = 0x43 -> pics (port_out p v d) = pics d;
  out_codes p v d : p ∈ [0x20; 0x21; 0xA0; 0xA1; 0x80; 0x40; 0x43] -> scancodes (port_out p v d) = scancodes d;
  in_codes p d : p ∈ [0x20; 0x21; 0xA0; 0xA1; 0x80; 0x40; 0x43] -> scancodes (port_in p d).2 = scancodes d;
}.

(** Membership in a list of numbers. *)
Ltac in_list := repeat first [by left | right].

Section spec.
Context {D : Type} `{PcDevices D}.
Implicit Types (w : drv D) (s : Irq.irqst (drv D)).

Definition codes w : list Z := scancodes (d_dev w).
Definition ctrl w : chip * chip := pics (d_dev w).

Lemma wp_keyboard_irq_top w (Q : unit -> drv D -> Prop) :
  (forall d, scancodes d = drop 1 (codes w) -> pics d = ctrl w ->
     Q tt (mk_drv (g_pit_ticks w) (foldl key (g_last_char w) (take 1 (codes w))) d)) ->
  wp keyboard_irq_top Q w.
Proof.
  intros HQ. unfold keyboard_irq_top. wp_step. apply wp_lift, wp_inb. intros st d1 E1 _. change (u16 KBD_STATUS_PORT) with 0x64 in E1.
  destruct (kbd_status (d_dev w)) as [Hs1 Hst]. pose proof (kbd_pics 0x64 (d_dev w) ltac:(auto)) as Hp1. rewrite E1 in Hs1, Hst, Hp1.
  cbn [fst snd] in *. unfold codes, ctrl in *. destruct (Z.eqb_spec (Z.land st 1) 0) as [E|E].
  { apply wp_ret. pose proof (proj1 Hst E) as Hq. rewrite Hq in HQ. unfold set_dev. apply HQ; [by rewrite Hs1, Hq|done]. }
  destruct (scancodes (d_dev w)) as [|sc q] eqn:Eq; [by tauto|]. clear Hst. wp_step. apply wp_lift, wp_inb. intros v d2 E2 Hb.
  change (u16 KBD_DATA_PORT) with 0x60 in E2. cbn [d_dev set_dev] in E2. destruct (kbd_data d1 sc q Hs1) as [Hv Hq].
  pose proof (kbd_pics 0x60 d1 ltac:(auto)) as Hp2. rewrite E2 in Hv, Hq, Hp2. cbn [fst snd] in *. subst v.
  rewrite land_0x80, negb_involutive by done. change (foldl key (g_last_char w) (take 1 (sc :: q))) with (key (g_last_char w) sc) in HQ.
  change (drop 1 (sc :: q)) with q in HQ. unfold key in HQ. destruct (Z.leb_spec 128 (u8 sc)); [apply wp_ret; unfold set_dev; apply HQ; [done|by etrans]|].
  wp_step. unfold scancode_to_ascii. rewrite (proj2 (Z.leb_gt _ _)) by done. destruct (arr_lookup map (u8 sc)) as [c Hc].
  { rewrite map_len. unfold is_byte in Hb. lia. }
  eapply wp_rd; [done|]. rewrite Hc in HQ. change (default 0 (Some c)) with c in HQ. cbv zeta in HQ. destruct (c =? 0); cbn [negb].
  - apply wp_ret. unfold set_dev. apply HQ; [done|by etrans].
  - apply wp_modify. unfold set_last, set_dev. apply HQ; [done|by etrans].
Qed.

Lemma after_keyboard w :
  exists d, after keyboard_irq_top w = mk_drv (g_pit_ticks w) (foldl key (g_last_char w) (take 1 (codes w))) d /\
    scancodes d = drop 1 (codes w) /\ pics d = ctrl w.
Proof.
  assert (Hw : wp keyboard_irq_top (fun _ w' =>
    exists d, w' = mk_drv (g_pit_ticks w) (foldl key (g_last_char w) (take 1 (codes w))) d /\
      scancodes d = drop 1 (codes w) /\ pics d = ctrl w) w) by (apply wp_keyboard_irq_top; eauto).
  unfold after, wp in *. by destruct (keyboard_irq_top w).
Qed.

Lemma after_eoi line w : 0 <= line < 8 ->
  exists d, send_eoi line w = mk_drv (g_pit_ticks w) (g_last_char w) d /\
    scancodes d = codes w /\ pics d = (chip_command 0x20 (ctrl w).1, (ctrl w).2).
Proof.
  intros Hl. unfold send_eoi, after, on_dev, lift_to, pic_send_eoi. rewrite (proj2 (Z.leb_gt 8 line)) by lia.
  eexists. split; [reflexivity|]. cbn. change (u16 PIC1_COMMAND) with 0x20. change (u8 PIC_EOI) with 0x20.
  split; [apply out_codes; in_list|by rewrite pic_cmd1 by auto].
Qed.

(** The handlers of the timer and the keyboard are in the table. *)
Definition served_by (tbl : list Irq.nm_irq_desc) (i f : Z) : Prop :=
  exists d, arr tbl i = Some d /\ Irq.used d = true /\ Irq.top_half d = f /\ Irq.bottom_half d = 0.
Definition installed s : Prop :=
  Irq.irq_inv s /\ served_by (Irq.irq_table s) 32 PIT_TOP /\ served_by (Irq.irq_table s) 33 KEYBOARD_TOP.

Lemma served_by_hit tbl i f j d : served_by tbl i f -> arr tbl j = Some d -> served_by (upd tbl j (Irq.hit d)) i f.
Proof.
  intros (e & He & Hu & Ht & Hb) Hd. unfold served_by. rewrite arr_upd by (by eapply arr_range).
  destruct (Z.eqb_spec j i) as [->|]; [|by exists e]. rewrite Hd in He. injection He as ->. by exists (Irq.hit e).
Qed.

(** One interrupt. *)
Definition serve (v : Z) w : drv D := send_eoi (v - 32) (if v =? 32 then after pit_irq_top w else after keyboard_irq_top w).

Lemma wp_isr v s (Q : unit -> Irq.irqst (drv D) -> Prop) :
  installed s -> v = 32 \/ v = 33 ->
  (forall s', installed s' -> Irq.world s' = serve v (Irq.world s) -> Irq.pending s' = Irq.pending s -> Q tt s') -> wp (isr v) Q s.
Proof.
  intros (Hi & H32 & H33) Hv HQ. unfold isr, Irq.nm_irq_isr.
  assert (Hd : exists d f, arr (Irq.irq_table s) v = Some d /\ Irq.used d = true /\ Irq.top_half d = f /\ Irq.bottom_half d = 0 /\ f <> 0 /\
    forall w, run_top f v (Irq.ctx d) w = if v =? 32 then after pit_irq_top w else after keyboard_irq_top w).
  { destruct Hv as [-> | ->]; [destruct H32 as (d & ? & ? & ? & ?)|destruct H33 as (d & ? & ? & ? & ?)]; exists d; eexists; by split_and!. }
  destruct Hd as (d & f & Hd & Hu & Ht & Hb & Hf & Hrun).
  assert (Er : (32 <=? v) && (v <? 48) = true) by (destruct Hv as [-> | ->]; done). rewrite Er.
  wp_step. apply Irq.wp_handle; [done|]. intros r s1 [Hi1 Hh]. rewrite Hd, Hu, Ht, (proj2 (Z.eqb_neq f 0)) in Hh by done.
  rewrite Hb, app_nil_r in Hh. destruct Hh as (_ & Hw & Htb & Hp). apply wp_modify, HQ.
  - split; [by destruct Hi1|]. cbn. rewrite Htb. split; by apply served_by_hit.
  - cbn. rewrite Hw, Hrun. unfold serve. f_equal. destruct Hv as [-> | ->]; done.
  - exact Hp.
Qed.

Fixpoint isrs (ns : list Z) : M (Irq.irqst (drv D)) unit :=
  match ns with [] => mret tt | v :: ns => isr v ;; isrs ns end.

Definition is_key (v : Z) : bool := v =? 33.

Lemma serve_spec v w :
  v = 32 \/ v = 33 ->
  let k := Z.to_nat (Z.b2z (is_key v)) in
  g_pit_ticks (serve v w) = (if is_key v then g_pit_ticks w else u64 (g_pit_ticks w + 1)) /\
  g_last_char (serve v w) = foldl key (g_last_char w) (take k (codes w)) /\
  codes (serve v w) = drop k (codes w) /\ ctrl (serve v w) = (chip_command 0x20 (ctrl w).1, (ctrl w).2).
Proof.
  intros Hv. unfold serve. destruct Hv as [-> | ->].
  - destruct (after_eoi 0 (after pit_irq_top w) ltac:(lia)) as (d & E & Hc & Hp).
    change (32 =? 32) with true. change (32 - 32) with 0. cbv iota. rewrite E. done.
  - destruct (after_keyboard w) as (d1 & E1 & Hc1 & Hp1). change (33 =? 32) with false. change (33 - 32) with 1. cbv iota. rewrite E1.
    destruct (after_eoi 1 (mk_drv (g_pit_ticks w) (foldl key (g_last_char w) (take 1 (codes w))) d1) ltac:(lia)) as (d & E & Hc & Hp).
    rewrite E. unfold codes, ctrl in *. cbn [d_dev g_pit_ticks g_last_char] in *. rewrite Hc, Hc1, Hp, Hp1. done.
Qed.

(** [n] more ends of interrupt. *)
Definition ended (n : Z) (c : chip) : chip := mk_chip (base c) (imr c) (icw c) (eois c + n).

Lemma wp_isrs ns s (Q : unit -> Irq.irqst (drv D) -> Prop) :
  installed s -> is_u64 (g_pit_ticks (Irq.world s)) -> Forall (fun v => v = 32 \/ v = 33) ns ->
  (forall s', installed s' ->
     let k := countb is_key ns in
     g_pit_ticks (Irq.world s') = u64 (g_pit_ticks (Irq.world s) + (zlen ns - k)) ->
     g_last_char (Irq.world s') = foldl key (g_last_char (Irq.world s)) (take (Z.to_nat k) (codes (Irq.world s))) ->
     codes (Irq.world s') = drop (Z.to_nat k) (codes (Irq.world s)) ->
     ctrl (Irq.world s') = (ended (zlen ns) (ctrl (Irq.world s)).1, (ctrl (Irq.world s)).2) -> Q tt s') ->
  wp (isrs ns) Q s.
Proof.
  revert s. induction ns as [|v ns IH]; intros s Hi Ht Hns HQ; cbn [isrs].
  { apply wp_ret, HQ; change (countb is_key []) with 0; change (zlen []) with 0; [done| |done|done|].
    - rewrite u64_small by (unfold is_u64 in *; lia). lia.
    - unfold ended. rewrite Z.add_0_r. by destruct (ctrl _) as [[] ?]. }
  apply Forall_cons in Hns as [Hv Hns]. wp_step. apply wp_isr; [done|done|]. intros s1 Hi1 Hw1 _.
  destruct (serve_spec v (Irq.world s) Hv) as (Et & El & Ec & Ep). rewrite <- Hw1 in Et, El, Ec, Ep.
  pose proof (countb_range is_key ns) as Hk.
  assert (Ht1 : is_u64 (g_pit_ticks (Irq.world s1))) by (rewrite Et; destruct (is_key v); [done|apply u64_range]).
  apply IH; [done|done|done|]. intros s2 Hi2 k Ht2 Hl2 Hc2 He2.
  assert (Ek : countb is_key (v :: ns) = Z.b2z (is_key v) + k) by done.
  assert (Ez : zlen (v :: ns) = 1 + zlen ns) by (unfold zlen; cbn; lia).
  assert (En : Z.to_nat (Z.b2z (is_key v) + k) = (Z.to_nat (Z.b2z (is_key v)) + Z.to_nat k)%nat)
    by (destruct (is_key v); cbn [Z.b2z]; fold k in Hk; lia).
  apply HQ; [done|..].
  - rewrite Ht2, Et, Ek, Ez. destruct (is_key v); cbn [Z.b2z]; [f_equal; lia|]. unfold u64. rewrite Zplus_mod_idemp_l. f_equal. lia.
  - rewrite Hl2, El, Ec, Ek, En, <- foldl_app. by rewrite take_take_drop.
  - by rewrite Hc2, Ec, Ek, En, drop_drop.
  - rewrite He2, Ep, Ez. cbn [fst snd]. unfold ended, chip_command. change (0x20 =? 0x11) with false. cbn [eois base imr icw].
    by rewrite Z.add_assoc.
Qed.

(** The start uses the ports of the controllers and the timer only, so it leaves
    the keyboard alone. *)
Definition driver_port (p : Z) : Prop := p ∈ [0x20; 0x21; 0xA0; 0xA1; 0x80; 0x40; 0x43].
Definition at_drivers : relation (Irq.irqst (drv D)) := fun s s' => via driver_port (d_dev (Irq.world s)) (d_dev (Irq.world s')).

#[local] Instance at_drivers_pre : PreOrder at_drivers.
Proof. split; [intros s; apply rtc_refl|intros s1 s2 s3; unfold at_drivers; intros H12 H23; by etrans]. Qed.

Ltac keeps_ports R :=
  repeat first [apply (keeps_bind R); [|intros] | apply keeps_outb; in_list | apply keeps_inb; in_list | apply (keeps_ret R) | apply keeps_stuck].

Lemma keeps_set_mask line masked : keeps (via driver_port) (pic_set_mask line masked).
Proof.
  unfold pic_set_mask. cbv zeta. apply keeps_bind; [apply _|destruct (line <? 8); apply keeps_inb; in_list|]. intros v.
  destruct (32 <=? _); [apply keeps_stuck|]. destruct (line <? 8); apply keeps_outb; in_list.
Qed.

Lemma keeps_pic_init : keeps (via driver_port) pic_init.
Proof. unfold pic_init, pic_remap, io_wait. keeps_ports (via (D := D) driver_port); apply keeps_set_mask. Qed.

Lemma via_codes d d' : via driver_port d d' -> scancodes d' = scancodes d.
Proof. apply via_same; [apply in_codes|apply out_codes]. Qed.

(** The start of the drivers: the handlers are installed and only their two lines
    can interrupt. *)
Definition start (hz : Z) : M (Irq.irqst (drv D)) unit :=
  Irq.irq_init ;; on_drv (on_dev pic_init) ;; pit_init hz ;; keyboard_init.

Lemma wp_start hz s (Q : unit -> Irq.irqst (drv D) -> Prop) :
  zlen (Irq.irq_table s) = Irq.NM_MAX_IRQ -> zlen (Irq.bh_queue s) = Irq.NM_BH_QUEUE_CAP -> 0 <= hz ->
  (forall s', installed s' -> g_pit_ticks (Irq.world s') = g_pit_ticks (Irq.world s) ->
     g_last_char (Irq.world s') = g_last_char (Irq.world s) -> codes (Irq.world s') = codes (Irq.world s) ->
     ctrl (Irq.world s') = (mk_chip 32 0xFC 0 (eois (ctrl (Irq.world s)).1), mk_chip 40 0xFF 0 (eois (ctrl (Irq.world s)).2)) ->
     Irq.pending s' = [] -> Q tt s') ->
  wp (start hz) Q s.
Proof.
  intros Hl Hq Hz HQ. unfold start. wp_step. apply Irq.wp_irq_init; [done|done|]. intros s1 Hi1 Hq1 Hw1 Ht1. wp_step.
  do 2 apply wp_lift. apply (wp_keeps _ _ _ _ keeps_pic_init), wp_pic_init. intros d1 Hp1 Hc1%via_codes. unfold pit_init. cbv zeta.
  wp_step. do 3 (wp_step; do 2 apply wp_lift; apply wp_outb). wp_step. apply Irq.wp_irq_register; [|done|done|].
  { by destruct Hi1. }
  intros s2 n2 Hi2 Hq2 Hw2 Ht2. wp_step. apply wp_ret. unfold keyboard_init. wp_step. apply Irq.wp_irq_register; [done|done|done|].
  intros s3 n3 Hi3 Hq3 Hw3 Ht3. apply wp_ret. cbn -[upd] in Hw2, Ht2.
  assert (Hlen : zlen (Irq.irq_table s1) = 256) by apply Hi1.
  set (d4 := port_out (u16 PIT_CH0) _ (port_out (u16 PIT_CH0) _ (port_out (u16 PIT_CMD) _ d1))) in Hw2.
  assert (Hd4 : pics d4 = pics d1 /\ scancodes d4 = scancodes d1).
  { unfold d4. change (u16 PIT_CH0) with 0x40. change (u16 PIT_CMD) with 0x43. split; [by rewrite !pit_pics by auto|by rewrite !out_codes by in_list]. }
  destruct Hd4 as [Hp4 Hc4]. rewrite Hw1 in Hw2, Hp1, Hc1. rewrite Hw2 in Hw3. apply HQ.
  - split; [done|]. rewrite Ht3, Ht2. split; eexists.
    + rewrite arr_upd_ne, arr_upd_eq by lia. done.
    + rewrite arr_upd_eq by (rewrite zlen_upd; lia). done.
  - by rewrite Hw3.
  - by rewrite Hw3.
  - rewrite Hw3. unfold codes. cbn. by rewrite Hc4, Hc1.
  - rewrite Hw3. unfold ctrl. cbn. by rewrite Hp4, Hp1.
  - rewrite Hq3, Hq2. exact Hq1.
Qed.

Lemma keeps_irq_lock : keeps at_drivers Irq.irq_lock.
Proof. intros s a s'. unfold Irq.irq_lock. destruct (_ =? 0); [|done]. intros [= _ <-]. apply rtc_refl. Qed.

Ltac keeps_irq :=
  repeat first [apply (keeps_modify_at at_drivers); intros; apply rtc_refl | apply (keeps_modify at_drivers); intros; apply rtc_refl
    | apply keeps_irq_lock | apply (keeps_ret at_drivers) | apply (keeps_bind at_drivers); [|intros]].

Lemma keeps_irq_register i top bottom c nm : keeps at_drivers (Irq.irq_register i top bottom c nm).
Proof.
  unfold Irq.irq_register, Irq.mod_desc, Irq.irq_unlock. destruct (_ || _); [apply keeps_ret, _|].
  keeps_irq.
Qed.

Lemma keeps_on_ports {A} (c : M D A) : keeps (via driver_port) c -> keeps at_drivers (on_drv (on_dev c)).
Proof.
  intros Hc. apply (keeps_lift_in at_drivers (fun w w' => via driver_port (d_dev w) (d_dev w'))); [|by intros s w].
  by apply (keeps_lift_in _ (via driver_port)).
Qed.

Lemma keeps_start hz : keeps at_drivers (start hz).
Proof.
  unfold start, Irq.irq_init, Irq.mod_desc, Irq.irq_unlock, pit_init, keyboard_init. cbv zeta.
  repeat first [progress keeps_irq | apply keeps_irq_register | apply (keeps_for_all at_drivers); intros
    | apply keeps_on_ports; first [apply keeps_pic_init | apply keeps_outb; in_list]].
Qed.

(** ** Properties *)

(** C30: interrupts reach the drivers.  Whatever state the controllers were in, after
    the drivers have started only the lines of the timer and of the keyboard are
    unmasked, at vectors 32 and 33; then, for every sequence of these interrupts,
    the timer has counted its own, the keyboard has taken one scan code for each of
    its own, in order, the last key that has a character is the one that a poll
    answers, and every interrupt was ended at the controller exactly once. *)
Theorem interrupts_reach_drivers s hz ns :
  zlen (Irq.irq_table s) = Irq.NM_MAX_IRQ -> zlen (Irq.bh_queue s) = Irq.NM_BH_QUEUE_CAP -> 0 <= hz ->
  is_u64 (g_pit_ticks (Irq.world s)) -> Forall (fun v => v = 32 \/ v = 33) ns ->
  wp (start hz ;; isrs ns ;; t ← on_drv pit_ticks; c ← on_drv keyboard_poll_char; mret (t, c)) (fun r s' =>
    let w := Irq.world s in let k := countb is_key ns in
    r = (u64 (g_pit_ticks w + (zlen ns - k)), foldl key (g_last_char w) (take (Z.to_nat k) (codes w))) /\
    g_last_char (Irq.world s') = -1 /\ codes (Irq.world s') = drop (Z.to_nat k) (codes w) /\
    ctrl (Irq.world s') = (mk_chip 32 0xFC 0 (eois (ctrl w).1 + zlen ns), mk_chip 40 0xFF 0 (eois (ctrl w).2))) s.
Proof.
  intros Hl Hq Hz Ht Hns. wp_step. apply wp_start; [done|done|done|]. intros s1 Hi1 Et1 El1 Ec1 Ep1 _. wp_step.
  apply wp_isrs; [done|by rewrite Et1|done|]. intros s2 Hi2 k Et2 El2 Ec2 Ee2. wp_step. apply wp_lift, wp_gets.
  wp_step. apply wp_lift. unfold keyboard_poll_char. wp_go. cbv zeta.
  unfold codes, ctrl in *. cbn [Irq.world Irq.set_world set_last g_last_char g_pit_ticks d_dev fst snd].
  rewrite Et2, El2, Ec2, Ee2, Et1, El1, Ec1, Ep1. done.
Qed.
End spec.

(** *** A concrete machine: two controllers and a keyboard *)

Record pc := mk_pc { pc_pics : chip * chip; pc_codes : list Z }.

Definition pc_in (p : Z) (d : pc) : Z * pc :=
  if p =? 0x21 then (u8 (imr (pc_pics d).1), d)
  else if p =? 0xA1 then (u8 (imr (pc_pics d).2), d)
  else if p =? 0x64 then (match pc_codes d with [] => 0 | _ => 1 end, d)
  else if p =? 0x60 then
    match pc_codes d with [] => (0, d) | sc :: q => (u8 sc, mk_pc (pc_pics d) q) end
  else (0xFF, d).

Definition pc_out (p v : Z) (d : pc) : pc :=
  if p =? 0x20 then mk_pc (chip_command v (pc_pics d).1, (pc_pics d).2) (pc_codes d)
  else if p =? 0xA0 then mk_pc ((pc_pics d).1, chip_command v (pc_pics d).2) (pc_codes d)
  else if p =? 0x21 then mk_pc (chip_data v (pc_pics d).1, (pc_pics d).2) (pc_codes d)
  else if p =? 0xA1 then mk_pc ((pc_pics d).1, chip_data v (pc_pics d).2) (pc_codes d)
  else d.

#[export] Program Instance pc_ports : PortIO pc := { port_in := pc_in; port_out := pc_out }.
Next Obligation.
  intros p d. unfold pc_in.
  repeat (destruct (p =? _); [try apply u8_byte; destruct (pc_codes d); try apply u8_byte; unfold is_byte; cbn; lia|]).
  unfold is_byte. cbn. lia.
Qed.

#[export] Program Instance pc_8259 : Pic8259 pc := { pics := pc_pics }.
Solve All Obligations with (intros; cbn; done).

#[export] Program Instance pc_8042 : Kbd8042 pc := { scancodes := pc_codes }.
Next Obligation. intros d. cbn. split; [done|]. by destruct (pc_codes d). Qed.
Next Obligation. intros d sc q E. cbn. by rewrite E. Qed.

#[export] Instance pc_devices : PcDevices pc.
Proof.
  refine {| pc_pic := pc_8259; pc_kbd := pc_8042 |}.
  - intros p d [-> | ->]; cbn; [by destruct (pc_codes d)|done].
  - by intros p v d [-> | ->].
  - intros p v d Hp. repeat (apply elem_of_cons in Hp as [->|Hp]; [done|]). by apply elem_of_nil in Hp.
  - intros p d Hp. repeat (apply elem_of_cons in Hp as [->|Hp]; [done|]). by apply elem_of_nil in Hp.
Defined.

(** The keys h, i and the release of h are waiting. *)
Definition irq_start : Irq.irqst (drv pc) :=
  Irq.mk_irqst (replicate 256 (Irq.mk_desc true 0 9 9 9 9 9)) (replicate 256 Irq.item0) 3 4 1
    (mk_drv 41 (-1) (mk_pc (mk_chip 8 0 3 0, mk_chip 112 0 0 5) [0x23; 0x17; 0xA3])).

Lemma interrupts_reach_drivers_witness :
  wp (start 100 ;; isrs [32; 33; 33; 32; 33] ;; t ← on_drv pit_ticks; c ← on_drv keyboard_poll_char; mret (t, c)) (fun r s' =>
    let w := Irq.world irq_start in let k := countb is_key [32; 33; 33; 32; 33] in
    r = (u64 (g_pit_ticks w + (zlen [32; 33; 33; 32; 33] - k)), foldl key (g_last_char w) (take (Z.to_nat k) (codes w))) /\
    g_last_char (Irq.world s') = -1 /\ codes (Irq.world s') = drop (Z.to_nat k) (codes w) /\
    ctrl (Irq.world s') = (mk_chip 32 0xFC 0 (eois (ctrl w).1 + zlen [32; 33; 33; 32; 33]), mk_chip 40 0xFF 0 (eois (ctrl w).2))) irq_start.
Proof.
  apply (interrupts_reach_drivers irq_start 100 [32; 33; 33; 32; 33]).
  - vm_compute. reflexivity.
  - vm_compute. reflexivity.
  - lia.
  - vm_compute. split; [discriminate|reflexivity].
  - repeat constructor; lia.
Defined.

Example typed : foldl key (-1) [0x23; 0x17; 0xA3] = 105.
Proof. reflexivity. Qed.

(** The shift of the line number is by 32 or more for the lines from 40 on. *)
Example mask_bad_line : pic_set_mask 40 true (mk_pc (mk_chip 32 0 0 0, mk_chip 40 0 0 0) []) = Stuck BadShift.
Proof. reflexivity. Qed.

End Drivers.
