(* ===== verification/Stubs.v ===== *)
(** * The entries of interrupts and exceptions ([kernel/idt_irqs.S],
    [kernel/idt_exceptions.S])

    What the processor pushes when it delivers a vector, the assembly that saves
    the registers around the call of the C handler, and the return.  The C handler
    is any routine that keeps the calling convention ([abi]). *)

From S2P Require Import Prelude.

Module Stubs.

(** The general registers, in the order in which the stub restores them. *)
Definition RAX : Z := 0.
Definition RBX : Z := 1.
Definition RCX : Z := 2.
Definition RDX : Z := 3.
Definition RBP : Z := 4.
Definition RDI : Z := 5.
Definition RSI : Z := 6.
Definition R8 : Z := 7.
Definition R9 : Z := 8.
Definition R10 : Z := 9.
Definition R11 : Z := 10.
Definition R12 : Z := 11.
Definition R13 : Z := 12.
Definition R14 : Z := 13.
Definition R15 : Z := 14.

(** The state of the processor, with the memory as the eight-byte words at each
    address, and the SSE registers, which the kernel turns on ([cpu_enable_sse]) and
    which are the compiler's to use in C code. *)
Record cpu := mk_cpu { gpr : list Z; rsp : Z; rip : Z; cs : Z; rflags : Z; ss : Z; mem : gmap Z Z; sse : list Z }.

Definition set_gpr v c := mk_cpu v (rsp c) (rip c) (cs c) (rflags c) (ss c) (mem c) (sse c).
Definition set_rsp v c := mk_cpu (gpr c) v (rip c) (cs c) (rflags c) (ss c) (mem c) (sse c).
Definition set_rip v c := mk_cpu (gpr c) (rsp c) v (cs c) (rflags c) (ss c) (mem c) (sse c).
Definition set_cs v c := mk_cpu (gpr c) (rsp c) (rip c) v (rflags c) (ss c) (mem c) (sse c).
Definition set_rflags v c := mk_cpu (gpr c) (rsp c) (rip c) (cs c) v (ss c) (mem c) (sse c).
Definition set_ss v c := mk_cpu (gpr c) (rsp c) (rip c) (cs c) (rflags c) v (mem c) (sse c).
Definition set_mem v c := mk_cpu (gpr c) (rsp c) (rip c) (cs c) (rflags c) (ss c) v (sse c).

(** ** Instructions *)

Definition push (v : Z) : M cpu unit :=
  sp ← gets rsp;
  m ← gets mem;
  modify (set_rsp (u64 (sp - 8))) ;;
  modify (set_mem (<[u64 (sp - 8) := v]> m)).

Definition pop : M cpu Z :=
  sp ← gets rsp;
  m ← gets mem;
  match m !! sp with
  | Some v => modify (set_rsp (u64 (sp + 8))) ;; mret v
  | None => stuck OutOfBounds
  end.

Definition pushq (r : Z) : M cpu unit := v ← rd gpr r; push v.
Definition popq (r : Z) : M cpu unit := v ← pop; wr gpr set_gpr r v.
Definition movq (v r : Z) : M cpu unit := wr gpr set_gpr r v.

(** The processor delivers a vector through an interrupt gate, in ring 0: it aligns
    the stack, pushes where it was, and clears the interrupt flag. *)
Definition IF : Z := 0x200.
Definition interrupt (error : option Z) (handler : Z) : M cpu unit :=
  c ← gets (fun c => c);
  modify (set_rsp (rsp c - rsp c `mod` 16)) ;;
  push (ss c) ;;
  push (rsp c) ;;
  push (rflags c) ;;
  push (cs c) ;;
  push (rip c) ;;
  (match error with Some e => push e | None => mret tt end) ;;
  modify (set_rflags (Z.land (rflags c) (u64 (Z.lnot IF)))) ;;
  modify (set_rip handler).

Definition iretq : M cpu unit :=
  ip ← pop;
  seg ← pop;
  flags ← pop;
  sp ← pop;
  stack_seg ← pop;
  modify (set_rip ip) ;;
  modify (set_cs seg) ;;
  modify (set_rflags flags) ;;
  modify (set_rsp sp) ;;
  modify (set_ss stack_seg).

(** The registers pushed first to last; they are popped last to first. *)
Definition saved : list Z := [R15; R14; R13; R12; R11; R10; R9; R8; RSI; RDI; RBP; RDX; RCX; RBX; RAX].

Fixpoint each (f : Z -> M cpu unit) (rs : list Z) : M cpu unit :=
  match rs with [] => mret tt | r :: rs => f r ;; each f rs end.

Section stubs.
(** The compiled [nm_irq_isr], and the address after its call. *)
Context (nm_irq_isr : cpu -> cpu) (after_call : Z).

(** [call] pushes the return address; the routine pops it. *)
Definition call (f : cpu -> cpu) : M cpu unit := push after_call ;; modify f.

Definition IRQ_STUB (vec : Z) : M cpu unit :=
  each pushq saved ;;
  movq vec RDI ;;
  call nm_irq_isr ;;
  each popq (rev saved) ;;
  iretq.

(** The entries of the four exceptions, up to the call of the dispatcher: the
    address of its argument.  The processor pushes an error code for all but the
    first. *)
Definition exception_entry (vec : Z) (pushes_error : bool) : M cpu Z :=
  (if pushes_error then mret tt else push 0) ;;
  push vec ;;
  sp ← gets rsp;
  movq sp RDI ;;
  modify (set_rsp (sp - sp `mod` 16)) ;;
  mret sp.
End stubs.

Definition nm_isr_irq0 (f : cpu -> cpu) (ret : Z) : M cpu unit := IRQ_STUB f ret 32.
Definition nm_isr_irq1 (f : cpu -> cpu) (ret : Z) : M cpu unit := IRQ_STUB f ret 33.
Definition nm_isr_ud : M cpu Z := exception_entry 6 false.
Definition nm_isr_df : M cpu Z := exception_entry 8 true.
Definition nm_isr_gp : M cpu Z := exception_entry 13 true.
Definition nm_isr_pf : M cpu Z := exception_entry 14 true.

(** ** The calling convention

    A C routine called with its return address on top of the stack gives back the
    stack pointer above it, the registers that a callee saves, and the words of its
    caller's frame; other memory and the SSE registers are its own to change. *)
Definition callee_saved : list Z := [RBX; RBP; R12; R13; R14; R15].
Definition FRAME : Z := 160.

Record abi (f : cpu -> cpu) : Prop := mk_abi {
  abi_len c : zlen (gpr (f c)) = zlen (gpr c);
  abi_saved c r : r ∈ callee_saved -> arr (gpr (f c)) r = arr (gpr c) r;
  abi_rsp c : rsp (f c) = rsp c + 8;
  abi_frame c a : rsp c + 8 <= a < rsp c + 8 + FRAME -> mem (f c) !! a = mem c !! a;
}.

Lemma wp_stub_push v c (Q : unit -> cpu -> Prop) :
  8 <= rsp c < 18446744073709551616 -> Q tt (set_mem (<[rsp c - 8 := v]> (mem c)) (set_rsp (rsp c - 8) c)) -> wp (push v) Q c.
Proof. intros Hs HQ. unfold push. wp_go. by rewrite u64_small by lia. Qed.

(** The same with the state spelt out. *)
Lemma wp_push_word v g sp ip seg fl sseg m x (Q : unit -> cpu -> Prop) :
  8 <= sp < 18446744073709551616 -> Q tt (mk_cpu g (sp - 8) ip seg fl sseg (<[sp - 8 := v]> m) x) ->
  wp (push v) Q (mk_cpu g sp ip seg fl sseg m x).
Proof. intros Hs HQ. by apply wp_stub_push. Qed.

Lemma wp_pop v c (Q : Z -> cpu -> Prop) :
  0 <= rsp c < 18446744073709551608 -> mem c !! rsp c = Some v -> Q v (set_rsp (rsp c + 8) c) -> wp pop Q c.
Proof. intros Hs Hv HQ. unfold pop. do 4 wp_step. rewrite Hv. wp_go. by rewrite u64_small by lia. Qed.

(** Pushing registers: word [j] below the stack holds register [j] of the list. *)
Lemma wp_pushes rs c (Q : unit -> cpu -> Prop) :
  Forall (fun r => 0 <= r < zlen (gpr c)) rs -> 8 * zlen rs <= rsp c < 18446744073709551616 ->
  (forall m, (forall (j : nat) r, rs !! j = Some r -> m !! (rsp c - 8 * (Z.of_nat j + 1)) = arr (gpr c) r) ->
     (forall a, ~ (rsp c - 8 * zlen rs <= a < rsp c) -> m !! a = mem c !! a) ->
     Q tt (set_mem m (set_rsp (rsp c - 8 * zlen rs) c))) ->
  wp (each pushq rs) Q c.
Proof.
  revert c. induction rs as [|r rs IH]; intros c Hr Hs HQ; cbn [each].
  { apply wp_ret. specialize (HQ (mem c)). change (zlen []) with 0 in HQ. rewrite Z.mul_0_r, Z.sub_0_r in HQ.
    destruct c. apply HQ; [by intros [|?] ? ?|done]. }
  apply Forall_cons in Hr as [Hr Hrs]. assert (Ez : zlen (r :: rs) = 1 + zlen rs) by (unfold zlen; cbn; lia). rewrite Ez in *.
  assert (0 <= zlen rs) by (unfold zlen; lia). destruct (arr_lookup (gpr c) r Hr) as [v Hv]. unfold pushq. wp_step. wp_step.
  eapply wp_rd; [done|]. apply wp_stub_push; [lia|]. apply IH; [done|cbn; lia|]. cbn. intros m Hm Ho.
  replace (rsp c - 8 - 8 * zlen rs) with (rsp c - 8 * (1 + zlen rs)) in * by lia. apply HQ.
  - intros [|j] r' Hj; cbn in Hj.
    + injection Hj as <-. rewrite Ho by lia. rewrite lookup_at by lia. done.
    + rewrite <- (Hm j r' Hj). f_equal. lia.
  - intros a Ha. rewrite Ho by lia. by rewrite lookup_insert_ne by lia.
Qed.

(** Popping registers: each gets the word at its place. *)
Lemma wp_pops (val : Z -> Z) rs c (Q : unit -> cpu -> Prop) :
  Forall (fun r => 0 <= r < zlen (gpr c)) rs -> 0 <= rsp c -> rsp c + 8 * zlen rs < 18446744073709551608 ->
  (forall (j : nat) r, rs !! j = Some r -> mem c !! (rsp c + 8 * Z.of_nat j) = Some (val r)) ->
  (forall g, zlen g = zlen (gpr c) -> (forall r, arr g r = if decide (r ∈ rs) then Some (val r) else arr (gpr c) r) ->
     Q tt (set_gpr g (set_rsp (rsp c + 8 * zlen rs) c))) ->
  wp (each popq rs) Q c.
Proof.
  revert c. induction rs as [|r rs IH]; intros c Hr H0 Hs Hm HQ; cbn [each].
  { apply wp_ret. specialize (HQ (gpr c)). change (zlen []) with 0 in HQ. rewrite Z.mul_0_r, Z.add_0_r in HQ. destruct c. by apply HQ. }
  apply Forall_cons in Hr as [Hr Hrs]. assert (Ez : zlen (r :: rs) = 1 + zlen rs) by (unfold zlen; cbn; lia). rewrite Ez in *.
  assert (0 <= zlen rs) by (unfold zlen; lia). unfold popq. wp_step. wp_step. apply (wp_pop (val r)); [lia| |].
  { rewrite <- (Hm O r eq_refl). f_equal. lia. }
  apply wp_wr; [exact Hr|]. cbn -[upd]. apply IH; cbn -[upd].
  - by rewrite zlen_upd.
  - lia.
  - lia.
  - intros j r' Hj. rewrite <- (Hm (S j) r' Hj). f_equal. lia.
  - intros g Hl Hg. replace (rsp c + 8 + 8 * zlen rs) with (rsp c + 8 * (1 + zlen rs)) by lia. rewrite zlen_upd in Hl.
    apply HQ; [done|]. intros x. rewrite Hg, arr_upd by done. destruct (decide (x ∈ rs)) as [Hx|Hx].
    + by rewrite decide_True by (by right).
    + destruct (Z.eqb_spec r x) as [->|Hne]; [by rewrite decide_True by (by left)|].
      rewrite decide_False; [done|]. by intros [->|?]%elem_of_cons.
Qed.

(** The registers of the interrupted code, but for SSE. *)
Definition same_code (c c' : cpu) : Prop :=
  gpr c' = gpr c /\ rsp c' = rsp c /\ rip c' = rip c /\ cs c' = cs c /\ rflags c' = rflags c /\ ss c' = ss c.

Lemma wp_interrupt error handler c (Q : unit -> cpu -> Prop) :
  64 <= rsp c < 18446744073709551616 ->
  (forall m, let b := rsp c - rsp c `mod` 16 in
     m !! (b - 8) = Some (ss c) -> m !! (b - 16) = Some (rsp c) -> m !! (b - 24) = Some (rflags c) ->
     m !! (b - 32) = Some (cs c) -> m !! (b - 40) = Some (rip c) -> (forall e, error = Some e -> m !! (b - 48) = Some e) ->
     (forall a, ~ (b - 48 <= a < b) -> m !! a = mem c !! a) ->
     Q tt (mk_cpu (gpr c) (b - match error with Some _ => 48 | None => 40 end) handler (cs c) (Z.land (rflags c) (u64 (Z.lnot IF))) (ss c) m (sse c))) ->
  wp (interrupt error handler) Q c.
Proof.
  destruct c as [g sp ip seg fl sseg m0 x]. cbn [gpr rsp rip cs rflags ss mem sse]. intros Hs HQ. cbv zeta in HQ.
  unfold interrupt. do 2 wp_step. wp_step. apply wp_modify. cbn [gpr rsp rip cs rflags ss mem sse set_rsp]. set (b := sp - sp `mod` 16) in *.
  assert (Hb : 48 <= b < 18446744073709551616) by (unfold b; Z.to_euclidean_division_equations; lia).
  do 5 (wp_step; apply wp_push_word; [lia|]). replace (b - 8 - 8) with (b - 16) by lia. replace (b - 16 - 8) with (b - 24) by lia.
  replace (b - 24 - 8) with (b - 32) by lia. replace (b - 32 - 8) with (b - 40) by lia. wp_step. destruct error as [e|].
  - apply wp_push_word; [lia|]. replace (b - 40 - 8) with (b - 48) by lia. wp_step. apply wp_modify, wp_modify.
    cbn [set_rip set_rflags gpr rsp rip cs rflags ss mem sse]. apply HQ; cbn [mem set_rflags set_rip]; try at_key.
    + intros e' [= <-]. at_key.
    + intros a Ha. by rewrite !lookup_insert_ne by lia.
  - apply wp_ret. wp_step. apply wp_modify, wp_modify.
    cbn [set_rip set_rflags gpr rsp rip cs rflags ss mem sse]. apply HQ; cbn [mem set_rflags set_rip]; try at_key; [by intros ? ?|].
    intros a Ha. by rewrite !lookup_insert_ne by lia.
Qed.

Lemma rev_saved (j : nat) r : rev saved !! j = Some r -> (j < 15)%nat /\ saved !! (14 - j)%nat = Some r.
Proof. do 15 (destruct j as [|j]; [intros [= <-]; by split; [lia|]|]). by destruct j. Qed.

Lemma saved_all r : r ∈ rev saved <-> 0 <= r < 15.
Proof.
  split.
  - intros [j Hj]%list_elem_of_lookup. do 15 (destruct j as [|j]; [injection Hj as <-; by split|]). by destruct j.
  - intros Hr. apply list_elem_of_lookup. exists (Z.to_nat r). revert Hr. generalize r. clear. intros r Hr.
    assert (Hall : forallb (fun x => bool_decide (rev saved !! Z.to_nat x = Some x)) (upto 0 15) = true) by (vm_compute; reflexivity).
    rewrite forallb_forall in Hall. eapply bool_decide_unpack. apply Is_true_true, Hall, list_elem_of_In, elem_of_upto, Hr.
Qed.

(** The return pops what the processor pushed. *)
Lemma wp_iretq ip seg flags sp sseg c (Q : unit -> cpu -> Prop) :
  0 <= rsp c < 2 ^ 63 -> mem c !! rsp c = Some ip -> mem c !! (rsp c + 8) = Some seg -> mem c !! (rsp c + 16) = Some flags ->
  mem c !! (rsp c + 24) = Some sp -> mem c !! (rsp c + 32) = Some sseg ->
  Q tt (mk_cpu (gpr c) sp ip seg flags sseg (mem c) (sse c)) -> wp iretq Q c.
Proof.
  intros Hs H1 H2 H3 H4 H5 HQ. unfold iretq. wp_step. apply (wp_pop ip); [lia|done|].
  wp_step. apply (wp_pop seg); cbn; [lia|done|]. wp_step. apply (wp_pop flags); cbn; [lia|rewrite <- H3; f_equal; lia|].
  wp_step. apply (wp_pop sp); cbn; [lia|rewrite <- H4; f_equal; lia|]. wp_step. apply (wp_pop sseg); cbn; [lia|rewrite <- H5; f_equal; lia|].
  wp_go. exact HQ.
Qed.

Section irq.
Context (f : cpu -> cpu) (after_call : Z) (Hf : abi f).

(** The stub after the processor's five words: the handler is called with its
    vector on an aligned stack, and what it leaves in the frame goes back. *)
Lemma wp_stub vec c b m (Q : unit -> cpu -> Prop) :
  zlen (gpr c) = 15 -> rsp c = b - 40 -> mem c = m -> 512 <= b < 2 ^ 63 ->
  (forall c1, gpr c1 = upd (gpr c) RDI vec -> rsp c1 = b - 168 -> rflags c1 = rflags c -> sse c1 = sse c ->
     (forall a, ~ (b - 168 <= a < b - 40) -> mem c1 !! a = m !! a) ->
     wp iretq Q (set_gpr (gpr c) (set_rsp (b - 40) (f c1)))) ->
  wp (IRQ_STUB f after_call vec) Q c.
Proof.
  intros Hl Hsp Hm Hb HQ. unfold IRQ_STUB. wp_step. apply wp_pushes.
  { rewrite Hl. repeat (apply Forall_cons; split; [done|]). apply Forall_nil_2. }
  { rewrite Hsp. change (zlen saved) with 15. lia. }
  rewrite Hsp. change (zlen saved) with 15. intros m1 Hm1 Ho1. wp_step. apply wp_wr; [cbn; rewrite Hl; done|].
  wp_step. unfold call. wp_step. apply wp_stub_push; [cbn; lia|]. apply wp_modify. cbn [mem rsp gpr set_gpr set_rsp set_mem].
  replace (b - 40 - 8 * 15) with (b - 160) by lia. replace (b - 160 - 8) with (b - 168) by lia.
  set (c1 := set_mem (<[b - 168 := after_call]> m1) _).
  assert (Hfr : forall a, b - 160 <= a < b -> mem (f c1) !! a = m1 !! a).
  { intros a Ha. rewrite (abi_frame f Hf c1 a) by (cbn; unfold FRAME; lia). cbn. by rewrite lookup_insert_ne by lia. }
  assert (Er : rsp (f c1) = b - 160) by (rewrite (abi_rsp f Hf); cbn; lia).
  assert (Eg1 : zlen (gpr (f c1)) = 15) by (rewrite (abi_len f Hf); change (gpr c1) with (upd (gpr c) RDI vec); by rewrite zlen_upd).
  wp_step. apply (wp_pops (fun r => default 0 (arr (gpr c) r))).
  - rewrite Eg1. repeat (apply Forall_cons; split; [done|]). apply Forall_nil_2.
  - rewrite Er. lia.
  - rewrite Er. change (zlen (rev saved)) with 15. lia.
  - intros j r Hj. destruct (rev_saved j r Hj) as [Hj' Hs]. rewrite Er, Hfr by lia. specialize (Hm1 _ _ Hs).
    replace (b - 160 + 8 * Z.of_nat j) with (b - 40 - 8 * (Z.of_nat (14 - j) + 1)) by lia. rewrite Hm1.
    assert (Hr : 0 <= r < 15) by (apply saved_all; by eapply list_elem_of_lookup_2).
    destruct (arr_lookup (gpr c) r) as [x ->]; [lia|done].
  - rewrite Eg1, Er. change (zlen (rev saved)) with 15. intros g Hg Hgr.
    replace (b - 160 + 8 * 15) with (b - 40) by lia. assert (Eg : g = gpr c).
    { apply arr_ext; [by rewrite Hl|]. intros i. rewrite Hgr. destruct (decide (i ∈ rev saved)) as [Hi|Hi]; rewrite saved_all in Hi.
      - destruct (arr_lookup (gpr c) i) as [x ->]; [lia|done].
      - by rewrite !arr_none by lia. }
    rewrite Eg. apply HQ; [done|done|done|done|]. intros a Ha. cbn. rewrite lookup_insert_ne by lia. rewrite Ho1 by lia. by rewrite <- Hm.
Qed.

(** ** Properties *)

(** C31: an interrupt gives the interrupted code its general registers back.
    Whatever instruction is interrupted, and whatever the handler does within its
    calling convention, the stub hands it its vector on a stack aligned for the call
    and returns to that instruction with the fifteen general registers, the stack
    pointer, the flags and the segments as they were.  The entry itself writes only the
    184 bytes below the interrupted stack and no SSE register; memory and the SSE
    registers afterwards are what the handler leaves, since the stub does not save
    them. *)
Theorem irq_transparent vec handler c :
  zlen (gpr c) = 15 -> 1024 <= rsp c < 2 ^ 63 ->
  wp (interrupt None handler ;; IRQ_STUB f after_call vec) (fun _ c' => same_code c c' /\
    exists c1, arr (gpr c1) RDI = Some vec /\ (rsp c1 + 8) `mod` 16 = 0 /\ Z.testbit (rflags c1) 9 = false /\
      (forall a, ~ (rsp c - 184 <= a < rsp c) -> mem c1 !! a = mem c !! a) /\ sse c1 = sse c /\
      mem c' = mem (f c1) /\ sse c' = sse (f c1)) c.
Proof using Hf.
  intros Hl Hs. wp_step. apply wp_interrupt; [lia|]. cbv zeta. set (b := rsp c - rsp c `mod` 16).
  assert (Hb : 512 <= b < 2 ^ 63 /\ b `mod` 16 = 0 /\ b <= rsp c < b + 16) by (unfold b; Z.to_euclidean_division_equations; lia).
  intros m E1 E2 E3 E4 E5 _ Eo. eapply (wp_stub vec _ b m); [done|done|done|lia|]. cbn [gpr rsp rflags sse]. intros c1 Eg Esp Efl Esse Em.
  assert (Hfr : forall a, b - 40 <= a < b -> mem (f c1) !! a = m !! a).
  { intros a Ha. rewrite (abi_frame f Hf c1 a) by (unfold FRAME; lia). apply Em. lia. }
  apply (wp_iretq (rip c) (cs c) (rflags c) (rsp c) (ss c)); cbn [rsp mem set_gpr set_rsp]; rewrite ?Hfr by lia; try lia.
  - exact E5.
  - rewrite <- E4. f_equal. lia.
  - rewrite <- E3. f_equal. lia.
  - rewrite <- E2. f_equal. lia.
  - rewrite <- E1. f_equal. lia.
  - split; [done|]. exists c1. split_and!.
    + rewrite Eg. apply arr_upd_eq. by rewrite Hl.
    + rewrite Esp. Z.to_euclidean_division_equations; lia.
    + rewrite Efl, Z.land_spec, u64_testbit by lia. unfold IF. rewrite Z.lnot_spec by lia. apply andb_false_r.
    + intros a Ha. rewrite Em by lia. apply Eo. lia.
    + done.
    + done.
    + done.
Qed.
End irq.

(** An exception reaches the dispatcher with its report: the words at the address
    it is given are the vector, the error code (0 when the processor has none), the
    instruction, its segment and the flags. *)
Theorem exception_frame_spec vec (error : option Z) handler c :
  zlen (gpr c) = 15 -> 1024 <= rsp c < 2 ^ 63 ->
  wp (interrupt error handler ;; exception_entry vec (bool_decide (error <> None))) (fun sp c' =>
    arr (gpr c') RDI = Some sp /\ rsp c' `mod` 16 = 0 /\ rsp c' <= sp /\
    mem c' !! sp = Some vec /\ mem c' !! (sp + 8) = Some (default 0 error) /\ mem c' !! (sp + 16) = Some (rip c) /\
    mem c' !! (sp + 24) = Some (cs c) /\ mem c' !! (sp + 32) = Some (rflags c)) c.
Proof.
  intros Hl Hs. wp_step. apply wp_interrupt; [lia|]. cbv zeta. set (b := rsp c - rsp c `mod` 16).
  assert (Hb : 512 <= b < 2 ^ 63) by (unfold b; Z.to_euclidean_division_equations; lia).
  intros m E1 E2 E3 E4 E5 E6 _. unfold exception_entry. destruct error as [e|]; cbn [bool_decide]; wp_step.
  - rewrite bool_decide_true by done. apply wp_ret. wp_step. apply wp_stub_push; [cbn; lia|]. do 2 wp_step. wp_step.
    apply wp_wr; [cbn; by rewrite Hl|]. do 3 wp_step. cbn -[upd arr]. rewrite arr_upd_eq by (by rewrite Hl). replace (b - 48 - 8) with (b - 56) by lia.
    split_and!; [done| | |at_key| | | |]; try (Z.to_euclidean_division_equations; lia); rewrite lookup_insert_ne by lia.
    + rewrite <- (E6 e eq_refl). f_equal. lia.
    + rewrite <- E5. f_equal. lia.
    + rewrite <- E4. f_equal. lia.
    + rewrite <- E3. f_equal. lia.
  - rewrite bool_decide_false by (intros ?; done). apply wp_stub_push; [cbn; lia|]. wp_step. apply wp_stub_push; [cbn; lia|]. do 2 wp_step. wp_step.
    apply wp_wr; [cbn; by rewrite Hl|]. do 3 wp_step. cbn -[upd arr]. rewrite arr_upd_eq by (by rewrite Hl).
    replace (b - 40 - 8) with (b - 48) by lia. replace (b - 48 - 8) with (b - 56) by lia.
    split_and!; [done| | |at_key|at_key| | |]; try (Z.to_euclidean_division_equations; lia); rewrite !lookup_insert_ne by lia.
    + rewrite <- E5. f_equal. lia.
    + rewrite <- E4. f_equal. lia.
    + rewrite <- E3. f_equal. lia.
Qed.

(** *** A concrete handler: it clobbers a general and an SSE register, the flags, the
    stack below, and counts in memory *)

Definition handler0 (c : cpu) : cpu :=
  mk_cpu (upd (gpr c) RAX 77) (rsp c + 8) (rip c) (cs c) 2 (ss c) (<[rsp c - 64 := 5]> (mem c)) (upd (sse c) 0 99).

Lemma handler0_abi : abi handler0.
Proof.
  constructor.
  - intros c. apply zlen_upd.
  - intros c r Hr. apply arr_upd_ne. intros <-. unfold callee_saved in Hr. repeat (apply elem_of_cons in Hr as [?|Hr]; [done|]).
    by apply elem_of_nil in Hr.
  - done.
  - intros c a Ha. cbn. by rewrite lookup_insert_ne by lia.
Qed.

Definition cpu0 : cpu := mk_cpu (upto 100 115) 65532 4096 8 0x246 16 ∅ (replicate 16 0).

Lemma irq_transparent_witness :
  wp (interrupt None 8192 ;; IRQ_STUB handler0 9000 32) (fun _ c' => same_code cpu0 c' /\
    exists c1, arr (gpr c1) RDI = Some 32 /\ (rsp c1 + 8) `mod` 16 = 0 /\ Z.testbit (rflags c1) 9 = false /\
      (forall a, ~ (rsp cpu0 - 184 <= a < rsp cpu0) -> mem c1 !! a = mem cpu0 !! a) /\ sse c1 = sse cpu0 /\
      mem c' = mem (handler0 c1) /\ sse c' = sse (handler0 c1)) cpu0.
Proof. apply (irq_transparent handler0 9000 handler0_abi 32 8192 cpu0); [reflexivity|cbn; lia]. Defined.

(** An SSE register of the interrupted code is lost: the handler may use it, and the
    stub does not save it. *)
Example irq_loses_sse : match (interrupt None 8192 ;; IRQ_STUB handler0 9000 32) cpu0 with
  | Done _ c => gpr c = gpr cpu0 /\ arr (sse cpu0) 0 = Some 0 /\ arr (sse c) 0 = Some 99
  | Stuck _ => False
  end.
Proof. vm_compute. done. Qed.

End Stubs.
