(* ===== verification/Desc.v ===== *)
(** * The processor's tables ([kernel/gdt.c], [kernel/idt.c], [kernel/tss.c], and
    [cpu_enable_sse] of [kernel/kmain.c])

    The tables as the C structures, their bytes in memory, and what the processor
    reads from those bytes: segments, gates and the task segment.  The addresses
    of the tables and of the handlers are parameters, given by the linker. *)

From S2P Require Import Prelude Ports.
Import Ports.

Module Desc.

(** ** The structures, with their bytes in memory (little-endian, packed) *)

Record gdt_entry := mk_gdt_entry { limit_low : Z; base_low : Z; base_mid : Z; access : Z; gran : Z; base_high : Z }.

Record tss_desc := mk_tss_desc {
  t_limit_low : Z; t_base_low : Z; t_base_mid1 : Z; t_access : Z; t_gran : Z; t_base_mid2 : Z; t_base_high : Z; t_reserved : Z }.

Record gdt_table := mk_gdt { g_null : gdt_entry; g_code : gdt_entry; g_data : gdt_entry; g_tss : tss_desc }.

Record idt_gate := mk_gate {
  offset_low : Z; selector : Z; ist : Z; type_attr : Z; offset_mid : Z; offset_high : Z; zero : Z }.

Record nm_tss64 := mk_tss {
  reserved0 : Z; rsp0 : Z; rsp1 : Z; rsp2 : Z; reserved1 : Z; ist1 : Z; ist2 : Z; ist3 : Z; ist4 : Z; ist5 : Z; ist6 : Z; ist7 : Z;
  reserved2 : Z; reserved3 : Z; iopb : Z }.

Fixpoint le (n : nat) (x : Z) : list Z :=
  match n with O => [] | S n => u8 x :: le n (Z.shiftr x 8) end.

Fixpoint from_le (l : list Z) : Z :=
  match l with [] => 0 | b :: l => Z.lor b (Z.shiftl (from_le l) 8) end.

Definition gdt_entry_bytes (e : gdt_entry) : list Z :=
  le 2 (limit_low e) ++ le 2 (base_low e) ++ le 1 (base_mid e) ++ le 1 (access e) ++ le 1 (gran e) ++ le 1 (base_high e).

Definition tss_desc_bytes (e : tss_desc) : list Z :=
  le 2 (t_limit_low e) ++ le 2 (t_base_low e) ++ le 1 (t_base_mid1 e) ++ le 1 (t_access e) ++ le 1 (t_gran e) ++ le 1 (t_base_mid2 e) ++
  le 4 (t_base_high e) ++ le 4 (t_reserved e).

Definition gdt_bytes (g : gdt_table) : list Z :=
  gdt_entry_bytes (g_null g) ++ gdt_entry_bytes (g_code g) ++ gdt_entry_bytes (g_data g) ++ tss_desc_bytes (g_tss g).

Definition gate_bytes (g : idt_gate) : list Z :=
  le 2 (offset_low g) ++ le 2 (selector g) ++ le 1 (ist g) ++ le 1 (type_attr g) ++ le 2 (offset_mid g) ++ le 4 (offset_high g) ++
  le 4 (zero g).

Definition tss_bytes (t : nm_tss64) : list Z :=
  le 4 (reserved0 t) ++ le 8 (rsp0 t) ++ le 8 (rsp1 t) ++ le 8 (rsp2 t) ++ le 8 (reserved1 t) ++ le 8 (ist1 t) ++ le 8 (ist2 t) ++
  le 8 (ist3 t) ++ le 8 (ist4 t) ++ le 8 (ist5 t) ++ le 8 (ist6 t) ++ le 8 (ist7 t) ++ le 8 (reserved2 t) ++ le 2 (reserved3 t) ++
  le 2 (iopb t).

Definition tss0 : nm_tss64 := mk_tss 0 0 0 0 0 0 0 0 0 0 0 0 0 0 0.
Definition SIZEOF_TSS : Z := zlen (tss_bytes tss0).
Definition SIZEOF_GATE : Z := zlen (gate_bytes (mk_gate 0 0 0 0 0 0 0)).

(** ** The state: the static tables and the registers of the processor *)

Record desc := mk_desc {
  gdt : gdt_table;
  idt : list idt_gate;
  kernel_tss : nm_tss64;
  gdtr : Z * Z;
  idtr : Z * Z;
  cs : Z;
  data_sel : Z;
  tr : Z;
  cr0 : Z;
  cr4 : Z;
}.

Definition set_gdt v s := mk_desc v (idt s) (kernel_tss s) (gdtr s) (idtr s) (cs s) (data_sel s) (tr s) (cr0 s) (cr4 s).
Definition set_idt v s := mk_desc (gdt s) v (kernel_tss s) (gdtr s) (idtr s) (cs s) (data_sel s) (tr s) (cr0 s) (cr4 s).
Definition set_tss v s := mk_desc (gdt s) (idt s) v (gdtr s) (idtr s) (cs s) (data_sel s) (tr s) (cr0 s) (cr4 s).
Definition set_gdtr v s := mk_desc (gdt s) (idt s) (kernel_tss s) v (idtr s) (cs s) (data_sel s) (tr s) (cr0 s) (cr4 s).
Definition set_idtr v s := mk_desc (gdt s) (idt s) (kernel_tss s) (gdtr s) v (cs s) (data_sel s) (tr s) (cr0 s) (cr4 s).
Definition set_segments c d s := mk_desc (gdt s) (idt s) (kernel_tss s) (gdtr s) (idtr s) c d (tr s) (cr0 s) (cr4 s).
Definition set_tr v s := mk_desc (gdt s) (idt s) (kernel_tss s) (gdtr s) (idtr s) (cs s) (data_sel s) v (cr0 s) (cr4 s).
Definition set_cr0 v s := mk_desc (gdt s) (idt s) (kernel_tss s) (gdtr s) (idtr s) (cs s) (data_sel s) (tr s) v (cr4 s).
Definition set_cr4 v s := mk_desc (gdt s) (idt s) (kernel_tss s) (gdtr s) (idtr s) (cs s) (data_sel s) (tr s) (cr0 s) v.

(** ** What the processor reads *)

(** The [n] bytes at [off]. *)
Definition field (b : list Z) (off n : nat) : Z := from_le (take n (drop off b)).

(** A selector names a descriptor if its eight bytes are inside the table. *)
Definition in_table (limit sel : Z) : bool := sel + 7 <=? limit.

(** The descriptor of a code or data segment. *)
Definition segment (b : list Z) (sel : Z) : list Z := take 8 (drop (Z.to_nat sel) b).
Definition seg_access (d : list Z) : Z := field d 5 1.
Definition seg_flags (d : list Z) : Z := Z.shiftr (field d 6 1) 4.

(** Present, a code segment of ring 0, readable or not, 64-bit: bits 7, 4 and 3
    of the access byte, no privilege bits, and the L bit with the D bit clear. *)
Definition is_code64 (d : list Z) : bool :=
  (Z.land (seg_access d) 0xF8 =? 0x98) && (Z.land (seg_flags d) 6 =? 2).
(** Present, writable data of ring 0. *)
Definition is_data (d : list Z) : bool := Z.land (seg_access d) 0xFA =? 0x92.

(** The segment of a system descriptor of sixteen bytes: its base and limit. *)
Definition system_base (d : list Z) : Z :=
  Z.lor (field d 2 3) (Z.lor (Z.shiftl (field d 7 1) 24) (Z.shiftl (field d 8 4) 32)).
Definition system_limit (d : list Z) : Z := Z.lor (field d 0 2) (Z.shiftl (Z.land (field d 6 1) 0xF) 16).

(** [lgdt], [lidt] and the loads of the segment registers; a load of a bad
    selector faults. *)
Definition lgdt (limit base : Z) : M desc unit := modify (set_gdtr (limit, base)).
Definition lidt (limit base : Z) : M desc unit := modify (set_idtr (limit, base)).

Definition load_segments (code data : Z) : M desc unit :=
  b ← gets (fun s => gdt_bytes (gdt s));
  r ← gets gdtr;
  if in_table r.1 code && is_code64 (segment b code) && in_table r.1 data && is_data (segment b data)
  then modify (set_segments code data)
  else stuck OutOfBounds.

(** [ltr] takes a 64-bit task segment that is present and not busy, and marks it
    busy; the only one in the table is at 24. *)
Definition busy (e : tss_desc) : tss_desc :=
  mk_tss_desc (t_limit_low e) (t_base_low e) (t_base_mid1 e) (Z.lor (t_access e) 2) (t_gran e) (t_base_mid2 e) (t_base_high e) (t_reserved e).

Definition ltr (sel : Z) : M desc unit :=
  b ← gets (fun s => gdt_bytes (gdt s));
  r ← gets gdtr;
  if in_table r.1 (sel + 8) && (seg_access (segment b sel) =? 0x89) && (sel =? 24)
  then modify (fun s => set_gdt (mk_gdt (g_null (gdt s)) (g_code (gdt s)) (g_data (gdt s)) (busy (g_tss (gdt s)))) s) ;;
       modify (set_tr sel)
  else stuck OutOfBounds.

(** ** The routines *)

Section ops.
(** The addresses of the tables and of the six handlers. *)
Context (gdt_addr idt_addr tss_addr : Z) (isr_ud isr_df isr_gp isr_pf isr_irq0 isr_irq1 : Z).

Definition tss_base_address : Z := tss_addr.

Definition gdt_init : M desc unit :=
  modify (fun s => set_gdt (mk_gdt (g_null (gdt s)) (mk_gdt_entry 0xFFFF 0 0 0x9A 0xAF 0) (g_data (gdt s)) (g_tss (gdt s))) s) ;;
  modify (fun s => set_gdt (mk_gdt (g_null (gdt s)) (g_code (gdt s)) (mk_gdt_entry 0xFFFF 0 0 0x92 0xAF 0) (g_tss (gdt s))) s) ;;
  let base := tss_base_address in
  let limit := u32 (SIZEOF_TSS - 1) in
  modify (fun s => set_gdt (mk_gdt (g_null (gdt s)) (g_code (gdt s)) (g_data (gdt s))
    (mk_tss_desc (u16 (Z.land limit 0xFFFF)) (u16 (Z.land base 0xFFFF)) (u8 (Z.land (Z.shiftr base 16) 0xFF)) 0x89
      (u8 (Z.land (Z.shiftr limit 16) 0x0F)) (u8 (Z.land (Z.shiftr base 24) 0xFF)) (u32 (Z.shiftr base 32)) 0)) s) ;;
  g ← gets gdt;
  lgdt (u16 (zlen (gdt_bytes g) - 1)) gdt_addr ;;
  load_segments 0x08 0x10.

Definition idt_set_gate (vec handler attr stack : Z) : M desc unit :=
  if (vec <? 0) || (256 <=? vec) then mret tt else
  wr idt set_idt vec
    (mk_gate (u16 (Z.land handler 0xFFFF)) 0x08 stack attr (u16 (Z.land (Z.shiftr handler 16) 0xFFFF))
      (u32 (Z.land (Z.shiftr handler 32) 0xFFFFFFFF)) 0).

Definition idt_init : M desc unit :=
  for_all (upto 0 256) (fun i => idt_set_gate i 0 0 0) ;;
  idt_set_gate 6 isr_ud 0x8E 0 ;;
  idt_set_gate 8 isr_df 0x8E 0 ;;
  idt_set_gate 13 isr_gp 0x8E 0 ;;
  idt_set_gate 14 isr_pf 0x8E 0 ;;
  idt_set_gate 32 isr_irq0 0x8E 0 ;;
  idt_set_gate 33 isr_irq1 0x8E 0 ;;
  lidt (u16 (256 * SIZEOF_GATE - 1)) idt_addr.

Definition tss_init : M desc unit :=
  modify (set_tss (mk_tss 0 0 0 0 0 0 0 0 0 0 0 0 0 0 (u16 SIZEOF_TSS))) ;;
  let tss_sel := 0x18 in
  ltr tss_sel.
End ops.

Definition cpu_enable_sse : M desc unit :=
  v ← gets cr0;
  let v := Z.land v (u64 (Z.lnot (u64 (Z.shiftl 1 2)))) in
  let v := Z.land v (u64 (Z.lnot (u64 (Z.shiftl 1 3)))) in
  let v := Z.lor v (u64 (Z.shiftl 1 1)) in
  modify (set_cr0 v) ;;
  w ← gets cr4;
  let w := Z.lor w (u64 (Z.shiftl 1 9)) in
  let w := Z.lor w (u64 (Z.shiftl 1 10)) in
  modify (set_cr4 w).

(** ** Delivery: what the processor does with vector [v]

    It reads the sixteen bytes of the gate at [16 v] from the table in memory, here
    those of [idt], if that is where the register points; a gate that is not a
    present interrupt gate through a 64-bit code segment faults. *)

Definition idt_bytes (l : list idt_gate) : list Z := mjoin (gate_bytes <$> l).

Definition gate_offset (g : list Z) : Z :=
  Z.lor (field g 0 2) (Z.lor (Z.shiftl (field g 6 2) 16) (Z.shiftl (field g 8 4) 32)).

Definition deliver (gdt_addr idt_addr : Z) (s : desc) (v : Z) : option Z :=
  if negb ((idtr s).2 =? idt_addr) || negb ((gdtr s).2 =? gdt_addr) || ((idtr s).1 <? 16 * v + 15) then None else
  let g := take 16 (drop (Z.to_nat (16 * v)) (idt_bytes (idt s))) in
  if negb (field g 5 1 =? 0x8E) then None else
  let sel := field g 2 2 in
  if in_table (gdtr s).1 sel && is_code64 (segment (gdt_bytes (gdt s)) sel) then Some (gate_offset g) else None.

(** ** Bytes *)

Lemma from_le_le n x : from_le (le n x) = x `mod` 2 ^ (8 * Z.of_nat n).
Proof.
  revert x. induction n as [|n IH]; intros x; cbn [le from_le]; [by rewrite Z.mod_1_r|].
  rewrite IH, Z.shiftr_div_pow2 by lia. change (2 ^ 8) with 256. rewrite Z.lor_comm, lor_shiftl by (lia || apply u8_byte).
  change (2 ^ 8) with 256. unfold u8. replace (8 * Z.of_nat (S n)) with (8 + 8 * Z.of_nat n) by lia.
  rewrite Z.pow_add_r by lia. change (2 ^ 8) with 256. assert (0 < 2 ^ (8 * Z.of_nat n)) by (apply Z.pow_pos_nonneg; lia).
  rewrite Z.rem_mul_r by lia. ring.
Qed.

Lemma le_length n x : Datatypes.length (le n x) = n.
Proof. revert x. induction n as [|n IH]; intros x; cbn; [done|by rewrite IH]. Qed.

(** An address in three parts of 16, 16 and 32 bits. *)
Lemma join_address lo mid hi :
  0 <= lo < 65536 -> 0 <= mid < 65536 -> 0 <= hi ->
  Z.lor lo (Z.lor (Z.shiftl mid 16) (Z.shiftl hi 32)) = lo + 65536 * mid + 4294967296 * hi.
Proof.
  intros Hl Hm Hh. rewrite (Z.lor_comm (Z.shiftl mid 16)), lor_shiftl by (rewrite ?Z.shiftl_mul_pow2 by lia; lia).
  replace (hi * 2 ^ 32 + Z.shiftl mid 16) with (Z.shiftl (hi * 65536 + mid) 16) by (rewrite !Z.shiftl_mul_pow2 by lia; lia).
  rewrite Z.lor_comm, lor_shiftl by lia. lia.
Qed.

Lemma split_address h : is_u64 h ->
  h = h `mod` 65536 + 65536 * ((h / 65536) `mod` 65536) + 4294967296 * (h / 4294967296) /\ 0 <= h / 4294967296 < 4294967296.
Proof. intros Hh. unfold is_u64 in Hh. split; Z.to_euclidean_division_equations; lia. Qed.

Lemma land_16 x : Z.land x 0xFFFF = x `mod` 65536.
Proof. change 0xFFFF with (Z.ones 16). by rewrite Z.land_ones by lia. Qed.

Lemma land_8 x : Z.land x 0xFF = x `mod` 256.
Proof. change 0xFF with (Z.ones 8). by rewrite Z.land_ones by lia. Qed.

(** ** Gates *)

Definition gate_of (handler attr stack : Z) : idt_gate :=
  mk_gate (u16 (Z.land handler 0xFFFF)) 0x08 stack attr (u16 (Z.land (Z.shiftr handler 16) 0xFFFF))
    (u32 (Z.land (Z.shiftr handler 32) 0xFFFFFFFF)) 0.

(** A gate read back is the handler it was made for. *)
Lemma gate_offset_of handler attr stack : is_u64 handler -> gate_offset (gate_bytes (gate_of handler attr stack)) = handler.
Proof.
  intros Hh. unfold gate_offset. set (g := gate_of handler attr stack).
  change (field (gate_bytes g) 0 2) with (from_le (le 2 (offset_low g))).
  change (field (gate_bytes g) 6 2) with (from_le (le 2 (offset_mid g))).
  change (field (gate_bytes g) 8 4) with (from_le (le 4 (offset_high g))).
  rewrite !from_le_le. change (2 ^ (8 * Z.of_nat 2)) with 65536. change (2 ^ (8 * Z.of_nat 4)) with 4294967296.
  destruct (split_address handler Hh) as [Es Hr]. unfold g, gate_of. cbn [offset_low offset_mid offset_high]. unfold u16, u32.
  change 0xFFFFFFFF with (Z.ones 32). rewrite !land_16, Z.land_ones, !Z.shiftr_div_pow2, !Zmod_mod by lia.
  change (2 ^ 32) with 4294967296. change (2 ^ 16) with 65536. rewrite ?Zmod_mod, (Z.mod_small (handler / 4294967296)) by done.
  rewrite join_address; [by symmetry|apply Z.mod_pos_bound; lia..|lia].
Qed.

Lemma idt_slice l v g : arr l v = Some g -> take 16 (drop (Z.to_nat (16 * v)) (idt_bytes l)) = gate_bytes g.
Proof.
  intros Hg. pose proof (arr_range _ _ _ Hg) as Hr. unfold arr in Hg. rewrite (proj2 (Z.leb_le 0 v)) in Hg by lia.
  replace (Z.to_nat (16 * v)) with (16 * Z.to_nat v)%nat by lia. revert Hg. generalize (Z.to_nat v) as n. clear Hr.
  induction l as [|h l IH]; intros n Hg; [done|]. unfold idt_bytes in *.
  change (mjoin (gate_bytes <$> h :: l)) with (gate_bytes h ++ mjoin (gate_bytes <$> l)).
  destruct n as [|n].
  - injection Hg as ->. change (16 * 0)%nat with 0%nat. by rewrite drop_0, take_app_length' by done.
  - replace (16 * S n)%nat with (16 + 16 * n)%nat by lia. rewrite <- drop_drop, drop_app_length' by done. by apply IH.
Qed.

(** The handlers that [idt_init] installs. *)
Section spec.
Context (gdt_addr idt_addr tss_addr : Z) (isr_ud isr_df isr_gp isr_pf isr_irq0 isr_irq1 : Z).

Definition handler_of (v : Z) : option Z :=
  if v =? 6 then Some isr_ud else if v =? 8 then Some isr_df else if v =? 13 then Some isr_gp
  else if v =? 14 then Some isr_pf else if v =? 32 then Some isr_irq0 else if v =? 33 then Some isr_irq1 else None.

Definition final_gate (v : Z) : idt_gate :=
  match handler_of v with Some h => gate_of h 0x8E 0 | None => gate_of 0 0 0 end.

Lemma wp_set_gate v h a st s (Q : unit -> desc -> Prop) :
  zlen (idt s) = 256 -> 0 <= v < 256 -> Q tt (set_idt (upd (idt s) v (gate_of h a st)) s) -> wp (idt_set_gate v h a st) Q s.
Proof.
  intros Hl Hv HQ. unfold idt_set_gate. rewrite (proj2 (Z.ltb_ge v 0)), (proj2 (Z.leb_gt 256 v)) by lia. cbn [orb].
  apply wp_wr; [lia|exact HQ].
Qed.

Lemma wp_idt_init s (Q : unit -> desc -> Prop) :
  zlen (idt s) = 256 ->
  (forall l, zlen l = 256 -> (forall v, 0 <= v < 256 -> arr l v = Some (final_gate v)) ->
     Q tt (set_idtr (4095, idt_addr) (set_idt l s))) ->
  wp (idt_init idt_addr isr_ud isr_df isr_gp isr_pf isr_irq0 isr_irq1) Q s.
Proof.
  intros Hl HQ. unfold idt_init. wp_step.
  apply (wp_for_all (fun i t => exists l, t = set_idt l s /\ zlen l = 256 /\
    forall v, 0 <= v < i -> arr l v = Some (gate_of 0 0 0))).
  - lia.
  - exists (idt s). split_and!; [by destruct s|done|lia].
  - intros i t Hi (l & -> & Hll & Hg). apply wp_set_gate; [done|done|]. exists (upd l i (gate_of 0 0 0)).
    split_and!; [done|by rewrite zlen_upd|]. intros v Hv. rewrite arr_upd by lia. destruct (Z.eqb_spec i v); [done|]. apply Hg. lia.
  - intros t (l & -> & Hll & Hg). do 6 (wp_step; apply wp_set_gate; [cbn -[upd]; rewrite ?zlen_upd; exact Hll|lia|]).
    apply wp_modify. change (u16 (256 * SIZEOF_GATE - 1)) with 4095. cbn -[upd gate_of]. apply HQ; [by rewrite !zlen_upd|]. intros v Hv. unfold final_gate, handler_of.
    rewrite !arr_upd by (rewrite ?zlen_upd; lia). rewrite !(Z.eqb_sym v).
    repeat (match goal with |- context [?a =? v] => destruct (Z.eqb_spec a v) as [<-|] end; [done|]). by apply Hg.
Qed.
End spec.

(** ** Segments *)

Definition code_entry : gdt_entry := mk_gdt_entry 0xFFFF 0 0 0x9A 0xAF 0.
Definition data_entry : gdt_entry := mk_gdt_entry 0xFFFF 0 0 0x92 0xAF 0.
Definition tss_entry (base : Z) : tss_desc :=
  mk_tss_desc 103 (u16 (Z.land base 0xFFFF)) (u8 (Z.land (Z.shiftr base 16) 0xFF)) 0x89 0 (u8 (Z.land (Z.shiftr base 24) 0xFF))
    (u32 (Z.shiftr base 32)) 0.

Lemma segment_code n c d t : segment (gdt_bytes (mk_gdt n c d t)) 8 = gdt_entry_bytes c.
Proof. reflexivity. Qed.
Lemma segment_data n c d t : segment (gdt_bytes (mk_gdt n c d t)) 16 = gdt_entry_bytes d.
Proof. reflexivity. Qed.
Lemma segment_tss_access n c d t : seg_access (segment (gdt_bytes (mk_gdt n c d t)) 24) = from_le (le 1 (t_access t)).
Proof. reflexivity. Qed.

Definition tss_segment (g : gdt_table) : list Z := drop 24 (gdt_bytes g).

(** The task segment read back is where the structure is, and as long. *)
Lemma system_base_of base : is_u64 base -> system_base (tss_desc_bytes (busy (tss_entry base))) = base.
Proof.
  intros Hb. unfold system_base. set (e := busy (tss_entry base)).
  change (field (tss_desc_bytes e) 2 3) with (from_le (le 2 (t_base_low e) ++ le 1 (t_base_mid1 e))).
  change (field (tss_desc_bytes e) 7 1) with (from_le (le 1 (t_base_mid2 e))).
  change (field (tss_desc_bytes e) 8 4) with (from_le (le 4 (t_base_high e))).
  assert (E3 : from_le (le 2 (t_base_low e) ++ le 1 (t_base_mid1 e)) = base `mod` 16777216).
  { assert (Hle : le 2 (t_base_low e) ++ le 1 (t_base_mid1 e) = le 3 base).
    { cbn [le app]. unfold e, busy, tss_entry. cbn [t_base_low t_base_mid1]. unfold u8, u16.
      rewrite !land_16, !land_8, !Z.shiftr_div_pow2 by lia. change (2 ^ 8) with 256. change (2 ^ 16) with 65536.
      f_equal; [|f_equal; [|f_equal]]; Z.to_euclidean_division_equations; lia. }
    rewrite Hle, from_le_le. done. }
  rewrite E3, !from_le_le. unfold e, busy, tss_entry. cbn [t_base_mid2 t_base_high]. unfold u8, u32.
  rewrite land_8, !Z.shiftr_div_pow2 by lia. change (2 ^ (8 * Z.of_nat 1)) with 256. change (2 ^ (8 * Z.of_nat 4)) with 4294967296.
  change (2 ^ 24) with 16777216. change (2 ^ 32) with 4294967296. rewrite !Zmod_mod. unfold is_u64 in Hb.
  rewrite (Z.mod_small (base / 4294967296)) by (Z.to_euclidean_division_equations; lia).
  set (m := (base / 16777216) `mod` 256). set (h := base / 4294967296).
  assert (Hm : 0 <= m < 256) by (apply Z.mod_pos_bound; lia). assert (Hh : 0 <= h) by (unfold h; Z.to_euclidean_division_equations; lia).
  rewrite (Z.lor_comm (Z.shiftl m 24)), lor_shiftl by (rewrite ?Z.shiftl_mul_pow2 by lia; lia).
  replace (h * 2 ^ 32 + Z.shiftl m 24) with (Z.shiftl (h * 256 + m) 24) by (rewrite !Z.shiftl_mul_pow2 by lia; lia).
  rewrite Z.lor_comm, lor_shiftl by (lia || (apply Z.mod_pos_bound; lia)). unfold m, h. change (2 ^ 24) with 16777216.
  clear. Z.to_euclidean_division_equations. lia.
Qed.

Lemma system_limit_of base : system_limit (tss_desc_bytes (busy (tss_entry base))) = SIZEOF_TSS - 1.
Proof. reflexivity. Qed.

Lemma wp_gdt_init gdt_addr tss_addr s (Q : unit -> desc -> Prop) :
  Q tt (set_segments 8 16 (set_gdtr (39, gdt_addr) (set_gdt (mk_gdt (g_null (gdt s)) code_entry data_entry (tss_entry tss_addr)) s))) ->
  wp (gdt_init gdt_addr tss_addr) Q s.
Proof.
  intros HQ. unfold gdt_init, tss_base_address, lgdt, load_segments. do 2 (wp_step; apply wp_modify). cbv zeta. wp_step. apply wp_modify.
  do 2 wp_step. wp_step. apply wp_modify. do 4 wp_step. unfold set_gdtr, set_gdt. cbn [gdt gdtr g_null g_code g_data g_tss].
  rewrite segment_code, segment_data. apply wp_modify. exact HQ.
Qed.

(** The processor's tables in order: delivery, the segments it runs in, and the
    task segment. *)
Definition tables_ok (gdt_addr idt_addr tss_addr isr_ud isr_df isr_gp isr_pf isr_irq0 isr_irq1 : Z) (s : desc) : Prop :=
  (forall v, 0 <= v < 256 -> deliver gdt_addr idt_addr s v = handler_of isr_ud isr_df isr_gp isr_pf isr_irq0 isr_irq1 v) /\
  is_code64 (segment (gdt_bytes (gdt s)) (cs s)) = true /\ is_data (segment (gdt_bytes (gdt s)) (data_sel s)) = true /\
  tr s = 24 /\ system_base (tss_segment (gdt s)) = tss_addr /\
  system_limit (tss_segment (gdt s)) = SIZEOF_TSS - 1 /\ system_limit (tss_segment (gdt s)) < iopb (kernel_tss s).

Lemma wp_tss_init gdt_addr idt_addr tss_addr isr_ud isr_df isr_gp isr_pf isr_irq0 isr_irq1 s n (Q : unit -> desc -> Prop) :
  Forall is_u64 [tss_addr; isr_ud; isr_df; isr_gp; isr_pf; isr_irq0; isr_irq1] ->
  gdt s = mk_gdt n code_entry data_entry (tss_entry tss_addr) -> gdtr s = (39, gdt_addr) -> idtr s = (4095, idt_addr) ->
  cs s = 8 -> data_sel s = 16 ->
  (forall v, 0 <= v < 256 -> arr (idt s) v = Some (final_gate isr_ud isr_df isr_gp isr_pf isr_irq0 isr_irq1 v)) ->
  (forall s', tables_ok gdt_addr idt_addr tss_addr isr_ud isr_df isr_gp isr_pf isr_irq0 isr_irq1 s' -> cr0 s' = cr0 s -> cr4 s' = cr4 s ->
     Q tt s') -> wp tss_init Q s.
Proof.
  intros Hall Eg0 Er0 Ei0 Ec0 Ed0 Hg HQ. repeat (apply Forall_cons in Hall as [? Hall]). unfold tss_init, ltr. wp_step. apply wp_modify.
  cbv zeta. do 4 wp_step.
  set (s1 := set_tss _ _). assert (Eg : gdt s1 = mk_gdt n code_entry data_entry (tss_entry tss_addr)) by exact Eg0.
  assert (Er : gdtr s1 = (39, gdt_addr)) by exact Er0. change 0x18 with 24. rewrite Eg, Er, segment_tss_access. do 4 wp_step. rewrite Eg.
  apply HQ; [|done|done]. unfold tables_ok, deliver.
  cbn [gdt gdtr idtr idt cs data_sel tr kernel_tss g_null g_code g_data g_tss set_tr set_gdt].
  change (cs s1) with (cs s). change (data_sel s1) with (data_sel s). change (idt s1) with (idt s). change (idtr s1) with (idtr s).
  change (iopb (kernel_tss s1)) with 104. change (gdtr s1) with (gdtr s). rewrite Er0, Ei0, Ec0, Ed0, segment_code, segment_data.
  clearbody s1. clear Eg Er.
  unfold tss_segment. set (g := mk_gdt _ _ _ _). change (drop 24 (gdt_bytes g)) with (tss_desc_bytes (busy (tss_entry tss_addr))).
  split; [|split_and!; [done|done|done|by apply system_base_of|done|done]].
  intros v Hv. cbn [fst snd]. rewrite !Z.eqb_refl. cbn [negb orb].
  rewrite (proj2 (Z.ltb_ge 4095 (16 * v + 15))) by lia. cbv zeta. rewrite (idt_slice _ v (final_gate isr_ud isr_df isr_gp isr_pf isr_irq0 isr_irq1 v)) by auto.
  unfold final_gate. destruct (handler_of _ _ _ _ _ _ v) as [h|] eqn:Eh; [|done].
  change (field (gate_bytes (gate_of h 0x8E 0)) 5 1) with 0x8E. change (field (gate_bytes (gate_of h 0x8E 0)) 2 2) with 8. cbn [negb Z.eqb].
  change (segment (gdt_bytes g) 8) with (gdt_entry_bytes code_entry). change (in_table 39 8 && is_code64 (gdt_entry_bytes code_entry)) with true.
  cbv iota. rewrite gate_offset_of; [done|]. unfold handler_of in Eh.
  repeat (match type of Eh with (if ?b then _ else _) = _ => destruct b; [by simplify_eq|] end). done.
Qed.

(** The floating point unit is on, its exceptions too, and the other bits of the
    control registers are as they were. *)
Definition sse_on (s s' : desc) : Prop := forall i, 0 <= i < 64 ->
  Z.testbit (cr0 s') i = (if i =? 1 then true else if (i =? 2) || (i =? 3) then false else Z.testbit (cr0 s) i) /\
  Z.testbit (cr4 s') i = (if (i =? 9) || (i =? 10) then true else Z.testbit (cr4 s) i).

Lemma wp_enable_sse s (Q : unit -> desc -> Prop) :
  (forall a b, sse_on s (set_cr4 b (set_cr0 a s)) -> Q tt (set_cr4 b (set_cr0 a s))) -> wp cpu_enable_sse Q s.
Proof.
  intros HQ. unfold cpu_enable_sse. do 2 wp_step. cbv zeta. wp_step. apply wp_modify. do 2 wp_step. apply wp_modify, HQ.
  intros i Hi. cbn -[Z.testbit].
  rewrite !Z.lor_spec, !Z.land_spec, !u64_testbit, !Z.lnot_spec, !u64_testbit, !testbit_one_shift by lia. rewrite !(Z.eqb_sym i).
  split.
  - destruct (Z.eqb_spec 1 i) as [<-|]; [by rewrite orb_true_r|]. rewrite orb_false_r.
    destruct (2 =? i), (3 =? i); cbn [negb orb]; by rewrite ?andb_false_r, ?andb_true_r.
  - destruct (9 =? i), (10 =? i); cbn [orb]; by rewrite ?orb_true_r, ?orb_false_r.
Qed.

(** ** Properties *)

(** C32: the processor's tables are well formed.  After [gdt_init], [idt_init] and
    [tss_init], in this order, from any contents of the tables and for handlers at
    any addresses, the processor delivers each of the six vectors with a handler to
    its handler, at its full 64-bit address, and no other vector; it runs in the
    64-bit code segment of ring 0, its data segments are writable, and its task
    segment is the structure of [tss.c], whole, with no I/O map. *)
Theorem descriptor_tables_ok gdt_addr idt_addr tss_addr isr_ud isr_df isr_gp isr_pf isr_irq0 isr_irq1 s :
  zlen (idt s) = 256 -> Forall is_u64 [tss_addr; isr_ud; isr_df; isr_gp; isr_pf; isr_irq0; isr_irq1] ->
  wp (gdt_init gdt_addr tss_addr ;; idt_init idt_addr isr_ud isr_df isr_gp isr_pf isr_irq0 isr_irq1 ;; tss_init)
    (fun _ s' => tables_ok gdt_addr idt_addr tss_addr isr_ud isr_df isr_gp isr_pf isr_irq0 isr_irq1 s') s.
Proof.
  intros Hl Hall. wp_step. apply wp_gdt_init. wp_step. apply wp_idt_init; [done|].
  intros l Hll Hg. eapply wp_tss_init; [done|reflexivity|reflexivity|reflexivity|done|done|exact Hg|]. by intros s' ? _ _.
Qed.

Definition desc0 : desc :=
  mk_desc (mk_gdt (mk_gdt_entry 0 0 0 0 0 0) (mk_gdt_entry 0 0 0 0 0 0) (mk_gdt_entry 0 0 0 0 0 0) (mk_tss_desc 0 0 0 0 0 0 0 0))
    (replicate 256 (mk_gate 1 2 3 4 5 6 7)) tss0 (0, 0) (0, 0) 0 0 0 0x60000011 0x20.

Lemma descriptor_tables_witness :
  wp (gdt_init 0xFFFFFFFF80100000 0xFFFFFFFF80123450 ;;
      idt_init 0xFFFFFFFF80110000 0xFFFFFFFF80101000 0xFFFFFFFF80101010 0xFFFFFFFF80101020 0xFFFFFFFF80101030 0xFFFFFFFF80101040 0xFFFFFFFF80101050 ;;
      tss_init) (fun _ s' => tables_ok 0xFFFFFFFF80100000 0xFFFFFFFF80110000 0xFFFFFFFF80123450 0xFFFFFFFF80101000 0xFFFFFFFF80101010
    0xFFFFFFFF80101020 0xFFFFFFFF80101030 0xFFFFFFFF80101040 0xFFFFFFFF80101050 s') desc0.
Proof.
  apply descriptor_tables_ok.
  - vm_compute. reflexivity.
  - repeat constructor; discriminate.
Defined.

Theorem cpu_enable_sse_spec s : wp cpu_enable_sse (fun _ s' => sse_on s s') s.
Proof. apply wp_enable_sse. by intros a b. Qed.

(** ** [memset] ([kernel/string.c]), on a memory of bytes *)

Definition memset (dest value count : Z) : M (gmap Z Z) Z :=
  for_all (upto 0 count) (fun i => modify (insert (M := gmap Z Z) (u64 (dest + i)) (u8 value))) ;;
  mret dest.

(** It fills its bytes and no other. *)
Theorem memset_spec dest value count (mem : gmap Z Z) :
  0 <= dest -> 0 <= count -> dest + count <= 18446744073709551616 ->
  wp (memset dest value count) (fun r mem' => r = dest /\
    forall a, mem' !! a = if (dest <=? a) && (a <? dest + count) then Some (u8 value) else mem !! a) mem.
Proof.
  intros Hd Hc Hend. unfold memset. wp_step.
  apply (wp_for_all (fun i (m : gmap Z Z) => forall a, m !! a = if (dest <=? a) && (a <? dest + i) then Some (u8 value) else mem !! a)).
  - done.
  - intros a. destruct (Z.leb_spec dest a), (Z.ltb_spec a (dest + 0)); try done; lia.
  - intros i m Hi Hm. apply wp_modify. intros a. rewrite u64_small by lia. destruct (decide (dest + i = a)) as [<-|Hne].
    + rewrite lookup_insert_eq, (proj2 (Z.leb_le _ _)), (proj2 (Z.ltb_lt _ _)) by lia. done.
    + rewrite lookup_insert_ne, Hm by done. destruct (Z.leb_spec dest a), (Z.ltb_spec a (dest + i)), (Z.ltb_spec a (dest + (i + 1))); try done; lia.
  - intros m Hm. by apply wp_ret.
Qed.

End Desc.
