(* ===== verification/Pci.v ===== *)
(** * The PCI bus ([kernel/drivers/pci.c])

    The scan of the buses over the ports of the host bridge, and the table of the
    devices it finds.  The bridge is any device that keeps the class [PciHost]. *)

From S2P Require Import Prelude Ports.
From Stdlib Require Import String.
Import Ports.

(** Byte [k] of a word, and a word with byte [k] replaced. *)
Definition byte_of (x k : Z) : Z := u8 (Z.shiftr x (8 * k)).
Definition put_byte (x k v : Z) : Z := x - byte_of x k * 2 ^ (8 * k) + v * 2 ^ (8 * k).

(** The host bridge: the register of the configuration address, and the 32-bit
    registers of the configuration space by that address.  The data ports answer
    the bytes of the register addressed when bit 31 of the address is set, and 0xFF
    otherwise.  [byte_address] tells whether the bridge takes an address written
    byte by byte.  The PCI standard says that it does not: only a 32-bit write to
    the address port reaches the register. *)
Class PciHost (D : Type) `{PortIO D} := {
  byte_address : bool;
  cfg_address : D -> Z;
  cfg_register : D -> Z -> Z;

  cfg_word d a : is_u32 (cfg_register d a);
  cfg_address_word d : is_u32 (cfg_address d);
  addr_write k v d : 0 <= k < 4 -> is_byte v ->
    cfg_address (port_out (0xCF8 + k) v d) = (if byte_address then put_byte (cfg_address d) k v else cfg_address d) /\
    cfg_register (port_out (0xCF8 + k) v d) = cfg_register d;
  data_read k d : 0 <= k < 4 ->
    (port_in (0xCFC + k) d).1 =
      (if Z.testbit (cfg_address d) 31 then byte_of (cfg_register d (cfg_address d)) k else 0xFF) /\
    cfg_address (port_in (0xCFC + k) d).2 = cfg_address d /\ cfg_register (port_in (0xCFC + k) d).2 = cfg_register d;
}.

Module Pci.

Definition NM_PCI_MAX_DEVICES : Z := 64.

Record nm_device := mk_device {
  name : list Z;
  vendor_id : Z;
  device_id : Z;
  class_code : Z;
  subclass : Z;
  prog_if : Z;
  bus : Z;
  slot : Z;
  func : Z;
  bar0 : Z;
}.

Section ops.
Context {D : Type} `{PortIO D}.

(** The static data of [pci.c], with the devices behind the ports. *)
Record pci := mk_pci { pci_devices : list nm_device; pci_count : Z; p_dev : D }.

Definition set_devices v s := mk_pci v (pci_count s) (p_dev s).
Definition set_count v s := mk_pci (pci_devices s) v (p_dev s).
Definition set_dev v s := mk_pci (pci_devices s) (pci_count s) v.
Definition on_dev {A} (c : M D A) : M pci A := lift_to p_dev set_dev c.

Definition pci_cfg_addr (bus slot func off : Z) : Z :=
  u32 (Z.lor (Z.lor (Z.lor (Z.lor (u32 (Z.shiftl 1 31)) (u32 (Z.shiftl bus 16))) (u32 (Z.shiftl slot 11)))
    (u32 (Z.shiftl func 8))) (Z.land off 0xFC)).

Definition pci_cfg_read32 (bus slot func off : Z) : M D Z :=
  let addr := pci_cfg_addr bus slot func off in
  outb 0xCF8 (u8 (Z.land addr 0xFF)) ;;
  outb (0xCF8 + 1) (u8 (Z.land (Z.shiftr addr 8) 0xFF)) ;;
  outb (0xCF8 + 2) (u8 (Z.land (Z.shiftr addr 16) 0xFF)) ;;
  outb (0xCF8 + 3) (u8 (Z.land (Z.shiftr addr 24) 0xFF)) ;;
  let value := 0 in
  b ← inb 0xCFC;
  let value := Z.lor value b in
  b ← inb (0xCFC + 1);
  let value := Z.lor value (u32 (Z.shiftl b 8)) in
  b ← inb (0xCFC + 2);
  let value := Z.lor value (u32 (Z.shiftl b 16)) in
  b ← inb (0xCFC + 3);
  let value := Z.lor value (u32 (Z.shiftl b 24)) in
  mret value.

(** One slot of the scan; [Some tt] leaves [pci_init]. *)
Definition probe (b s : Z) : M pci (option unit) :=
  vdid ← on_dev (pci_cfg_read32 (u8 b) s 0 0x00);
  let vendor := u16 (Z.land vdid 0xFFFF) in
  let device := u16 (Z.land (Z.shiftr vdid 16) 0xFFFF) in
  if vendor =? 0xFFFF then mret None else
  n ← gets pci_count;
  if NM_PCI_MAX_DEVICES <=? n then mret (Some tt) else
  class_reg ← on_dev (pci_cfg_read32 (u8 b) s 0 0x08);
  r0 ← on_dev (pci_cfg_read32 (u8 b) s 0 0x10);
  n ← gets pci_count;
  wr pci_devices set_devices n
    (mk_device (chars "pci-dev") vendor device (u8 (Z.land (Z.shiftr class_reg 24) 0xFF)) (u8 (Z.land (Z.shiftr class_reg 16) 0xFF))
      (u8 (Z.land (Z.shiftr class_reg 8) 0xFF)) (u8 b) s 0 r0) ;;
  modify (set_count (u64 (n + 1))) ;;
  mret None.

Definition pci_init : M pci unit :=
  modify (set_count 0) ;;
  for_each (upto 0 256) (fun b => for_each (upto 0 32) (fun s => probe b s)) ;;
  mret tt.

Definition pci_device_count : M pci Z := gets pci_count.

(** A pointer into the table is an index. *)
Definition pci_get_device (index : Z) : M pci (option Z) :=
  n ← gets pci_count; mret (if n <=? index then None else Some index).

Definition pci_find_device (vendor device : Z) : M pci (option Z) :=
  n ← gets pci_count;
  for_each (upto 0 n) (fun i =>
    d ← rd pci_devices i;
    if (vendor_id d =? vendor) && (device_id d =? device) then mret (Some i) else mret None).
End ops.

(** ** Bytes of a word *)

Definition word4 (x0 x1 x2 x3 : Z) : Z := x0 + 256 * x1 + 65536 * x2 + 16777216 * x3.

Lemma byte_of_div x k : 0 <= k -> byte_of x k = (x / 2 ^ (8 * k)) `mod` 256.
Proof. intros. unfold byte_of, u8. by rewrite Z.shiftr_div_pow2 by lia. Qed.

Lemma byte_of_byte x k : is_byte (byte_of x k).
Proof. apply u8_byte. Qed.

Lemma word4_bytes x : is_u32 x -> x = word4 (byte_of x 0) (byte_of x 1) (byte_of x 2) (byte_of x 3).
Proof.
  intros Hx. unfold is_u32, word4 in *. rewrite !byte_of_div by lia. change (2 ^ (8 * 0)) with 1. change (2 ^ (8 * 1)) with 256.
  change (2 ^ (8 * 2)) with 65536. change (2 ^ (8 * 3)) with 16777216. Z.to_euclidean_division_equations; lia.
Qed.

Lemma word4_range x0 x1 x2 x3 : is_byte x0 -> is_byte x1 -> is_byte x2 -> is_byte x3 -> is_u32 (word4 x0 x1 x2 x3).
Proof. unfold is_byte, is_u32, word4. lia. Qed.

Section word.
Context (x0 x1 x2 x3 : Z) (H0 : is_byte x0) (H1 : is_byte x1) (H2 : is_byte x2) (H3 : is_byte x3).

Lemma byte_of_word4 :
  byte_of (word4 x0 x1 x2 x3) 0 = x0 /\ byte_of (word4 x0 x1 x2 x3) 1 = x1 /\
  byte_of (word4 x0 x1 x2 x3) 2 = x2 /\ byte_of (word4 x0 x1 x2 x3) 3 = x3.
Proof using H0 H1 H2 H3.
  unfold is_byte, word4 in *. rewrite !byte_of_div by lia. change (2 ^ (8 * 0)) with 1. change (2 ^ (8 * 1)) with 256.
  change (2 ^ (8 * 2)) with 65536. change (2 ^ (8 * 3)) with 16777216. split_and!; Z.to_euclidean_division_equations; lia.
Qed.

Ltac put_byte_tac :=
  unfold put_byte; destruct byte_of_word4 as (E0 & E1 & E2 & E3); rewrite ?E0, ?E1, ?E2, ?E3; unfold word4;
  change (2 ^ (8 * 0)) with 1; change (2 ^ (8 * 1)) with 256; change (2 ^ (8 * 2)) with 65536; change (2 ^ (8 * 3)) with 16777216; lia.

Lemma put_byte_0 v : put_byte (word4 x0 x1 x2 x3) 0 v = word4 v x1 x2 x3.
Proof using H0 H1 H2 H3. put_byte_tac. Qed.

Lemma put_byte_1 v : put_byte (word4 x0 x1 x2 x3) 1 v = word4 x0 v x2 x3.
Proof using H0 H1 H2 H3. put_byte_tac. Qed.

Lemma put_byte_2 v : put_byte (word4 x0 x1 x2 x3) 2 v = word4 x0 x1 v x3.
Proof using H0 H1 H2 H3. put_byte_tac. Qed.

Lemma put_byte_3 v : put_byte (word4 x0 x1 x2 x3) 3 v = word4 x0 x1 x2 v.
Proof using H0 H1 H2 H3. put_byte_tac. Qed.

Lemma lor_word4 :
  Z.lor (Z.lor (Z.lor (Z.lor 0 x0) (u32 (Z.shiftl x1 8))) (u32 (Z.shiftl x2 16))) (u32 (Z.shiftl x3 24)) = word4 x0 x1 x2 x3.
Proof using H0 H1 H2 H3.
  unfold is_byte, word4 in *. rewrite !u32_small by (rewrite Z.shiftl_mul_pow2 by lia; lia). rewrite Z.lor_0_l.
  rewrite (Z.lor_comm x0), lor_shiftl by lia. rewrite (Z.lor_comm (_ + x0)), lor_shiftl by lia.
  rewrite (Z.lor_comm (_ + _)), lor_shiftl by lia. lia.
Qed.
End word.

(** The bytes that [pci_cfg_read32] writes are those of the address. *)
Lemma addr_byte a k : 0 <= k < 4 -> u8 (Z.land (Z.shiftr a (8 * k)) 0xFF) = byte_of a k.
Proof. intros Hk. unfold byte_of, u8. change 0xFF with (Z.ones 8). rewrite Z.land_ones by lia. apply Zmod_mod. Qed.

Lemma cfg_addr_range b s f off : is_u32 (pci_cfg_addr b s f off).
Proof. apply u32_range. Qed.

Lemma cfg_addr_enabled b s f off : Z.testbit (pci_cfg_addr b s f off) 31 = true.
Proof. unfold pci_cfg_addr. rewrite u32_testbit, !Z.lor_spec by lia. done. Qed.

(** Where the register at byte [off] of function 0 of a slot is: above the enable bit,
    64 KiB for each bus and 2 KiB for each slot, in words of four bytes. *)
Definition location (b sl off : Z) : Z := 2147483648 + b * 65536 + sl * 2048 + off / 4 * 4.

Lemma cfg_addr_location b sl off :
  0 <= b < 256 -> 0 <= sl < 32 -> 0 <= off < 256 -> pci_cfg_addr b sl 0 off = location b sl off.
Proof.
  intros Hb Hs Ho. assert (Hoff : Z.land off 0xFC = off / 4 * 4).
  { assert (Hall : forallb (fun x => Z.land x 0xFC =? x / 4 * 4) (upto 0 256) = true) by (vm_compute; reflexivity).
    rewrite forallb_forall in Hall. by apply Z.eqb_eq, Hall, list_elem_of_In, elem_of_upto. }
  assert (0 <= off / 4 * 4 < 256) by (Z.to_euclidean_division_equations; lia).
  unfold pci_cfg_addr, location. rewrite Hoff. change (u32 (Z.shiftl 0 8)) with 0. rewrite Z.lor_0_r.
  change (u32 (Z.shiftl 1 31)) with (Z.shiftl 1 31). rewrite (Z.shiftl_mul_pow2 b), (Z.shiftl_mul_pow2 sl) by lia.
  rewrite (u32_small (b * 2 ^ 16)), (u32_small (sl * 2 ^ 11)) by lia.
  rewrite lor_shiftl by lia. replace (1 * 2 ^ 31 + b * 2 ^ 16) with (Z.shiftl (32768 + b) 16) by (rewrite Z.shiftl_mul_pow2; lia).
  rewrite lor_shiftl by lia. replace ((32768 + b) * 2 ^ 16 + sl * 2 ^ 11) with (Z.shiftl ((32768 + b) * 32 + sl) 11) by (rewrite Z.shiftl_mul_pow2; lia).
  rewrite lor_shiftl by lia. rewrite u32_small; lia.
Qed.

(** The fields of a register. *)
Lemma low_half x : u16 (Z.land x 0xFFFF) = x mod 65536.
Proof. change 0xFFFF with (Z.ones 16). rewrite Z.land_ones by lia. apply Zmod_mod. Qed.

Lemma high_half x : is_u32 x -> u16 (Z.land (Z.shiftr x 16) 0xFFFF) = x / 65536.
Proof.
  intros Hx. rewrite low_half, Z.shiftr_div_pow2 by lia. apply Z.mod_small. unfold is_u32 in Hx.
  Z.to_euclidean_division_equations; lia.
Qed.

Lemma field x k : 0 <= k -> u8 (Z.land (Z.shiftr x k) 0xFF) = (x / 2 ^ k) mod 256.
Proof. intros Hk. change 0xFF with (Z.ones 8). rewrite Z.land_ones, Z.shiftr_div_pow2 by lia. apply Zmod_mod. Qed.

(** ** What the bridge answers *)

Section spec.
Context {D : Type} `{PciHost D}.
Implicit Types (d : D) (s : pci (D := D)).

(** A bridge that takes no address byte by byte must not have one from before. *)
Definition idle d : Prop := byte_address = false -> Z.testbit (cfg_address d) 31 = false.

Definition config d (b sl off : Z) : Z :=
  if byte_address then cfg_register d (location b sl off) else 0xFFFFFFFF.

(** The device after the four bytes of an address. *)
Definition addressed (a : Z) d : D :=
  port_out (u16 (0xCF8 + 3)) (u8 (u8 (Z.land (Z.shiftr a 24) 0xFF)))
    (port_out (u16 (0xCF8 + 2)) (u8 (u8 (Z.land (Z.shiftr a 16) 0xFF)))
      (port_out (u16 (0xCF8 + 1)) (u8 (u8 (Z.land (Z.shiftr a 8) 0xFF)))
        (port_out (u16 0xCF8) (u8 (u8 (Z.land a 0xFF))) d))).

Lemma addressed_spec a d :
  is_u32 a -> cfg_register (addressed a d) = cfg_register d /\ cfg_address (addressed a d) = (if byte_address then a else cfg_address d).
Proof.
  intros Ha. unfold addressed.
  change (Z.land a 0xFF) with (Z.land (Z.shiftr a (8 * 0)) 0xFF). change (Z.shiftr a 8) with (Z.shiftr a (8 * 1)).
  change (Z.shiftr a 16) with (Z.shiftr a (8 * 2)). change (Z.shiftr a 24) with (Z.shiftr a (8 * 3)).
  rewrite (addr_byte a 0), (addr_byte a 1), (addr_byte a 2), (addr_byte a 3) by lia.
  rewrite !(u8_small (byte_of a _)) by apply byte_of_byte.
  change (u16 0xCF8) with (0xCF8 + 0). change (u16 (0xCF8 + 1)) with (0xCF8 + 1).
  change (u16 (0xCF8 + 2)) with (0xCF8 + 2). change (u16 (0xCF8 + 3)) with (0xCF8 + 3).
  destruct (addr_write 0 (byte_of a 0) d) as [A0 C0]; [lia|apply byte_of_byte|]. set (d0 := port_out (0xCF8 + 0) (byte_of a 0) d) in *.
  destruct (addr_write 1 (byte_of a 1) d0) as [A1 C1]; [lia|apply byte_of_byte|]. set (d1 := port_out (0xCF8 + 1) (byte_of a 1) d0) in *.
  destruct (addr_write 2 (byte_of a 2) d1) as [A2 C2]; [lia|apply byte_of_byte|]. set (d2 := port_out (0xCF8 + 2) (byte_of a 2) d1) in *.
  destruct (addr_write 3 (byte_of a 3) d2) as [A3 C3]; [lia|apply byte_of_byte|].
  split; [congruence|]. rewrite A3, A2, A1, A0. destruct byte_address; [|done].
  rewrite (word4_bytes (cfg_address d)) by apply cfg_address_word.
  rewrite put_byte_0, put_byte_1, put_byte_2, put_byte_3 by apply byte_of_byte.
  symmetry. by apply word4_bytes.
Qed.

(** The bytes of a register, read in order. *)
Lemma wp_data_bytes d a (Q : Z -> D -> Prop) :
  cfg_address d = a ->
  (forall d', cfg_register d' = cfg_register d -> cfg_address d' = a ->
     Q (if Z.testbit a 31 then cfg_register d a else 0xFFFFFFFF) d') ->
  wp (b0 ← inb 0xCFC; b1 ← inb (0xCFC + 1); b2 ← inb (0xCFC + 2); b3 ← inb (0xCFC + 3);
      mret (Z.lor (Z.lor (Z.lor (Z.lor 0 b0) (u32 (Z.shiftl b1 8))) (u32 (Z.shiftl b2 16))) (u32 (Z.shiftl b3 24)))) Q d.
Proof.
  intros Ha HQ. wp_step. apply wp_inb. intros b0 d0 E0 B0. wp_step. apply wp_inb. intros b1 d1 E1 B1.
  wp_step. apply wp_inb. intros b2 d2 E2 B2. wp_step. apply wp_inb. intros b3 d3 E3 B3. wp_step.
  change (u16 0xCFC) with (0xCFC + 0) in E0. change (u16 (0xCFC + 1)) with (0xCFC + 1) in E1.
  change (u16 (0xCFC + 2)) with (0xCFC + 2) in E2. change (u16 (0xCFC + 3)) with (0xCFC + 3) in E3.
  destruct (data_read 0 d ltac:(lia)) as (V0 & A0 & C0). rewrite E0 in V0, A0, C0. cbn [fst snd] in *.
  destruct (data_read 1 d0 ltac:(lia)) as (V1 & A1 & C1). rewrite E1 in V1, A1, C1. cbn [fst snd] in *.
  destruct (data_read 2 d1 ltac:(lia)) as (V2 & A2 & C2). rewrite E2 in V2, A2, C2. cbn [fst snd] in *.
  destruct (data_read 3 d2 ltac:(lia)) as (V3 & A3 & C3). rewrite E3 in V3, A3, C3. cbn [fst snd] in *.
  rewrite lor_word4 by done. rewrite A2, A1, A0, Ha in *. rewrite C2, C1, C0 in *. 
  assert (Ev : word4 b0 b1 b2 b3 = if Z.testbit a 31 then cfg_register d a else 0xFFFFFFFF).
  { subst b0 b1 b2 b3. destruct (Z.testbit a 31); [|done]. symmetry. apply word4_bytes, cfg_word. }
  rewrite Ev. by apply HQ.
Qed.

Lemma wp_cfg_read d b sl off (Q : Z -> D -> Prop) :
  0 <= b < 256 -> 0 <= sl < 32 -> 0 <= off < 256 ->
  idle d -> (forall d', cfg_register d' = cfg_register d -> idle d' -> Q (config d b sl off) d') ->
  wp (pci_cfg_read32 b sl 0 off) Q d.
Proof.
  intros Hb Hs Ho Hi HQ. unfold pci_cfg_read32. cbv zeta. set (a := pci_cfg_addr b sl 0 off). do 4 (wp_step; apply wp_outb).
  fold (addressed a d). destruct (addressed_spec a d) as [Er Ea]; [apply cfg_addr_range|].
  eapply wp_data_bytes; [exact Ea|]. intros d' Er' Ea'. rewrite Er in Er' |- *. unfold idle in *. unfold config in HQ.
  rewrite <- (cfg_addr_location b sl off) in HQ by done. fold a in HQ.
  pose proof (cfg_addr_enabled b sl 0 off) as Hen. fold a in Hen. destruct byte_address.
  - rewrite Hen. apply HQ; [by rewrite Er'|done].
  - rewrite Hi by done. apply HQ; [by rewrite Er'|]. intros _. rewrite Ea'. by apply Hi.
Qed.

(** ** The devices that are there *)

Definition device_at d (b sl : Z) : option nm_device :=
  let vdid := config d b sl 0x00 in
  let class_reg := config d b sl 0x08 in
  if vdid mod 65536 =? 65535 then None else
  Some (mk_device (chars "pci-dev") (vdid mod 65536) (vdid / 65536) (class_reg / 2 ^ 24 mod 256)
    (class_reg / 2 ^ 16 mod 256) (class_reg / 2 ^ 8 mod 256) b sl 0 (config d b sl 0x10)).

Lemma config_word d b sl off : is_u32 (config d b sl off).
Proof. unfold config. destruct byte_address; [apply cfg_word|done]. Qed.

Lemma nothing_at d b sl : byte_address = false -> device_at d b sl = None.
Proof. intros E. unfold device_at, config. by rewrite E. Qed.

(** Slot [i] of the scan is slot [i mod 32] of bus [i / 32]. *)
Definition present d (k : Z) : list nm_device := omap (fun i => device_at d (i / 32) (i `mod` 32)) (upto 0 k).
Definition SLOTS : Z := 256 * 32.

Lemma nothing_present d k : byte_address = false -> present d k = [].
Proof.
  intros E. unfold present. generalize (upto 0 k) as ix. intros ix. induction ix as [|i ix IH]; [done|].
  cbn [omap list_omap]. by rewrite nothing_at.
Qed.

Definition table s : list nm_device := take (Z.to_nat (pci_count s)) (pci_devices s).

Lemma config_eq d d' b sl off : cfg_register d' = cfg_register d -> config d' b sl off = config d b sl off.
Proof. unfold config. by intros ->. Qed.

Lemma present_next d k : 0 <= k -> present d (k + 1) = present d k ++ olist (device_at d (k / 32) (k `mod` 32)).
Proof.
  intros Hk. unfold present. rewrite (upto_app 0 k (k + 1)), (upto_cons k), (upto_nil (k + 1)) by lia. rewrite omap_app. cbn.
  by destruct (device_at _ _ _).
Qed.

Lemma present_prefix d k n : 0 <= k <= n -> present d k `prefix_of` present d n.
Proof. intros. unfold present. rewrite (upto_app 0 k n) by lia. rewrite omap_app. by eexists. Qed.

(** The state of the scan before slot [k]. *)
Record scanned d0 (k : Z) s : Prop := mk_scanned {
  sn_len : zlen (pci_devices s) = NM_PCI_MAX_DEVICES;
  sn_count : pci_count s = zlen (present d0 k);
  sn_room : pci_count s <= NM_PCI_MAX_DEVICES;
  sn_table : table s = present d0 k;
  sn_cfg : cfg_register (p_dev s) = cfg_register d0;
  sn_idle : idle (p_dev s);
}.

(** The scan is over: the table holds the first 64 devices of the bus. *)
Record found d0 s : Prop := mk_found {
  fd_len : zlen (pci_devices s) = NM_PCI_MAX_DEVICES;
  fd_count : pci_count s = zlen (table s);
  fd_table : table s = take (Z.to_nat NM_PCI_MAX_DEVICES) (present d0 SLOTS);
}.

Lemma scanned_found d0 k s : scanned d0 k s -> k = SLOTS -> found d0 s.
Proof.
  intros [Hl Hc Hr Ht _ _] Ek. constructor; [done|by rewrite Ht|]. rewrite <- Ek, Ht. symmetry. apply take_ge.
  unfold NM_PCI_MAX_DEVICES, zlen in *. lia.
Qed.

Lemma full_found d0 k s dv :
  scanned d0 k s -> 0 <= k < SLOTS -> pci_count s = NM_PCI_MAX_DEVICES -> device_at d0 (k / 32) (k `mod` 32) = Some dv -> found d0 s.
Proof.
  intros [Hl Hc Hr Ht _ _] Hk Hf Hd. constructor; [done|by rewrite Ht|]. rewrite Ht.
  destruct (present_prefix d0 k SLOTS) as [l El]; [lia|]. rewrite El.
  rewrite take_app_length'; [done|]. unfold zlen, NM_PCI_MAX_DEVICES in *. lia.
Qed.

Lemma table_push s dv :
  0 <= pci_count s < zlen (pci_devices s) ->
  table (mk_pci (upd (pci_devices s) (pci_count s) dv) (pci_count s + 1) (p_dev s)) = table s ++ [dv].
Proof.
  intros Hc. unfold table. cbn [pci_count pci_devices]. rewrite (take_snoc_arr _ _ dv) by (lia || (apply arr_upd_eq; lia)). f_equal.
  unfold upd. rewrite (proj2 (Z.leb_le 0 _)) by lia. by apply take_insert_ge.
Qed.

(** One slot of the scan. *)
Lemma wp_probe d0 b sl s (Q : option unit -> pci (D := D) -> Prop) :
  0 <= b < 256 -> 0 <= sl < 32 -> scanned d0 (b * 32 + sl) s ->
  (forall s', scanned d0 (b * 32 + sl + 1) s' -> Q None s') -> (forall s', found d0 s' -> Q (Some tt) s') ->
  wp (probe b sl) Q s.
Proof.
  intros Hb Hsl Hs HQ HQf. pose proof Hs as [Hl Hc Hr Ht Hcfg Hi]. unfold probe. rewrite (u8_small b) by done.
  assert (Hk : (b * 32 + sl) / 32 = b /\ (b * 32 + sl) `mod` 32 = sl) by (split; Z.to_euclidean_division_equations; lia).
  pose proof (present_next d0 (b * 32 + sl) ltac:(lia)) as Hnext. rewrite (proj1 Hk), (proj2 Hk) in Hnext.
  wp_step. apply wp_lift. apply wp_cfg_read; [done..|]. intros d1 E1 I1. rewrite (config_eq d0) by done. cbv zeta.
  rewrite low_half, high_half by apply config_word.
  unfold device_at in Hnext. cbv zeta in Hnext. destruct (config d0 b sl 0 mod 65536 =? 65535) eqn:Ev.
  { apply wp_ret, HQ. cbn [olist] in Hnext. rewrite app_nil_r in Hnext.
    constructor; cbn; [done|by rewrite Hnext|done|by rewrite Hnext|congruence|done]. }
  do 2 wp_step. cbn [pci_count set_dev]. destruct (Z.leb_spec NM_PCI_MAX_DEVICES (pci_count s)).
  { apply wp_ret, HQf. eapply (full_found d0 (b * 32 + sl)).
    - constructor; cbn; [done|done|done|done|congruence|done].
    - unfold SLOTS. lia.
    - cbn. lia.
    - rewrite (proj1 Hk), (proj2 Hk). unfold device_at. cbv zeta. by rewrite Ev. }
  wp_step. apply wp_lift. apply wp_cfg_read; [done..|]. intros d2 E2 I2. wp_step. apply wp_lift. apply wp_cfg_read; [done..|].
  intros d3 E3 I3. cbn [p_dev set_dev] in *. rewrite (config_eq d0 d1), (config_eq d0 d2) by congruence. rewrite !field by lia.
  do 2 wp_step. wp_step. assert (Hc0 : 0 <= pci_count s) by (rewrite Hc; unfold zlen; lia).
  apply wp_wr; [cbn; lia|]. wp_step. apply wp_modify, wp_ret, HQ. unfold set_count, set_devices, set_dev.
  cbn [pci_count pci_devices p_dev]. rewrite u64_small by (unfold NM_PCI_MAX_DEVICES in *; lia). cbn [olist] in Hnext.
  constructor; cbn [pci_count pci_devices p_dev].
  - by rewrite zlen_upd.
  - rewrite Hnext. unfold zlen. rewrite length_app. cbn. rewrite Hc. unfold zlen. lia.
  - lia.
  - rewrite Hnext, <- Ht. pose proof (table_push (mk_pci (pci_devices s) (pci_count s) d3)) as Hp. cbn in Hp. apply Hp. lia.
  - congruence.
  - done.
Qed.

Lemma wp_pci_init s (Q : unit -> pci (D := D) -> Prop) :
  zlen (pci_devices s) = NM_PCI_MAX_DEVICES -> idle (p_dev s) -> (forall s', found (p_dev s) s' -> Q tt s') -> wp pci_init Q s.
Proof.
  intros Hl Hi HQ. unfold pci_init. wp_step. apply wp_modify. wp_step.
  apply (wp_for_each (fun b t => scanned (p_dev s) (b * 32) t)); [lia|by constructor| |].
  - intros b t Hb Ht. apply (wp_for_each (fun sl t => scanned (p_dev s) (b * 32 + sl) t)); [lia|by rewrite Z.add_0_r| |].
    + intros sl u Hsl Hu. eapply wp_probe; [done|done|done| |].
      * intros u' Hu'. by rewrite Z.add_assoc.
      * intros u' Hu'. apply wp_ret. by apply HQ.
    + intros u Hu. by replace ((b + 1) * 32) with (b * 32 + 32) by lia.
  - intros t Ht. apply wp_ret, HQ. by eapply scanned_found.
Qed.

Definition is_device (vendor device : Z) (d : nm_device) : bool := (vendor_id d =? vendor) && (device_id d =? device).

Lemma wp_find_device s vendor device (Q : option Z -> pci (D := D) -> Prop) :
  pci_count s = zlen (table s) -> Q (find_idx (is_device vendor device) (table s)) s -> wp (pci_find_device vendor device) Q s.
Proof.
  intros Hc HQ. unfold pci_find_device. do 2 wp_step.
  assert (Hrd : forall i x, arr (table s) i = Some x -> arr (pci_devices s) i = Some x).
  { intros i x. unfold table, arr. destruct (0 <=? i); [|done]. intros Hx. rewrite lookup_take_Some in Hx. by destruct Hx. }
  eapply (wp_search (is_device vendor device) (table s)); [by rewrite Hc| |].
  - intros i x Hx Hp. unfold mbind, M_bind, rd. rewrite (Hrd i x Hx). unfold is_device in Hp. by rewrite Hp.
  - destruct (find_idx _ (table s)) as [i|]; [|done]. intros x Hx Hp. wp_step. eapply wp_rd; [by apply Hrd|].
    unfold is_device in Hp. rewrite Hp. by apply wp_ret.
Qed.

(** ** The ports it uses: those of the host bridge *)

Definition pci_port (p : Z) : Prop := 0xCF8 <= p <= 0xCFF.
Definition on_bridge : relation (pci (D := D)) := fun s s' => via pci_port (p_dev s) (p_dev s').

#[local] Instance on_bridge_pre : PreOrder on_bridge.
Proof. split; [intros s; apply rtc_refl|intros s1 s2 s3; unfold on_bridge; intros H12 H23; by etrans]. Qed.

Lemma keeps_cfg_read b sl f o : keeps on_bridge (on_dev (pci_cfg_read32 b sl f o)).
Proof.
  apply (keeps_lift_in _ (via pci_port)); [|done]. unfold pci_cfg_read32. cbv zeta.
  repeat first [apply (keeps_bind (via (D := D) pci_port)); [|intros] | by apply keeps_outb | by apply keeps_inb | apply (keeps_ret (via pci_port))].
Qed.

Lemma keeps_pci_init : keeps on_bridge pci_init.
Proof.
  assert (Hid : forall s t : pci (D := D), p_dev t = p_dev s -> on_bridge s t) by (intros s t E; unfold on_bridge; rewrite E; apply rtc_refl).
  unfold pci_init. apply (keeps_bind on_bridge); [apply (keeps_modify on_bridge); intros; by apply Hid|intros _].
  apply (keeps_bind on_bridge); [|intros; apply (keeps_ret on_bridge)]. do 2 (apply (keeps_for_each on_bridge); intros).
  unfold probe. cbv zeta.
  repeat first [apply (keeps_bind on_bridge); [|intros] | apply keeps_cfg_read | apply (keeps_gets on_bridge) | apply (keeps_ret on_bridge)
    | apply (keeps_wr on_bridge); intros; by apply Hid | apply (keeps_modify on_bridge); intros; by apply Hid
    | match goal with |- context [if ?b then _ else _] => destruct b end].
Qed.

(** ** Properties *)

(** C33: the scan finds what is on the bus.  On a bridge that takes its address byte
    by byte, the table holds the first 64 slots, in the order of buses and slots,
    whose vendor is not 0xFFFF, each with its identity, class and first base
    address, the registers being where the standard has them: at 2^31 + 65536 times
    the bus + 2048 times the slot + the offset; on one that follows the standard and takes none, the table is empty.
    A search answers the first device of the table with the identity asked for. *)
Theorem pci_init_spec s vendor device :
  zlen (pci_devices s) = NM_PCI_MAX_DEVICES -> idle (p_dev s) ->
  wp (pci_init ;; pci_find_device vendor device) (fun r s' =>
    table s' = (if byte_address then take (Z.to_nat NM_PCI_MAX_DEVICES) (present (p_dev s) SLOTS) else []) /\
    pci_count s' = zlen (table s') /\ r = find_idx (is_device vendor device) (table s')) s.
Proof.
  intros Hl Hi. wp_step. apply wp_pci_init; [done|done|]. intros s' [Hl' Hc Ht]. apply wp_find_device; [done|].
  split; [|done]. rewrite Ht. destruct byte_address eqn:Eb; [done|]. by rewrite nothing_present.
Qed.
End spec.

(** *** Concrete bridges, with an Ethernet card in slot 3 and an unknown device in
    slot 5 of bus 0 *)

Record bridge (bytes : bool) := mk_bridge { br_address : Z }.
Arguments mk_bridge {bytes} _.
Arguments br_address {bytes} _.

Definition br_register (a : Z) : Z :=
  if a =? location 0 3 0 then 0x813910EC else if a =? location 0 3 8 then 0x02000010
  else if a =? location 0 3 16 then 0xC001 else if a =? location 0 5 0 then 0x11118086
  else 0xFFFFFFFF.

Definition br_in {bytes} (p : Z) (d : bridge bytes) : Z * bridge bytes :=
  (if (0xCFC <=? p) && (p <? 0xD00) && Z.testbit (u32 (br_address d)) 31
   then byte_of (br_register (u32 (br_address d))) (p - 0xCFC) else 0xFF, d).

Definition br_out {bytes : bool} (p v : Z) (d : bridge bytes) : bridge bytes :=
  if bytes && (0xCF8 <=? p) && (p <? 0xCFC) then mk_bridge (put_byte (u32 (br_address d)) (p - 0xCF8) v) else d.

#[export] Instance br_ports bytes : PortIO (bridge bytes).
Proof.
  refine {| port_in := br_in; port_out := br_out |}. intros p d. unfold br_in. cbn. destruct (_ && _ && _); [apply byte_of_byte|].
  unfold is_byte. lia.
Defined.

Lemma put_byte_range x k v : is_u32 x -> 0 <= k < 4 -> is_byte v -> is_u32 (put_byte x k v).
Proof.
  intros Hx Hk Hv. rewrite (word4_bytes x Hx). assert (k = 0 \/ k = 1 \/ k = 2 \/ k = 3) as [-> | [-> | [-> | ->]]] by lia.
  - rewrite put_byte_0 by apply byte_of_byte. apply word4_range; try apply byte_of_byte. done.
  - rewrite put_byte_1 by apply byte_of_byte. apply word4_range; try apply byte_of_byte. done.
  - rewrite put_byte_2 by apply byte_of_byte. apply word4_range; try apply byte_of_byte. done.
  - rewrite put_byte_3 by apply byte_of_byte. apply word4_range; try apply byte_of_byte. done.
Qed.

#[export] Instance br_host bytes : PciHost (bridge bytes).
Proof.
  refine {| byte_address := bytes; cfg_address d := u32 (br_address d); cfg_register _ := br_register |}.
  - intros _ a. unfold br_register, is_u32. repeat (destruct (a =? _); [lia|]). lia.
  - intros d. apply u32_range.
  - intros k v d Hk Hv. split; [|done]. cbn. unfold br_out. rewrite (proj2 (Z.leb_le _ _)), (proj2 (Z.ltb_lt _ _)) by lia.
    destruct bytes; [|done]. cbn [andb br_address]. replace (0xCF8 + k - 0xCF8) with k by lia.
    apply u32_small, put_byte_range; [apply u32_range|done|done].
  - intros k d Hk. split; [|done]. cbn. rewrite (proj2 (Z.leb_le _ _)), (proj2 (Z.ltb_lt _ _)) by lia. cbn [andb].
    replace (0xCFC + k - 0xCFC) with k by lia. done.
Defined.

Definition pci0 (bytes : bool) : pci (D := bridge bytes) :=
  mk_pci (replicate 64 (mk_device [] 0 0 0 0 0 0 0 0 0)) 9 (mk_bridge 0).

Lemma pci_init_witness :
  wp (pci_init ;; pci_find_device 0x10EC 0x8139) (fun r s' =>
    table s' = (if byte_address (D := bridge true) then take (Z.to_nat NM_PCI_MAX_DEVICES) (present (p_dev (pci0 true)) SLOTS) else []) /\
    pci_count s' = zlen (table s') /\ r = find_idx (is_device 0x10EC 0x8139) (table s')) (pci0 true).
Proof.
  apply (pci_init_spec (pci0 true) 0x10EC 0x8139).
  - reflexivity.
  - intros E. discriminate E.
Defined.

(** A bridge that follows the standard takes none of the four bytes: the scan finds
    no device, although there are two. *)
Example scan_is_blind :
  wp (pci_init ;; pci_find_device 0x10EC 0x8139) (fun r s' => r = None /\ pci_count s' = 0) (pci0 false).
Proof.
  wp_step. apply wp_pci_init; [done|done|]. intros s' [_ Hc Ht]. assert (He : table s' = []) by (rewrite Ht; by rewrite (nothing_present (D := bridge false))).
  apply wp_find_device; [done|]. rewrite Hc, He. split; reflexivity.
Qed.

End Pci.
