(* ===== verification/Fs.v ===== *)
(** * The types of the file system ([include/nm/fs.h])

    The records of the virtual file system, with the promise a mounted file
    system makes to it. A [struct nm_vnode *] is the index of the node in the
    table of its file system, [None] when null; a pointer to a table of
    operations is an address, which the file system resolves. *)

From S2P Require Import Prelude.

Definition NM_NAME_MAX : Z := 64.
Definition NM_FD_MAX : Z := 64.

Definition NM_O_CREAT : Z := 64.
Definition NM_SEEK_SET : Z := 0.
Definition NM_SEEK_CUR : Z := 1.
Definition NM_SEEK_END : Z := 2.

Inductive nm_node_type := NM_NODE_NONE | NM_NODE_FILE | NM_NODE_DIR.

#[export] Instance nm_node_type_eq : EqDecision nm_node_type.
Proof. solve_decision. Defined.

Record nm_stat := mk_stat {
  st_ino : Z;
  st_size : Z;
  st_mode : Z;
  st_uid : Z;
  st_gid : Z;
  st_nlink : Z;
  st_blocks : Z;
}.

Record nm_vnode := mk_vnode {
  used : bool;
  ino : Z;
  type : nm_node_type;
  name : list Z;
  uid : Z;
  gid : Z;
  mode : Z;
  parent : option Z;
  children : option Z;
  next_sibling : option Z;
  data : Z;
  size : Z;
  capacity : Z;
  ops : Z;
  fs_private : Z;
}.

(** A read takes whether its buffer is a valid pointer and answers the bytes it
    stored there; a write takes the bytes of its buffer, [None] for null. *)
Record nm_file_ops (F : Type) := mk_file_ops {
  op_open : option (option Z -> Z -> M F Z);
  op_read : option (option Z -> bool -> Z -> Z -> M F (Z * list Z));
  op_write : option (option Z -> option (list Z) -> Z -> Z -> M F Z);
  op_stat : option (option Z -> bool -> M F (Z * option nm_stat));
}.
Arguments mk_file_ops {F} _ _ _ _.
Arguments op_open {F} _.
Arguments op_read {F} _.
Arguments op_write {F} _.
Arguments op_stat {F} _.

Record nm_fs_ops (F : Type) := mk_fs_ops {
  op_mount_root : option (M F (option Z));
  op_lookup : option Z -> option (list Z) -> M F (option Z);
  op_create : option (option Z -> option (list Z) -> nm_node_type -> Z -> M F (option Z));
}.
Arguments mk_fs_ops {F} _ _ _.
Arguments op_mount_root {F} _.
Arguments op_lookup {F} _.
Arguments op_create {F} _.

(** The C string in a buffer; [None] when no NUL ends it. *)
Fixpoint cstr_of (buf : list Z) : option (list Z) :=
  match buf with
  | [] => None
  | c :: buf => if c =? 0 then Some [] else cons c <$> cstr_of buf
  end.

Definition rd_str {S} (buf : list Z) : M S (list Z) :=
  match cstr_of buf with Some l => mret l | None => stuck OutOfBounds end.

(** A file name: characters other than NUL and few enough for a name buffer. *)
Definition name_ok (nm : list Z) : Prop := Forall (fun c => c <> 0) nm /\ zlen nm < NM_NAME_MAX.

Lemma cstr_of_app nm rest : Forall (fun c => c <> 0) nm -> cstr_of (nm ++ 0 :: rest) = Some nm.
Proof.
  induction 1 as [|c l Hc Hl IH]; [done|]. simpl. destruct (Z.eqb_spec c 0); [done|]. by rewrite IH.
Qed.

Lemma cstr_copy_name dst c :
  zlen dst = NM_NAME_MAX -> name_ok (cs_chars c) -> cstr_of (copy_name dst (Some c) NM_NAME_MAX) = Some (cs_chars c).
Proof.
  intros Hd [Hc Hl]. simpl. rewrite take_ge by (unfold zlen, NM_NAME_MAX in *; lia). by apply cstr_of_app.
Qed.

(** ** Byte sequences: the bytes [offset..offset+len) of a file *)

Definition slice (l : list Z) (offset len : Z) : list Z :=
  take (Z.to_nat len) (drop (Z.to_nat offset) l).

Lemma arr_slice l offset len i :
  0 <= offset -> arr (slice l offset len) i = if (0 <=? i) && (i <? len) then arr l (offset + i) else None.
Proof.
  intros Ho. unfold arr, slice. destruct (Z.leb_spec 0 i); [|done]. simpl.
  destruct (Z.ltb_spec i len).
  - rewrite lookup_take_lt, lookup_drop by lia. destruct (Z.leb_spec 0 (offset + i)); [f_equal; lia|lia].
  - by rewrite lookup_take_ge by lia.
Qed.

Lemma zlen_slice l offset len :
  0 <= offset -> 0 <= len -> zlen (slice l offset len) = Z.min len (Z.max 0 (zlen l - offset)).
Proof. intros. unfold slice, zlen. rewrite length_take, length_drop. lia. Qed.

(** Overwriting from [offset], extending the file when the data go past its end. *)
Definition splice (l : list Z) (offset : Z) (d : list Z) : list Z :=
  take (Z.to_nat offset) l ++ d ++ drop (Z.to_nat offset + length d) l.

Lemma zlen_splice l offset d :
  0 <= offset <= zlen l -> zlen (splice l offset d) = Z.max (zlen l) (offset + zlen d).
Proof.
  intros Ho. unfold splice, zlen in *. rewrite !length_app, length_take, length_drop. lia.
Qed.

Lemma slice_splice l offset d :
  0 <= offset <= zlen l -> slice (splice l offset d) offset (zlen d) = d.
Proof.
  intros Ho. unfold slice, splice, zlen in *. rewrite drop_app_length', Nat2Z.id, take_app_length; [done|].
  rewrite length_take. lia.
Qed.

(** The bytes of another range are left. *)
Lemma arr_splice l offset d i :
  0 <= offset <= zlen l ->
  arr (splice l offset d) i = if (offset <=? i) && (i <? offset + zlen d) then arr d (i - offset) else arr l i.
Proof.
  intros Ho. unfold arr, splice, zlen in *.
  destruct (Z.leb_spec 0 i), (Z.leb_spec offset i), (Z.ltb_spec i (offset + Z.of_nat (length d))); simpl;
    try lia; try (destruct (Z.leb_spec 0 (i - offset)); lia || idtac); try done.
  - rewrite lookup_app_r, length_take, lookup_app_l by (rewrite ?length_take; lia).
    destruct (Z.leb_spec 0 (i - offset)); [f_equal; lia|lia].
  - rewrite lookup_app_r, length_take, lookup_app_r, lookup_drop by (rewrite ?length_take; lia). f_equal. lia.
  - by rewrite lookup_app_l, lookup_take_lt by (rewrite ?length_take; lia).
Qed.

(** File contents [c'] that have the data [d] from [offset], and the old bytes
    before and after. *)
Record written (c : list Z) (offset : Z) (d c' : list Z) : Prop := mk_written {
  wr_len : zlen c' = Z.max (zlen c) (offset + zlen d);
  wr_data x : offset <= x < offset + zlen d -> arr c' x = arr d (x - offset);
  wr_rest x : x < zlen c -> ~ (offset <= x < offset + zlen d) -> arr c' x = arr c x;
}.

Lemma written_splice c offset d c' : 0 <= offset <= zlen c -> written c offset d c' -> c' = splice c offset d.
Proof.
  intros Ho [Hl Hd Hr]. apply arr_ext; [by rewrite zlen_splice|]. intros x. rewrite arr_splice by done.
  destruct (Z.leb_spec offset x), (Z.ltb_spec x (offset + zlen d)); simpl; [apply Hd; lia|..].
  all: destruct (decide (x < zlen c)); [apply Hr; lia|]; rewrite !arr_none; [done|lia|lia].
Qed.

(** ** What a mounted file system promises

    [entry f d nm] is the node that the name [nm] has in the directory [d],
    [content f n] the bytes of the file [n] ([None] for a directory).  A write
    either fails and changes nothing or leaves the file [written]. *)

(** Resolving the pointers of the file system: a node, and a table of operations. *)
Class Vnodes (F : Type) := {
  vnode_at : F -> Z -> option nm_vnode;
  file_ops_at : Z -> nm_file_ops F;
}.

Class MountedFs (F : Type) `{!Vnodes F} := {
  mf_open : option Z -> Z -> M F Z;
  mf_read : option Z -> bool -> Z -> Z -> M F (Z * list Z);
  mf_write : option Z -> option (list Z) -> Z -> Z -> M F Z;
  mf_stat : option Z -> bool -> M F (Z * option nm_stat);
  mf_mount_root : M F (option Z);
  mf_lookup : option Z -> option (list Z) -> M F (option Z);
  mf_create : option Z -> option (list Z) -> nm_node_type -> Z -> M F (option Z);

  mf_raw : F -> Prop;
  mf_ok : F -> Prop;
  mf_root : Z;
  is_node : F -> Z -> Prop;
  entry : F -> Z -> list Z -> option Z;
  content : F -> Z -> option (list Z);
  mf_limit : Z;

  mf_limit_max : mf_limit <= 2 ^ 62;
  root_law f : mf_ok f -> is_node f mf_root;
  entry_law f d nm n : mf_ok f -> entry f d nm = Some n -> is_node f n;
  node_law f n : mf_ok f -> is_node f n -> exists v, vnode_at f n = Some v /\ ops v <> 0 /\
    file_ops_at (ops v) = mk_file_ops (Some mf_open) (Some mf_read) (Some mf_write) (Some mf_stat) /\
    0 <= size v < 2 ^ 63 /\ (forall c, content f n = Some c -> size v = zlen c);

  mount_law f (Q : option Z -> F -> Prop) :
    mf_raw f -> (forall f', mf_ok f' -> (forall nm, entry f' mf_root nm = None) -> Q (Some mf_root) f') ->
    wp mf_mount_root Q f;
  lookup_law f d nm (Q : option Z -> F -> Prop) :
    mf_ok f -> is_node f d -> Q (entry f d nm) f -> wp (mf_lookup (Some d) (Some nm)) Q f;
  create_law f d nm md (Q : option Z -> F -> Prop) :
    mf_ok f -> is_node f d -> name_ok nm -> entry f d nm = None -> Q None f ->
    (forall n f', mf_ok f' -> is_node f' n -> ~ is_node f n -> (forall m, is_node f m -> is_node f' m) ->
       (forall d' nm', entry f' d' nm' = if bool_decide (d' = d /\ nm' = nm) then Some n else entry f d' nm') ->
       (forall m, content f' m = if m =? n then Some [] else content f m) -> Q (Some n) f') ->
    wp (mf_create (Some d) (Some nm) NM_NODE_FILE md) Q f;
  stat_law f n v (Q : Z * option nm_stat -> F -> Prop) :
    mf_ok f -> is_node f n -> vnode_at f n = Some v ->
    (forall st, st_size st = size v -> Q (0, Some st) f) -> wp (mf_stat (Some n) true) Q f;
  open_law f n fl (Q : Z -> F -> Prop) : Q 0 f -> wp (mf_open (Some n) fl) Q f;
  read_law f n offset len (Q : Z * list Z -> F -> Prop) :
    mf_ok f -> is_node f n -> 0 <= offset -> 0 <= len ->
    match content f n with
    | Some c => Q (zlen (slice c offset len), slice c offset len) f
    | None => Q (NM_ERR NM_EFAIL, []) f
    end -> wp (mf_read (Some n) true offset len) Q f;
  write_law f n d offset len (Q : Z -> F -> Prop) :
    mf_ok f -> is_node f n -> 0 <= offset -> 0 <= len <= zlen d -> offset + len <= mf_limit ->
    Q (NM_ERR NM_EFAIL) f ->
    (forall f' c c', content f n = Some c -> written c offset (take (Z.to_nat len) d) c' -> mf_ok f' ->
       (forall m, is_node f m <-> is_node f' m) -> (forall d nm, entry f' d nm = entry f d nm) ->
       (forall m, content f' m = if m =? n then Some c' else content f m) -> Q len f') ->
    wp (mf_write (Some n) (Some d) offset len) Q f;
}.

(** The table of the mounted file system, as [nm_filesystem] names it. *)
Definition mf_ops {F} `{!Vnodes F, !MountedFs F} : nm_fs_ops F :=
  mk_fs_ops (Some mf_mount_root) mf_lookup (Some mf_create).
