(* ===== verification/Split.v ===== *)
(** * Cutting a text into pieces

    The loops of [fs_path_split] ([kernel/fs/vfs.c]), which cuts a path at its
    slashes, and of [split_tokens] ([userspace/shell.c]), which cuts a line at its
    blanks: they differ in the separators only.  Texts are the characters before
    the NUL; a piece goes to a buffer of [NM_NAME_MAX] bytes, and the state is the
    array of those buffers. *)

From S2P Require Import Prelude Fs.

Module Split.
Section split.
Context (sep : Z -> bool).

Fixpoint skip_seps (path : list Z) : list Z :=
  match path with
  | c :: rest => if sep c then skip_seps rest else path
  | [] => []
  end.

(** The loop that copies one component into a buffer of [NM_NAME_MAX] bytes from
    index [j], and the rest of the path. *)
Fixpoint copy_part (buf : list Z) (j : Z) (path : list Z) : list Z * Z * list Z :=
  match path with
  | c :: rest =>
      if negb (sep c) && (j + 1 <? NM_NAME_MAX)
      then copy_part (upd buf j c) (j + 1) rest else (buf, j, path)
  | [] => (buf, j, [])
  end.

Fixpoint skip_part (path : list Z) : list Z :=
  match path with
  | c :: rest => if negb (sep c) then skip_part rest else path
  | [] => []
  end.

(** Every turn but the last takes at least one character. *)
Fixpoint split_loop (fuel : nat) (path : list Z) (count max_parts : Z) : M (list (list Z)) Z :=
  match path with
  | [] => mret count
  | _ =>
      match skip_seps path with
      | [] => mret count
      | path =>
          if max_parts <=? count then mret (NM_ERR NM_EFAIL) else
          match fuel with
          | O => stuck OutOfFuel
          | S fuel =>
              buf ← rd id count;
              let '(buf, j, path) := copy_part buf 0 path in
              wr id (fun v _ => v) count (upd buf j 0) ;;
              split_loop fuel (skip_part path) (count + 1) max_parts
          end
      end
  end.

(** ** Specification: the pieces of a text

    The text cut at every separator, the empty pieces dropped and each of the others
    cut to the length of a name. *)

Fixpoint cut (path : list Z) : list (list Z) :=
  match path with
  | [] => [[]]
  | c :: rest =>
      if sep c then [] :: cut rest else
      match cut rest with
      | piece :: pieces => (c :: piece) :: pieces
      | [] => [[c]]
      end
  end.

Definition is_piece (p : list Z) : bool := match p with [] => false | _ => true end.

Definition components (path : list Z) : list (list Z) :=
  take (Z.to_nat (NM_NAME_MAX - 1)) <$> List.filter is_piece (cut path).

(** The first piece and what follows it. *)
Fixpoint piece (path : list Z) : list Z :=
  match path with
  | c :: rest => if sep c then [] else c :: piece rest
  | [] => []
  end.

Lemma cut_piece path : exists pieces, cut path = piece path :: pieces /\
  List.filter is_piece pieces = List.filter is_piece (cut (skip_part path)).
Proof.
  induction path as [|c rest IH]; simpl; [by exists []|].
  destruct (sep c) eqn:Hc; simpl; [exists (cut rest); by rewrite Hc|].
  destruct IH as (pieces & -> & Hp). by exists pieces.
Qed.

Lemma components_skip path : components (skip_seps path) = components path.
Proof.
  unfold components. f_equal. induction path as [|c rest IH]; [done|]. cbn [skip_seps].
  destruct (sep c) eqn:Hc; [|done]. rewrite IH. simpl. by rewrite Hc.
Qed.

Lemma skip_seps_head path : skip_seps path = [] \/
  exists c rest, skip_seps path = c :: rest /\ sep c = false /\ (length rest < length path)%nat.
Proof.
  induction path as [|c rest IH]; simpl; [by left|].
  destruct (sep c) eqn:Hc.
  - destruct IH as [->|(c' & r & -> & Hc' & Hl)]; [by left|right]. exists c', r. split_and!; [done|done|lia].
  - right. exists c, rest. split_and!; [done|done|lia].
Qed.

Lemma components_cons c rest : sep c = false ->
  components (c :: rest) = take (Z.to_nat (NM_NAME_MAX - 1)) (piece (c :: rest)) :: components (skip_part rest).
Proof.
  intros Hc. destruct (cut_piece (c :: rest)) as (pieces & E & Hp). unfold components. rewrite E.
  cbn [List.filter skip_part piece] in *. rewrite Hc in *. cbn [is_piece negb] in *.
  by rewrite Hp.
Qed.

(** Copying takes the piece up to the length of a name and stops in it. *)
Lemma copy_part_spec path buf j :
  zlen buf = NM_NAME_MAX -> 0 <= j < NM_NAME_MAX ->
  exists buf' rest, copy_part buf j path = (buf', j + zlen (take (Z.to_nat (NM_NAME_MAX - 1 - j)) (piece path)), rest) /\
    zlen buf' = NM_NAME_MAX /\ skip_part rest = skip_part path /\
    take (Z.to_nat (j + zlen (take (Z.to_nat (NM_NAME_MAX - 1 - j)) (piece path)))) buf' =
      take (Z.to_nat j) buf ++ take (Z.to_nat (NM_NAME_MAX - 1 - j)) (piece path).
Proof.
  revert buf j. induction path as [|c rest IH]; intros buf j Hb Hj; cbn [copy_part piece].
  { exists buf, []. rewrite take_nil, app_nil_r. change (zlen (@nil Z)) with 0. rewrite Z.add_0_r. done. }
  destruct (sep c) eqn:Hc; cbn [negb andb].
  { exists buf, (c :: rest). rewrite take_nil, app_nil_r. change (zlen (@nil Z)) with 0. rewrite Z.add_0_r. done. }
  destruct (Z.ltb_spec (j + 1) NM_NAME_MAX) as [Hlt|Hge].
  - destruct (IH (upd buf j c) (j + 1)) as (buf' & r & E & Hl & Hs & Ht); [by rewrite zlen_upd|lia|].
    exists buf', r. replace (Z.to_nat (NM_NAME_MAX - 1 - j)) with (S (Z.to_nat (NM_NAME_MAX - 1 - (j + 1)))) by lia.
    cbn [take]. set (p := take (Z.to_nat (NM_NAME_MAX - 1 - (j + 1))) (piece rest)) in *.
    replace (j + zlen (c :: p)) with (j + 1 + zlen p) by (unfold zlen; simpl; lia).
    split_and!; [done|done| |].
    + rewrite Hs. cbn [skip_part]. by rewrite Hc.
    + rewrite Ht. unfold upd. destruct (Z.leb_spec 0 j); [|lia].
      replace (Z.to_nat (j + 1)) with (S (Z.to_nat j)) by lia. unfold zlen in Hb.
      rewrite (take_S_r _ _ c), take_insert_ge by (apply list_lookup_insert_eq || idtac; lia).
      by rewrite <- app_assoc.
  - replace (Z.to_nat (NM_NAME_MAX - 1 - j)) with O by lia. exists buf, (c :: rest).
    change (zlen (take 0 _)) with 0. rewrite Z.add_0_r. cbn [take]. rewrite app_nil_r.
    split_and!; [done|done|done|done].
Qed.

Lemma piece_nonzero path : Forall (fun c => c <> 0) path -> Forall (fun c => c <> 0) (piece path).
Proof. induction 1 as [|c l Hc Hl IH]; simpl; [done|]. destruct (sep c); [done|by constructor]. Qed.

Lemma skip_part_nonzero path : Forall (fun c => c <> 0) path -> Forall (fun c => c <> 0) (skip_part path).
Proof. induction 1 as [|c l Hc Hl IH]; simpl; [done|]. destruct (sep c); simpl; [by constructor|done]. Qed.

Lemma skip_seps_nonzero path : Forall (fun c => c <> 0) path -> Forall (fun c => c <> 0) (skip_seps path).
Proof. induction 1 as [|c l Hc Hl IH]; simpl; [done|]. destruct (sep c); [done|by constructor]. Qed.

Lemma skip_part_length path : (length (skip_part path) <= length path)%nat.
Proof. induction path as [|c rest IH]; simpl; [lia|]. destruct (sep c); simpl; lia. Qed.

Lemma component_ok path i nm :
  Forall (fun c => c <> 0) path -> arr (components path) i = Some nm -> name_ok nm.
Proof.
  intros Hp Hi%arr_elem. unfold components in Hi. apply list_elem_of_fmap in Hi as (p & -> & Hin).
  apply list_elem_of_In, List.filter_In in Hin as [Hin _]. split.
  - apply Forall_take. revert Hin. induction Hp as [|c l Hc Hl IH]; simpl; [by intros [<-|[]]|].
    destruct (sep c); [intros [<-|?]; [done|by apply IH]|].
    destruct (cut l) as [|q qs] eqn:E; simpl in *; [intros [<-|[]]; by constructor|].
    intros [<-|?]; [|apply IH; by right]. constructor; [done|]. destruct (cut_piece l) as (? & E' & _).
    rewrite E in E'. injection E' as -> _. by apply piece_nonzero.
  - unfold zlen, NM_NAME_MAX. rewrite length_take. lia.
Qed.

(** The buffer after a component is copied holds it as a C string. *)
Lemma copied_cstr path buf buf' j rest :
  zlen buf = NM_NAME_MAX -> Forall (fun c => c <> 0) path -> copy_part buf 0 path = (buf', j, rest) ->
  zlen (upd buf' j 0) = NM_NAME_MAX /\ skip_part rest = skip_part path /\
  cstr_of (upd buf' j 0) = Some (take (Z.to_nat (NM_NAME_MAX - 1)) (piece path)).
Proof.
  intros Hb Hp E. destruct (copy_part_spec path buf 0) as (b & r & E' & Hl & Hs & Ht); [done|done|].
  rewrite E in E'. rewrite Z.sub_0_r, Z.add_0_l in *. set (nm := take _ (piece path)) in *.
  injection E' as -> -> ->. rewrite zlen_upd. split_and!; [done|done|].
  assert (Hnm : zlen nm < NM_NAME_MAX) by (unfold nm, zlen, NM_NAME_MAX; rewrite length_take; lia).
  assert (Hd : upd b (zlen nm) 0 = nm ++ 0 :: drop (S (length nm)) b).
  { unfold upd, zlen in *. destruct (Z.leb_spec 0 (Z.of_nat (length nm))); [|lia].
    rewrite Nat2Z.id in *. rewrite insert_take_drop by lia. simpl in Ht. by rewrite Ht. }
  rewrite Hd. apply cstr_of_app. apply Forall_take. by apply piece_nonzero.
Qed.

Definition parts_ok (parts : list (list Z)) : Prop := forall i b, arr parts i = Some b -> zlen b = NM_NAME_MAX.

(** Buffer [count + i] holds component [i]. *)
Definition holds (parts : list (list Z)) (count : Z) (cs : list (list Z)) : Prop :=
  forall i nm, arr cs i = Some nm -> exists b, arr parts (count + i) = Some b /\ cstr_of b = Some nm.

Lemma holds_nil parts count : holds parts count [].
Proof. intros i nm Hn. apply arr_range in Hn. unfold zlen in Hn. simpl in Hn. lia. Qed.

Lemma wp_split_loop fuel path count max parts (Q : Z -> list (list Z) -> Prop) :
  (length path <= fuel)%nat -> Forall (fun c => c <> 0) path -> 0 <= count <= max -> max <= zlen parts ->
  parts_ok parts ->
  (forall parts', zlen parts' = zlen parts -> count + zlen (components path) <= max ->
     (forall i, i < count -> arr parts' i = arr parts i) -> holds parts' count (components path) ->
     Q (count + zlen (components path)) parts') ->
  (forall parts', zlen parts' = zlen parts -> max < count + zlen (components path) -> Q (NM_ERR NM_EFAIL) parts') ->
  wp (split_loop fuel path count max) Q parts.
Proof.
  revert path count parts. induction fuel as [|fuel IH]; intros path count parts Hf Hp Hc Hm Hok HQ Hfail.
  { destruct path; simpl in Hf; [|lia]. apply wp_ret. rewrite <- (Z.add_0_r count).
    apply HQ; [done|change (zlen (components [])) with 0; lia|done|apply holds_nil]. }
  destruct path as [|c0 path0].
  { apply wp_ret. rewrite <- (Z.add_0_r count).
    apply HQ; [done|change (zlen (components [])) with 0; lia|done|apply holds_nil]. }
  cbn [split_loop]. rewrite <- components_skip in HQ, Hfail. apply skip_seps_nonzero in Hp.
  destruct (skip_seps_head (c0 :: path0)) as [E|(c & rest & E & Hcs & Hl)]; rewrite E in *.
  { apply wp_ret. rewrite <- (Z.add_0_r count).
    apply HQ; [done|change (zlen (components [])) with 0; lia|done|apply holds_nil]. }
  rewrite components_cons in HQ, Hfail by done. set (nm := take _ _) in *. set (cs := components (skip_part rest)) in *.
  assert (Hz : zlen (nm :: cs) = 1 + zlen cs) by (unfold zlen; simpl; lia). rewrite Hz in *.
  assert (0 <= zlen cs) by (unfold zlen; lia).
  destruct (Z.leb_spec max count); [apply wp_ret, Hfail; [done|lia]|].
  destruct (arr_lookup parts count) as [b Hb]; [lia|]. wp_step. eapply wp_rd; [done|].
  destruct (copy_part b 0 (c :: rest)) as [[b' j] r] eqn:Ec.
  destruct (copied_cstr _ _ _ _ _ (Hok _ _ Hb) Hp Ec) as (Hlb & Hskip & Hcstr). fold nm in Hcstr.
  wp_step. apply wp_wr; [unfold id; lia|]. unfold id.
  assert (Hskip' : skip_part r = skip_part rest).
  { rewrite Hskip. cbn [skip_part]. by rewrite Hcs. }
  rewrite Hskip'. apply IH.
  - pose proof (skip_part_length rest). simpl in Hf, Hl. lia.
  - apply skip_part_nonzero. by inversion Hp.
  - lia.
  - by rewrite zlen_upd.
  - intros i x. rewrite arr_upd by lia. destruct (count =? i); [by intros [= <-]|apply Hok].
  - intros parts' Hlen Hle Hlow Hhold. fold cs in Hle, Hhold |- *.
    rewrite zlen_upd in Hlen. rewrite (Z.add_assoc count 1) in HQ. apply HQ; [done|lia| |].
    + intros i Hi. rewrite Hlow by lia. rewrite arr_upd_ne by lia. done.
    + intros i x Hx. pose proof (arr_range _ _ _ Hx). destruct (decide (i = 0)) as [->|].
      * injection Hx as <-. rewrite Z.add_0_r, Hlow, arr_upd_eq by lia. by eexists.
      * replace i with (i - 1 + 1) in Hx by lia. rewrite arr_cons_S in Hx by lia.
        destruct (Hhold _ _ Hx) as (y & Hy & Hs). exists y. by replace (count + i) with (count + 1 + (i - 1)) by lia.
  - intros parts' Hlen Hgt. fold cs in Hgt. rewrite zlen_upd in Hlen. apply Hfail; [done|lia].
Qed.

End split.
End Split.
