(* ===== verification/Tmpfs.v ===== *)
(** * The in-memory file system ([kernel/fs/tmpfs.c])

    A table of nodes linked into a tree by their child and sibling pointers; the
    bytes of a file lie in a buffer of the kernel heap that doubles as the file
    grows. The heap is any implementation of [KHeap]. *)

From S2P Require Import Prelude Interfaces Fs Kheap.

Module Tmpfs.

Definition TMPFS_MAX_NODES : Z := 512.

(** The static data of [tmpfs.c], with the kernel heap and the bytes of memory.
    Memory has a byte at every address, so a fresh buffer holds whatever was
    there before. *)
Record tmpfs (H : Type) := mk_tmpfs {
  nodes : list nm_vnode;
  next_ino : Z;
  tmpfs_root : option Z;
  heap : H;
  ram : Z -> Z;
}.
Arguments mk_tmpfs {H} _ _ _ _ _.
Arguments nodes {H} _.
Arguments next_ino {H} _.
Arguments tmpfs_root {H} _.
Arguments heap {H} _.
Arguments ram {H} _.

Section ops.
Context {H : Type} `{!KHeap H}.
Implicit Types (s : tmpfs H).

Definition set_nodes v s := mk_tmpfs v (next_ino s) (tmpfs_root s) (heap s) (ram s).
Definition set_next_ino v s := mk_tmpfs (nodes s) v (tmpfs_root s) (heap s) (ram s).
Definition set_root v s := mk_tmpfs (nodes s) (next_ino s) v (heap s) (ram s).
Definition set_heap (v : H) s := mk_tmpfs (nodes s) (next_ino s) (tmpfs_root s) v (ram s).
Definition set_ram v s := mk_tmpfs (nodes s) (next_ino s) (tmpfs_root s) (heap s) v.

Definition mod_node (i : Z) (f : nm_vnode -> nm_vnode) : M (tmpfs H) unit :=
  modify_at nodes set_nodes i f.

(** Byte [k] of the [cap] bytes of the buffer at [buf]. *)
Definition load (buf cap k : Z) : M (tmpfs H) Z := fun s =>
  if buf =? 0 then Stuck NullDeref else
  if (0 <=? k) && (k <? cap) then Done (ram s (buf + k)) s else Stuck OutOfBounds.
Definition store (buf cap k x : Z) : M (tmpfs H) unit := fun s =>
  if buf =? 0 then Stuck NullDeref else
  if (0 <=? k) && (k <? cap)
  then Done tt (set_ram (fun a => if a =? buf + k then x else ram s a) s)
  else Stuck OutOfBounds.

Definition copy_name (dst : list Z) (src : option (list Z)) : list Z :=
  Prelude.copy_name dst (mk_cstr 0 <$> src) NM_NAME_MAX.

(** On the characters before the terminating NUL. *)
Fixpoint name_eq (a b : list Z) : bool :=
  match a, b with
  | x :: a, y :: b => if negb (x =? y) then false else name_eq a b
  | [], [] => true
  | _, _ => false
  end.

Definition fresh_node (n : nm_vnode) : nm_vnode :=
  mk_vnode true (ino n) (type n) (name n) 0 0 (mode n) None None None 0 0 0 (ops n) 0.

Definition alloc_node : M (tmpfs H) (option Z) :=
  for_each (upto 0 TMPFS_MAX_NODES) (fun i =>
    n ← rd nodes i;
    if negb (used n) then mod_node i fresh_node ;; mret (Some i) else mret None).

Definition tmpfs_open (node : option Z) (flags : Z) : M (tmpfs H) Z :=
  mret (match node with Some _ => 0 | None => -1 end).

Definition tmpfs_read (node : option Z) (buf : bool) (offset len : Z) : M (tmpfs H) (Z * list Z) :=
  match node with
  | None => mret (NM_ERR NM_EFAIL, [])
  | Some i =>
      n ← rd nodes i;
      if negb buf || negb (bool_decide (type n = NM_NODE_FILE)) then mret (NM_ERR NM_EFAIL, []) else
      if size n <=? offset then mret (0, []) else
      let remain := u64 (size n - offset) in
      let count := if len <? remain then len else remain in
      dst ← for_acc (upto 0 count) [] (fun dst k =>
        b ← load (data n) (capacity n) (u64 (offset + k)); mret (dst ++ [b]));
      mret (i64 count, dst)
  end.

(** [while (cap < need) cap *= 2]. *)
Fixpoint grow (fuel : nat) (cap need : Z) : M (tmpfs H) Z :=
  if cap <? need then
    match fuel with
    | O => stuck OutOfFuel
    | S fuel => grow fuel (u64 (cap * 2)) need
    end
  else mret cap.

(** A capacity of at least 64 that doubles passes [2^63] in fewer turns. *)
Definition GROW_FUEL : nat := 64.

Definition tmpfs_reserve (i need : Z) : M (tmpfs H) Z :=
  n ← rd nodes i;
  if need <=? capacity n then mret 0 else
  cap ← grow GROW_FUEL (if capacity n =? 0 then 64 else capacity n) need;
  new_buf ← lift_to heap set_heap (malloc cap);
  if new_buf =? 0 then mret (NM_ERR NM_ENOMEM) else
  for_all (upto 0 (size n)) (fun k =>
    b ← (if negb (data n =? 0) then load (data n) (capacity n) k else mret 0);
    store new_buf cap k b) ;;
  mod_node i (fun n => mk_vnode (used n) (ino n) (type n) (name n) (uid n) (gid n) (mode n)
    (parent n) (children n) (next_sibling n) new_buf (size n) cap (ops n) (fs_private n)) ;;
  mret 0.

Definition set_size (v : Z) (n : nm_vnode) : nm_vnode :=
  mk_vnode (used n) (ino n) (type n) (name n) (uid n) (gid n) (mode n)
    (parent n) (children n) (next_sibling n) (data n) v (capacity n) (ops n) (fs_private n).

Definition tmpfs_write (node : option Z) (buf : option (list Z)) (offset len : Z) : M (tmpfs H) Z :=
  match node, buf with
  | Some i, Some src =>
      n ← rd nodes i;
      if negb (bool_decide (type n = NM_NODE_FILE)) then mret (NM_ERR NM_EFAIL) else
      r ← tmpfs_reserve i (u64 (offset + len));
      if negb (r =? 0) then mret (NM_ERR NM_EFAIL) else
      for_all (upto 0 len) (fun k =>
        n ← rd nodes i;
        x ← rd (fun _ => src) k;
        store (data n) (capacity n) (u64 (offset + k)) x) ;;
      n ← rd nodes i;
      (if size n <? u64 (offset + len) then mod_node i (set_size (u64 (offset + len))) else mret tt) ;;
      mret (i64 len)
  | _, _ => mret (NM_ERR NM_EFAIL)
  end.

Definition tmpfs_stat (node : option Z) (st : bool) : M (tmpfs H) (Z * option nm_stat) :=
  match node with
  | Some i =>
      if negb st then mret (NM_ERR NM_EFAIL, None) else
      n ← rd nodes i;
      mret (0, Some (mk_stat (ino n) (size n) (mode n) (uid n) (gid n) 1 (u64 (size n + 511) / 512)))
  | None => mret (NM_ERR NM_EFAIL, None)
  end.

(** The address of the static table [tmpfs_file_ops]. *)
Definition TMPFS_FILE_OPS : Z := 1.

Definition tmpfs_file_ops : nm_file_ops (tmpfs H) :=
  mk_file_ops (Some tmpfs_open) (Some tmpfs_read) (Some tmpfs_write) (Some tmpfs_stat).

(** The root is named "/", character 47, and has mode 0755. *)
Definition tmpfs_mount_root : M (tmpfs H) (option Z) :=
  for_all (upto 0 TMPFS_MAX_NODES) (fun i =>
    mod_node i (fun n => mk_vnode false (ino n) (type n) (name n) (uid n) (gid n) (mode n) (parent n)
      (children n) (next_sibling n) (data n) (size n) (capacity n) (ops n) (fs_private n))) ;;
  modify (set_next_ino 2) ;;
  r ← alloc_node;
  modify (set_root r) ;;
  match r with
  | None => mret None
  | Some i =>
      mod_node i (fun n => mk_vnode (used n) 1 NM_NODE_DIR (copy_name (name n) (Some [47]))
        (uid n) (gid n) 493 (parent n) (children n) (next_sibling n) (data n) (size n)
        (capacity n) TMPFS_FILE_OPS (fs_private n)) ;;
      mret (Some i)
  end.

(** The walk along the siblings; there are fewer siblings than nodes. *)
Fixpoint find_child (fuel : nat) (cur : option Z) (nm : list Z) : M (tmpfs H) (option Z) :=
  match cur, fuel with
  | None, _ => mret None
  | Some _, O => stuck OutOfFuel
  | Some i, S fuel =>
      n ← rd nodes i;
      nm' ← rd_str (name n);
      if name_eq nm' nm then mret (Some i) else find_child fuel (next_sibling n) nm
  end.

Definition tmpfs_lookup (dir : option Z) (nm : option (list Z)) : M (tmpfs H) (option Z) :=
  match dir, nm with
  | Some d, Some nm =>
      n ← rd nodes d;
      if negb (bool_decide (type n = NM_NODE_DIR)) then mret None else
      find_child (Z.to_nat TMPFS_MAX_NODES) (children n) nm
  | _, _ => mret None
  end.

Definition tmpfs_create (dir : option Z) (nm : option (list Z)) (ty : nm_node_type) (md : Z) :
    M (tmpfs H) (option Z) :=
  match dir, nm with
  | Some d, Some nm =>
      dn ← rd nodes d;
      if negb (bool_decide (type dn = NM_NODE_DIR)) then mret None else
      old ← tmpfs_lookup dir (Some nm);
      if bool_decide (is_Some old) then mret None else
      node ← alloc_node;
      match node with
      | None => mret None
      | Some i =>
          v ← gets next_ino;
          modify (set_next_ino (u64 (v + 1))) ;;
          mod_node i (fun n => mk_vnode (used n) v ty (copy_name (name n) (Some nm)) (uid n) (gid n) md
            (Some d) (children n) (next_sibling n) (data n) (size n) (capacity n) TMPFS_FILE_OPS
            (fs_private n)) ;;
          dn ← rd nodes d;
          mod_node i (fun n => mk_vnode (used n) (ino n) (type n) (name n) (uid n) (gid n) (mode n)
            (parent n) (children n) (children dn) (data n) (size n) (capacity n) (ops n) (fs_private n)) ;;
          mod_node d (fun n => mk_vnode (used n) (ino n) (type n) (name n) (uid n) (gid n) (mode n)
            (parent n) (Some i) (next_sibling n) (data n) (size n) (capacity n) (ops n) (fs_private n)) ;;
          mret (Some i)
      end
  | _, _ => mret None
  end.

Definition tmpfs_ops : nm_fs_ops (tmpfs H) :=
  mk_fs_ops (Some tmpfs_mount_root) tmpfs_lookup (Some tmpfs_create).

(** ** Specification *)

(** The bytes of a buffer. *)
Definition bytes (m : Z -> Z) (p n : Z) : list Z := (fun k => m (p + k)) <$> upto 0 n.

(** The bytes of a file, and the node a directory has under a name. *)
Definition content s (i : Z) : option (list Z) :=
  n ← arr (nodes s) i;
  if used n && bool_decide (type n = NM_NODE_FILE) then Some (bytes (ram s) (data n) (size n)) else None.

Definition named (d : Z) (nm : list Z) (n : nm_vnode) : bool :=
  used n && bool_decide (parent n = Some d) && bool_decide (cstr_of (name n) = Some nm).

Definition entry s (d : Z) (nm : list Z) : option Z := find_idx (named d nm) (nodes s).

(** *** The tree *)

(** The nodes from [p] along the siblings. *)
Fixpoint chain (ns : list nm_vnode) (p : option Z) (l : list Z) : Prop :=
  match l with
  | [] => p = None
  | i :: l => p = Some i /\ exists n, arr ns i = Some n /\ chain ns (next_sibling n) l
  end.

Definition child_of (ns : list nm_vnode) (d j : Z) : Prop :=
  exists m, arr ns j = Some m /\ used m = true /\ parent m = Some d.

Record live_ok (ns : list nm_vnode) (k i : Z) (n : nm_vnode) : Prop := mk_live {
  lo_ino : ino n = i + 1;
  lo_ops : ops n = TMPFS_FILE_OPS;
  lo_name : is_Some (cstr_of (name n));
  lo_parent d : parent n = Some d -> 0 <= d < k /\ exists m, arr ns d = Some m /\ type m = NM_NODE_DIR;
  lo_children : exists l, chain ns (children n) l /\ NoDup l /\ forall j, j ∈ l <-> child_of ns i j;
}.

(** The first [k] nodes are in use, with the inode numbers 1 to [k]; each is in
    the sibling list of its parent, a directory, under a name of its own. *)
Record tree_inv (ns : list nm_vnode) (k : Z) : Prop := mk_tree {
  ti_len : zlen ns = TMPFS_MAX_NODES;
  ti_count : 1 <= k <= TMPFS_MAX_NODES;
  ti_node i n : arr ns i = Some n -> zlen (name n) = NM_NAME_MAX /\ used n = (i <? k);
  ti_live i n : arr ns i = Some n -> i < k -> live_ok ns k i n;
  ti_names i j n m : arr ns i = Some n -> arr ns j = Some m -> i < k -> j < k ->
    is_Some (parent n) -> parent n = parent m -> cstr_of (name n) = cstr_of (name m) -> i = j;
}.

(** What of a node the tree depends on. *)
Definition shape (n : nm_vnode) :=
  (used n, ino n, type n, name n, parent n, children n, next_sibling n, ops n).
Definition same_tree (ns ns' : list nm_vnode) : Prop := shape <$> ns = shape <$> ns'.

#[export] Instance same_tree_equiv : Equivalence same_tree.
Proof. split; unfold same_tree; congruence. Qed.

Lemma same_tree_arr ns ns' i n :
  same_tree ns ns' -> arr ns i = Some n -> exists n', arr ns' i = Some n' /\ shape n' = shape n.
Proof.
  intros Hs Hn. assert (E : shape <$> arr ns' i = shape <$> arr ns i) by (by rewrite <- !arr_fmap, Hs).
  rewrite Hn in E. destruct (arr ns' i) as [n'|]; [|done]. exists n'. split; [done|]. by apply (inj Some).
Qed.

Lemma same_tree_upd ns i n n' : arr ns i = Some n -> shape n' = shape n -> same_tree (upd ns i n') ns.
Proof.
  intros Hn Hs. unfold same_tree, upd, arr in *. destruct (0 <=? i); [|done].
  rewrite list_fmap_insert, Hs. apply list_insert_id. by rewrite list_lookup_fmap, Hn.
Qed.

Lemma same_tree_len ns ns' : same_tree ns ns' -> zlen ns = zlen ns'.
Proof. intros Hs. apply (f_equal length) in Hs. rewrite !length_fmap in Hs. unfold zlen. lia. Qed.

Ltac shape_eq H := unfold shape in H; injection H as ????????.

Lemma chain_same ns ns' p l : same_tree ns ns' -> chain ns p l -> chain ns' p l.
Proof.
  intros Hs. revert p. induction l as [|i l IH]; intros p; simpl; [done|].
  intros (-> & n & Hn & Hc). split; [done|].
  destruct (same_tree_arr _ _ _ _ Hs Hn) as (n' & Hn' & E). exists n'. split; [done|].
  shape_eq E. apply IH. by replace (next_sibling n') with (next_sibling n).
Qed.

Lemma child_same ns ns' d j : same_tree ns ns' -> child_of ns d j -> child_of ns' d j.
Proof.
  intros Hs (m & Hm & Hu & Hp). destruct (same_tree_arr _ _ _ _ Hs Hm) as (m' & Hm' & E).
  shape_eq E. exists m'. split_and!; [done|congruence|congruence].
Qed.

Lemma live_same ns ns' k i n n' :
  same_tree ns ns' -> shape n' = shape n -> live_ok ns k i n -> live_ok ns' k i n'.
Proof.
  intros Hs E [H1 H2 H3 H4 H5]. shape_eq E. constructor; try congruence.
  - intros d Hd. destruct (H4 d) as (? & m & Hm & Ht); [congruence|]. split; [done|].
    destruct (same_tree_arr _ _ _ _ Hs Hm) as (m' & Hm' & E). shape_eq E. exists m'. split; congruence.
  - destruct H5 as (l & Hc & Hnd & Hj). exists l. split_and!; [|done|].
    + replace (children n') with (children n). by eapply chain_same.
    + intros j. rewrite Hj. split; apply child_same; [done|by symmetry].
Qed.

Lemma tree_same ns ns' k : same_tree ns ns' -> tree_inv ns k -> tree_inv ns' k.
Proof.
  intros Hs [H1 H2 H3 H4 H5]. pose proof Hs as Hs'. symmetry in Hs'. constructor; [|done|..].
  - by rewrite <- (same_tree_len _ _ Hs).
  - intros i n' Hn'. destruct (same_tree_arr _ _ _ _ Hs' Hn') as (n & Hn & E). shape_eq E.
    destruct (H3 _ _ Hn). split; congruence.
  - intros i n' Hn' Hi. destruct (same_tree_arr _ _ _ _ Hs' Hn') as (n & Hn & E).
    eapply live_same; [done|by symmetry|by apply H4].
  - intros i j n' m' Hn' Hm' Hi Hj Hp Hpp Hnm.
    destruct (same_tree_arr _ _ _ _ Hs' Hn') as (n & Hn & E). shape_eq E.
    destruct (same_tree_arr _ _ _ _ Hs' Hm') as (m & Hm & E). shape_eq E.
    eapply (H5 i j n m); congruence.
Qed.

#[export] Instance tree_inv_proper : Proper (same_tree ==> eq ==> iff) tree_inv.
Proof. intros ns ns' Hs k ? <-. split; apply tree_same; [done|by symmetry]. Qed.

(** *** Lookup *)

Lemma name_eq_spec a b : name_eq a b = bool_decide (a = b).
Proof.
  revert b. induction a as [|x a IH]; intros [|y b]; simpl; try done.
  destruct (Z.eqb_spec x y) as [->|]; simpl; [|by rewrite bool_decide_false by congruence].
  rewrite IH. apply bool_decide_ext. split; congruence.
Qed.

Lemma tree_used ns k i n : tree_inv ns k -> arr ns i = Some n -> used n = true <-> 0 <= i < k.
Proof.
  intros Ht Hn. destruct (ti_node _ _ Ht _ _ Hn) as [_ ->]. pose proof (arr_range _ _ _ Hn).
  rewrite Z.ltb_lt. lia.
Qed.

Lemma tree_live ns k i n : tree_inv ns k -> arr ns i = Some n -> used n = true -> live_ok ns k i n.
Proof. intros Ht Hn Hu. eapply ti_live; [done|done|]. by apply (tree_used _ _ _ _ Ht Hn). Qed.

Lemma child_range ns k d j : tree_inv ns k -> child_of ns d j -> 0 <= j < k.
Proof. intros Ht (m & Hm & Hu & _). by apply (tree_used _ _ _ _ Ht Hm). Qed.

(** A sibling list is no longer than the table. *)
Lemma chain_length (l : list Z) k : NoDup l -> (forall j, j ∈ l -> 0 <= j < k) -> zlen l <= Z.max 0 k.
Proof.
  intros Hnd Hr. assert (Hs : l ⊆+ upto 0 k).
  { apply NoDup_submseteq; [done|]. intros j Hj. apply elem_of_upto. by apply Hr. }
  apply submseteq_length in Hs. unfold zlen, upto in *. rewrite length_seqZ in Hs. lia.
Qed.

Lemma named_iff d nm n :
  named d nm n = true <-> used n = true /\ parent n = Some d /\ cstr_of (name n) = Some nm.
Proof. unfold named. rewrite !andb_true_iff, !bool_decide_eq_true. tauto. Qed.

(** In a tree at most one node of a directory has a name. *)
Lemma entry_iff s k d nm i :
  tree_inv (nodes s) k ->
  entry s d nm = Some i <-> exists n, arr (nodes s) i = Some n /\ named d nm n = true.
Proof.
  intros Ht. split; [intros (n & Hn & Hp & _)%find_idx_Some; by exists n|].
  intros (n & Hn & Hp). eapply find_idx_first; [done|done|]. intros j m Hj Hm.
  destruct (named d nm m) eqn:E; [|done]. apply named_iff in E as (Hu & Hpm & Hnm).
  apply named_iff in Hp as (Hu' & Hpn & Hnn).
  apply (tree_used _ _ _ _ Ht Hm) in Hu. apply (tree_used _ _ _ _ Ht Hn) in Hu'.
  assert (j = i); [|lia]. eapply (ti_names _ _ Ht); [done|done|lia|lia| |congruence|congruence].
  rewrite Hpm. done.
Qed.

Lemma wp_find_child s k d nm fuel p l (Q : option Z -> tmpfs H -> Prop) :
  tree_inv (nodes s) k -> chain (nodes s) p l -> (forall j, j ∈ l -> child_of (nodes s) d j) ->
  zlen l <= Z.of_nat fuel ->
  (forall i n, i ∈ l -> arr (nodes s) i = Some n -> cstr_of (name n) = Some nm -> Q (Some i) s) ->
  ((forall i n, i ∈ l -> arr (nodes s) i = Some n -> cstr_of (name n) <> Some nm) -> Q None s) ->
  wp (find_child fuel p nm) Q s.
Proof.
  intros Ht. revert p l. induction fuel as [|fuel IH]; intros p [|i l] Hc Hch Hf Hsome Hnone; simpl in Hc;
    try (subst p; apply wp_ret, Hnone; by intros ? ? ?%elem_of_nil).
  { unfold zlen in Hf. simpl in Hf. lia. }
  destruct Hc as (-> & n & Hn & Hc). simpl. wp_step. eapply wp_rd; [done|].
  destruct (Hch i) as (m & Hm & Hu & Hp); [by left|]. simplify_eq.
  destruct (lo_name _ _ _ _ (tree_live _ _ _ _ Ht Hn Hu)) as [nm' Hnm']. unfold rd_str. rewrite Hnm'.
  do 2 wp_step. rewrite name_eq_spec. case_bool_decide as E.
  - subst. apply wp_ret. eapply Hsome; [by left|done|done].
  - apply (IH _ l); [done|intros; apply Hch; by right|unfold zlen in *; simpl in *; lia| |].
    + intros j m Hj. apply Hsome. by right.
    + intros Hno. apply Hnone. intros j m [->|Hj]%elem_of_cons Hm'; [|by apply (Hno j)]. simplify_eq. congruence.
Qed.

(** [tmpfs_lookup] answers the node that the directory has under the name. *)
Lemma wp_lookup s k d dn nm (Q : option Z -> tmpfs H -> Prop) :
  tree_inv (nodes s) k -> arr (nodes s) d = Some dn -> used dn = true ->
  Q (entry s d nm) s -> wp (tmpfs_lookup (Some d) (Some nm)) Q s.
Proof.
  intros Ht Hd Hu HQ. unfold tmpfs_lookup. wp_step. eapply wp_rd; [done|].
  assert (Hnone : (forall j m, child_of (nodes s) d j -> arr (nodes s) j = Some m ->
    cstr_of (name m) <> Some nm) -> entry s d nm = None).
  { intros Hno. destruct (entry s d nm) as [j|] eqn:E; [|done]. exfalso.
    rewrite (entry_iff _ k) in E by done. destruct E as (m & Hm & (? & ? & ?)%named_iff).
    eapply (Hno j m); [by exists m|done|done]. }
  case_bool_decide as Hdir; cbn [negb].
  - destruct (lo_children _ _ _ _ (tree_live _ _ _ _ Ht Hd Hu)) as (l & Hc & Hnd & Hl).
    apply (wp_find_child s k d nm _ _ l); [done|done|intros; by apply Hl| | |].
    + pose proof (chain_length l k Hnd) as Hlen. specialize (ti_count _ _ Ht) as Hk.
      assert (zlen l <= Z.max 0 k) by (apply Hlen; intros; eapply child_range; [done|by apply Hl]).
      unfold TMPFS_MAX_NODES in *. lia.
    + intros i n Hi Hn Hnm. apply Hl in Hi as (m & Hm & Hum & Hpm). simplify_eq.
      assert (E : entry s d nm = Some i); [|by rewrite <- E].
      apply (entry_iff _ k); [done|]. exists m. split; [done|]. by apply named_iff.
    + intros Hno. assert (E : entry s d nm = None); [|by rewrite <- E].
      apply Hnone. intros j m Hj. apply Hno. by apply Hl.
  - apply wp_ret. rewrite Hnone in HQ; [done|]. intros j m (m' & Hm' & Hum & Hpm) Hm. simplify_eq.
    destruct (lo_parent _ _ _ _ (tree_live _ _ _ _ Ht Hm' Hum) _ Hpm) as (_ & dn' & Hd' & Hty). congruence.
Qed.

(** *** Allocation and creation *)

Lemma wp_alloc_node s k (Q : option Z -> tmpfs H -> Prop) :
  zlen (nodes s) = TMPFS_MAX_NODES -> 0 <= k <= TMPFS_MAX_NODES ->
  (forall i n, arr (nodes s) i = Some n -> used n = (i <? k)) ->
  (k = TMPFS_MAX_NODES -> Q None s) ->
  (forall n, arr (nodes s) k = Some n -> Q (Some k) (set_nodes (upd (nodes s) k (fresh_node n)) s)) ->
  wp alloc_node Q s.
Proof.
  intros Hl Hk Hu Hfull Hsome. unfold alloc_node.
  apply (wp_for_each (fun i t => t = s /\ i <= k)); [unfold TMPFS_MAX_NODES; lia|split; [done|lia]| |].
  - intros i t Hi [-> Hik]. destruct (arr_lookup (nodes s) i) as [n Hn]; [lia|].
    wp_step. eapply wp_rd; [done|]. rewrite (Hu _ _ Hn).
    destruct (Z.ltb_spec i k); cbn [negb]; [wp_go; split; [done|lia]|].
    assert (i = k) as -> by lia. wp_step. eapply wp_modify_at; [done|]. wp_go. by apply Hsome.
  - intros t [-> Hik]. apply Hfull. lia.
Qed.

Definition with_children (c : option Z) (n : nm_vnode) : nm_vnode :=
  mk_vnode (used n) (ino n) (type n) (name n) (uid n) (gid n) (mode n)
    (parent n) c (next_sibling n) (data n) (size n) (capacity n) (ops n) (fs_private n).

(** The node [tmpfs_create] makes at index [k]. *)
Definition new_node (k d : Z) (n dn : nm_vnode) (nm : list Z) (ty : nm_node_type) (md : Z) : nm_vnode :=
  mk_vnode true (k + 1) ty (copy_name (name n) (Some nm)) 0 0 md (Some d) None (children dn) 0 0 0
    TMPFS_FILE_OPS 0.

Section insert.
Context (ns : list nm_vnode) (k d : Z) (n dn : nm_vnode) (nm : list Z) (ty : nm_node_type) (md : Z).
Context (Ht : tree_inv ns k) (Hk : k < TMPFS_MAX_NODES) (Hd : arr ns d = Some dn) (Hu : used dn = true).
Context (Hdir : type dn = NM_NODE_DIR) (Hn : arr ns k = Some n) (Hnm : name_ok nm).
Context (Hfresh : forall j m, arr ns j = Some m -> named d nm m = false).
Let new := new_node k d n dn nm ty md.
Let ns' := upd (upd ns k new) d (with_children (Some k) dn).

Lemma insert_dk : 0 <= d < k.
Proof. by apply (tree_used _ _ _ _ Ht Hd). Qed.

Lemma insert_arr j :
  arr ns' j = if d =? j then Some (with_children (Some k) dn) else if k =? j then Some new else arr ns j.
Proof.
  pose proof (arr_range _ _ _ Hn). pose proof (arr_range _ _ _ Hd). unfold ns'.
  rewrite arr_upd by (by rewrite zlen_upd). by rewrite arr_upd.
Qed.

Lemma insert_case j m : arr ns' j = Some m ->
  (j = d /\ m = with_children (Some k) dn) \/ (j = k /\ m = new) \/ (j <> d /\ j <> k /\ arr ns j = Some m).
Proof.
  rewrite insert_arr. destruct (Z.eqb_spec d j) as [E|]; [intros [= <-]; by left|].
  destruct (Z.eqb_spec k j) as [E|]; [intros [= <-]; by right; left|]. intros Hm. right; right.
  split_and!; [by apply not_eq_sym|by apply not_eq_sym|exact Hm].
Qed.

Lemma insert_new_name : cstr_of (name new) = Some nm.
Proof.
  unfold new, new_node, copy_name. cbn [name fmap option_fmap option_map].
  destruct (ti_node _ _ Ht _ _ Hn). by apply (cstr_copy_name _ (mk_cstr 0 nm)).
Qed.

Lemma insert_child i j : child_of ns' i j <-> child_of ns i j \/ (i = d /\ j = k).
Proof.
  pose proof insert_dk as Hdk. unfold child_of. split.
  - intros (m & Hm & Hum & Hp). destruct (insert_case _ _ Hm) as [[-> ->]|[[-> ->]|(? & ? & ?)]].
    + left. by exists dn.
    + right. simpl in Hp. split; [congruence|done].
    + left. by exists m.
  - intros [(m & Hm & Hum & Hp)|[-> ->]]; rewrite insert_arr.
    + destruct (Z.eqb_spec d j) as [<-|]; [exists (with_children (Some k) dn); simplify_eq; done|].
      destruct (Z.eqb_spec k j) as [<-|]; [|by exists m].
      apply (tree_used _ _ _ _ Ht Hm) in Hum. lia.
    + destruct (Z.eqb_spec d k); [lia|]. rewrite Z.eqb_refl. by exists new.
Qed.

Lemma insert_chain p l : (forall j, j ∈ l -> j < k) -> chain ns p l -> chain ns' p l.
Proof.
  revert p. induction l as [|j l IH]; intros p Hl; simpl; [done|]. intros (-> & m & Hm & Hc).
  split; [done|]. assert (Hj : j < k) by (apply Hl; by left).
  specialize (IH _ (fun j Hj => Hl j (list_elem_of_further _ _ _ Hj)) Hc).
  rewrite insert_arr. destruct (Z.eqb_spec d j) as [<-|]; [simplify_eq; by eexists|].
  destruct (Z.eqb_spec k j); [lia|]. by exists m.
Qed.

Lemma insert_no_child j : ~ child_of ns k j.
Proof.
  intros (m & Hm & Hum & Hp).
  destruct (lo_parent _ _ _ _ (tree_live _ _ _ _ Ht Hm Hum) _ Hp). lia.
Qed.

Lemma insert_dir i m : arr ns i = Some m -> type m = NM_NODE_DIR -> i < k ->
  exists m', arr ns' i = Some m' /\ type m' = NM_NODE_DIR.
Proof.
  intros Hm Hty Hi. rewrite insert_arr. destruct (Z.eqb_spec d i) as [<-|]; [by eexists|].
  destruct (Z.eqb_spec k i); [lia|]. by exists m.
Qed.

Lemma insert_live i m : arr ns' i = Some m -> i < k + 1 -> live_ok ns' (k + 1) i m.
Proof.
  pose proof insert_dk as Hdk. intros Hm Hi.
  assert (Hold : forall m0, arr ns i = Some m0 -> i < k -> live_ok ns k i m0) by (by apply Ht).
  assert (Hpar : forall q, (0 <= q < k /\ exists m, arr ns q = Some m /\ type m = NM_NODE_DIR) ->
    0 <= q < k + 1 /\ exists m, arr ns' q = Some m /\ type m = NM_NODE_DIR).
  { intros q (Hq & x & Hx & Hty). split; [lia|]. eapply insert_dir; [done|done|lia]. }
  destruct (insert_case _ _ Hm) as [[-> ->]|[[-> ->]|(Hid & Hik & Hm0)]].
  - destruct (Hold dn) as [H1 H2 H3 H4 (l & Hc & Hnd & Hl)]; [done|lia|].
    constructor; [done|done|done|intros q Hq; by apply Hpar, H4|]. exists (k :: l).
    assert (Hlk : forall j, j ∈ l -> 0 <= j < k) by (intros j Hj; eapply child_range; [done|by apply Hl]).
    split_and!.
    + simpl. split; [done|]. exists new. rewrite insert_arr, Z.eqb_refl.
      destruct (Z.eqb_spec d k); [lia|]. split; [done|]. apply insert_chain; [|done].
      intros j Hj. apply (Hlk j Hj).
    + constructor; [|done]. intros Hin. specialize (Hlk k Hin). lia.
    + intros j. rewrite elem_of_cons, insert_child, Hl. tauto.
  - constructor; [done|done|by rewrite insert_new_name| |].
    + intros q [= <-]. apply Hpar. split; [lia|]. by exists dn.
    + exists []. split_and!; [done|constructor|]. intros j. rewrite insert_child, elem_of_nil.
      split; [done|]. intros [Hc|[]]; [by eapply insert_no_child|lia].
  - destruct (Hold m) as [H1 H2 H3 H4 (l & Hc & Hnd & Hl)]; [done|lia|].
    constructor; [done|done|done|intros q Hq; by apply Hpar, H4|]. exists l. split_and!; [|done|].
    + apply insert_chain; [|done]. intros j Hj. apply Hl, (child_range _ _ _ _ Ht) in Hj. lia.
    + intros j. rewrite insert_child, Hl. split; [auto|]. by intros [|[]].
Qed.

(** A name in use cannot be [nm] in the directory [d]. *)
Lemma insert_distinct j m : arr ns j = Some m -> j < k -> parent m = Some d -> cstr_of (name m) <> Some nm.
Proof.
  intros Hm Hj Hp Hc. assert (Hum : used m = true).
  { apply (tree_used _ _ _ _ Ht Hm). pose proof (arr_range _ _ _ Hm). lia. }
  specialize (Hfresh _ _ Hm). apply not_true_iff_false in Hfresh. apply Hfresh. by apply named_iff.
Qed.

(** The old node behind one of the new table, but for the new node. *)
Lemma insert_old j m : arr ns' j = Some m -> j <> k ->
  exists m0, arr ns j = Some m0 /\ parent m0 = parent m /\ name m0 = name m /\ used m0 = used m /\ type m0 = type m.
Proof.
  intros Hm Hj. destruct (insert_case _ _ Hm) as [[-> ->]|[[-> ->]|(? & ? & ?)]]; [by exists dn|done|by exists m].
Qed.

Lemma tree_insert : tree_inv ns' (k + 1).
Proof.
  pose proof insert_dk as Hdk. pose proof Ht as [H1 H2 H3 H4 H5]. constructor.
  - unfold ns'. by rewrite !zlen_upd.
  - lia.
  - intros i m Hm. destruct (insert_case _ _ Hm) as [[-> ->]|[[-> ->]|(? & ? & Hm0)]].
    + destruct (H3 _ _ Hd) as [? Hud]. simpl. split; [done|]. rewrite Hu. symmetry. apply Z.ltb_lt. lia.
    + destruct (H3 _ _ Hn). split; [|symmetry; apply Z.ltb_lt; lia].
      unfold new, new_node, copy_name. cbn [name]. rewrite copy_name_len; [done|unfold NM_NAME_MAX in *; lia].
    + destruct (H3 _ _ Hm0) as [? ->]. split; [done|]. destruct (Z.ltb_spec i k), (Z.ltb_spec i (k + 1)); lia || done.
  - intros i m Hm Hi. by apply insert_live.
  - intros i j m m' Hm Hm' Hi Hj Hp Hpp Hc.
    destruct (decide (i = k)) as [->|Hik], (decide (j = k)) as [->|Hjk]; [done|..].
    + rewrite insert_arr in Hm. destruct (Z.eqb_spec d k); [lia|]. rewrite Z.eqb_refl in Hm. injection Hm as <-.
      rewrite insert_new_name in Hc. destruct (insert_old _ _ Hm' Hjk) as (m0 & Hm0 & Hp0 & Hn0 & _).
      exfalso. eapply (insert_distinct j m0); [done|lia|by rewrite Hp0, <- Hpp|by rewrite Hn0].
    + rewrite insert_arr in Hm'. destruct (Z.eqb_spec d k); [lia|]. rewrite Z.eqb_refl in Hm'. injection Hm' as <-.
      rewrite insert_new_name in Hc. destruct (insert_old _ _ Hm Hik) as (m0 & Hm0 & Hp0 & Hn0 & _).
      exfalso. eapply (insert_distinct i m0); [done|lia|by rewrite Hp0, Hpp|by rewrite Hn0].
    + destruct (insert_old _ _ Hm Hik) as (m0 & Hm0 & Hp0 & Hn0 & _).
      destruct (insert_old _ _ Hm' Hjk) as (m0' & Hm0' & Hp0' & Hn0' & _).
      eapply (H5 i j m0 m0'); [done|done|lia|lia|congruence|congruence|congruence].
Qed.
End insert.

(** *** The buffers *)

Definition buffer_ok (h : H) (n : nm_vnode) : Prop :=
  (capacity n = 0 /\ data n = 0 /\ size n = 0) \/
  ((exists e, 0 <= e /\ capacity n = 64 * 2 ^ e) /\ 0 < data n /\ data n + capacity n < 2 ^ 63 /\
   0 <= size n <= capacity n /\ owns h (data n) (capacity n)).

Definition apart (n m : nm_vnode) : Prop :=
  capacity n = 0 \/ capacity m = 0 \/ data n + capacity n <= data m \/ data m + capacity m <= data n.

(** Every file has a buffer of the heap, none two files share. *)
Record data_inv (ns : list nm_vnode) (h : H) : Prop := mk_data {
  di_buffer i n : arr ns i = Some n -> used n = true -> buffer_ok h n;
  di_apart i j n m : arr ns i = Some n -> arr ns j = Some m -> i <> j -> used n = true -> used m = true ->
    apart n m;
}.

Record tmpfs_inv s (k : Z) : Prop := mk_tmpfs_inv {
  fi_tree : tree_inv (nodes s) k;
  fi_data : data_inv (nodes s) (heap s);
  fi_heap : heap_ok (heap s);
  fi_ino : next_ino s = k + 1;
  fi_root : tmpfs_root s = Some 0;
  fi_dir n : arr (nodes s) 0 = Some n -> type n = NM_NODE_DIR;
}.

Lemma zlen_bytes m p n : 0 <= n -> zlen (bytes m p n) = n.
Proof. intros Hn. unfold bytes, zlen. rewrite length_fmap. pose proof (zlen_upto 0 n). unfold zlen in *. lia. Qed.

Lemma arr_bytes m p n i : arr (bytes m p n) i = if (0 <=? i) && (i <? n) then Some (m (p + i)) else None.
Proof.
  unfold bytes. rewrite arr_fmap. unfold arr, upto. destruct (Z.leb_spec 0 i); [|done]. simpl.
  destruct (Z.ltb_spec i n).
  - rewrite (proj2 (lookup_seqZ 0 (n - 0) (Z.to_nat i) i)) by lia. done.
  - rewrite lookup_seqZ_ge by lia. done.
Qed.

Lemma bytes_ext m m' p p' n :
  (forall i, 0 <= i < n -> m (p + i) = m' (p' + i)) -> bytes m p n = bytes m' p' n.
Proof.
  intros Hm. unfold bytes. apply list_fmap_ext. intros ? i Hi. apply Hm.
  apply elem_of_upto. by eapply list_elem_of_lookup_2.
Qed.

(** *** Creation *)

(** The tree after [d] got the new entry [nm] for the node [k]. *)
Record created s (k d : Z) (nm : list Z) (ty : nm_node_type) s' : Prop := mk_created {
  cr_inv : tmpfs_inv s' (k + 1);
  cr_entry d' nm' : entry s' d' nm' = if bool_decide (d' = d /\ nm' = nm) then Some k else entry s d' nm';
  cr_content i : content s' i =
    if i =? k then (if bool_decide (ty = NM_NODE_FILE) then Some [] else None) else content s i;
  cr_nodes i n : arr (nodes s) i = Some n -> i < k ->
    exists n', arr (nodes s') i = Some n' /\ used n' = true /\ type n' = type n;
  cr_new : exists n', arr (nodes s') k = Some n' /\ used n' = true /\ type n' = ty;
}.

Section create.
Context (s : tmpfs H) (k d : Z) (n dn : nm_vnode) (nm : list Z) (ty : nm_node_type) (md : Z).
Context (Hi : tmpfs_inv s k) (Hk : k < TMPFS_MAX_NODES) (Hd : arr (nodes s) d = Some dn).
Context (Hu : used dn = true) (Hdir : type dn = NM_NODE_DIR) (Hn : arr (nodes s) k = Some n).
Context (Hnm : name_ok nm) (Hno : entry s d nm = None).
Let new := new_node k d n dn nm ty md.
Let s' := set_next_ino (k + 1 + 1) (set_nodes (upd (upd (nodes s) k new) d (with_children (Some k) dn)) s).

Lemma create_fresh j m : arr (nodes s) j = Some m -> named d nm m = false.
Proof. intros Hm%arr_elem. by apply (proj1 (find_idx_None _ _) Hno). Qed.

Lemma create_tree : tree_inv (nodes s') (k + 1).
Proof. exact (tree_insert _ k d n dn nm ty md (fi_tree _ _ Hi) Hk Hd Hu Hdir Hn Hnm create_fresh). Qed.

Lemma create_case j m : arr (nodes s') j = Some m ->
  (j = d /\ m = with_children (Some k) dn) \/ (j = k /\ m = new) \/ (j <> d /\ j <> k /\ arr (nodes s) j = Some m).
Proof. by apply (insert_case (nodes s) k d n dn nm ty md). Qed.

Lemma create_arr j :
  arr (nodes s') j = if d =? j then Some (with_children (Some k) dn) else if k =? j then Some new else arr (nodes s) j.
Proof. by apply (insert_arr (nodes s) k d n dn nm ty md). Qed.

Lemma create_dk : 0 <= d < k.
Proof. eapply insert_dk; [apply Hi|done|done]. Qed.

Lemma create_data : data_inv (nodes s') (heap s').
Proof.
  destruct (fi_data _ _ Hi) as [Hb Ha]. constructor.
  - intros j m Hm Hum. destruct (create_case _ _ Hm) as [[-> ->]|[[-> ->]|(? & ? & Hm0)]].
    + by apply (Hb d dn).
    + by left.
    + by apply (Hb j m).
  - intros i j m m' Hm Hm' Hij Hum Hum'.
    destruct (create_case _ _ Hm) as [[-> ->]|[[-> ->]|(? & ? & Hm0)]];
    destruct (create_case _ _ Hm') as [[-> ->]|[[-> ->]|(? & ? & Hm0')]]; try done;
      try (by left); try (by right; left).
    + by apply (Ha d j dn m').
    + by apply (Ha i d m dn).
    + by apply (Ha i j m m').
Qed.

Lemma create_entry d' nm' :
  entry s' d' nm' = if bool_decide (d' = d /\ nm' = nm) then Some k else entry s d' nm'.
Proof.
  pose proof create_dk as Hdk. pose proof create_tree as Ht'. pose proof (fi_tree _ _ Hi) as Ht.
  case_bool_decide as E.
  - destruct E as [-> ->]. apply (entry_iff _ (k + 1)); [done|]. exists new. split.
    + rewrite create_arr. destruct (Z.eqb_spec d k); [lia|]. by rewrite Z.eqb_refl.
    + apply named_iff. split_and!; [done|done|]. by eapply insert_new_name.
  - destruct (entry s d' nm') as [j|] eqn:Ej.
    + rewrite (entry_iff _ k) in Ej by done. destruct Ej as (m & Hm & Hnamed).
      apply (entry_iff _ (k + 1)); [done|]. rewrite create_arr.
      destruct (Z.eqb_spec d j) as [<-|]; [simplify_eq; by eexists|].
      destruct (Z.eqb_spec k j) as [<-|]; [|by exists m].
      apply named_iff in Hnamed as (Hum & _). apply (tree_used _ _ _ _ Ht Hm) in Hum. lia.
    + apply find_idx_None. intros m [j Hm]%elem_arr.
      assert (Hnone : forall j m, arr (nodes s) j = Some m -> named d' nm' m = false).
      { intros j0 m0 Hm0%arr_elem. by apply (proj1 (find_idx_None _ _) Ej). }
      destruct (create_case _ _ Hm) as [[-> ->]|[[-> ->]|(? & ? & Hm0)]]; [exact (Hnone d dn Hd)| |by apply (Hnone j)].
      apply not_true_iff_false. intros (_ & Hp & Hc)%named_iff. apply E. simpl in Hp.
      split; [congruence|]. assert (Hc' : cstr_of (name new) = Some nm) by (by eapply insert_new_name). congruence.
Qed.

Lemma create_content i : content s' i =
  if i =? k then (if bool_decide (ty = NM_NODE_FILE) then Some [] else None) else content s i.
Proof.
  pose proof create_dk as Hdk. unfold content. rewrite create_arr.
  destruct (Z.eqb_spec d i) as [<-|].
  - destruct (Z.eqb_spec d k); [lia|]. by rewrite Hd.
  - rewrite (Z.eqb_sym k i). by destruct (Z.eqb_spec i k).
Qed.

Lemma create_created : created s k d nm ty s'.
Proof.
  pose proof create_dk as Hdk. constructor.
  - constructor; [exact create_tree|exact create_data|apply Hi|done|apply Hi|].
    intros m Hm. destruct (create_case _ _ Hm) as [[E ->]|[[E ->]|(? & ? & Hm0)]];
      [done|lia|by apply (fi_dir _ _ Hi)].
  - exact create_entry.
  - exact create_content.
  - intros i m Hm Him. rewrite create_arr. pose proof (arr_range _ _ _ Hm).
    assert (used m = true) by (apply (tree_used _ _ _ _ (fi_tree _ _ Hi) Hm); lia).
    destruct (Z.eqb_spec d i) as [<-|]; [simplify_eq; by eexists|].
    destruct (Z.eqb_spec k i); [lia|]. by exists m.
  - exists new. rewrite create_arr. destruct (Z.eqb_spec d k); [lia|]. by rewrite Z.eqb_refl.
Qed.
End create.

Lemma wp_tmpfs_create s k d dn nm ty md (Q : option Z -> tmpfs H -> Prop) :
  tmpfs_inv s k -> arr (nodes s) d = Some dn -> used dn = true -> name_ok nm ->
  (type dn <> NM_NODE_DIR \/ is_Some (entry s d nm) \/ k = TMPFS_MAX_NODES -> Q None s) ->
  (forall s', type dn = NM_NODE_DIR -> entry s d nm = None -> created s k d nm ty s' -> Q (Some k) s') ->
  wp (tmpfs_create (Some d) (Some nm) ty md) Q s.
Proof.
  intros Hi Hd Hu Hnm Hfail Hok. pose proof (fi_tree _ _ Hi) as Ht. unfold tmpfs_create.
  wp_step. eapply wp_rd; [done|]. case_bool_decide as Hdir; cbn [negb]; [|apply wp_ret, Hfail; by left].
  wp_step. eapply wp_lookup; [done|done|done|]. case_bool_decide as He; [apply wp_ret, Hfail; auto|].
  rewrite <- eq_None_not_Some in He. wp_step. apply (wp_alloc_node s k); [apply Ht|split;[|apply Ht]| | |].
  - pose proof (ti_count _ _ Ht). lia.
  - intros i n Hn. by apply (ti_node _ _ Ht).
  - intros ->. apply wp_ret, Hfail. auto.
  - intros n Hn. pose proof (arr_range _ _ _ Hn) as Hk. pose proof (arr_range _ _ _ Hd).
    assert (Hdk : 0 <= d < k) by (by apply (tree_used _ _ _ _ Ht Hd)). rewrite (ti_len _ _ Ht) in Hk.
    do 4 wp_step. wp_step. eapply wp_modify_at; [simpl; rewrite arr_upd_eq; [done|rewrite (ti_len _ _ Ht); lia]|].
    simpl. rewrite upd_upd. wp_step.
    eapply wp_rd; [simpl; rewrite arr_upd_ne by lia; done|]. wp_step.
    eapply wp_modify_at; [simpl; rewrite arr_upd_eq; [done|rewrite (ti_len _ _ Ht); lia]|].
    simpl. rewrite upd_upd. wp_step.
    eapply wp_modify_at; [simpl; rewrite arr_upd_ne by lia; done|].
    apply wp_ret, Hok; [done|done|]. simpl. rewrite (fi_ino _ _ Hi), u64_small by (unfold TMPFS_MAX_NODES in *; lia).
    exact (create_created s k d n dn nm ty md Hi (proj2 Hk) Hd Hu Hdir Hn Hnm He).
Qed.

(** *** Mounting: from any table, an empty root directory *)

Lemma mount_inv s (r : nm_vnode) :
  zlen (nodes s) = TMPFS_MAX_NODES -> heap_ok (heap s) -> next_ino s = 2 -> tmpfs_root s = Some 0 ->
  arr (nodes s) 0 = Some r -> used r = true -> ino r = 1 -> type r = NM_NODE_DIR -> zlen (name r) = NM_NAME_MAX ->
  is_Some (cstr_of (name r)) -> parent r = None -> children r = None -> data r = 0 -> size r = 0 ->
  capacity r = 0 -> ops r = TMPFS_FILE_OPS ->
  (forall i n, arr (nodes s) i = Some n -> i <> 0 -> used n = false /\ zlen (name n) = NM_NAME_MAX) ->
  tmpfs_inv s 1 /\ forall d nm, entry s d nm = None.
Proof.
  intros Hl Hh Hino Hroot Hr Hu Hri Hty Hnl Hnm Hp Hc Hda Hsz Hca Hop Hrest.
  assert (Hone : forall i n, arr (nodes s) i = Some n -> used n = true -> i = 0 /\ n = r).
  { intros i n Hn Hun. destruct (decide (i = 0)) as [->|Hi]; [split; congruence|].
    destruct (Hrest _ _ Hn Hi). congruence. }
  split.
  2: { intros d nm. apply find_idx_None. intros n [i Hn]%elem_arr. destruct (named d nm n) eqn:E; [|done].
    apply named_iff in E as (Hun & Hpn & _). destruct (Hone _ _ Hn Hun) as [_ ->]. congruence. }
  constructor; [|constructor|done|done|done|intros; congruence].
  - constructor; [done|unfold TMPFS_MAX_NODES; lia|..].
    + intros i n Hn. destruct (decide (i = 0)) as [->|Hi]; [simplify_eq; done|].
      destruct (Hrest _ _ Hn Hi) as [-> ?]. split; [done|]. pose proof (arr_range _ _ _ Hn).
      symmetry. apply Z.ltb_ge. lia.
    + intros i n Hn Hi. pose proof (arr_range _ _ _ Hn). assert (i = 0) as -> by lia. simplify_eq.
      constructor; [done|done|done|congruence|]. exists []. rewrite Hc. split_and!; [done|constructor|].
      intros j. rewrite elem_of_nil. split; [done|]. intros (m & Hm & Hum & Hpm).
      destruct (Hone _ _ Hm Hum). congruence.
    + intros i j n m Hn Hm Hi Hj. pose proof (arr_range _ _ _ Hn). pose proof (arr_range _ _ _ Hm). lia.
  - intros i n Hn Hun. destruct (Hone _ _ Hn Hun) as [-> ->]. by left.
  - intros i j n m Hn Hm Hij Hun Hum. destruct (Hone _ _ Hn Hun), (Hone _ _ Hm Hum). lia.
Qed.

(** A table whose name buffers have their length, as the static one does. *)
Definition table_ok s : Prop :=
  zlen (nodes s) = TMPFS_MAX_NODES /\ forall i n, arr (nodes s) i = Some n -> zlen (name n) = NM_NAME_MAX.

Lemma wp_mount s (Q : option Z -> tmpfs H -> Prop) :
  table_ok s -> heap_ok (heap s) ->
  (forall s', tmpfs_inv s' 1 -> (forall d nm, entry s' d nm = None) -> heap s' = heap s -> ram s' = ram s -> Q (Some 0) s') ->
  wp tmpfs_mount_root Q s.
Proof.
  intros Hok Hh HQ. unfold tmpfs_mount_root. wp_step.
  apply (wp_for_all (fun i t => table_ok t /\ heap t = heap s /\ ram t = ram s /\
    forall j n, arr (nodes t) j = Some n -> j < i -> used n = false)).
  - unfold TMPFS_MAX_NODES. lia.
  - split; [done|]. split_and!; [done|done|]. intros j n Hn. pose proof (arr_range _ _ _ Hn). lia.
  - intros i t Hi ([Hl Hnm] & Hht & Hrt & Hu). destruct (arr_lookup (nodes t) i) as [n Hn]; [lia|].
    eapply wp_modify_at; [done|]. simpl. pose proof (arr_range _ _ _ Hn).
    split; [split; [simpl; by rewrite zlen_upd|]|split_and!; [done|done|]]; simpl; intros j m; rewrite arr_upd by done;
      destruct (Z.eqb_spec i j) as [<-|]; [intros [= <-]; exact (Hnm i n Hn)|apply Hnm|by intros [= <-]|].
    intros Hm Hj. eapply Hu; [done|lia].
  - intros t ([Hl Hnm] & Hht & Hrt & Hu).
    assert (Hu' : forall j n, arr (nodes t) j = Some n -> used n = false).
    { intros j n Hn. apply (Hu j n Hn). pose proof (arr_range _ _ _ Hn). lia. }
    do 3 wp_step. apply (wp_alloc_node _ 0); [done|unfold TMPFS_MAX_NODES; lia| |unfold TMPFS_MAX_NODES; lia|].
    + intros i n Hn. rewrite (Hu' _ _ Hn). pose proof (arr_range _ _ _ Hn). symmetry. apply Z.ltb_ge. lia.
    + intros n Hn. simpl in Hn. pose proof (arr_range _ _ _ Hn) as H0. do 3 wp_step.
      eapply wp_modify_at; [simpl; by rewrite arr_upd_eq|]. apply wp_ret. simpl. rewrite upd_upd.
      set (r := mk_vnode _ _ _ _ _ _ _ _ _ _ _ _ _ _ _). match goal with |- Q _ ?s1 =>
        assert (Hi : tmpfs_inv s1 1 /\ forall d nm, entry s1 d nm = None); [|destruct Hi; by apply HQ] end.
      apply (mount_inv _ r); simpl; try done; [by rewrite zlen_upd|congruence|by rewrite arr_upd_eq|..].
      * unfold copy_name. rewrite copy_name_len; rewrite (Hnm _ _ Hn); [done|unfold NM_NAME_MAX; lia].
      * intros i m Hm Hi. rewrite arr_upd_ne in Hm by done. split; [by eapply Hu'|by eapply Hnm].
Qed.

(** *** Reading *)

Lemma slice_bytes m p n offset len :
  0 <= offset -> 0 <= len -> 0 <= n ->
  slice (bytes m p n) offset len = bytes m (p + offset) (Z.min len (Z.max 0 (n - offset))).
Proof.
  intros Ho Hl Hn. apply arr_ext.
  - rewrite zlen_slice, !zlen_bytes by lia. done.
  - intros i. rewrite arr_slice, !arr_bytes by done.
    destruct (Z.leb_spec 0 i), (Z.ltb_spec i len), (Z.ltb_spec i (Z.min len (Z.max 0 (n - offset)))),
      (Z.leb_spec 0 (offset + i)), (Z.ltb_spec (offset + i) n); simpl; try lia; try done. do 2 f_equal. lia.
Qed.

Lemma bytes_snoc m p n : 0 <= n -> bytes m p n ++ [m (p + n)] = bytes m p (n + 1).
Proof.
  intros Hn. unfold bytes. rewrite (upto_app 0 n (n + 1)), fmap_app by lia.
  rewrite (upto_cons n (n + 1)), (upto_nil (n + 1) (n + 1)) by lia. done.
Qed.

Lemma wp_load_byte s buf cap k (Q : Z -> tmpfs H -> Prop) :
  buf <> 0 -> 0 <= k < cap -> Q (ram s (buf + k)) s -> wp (load buf cap k) Q s.
Proof.
  intros Hb Hk HQ. unfold wp, load. destruct (Z.eqb_spec buf 0); [done|].
  destruct (Z.leb_spec 0 k), (Z.ltb_spec k cap); simpl; try lia. done.
Qed.

Lemma content_inv s i c : content s i = Some c ->
  exists n, arr (nodes s) i = Some n /\ used n = true /\ type n = NM_NODE_FILE /\ c = bytes (ram s) (data n) (size n).
Proof.
  unfold content. destruct (arr (nodes s) i) as [n|]; simpl; [|done].
  destruct (used n) eqn:Hu; simpl; [|done]. case_bool_decide; [|done]. intros [= <-]. by exists n.
Qed.

Lemma buffer_bounds h n : buffer_ok h n ->
  0 <= size n <= capacity n /\ 0 <= data n /\ (0 < capacity n -> 0 < data n) /\ data n + capacity n < 2 ^ 63.
Proof. intros [(-> & -> & ->)|(_ & ? & ? & ? & _)]; lia. Qed.

(** [tmpfs_read] answers the bytes of the range that the file has. *)
Lemma wp_tmpfs_read s k i c offset len (Q : Z * list Z -> tmpfs H -> Prop) :
  tmpfs_inv s k -> content s i = Some c -> 0 <= offset -> 0 <= len ->
  Q (zlen (slice c offset len), slice c offset len) s -> wp (tmpfs_read (Some i) true offset len) Q s.
Proof.
  intros Hi (n & Hn & Hu & Hty & ->)%content_inv Ho Hl HQ.
  destruct (buffer_bounds _ _ (di_buffer _ _ (fi_data _ _ Hi) _ _ Hn Hu)) as (Hsz & Hd & Hd' & Hb).
  rewrite zlen_slice, slice_bytes, zlen_bytes in HQ by lia.
  unfold tmpfs_read. wp_step. eapply wp_rd; [done|]. rewrite bool_decide_true by done. cbn [negb orb].
  destruct (Z.leb_spec (size n) offset) as [Hle|Hlt].
  { apply wp_ret. rewrite (Z.max_l 0 _), Z.min_r in HQ by lia. done. }
  cbv zeta. rewrite (u64_small (size n - offset)) by lia. rewrite Z.max_r in HQ by lia.
  replace (if len <? size n - offset then len else size n - offset) with (Z.min len (size n - offset))
    by (destruct (Z.ltb_spec len (size n - offset)); lia).
  set (count := Z.min len (size n - offset)) in *. wp_step.
  apply (wp_for_acc (fun j acc t => t = s /\ acc = bytes (ram s) (data n + offset) j)); [lia|done| |].
  - intros j acc t Hj [-> ->]. wp_step. rewrite u64_small by lia. apply wp_load_byte; [lia|lia|].
    apply wp_ret. split; [done|]. rewrite Z.add_assoc. apply bytes_snoc. lia.
  - intros acc t [-> ->]. apply wp_ret. rewrite i64_small by lia. done.
Qed.

(** *** Growing a buffer *)

Lemma pow2_le_of_lt a b : 0 <= a -> 0 <= b -> 2 ^ a < 2 ^ b -> 2 * 2 ^ a <= 2 ^ b.
Proof.
  intros Ha Hb Hlt. apply Z.pow_lt_mono_r_iff in Hlt; [|lia|lia].
  rewrite <- Z.pow_succ_r by done. apply Z.pow_le_mono_r; lia.
Qed.

Lemma cap_pow e : 0 <= e -> 64 * 2 ^ e = 2 ^ (6 + e).
Proof. intros. by rewrite Z.pow_add_r by lia. Qed.

Lemma wp_grow fuel e need s (Q : Z -> tmpfs H -> Prop) :
  0 <= e -> 64 * 2 ^ e <= 2 ^ 63 -> 2 ^ 63 <= 64 * 2 ^ e * 2 ^ Z.of_nat fuel -> need <= 2 ^ 63 ->
  (forall e', e <= e' -> need <= 64 * 2 ^ e' <= 2 ^ 63 -> e' = e \/ 64 * 2 ^ e' < 2 * need ->
     Q (64 * 2 ^ e') s) ->
  wp (grow fuel (64 * 2 ^ e) need) Q s.
Proof.
  revert e. induction fuel as [|fuel IH]; intros e He Hcap Hfuel Hneed HQ; cbn [grow];
    destruct (Z.ltb_spec (64 * 2 ^ e) need) as [Hlt|Hge]; try (apply wp_ret, HQ; [lia|lia|by left]).
  - rewrite Z.pow_0_r in Hfuel. lia.
  - assert (Hdbl : 64 * 2 ^ e * 2 = 64 * 2 ^ (e + 1)) by (rewrite Z.pow_add_r by lia; lia).
    assert (H63 : 2 * 2 ^ (6 + e) <= 2 ^ 63) by (apply pow2_le_of_lt; [lia|lia|rewrite <- cap_pow; lia]).
    rewrite <- cap_pow in H63 by done. assert (0 < 2 ^ e) by (by apply Z.pow_pos_nonneg).
    rewrite u64_small, Hdbl by lia. apply IH; [lia|lia| |done|].
    + rewrite Nat2Z.inj_succ, Z.pow_succ_r in Hfuel by lia. rewrite <- Hdbl. nia.
    + intros e' He' Hr Hor. apply HQ; [lia|done|]. right. destruct Hor as [->|]; [rewrite <- Hdbl; lia|done].
Qed.

(** The longest file that [tmpfs_write] is shown to grow to. *)
Definition file_limit : Z := Z.min (malloc_limit / 2) (2 ^ 62).

Lemma file_limit_min : 32768 <= file_limit.
Proof.
  unfold file_limit. pose proof malloc_limit_min. apply Z.min_glb; [|lia].
  change 32768 with (65536 / 2). apply Z.div_le_mono; lia.
Qed.

Lemma entry_same s s' d nm : same_tree (nodes s) (nodes s') -> entry s' d nm = entry s d nm.
Proof.
  unfold entry, same_tree, find_idx. generalize 0. generalize (nodes s') as l'. generalize (nodes s) as l.
  induction l as [|n l IH]; intros [|n' l'] z Hs; try done. simpl in *. injection Hs as Hu ? ? Hnm Hp ? ? ? Hs.
  rewrite (IH l') by done.
  replace (named d nm n') with (named d nm n) by (unfold named; by rewrite Hu, Hp, Hnm). done.
Qed.

(** The buffer of node [i] has room for [need] bytes, and no file changed. *)
Record reserved s k i n need s' n' : Prop := mk_reserved {
  re_inv : tmpfs_inv s' k;
  re_nodes : nodes s' = upd (nodes s) i n';
  re_shape : shape n' = shape n;
  re_size : size n' = size n;
  re_room : need <= capacity n';
  re_content j : content s' j = content s j;
  re_ram a : a < data n' \/ data n' + size n <= a -> ram s' a = ram s a;
}.

Lemma reserved_refl s k i n need :
  tmpfs_inv s k -> arr (nodes s) i = Some n -> need <= capacity n -> reserved s k i n need s n.
Proof. intros. constructor; try done. by rewrite upd_id. Qed.

Section reserve.
Context (s : tmpfs H) (k i : Z) (n : nm_vnode) (need : Z) (p e : Z) (h' : H) (m : Z -> Z).
Context (Hi : tmpfs_inv s k) (Hn : arr (nodes s) i = Some n) (Hu : used n = true).
Let cap := 64 * 2 ^ e.
Context (He : 0 <= e) (Hbig : capacity n < need) (Hneed : need <= cap).
Context (Hok : heap_ok h') (Hp : 0 < p) (Hend : p + cap < 2 ^ 63) (Hown : owns h' p cap).
Context (Hkeep : forall q c, owns (heap s) q c -> owns h' q c /\ (p + cap <= q \/ q + c <= p)).
Context (Hm : forall a, m a = if (p <=? a) && (a <? p + size n) then ram s (data n + (a - p)) else ram s a).
Let n' := mk_vnode (used n) (ino n) (type n) (name n) (uid n) (gid n) (mode n)
    (parent n) (children n) (next_sibling n) p (size n) cap (ops n) (fs_private n).
Let s' := set_nodes (upd (nodes s) i n') (set_ram m (set_heap h' s)).

Lemma reserve_arr j : arr (nodes s') j = if i =? j then Some n' else arr (nodes s) j.
Proof. unfold s'. simpl. apply arr_upd. by eapply arr_range. Qed.

(** A buffer in use lies apart from the new one. *)
Lemma reserve_apart x : buffer_ok (heap s) x -> 0 < capacity x ->
  p + cap <= data x \/ data x + capacity x <= p.
Proof. intros [(E & _)|(_ & _ & _ & _ & Ho)] Hc; [lia|]. by apply Hkeep in Ho as [_ ?]. Qed.

Lemma reserve_data : data_inv (nodes s') (heap s').
Proof.
  destruct (fi_data _ _ Hi) as [Hb Ha].
  destruct (buffer_bounds _ _ (Hb _ _ Hn Hu)) as (Hsz & _).
  constructor.
  - intros j x. rewrite reserve_arr. destruct (Z.eqb_spec i j) as [<-|].
    + intros [= <-] _. right. simpl. split_and!; [by exists e|done|done|lia|lia|done].
    + intros Hx Hux. destruct (Hb _ _ Hx Hux) as [?|(? & ? & ? & ? & Ho)]; [by left|right].
      by apply Hkeep in Ho as [? _].
  - intros j j' x x'. rewrite !reserve_arr. unfold apart.
    destruct (Z.eqb_spec i j) as [<-|], (Z.eqb_spec i j') as [<-|]; intros Hx Hx' Hj Hux Hux'; [done|..].
    + injection Hx as <-. simpl. pose proof (reserve_apart x' (Hb _ _ Hx' Hux')).
      pose proof (buffer_bounds _ _ (Hb _ _ Hx' Hux')). lia.
    + injection Hx' as <-. simpl. pose proof (reserve_apart x (Hb _ _ Hx Hux)).
      pose proof (buffer_bounds _ _ (Hb _ _ Hx Hux)). lia.
    + by apply (Ha j j' x x').
Qed.

Lemma reserve_content j : content s' j = content s j.
Proof.
  destruct (fi_data _ _ Hi) as [Hb _].
  destruct (buffer_bounds _ _ (Hb _ _ Hn Hu)) as (Hsz & _).
  unfold content. rewrite reserve_arr. destruct (Z.eqb_spec i j) as [<-|].
  - rewrite Hn. simpl. destruct (used n && _); [|done]. f_equal. apply bytes_ext. intros x Hx.
    rewrite Hm. destruct (Z.leb_spec p (p + x)), (Z.ltb_spec (p + x) (p + size n)); simpl; try lia.
    f_equal. lia.
  - destruct (arr (nodes s) j) as [x|] eqn:Hx; [|done]. simpl. destruct (used x) eqn:Hux; [|done].
    simpl. case_bool_decide; [|done]. f_equal. apply bytes_ext. intros b Hb'. rewrite Hm.
    pose proof (reserve_apart x (Hb _ _ Hx Hux)). pose proof (buffer_bounds _ _ (Hb _ _ Hx Hux)).
    destruct (Z.leb_spec p (data x + b)), (Z.ltb_spec (data x + b) (p + size n)); simpl; done || lia.
Qed.

Lemma reserve_reserved : reserved s k i n need s' n'.
Proof.
  constructor; try done.
  - constructor; simpl; [|exact reserve_data|done|apply Hi|apply Hi|].
    + eapply tree_same; [symmetry; by eapply same_tree_upd|apply Hi].
    + intros x. rewrite arr_upd by (by eapply arr_range). destruct (Z.eqb_spec i 0) as [E|].
      * intros [= <-]. apply (fi_dir _ _ Hi n). by rewrite <- E.
      * apply Hi.
  - exact reserve_content.
  - intros a Ha. simpl. rewrite Hm. simpl in Ha.
    destruct (Z.leb_spec p a), (Z.ltb_spec a (p + size n)); simpl; done || lia.
Qed.
End reserve.

Lemma wp_store_byte s buf cap k x (Q : unit -> tmpfs H -> Prop) :
  buf <> 0 -> 0 <= k < cap ->
  Q tt (set_ram (fun a => if a =? buf + k then x else ram s a) s) -> wp (store buf cap k x) Q s.
Proof.
  intros Hb Hk HQ. unfold wp, store. destruct (Z.eqb_spec buf 0); [done|].
  destruct (Z.leb_spec 0 k), (Z.ltb_spec k cap); simpl; try lia. done.
Qed.

(** Storing bytes one after the other from [p]: the memory after [j] of them. *)
Definition stored (m m' f : Z -> Z) (p j : Z) : Prop :=
  forall a, m' a = if (p <=? a) && (a <? p + j) then f (a - p) else m a.

Lemma stored_nil m f p : stored m m f p 0.
Proof. intros a. destruct (Z.leb_spec p a), (Z.ltb_spec a (p + 0)); simpl; lia || done. Qed.

Lemma stored_snoc m m' f p j x :
  0 <= j -> stored m m' f p j -> x = f j -> stored m (fun a => if a =? p + j then x else m' a) f p (j + 1).
Proof.
  intros Hj Hs -> a. destruct (Z.eqb_spec a (p + j)) as [->|].
  - destruct (Z.leb_spec p (p + j)), (Z.ltb_spec (p + j) (p + (j + 1))); simpl; try lia. f_equal. lia.
  - rewrite Hs. destruct (Z.leb_spec p a), (Z.ltb_spec a (p + (j + 1))), (Z.ltb_spec a (p + j)); simpl; done || lia.
Qed.

Lemma grown_cap s k i n need (Q : Z -> tmpfs H -> Prop) :
  tmpfs_inv s k -> arr (nodes s) i = Some n -> used n = true -> capacity n < need -> need <= file_limit ->
  (forall e, 0 <= e -> need <= 64 * 2 ^ e <= malloc_limit -> Q (64 * 2 ^ e) s) ->
  wp (grow GROW_FUEL (if capacity n =? 0 then 64 else capacity n) need) Q s.
Proof.
  intros Hi Hn Hu Hbig Hneed HQ. pose proof malloc_limit_min as Hmin.
  assert (Hlim : need <= 2 ^ 62 /\ 2 * need <= malloc_limit).
  { unfold file_limit in Hneed. assert (need <= malloc_limit / 2) by lia.
    split; [lia|]. pose proof (Z.mul_div_le malloc_limit 2). lia. }
  assert (Hc : exists e, 0 <= e /\ (if capacity n =? 0 then 64 else capacity n) = 64 * 2 ^ e /\
    (64 * 2 ^ e = 64 \/ 64 * 2 ^ e < need)).
  { destruct (di_buffer _ _ (fi_data _ _ Hi) _ _ Hn Hu) as [(-> & _)|((e & He & Hcap) & _)].
    - exists 0. split_and!; [lia|done|by left].
    - assert (0 < 2 ^ e) by (by apply Z.pow_pos_nonneg). exists e. destruct (Z.eqb_spec (capacity n) 0); lia. }
  destruct Hc as (e & He & -> & Hor). assert (1 <= 2 ^ e) by (pose proof (Z.pow_pos_nonneg 2 e); lia).
  apply wp_grow; [done|lia| |lia|].
  - change (2 ^ Z.of_nat GROW_FUEL) with (2 ^ 1 * 2 ^ 63). lia.
  - intros e' He' Hr Hor'. apply HQ; [lia|]. split; [lia|]. destruct Hor' as [->|]; lia.
Qed.

Lemma wp_reserve s k i n need (Q : Z -> tmpfs H -> Prop) :
  tmpfs_inv s k -> arr (nodes s) i = Some n -> used n = true -> need <= file_limit ->
  Q (NM_ERR NM_ENOMEM) s ->
  (forall s' n', reserved s k i n need s' n' -> Q 0 s') ->
  wp (tmpfs_reserve i need) Q s.
Proof.
  intros Hi Hn Hu Hneed Hfail Hok. unfold tmpfs_reserve. wp_step. eapply wp_rd; [done|].
  destruct (Z.leb_spec need (capacity n)) as [|Hbig]; [apply wp_ret; eapply Hok; by apply reserved_refl|].
  wp_step. eapply grown_cap; [done..|]. intros e He Hcap. wp_step. apply wp_lift.
  assert (0 < 2 ^ e) by (by apply Z.pow_pos_nonneg).
  apply malloc_law; [apply Hi|lia|wp_go; by destruct s|].
  intros p h' Hh Hp Hend Hown Hkeep. destruct (Z.eqb_spec p 0); [lia|].
  destruct (buffer_bounds _ _ (di_buffer _ _ (fi_data _ _ Hi) _ _ Hn Hu)) as (Hsz & Hd & Hd' & _). wp_step.
  apply (wp_for_all (fun j t => nodes t = nodes s /\ heap t = h' /\ next_ino t = next_ino s /\
    tmpfs_root t = tmpfs_root s /\ stored (ram s) (ram t) (fun x => ram s (data n + x)) p j)); [lia| | |].
  - split_and!; try done. apply stored_nil.
  - intros j t Hj (Hnt & Hht & Hit & Hrt & Hst). destruct (Z.eqb_spec (data n) 0); [lia|]. cbn [negb].
    wp_step. apply wp_load_byte; [done|lia|]. apply wp_store_byte; [done|lia|]. simpl.
    split_and!; [done..|]. apply stored_snoc; [lia|done|]. rewrite Hst.
    destruct (reserve_apart s p e h' Hkeep n) as [Hlo|Hlo];
      [by eapply di_buffer; [apply Hi|..]|lia|..];
      destruct (Z.leb_spec p (data n + j)), (Z.ltb_spec (data n + j) (p + j)); simpl; done || lia.
  - intros t (Hnt & Hht & Hit & Hrt & Hst). wp_step. eapply wp_modify_at; [by rewrite Hnt|]. apply wp_ret.
    destruct t as [tn ti tr th tm]. simpl in *. subst. eapply Hok.
    exact (reserve_reserved s k i n need p e h' tm Hi Hn Hu He Hbig (proj1 Hcap) Hh Hp Hend Hown Hkeep Hst).
Qed.

(** *** Writing *)

(** The state after the data are in the buffer and the size is set. *)
Section write.
Context (s : tmpfs H) (k i : Z) (n : nm_vnode) (src : list Z) (offset len : Z) (m : Z -> Z).
Context (Hi : tmpfs_inv s k) (Hn : arr (nodes s) i = Some n) (Hu : used n = true).
Context (Hty : type n = NM_NODE_FILE) (Ho : 0 <= offset) (Hl : 0 <= len <= zlen src).
Context (Hroom : offset + len <= capacity n).
Context (Hm : stored (ram s) m (fun x => default 0 (arr src x)) (data n + offset) len).
Let sz := Z.max (size n) (offset + len).
Let s' := set_ram m (set_nodes (upd (nodes s) i (set_size sz n)) s).
Let d := take (Z.to_nat len) src.

Lemma write_tree : same_tree (nodes s') (nodes s).
Proof. by apply (same_tree_upd _ i n). Qed.

Lemma write_arr j : arr (nodes s') j = if i =? j then Some (set_size sz n) else arr (nodes s) j.
Proof. apply arr_upd. by eapply arr_range. Qed.

Lemma write_inv : tmpfs_inv s' k.
Proof.
  destruct (fi_data _ _ Hi) as [Hb Ha].
  assert (Hold : forall j x, arr (nodes s') j = Some x -> exists x0, arr (nodes s) j = Some x0 /\
    used x0 = used x /\ data x0 = data x /\ capacity x0 = capacity x /\ type x0 = type x).
  { intros j x. rewrite write_arr. destruct (Z.eqb_spec i j) as [<-|]; [intros [= <-]; by exists n|].
    intros Hx. by exists x. }
  constructor; [|constructor|apply Hi|apply Hi|apply Hi|].
  - rewrite write_tree. apply Hi.
  - intros j x. rewrite write_arr. destruct (Z.eqb_spec i j) as [<-|]; [intros [= <-] _|by apply Hb].
    destruct (Hb _ _ Hn Hu) as [(Hc & Hd & Hs)|(? & ? & ? & ? & ?)]; [left; simpl; lia|].
    right. simpl. split_and!; [done|done|done|lia|lia|done].
  - intros j j' x x' Hx Hx' Hj Hux Hux'.
    destruct (Hold _ _ Hx) as (x0 & Hx0 & Hu0 & Hd0 & Hc0 & _).
    destruct (Hold _ _ Hx') as (x1 & Hx1 & Hu1 & Hd1 & Hc1 & _).
    unfold apart. rewrite <- Hd0, <- Hc0, <- Hd1, <- Hc1. eapply (Ha j j'); try done; congruence.
  - intros x Hx. destruct (Hold _ _ Hx) as (x0 & Hx0 & _ & _ & _ & <-). by apply (fi_dir _ _ Hi).
Qed.

Lemma write_other j : j <> i -> content s' j = content s j.
Proof.
  intros Hj. unfold content. rewrite write_arr. destruct (Z.eqb_spec i j); [done|].
  destruct (arr (nodes s) j) as [x|] eqn:Hx; [|done]. simpl. destruct (used x) eqn:Hux; [|done].
  simpl. case_bool_decide; [|done]. f_equal. apply bytes_ext. intros b Hb. rewrite Hm.
  destruct (fi_data _ _ Hi) as [Hbuf Ha].
  pose proof (buffer_bounds _ _ (Hbuf _ _ Hx Hux)). pose proof (Ha _ _ _ _ Hx Hn Hj Hux Hu) as Hap.
  unfold apart in Hap.
  destruct (Z.leb_spec (data n + offset) (data x + b)), (Z.ltb_spec (data x + b) (data n + offset + len));
    simpl; done || lia.
Qed.

Lemma write_content : exists c', content s' i = Some c' /\
  written (bytes (ram s) (data n) (size n)) offset d c' /\
  (forall x, size n <= x < offset -> arr c' x = Some (ram s (data n + x))).
Proof.
  destruct (buffer_bounds _ _ (di_buffer _ _ (fi_data _ _ Hi) _ _ Hn Hu)) as (Hsz & _).
  assert (Hd : zlen d = len) by (unfold d, zlen in *; rewrite length_take; lia).
  exists (bytes m (data n) sz). split; [|split; [constructor|]].
  - unfold content. rewrite write_arr, Z.eqb_refl. simpl. by rewrite Hu, bool_decide_true.
  - rewrite !zlen_bytes, Hd by lia. done.
  - intros x Hx. rewrite Hd in Hx. rewrite arr_bytes, Hm.
    destruct (Z.leb_spec 0 x), (Z.ltb_spec x sz), (Z.leb_spec (data n + offset) (data n + x)),
      (Z.ltb_spec (data n + x) (data n + offset + len)); simpl; try lia.
    replace (data n + x - (data n + offset)) with (x - offset) by lia.
    destruct (arr_lookup src (x - offset)) as [y Hy]; [lia|]. rewrite Hy. simpl.
    unfold d, arr in *. destruct (Z.leb_spec 0 (x - offset)); [|lia]. by rewrite lookup_take_lt by lia.
  - intros x Hx Hout. rewrite Hd in Hout. rewrite zlen_bytes in Hx by lia. rewrite !arr_bytes, Hm.
    destruct (Z.leb_spec 0 x), (Z.ltb_spec x sz), (Z.ltb_spec x (size n)),
      (Z.leb_spec (data n + offset) (data n + x)), (Z.ltb_spec (data n + x) (data n + offset + len));
      simpl; done || lia.
  - intros x Hx. rewrite arr_bytes, Hm. destruct (Z.leb_spec 0 x), (Z.ltb_spec x sz),
      (Z.leb_spec (data n + offset) (data n + x)); simpl; done || lia.
Qed.
End write.

(** What a write leaves: on an error nothing changed; else the data are in the
    file, and a hole before them shows the bytes that were in memory. *)
Lemma wp_tmpfs_write s k i c src offset len (Q : Z -> tmpfs H -> Prop) :
  tmpfs_inv s k -> content s i = Some c -> 0 <= offset -> 0 <= len <= zlen src -> offset + len <= file_limit ->
  Q (NM_ERR NM_EFAIL) s ->
  (forall s' c', tmpfs_inv s' k -> same_tree (nodes s) (nodes s') -> content s' i = Some c' ->
     written c offset (take (Z.to_nat len) src) c' -> (forall j, j <> i -> content s' j = content s j) ->
     (exists n, arr (nodes s') i = Some n /\
        forall x, zlen c <= x < offset -> arr c' x = Some (ram s (data n + x))) -> Q len s') ->
  wp (tmpfs_write (Some i) (Some src) offset len) Q s.
Proof.
  intros Hi Hc Ho Hl Hlim Hfail Hok. pose proof Hc as (n & Hn & Hu & Hty & Ec)%content_inv.
  assert (H62 : file_limit <= 2 ^ 62) by (unfold file_limit; lia).
  unfold tmpfs_write. wp_step. eapply wp_rd; [done|]. rewrite bool_decide_true by done. cbn [negb].
  rewrite u64_small by lia. wp_step. eapply wp_reserve; [done|done|done|lia| |]; [by wp_go|].
  intros s1 n1 [Hi1 Hnodes Hshape Hsize Hroom Hcont Hram].
  assert (Hn1 : arr (nodes s1) i = Some n1) by (rewrite Hnodes; apply arr_upd_eq; by eapply arr_range).
  pose proof Hshape as Es. shape_eq Es.
  destruct (buffer_bounds _ _ (di_buffer _ _ (fi_data _ _ Hi1) _ _ Hn1 ltac:(congruence))) as (Hsz & _ & Hd' & _).
  cbn [negb Z.eqb]. wp_step.
  apply (wp_for_all (fun j t => nodes t = nodes s1 /\ heap t = heap s1 /\ next_ino t = next_ino s1 /\
    tmpfs_root t = tmpfs_root s1 /\
    stored (ram s1) (ram t) (fun x => default 0 (arr src x)) (data n1 + offset) j)); [lia| | |].
  - split_and!; try done. apply stored_nil.
  - intros j t Hj (Hnt & Hht & Hit & Hrt & Hst). wp_step. eapply wp_rd; [by rewrite Hnt|]. wp_step.
    destruct (arr_lookup src j) as [x Hx]; [lia|]. eapply wp_rd; [done|].
    rewrite u64_small by lia. apply wp_store_byte; [lia|lia|]. simpl. rewrite Z.add_assoc.
    split_and!; [done..|]. apply stored_snoc; [lia|done|]. by rewrite Hx.
  - intros t (Hnt & Hht & Hit & Hrt & Hst). wp_step. eapply wp_rd; [by rewrite Hnt|]. wp_step.
    destruct t as [tn ti tr th tm]. simpl in *. subst tn ti tr th.
    set (s2 := set_ram tm (set_nodes (upd (nodes s1) i (set_size (Z.max (size n1) (offset + len)) n1)) s1)).
    assert (Hend : Q len s2).
    { assert (Hc1 : c = bytes (ram s1) (data n1) (size n1)).
      { specialize (Hcont i). rewrite Hc in Hcont.
        apply content_inv in Hcont as (n1' & Hn1' & _ & _ & ->). by simplify_eq. }
      assert (Hu1 : used n1 = true) by congruence. assert (Hty1 : type n1 = NM_NODE_FILE) by congruence.
      destruct (write_content s1 k i n1 src offset len tm Hi1 Hn1 Hu1 Hty1 Ho Hl Hst) as (c' & Hc' & Hw & Hhole).
      apply (Hok s2 c'); [by apply write_inv| |done|by rewrite Hc1| |].
      - symmetry. unfold s2. etrans; [by eapply write_tree|]. rewrite Hnodes. by eapply same_tree_upd.
      - intros j Hj. rewrite <- Hcont. by eapply (write_other s1 k i n1 src offset len tm).
      - eexists. split; [apply arr_upd_eq; by eapply arr_range|]. intros x. rewrite Hc1, zlen_bytes by lia.
        intros Hx. rewrite Hhole by done. simpl. by rewrite Hram by lia. }
    destruct (Z.ltb_spec (size n1) (offset + len)) as [Hlt|Hge].
    + eapply wp_modify_at; [done|]. apply wp_ret. simpl. rewrite i64_small by lia.
      unfold s2 in Hend. by rewrite Z.max_r in Hend by lia.
    + apply wp_ret, wp_ret. rewrite i64_small by lia. unfold s2 in Hend. rewrite Z.max_l in Hend by lia.
      replace (set_size (size n1) n1) with n1 in Hend by (by destruct n1). by rewrite upd_id in Hend.
Qed.

(** ** The promise to the virtual file system *)

Definition node_in s (i : Z) : Prop := exists n, arr (nodes s) i = Some n /\ used n = true.
Definition mounted s : Prop := exists k, tmpfs_inv s k.

#[export] Instance tmpfs_Vnodes : Vnodes (tmpfs H) := {
  vnode_at := fun s => arr (nodes s);
  file_ops_at := fun a => if a =? TMPFS_FILE_OPS then tmpfs_file_ops else mk_file_ops None None None None;
}.

Lemma tmpfs_node_law s i : mounted s -> node_in s i ->
  exists v, arr (nodes s) i = Some v /\ ops v = TMPFS_FILE_OPS /\ 0 <= size v < 2 ^ 63 /\
    (forall c, content s i = Some c -> size v = zlen c).
Proof.
  intros [k Hi] (v & Hv & Hu). exists v.
  destruct (buffer_bounds _ _ (di_buffer _ _ (fi_data _ _ Hi) _ _ Hv Hu)) as (Hsz & Hd & _ & Hb).
  split_and!; [done|apply (tree_live _ _ _ _ (fi_tree _ _ Hi) Hv Hu)|lia|lia|].
  intros c (v' & Hv' & _ & _ & ->)%content_inv. simplify_eq. by rewrite zlen_bytes by lia.
Qed.

Lemma tmpfs_create_law s d nm md (Q : option Z -> tmpfs H -> Prop) :
  mounted s -> node_in s d -> name_ok nm -> entry s d nm = None -> Q None s ->
  (forall n s', mounted s' -> node_in s' n -> ~ node_in s n -> (forall m, node_in s m -> node_in s' m) ->
     (forall d' nm', entry s' d' nm' = if bool_decide (d' = d /\ nm' = nm) then Some n else entry s d' nm') ->
     (forall m, content s' m = if m =? n then Some [] else content s m) -> Q (Some n) s') ->
  wp (tmpfs_create (Some d) (Some nm) NM_NODE_FILE md) Q s.
Proof.
  intros [k Hi] (dn & Hd & Hu) Hnm Hno Hfail Hok. pose proof (fi_tree _ _ Hi) as Ht.
  eapply wp_tmpfs_create; [done|done|done|done|done|]. intros s' _ _ [Hi' He Hc Hnodes (n' & Hn' & Hu' & _)].
  apply (Hok k s'); [by exists (k + 1)|by exists n'| | |done|done].
  - intros (v & Hv & Huv). apply (tree_used _ _ _ _ Ht Hv) in Huv. lia.
  - intros m (v & Hv & Huv). apply (tree_used _ _ _ _ Ht Hv) in Huv.
    destruct (Hnodes _ _ Hv) as (v' & ? & ? & _); [lia|]. by exists v'.
Qed.

Lemma wp_read_dir s i n offset len (Q : Z * list Z -> tmpfs H -> Prop) :
  arr (nodes s) i = Some n -> type n <> NM_NODE_FILE -> Q (NM_ERR NM_EFAIL, []) s ->
  wp (tmpfs_read (Some i) true offset len) Q s.
Proof.
  intros Hn Hty HQ. unfold tmpfs_read. wp_step. eapply wp_rd; [done|].
  rewrite bool_decide_false by done. by apply wp_ret.
Qed.

Lemma wp_write_dir s i n src offset len (Q : Z -> tmpfs H -> Prop) :
  arr (nodes s) i = Some n -> type n <> NM_NODE_FILE -> Q (NM_ERR NM_EFAIL) s ->
  wp (tmpfs_write (Some i) (Some src) offset len) Q s.
Proof.
  intros Hn Hty HQ. unfold tmpfs_write. wp_step. eapply wp_rd; [done|].
  rewrite bool_decide_false by done. by apply wp_ret.
Qed.

Lemma content_none s i n : arr (nodes s) i = Some n -> used n = true -> content s i = None -> type n <> NM_NODE_FILE.
Proof. unfold content. intros -> Hu. simpl. rewrite Hu. simpl. by case_bool_decide. Qed.

Lemma tmpfs_read_law s i offset len (Q : Z * list Z -> tmpfs H -> Prop) :
  mounted s -> node_in s i -> 0 <= offset -> 0 <= len ->
  match content s i with
  | Some c => Q (zlen (slice c offset len), slice c offset len) s
  | None => Q (NM_ERR NM_EFAIL, []) s
  end -> wp (tmpfs_read (Some i) true offset len) Q s.
Proof.
  intros [k Hi] (n & Hn & Hu) Ho Hl HQ. destruct (content s i) as [c|] eqn:Hc; [by eapply wp_tmpfs_read|].
  eapply wp_read_dir; [done|by eapply content_none|done].
Qed.

Lemma tmpfs_write_law s i d offset len (Q : Z -> tmpfs H -> Prop) :
  mounted s -> node_in s i -> 0 <= offset -> 0 <= len <= zlen d -> offset + len <= file_limit ->
  Q (NM_ERR NM_EFAIL) s ->
  (forall s' c c', content s i = Some c -> written c offset (take (Z.to_nat len) d) c' -> mounted s' ->
     (forall m, node_in s m <-> node_in s' m) -> (forall d nm, entry s' d nm = entry s d nm) ->
     (forall m, content s' m = if m =? i then Some c' else content s m) -> Q len s') ->
  wp (tmpfs_write (Some i) (Some d) offset len) Q s.
Proof.
  intros [k Hi] (n & Hn & Hu) Ho Hl Hlim Hfail Hok. destruct (content s i) as [c|] eqn:Hc.
  - eapply wp_tmpfs_write; [done..|]. intros s' c' Hi' Hs Hc' Hw Hother _.
    apply (Hok s' c c'); [done|done|by exists k| |by intros; apply entry_same|].
    + intros m. split; intros (v & Hv & Huv).
      * destruct (same_tree_arr _ _ _ _ Hs Hv) as (v' & Hv' & E). shape_eq E. exists v'. split; congruence.
      * symmetry in Hs. destruct (same_tree_arr _ _ _ _ Hs Hv) as (v' & Hv' & E). shape_eq E.
        exists v'. split; congruence.
    + intros m. destruct (Z.eqb_spec m i) as [->|Hm]; [done|by apply Hother].
  - eapply wp_write_dir; [done|by eapply content_none|done].
Qed.

#[export] Program Instance tmpfs_MountedFs : MountedFs (tmpfs H) := {
  mf_open := tmpfs_open; mf_read := tmpfs_read; mf_write := tmpfs_write; mf_stat := tmpfs_stat;
  mf_mount_root := tmpfs_mount_root; mf_lookup := tmpfs_lookup; mf_create := tmpfs_create;
  mf_raw := fun s => table_ok s /\ heap_ok (heap s); mf_ok := mounted; mf_root := 0; is_node := node_in;
  Fs.entry := entry; Fs.content := content; mf_limit := file_limit;
  create_law := tmpfs_create_law; read_law := tmpfs_read_law; write_law := tmpfs_write_law;
}.
Next Obligation. unfold file_limit. lia. Qed.
Next Obligation.
  intros s [k Hi]. pose proof (ti_len _ _ (fi_tree _ _ Hi)). pose proof (ti_count _ _ (fi_tree _ _ Hi)).
  destruct (arr_lookup (nodes s) 0) as [n Hn]; [unfold TMPFS_MAX_NODES in *; lia|]. exists n. split; [done|].
  apply (tree_used _ _ _ _ (fi_tree _ _ Hi) Hn). lia.
Qed.
Next Obligation.
  intros s d nm n _ (v & Hv & (Hu & _)%named_iff & _)%find_idx_Some. by exists v.
Qed.
Next Obligation.
  intros s n Hm Hn. destruct (tmpfs_node_law s n Hm Hn) as (v & Hv & Ho & Hs & Hc). exists v.
  simpl. rewrite Ho. split_and!; [done|unfold TMPFS_FILE_OPS; lia|done|lia|lia|done].
Qed.
Next Obligation.
  intros s Q [Ht Hh] HQ. apply wp_mount; [done|done|]. intros s' Hi He _ _. apply HQ; [by exists 1|apply He].
Qed.
Next Obligation. intros s d nm Q [k Hi] (n & Hn & Hu) HQ. eapply wp_lookup; [apply Hi|done|done|done]. Qed.
Next Obligation.
  intros s n v Q _ _ Hv HQ. unfold tmpfs_stat. simpl in Hv. wp_step. cbn [negb]. wp_step. eapply wp_rd; [exact Hv|]. wp_step. by apply HQ.
Qed.
Next Obligation. intros s n fl Q HQ. by apply wp_ret. Qed.

(** ** Properties *)

(** C20: [tmpfs_create] adds one entry to the tree.  Creating under a directory a
    name it does not have makes, while a node is free, the next node with the next
    inode number, enters it under that name and no other, leaves every other
    entry and every file as they were, and keeps the tree in order; in every other
    case it answers null and changes nothing. *)
Theorem tmpfs_create_spec s k d dn nm ty md :
  tmpfs_inv s k -> arr (nodes s) d = Some dn -> used dn = true -> name_ok nm ->
  wp (tmpfs_create (Some d) (Some nm) ty md) (fun r s' =>
    if bool_decide (type dn = NM_NODE_DIR /\ entry s d nm = None /\ k < TMPFS_MAX_NODES)
    then r = Some k /\ created s k d nm ty s' else r = None /\ s' = s) s.
Proof.
  intros Hi Hd Hu Hnm. pose proof (ti_count _ _ (fi_tree _ _ Hi)).
  eapply wp_tmpfs_create; [done|done|done|done| |].
  - intros Hwhy. rewrite bool_decide_false; [done|]. intros (Hdir & Hno & Hk).
    destruct Hwhy as [?|[[? ?]|?]]; [done|congruence|lia].
  - intros s' Hdir Hno Hc. rewrite bool_decide_true; [done|]. split_and!; [done|done|].
    pose proof (ti_count _ _ (fi_tree _ _ (cr_inv _ _ _ _ _ _ Hc))). lia.
Qed.

(** [tmpfs_lookup] follows the sibling list of a directory to its end or to
    the node of that name, and so answers the entry of the directory, whatever
    the order of creation; it changes nothing. *)
Theorem tmpfs_lookup_spec s k d dn nm :
  tmpfs_inv s k -> arr (nodes s) d = Some dn -> used dn = true ->
  wp (tmpfs_lookup (Some d) (Some nm)) (fun r s' => r = entry s d nm /\ s' = s) s.
Proof. intros Hi Hd Hu. by eapply wp_lookup; [apply Hi|..]. Qed.

(** C21: a file is a sequence of bytes.  A write that starts within the file or
    at its end either fails and changes nothing or splices the data into the
    contents of the file, the buffer having been moved and doubled as needed,
    and leaves every other file alone; a read of any range then answers what the
    new contents have there. *)
Theorem tmpfs_write_read s k i c src offset len o2 l2 :
  tmpfs_inv s k -> content s i = Some c -> 0 <= offset <= zlen c -> 0 <= len <= zlen src ->
  offset + len <= file_limit -> 0 <= o2 -> 0 <= l2 ->
  wp (r ← tmpfs_write (Some i) (Some src) offset len; x ← tmpfs_read (Some i) true o2 l2; mret (r, x))
    (fun res s' => tmpfs_inv s' k /\
       let c' := if res.1 =? len then splice c offset (take (Z.to_nat len) src) else c in
       (res.1 = len \/ res.1 = NM_ERR NM_EFAIL) /\
       res.2 = (zlen (slice c' o2 l2), slice c' o2 l2) /\
       (forall j, content s' j = if j =? i then Some c' else content s j)) s.
Proof.
  intros Hi Hc Ho Hl Hlim Ho2 Hl2. wp_step. eapply wp_tmpfs_write; [done|done|lia|done|done| |].
  - wp_step. eapply wp_tmpfs_read; [done|done|done|done|]. apply wp_ret. split; [done|]. cbn [fst snd]. cbv zeta.
    destruct (Z.eqb_spec (NM_ERR NM_EFAIL) len) as [E|]; [unfold NM_ERR, NM_EFAIL in E; lia|].
    split_and!; [by right|done|]. intros j. by destruct (Z.eqb_spec j i) as [->|].
  - intros s' c' Hi' _ Hc' Hw%written_splice Hother _; [|done]. subst c'.
    wp_step. eapply wp_tmpfs_read; [done|done|done|done|]. apply wp_ret. split; [done|]. simpl. rewrite Z.eqb_refl.
    split_and!; [by left|done|]. intros j. destruct (Z.eqb_spec j i) as [->|Hj]; [done|by apply Hother].
Qed.

(** A hole shows old memory.  A write past the end of a file without a
    buffer leaves the bytes of the hole as the heap had them: reading the file
    answers the previous contents of that memory, not zeros. *)
Theorem hole_shows_memory s k i src offset len :
  tmpfs_inv s k -> content s i = Some [] -> 0 < offset -> 0 <= len <= zlen src -> offset + len <= file_limit ->
  wp (r ← tmpfs_write (Some i) (Some src) offset len; x ← tmpfs_read (Some i) true 0 offset; mret (r, x))
    (fun res s' => res.1 = len -> exists n, arr (nodes s') i = Some n /\
       res.2 = (offset, bytes (ram s) (data n) offset)) s.
Proof.
  intros Hi Hc Ho Hl Hlim. wp_step. eapply wp_tmpfs_write; [done|done|lia|done|done| |].
  - wp_step. eapply wp_tmpfs_read; [done|done|lia|lia|]. apply wp_ret. simpl. unfold NM_ERR, NM_EFAIL. lia.
  - intros s' c' Hi' _ Hc' Hw _ (n & Hn & Hhole). wp_step. eapply wp_tmpfs_read; [done|done|lia|lia|].
    apply wp_ret. intros _. exists n. split; [done|]. simpl.
    assert (Hlen : offset <= zlen c') by (rewrite (wr_len _ _ _ _ Hw); unfold zlen; simpl; lia).
    rewrite zlen_slice, Z.min_l by lia. f_equal. apply arr_ext.
    + rewrite zlen_slice, zlen_bytes by lia. lia.
    + intros x. rewrite arr_slice, arr_bytes by lia. simpl.
      destruct (Z.leb_spec 0 x), (Z.ltb_spec x offset); simpl; try done. apply Hhole. unfold zlen. simpl. lia.
Qed.

Lemma doubled_small e need : 0 <= e -> 2 ^ 63 < need -> u64 (64 * 2 ^ e) < need.
Proof.
  intros He Hneed. rewrite cap_pow by done. destruct (decide (6 + e < 64)).
  - assert (2 ^ (6 + e) <= 2 ^ 63) by (apply Z.pow_le_mono_r; lia).
    rewrite u64_small by (pose proof (Z.pow_pos_nonneg 2 (6 + e)); lia). lia.
  - unfold u64. change 18446744073709551616 with (2 ^ 64).
    replace (6 + e) with (64 + (e - 58)) by lia. rewrite Z.pow_add_r, Z.mul_comm, Z.mod_mul by lia. lia.
Qed.

(** A write that ends past [2^63] never returns.  The capacity doubles
    through the powers of two to zero and stays there, below the size that is
    needed: whatever number of turns the loop is given, it is not enough. *)
Theorem write_past_half_hangs fuel s need :
  2 ^ 63 < need < 2 ^ 64 -> grow fuel 64 need s = Stuck OutOfFuel.
Proof.
  intros Hneed. cut (forall e, 0 <= e -> grow fuel (u64 (64 * 2 ^ e)) need s = Stuck OutOfFuel).
  { intros Hall. exact (Hall 0 ltac:(lia)). }
  induction fuel as [|fuel IH]; intros e He; cbn [grow];
    rewrite (proj2 (Z.ltb_lt _ _) (doubled_small e need He (proj1 Hneed))); [done|].
  replace (u64 (u64 (64 * 2 ^ e) * 2)) with (u64 (64 * 2 ^ (e + 1))); [apply IH; lia|].
  unfold u64. rewrite Z.mul_mod_idemp_l, Z.pow_add_r by lia. f_equal. lia.
Qed.
End ops.

(** *** A concrete file system, on the heap of the two-megabyte machine *)

#[local] Existing Instance Kheap.kheap_KHeap.

Definition blank : nm_vnode :=
  mk_vnode false 0 NM_NODE_NONE (replicate 64 0) 0 0 0 None None None 0 0 0 0 0.
Definition fs0 : tmpfs Kheap.kheap :=
  mk_tmpfs (replicate 512 blank) 2 None Kheap.heap0 (fun a => a `mod` 251).
Definition fs1 : tmpfs Kheap.kheap := Eval vm_compute in
  match tmpfs_mount_root fs0 with Done _ s => s | Stuck _ => fs0 end.
(** The root with one file, of the name "f". *)
Definition fs2 : tmpfs Kheap.kheap := Eval vm_compute in
  match tmpfs_create (Some 0) (Some [102]) NM_NODE_FILE 420 fs1 with Done _ s => s | Stuck _ => fs1 end.

Lemma fs0_raw : table_ok fs0 /\ heap_ok (heap fs0).
Proof.
  split; [split; [done|]|exists []; exact Kheap.heap0_inv].
  intros i n Hn%arr_elem. apply elem_of_replicate in Hn as [-> _]. done.
Qed.

Lemma fs1_inv : tmpfs_inv fs1 1.
Proof.
  assert (Hw : wp tmpfs_mount_root (fun _ s => tmpfs_inv s 1) fs0).
  { apply wp_mount; [apply fs0_raw|apply fs0_raw|by intros]. }
  refine (wp_result _ _ _ (Some 0) fs1 Hw _). vm_compute. reflexivity.
Qed.

Lemma fs2_inv : tmpfs_inv fs2 2.
Proof.
  assert (Hw : wp (tmpfs_create (Some 0) (Some [102]) NM_NODE_FILE 420)
    (fun r s => r = None \/ tmpfs_inv s 2) fs1).
  { eapply wp_tmpfs_create; [exact fs1_inv|reflexivity|reflexivity| |by left|].
    - split; [by repeat constructor|done].
    - intros s' _ _ Hc. right. exact (cr_inv _ _ _ _ _ _ Hc). }
  destruct (wp_result _ _ _ (Some 1) fs2 Hw) as [|Hi]; [vm_compute; reflexivity|done|exact Hi].
Qed.

Lemma fs_limit : 1000 <= file_limit (H := Kheap.kheap).
Proof. pose proof (file_limit_min (H := Kheap.kheap)). lia. Qed.

Lemma tmpfs_create_witness : exists dn,
  arr (nodes fs2) 0 = Some dn /\
  wp (tmpfs_create (Some 0) (Some [103]) NM_NODE_FILE 420) (fun r s' =>
    if bool_decide (type dn = NM_NODE_DIR /\ entry fs2 0 [103] = None /\ 2 < TMPFS_MAX_NODES)
    then r = Some 2 /\ created fs2 2 0 [103] NM_NODE_FILE s' else r = None /\ s' = fs2) fs2.
Proof.
  eexists. split; [reflexivity|]. apply tmpfs_create_spec; [exact fs2_inv|reflexivity|reflexivity|].
  split; [by repeat constructor|done].
Defined.

Lemma tmpfs_lookup_witness :
  entry fs2 0 [102] = Some 1 /\
  wp (tmpfs_lookup (Some 0) (Some [102])) (fun r s' => r = entry fs2 0 [102] /\ s' = fs2) fs2.
Proof. split; [reflexivity|]. eapply (tmpfs_lookup_spec fs2 2 0); [exact fs2_inv|reflexivity|reflexivity]. Defined.

Lemma tmpfs_write_read_witness :
  content fs2 1 = Some [] /\
  wp (r ← tmpfs_write (Some 1) (Some [1; 2; 3; 4]) 0 3; x ← tmpfs_read (Some 1) true 1 10; mret (r, x))
    (fun res s' => tmpfs_inv s' 2 /\
       let c' := if res.1 =? 3 then splice [] 0 (take (Z.to_nat 3) [1; 2; 3; 4]) else [] in
       (res.1 = 3 \/ res.1 = NM_ERR NM_EFAIL) /\
       res.2 = (zlen (slice c' 1 10), slice c' 1 10) /\
       (forall j, content s' j = if j =? 1 then Some c' else content fs2 j)) fs2.
Proof.
  split; [reflexivity|]. apply (tmpfs_write_read fs2 2 1 [] [1; 2; 3; 4] 0 3 1 10);
    [exact fs2_inv|reflexivity|done|done|pose proof fs_limit; lia|lia|lia].
Defined.

Lemma hole_shows_memory_witness :
  wp (r ← tmpfs_write (Some 1) (Some [9]) 5 1; x ← tmpfs_read (Some 1) true 0 5; mret (r, x))
    (fun res s' => res.1 = 1 -> exists n, arr (nodes s') 1 = Some n /\
       res.2 = (5, bytes (ram fs2) (data n) 5)) fs2.
Proof.
  apply (hole_shows_memory fs2 2 1 [9] 5 1);
    [exact fs2_inv|reflexivity|lia|done|pose proof fs_limit; lia].
Defined.

Lemma write_past_half_witness : grow 1000 64 (2 ^ 63 + 1) fs2 = Stuck OutOfFuel.
Proof. apply (write_past_half_hangs 1000 fs2 (2 ^ 63 + 1)). lia. Defined.

(** The write and the read above, run. *)
Example write_read_run :
  match (r ← tmpfs_write (Some 1) (Some [1; 2; 3; 4]) 0 3; x ← tmpfs_read (Some 1) true 1 10; mret (r, x)) fs2 with
  | Done res _ => res = (3, (2, [2; 3]))
  | Stuck _ => False
  end.
Proof. vm_compute. reflexivity. Qed.
End Tmpfs.
