(* ===== verification/Ext2.v ===== *)
(** * The ext2 file system ([kernel/fs/ext2.c])

    A root directory, a table of 256 nodes that are handed out in order and never
    given back, and the table of inode data.  A pointer to a node is its index,
    [EXT2_ROOT] for the static root.  The kernel build gives a file no buffer. *)

From S2P Require Import Prelude Fs.

Module Ext2.

Definition EXT2_MAX_INODES : Z := 1024.
Definition EXT2_NODES : Z := 256.
Definition EXT2_ROOT : Z := 256.

Record ext2_inode_meta := mk_meta { m_mode : Z; m_uid : Z; m_gid : Z; m_links : Z; m_blocks : Z }.

(** The static data of [ext2.c], with the bytes of memory that a node's buffer
    would lie in. *)
Record ext2 := mk_ext2 {
  inode_meta : list ext2_inode_meta;
  ext2_root : nm_vnode;
  ext2_nodes : list nm_vnode;
  ext2_node_cursor : Z;
  ram : Z -> Z;
}.

Definition set_meta v s := mk_ext2 v (ext2_root s) (ext2_nodes s) (ext2_node_cursor s) (ram s).
Definition set_root v s := mk_ext2 (inode_meta s) v (ext2_nodes s) (ext2_node_cursor s) (ram s).
Definition set_nodes v s := mk_ext2 (inode_meta s) (ext2_root s) v (ext2_node_cursor s) (ram s).
Definition set_cursor v s := mk_ext2 (inode_meta s) (ext2_root s) (ext2_nodes s) v (ram s).
Definition set_ram v s := mk_ext2 (inode_meta s) (ext2_root s) (ext2_nodes s) (ext2_node_cursor s) v.

(** The node behind a pointer. *)
Definition node_at (s : ext2) (p : Z) : option nm_vnode :=
  if p =? EXT2_ROOT then Some (ext2_root s) else arr (ext2_nodes s) p.
Definition get_node (p : Z) : M ext2 nm_vnode :=
  if p =? EXT2_ROOT then gets ext2_root else rd ext2_nodes p.
Definition mod_node (p : Z) (f : nm_vnode -> nm_vnode) : M ext2 unit :=
  if p =? EXT2_ROOT then modify (fun s => set_root (f (ext2_root s)) s)
  else modify_at ext2_nodes set_nodes p f.
Definition mod_meta (i : Z) (f : ext2_inode_meta -> ext2_inode_meta) : M ext2 unit :=
  modify_at inode_meta set_meta i f.

(** Byte [k] of the [cap] bytes of the buffer at [buf]. *)
Definition load (buf cap k : Z) : M ext2 Z := fun s =>
  if (0 <=? k) && (k <? cap) then Done (ram s (buf + k)) s else Stuck OutOfBounds.
Definition store (buf cap k x : Z) : M ext2 unit := fun s =>
  if (0 <=? k) && (k <? cap)
  then Done tt (set_ram (fun a => if a =? buf + k then x else ram s a) s) else Stuck OutOfBounds.

Definition with_children (c : option Z) (n : nm_vnode) : nm_vnode :=
  mk_vnode (used n) (ino n) (type n) (name n) (uid n) (gid n) (mode n)
    (parent n) c (next_sibling n) (data n) (size n) (capacity n) (ops n) (fs_private n).
Definition with_name (nm : list Z) (n : nm_vnode) : nm_vnode :=
  mk_vnode (used n) (ino n) (type n) nm (uid n) (gid n) (mode n)
    (parent n) (children n) (next_sibling n) (data n) (size n) (capacity n) (ops n) (fs_private n).
Definition with_data (d : Z) (n : nm_vnode) : nm_vnode :=
  mk_vnode (used n) (ino n) (type n) (name n) (uid n) (gid n) (mode n)
    (parent n) (children n) (next_sibling n) d (size n) (capacity n) (ops n) (fs_private n).
Definition with_size (v : Z) (n : nm_vnode) : nm_vnode :=
  mk_vnode (used n) (ino n) (type n) (name n) (uid n) (gid n) (mode n)
    (parent n) (children n) (next_sibling n) (data n) v (capacity n) (ops n) (fs_private n).
Definition with_blocks (v : Z) (m : ext2_inode_meta) : ext2_inode_meta :=
  mk_meta (m_mode m) (m_uid m) (m_gid m) (m_links m) v.

Definition ext2_open (node : option Z) (flags : Z) : M ext2 Z :=
  mret (match node with Some _ => 0 | None => -1 end).

Definition ext2_read (node : option Z) (buf : bool) (offset len : Z) : M ext2 (Z * list Z) :=
  match node with
  | None => mret (0, [])
  | Some p =>
      n ← get_node p;
      if negb buf || (data n =? 0) || (size n <=? offset) then mret (0, []) else
      let remain := u64 (size n - offset) in
      let count := if len <? remain then len else remain in
      dst ← for_acc (upto 0 count) [] (fun dst k =>
        b ← load (data n) (capacity n) (u64 (offset + k)); mret (dst ++ [b]));
      mret (i64 count, dst)
  end.

Definition ext2_write (node : option Z) (buf : option (list Z)) (offset len : Z) : M ext2 Z :=
  match node, buf with
  | Some p, Some src =>
      n ← get_node p;
      if data n =? 0 then mret (NM_ERR NM_EFAIL) else
      if capacity n <? u64 (offset + len) then mret (NM_ERR NM_EFAIL) else
      for_all (upto 0 len) (fun k =>
        x ← rd (fun _ => src) k; store (data n) (capacity n) (u64 (offset + k)) x) ;;
      (if size n <? u64 (offset + len) then mod_node p (with_size (u64 (offset + len))) else mret tt) ;;
      n ← get_node p;
      (if ino n <? EXT2_MAX_INODES
       then mod_meta (ino n) (with_blocks (u32 (u64 (size n + 511) / 512))) else mret tt) ;;
      mret (i64 len)
  | _, _ => mret (NM_ERR NM_EFAIL)
  end.

Definition ext2_stat (node : option Z) (st : bool) : M ext2 (Z * option nm_stat) :=
  match node with
  | Some p =>
      n ← get_node p;
      if negb st || (EXT2_MAX_INODES <=? ino n) then mret (NM_ERR NM_EFAIL, None) else
      m ← rd inode_meta (ino n);
      mret (0, Some (mk_stat (ino n) (size n) (m_mode m) (m_uid m) (m_gid m) (m_links m) (m_blocks m)))
  | None => mret (NM_ERR NM_EFAIL, None)
  end.

(** The address of the static table [ext2_file_ops]. *)
Definition EXT2_FILE_OPS : Z := 2.

Definition ext2_file_ops : nm_file_ops ext2 :=
  mk_file_ops (Some ext2_open) (Some ext2_read) (Some ext2_write) (Some ext2_stat).

(** The root is named "/", character 47, and has mode 0755. *)
Definition ext2_mount_root : M ext2 (option Z) :=
  mod_node EXT2_ROOT (fun r => mk_vnode true 2 NM_NODE_DIR (upd (upd (name r) 0 47) 1 0) 0 0 493
    None None None 0 0 0 EXT2_FILE_OPS (fs_private r)) ;;
  mod_meta 2 (fun _ => mk_meta 493 0 0 1 0) ;;
  mret (Some EXT2_ROOT).

(** The comparison of a name buffer with a string: [None] when the buffer ends
    before a NUL or a difference. *)
Fixpoint names_match (buf nm : list Z) : option bool :=
  match buf, nm with
  | [], _ => None
  | c :: buf, [] => Some (c =? 0)
  | c :: buf, x :: nm => if negb (c =? 0) && (c =? x) then names_match buf nm else Some false
  end.

(** The walk along the siblings, whose indices decrease. *)
Fixpoint find_child (fuel : nat) (cur : option Z) (nm : list Z) : M ext2 (option Z) :=
  match cur, fuel with
  | None, _ => mret None
  | Some _, O => stuck OutOfFuel
  | Some p, S fuel =>
      n ← get_node p;
      match names_match (name n) nm with
      | None => stuck OutOfBounds
      | Some true => mret (Some p)
      | Some false => find_child fuel (next_sibling n) nm
      end
  end.

Definition ext2_lookup (dir : option Z) (nm : option (list Z)) : M ext2 (option Z) :=
  match dir, nm with
  | Some d, Some nm => n ← get_node d; find_child (Z.to_nat EXT2_NODES) (children n) nm
  | _, _ => mret None
  end.

(** The copy of a name: each character is followed by a NUL; an empty name leaves
    the buffer as it is. *)
Definition put_name (buf nm : list Z) : M ext2 (list Z) :=
  for_acc (upto 0 (Z.min (zlen nm) (NM_NAME_MAX - 1))) buf (fun buf i =>
    c ← rd (fun _ => nm) i; mret (upd (upd buf i c) (i + 1) 0)).

Definition ext2_create (dir : option Z) (nm : option (list Z)) (ty : nm_node_type) (md : Z) :
    M ext2 (option Z) :=
  match dir, nm with
  | Some d, Some nm' =>
      dn ← get_node d;
      if negb (bool_decide (type dn = NM_NODE_DIR)) then mret None else
      c ← gets ext2_node_cursor;
      if EXT2_NODES <=? c then mret None else
      old ← ext2_lookup dir nm;
      if bool_decide (is_Some old) then mret None else
      c ← gets ext2_node_cursor;
      modify (set_cursor (u32 (c + 1))) ;;
      c' ← gets ext2_node_cursor;
      dn ← get_node d;
      mod_node c (fun n => mk_vnode true (u32 (12 + c')) ty (name n) 0 0 md (Some d) None (children dn) 0 0 4096
        EXT2_FILE_OPS 0) ;;
      n ← get_node c;
      buf ← put_name (name n) nm';
      mod_node c (with_name buf) ;;
      mod_node c (with_data 0) ;;
      n ← get_node c;
      (if ino n <? EXT2_MAX_INODES then mod_meta (ino n) (fun _ => mk_meta md 0 0 1 0) else mret tt) ;;
      mod_node d (with_children (Some c)) ;;
      mret (Some c)
  | _, _ => mret None
  end.

Definition ext2_ops : nm_fs_ops ext2 := mk_fs_ops (Some ext2_mount_root) ext2_lookup (Some ext2_create).

(** ** Specification: each directory maps names to nodes *)

(** A link to a node below [b], or none. *)
Definition below (b : Z) (p : option Z) : Prop := forall i, p = Some i -> 0 <= i < b.

Definition named (n : nm_vnode) (nm : list Z) : bool := bool_decide (names_match (name n) nm = Some true).

(** The first node with a name from [p] along the siblings. *)
Fixpoint find_named (fuel : nat) (ns : list nm_vnode) (p : option Z) (nm : list Z) : option Z :=
  match p, fuel with
  | Some i, S fuel =>
      match arr ns i with
      | Some n => if named n nm then Some i else find_named fuel ns (next_sibling n) nm
      | None => None
      end
  | _, _ => None
  end.

Definition node_in (s : ext2) (p : Z) : Prop := p = EXT2_ROOT \/ 0 <= p < ext2_node_cursor s.

#[export] Instance node_in_dec s p : Decision (node_in s p) := _.

Definition entry (s : ext2) (d : Z) (nm : list Z) : option Z :=
  if decide (node_in s d)
  then n ← node_at s d; find_named (Z.to_nat EXT2_NODES) (ext2_nodes s) (children n) nm else None.

(** A file has no buffer, so it is empty. *)
Definition content (s : ext2) (p : Z) : option (list Z) := if decide (node_in s p) then Some [] else None.

Record node_ok (k i : Z) (n : nm_vnode) : Prop := mk_node_ok {
  no_ino : 0 <= ino n < EXT2_MAX_INODES;
  no_ops : ops n = EXT2_FILE_OPS;
  no_data : data n = 0;
  no_size : size n = 0;
  no_children : below k (children n);
  no_sibling : below i (next_sibling n);
  no_name : i < EXT2_ROOT -> is_Some (cstr_of (name n));
}.

(** The first [k] nodes are in use; a sibling of a node was made before it. *)
Record ext2_inv (s : ext2) : Prop := mk_ext2_inv {
  ei_cursor : 0 <= ext2_node_cursor s <= EXT2_NODES;
  ei_nodes : zlen (ext2_nodes s) = EXT2_NODES;
  ei_meta : zlen (inode_meta s) = EXT2_MAX_INODES;
  ei_root : type (ext2_root s) = NM_NODE_DIR;
  ei_node p n : node_in s p -> node_at s p = Some n -> node_ok (ext2_node_cursor s) p n;
  ei_free i n : ext2_node_cursor s <= i -> arr (ext2_nodes s) i = Some n ->
    zlen (name n) = NM_NAME_MAX /\ head (name n) = Some 0;
}.

(** *** Nodes behind pointers *)

Lemma node_at_inner s p : 0 <= p < EXT2_NODES -> node_at s p = arr (ext2_nodes s) p.
Proof. intros Hp. unfold node_at. destruct (Z.eqb_spec p EXT2_ROOT); [unfold EXT2_ROOT, EXT2_NODES in *; lia|done]. Qed.

Lemma wp_get_node s p n (Q : nm_vnode -> ext2 -> Prop) :
  node_at s p = Some n -> Q n s -> wp (get_node p) Q s.
Proof.
  unfold node_at, get_node. intros Hn HQ. destruct (p =? EXT2_ROOT); [|by eapply wp_rd].
  injection Hn as <-. by apply wp_gets.
Qed.

Definition put_node (p : Z) (n : nm_vnode) (s : ext2) : ext2 :=
  if p =? EXT2_ROOT then set_root n s else set_nodes (upd (ext2_nodes s) p n) s.

Lemma wp_mod_node s p f n (Q : unit -> ext2 -> Prop) :
  node_at s p = Some n -> Q tt (put_node p (f n) s) -> wp (mod_node p f) Q s.
Proof.
  unfold node_at, mod_node, put_node. intros Hn HQ. destruct (p =? EXT2_ROOT); [|by eapply wp_modify_at].
  injection Hn as <-. by apply wp_modify.
Qed.

Lemma node_in_at s p : ext2_inv s -> node_in s p -> exists n, node_at s p = Some n.
Proof.
  intros Hi [->|Hp]; [by eexists|]. pose proof (ei_cursor _ Hi). rewrite node_at_inner by lia.
  apply arr_lookup. rewrite (ei_nodes _ Hi). lia.
Qed.

Lemma node_at_put s p q n m :
  node_at s p = Some m -> node_at (put_node p n s) q = if p =? q then Some n else node_at s q.
Proof.
  unfold node_at, put_node. intros Hm. destruct (Z.eqb_spec p EXT2_ROOT) as [->|Hp].
  - cbn [ext2_root set_root ext2_nodes]. destruct (Z.eqb_spec q EXT2_ROOT) as [->|]; [by rewrite Z.eqb_refl|].
    by destruct (Z.eqb_spec EXT2_ROOT q).
  - simpl. destruct (Z.eqb_spec q EXT2_ROOT) as [->|]; [by destruct (Z.eqb_spec p EXT2_ROOT)|].
    apply arr_upd. by eapply arr_range.
Qed.

(** *** Names *)

Lemma names_match_str nm rest nm' : Forall (fun c => c <> 0) nm ->
  names_match (nm ++ 0 :: rest) nm' = Some (bool_decide (nm' = nm)).
Proof.
  intros Hnm. revert nm'. induction Hnm as [|c nm Hc Hnm IH]; intros [|x nm']; simpl.
  - done.
  - done.
  - by destruct (Z.eqb_spec c 0).
  - destruct (Z.eqb_spec c 0); [done|]. simpl. destruct (Z.eqb_spec c x) as [->|].
    + rewrite IH. f_equal. apply bool_decide_ext. split; congruence.
    + by rewrite bool_decide_false by congruence.
Qed.

Lemma cstr_of_split buf nm : cstr_of buf = Some nm -> Forall (fun c => c <> 0) nm /\ exists rest, buf = nm ++ 0 :: rest.
Proof.
  revert nm. induction buf as [|c buf IH]; intros nm; simpl; [done|].
  destruct (Z.eqb_spec c 0) as [->|Hc]; [intros [= <-]; split; [done|by exists buf]|].
  destruct (cstr_of buf) as [nm0|]; simpl; [|done]. intros [= <-].
  destruct (IH nm0) as (? & rest & ->); [done|]. split; [by constructor|by exists rest].
Qed.

Lemma named_str n nm' nm : cstr_of (name n) = Some nm' -> named n nm = bool_decide (nm = nm').
Proof.
  intros (Hc & rest & E)%cstr_of_split. unfold named. rewrite E, names_match_str by done.
  apply bool_decide_ext. destruct (bool_decide_reflect (nm = nm')); split; congruence.
Qed.

Lemma wp_put_name s buf nm (Q : list Z -> ext2 -> Prop) :
  zlen buf = NM_NAME_MAX -> head buf = Some 0 -> name_ok nm ->
  (forall rest, Q (nm ++ 0 :: rest) s) -> wp (put_name buf nm) Q s.
Proof.
  intros Hb Hh [Hc Hl] HQ. unfold put_name. pose proof (Zle_0_nat (length nm)) as H0. fold (zlen nm) in H0.
  apply (wp_for_acc (fun i b t => t = s /\ zlen b = NM_NAME_MAX /\ arr b i = Some 0 /\
    forall j, j < i -> arr b j = arr nm j)).
  - unfold NM_NAME_MAX in *. lia.
  - split_and!; [done|done|by destruct buf; simplify_eq/=|]. intros j Hj. by rewrite !arr_none by lia.
  - intros i b t Hi (-> & Hlb & H0i & Hj). destruct (arr_lookup nm i) as [c Hci]; [lia|].
    wp_step. eapply wp_rd; [done|]. wp_step. rewrite !zlen_upd. split_and!; [done|done| |].
    + apply arr_upd_eq. rewrite zlen_upd. unfold NM_NAME_MAX in *. lia.
    + intros j Hjs. rewrite arr_upd_ne by lia. destruct (decide (j = i)) as [->|].
      * rewrite arr_upd_eq; [done|]. unfold NM_NAME_MAX in *. lia.
      * rewrite arr_upd_ne by lia. apply Hj. lia.
  - intros b t (-> & Hlb & H0i & Hj). rewrite Z.min_l in H0i, Hj by (unfold NM_NAME_MAX in *; lia).
    assert (E : b = nm ++ 0 :: drop (S (length nm)) b); [|by rewrite E].
    apply list_eq. intros j. destruct (decide (j < length nm)%nat) as [Hlt|].
    + rewrite lookup_app_l by done. rewrite <- !arr_nat. apply Hj. unfold zlen. lia.
    + rewrite lookup_app_r by lia. destruct (decide (j = length nm)) as [->|].
      * rewrite Nat.sub_diag. rewrite <- arr_nat. done.
      * destruct (j - length nm)%nat as [|m] eqn:Em; [lia|]. simpl. rewrite lookup_drop. f_equal. lia.
Qed.

(** *** Walks *)

Lemma find_named_cons fuel ns i nm n : (0 < fuel)%nat -> arr ns i = Some n ->
  find_named fuel ns (Some i) nm = if named n nm then Some i else find_named (pred fuel) ns (next_sibling n) nm.
Proof. destruct fuel; [lia|]. intros _ Hn. simpl. by rewrite Hn. Qed.

Lemma find_named_ext fuel ns ns' p nm b :
  below b p ->
  (forall i n, 0 <= i < b -> arr ns i = Some n -> below i (next_sibling n) /\
     exists n', arr ns' i = Some n' /\ name n' = name n /\ next_sibling n' = next_sibling n) ->
  b <= zlen ns -> find_named fuel ns' p nm = find_named fuel ns p nm.
Proof.
  revert p b. induction fuel as [|fuel IH]; intros [i|] b Hp Hs Hb; try done. simpl.
  specialize (Hp i eq_refl). destruct (arr_lookup ns i) as [n Hn]; [lia|].
  destruct (Hs i n Hp Hn) as (Hbi & n' & Hn' & Hnm & Hsib). rewrite Hn, Hn'. unfold named. rewrite Hnm, Hsib.
  destruct (bool_decide _); [done|]. apply (IH _ i); [done| |lia]. intros j m Hj. apply Hs. lia.
Qed.

Lemma find_named_fuel fuel fuel' ns p nm b :
  below b p -> (forall i n, 0 <= i < b -> arr ns i = Some n -> below i (next_sibling n)) ->
  b <= Z.of_nat fuel -> b <= Z.of_nat fuel' -> find_named fuel ns p nm = find_named fuel' ns p nm.
Proof.
  revert fuel' p b. induction fuel as [|fuel IH]; intros fuel' [i|] b Hp Hs Hf Hf'; try (by destruct fuel').
  - specialize (Hp i eq_refl). lia.
  - specialize (Hp i eq_refl). destruct fuel' as [|fuel']; [lia|]. simpl.
    destruct (arr ns i) as [n|] eqn:Hn; [|done]. destruct (named n nm); [done|].
    apply (IH _ _ i); [by apply (Hs i)| |lia|lia]. intros j m Hj. apply Hs. lia.
Qed.

Lemma find_named_below fuel ns p nm b i :
  below b p -> (forall i n, 0 <= i < b -> arr ns i = Some n -> below i (next_sibling n)) ->
  find_named fuel ns p nm = Some i -> 0 <= i < b.
Proof.
  revert p b. induction fuel as [|fuel IH]; intros [j|] b Hp Hs; try done. simpl. specialize (Hp j eq_refl).
  destruct (arr ns j) as [n|] eqn:Hn; [|done]. destruct (named n nm); [by intros [= <-]|].
  intros E. assert (0 <= i < j); [|lia]. eapply IH; [by apply (Hs j)| |done]. intros j' m Hj. apply Hs. lia.
Qed.

Lemma siblings_below s : ext2_inv s ->
  forall i n, 0 <= i < ext2_node_cursor s -> arr (ext2_nodes s) i = Some n -> below i (next_sibling n).
Proof.
  intros Hi i n Hr Hn. pose proof (ei_cursor _ Hi). apply (no_sibling (ext2_node_cursor s)), (ei_node _ Hi); [by right|].
  by rewrite node_at_inner by lia.
Qed.

Lemma wp_ext2_find s fuel p b nm (Q : option Z -> ext2 -> Prop) :
  ext2_inv s -> below b p -> b <= ext2_node_cursor s -> b <= Z.of_nat fuel ->
  Q (find_named fuel (ext2_nodes s) p nm) s -> wp (find_child fuel p nm) Q s.
Proof.
  intros Hi. pose proof (ei_cursor _ Hi) as Hk. revert p b. induction fuel as [|fuel IH]; intros [i|] b Hp Hb Hf HQ;
    try by apply wp_ret.
  - specialize (Hp i eq_refl). lia.
  - specialize (Hp i eq_refl). simpl in *. assert (Hin : node_in s i) by (right; lia).
    destruct (node_in_at s i Hi Hin) as [n Hn]. pose proof (ei_node _ Hi _ _ Hin Hn) as Hok.
    destruct (no_name _ _ _ Hok) as [nm' Hnm']; [unfold EXT2_ROOT, EXT2_NODES in *; lia|].
    destruct (cstr_of_split _ _ Hnm') as (Hc & rest & Hbuf).
    rewrite node_at_inner in Hn by lia. rewrite Hn in HQ. wp_step.
    apply (wp_get_node _ _ n); [by rewrite node_at_inner by lia|].
    rewrite (named_str _ nm' nm) in HQ by done. rewrite Hbuf, names_match_str by done. case_bool_decide as E.
    + by apply wp_ret.
    + apply (IH _ i); [apply (no_sibling _ _ _ Hok)|lia|lia|done].
Qed.

(** [ext2_lookup] answers the entry of the directory. *)
Lemma wp_ext2_lookup s d nm (Q : option Z -> ext2 -> Prop) :
  ext2_inv s -> node_in s d -> Q (entry s d nm) s -> wp (ext2_lookup (Some d) (Some nm)) Q s.
Proof.
  intros Hi Hd HQ. destruct (node_in_at s d Hi Hd) as [n Hn]. unfold ext2_lookup, entry in *.
  rewrite decide_True, Hn in HQ by done. cbn [mbind option_bind] in HQ. wp_step. eapply wp_get_node; [done|].
  pose proof (ei_cursor _ Hi). apply (wp_ext2_find _ _ _ (ext2_node_cursor s)); [done| |lia|lia|done].
  apply (no_children _ _ _ (ei_node _ Hi _ _ Hd Hn)).
Qed.

Lemma entry_in s d nm i : ext2_inv s -> entry s d nm = Some i -> node_in s i.
Proof.
  intros Hi. unfold entry. destruct (decide (node_in s d)) as [Hd|]; [|done].
  destruct (node_in_at s d Hi Hd) as [n Hn]. rewrite Hn. cbn [mbind option_bind]. intros E. right.
  eapply find_named_below; [apply (no_children _ _ _ (ei_node _ Hi _ _ Hd Hn))|by apply siblings_below|exact E].
Qed.

(** *** Creation *)

(** The node that [ext2_create] makes, and the state after it is entered in [d]. *)
Definition new_node (k d : Z) (dn : nm_vnode) (nm rest : list Z) (ty : nm_node_type) (md : Z) : nm_vnode :=
  mk_vnode true (13 + k) ty (nm ++ 0 :: rest) 0 0 md (Some d) None (children dn) 0 0 4096 EXT2_FILE_OPS 0.

Definition enter (s : ext2) (d : Z) (dn new : nm_vnode) (md : Z) : ext2 :=
  let k := ext2_node_cursor s in
  put_node d (with_children (Some k) dn)
    (set_meta (upd (inode_meta s) (13 + k) (mk_meta md 0 0 1 0)) (put_node k new (set_cursor (k + 1) s))).

Lemma put_put p n m s : put_node p n (put_node p m s) = put_node p n s.
Proof.
  unfold put_node. destruct (p =? EXT2_ROOT); [done|]. unfold set_nodes. simpl. by rewrite upd_upd.
Qed.

(** The directory [d] got the new entry [nm] for the node [k]. *)
Record created (s : ext2) (k d : Z) (nm : list Z) (ty : nm_node_type) (md : Z) (s' : ext2) : Prop := mk_created {
  cr_inv : ext2_inv s';
  cr_fresh : 0 <= k < EXT2_NODES /\ ~ node_in s k;
  cr_nodes p : node_in s' p <-> node_in s p \/ p = k;
  cr_entry d' nm' : entry s' d' nm' = if bool_decide (d' = d /\ nm' = nm) then Some k else entry s d' nm';
  cr_new : exists n, node_at s' k = Some n /\ type n = ty /\ mode n = md /\ ino n = 13 + k /\ size n = 0;
  cr_meta : arr (inode_meta s') (13 + k) = Some (mk_meta md 0 0 1 0);
  cr_rest p n : node_in s p -> p <> d -> node_at s p = Some n -> node_at s' p = Some n;
}.

Section create.
Context (s : ext2) (d : Z) (dn old : nm_vnode) (nm rest : list Z) (ty : nm_node_type) (md : Z).
Let k := ext2_node_cursor s.
Context (Hi : ext2_inv s) (Hk : k < EXT2_NODES) (Hd : node_in s d) (Hdn : node_at s d = Some dn).
Context (Hnm : Forall (fun c => c <> 0) nm) (Hold : node_at s k = Some old).
Let new := new_node k d dn nm rest ty md.
Let s' := enter s d dn new md.

Lemma enter_k : 0 <= k /\ d <> k /\ k <> EXT2_ROOT.
Proof.
  pose proof (ei_cursor _ Hi) as Hc. fold k in Hc. unfold EXT2_NODES, EXT2_ROOT in *.
  destruct Hd as [->|Hd']; [unfold EXT2_ROOT; lia|fold k in Hd'; lia].
Qed.

Lemma enter_at q :
  node_at s' q = if d =? q then Some (with_children (Some k) dn) else if k =? q then Some new else node_at s q.
Proof.
  destruct enter_k as (H0 & Hdk & Hkr). unfold s', enter. fold k.
  set (s1 := put_node k new (set_cursor (k + 1) s)).
  assert (E1 : forall p, node_at s1 p = if k =? p then Some new else node_at s p)
    by (intros p; exact (node_at_put (set_cursor (k + 1) s) k p new old Hold)).
  erewrite (node_at_put _ d q _ dn).
  - destruct (d =? q); [done|]. apply E1.
  - change (node_at s1 d = Some dn). rewrite E1. by destruct (Z.eqb_spec k d).
Qed.

Lemma enter_nodes i : 0 <= i < EXT2_NODES -> arr (ext2_nodes s') i = node_at s' i.
Proof. intros. by rewrite node_at_inner. Qed.

Lemma enter_same : ext2_node_cursor s' = k + 1 /\ zlen (ext2_nodes s') = EXT2_NODES /\
  inode_meta s' = upd (inode_meta s) (13 + k) (mk_meta md 0 0 1 0).
Proof.
  unfold s', enter, put_node. fold k. pose proof (ei_nodes _ Hi).
  destruct (k =? EXT2_ROOT), (d =? EXT2_ROOT); simpl; rewrite ?zlen_upd; done.
Qed.

Lemma enter_in p : node_in s' p <-> node_in s p \/ p = k.
Proof.
  unfold node_in. destruct enter_same as (-> & _). destruct enter_k as (H0 & _). fold k. lia.
Qed.

Lemma enter_case p n : node_at s' p = Some n ->
  (p = d /\ n = with_children (Some k) dn) \/ (p = k /\ n = new) \/ (p <> d /\ p <> k /\ node_at s p = Some n).
Proof.
  rewrite enter_at. destruct (Z.eqb_spec d p) as [E|]; [intros [= <-]; by left|].
  destruct (Z.eqb_spec k p) as [E|]; [intros [= <-]; by right; left|].
  intros Hn. right; right. split_and!; [by apply not_eq_sym|by apply not_eq_sym|done].
Qed.

Lemma below_mono b b' p : below b p -> b <= b' -> below b' p.
Proof. intros Hb Hle i ->. specialize (Hb i eq_refl). lia. Qed.

Lemma enter_inv : ext2_inv s'.
Proof.
  destruct enter_k as (H0 & Hdk & Hkr), enter_same as (Ec & El & Em).
  pose proof (ei_node _ Hi _ _ Hd Hdn) as Hdok. fold k in Hdok. constructor.
  - rewrite Ec. lia.
  - done.
  - rewrite Em, zlen_upd. apply Hi.
  - assert (E : node_at s' EXT2_ROOT = Some (ext2_root s')) by done.
    destruct (enter_case _ _ E) as [[Ed ->]|[[Ed _]|(_ & _ & [= <-])]]; [|done|apply Hi].
    simpl. rewrite <- Ed in Hdn. injection Hdn as <-. apply Hi.
  - intros p n Hp Hn. rewrite Ec. destruct (enter_case _ _ Hn) as [[-> ->]|[[-> ->]|(Hpd & Hpk & Hn')]].
    + destruct Hdok as [H1 H2 H3 H4 H5 H6 H7]. constructor; try done. intros i [= <-]. lia.
    + constructor; try done; simpl; [unfold EXT2_MAX_INODES, EXT2_NODES in *; lia| |].
      * apply (no_children _ _ _ Hdok).
      * intros _. rewrite cstr_of_app by done. done.
    + apply enter_in in Hp as [Hp|]; [|done]. destruct (ei_node _ Hi _ _ Hp Hn') as [H1 H2 H3 H4 H5 H6 H7]. fold k in H5.
      constructor; try done. eapply below_mono; [done|lia].
  - intros i n Hki Hn. rewrite Ec in Hki. pose proof (arr_range _ _ _ Hn) as Hr. rewrite El in Hr.
    rewrite enter_nodes in Hn by done. destruct (enter_case _ _ Hn) as [[-> _]|[[-> _]|(_ & _ & Hn')]].
    + destruct Hd as [->|Hd']; [unfold EXT2_ROOT, EXT2_NODES in *; lia|fold k in Hd'; lia].
    + lia.
    + rewrite node_at_inner in Hn' by done. apply (ei_free _ Hi i); [fold k; lia|done].
Qed.

(** The walk from a link to an old node sees the same names. *)
Lemma enter_walk fuel p nm' : below k p -> find_named fuel (ext2_nodes s') p nm' = find_named fuel (ext2_nodes s) p nm'.
Proof.
  intros Hp. destruct enter_k as (H0 & Hdk & Hkr). eapply find_named_ext; [done| |rewrite (ei_nodes _ Hi); lia].
  intros i n Hr Hn. split; [by apply (siblings_below _ Hi i)|]. rewrite enter_nodes, enter_at by lia.
  rewrite <- node_at_inner in Hn by lia. destruct (Z.eqb_spec d i) as [<-|].
  - exists (with_children (Some k) dn). simplify_eq. done.
  - destruct (Z.eqb_spec k i); [lia|]. by exists n.
Qed.

Lemma enter_entry d' nm' :
  entry s' d' nm' = if bool_decide (d' = d /\ nm' = nm) then Some k else entry s d' nm'.
Proof.
  destruct enter_k as (H0 & Hdk & Hkr). unfold entry at 1.
  assert (Hsib : forall i n, 0 <= i < k -> arr (ext2_nodes s) i = Some n -> below i (next_sibling n))
    by (by apply siblings_below).
  destruct (decide (node_in s' d')) as [Hin|Hout]; rewrite enter_in in *.
  - rewrite enter_at. destruct (Z.eqb_spec d d') as [<-|Hne].
    + cbn [mbind option_bind]. unfold entry. rewrite decide_True, Hdn by done. cbn [mbind option_bind].
      cbn [with_children children]. rewrite (find_named_cons _ (ext2_nodes s') k nm' new).
      2: { unfold EXT2_NODES. lia. }
      2: { rewrite enter_nodes, enter_at by lia. rewrite Z.eqb_refl. by rewrite (proj2 (Z.eqb_neq d k)). }
      rewrite (named_str new nm nm') by (by apply cstr_of_app). case_bool_decide as E.
      * by rewrite bool_decide_true.
      * rewrite bool_decide_false by tauto. change (next_sibling new) with (children dn).
        pose proof (no_children _ _ _ (ei_node _ Hi _ _ Hd Hdn)) as Hb. fold k in Hb.
        rewrite enter_walk by done. eapply find_named_fuel; [done|done|unfold EXT2_NODES in *; lia..].
    + rewrite bool_decide_false by (intros [? _]; congruence). destruct (Z.eqb_spec k d') as [<-|Hk'].
      * unfold entry. rewrite decide_False; [done|]. unfold node_in. fold k. lia.
      * destruct Hin as [Hin|]; [|congruence]. unfold entry. rewrite decide_True by done.
        destruct (node_in_at s d' Hi Hin) as [n Hn]. rewrite Hn. cbn [mbind option_bind]. apply enter_walk.
        apply (no_children _ _ _ (ei_node _ Hi _ _ Hin Hn)).
  - rewrite bool_decide_false by (intros [-> _]; tauto). unfold entry. rewrite decide_False by tauto. done.
Qed.

Lemma enter_created : created s k d nm ty md s'.
Proof.
  destruct enter_k as (H0 & Hdk & Hkr), enter_same as (Ec & El & Em). constructor.
  - exact enter_inv.
  - split; [lia|]. unfold node_in. fold k. lia.
  - exact enter_in.
  - exact enter_entry.
  - exists new. rewrite enter_at. destruct (Z.eqb_spec d k); [done|]. by rewrite Z.eqb_refl.
  - rewrite Em. apply arr_upd_eq. rewrite (ei_meta _ Hi). unfold EXT2_MAX_INODES, EXT2_NODES in *. lia.
  - intros p n Hp Hpd Hn. rewrite enter_at. destruct (Z.eqb_spec d p); [congruence|].
    destruct (Z.eqb_spec k p) as [<-|]; [|done]. destruct Hp as [|Hp]; [done|fold k in Hp; lia].
Qed.
End create.

Lemma wp_ext2_create s d dn nm ty md (Q : option Z -> ext2 -> Prop) :
  ext2_inv s -> node_in s d -> node_at s d = Some dn -> name_ok nm ->
  (type dn <> NM_NODE_DIR \/ is_Some (entry s d nm) \/ ext2_node_cursor s = EXT2_NODES -> Q None s) ->
  (forall s', type dn = NM_NODE_DIR -> entry s d nm = None -> created s (ext2_node_cursor s) d nm ty md s' ->
     Q (Some (ext2_node_cursor s)) s') ->
  wp (ext2_create (Some d) (Some nm) ty md) Q s.
Proof.
  intros Hi Hd Hdn Hnm Hfail Hok. unfold ext2_create. wp_step. eapply wp_get_node; [done|].
  case_bool_decide as Hty; cbn [negb]; [|apply wp_ret, Hfail; by left]. do 2 wp_step.
  pose proof (ei_cursor _ Hi) as Hc. set (k := ext2_node_cursor s) in *.
  destruct (Z.leb_spec EXT2_NODES k); [apply wp_ret, Hfail; right; right; lia|]. wp_step.
  apply wp_ext2_lookup; [done|done|]. case_bool_decide as He; [apply wp_ret, Hfail; auto|].
  rewrite <- eq_None_not_Some in He. destruct (arr_lookup (ext2_nodes s) k) as [old Hold]; [rewrite (ei_nodes _ Hi); lia|].
  destruct (ei_free _ Hi k old) as [Hlen Hhd]; [unfold k; lia|done|].
  rewrite <- node_at_inner in Hold by lia. assert (Hdk : d <> k).
  { destruct Hd as [->|Hd]; [unfold EXT2_ROOT, EXT2_NODES in *; lia|unfold k; lia]. }
  do 6 wp_step. cbn [ext2_node_cursor set_cursor]. fold k.
  rewrite !(u32_small (k + 1)), (u32_small (12 + (k + 1))) by (unfold EXT2_NODES in *; lia). set (s1 := set_cursor (k + 1) s). wp_step.
  apply (wp_get_node s1 d dn); [done|]. wp_step. apply (wp_mod_node s1 k _ old); [done|]. wp_step.
  set (n1 := mk_vnode _ _ _ _ _ _ _ _ _ _ _ _ _ _ _).
  assert (Eat : forall n q, node_at (put_node k n s1) q = if k =? q then Some n else node_at s1 q)
    by (intros n q; exact (node_at_put s1 k q n old Hold)).
  eapply wp_get_node; [rewrite Eat; by rewrite Z.eqb_refl|]. wp_step.
  apply wp_put_name; [done|done|done|]. intros rest. wp_step.
  eapply wp_mod_node; [rewrite Eat; by rewrite Z.eqb_refl|]. rewrite put_put. wp_step.
  eapply wp_mod_node; [rewrite Eat; by rewrite Z.eqb_refl|]. rewrite put_put. wp_step.
  eapply wp_get_node; [rewrite Eat; by rewrite Z.eqb_refl|]. wp_step.
  cbn [ino with_data with_name n1]. destruct (Z.ltb_spec (12 + (k + 1)) EXT2_MAX_INODES);
    [|unfold EXT2_MAX_INODES, EXT2_NODES in *; lia].
  replace (12 + (k + 1)) with (13 + k) by lia.
  destruct (arr_lookup (inode_meta s) (13 + k)) as [m Hm]; [rewrite (ei_meta _ Hi); unfold EXT2_MAX_INODES, EXT2_NODES in *; lia|].
  assert (Hput : forall n, inode_meta (put_node k n s1) = inode_meta s) by (intros n; unfold put_node; by destruct (k =? EXT2_ROOT)).
  eapply wp_modify_at; [rewrite Hput; done|]. rewrite Hput. wp_step.
  eapply (wp_mod_node _ d _ dn).
  { change (node_at (put_node k (with_data 0 (with_name (nm ++ 0 :: rest) n1)) s1) d = Some dn).
    rewrite Eat. by destruct (Z.eqb_spec k d). }
  wp_step. apply Hok; [done|done|]. subst n1 s1. cbn. replace (12 + (k + 1)) with (13 + k) by lia.
  exact (enter_created s d dn old nm rest ty md Hi ltac:(done) Hd Hdn (proj1 Hnm) Hold).
Qed.

(** *** Mounting *)

(** The static data before the first mount: no node handed out, and every name
    empty. *)
Definition fresh (s : ext2) : Prop :=
  ext2_node_cursor s = 0 /\ zlen (ext2_nodes s) = EXT2_NODES /\ zlen (inode_meta s) = EXT2_MAX_INODES /\
  forall i n, arr (ext2_nodes s) i = Some n -> zlen (name n) = NM_NAME_MAX /\ head (name n) = Some 0.

Lemma wp_ext2_mount s (Q : option Z -> ext2 -> Prop) :
  fresh s ->
  (forall s', ext2_inv s' -> (forall nm, entry s' EXT2_ROOT nm = None) -> ext2_node_cursor s' = 0 -> Q (Some EXT2_ROOT) s') ->
  wp ext2_mount_root Q s.
Proof.
  intros (Hc & Hl & Hm & Hfree) HQ. unfold ext2_mount_root. wp_step. apply (wp_mod_node _ _ _ (ext2_root s)); [done|]. wp_step.
  destruct (arr_lookup (inode_meta s) 2) as [m2 Hm2]; [rewrite Hm; unfold EXT2_MAX_INODES; lia|].
  eapply wp_modify_at; [done|]. wp_step. apply HQ; [|intros nm; unfold entry; rewrite decide_True by (by left); reflexivity|done]. constructor; simpl; try done.
  - rewrite Hc. unfold EXT2_NODES. lia.
  - by rewrite zlen_upd.
  - intros p n [->|Hp]; [|simpl in Hp; lia]. intros [= <-]. by constructor.
  - intros i n _. apply Hfree.
Qed.

(** ** Reading and writing *)

(** In the kernel build no node has a buffer, so every write fails and every read
    is at the end of the file. *)
Lemma wp_ext2_read s p offset len (Q : Z * list Z -> ext2 -> Prop) :
  ext2_inv s -> node_in s p -> Q (0, []) s -> wp (ext2_read (Some p) true offset len) Q s.
Proof.
  intros Hi Hp HQ. destruct (node_in_at s p Hi Hp) as [n Hn]. unfold ext2_read. wp_step. eapply wp_get_node; [done|].
  rewrite (no_data _ _ _ (ei_node _ Hi _ _ Hp Hn)). by apply wp_ret.
Qed.

Lemma wp_ext2_write s p src offset len (Q : Z -> ext2 -> Prop) :
  ext2_inv s -> node_in s p -> Q (NM_ERR NM_EFAIL) s -> wp (ext2_write (Some p) (Some src) offset len) Q s.
Proof.
  intros Hi Hp HQ. destruct (node_in_at s p Hi Hp) as [n Hn]. unfold ext2_write. wp_step. eapply wp_get_node; [done|].
  rewrite (no_data _ _ _ (ei_node _ Hi _ _ Hp Hn)). by apply wp_ret.
Qed.

Lemma wp_ext2_stat s p n (Q : Z * option nm_stat -> ext2 -> Prop) :
  ext2_inv s -> node_in s p -> node_at s p = Some n ->
  (forall m, arr (inode_meta s) (ino n) = Some m ->
     Q (0, Some (mk_stat (ino n) (size n) (m_mode m) (m_uid m) (m_gid m) (m_links m) (m_blocks m))) s) ->
  wp (ext2_stat (Some p) true) Q s.
Proof.
  intros Hi Hp Hn HQ. unfold ext2_stat. wp_step. eapply wp_get_node; [done|].
  pose proof (no_ino _ _ _ (ei_node _ Hi _ _ Hp Hn)) as Hino.
  destruct (Z.leb_spec EXT2_MAX_INODES (ino n)); [lia|]. cbn [negb orb].
  destruct (arr_lookup (inode_meta s) (ino n)) as [m Hm]; [by rewrite (ei_meta _ Hi)|]. wp_step. eapply wp_rd; [done|].
  wp_step. by apply HQ.
Qed.

(** ** ext2 keeps the promise of a mounted file system *)

#[export] Instance ext2_Vnodes : Vnodes ext2 := {
  vnode_at := node_at;
  file_ops_at := fun p => if p =? EXT2_FILE_OPS then ext2_file_ops else mk_file_ops None None None None;
}.

#[export] Program Instance ext2_MountedFs : MountedFs ext2 := {
  mf_open := ext2_open; mf_read := ext2_read; mf_write := ext2_write; mf_stat := ext2_stat;
  mf_mount_root := ext2_mount_root; mf_lookup := ext2_lookup; mf_create := ext2_create;
  mf_raw := fresh; mf_ok := ext2_inv; mf_root := EXT2_ROOT; is_node := node_in;
  Fs.entry := entry; Fs.content := content; mf_limit := 2 ^ 62;
}.
Next Obligation. done. Qed.
Next Obligation. intros f _. by left. Qed.
Next Obligation. intros f d nm n Hi. by apply entry_in. Qed.
Next Obligation.
  intros f p Hi Hp. destruct (node_in_at f p Hi Hp) as [n Hn]. exists n.
  destruct (ei_node _ Hi _ _ Hp Hn) as [_ Ho _ Hs _ _ _]. simpl. rewrite Ho, Hs. split_and!; try done.
  intros c. unfold content. rewrite decide_True by done. by intros [= <-].
Qed.
Next Obligation. intros f Q Hf HQ. apply wp_ext2_mount; [done|]. intros f' ? ? _. by apply HQ. Qed.
Next Obligation. intros f d nm Q Hi Hd HQ. by apply wp_ext2_lookup. Qed.
Next Obligation.
  intros f d nm md Q Hi Hd Hnm He Hfail Hok. destruct (node_in_at f d Hi Hd) as [dn Hdn].
  eapply wp_ext2_create; [done|done|done|done|by intros _|]. intros f' Hty _ [Hi' [_ Hnot] Hin Hent Hnew Hmeta Hrest].
  apply Hok; [done| |done| |done|].
  - apply Hin. by right.
  - intros m Hm. apply Hin. by left.
  - intros m. unfold content. destruct (Z.eqb_spec m (ext2_node_cursor f)) as [->|Hm].
    + rewrite decide_True; [done|]. apply Hin. by right.
    + destruct (decide (node_in f m)); [rewrite decide_True; [done|]; apply Hin; by left|].
      rewrite decide_False; [done|]. rewrite Hin. tauto.
Qed.
Next Obligation.
  intros f p n Q Hi Hp Hn HQ. eapply wp_ext2_stat; [done|done|done|]. intros m _. by apply HQ.
Qed.
Next Obligation. intros f p fl Q HQ. by apply wp_ret. Qed.
Next Obligation.
  intros f p offset len Q Hi Hp Ho Hl. unfold content. rewrite decide_True by done. intros HQ.
  apply wp_ext2_read; [done|done|]. unfold slice in HQ. rewrite drop_nil, take_nil in HQ. done.
Qed.
Next Obligation. intros f p d offset len Q Hi Hp _ _ _ HQ _. by apply wp_ext2_write. Qed.

(** ** Properties *)

(** C28: [ext2_create] on every branch.  In a directory without the name, while a
    node is left, it enters the next node under that name and no other, with the
    inode 13 more than its index and its mode in the inode table, and leaves every
    other node and entry; in every other case it answers null and changes
    nothing. *)
Theorem ext2_create_spec s d dn nm ty md :
  ext2_inv s -> node_in s d -> node_at s d = Some dn -> name_ok nm ->
  wp (ext2_create (Some d) (Some nm) ty md) (fun r s' =>
    if bool_decide (type dn = NM_NODE_DIR /\ entry s d nm = None /\ ext2_node_cursor s < EXT2_NODES)
    then r = Some (ext2_node_cursor s) /\ created s (ext2_node_cursor s) d nm ty md s' else r = None /\ s' = s) s.
Proof.
  intros Hi Hd Hdn Hnm. eapply wp_ext2_create; [done|done|done|done| |].
  - intros Hwhy. rewrite bool_decide_false; [done|]. intros (Hty & He & Hk).
    destruct Hwhy as [?|[[? ?]|?]]; [done|congruence|lia].
  - intros s' Hty He Hc. rewrite bool_decide_true; [done|]. split_and!; [done|done|].
    apply (cr_fresh _ _ _ _ _ _ _ Hc).
Qed.

(** Reading from a buffer answers its bytes. *)
Lemma wp_read_buffer s p n offset len (Q : Z * list Z -> ext2 -> Prop) :
  node_at s p = Some n -> data n <> 0 -> 0 <= size n <= capacity n -> capacity n < 2 ^ 63 -> 0 <= offset -> 0 < len ->
  offset + len <= size n ->
  (forall bs, zlen bs = len -> (forall j, 0 <= j < len -> arr bs j = Some (ram s (data n + offset + j))) -> Q (len, bs) s) ->
  wp (ext2_read (Some p) true offset len) Q s.
Proof.
  intros Hn Hd Hsz Hcap Ho Hl Hroom HQ. unfold ext2_read. wp_step. eapply wp_get_node; [done|].
  destruct (Z.eqb_spec (data n) 0); [done|]. destruct (Z.leb_spec (size n) offset); [lia|]. cbn [negb orb]. cbv zeta.
  rewrite (u64_small (size n - offset)) by lia.
  replace (if len <? size n - offset then len else size n - offset) with len by (destruct (Z.ltb_spec len (size n - offset)); lia).
  wp_step. apply (wp_for_acc (fun i bs t => t = s /\ zlen bs = i /\
    forall j, 0 <= j < i -> arr bs j = Some (ram s (data n + offset + j)))); [lia|split_and!; [done|done|lia]| |].
  - intros i bs t Hi (-> & Hbl & Hj). wp_step. unfold wp at 1, load. rewrite u64_small by lia.
    rewrite (proj2 (Z.leb_le 0 (offset + i))), (proj2 (Z.ltb_lt (offset + i) (capacity n))) by lia. cbn [andb].
    wp_step. split_and!; [done|unfold zlen in *; rewrite length_app; simpl; lia|]. intros j Hjr.
    unfold arr, zlen in *. destruct (Z.leb_spec 0 j); [|lia]. destruct (decide (j = i)) as [->|].
    + rewrite lookup_app_r by lia. replace (Z.to_nat i - length bs)%nat with 0%nat by lia. simpl. do 2 f_equal. lia.
    + rewrite lookup_app_l by lia. rewrite <- Hj by lia. destruct (Z.leb_spec 0 j); [done|lia].
  - intros bs t (-> & Hbl & Hj). wp_step. rewrite i64_small by lia. by apply HQ.
Qed.

(** Where a node has a buffer, what is written within its capacity is read back. *)
Theorem ext2_write_read s p n src offset len :
  node_at s p = Some n -> data n <> 0 -> 0 <= size n <= capacity n -> capacity n < 2 ^ 63 ->
  zlen (inode_meta s) = EXT2_MAX_INODES -> 0 <= ino n -> 0 <= offset -> 0 < len <= zlen src -> offset + len <= capacity n ->
  wp (r ← ext2_write (Some p) (Some src) offset len; x ← ext2_read (Some p) true offset len; mret (r, x))
    (fun res _ => res = (len, (len, take (Z.to_nat len) src))) s.
Proof.
  intros Hn Hd Hsz Hcap Hm Hino Ho Hl Hroom. unfold ext2_write. wp_step. wp_step. eapply wp_get_node; [done|].
  destruct (Z.eqb_spec (data n) 0); [done|]. rewrite !(u64_small (offset + len)) by lia.
  destruct (Z.ltb_spec (capacity n) (offset + len)); [lia|]. wp_step.
  apply (wp_for_all (fun i (t : ext2) => exists m, t = set_ram m s /\
    forall j, 0 <= j < i -> Some (m (data n + offset + j)) = arr src j)); [lia| | |].
  - exists (ram s). split; [by destruct s|lia].
  - intros i t Hi (m & -> & Hj). destruct (arr_lookup src i) as [x Hx]; [lia|]. wp_step. eapply wp_rd; [done|].
    unfold wp, store. rewrite u64_small by lia. rewrite (proj2 (Z.leb_le 0 (offset + i))), (proj2 (Z.ltb_lt (offset + i) (capacity n))) by lia.
    simpl. eexists. split; [done|]. intros j Hjr. simpl. destruct (Z.eqb_spec (data n + offset + j) (data n + (offset + i))) as [E|E].
    + replace j with i by lia. done.
    + apply Hj. lia.
  - intros t (m & -> & Hj). set (sz := Z.max (size n) (offset + len)). wp_step.
    assert (Hafter : forall t, node_at t p = Some (with_size sz n) -> ram t = m -> zlen (inode_meta t) = EXT2_MAX_INODES ->
      wp (n ← get_node p; (if ino n <? EXT2_MAX_INODES
        then mod_meta (ino n) (with_blocks (u32 (u64 (size n + 511) / 512))) else mret tt) ;; mret (i64 len))
        (fun r t' => r = len /\ node_at t' p = Some (with_size sz n) /\ ram t' = m) t).
    { intros t Ht Hr Hmt. wp_step. eapply wp_get_node; [done|]. wp_step. cbn [ino with_size].
      destruct (Z.ltb_spec (ino n) EXT2_MAX_INODES).
      - destruct (arr_lookup (inode_meta t) (ino n)) as [im Him]; [lia|]. eapply wp_modify_at; [done|]. wp_step.
        split_and!; [apply i64_small; lia|done|done].
      - do 2 wp_step. split_and!; [apply i64_small; lia|done|done]. }
    assert (Hread : forall t, node_at t p = Some (with_size sz n) -> ram t = m ->
      wp (ext2_read (Some p) true offset len) (fun x _ => x = (len, take (Z.to_nat len) src)) t).
    { intros t Ht Hr. eapply wp_read_buffer; [done|cbn; unfold sz; lia..|]. intros bs Hbl Hbs. cbn in Hbs.
      f_equal. apply arr_ext; [rewrite Hbl; unfold zlen in *; rewrite length_take; lia|]. intros j.
      destruct (decide (0 <= j < len)) as [Hin|Hout].
      - rewrite Hbs, Hr, Hj by lia. unfold arr. destruct (Z.leb_spec 0 j); [|done]. by rewrite lookup_take_lt by lia.
      - rewrite !arr_none; [done|unfold zlen in *; rewrite length_take; lia|lia]. }
    assert (Hrest : forall t, node_at t p = Some (with_size sz n) -> ram t = m -> zlen (inode_meta t) = EXT2_MAX_INODES ->
      wp (n ← get_node p; (if ino n <? EXT2_MAX_INODES
        then mod_meta (ino n) (with_blocks (u32 (u64 (size n + 511) / 512))) else mret tt) ;; mret (i64 len))
        (fun r => wp (x ← ext2_read (Some p) true offset len; mret (r, x)) (fun res _ => res = (len, (len, take (Z.to_nat len) src)))) t).
    { intros t Ht Hr Hmt. eapply wp_mono; [by apply Hafter|]. intros r t' (-> & Ht' & Hr'). wp_step.
      eapply wp_mono; [by apply Hread|]. intros x ? ->. by wp_step. }
    destruct (Z.ltb_spec (size n) (offset + len)) as [Hlt|Hge].
    + eapply (wp_mod_node _ _ _ n); [done|]. replace (offset + len) with sz by (unfold sz; lia).
      apply Hrest; unfold put_node; [|by destruct (p =? EXT2_ROOT)..].
      change (node_at (put_node p (with_size sz n) (set_ram m s)) p = Some (with_size sz n)).
      rewrite (node_at_put _ _ _ _ n) by done. by rewrite Z.eqb_refl.
    + wp_step. apply Hrest; [|done|done]. replace sz with (size n) by (unfold sz; lia).
      change (node_at s p = Some (with_size (size n) n)). rewrite Hn. by destruct n.
Qed.

(** The check of the room adds offset and length without looking for a wrap: past
    it, the first byte is stored outside the buffer. *)
Theorem ext2_write_wraps s p n src :
  node_at s p = Some n -> data n <> 0 -> 1 <= capacity n < 2 ^ 63 -> 2 <= zlen src ->
  ext2_write (Some p) (Some src) (2 ^ 64 - 1) 2 s = Stuck OutOfBounds.
Proof.
  intros Hn Hd Hcap Hl. destruct (arr_lookup src 0) as [x Hx]; [lia|].
  assert (Hg : forall B (k : nm_vnode -> M ext2 B), (get_node p ≫= k) s = k n s).
  { intros B k. unfold get_node. unfold node_at in Hn. destruct (p =? EXT2_ROOT); [by injection Hn as <-|]. by apply rd_bind. }
  unfold ext2_write. rewrite Hg. destruct (Z.eqb_spec (data n) 0); [done|].
  change (u64 (2 ^ 64 - 1 + 2)) with 1. destruct (Z.ltb_spec (capacity n) 1); [lia|].
  change (upto 0 2) with [0; 1]. unfold for_all. unfold mbind, M_bind at 1. cbn beta iota.
  unfold mbind, M_bind. unfold rd at 1. rewrite Hx. unfold store. change (u64 (2 ^ 64 - 1 + 0)) with (2 ^ 64 - 1).
  destruct (Z.leb_spec 0 (2 ^ 64 - 1)); [|lia]. destruct (Z.ltb_spec (2 ^ 64 - 1) (capacity n)); [lia|]. done.
Qed.

(** *** A concrete file system: just mounted, and with a file "f" *)

Definition ext2_0 : ext2 :=
  mk_ext2 (replicate 1024 (mk_meta 0 0 0 0 0))
    (mk_vnode false 0 NM_NODE_NONE (replicate 64 0) 0 0 0 None None None 0 0 0 0 0)
    (replicate 256 (mk_vnode false 0 NM_NODE_NONE (replicate 64 0) 0 0 0 None None None 0 0 0 0 0)) 0 (fun _ => 0).
Definition ext2_1 : ext2 := match ext2_mount_root ext2_0 with Done _ s => s | Stuck _ => ext2_0 end.

Lemma ext2_0_fresh : fresh ext2_0.
Proof. split_and!; try done. intros i n [-> _]%arr_elem%elem_of_replicate. done. Qed.

Lemma ext2_1_inv : ext2_inv ext2_1.
Proof.
  assert (Hw : wp ext2_mount_root (fun _ => ext2_inv) ext2_0) by (apply wp_ext2_mount; [exact ext2_0_fresh|by intros]).
  unfold ext2_1. unfold wp in Hw. by destruct (ext2_mount_root ext2_0).
Qed.

Lemma ext2_create_witness :
  wp (ext2_create (Some EXT2_ROOT) (Some [102]) NM_NODE_FILE 420) (fun r s' =>
    if bool_decide (type (ext2_root ext2_1) = NM_NODE_DIR /\ entry ext2_1 EXT2_ROOT [102] = None /\
      ext2_node_cursor ext2_1 < EXT2_NODES)
    then r = Some (ext2_node_cursor ext2_1) /\ created ext2_1 (ext2_node_cursor ext2_1) EXT2_ROOT [102] NM_NODE_FILE 420 s'
    else r = None /\ s' = ext2_1) ext2_1.
Proof.
  apply (ext2_create_spec ext2_1 EXT2_ROOT (ext2_root ext2_1) [102]);
    [exact ext2_1_inv|by left|reflexivity|split; [by repeat constructor|done]].
Defined.

Example ext2_create_run :
  match ext2_create (Some EXT2_ROOT) (Some [102]) NM_NODE_FILE 420 ext2_1 with
  | Done r s => r = Some 0 /\ entry s EXT2_ROOT [102] = Some 0 /\ entry s EXT2_ROOT [103] = None
  | Stuck _ => False
  end.
Proof. vm_compute. done. Qed.

End Ext2.
