(* ===== verification/Vfs.v ===== *)
(** * The virtual file system ([kernel/fs/vfs.c])

    The table of open files and the walk along a path, over the operations of
    the file system that is mounted, which is any implementation of [MountedFs]. *)

From S2P Require Import Prelude Interfaces Fs Split Kheap Tmpfs.

Module Vfs.
Import Split.

Record nm_file := mk_file {
  f_used : bool;
  f_flags : Z;
  f_offset : Z;
  f_vnode : option Z;
}.

Record nm_filesystem (F : Type) := mk_filesystem {
  fs_name : list Z;
  fs_ops : option (nm_fs_ops F);
}.
Arguments mk_filesystem {F} _ _.
Arguments fs_name {F} _.
Arguments fs_ops {F} _.

(** The static data of [vfs.c], with the state of the mounted file system. *)
Record vfs (F : Type) := mk_vfs {
  fd_table : list nm_file;
  root_fs : option (nm_filesystem F);
  root_vnode : option Z;
  fs_lock_word : Z;
  nodefs : F;
}.
Arguments mk_vfs {F} _ _ _ _ _.
Arguments fd_table {F} _.
Arguments root_fs {F} _.
Arguments root_vnode {F} _.
Arguments fs_lock_word {F} _.
Arguments nodefs {F} _.

(** ** Splitting a path

    A path is its characters before the NUL. The state is the array
    [out_parts]. *)

Definition SLASH : Z := 47.

Definition copy_name (dst : list Z) (src : option (list Z)) : list Z :=
  Prelude.copy_name dst (mk_cstr 0 <$> src) NM_NAME_MAX.

Definition is_slash (c : Z) : bool := c =? SLASH.

Definition fs_path_split (path : option (list Z)) (max_parts : Z) : M (list (list Z)) Z :=
  match path with
  | None => mret (NM_ERR NM_EFAIL)
  | Some path =>
      if max_parts <=? 0 then mret (NM_ERR NM_EFAIL) else
      Split.split_loop is_slash (length path) path 0 max_parts
  end.

Section ops.
Context {F : Type} `{!Vnodes F}.
Implicit Types (s : vfs F).

Definition set_fd_table v s := mk_vfs v (root_fs s) (root_vnode s) (fs_lock_word s) (nodefs s).
Definition set_root_fs v s := mk_vfs (fd_table s) v (root_vnode s) (fs_lock_word s) (nodefs s).
Definition set_root_vnode v s := mk_vfs (fd_table s) (root_fs s) v (fs_lock_word s) (nodefs s).
Definition set_fs_lock v s := mk_vfs (fd_table s) (root_fs s) (root_vnode s) v (nodefs s).
Definition set_nodefs (v : F) s := mk_vfs (fd_table s) (root_fs s) (root_vnode s) (fs_lock_word s) v.

Definition fs_lock : M (vfs F) unit := fun s =>
  if fs_lock_word s =? 0 then Done tt (set_fs_lock 1 s) else Stuck LockHeld.
Definition fs_unlock : M (vfs F) unit := modify (set_fs_lock 0).

Definition mod_file (fd : Z) (f : nm_file -> nm_file) : M (vfs F) unit :=
  modify_at fd_table set_fd_table fd f.
Definition on_nodes {A} (c : M F A) : M (vfs F) A := lift_to nodefs set_nodefs c.

(** Following a [struct nm_vnode *] and a pointer to a file system's operations. *)
Definition vnode (i : Z) : M (vfs F) nm_vnode := fun s =>
  match vnode_at (nodefs s) i with
  | Some v => Done v s
  | None => Stuck NullDeref
  end.
Definition ops_of (fs : nm_filesystem F) : M (vfs F) (nm_fs_ops F) :=
  match fs_ops fs with Some o => mret o | None => stuck NullDeref end.

(** The array [parts] of [resolve_path]; a path is split into whatever bytes it
    starts with. *)
Definition parts0 : list (list Z) := replicate 16 (replicate 64 0).

(** The walk: [None] when a lookup fails. *)
Fixpoint walk_parts (ops : nm_fs_ops F) (cur : Z) (parts : list (list Z)) : M (vfs F) (option Z) :=
  match parts with
  | [] => mret (Some cur)
  | buf :: parts =>
      nm ← rd_str buf;
      r ← on_nodes (op_lookup ops (Some cur) (Some nm));
      match r with
      | None => mret None
      | Some cur => walk_parts ops cur parts
      end
  end.

(** Answers the node and, through [leaf_name], the buffer it fills. *)
Definition resolve_path (path : option (list Z)) (parent_only : bool) (leaf_name : option (list Z)) :
    M (vfs F) (option Z * option (list Z)) :=
  fs_lock ;;
  fs ← gets root_fs;
  root ← gets root_vnode;
  fs_unlock ;;
  match root, fs, path with
  | Some root, Some fs, Some path =>
      if negb (default 0 (head path) =? SLASH) then mret (None, leaf_name) else
      match fs_path_split (Some path) 16 parts0 with
      | Stuck f => stuck f
      | Done part_count parts =>
          if part_count <? 0 then mret (None, leaf_name) else
          if part_count =? 0 then mret (Some root, (fun b => upd b 0 0) <$> leaf_name) else
          let limit := if parent_only then part_count - 1 else part_count in
          (if 0 <? limit then o ← ops_of fs; walk_parts o root (take (Z.to_nat limit) parts)
           else mret (Some root)) ≫= fun cur =>
          match cur with
          | None => mret (None, leaf_name)
          | Some cur =>
              match leaf_name with
              | None => mret (Some cur, None)
              | Some b =>
                  last ← rd (fun _ => parts) (part_count - 1);
                  nm ← rd_str last;
                  mret (Some cur, Some (copy_name b (Some nm)))
              end
          end
      end
  | _, _, _ => mret (None, leaf_name)
  end.

Definition no_file : nm_file := mk_file false 0 0 None.

Definition alloc_fd : M (vfs F) Z :=
  r ← for_each (upto 0 NM_FD_MAX) (fun i =>
    f ← rd fd_table i;
    if negb (f_used f) then mod_file i (fun _ => mk_file true 0 0 None) ;; mret (Some i) else mret None);
  mret (default (NM_ERR NM_EFAIL) r).

Definition fs_init : M (vfs F) unit :=
  modify (set_fs_lock 0) ;;
  fs_lock ;;
  modify (set_root_fs None) ;;
  modify (set_root_vnode None) ;;
  for_all (upto 0 NM_FD_MAX) (fun i => mod_file i (fun _ => no_file)) ;;
  fs_unlock.

Definition fs_mount_root (fs : option (nm_filesystem F)) : M (vfs F) Z :=
  match fs with
  | Some fs' =>
      match op_mount_root <$> fs_ops fs' with
      | Some (Some mount) =>
          r ← on_nodes mount;
          match r with
          | None => mret (NM_ERR NM_EFAIL)
          | Some _ =>
              fs_lock ;;
              modify (set_root_fs fs) ;;
              modify (set_root_vnode r) ;;
              fs_unlock ;;
              mret 0
          end
      | _ => mret (NM_ERR NM_EFAIL)
      end
  | None => mret (NM_ERR NM_EFAIL)
  end.

(** The array [leaf] of [fs_open]. *)
Definition leaf0 : list Z := replicate 64 0.

(** The node to open, made when it is missing and [NM_O_CREAT] is given; the
    inner [None] is the early return. *)
Definition open_node (path : option (list Z)) (flags : Z) : M (vfs F) (option (option Z)) :=
  r ← resolve_path path false None;
  match r.1 with
  | Some n => mret (Some (Some n))
  | None =>
      if negb (Z.land flags NM_O_CREAT =? 0) then
        '(dir, leaf) ← resolve_path path true (Some leaf0);
        fs ← gets root_fs;
        match dir, fs with
        | Some dir, Some fs =>
            o ← ops_of fs;
            match op_create o with
            | None => mret None
            | Some create =>
                nm ← rd_str (default [] leaf);
                n ← on_nodes (create (Some dir) (Some nm) NM_NODE_FILE 420);
                mret (Some n)
            end
        | _, _ => mret None
        end
      else mret (Some None)
  end.

(** The part of [fs_open] from the allocation of the slot on. *)
Definition open_on (n : Z) (v : nm_vnode) (flags : Z) : M (vfs F) Z :=
  fs_lock ;;
  fd ← alloc_fd;
  if fd <? 0 then fs_unlock ;; mret (NM_ERR NM_EFAIL) else
  fs_unlock ;;
  r ← match op_open (file_ops_at (ops v)) with
      | Some open => on_nodes (open (Some n) flags)
      | None => mret 0
      end;
  if negb (r =? 0) then
    fs_lock ;;
    mod_file fd (fun f => mk_file false (f_flags f) (f_offset f) (f_vnode f)) ;;
    fs_unlock ;;
    mret (NM_ERR NM_EFAIL)
  else
    fs_lock ;;
    mod_file fd (fun f => mk_file (f_used f) flags 0 (Some n)) ;;
    fs_unlock ;;
    mret fd.

Definition fs_open (path : option (list Z)) (flags mode : Z) : M (vfs F) Z :=
  if bool_decide (path = None) then mret (NM_ERR NM_EFAIL) else
  node ← open_node path flags;
  match node with
  | Some (Some n) =>
      v ← vnode n;
      if ops v =? 0 then mret (NM_ERR NM_EFAIL) else open_on n v flags
  | _ => mret (NM_ERR NM_EFAIL)
  end.

(** [fd < 0 || fd >= NM_FD_MAX || !fd_table[fd].used]. *)
Definition bad_fd (fd : Z) : M (vfs F) bool :=
  if (fd <? 0) || (NM_FD_MAX <=? fd) then mret true else
  f ← rd fd_table fd; mret (negb (f_used f)).

Definition set_offset (v : Z) (f : nm_file) : nm_file := mk_file (f_used f) (f_flags f) v (f_vnode f).

(** The operations of an open file: [None] when the file has no node. *)
Definition file_ops (fd : Z) : M (vfs F) (option (Z * nm_file_ops F)) :=
  f ← rd fd_table fd;
  match f_vnode f with
  | None => mret None
  | Some n =>
      v ← vnode n;
      mret (if ops v =? 0 then None else Some (n, file_ops_at (ops v)))
  end.

Definition fs_read (fd : Z) (buf : bool) (len : Z) : M (vfs F) (Z * list Z) :=
  fs_lock ;;
  bad ← bad_fd fd;
  if bad || negb buf then fs_unlock ;; mret (NM_ERR NM_EFAIL, []) else
  o ← file_ops fd;
  match o with
  | Some (n, mk_file_ops _ (Some read) _ _) =>
      f ← rd fd_table fd;
      r ← on_nodes (read (Some n) buf (f_offset f) len);
      (if 0 <? r.1 then mod_file fd (fun f => set_offset (u64 (f_offset f + r.1)) f) else mret tt) ;;
      fs_unlock ;;
      mret r
  | _ => fs_unlock ;; mret (NM_ERR NM_EFAIL, [])
  end.

Definition fs_write (fd : Z) (buf : option (list Z)) (len : Z) : M (vfs F) Z :=
  fs_lock ;;
  bad ← bad_fd fd;
  if bad || bool_decide (buf = None) then fs_unlock ;; mret (NM_ERR NM_EFAIL) else
  o ← file_ops fd;
  match o with
  | Some (n, mk_file_ops _ _ (Some write) _) =>
      f ← rd fd_table fd;
      r ← on_nodes (write (Some n) buf (f_offset f) len);
      (if 0 <? r then mod_file fd (fun f => set_offset (u64 (f_offset f + r)) f) else mret tt) ;;
      fs_unlock ;;
      mret r
  | _ => fs_unlock ;; mret (NM_ERR NM_EFAIL)
  end.

(** [base + offset] on [int64_t]. *)
Definition add64 (a b : Z) : M (vfs F) Z :=
  if (a + b <? - 2 ^ 63) || (2 ^ 63 <=? a + b) then stuck SignedOverflow else mret (a + b).

(** The position an offset is relative to; [None] for an unknown [whence]. *)
Definition seek_base (f : nm_file) (whence : Z) : M (vfs F) (option Z) :=
  if whence =? NM_SEEK_CUR then mret (Some (i64 (f_offset f))) else
  if whence =? NM_SEEK_END then
    match f_vnode f with
    | Some n => v ← vnode n; mret (Some (i64 (size v)))
    | None => mret (Some 0)
    end
  else if negb (whence =? NM_SEEK_SET) then mret None else mret (Some 0).

Definition fs_lseek (fd offset whence : Z) : M (vfs F) Z :=
  fs_lock ;;
  bad ← bad_fd fd;
  if (bad : bool) then fs_unlock ;; mret (NM_ERR NM_EFAIL) else
  f ← rd fd_table fd;
  base ← seek_base f whence;
  match base with
  | None => fs_unlock ;; mret (NM_ERR NM_EFAIL)
  | Some base =>
      next ← add64 base offset;
      if next <? 0 then fs_unlock ;; mret (NM_ERR NM_EFAIL) else
      mod_file fd (set_offset (u64 next)) ;;
      fs_unlock ;;
      mret next
  end.

Definition fs_close (fd : Z) : M (vfs F) Z :=
  fs_lock ;;
  bad ← bad_fd fd;
  if (bad : bool) then fs_unlock ;; mret (NM_ERR NM_EFAIL) else
  mod_file fd (fun _ => no_file) ;;
  fs_unlock ;;
  mret 0.

Definition fs_stat (path : option (list Z)) (st : bool) : M (vfs F) (Z * option nm_stat) :=
  if negb st || bool_decide (path = None) then mret (NM_ERR NM_EFAIL, None) else
  r ← resolve_path path false None;
  match r.1 with
  | None => mret (NM_ERR NM_EFAIL, None)
  | Some n =>
      v ← vnode n;
      if ops v =? 0 then mret (NM_ERR NM_EFAIL, None) else
      match op_stat (file_ops_at (ops v)) with
      | None => mret (NM_ERR NM_EFAIL, None)
      | Some stat => on_nodes (stat (Some n) st)
      end
  end.
End ops.

(** ** Walking a path *)

Abbreviation components := (Split.components is_slash).

Section spec.
Context {F : Type} `{!Vnodes F, !MountedFs F}.
Implicit Types (s : vfs F).

(** The node at the end of a list of names. *)
Fixpoint walk (f : F) (d : Z) (nms : list (list Z)) : option Z :=
  match nms with
  | [] => Some d
  | nm :: nms => d' ← entry f d nm; walk f d' nms
  end.

(** The node a path stands for, or its parent's. *)
Definition target s (path : list Z) (parent_only : bool) : option Z :=
  if bool_decide (head path = Some SLASH) && (zlen (components path) <=? 16)
  then walk (nodefs s) mf_root (if parent_only then removelast (components path) else components path)
  else None.

Record vfs_inv s : Prop := mk_vfs_inv {
  vi_lock : fs_lock_word s = 0;
  vi_table : zlen (fd_table s) = NM_FD_MAX;
  vi_fs : exists nm, root_fs s = Some (mk_filesystem nm (Some mf_ops));
  vi_root : root_vnode s = Some mf_root;
  vi_nodes : mf_ok (nodefs s);
  vi_files fd f : arr (fd_table s) fd = Some f -> f_used f = true ->
    (exists n, f_vnode f = Some n /\ is_node (nodefs s) n) /\ 0 <= f_offset f < 2 ^ 63;
}.

Lemma wp_fs_lock s (Q : unit -> vfs F -> Prop) :
  fs_lock_word s = 0 -> Q tt (set_fs_lock 1 s) -> wp fs_lock Q s.
Proof. unfold wp, fs_lock. by intros ->. Qed.

Lemma fs_relock s : fs_lock_word s = 0 -> set_fs_lock 0 (set_fs_lock 1 s) = s.
Proof. intros Hl. destruct s. by simplify_eq/=. Qed.

Lemma unlock_nodefs s f : fs_lock_word s = 0 -> set_fs_lock 0 (set_nodefs f (set_fs_lock 1 s)) = set_nodefs f s.
Proof. intros Hl. destruct s. by simplify_eq/=. Qed.

Lemma unlock_table s f v : fs_lock_word s = 0 ->
  set_fs_lock 0 (set_fd_table v (set_nodefs f (set_fs_lock 1 s))) = set_fd_table v (set_nodefs f s).
Proof. intros Hl. destruct s. by simplify_eq/=. Qed.

Lemma unlock_only s v : fs_lock_word s = 0 ->
  set_fs_lock 0 (set_fd_table v (set_fs_lock 1 s)) = set_fd_table v s.
Proof. intros Hl. destruct s. by simplify_eq/=. Qed.

Lemma set_nodefs_id s : set_nodefs (nodefs s) s = s.
Proof. by destruct s. Qed.

Lemma wp_vnode s n v (Q : nm_vnode -> vfs F -> Prop) :
  vnode_at (nodefs s) n = Some v -> Q v s -> wp (vnode n) Q s.
Proof. unfold wp, vnode. by intros ->. Qed.

Lemma wp_walk_parts s d bufs nms (Q : option Z -> vfs F -> Prop) :
  mf_ok (nodefs s) -> is_node (nodefs s) d -> Forall2 (fun b nm => cstr_of b = Some nm) bufs nms ->
  Q (walk (nodefs s) d nms) s -> wp (walk_parts mf_ops d bufs) Q s.
Proof.
  intros Hok Hd Hb. revert d Hd. induction Hb as [|b nm bufs nms Hnm Hb IH]; intros d Hd HQ; cbn [walk_parts walk] in *.
  { by apply wp_ret. }
  unfold rd_str. rewrite Hnm. do 2 wp_step. wp_step. apply wp_lift. apply lookup_law; [done|done|].
  rewrite set_nodefs_id. destruct (entry (nodefs s) d nm) as [d'|] eqn:E; [|by apply wp_ret].
  apply IH; [by eapply entry_law|done].
Qed.

Lemma walk_app f d l l' : walk f d (l ++ l') = (d' ← walk f d l; walk f d' l').
Proof. revert d. induction l as [|nm l IH]; intros d; [done|]. simpl. destruct (entry f d nm); [apply IH|done]. Qed.

Lemma walk_node f d l n : mf_ok f -> is_node f d -> walk f d l = Some n -> is_node f n.
Proof.
  intros Hok. revert d. induction l as [|nm l IH]; intros d Hd; simpl; [by intros [= <-]|].
  destruct (entry f d nm) as [d'|] eqn:E; [|done]. apply IH. by eapply entry_law.
Qed.

(** The buffers that hold the names, in order. *)
Lemma holds_Forall2 parts cs k :
  holds parts 0 cs -> 0 <= k <= zlen cs ->
  Forall2 (fun b nm => cstr_of b = Some nm) (take (Z.to_nat k) parts) (take (Z.to_nat k) cs).
Proof.
  intros Hh Hk. unfold zlen in Hk. apply Forall2_same_length_lookup_2.
  - rewrite !length_take. assert (Hlen : forall j, (j < length cs)%nat -> (j < length parts)%nat).
    { intros j Hj. destruct (lookup_lt_is_Some_2 cs j Hj) as [nm Hnm].
      destruct (Hh (Z.of_nat j) nm) as (b & Hb & _); [by rewrite arr_nat|].
      apply arr_range in Hb. unfold zlen in Hb. lia. }
    destruct (decide (length cs = 0)%nat) as [E|]; [lia|]. specialize (Hlen (length cs - 1)%nat). lia.
  - intros j b nm [Hb Hj]%lookup_take_Some [Hnm _]%lookup_take_Some.
    destruct (Hh (Z.of_nat j) nm) as (b' & Hb' & Hs); [by rewrite arr_nat|].
    rewrite Z.add_0_l, arr_nat in Hb'. congruence.
Qed.

(** What [resolve_path] leaves in the buffer for the last name. *)
Definition leaf_of (path : list Z) (b : list Z) : list Z :=
  match last (components path) with
  | Some nm => copy_name b (Some nm)
  | None => upd b 0 0
  end.

Lemma removelast_take {A} (l : list A) : removelast l = take (length l - 1) l.
Proof.
  induction l as [|x [|y l] IH]; [done|done|]. change (x :: removelast (y :: l) = x :: take (length l) (y :: l)).
  rewrite IH. simpl. by rewrite Nat.sub_0_r.
Qed.

Lemma parts0_ok : parts_ok parts0.
Proof. intros i b [-> _]%arr_elem%elem_of_replicate. done. Qed.

(** The split of the path in [resolve_path]. *)
Lemma split_parts path : Forall (fun c => c <> 0) path -> exists r parts,
  fs_path_split (Some path) 16 parts0 = Done r parts /\
  if zlen (components path) <=? 16 then r = zlen (components path) /\ holds parts 0 (components path)
  else r = NM_ERR NM_EFAIL.
Proof.
  intros Hp. assert (Hw : wp (fs_path_split (Some path) 16) (fun r parts =>
    if zlen (components path) <=? 16 then r = zlen (components path) /\ holds parts 0 (components path)
    else r = NM_ERR NM_EFAIL) parts0).
  { unfold fs_path_split. cbn [Z.leb Z.compare].
    apply wp_split_loop; [done|done|lia|done|apply parts0_ok|..]; rewrite Z.add_0_l; intros parts' _ Hle;
      destruct (Z.leb_spec (zlen (components path)) 16); done || lia. }
  apply wp_done in Hw as (r & parts & E & H). by exists r, parts.
Qed.

Lemma holds_last parts cs nm : holds parts 0 cs -> last cs = Some nm ->
  exists b, arr parts (zlen cs - 1) = Some b /\ cstr_of b = Some nm.
Proof.
  intros Hh Hl. rewrite last_lookup in Hl.
  assert (0 < length cs)%nat by (destruct cs; simpl in *; [done|lia]).
  apply (Hh (zlen cs - 1)). unfold zlen. replace (Z.of_nat (length cs) - 1) with (Z.of_nat (pred (length cs))) by lia.
  by rewrite arr_nat.
Qed.

Lemma wp_resolve s path parent_only leaf (Q : option Z * option (list Z) -> vfs F -> Prop) :
  vfs_inv s -> Forall (fun c => c <> 0) path ->
  match target s path parent_only with
  | Some n => Q (Some n, leaf_of path <$> leaf) s
  | None => Q (None, leaf) s
  end -> wp (resolve_path (Some path) parent_only leaf) Q s.
Proof.
  intros Hi Hp HQ. destruct (vi_fs _ Hi) as [fsn Hfs]. unfold resolve_path, target in *.
  wp_step. apply wp_fs_lock; [apply Hi|]. do 4 wp_step. cbn [root_fs root_vnode set_fs_lock]. rewrite Hfs, (vi_root _ Hi).
  wp_step. unfold fs_unlock. wp_step. rewrite fs_relock by apply Hi.
  assert (Habs : bool_decide (head path = Some SLASH) = (default 0 (head path) =? SLASH)).
  { case_bool_decide as E; [by rewrite E|]. destruct path as [|c path]; [done|]. simpl in *.
    symmetry. apply Z.eqb_neq. congruence. }
  rewrite Habs in HQ. destruct (_ =? SLASH); cbn [negb andb] in *; [|by apply wp_ret].
  destruct (split_parts path Hp) as (r & parts & -> & Hr). set (cs := components path) in *.
  destruct (Z.leb_spec (zlen cs) 16); [|subst r; by apply wp_ret].
  destruct Hr as [-> Hh]. assert (0 <= zlen cs) by (unfold zlen; lia).
  destruct (Z.ltb_spec (zlen cs) 0); [lia|]. unfold leaf_of in HQ. fold cs in HQ.
  destruct (Z.eqb_spec (zlen cs) 0) as [E0|Hne].
  { apply wp_ret. assert (cs = []) as E by (destruct cs; unfold zlen in E0; simpl in *; [done|lia]).
    rewrite E in HQ. by destruct parent_only. }
  cbv zeta. set (limit := if parent_only then zlen cs - 1 else zlen cs).
  assert (Hcs : (if parent_only then removelast cs else cs) = take (Z.to_nat limit) cs).
  { unfold limit, zlen. destruct parent_only; [rewrite removelast_take; f_equal; lia|by rewrite firstn_all2 by lia]. }
  rewrite Hcs in HQ. assert (Hlim : 0 <= limit <= zlen cs) by (unfold limit; destruct parent_only; lia).
  assert (Hwalk : forall Q' : option Z -> vfs F -> Prop, Q' (walk (nodefs s) mf_root (take (Z.to_nat limit) cs)) s ->
    wp (if 0 <? limit then o ← ops_of (mk_filesystem fsn (Some mf_ops)); walk_parts o mf_root (take (Z.to_nat limit) parts)
        else mret (Some mf_root)) Q' s).
  { intros Q' HQ'. destruct (Z.ltb_spec 0 limit).
    - wp_step. unfold ops_of. cbn [fs_ops]. wp_step. eapply wp_walk_parts; [apply Hi|apply root_law, Hi|by apply holds_Forall2|done].
    - apply wp_ret. replace (Z.to_nat limit) with O in HQ' by lia. done. }
  wp_step. apply Hwalk. destruct (walk _ _ _) as [n|]; [|by apply wp_ret].
  destruct leaf as [b|]; [|by apply wp_ret]. destruct (last cs) as [nm|] eqn:El.
  - destruct (holds_last _ _ _ Hh El) as (lb & Hlb & Hs). wp_step. eapply wp_rd; [done|].
    unfold rd_str. rewrite Hs. by wp_go.
  - apply last_None in El. rewrite El in Hne. done.
Qed.

(** ** Opening *)

Definition free_file (f : nm_file) : bool := negb (f_used f).

Lemma wp_alloc_fd s (Q : Z -> vfs F -> Prop) :
  zlen (fd_table s) = NM_FD_MAX ->
  match find_idx free_file (fd_table s) with
  | Some i => Q i (set_fd_table (upd (fd_table s) i (mk_file true 0 0 None)) s)
  | None => Q (NM_ERR NM_EFAIL) s
  end -> wp alloc_fd Q s.
Proof.
  intros Hl HQ. unfold alloc_fd. wp_step.
  apply (wp_for_each (fun i t => t = s /\ forall j f, 0 <= j < i -> arr (fd_table s) j = Some f -> free_file f = false)).
  - unfold NM_FD_MAX. lia.
  - split; [done|]. lia.
  - intros i t Hi [-> Hmin]. destruct (arr_lookup (fd_table s) i) as [f Hf]; [lia|].
    wp_step. eapply wp_rd; [done|]. destruct (f_used f) eqn:Hu; cbn [negb].
    + apply wp_ret. split; [done|]. intros j g Hj Hg. destruct (decide (j = i)) as [->|]; [|eapply Hmin; [|done]; lia].
      simplify_eq. unfold free_file. by rewrite Hu.
    + assert (E : find_idx free_file (fd_table s) = Some i).
      { eapply find_idx_first; [done|unfold free_file; by rewrite Hu|done]. }
      rewrite E in HQ. wp_step. eapply wp_modify_at; [done|]. wp_go. done.
  - intros t [-> Hmin]. assert (E : find_idx free_file (fd_table s) = None).
    { apply find_idx_None. intros f [j Hj]%elem_arr. eapply Hmin; [|done]. apply arr_range in Hj. lia. }
    rewrite E in HQ. by apply wp_ret.
Qed.

(** A directory entry more keeps every walk that succeeded. *)
Lemma walk_grow f f' d nm n e l m :
  entry f d nm = None ->
  (forall d' nm', entry f' d' nm' = if bool_decide (d' = d /\ nm' = nm) then Some n else entry f d' nm') ->
  walk f e l = Some m -> walk f' e l = Some m.
Proof.
  intros Hno He. revert e. induction l as [|x l IH]; intros e; simpl; [done|].
  rewrite He. case_bool_decide as E; [destruct E as [-> ->]; by rewrite Hno|].
  destruct (entry f e x); [apply IH|done].
Qed.

Lemma components_split path nm : last (components path) = Some nm ->
  components path = removelast (components path) ++ [nm].
Proof.
  intros Hl. pose proof (app_removelast_last nm (l := components path)) as E. rewrite E at 1.
  - f_equal. f_equal. revert Hl. generalize (components path).
    induction l as [|x [|y l] IH]; intros Hl; [done|by injection Hl|]. by apply IH.
  - by intros E'; rewrite E' in Hl.
Qed.

(** A missing file in a directory: the walk stops at the last name. *)
Lemma target_parent s path d nm :
  target s path false = None -> target s path true = Some d -> last (components path) = Some nm ->
  entry (nodefs s) d nm = None.
Proof.
  unfold target. destruct (_ && _); [|done]. intros Hno Hd Hl.
  rewrite (components_split _ _ Hl), walk_app, Hd in Hno. simpl in Hno.
  by destruct (entry (nodefs s) d nm).
Qed.

Lemma target_nonempty s path d :
  target s path false = None -> target s path true = Some d -> exists nm, last (components path) = Some nm.
Proof.
  unfold target. destruct (_ && _); [|done]. intros Hno Hd.
  destruct (last (components path)) as [nm|] eqn:El; [by exists nm|].
  apply last_None in El. by rewrite El in *.
Qed.

(** What making a missing file changes: the path stands for a new empty file. *)
Record made s (path : list Z) n s' : Prop := mk_made {
  ma_table : fd_table s' = fd_table s;
  ma_inv : vfs_inv s';
  ma_node : is_node (nodefs s') n;
  ma_target : target s' path false = Some n;
  ma_new : ~ is_node (nodefs s) n;
  ma_content m : content (nodefs s') m = if m =? n then Some [] else content (nodefs s) m;
}.

Lemma inv_set_nodefs s f' :
  vfs_inv s -> mf_ok f' -> (forall m, is_node (nodefs s) m -> is_node f' m) -> vfs_inv (set_nodefs f' s).
Proof.
  intros [H1 H2 H3 H4 H5 H6] Hok Hn. constructor; try done.
  intros fd f Hf Hu. destruct (H6 _ _ Hf Hu) as [(n & ? & ?) ?]. split; [|done]. exists n. auto.
Qed.

Lemma leaf_name path nm : Forall (fun c => c <> 0) path -> last (components path) = Some nm ->
  name_ok nm /\ cstr_of (leaf_of path leaf0) = Some nm.
Proof.
  intros Hp Hl. assert (Hok : name_ok nm).
  { rewrite last_lookup in Hl. eapply component_ok; [done|]. by rewrite arr_nat. }
  split; [done|]. unfold leaf_of. rewrite Hl. by apply (cstr_copy_name _ (mk_cstr 0 nm)).
Qed.

Lemma wp_open_node s path flags (Q : option (option Z) -> vfs F -> Prop) :
  vfs_inv s -> Forall (fun c => c <> 0) path ->
  match target s path false with
  | Some n => Q (Some (Some n)) s
  | None =>
      Q None s /\ Q (Some None) s /\
      (Z.land flags NM_O_CREAT <> 0 -> forall n s', made s path n s' -> Q (Some (Some n)) s')
  end -> wp (open_node (Some path) flags) Q s.
Proof.
  intros Hi Hp HQ. unfold open_node. wp_step. apply wp_resolve; [done|done|].
  destruct (target s path false) as [n|] eqn:Et; cbn [fst]; [by apply wp_ret|].
  destruct HQ as (Hnone & Hfail & Hmade).
  destruct (Z.eqb_spec (Z.land flags NM_O_CREAT) 0) as [|Hcr]; cbn [negb]; [by apply wp_ret|].
  wp_step. apply wp_resolve; [done|done|]. destruct (vi_fs _ Hi) as [fsn Hfs].
  destruct (target s path true) as [d|] eqn:Ed; cbv beta iota; do 2 wp_step; [rewrite Hfs|by apply wp_ret].
  wp_step. unfold ops_of. cbn [fs_ops]. wp_step. cbn [op_create mf_ops fmap option_fmap option_map default].
  destruct (target_nonempty _ _ _ Et Ed) as [nm Hnm]. destruct (leaf_name _ _ Hp Hnm) as [Hok Hleaf].
  pose proof (target_parent _ _ _ _ Et Ed Hnm) as Hno.
  unfold rd_str, id. rewrite Hleaf. do 2 wp_step. wp_step. apply wp_lift.
  assert (Hd : is_node (nodefs s) d).
  { unfold target in Ed. destruct (_ && _); [|done]. eapply walk_node; [apply Hi|apply root_law, Hi|done]. }
  apply create_law; [apply Hi|done|done|done|rewrite set_nodefs_id; by apply wp_ret|].
  intros n f' Hok' Hn Hnew Hkeep He Hc. apply wp_ret, Hmade; [done|]. constructor; try done.
  - by apply inv_set_nodefs.
  - unfold target in *. cbn [nodefs set_nodefs]. destruct (_ && _); [|done].
    rewrite (components_split _ _ Hnm), walk_app, (walk_grow _ _ _ _ _ _ _ _ Hno He Ed). simpl. rewrite He.
    by rewrite bool_decide_true.
Qed.

(** The table with file [fd] opened on node [n]. *)
Definition opened s fd flags n s' : Prop :=
  find_idx free_file (fd_table s) = Some fd /\ is_node (nodefs s) n /\
  s' = set_fd_table (upd (fd_table s) fd (mk_file true flags 0 (Some n))) s.

Lemma opened_inv s fd flags n s' : vfs_inv s -> opened s fd flags n s' -> vfs_inv s'.
Proof.
  intros [H1 H2 H3 H4 H5 H6] (Hfd & Hn & ->). apply find_idx_range in Hfd. constructor; try done; simpl.
  - by rewrite zlen_upd.
  - intros i f. rewrite arr_upd by done. destruct (fd =? i); [|apply H6].
    intros [= <-] _. simpl. split; [by exists n|lia].
Qed.

Lemma wp_open_on s n v flags (Q : Z -> vfs F -> Prop) :
  vfs_inv s -> is_node (nodefs s) n ->
  file_ops_at (ops v) = mk_file_ops (Some mf_open) (Some mf_read) (Some mf_write) (Some mf_stat) ->
  match find_idx free_file (fd_table s) with
  | Some fd => forall s', opened s fd flags n s' -> Q fd s'
  | None => Q (NM_ERR NM_EFAIL) s
  end -> wp (open_on n v flags) Q s.
Proof.
  intros Hi Hn Hops HQ. unfold open_on. wp_step. apply wp_fs_lock; [apply Hi|]. wp_step.
  apply wp_alloc_fd; [apply Hi|]. cbn [fd_table set_fs_lock].
  destruct (find_idx free_file (fd_table s)) as [fd|] eqn:Efd.
  - pose proof (find_idx_range _ _ _ Efd). destruct (Z.ltb_spec fd 0); [lia|]. wp_step. unfold fs_unlock at 1.
    do 2 wp_step. rewrite Hops. cbn [op_open]. apply wp_lift, open_law. cbn [negb Z.eqb].
    wp_step. apply wp_fs_lock; [done|]. wp_step. eapply wp_modify_at; [simpl; by rewrite arr_upd_eq|].
    wp_step. unfold fs_unlock. do 2 wp_step. apply HQ. split_and!; [done|done|].
    simpl. rewrite upd_upd. destruct s. simpl in *. unfold set_fd_table, set_fs_lock, set_nodefs. simpl.
    by rewrite <- (vi_lock _ Hi).
  - cbn [Z.ltb Z.compare NM_ERR NM_EFAIL Z.opp]. wp_step. unfold fs_unlock. do 2 wp_step.
    by rewrite fs_relock by apply Hi.
Qed.

Lemma wp_fs_open s path flags mode (Q : Z -> vfs F -> Prop) :
  vfs_inv s -> Forall (fun c => c <> 0) path ->
  (target s path false = None -> Q (NM_ERR NM_EFAIL) s) ->
  (forall n s1, (target s path false = Some n /\ s1 = s) \/
       (target s path false = None /\ Z.land flags NM_O_CREAT <> 0 /\ made s path n s1) ->
     match find_idx free_file (fd_table s) with
     | Some fd => forall s', opened s1 fd flags n s' -> Q fd s'
     | None => Q (NM_ERR NM_EFAIL) s1
     end) ->
  wp (fs_open (Some path) flags mode) Q s.
Proof.
  intros Hi Hp Hfail Hok. unfold fs_open. rewrite bool_decide_false by done. wp_step.
  assert (Hon : forall n s1, vfs_inv s1 -> is_node (nodefs s1) n ->
    match find_idx free_file (fd_table s1) with
    | Some fd => forall s', opened s1 fd flags n s' -> Q fd s'
    | None => Q (NM_ERR NM_EFAIL) s1
    end -> wp (v ← vnode n; if ops v =? 0 then mret (NM_ERR NM_EFAIL) else open_on n v flags) Q s1).
  { intros n s1 Hi1 Hn HQ. destruct (node_law _ _ (vi_nodes _ Hi1) Hn) as (v & Hv & Hne & Hops & _).
    wp_step. eapply wp_vnode; [done|]. destruct (Z.eqb_spec (ops v) 0); [done|]. by apply wp_open_on. }
  apply wp_open_node; [done|done|]. destruct (target s path false) as [n|] eqn:Et.
  - apply Hon; [done| |apply (Hok n s); by left].
    unfold target in Et. destruct (_ && _); [|done]. eapply walk_node; [apply Hi|apply root_law, Hi|done].
  - split_and!; [apply wp_ret; auto|apply wp_ret; auto|]. intros Hcr n s1 Hm.
    apply Hon; [apply Hm|apply Hm|]. rewrite (ma_table _ _ _ _ Hm). apply Hok. by right.
Qed.

(** ** Reading, writing, seeking, closing *)

(** File [fd] is open on node [n] at [offset]. *)
Definition open_at s fd f n : Prop :=
  arr (fd_table s) fd = Some f /\ f_used f = true /\ f_vnode f = Some n /\ is_node (nodefs s) n /\
  0 <= f_offset f < 2 ^ 63.

Lemma open_cases s fd : vfs_inv s ->
  (exists f n, open_at s fd f n) \/ (forall f, arr (fd_table s) fd = Some f -> f_used f = false).
Proof.
  intros Hi. destruct (arr (fd_table s) fd) as [f|] eqn:Hf; [|right; done].
  destruct (f_used f) eqn:Hu; [left|right; by intros ? [= <-]].
  destruct (vi_files _ Hi _ _ Hf Hu) as [(n & ? & ?) ?]. by exists f, n.
Qed.

Lemma wp_bad_fd s fd (Q : bool -> vfs F -> Prop) :
  zlen (fd_table s) = NM_FD_MAX ->
  (match arr (fd_table s) fd with Some f => Q (negb (f_used f)) s | None => Q true s end) ->
  wp (bad_fd fd) Q s.
Proof.
  intros Hl HQ. unfold bad_fd. destruct (Z.ltb_spec fd 0); cbn [orb]; [rewrite arr_none in HQ by lia; done|].
  destruct (Z.leb_spec NM_FD_MAX fd); [rewrite arr_none in HQ by lia; done|].
  destruct (arr_lookup (fd_table s) fd) as [f Hf]; [lia|]. rewrite Hf in HQ.
  wp_step. eapply wp_rd; [done|]. by apply wp_ret.
Qed.

(** The locked section of an operation on a file. *)
Lemma wp_locked_fd {A} s fd (k : bool -> M (vfs F) A) (Q : A -> vfs F -> Prop) :
  vfs_inv s ->
  ((forall f, arr (fd_table s) fd = Some f -> f_used f = false) -> wp (k true) Q (set_fs_lock 1 s)) ->
  (forall f n, open_at s fd f n -> wp (k false) Q (set_fs_lock 1 s)) ->
  wp (fs_lock ;; bad ← bad_fd fd; k bad) Q s.
Proof.
  intros Hi Hbad Hgood. wp_step. apply wp_fs_lock; [apply Hi|]. wp_step. apply wp_bad_fd; [apply Hi|].
  cbn [fd_table set_fs_lock]. destruct (open_cases s fd Hi) as [(f & n & Ho)|Hno].
  - pose proof Ho as (Hf & Hu & _). rewrite Hf, Hu. by eapply Hgood.
  - destruct (arr (fd_table s) fd) as [f|] eqn:Hf; [rewrite (Hno f) by done|]; by apply Hbad.
Qed.

Lemma wp_file_ops s fd f n (Q : option (Z * nm_file_ops F) -> vfs F -> Prop) :
  vfs_inv s -> open_at s fd f n ->
  Q (Some (n, mk_file_ops (Some mf_open) (Some mf_read) (Some mf_write) (Some mf_stat))) (set_fs_lock 1 s) ->
  wp (file_ops fd) Q (set_fs_lock 1 s).
Proof.
  intros Hi (Hf & Hu & Hv & Hn & _) HQ. unfold file_ops. wp_step. eapply wp_rd; [done|]. rewrite Hv.
  destruct (node_law _ _ (vi_nodes _ Hi) Hn) as (v & Hat & Hne & Hops & _).
  wp_step. eapply wp_vnode; [done|]. apply wp_ret. destruct (Z.eqb_spec (ops v) 0); [done|]. by rewrite Hops.
Qed.

(** The state after the offset of file [fd] became [off]. *)
Definition moved s fd f off := set_fd_table (upd (fd_table s) fd (set_offset off f)) s.

Lemma moved_inv s fd f n off : vfs_inv s -> open_at s fd f n -> 0 <= off < 2 ^ 63 -> vfs_inv (moved s fd f off).
Proof.
  intros [H1 H2 H3 H4 H5 H6] (Hf & Hu & Hv & Hn & _) Hoff. pose proof (arr_range _ _ _ Hf).
  constructor; try done; simpl; [by rewrite zlen_upd|]. intros i g. rewrite arr_upd by done.
  destruct (Z.eqb_spec fd i) as [<-|]; [|apply H6]. intros [= <-] _. simpl. split; [by exists n|done].
Qed.

Lemma moved_open s fd f n off : vfs_inv s -> open_at s fd f n -> 0 <= off < 2 ^ 63 ->
  open_at (moved s fd f off) fd (set_offset off f) n.
Proof.
  intros Hi (Hf & Hu & Hv & Hn & _) Hoff. split_and!; try done; [|apply Hoff..].
  simpl. apply arr_upd_eq. by eapply arr_range.
Qed.

Lemma moved_same s fd f n : open_at s fd f n -> moved s fd f (f_offset f) = s.
Proof.
  intros (Hf & _). unfold moved, set_offset. replace (mk_file _ _ _ _) with f by (by destruct f).
  rewrite upd_id by done. by destruct s.
Qed.

Lemma wp_fs_read s fd len (Q : Z * list Z -> vfs F -> Prop) :
  vfs_inv s -> 0 <= len ->
  ((forall f, arr (fd_table s) fd = Some f -> f_used f = false) -> Q (NM_ERR NM_EFAIL, []) s) ->
  (forall f n, open_at s fd f n ->
     match content (nodefs s) n with
     | Some c => let r := slice c (f_offset f) len in
         f_offset f + zlen r < 2 ^ 63 -> Q (zlen r, r) (moved s fd f (f_offset f + zlen r))
     | None => Q (NM_ERR NM_EFAIL, []) s
     end) ->
  wp (fs_read fd true len) Q s.
Proof.
  intros Hi Hlen Hbad Hgood. unfold fs_read. apply wp_locked_fd; [done|..].
  - intros Hno. cbn [orb negb]. wp_step. unfold fs_unlock. do 2 wp_step. rewrite fs_relock by apply Hi. auto.
  - intros f n Ho. specialize (Hgood f n Ho). pose proof Ho as (Hf & Hu & Hv & Hn & Hoff). cbn [orb negb].
    wp_step. eapply wp_file_ops; [done|done|]. wp_step. eapply wp_rd; [done|]. wp_step. apply wp_lift.
    apply read_law; [apply Hi|done|lia|done|]. cbn [nodefs set_fs_lock].
    destruct (content (nodefs s) n) as [c|] eqn:Hc.
    + destruct (node_law _ _ (vi_nodes _ Hi) Hn) as (v & Hat & _ & _ & Hsz & Hcs). specialize (Hcs _ Hc).
      cbv zeta in Hgood. pose proof (zlen_slice c (f_offset f) len) as Hz.
      set (r := slice c (f_offset f) len) in *. assert (Hr : f_offset f + zlen r < 2 ^ 63) by lia.
      specialize (Hgood Hr). cbn [fst]. wp_step. destruct (Z.ltb_spec 0 (zlen r)).
      * eapply wp_modify_at; [done|]. wp_step. unfold fs_unlock. do 2 wp_step.
        rewrite u64_small, unlock_table, set_nodefs_id by (apply Hi || lia). done.
      * apply wp_ret. wp_step. unfold fs_unlock. do 2 wp_step. replace (zlen r) with 0 in * by lia.
        rewrite Z.add_0_r, (moved_same _ _ _ n Ho) in Hgood. by rewrite unlock_nodefs, set_nodefs_id by apply Hi.
    + cbn [fst Z.ltb Z.compare NM_ERR NM_EFAIL Z.opp]. do 2 wp_step. wp_step. unfold fs_unlock. do 2 wp_step.
      by rewrite unlock_nodefs, set_nodefs_id by apply Hi.
Qed.

(** A write at the offset of the file: nothing changed, or the data are in the
    file and the offset is past them. *)
Definition wrote s fd f n (d : list Z) c' s' : Prop := exists c f',
  content (nodefs s) n = Some c /\ written c (f_offset f) d c' /\ mf_ok f' /\
  (forall m, is_node (nodefs s) m <-> is_node f' m) /\
  (forall e nm, entry f' e nm = entry (nodefs s) e nm) /\
  (forall m, content f' m = if m =? n then Some c' else content (nodefs s) m) /\
  s' = moved (set_nodefs f' s) fd f (f_offset f + zlen d).

Lemma wrote_inv s fd f n d c' s' :
  vfs_inv s -> open_at s fd f n -> f_offset f + zlen d < 2 ^ 63 -> wrote s fd f n d c' s' ->
  vfs_inv s' /\ open_at s' fd (set_offset (f_offset f + zlen d) f) n.
Proof.
  intros Hi (Hf & Hu & Hv & Hn & Hoff) Hend (c & f' & Hc & Hw & Hok & Hnode & _ & _ & ->).
  assert (Hi1 : vfs_inv (set_nodefs f' s)) by (apply inv_set_nodefs; [done|done|intros m; apply Hnode]).
  assert (Ho1 : open_at (set_nodefs f' s) fd f n) by (split_and!; [done..|by apply Hnode|lia|lia]).
  assert (0 <= f_offset f + zlen d < 2 ^ 63) by (unfold zlen in *; lia).
  split; [by eapply moved_inv|by apply moved_open].
Qed.

Lemma wp_fs_write s fd d len (Q : Z -> vfs F -> Prop) :
  vfs_inv s -> 0 <= len <= zlen d ->
  (forall f n, open_at s fd f n -> f_offset f + len <= mf_limit) ->
  Q (NM_ERR NM_EFAIL) s ->
  (forall f n c' s', open_at s fd f n -> wrote s fd f n (take (Z.to_nat len) d) c' s' -> Q len s') ->
  wp (fs_write fd (Some d) len) Q s.
Proof.
  intros Hi Hlen Hroom Hfail Hgood. unfold fs_write. apply wp_locked_fd; [done|..].
  - intros _. cbn [orb]. wp_step. unfold fs_unlock. do 2 wp_step. by rewrite fs_relock by apply Hi.
  - intros f n Ho. specialize (Hroom f n Ho). specialize (Hgood f n).
    pose proof Ho as (Hf & Hu & Hv & Hn & Hoff). pose proof mf_limit_max as Hmax.
    rewrite bool_decide_false by done. cbn [orb].
    assert (Hd : zlen (take (Z.to_nat len) d) = len) by (unfold zlen in *; rewrite length_take; lia).
    wp_step. eapply wp_file_ops; [done|done|]. wp_step. eapply wp_rd; [done|]. wp_step. apply wp_lift.
    apply write_law; [apply Hi|done|lia|done|done| |].
    + cbn [nodefs set_fs_lock Z.ltb Z.compare NM_ERR NM_EFAIL Z.opp]. do 2 wp_step. wp_step. unfold fs_unlock. do 2 wp_step.
      by rewrite unlock_nodefs, set_nodefs_id by apply Hi.
    + intros f' c c' Hc Hw Hok Hnode He Hcont. cbn [nodefs set_fs_lock] in *. wp_step.
      destruct (Z.ltb_spec 0 len).
      * eapply wp_modify_at; [done|]. wp_step. unfold fs_unlock. do 2 wp_step.
        rewrite u64_small, unlock_table by (apply Hi || lia). apply (Hgood c'); [done|].
        exists c, f'. split_and!; try done. by rewrite Hd.
      * apply wp_ret. wp_step. unfold fs_unlock. do 2 wp_step. rewrite unlock_nodefs by apply Hi.
        apply (Hgood c'); [done|]. exists c, f'. split_and!; try done. rewrite Hd.
        replace (f_offset f + len) with (f_offset f) by lia. symmetry. eapply (moved_same _ _ _ n).
        split_and!; [done..|by apply Hnode|lia|lia].
Qed.

Lemma wp_fs_close s fd (Q : Z -> vfs F -> Prop) :
  vfs_inv s ->
  ((forall f, arr (fd_table s) fd = Some f -> f_used f = false) -> Q (NM_ERR NM_EFAIL) s) ->
  (forall f n, open_at s fd f n -> Q 0 (set_fd_table (upd (fd_table s) fd no_file) s)) ->
  wp (fs_close fd) Q s.
Proof.
  intros Hi Hbad Hgood. unfold fs_close. apply wp_locked_fd; [done|..].
  - intros Hno. wp_step. unfold fs_unlock. do 2 wp_step. rewrite fs_relock by apply Hi. auto.
  - intros f n Ho. pose proof Ho as (Hf & _). wp_step. eapply wp_modify_at; [done|].
    wp_step. unfold fs_unlock. do 2 wp_step. rewrite unlock_only by apply Hi. eauto.
Qed.

Lemma closed_inv s fd : vfs_inv s -> 0 <= fd < NM_FD_MAX -> vfs_inv (set_fd_table (upd (fd_table s) fd no_file) s).
Proof.
  intros [H1 H2 H3 H4 H5 H6] Hfd. constructor; try done; simpl; [by rewrite zlen_upd|].
  intros i f. rewrite arr_upd by lia. destruct (fd =? i); [by intros [= <-]|apply H6].
Qed.

(** The position [seek_base] answers, for a file with a node. *)
Definition seek_from s f n (whence : Z) : option Z :=
  if whence =? NM_SEEK_CUR then Some (f_offset f) else
  if whence =? NM_SEEK_END then size <$> vnode_at (nodefs s) n else
  if whence =? NM_SEEK_SET then Some 0 else None.

Lemma wp_seek_base s fd f n whence (Q : option Z -> vfs F -> Prop) :
  vfs_inv s -> open_at s fd f n -> Q (seek_from s f n whence) (set_fs_lock 1 s) ->
  wp (seek_base f whence) Q (set_fs_lock 1 s).
Proof.
  intros Hi (Hf & Hu & Hv & Hn & Hoff) HQ. unfold seek_base, seek_from in *.
  destruct (node_law _ _ (vi_nodes _ Hi) Hn) as (v & Hat & _ & _ & Hsz & _).
  destruct (whence =? NM_SEEK_CUR); [apply wp_ret; by rewrite i64_small by lia|].
  destruct (whence =? NM_SEEK_END).
  - rewrite Hv. wp_step. eapply wp_vnode; [done|]. apply wp_ret. rewrite Hat in HQ. by rewrite i64_small by lia.
  - destruct (whence =? NM_SEEK_SET); by apply wp_ret.
Qed.

Lemma wp_fs_lseek s fd offset whence (Q : Z -> vfs F -> Prop) :
  vfs_inv s ->
  ((forall f, arr (fd_table s) fd = Some f -> f_used f = false) -> Q (NM_ERR NM_EFAIL) s) ->
  (forall f n, open_at s fd f n ->
     match seek_from s f n whence with
     | None => Q (NM_ERR NM_EFAIL) s
     | Some base => - 2 ^ 63 <= base + offset < 2 ^ 63 /\
         (base + offset < 0 -> Q (NM_ERR NM_EFAIL) s) /\
         (0 <= base + offset -> Q (base + offset) (moved s fd f (base + offset)))
     end) ->
  wp (fs_lseek fd offset whence) Q s.
Proof.
  intros Hi Hbad Hgood. unfold fs_lseek. apply wp_locked_fd; [done|..].
  - intros Hno. wp_step. unfold fs_unlock. do 2 wp_step. rewrite fs_relock by apply Hi. auto.
  - intros f n Ho. specialize (Hgood f n Ho). pose proof Ho as (Hf & _). wp_step. eapply wp_rd; [done|].
    wp_step. eapply wp_seek_base; [done|done|]. destruct (seek_from s f n whence) as [base|].
    + destruct Hgood as (Hr & Hneg & Hpos). wp_step. unfold add64.
      destruct (Z.ltb_spec (base + offset) (- 2 ^ 63)); [lia|]. destruct (Z.leb_spec (2 ^ 63) (base + offset)); [lia|].
      cbn [orb]. apply wp_ret. destruct (Z.ltb_spec (base + offset) 0).
      * wp_step. unfold fs_unlock. do 2 wp_step. rewrite fs_relock by apply Hi. auto.
      * wp_step. eapply wp_modify_at; [done|]. wp_step. unfold fs_unlock. do 2 wp_step.
        rewrite u64_small, unlock_only by (apply Hi || lia). auto.
    + wp_step. unfold fs_unlock. do 2 wp_step. rewrite fs_relock by apply Hi. auto.
Qed.

(** ** Starting: [fs_init], then [fs_mount_root] *)

Lemma wp_fs_init s (Q : unit -> vfs F -> Prop) :
  zlen (fd_table s) = NM_FD_MAX ->
  (forall s', zlen (fd_table s') = NM_FD_MAX -> fs_lock_word s' = 0 -> nodefs s' = nodefs s ->
     (forall fd f, arr (fd_table s') fd = Some f -> f = no_file) -> Q tt s') ->
  wp fs_init Q s.
Proof.
  intros Hl HQ. unfold fs_init. do 3 wp_step. apply wp_fs_lock; [done|]. do 5 wp_step.
  apply (wp_for_all (fun i t => zlen (fd_table t) = NM_FD_MAX /\ nodefs t = nodefs s /\
    forall fd f, fd < i -> arr (fd_table t) fd = Some f -> f = no_file)).
  - unfold NM_FD_MAX. lia.
  - split_and!; [done|done|]. intros fd f Hfd Hf. apply arr_range in Hf. lia.
  - intros i t Hi (Ht & Hn & Hf). destruct (arr_lookup (fd_table t) i) as [g Hg]; [lia|].
    eapply wp_modify_at; [done|]. simpl. rewrite zlen_upd. split_and!; [done|done|].
    intros fd f Hfd. rewrite arr_upd by lia. destruct (Z.eqb_spec i fd) as [<-|]; [by intros [= <-]|].
    apply Hf. lia.
  - intros t (Ht & Hn & Hf). unfold fs_unlock. wp_step. apply HQ; [done|done|done|].
    intros fd f Hfd. apply (Hf fd); [|done]. apply arr_range in Hfd. simpl in Hfd. lia.
Qed.

Lemma wp_fs_mount s nm (Q : Z -> vfs F -> Prop) :
  zlen (fd_table s) = NM_FD_MAX -> fs_lock_word s = 0 -> mf_raw (nodefs s) ->
  (forall fd f, arr (fd_table s) fd = Some f -> f_used f = false) ->
  (forall s', vfs_inv s' -> fd_table s' = fd_table s -> (forall nm, entry (nodefs s') mf_root nm = None) -> Q 0 s') ->
  wp (fs_mount_root (Some (mk_filesystem nm (Some mf_ops)))) Q s.
Proof.
  intros Hl Hlock Hraw Hfree HQ. unfold fs_mount_root. cbn [fs_ops fmap option_fmap option_map op_mount_root mf_ops].
  wp_step. apply wp_lift, mount_law; [done|]. intros f' Hok Hempty. wp_step. apply wp_fs_lock; [done|].
  unfold fs_unlock. wp_go. apply HQ; [|done|done]. constructor; try done; simpl; [by exists nm|].
  intros fd f Hf. by rewrite (Hfree _ _ Hf).
Qed.

(** ** The promise to the descriptors *)

Definition room s (len : Z) : Prop := forall fd f n, open_at s fd f n -> f_offset f + len <= mf_limit.

Lemma target_node s path b n : vfs_inv s -> target s path b = Some n -> is_node (nodefs s) n.
Proof.
  intros Hi. unfold target. destruct (_ && _); [|done]. apply walk_node; [apply Hi|apply root_law, Hi].
Qed.

Lemma wp_fs_stat s path (Q : Z * option nm_stat -> vfs F -> Prop) :
  vfs_inv s -> Forall (fun c => c <> 0) path ->
  match target s path false with
  | Some n => forall v st, vnode_at (nodefs s) n = Some v -> st_size st = size v -> Q (0, Some st) s
  | None => Q (NM_ERR NM_EFAIL, None) s
  end -> wp (fs_stat (Some path) true) Q s.
Proof.
  intros Hi Hp HQ. unfold fs_stat. rewrite bool_decide_eq_false_2 by done. cbn [negb orb]. wp_step.
  apply wp_resolve; [done|done|]. destruct (target s path false) as [n|] eqn:Et; simpl; [|by apply wp_ret].
  destruct (node_law _ n (vi_nodes _ Hi)) as (v & Hv & Ho & Hops & _); [by eapply target_node|].
  wp_step. unfold vnode. unfold wp at 1. rewrite Hv. destruct (Z.eqb_spec (ops v) 0); [done|]. rewrite Hops. simpl.
  apply wp_lift. eapply stat_law; [apply Hi|by eapply target_node|done|]. intros st Hst.
  replace (set_nodefs (nodefs s) s) with s by (by destruct s). by eapply HQ.
Qed.

Lemma vfs_read_law s fd len : vfs_inv s -> 0 <= len -> 
  wp (fs_read fd true len) (fun r s' => vfs_inv s' /\ zlen r.2 <= len) s.
Proof.
  intros Hi Hlen. apply wp_fs_read; [done|done|by split|]. intros f n Ho. pose proof Ho as (_ & _ & _ & _ & ?).
  destruct (content (nodefs s) n); [|by split]. intros r Hr. pose proof (zlen_slice l (f_offset f) len).
  split; [eapply moved_inv; [done|done|]; unfold zlen in *; lia|]. cbn [snd]. unfold r. lia.
Qed.

Lemma vfs_write_law s fd d len :
  vfs_inv s -> 0 <= len <= zlen d -> room s len -> wp (fs_write fd (Some d) len) (fun r s' => vfs_inv s' /\ r <= len) s.
Proof.
  intros Hi Hlen Hroom. apply wp_fs_write; [done|done|intros; by eapply Hroom|split; [done|unfold NM_ERR, NM_EFAIL; lia]|].
  intros f n c' s' Ho Hw. split; [|lia]. eapply (wrote_inv s fd f n); [done|done| |done]. pose proof mf_limit_max.
  specialize (Hroom _ _ _ Ho). unfold zlen in *. rewrite length_take. lia.
Qed.

Lemma vfs_close_law s fd : vfs_inv s -> wp (fs_close fd) (fun _ s' => vfs_inv s') s.
Proof.
  intros Hi. apply wp_fs_close; [done|done|]. intros f n (Hf & _). apply closed_inv; [done|].
  rewrite <- (vi_table _ Hi). by eapply arr_range.
Qed.

(** ** Properties *)


(** C23: what is written is read back.  Through an open descriptor whose offset
    is within the file, writing [len] bytes, seeking back and reading [len] bytes
    answers those bytes, whenever the write reports success; the file is the old
    one with the bytes spliced in at the offset, and no other file changes. *)
Theorem fs_write_seek_read s fd f n c d len :
  vfs_inv s -> open_at s fd f n -> content (nodefs s) n = Some c -> f_offset f <= zlen c ->
  0 < len <= zlen d -> f_offset f + len <= mf_limit ->
  wp (r ← fs_write fd (Some d) len; q ← fs_lseek fd (f_offset f) NM_SEEK_SET; x ← fs_read fd true len;
      mret (r, q, x))
    (fun res s' => vfs_inv s' /\ (res.1.1 = len \/ res.1.1 = NM_ERR NM_EFAIL) /\
       (res.1.1 = len -> res.1.2 = f_offset f /\ res.2 = (len, take (Z.to_nat len) d) /\
          forall m, content (nodefs s') m =
            if m =? n then Some (splice c (f_offset f) (take (Z.to_nat len) d)) else content (nodefs s) m)) s.
Proof.
  intros Hi Ho Hc Hin Hlen Hroom. pose proof mf_limit_max as Hmax. pose proof Ho as (Hf & _ & _ & _ & Hoff).
  set (d' := take (Z.to_nat len) d). assert (Hd : zlen d' = len) by (unfold d', zlen in *; rewrite length_take; lia).
  assert (Huniq : forall s1 f1 n1 f2 n2, open_at s1 fd f1 n1 -> open_at s1 fd f2 n2 -> f1 = f2 /\ n1 = n2).
  { intros s1 f1 n1 f2 n2 (H1 & _ & H2 & _) (H3 & _ & H4 & _). simplify_eq. split; congruence. }
  (* seeking back and reading, from a state with the file open *)
  assert (Hrest : forall s1 f1 r (Q : Z * Z * (Z * list Z) -> vfs F -> Prop), vfs_inv s1 -> open_at s1 fd f1 n ->
    (forall x s2, vfs_inv s2 -> nodefs s2 = nodefs s1 ->
       (forall c1, content (nodefs s1) n = Some c1 -> x = (zlen (slice c1 (f_offset f) len), slice c1 (f_offset f) len)) ->
       Q (r, f_offset f, x) s2) ->
    wp (q ← fs_lseek fd (f_offset f) NM_SEEK_SET; x ← fs_read fd true len; mret (r, q, x)) Q s1).
  { intros s1 f1 r Q Hi1 Ho1 HQ. wp_step. apply wp_fs_lseek; [done| |].
    { intros Hno. destruct Ho1 as (H1 & H2 & _). by rewrite (Hno _ H1) in H2. }
    intros f2 n2 Ho2. destruct (Huniq _ _ _ _ _ Ho1 Ho2) as [<- <-]. simpl. split; [lia|]. split; [lia|]. intros _.
    rewrite Z.add_0_l. pose proof (moved_inv _ _ _ _ (f_offset f) Hi1 Ho1 Hoff) as Hi2.
    pose proof (moved_open _ _ _ _ (f_offset f) Hi1 Ho1 Hoff) as Ho3. wp_step. apply wp_fs_read; [done|lia| |].
    { intros Hno. destruct Ho3 as (H1 & H2 & _). by rewrite (Hno _ H1) in H2. }
    intros f3 n3 Ho4. destruct (Huniq _ _ _ _ _ Ho3 Ho4) as [<- <-].
    change (nodefs (moved s1 fd f1 (f_offset f))) with (nodefs s1). cbn [f_offset set_offset].
    destruct (content (nodefs s1) n) as [c1|].
    - cbv zeta. intros Hend. apply wp_ret, HQ; [|done|by intros ? [= <-]].
      eapply moved_inv; [done|done|]. unfold zlen in *. lia.
    - apply wp_ret, HQ; done. }
  wp_step. apply wp_fs_write; [done|lia| | |].
  - intros f1 n1 Ho1. by destruct (Huniq _ _ _ _ _ Ho Ho1) as [<- <-].
  - eapply Hrest; [done|done|]. intros x s2 Hi2 _ _. cbn [fst snd]. split_and!; [done|by right|].
    unfold NM_ERR, NM_EFAIL. lia.
  - intros f1 n1 c' s' Ho1 Hw. destruct (Huniq _ _ _ _ _ Ho Ho1) as [<- <-]. fold d' in Hw |- *.
    assert (Hend : f_offset f + zlen d' < 2 ^ 63) by lia.
    destruct (wrote_inv _ _ _ _ _ _ _ Hi Ho Hend Hw) as [Hi' Ho'].
    destruct Hw as (c0 & f' & Hc0 & Hw & _ & _ & _ & Hcont & ->). simplify_eq.
    apply written_splice in Hw; [|lia]. subst c'.
    eapply Hrest; [done|done|]. intros x s2 Hi2 Hs2 Hx. cbn [fst snd]. split_and!; [done|by left|]. intros _.
    cbn [nodefs moved set_fd_table set_nodefs] in Hs2, Hx.
    assert (Hn : content f' n = Some (splice c (f_offset f) d')) by (by rewrite Hcont, Z.eqb_refl).
    split_and!; [done| |intros m; rewrite Hs2; apply Hcont].
    pose proof (slice_splice c (f_offset f) d' ltac:(lia)) as E. rewrite Hd in E. by rewrite (Hx _ Hn), E, Hd.
Qed.

(** [fs_lseek] computes the new position in signed 64 bits: from an offset of
    at least 1, a relative seek by the largest [int64_t] overflows, which is
    undefined behaviour, although the check that follows is meant to refuse it. *)
Theorem fs_lseek_overflows s fd f n :
  vfs_inv s -> open_at s fd f n -> 0 < f_offset f -> fs_lseek fd (2 ^ 63 - 1) NM_SEEK_CUR s = Stuck SignedOverflow.
Proof.
  intros Hi (Hf & Hu & Hv & Hn & Hoff) Hpos. pose proof (arr_range _ _ _ Hf) as Hr.
  rewrite (vi_table _ Hi) in Hr. unfold fs_lseek, fs_lock, bad_fd, rd, mbind, M_bind.
  rewrite (vi_lock _ Hi). cbn [Z.eqb]. unfold NM_FD_MAX in *.
  destruct (Z.ltb_spec fd 0), (Z.leb_spec 64 fd); try lia. cbn [orb fd_table set_fs_lock]. rewrite Hf.
  unfold mret, M_ret. rewrite Hu. cbn [negb fd_table set_fs_lock]. rewrite Hf. unfold seek_base.
  cbn [Z.eqb NM_SEEK_CUR Pos.eqb]. unfold mret, M_ret, add64. rewrite i64_small by lia.
  destruct (Z.leb_spec (2 ^ 63) (f_offset f + (2 ^ 63 - 1))); [|lia]. by rewrite orb_true_r.
Qed.
End spec.

#[export] Program Instance vfs_FileSys {F} `{!Vnodes F, !MountedFs F} : FileSys (vfs F) := {
  Interfaces.fs_read := fun fd len => fs_read fd true len;
  Interfaces.fs_write := fun fd d len => fs_write fd (Some d) len;
  Interfaces.fs_close := fs_close;
  fs_ok := vfs_inv;
  fs_room := room;
  fs_read_law := vfs_read_law;
  fs_write_law := vfs_write_law;
  fs_close_law := vfs_close_law;
}.

(** C24: [fs_path_split] answers the components of a path.  For a path of any
    length and any array of buffers, the result is the number of the nonempty
    pieces between slashes, and buffer [i] holds piece [i] as a C string, cut to
    63 characters; when there are more pieces than buffers asked for, it is an
    error.  The loop terminates and stays in the buffers. *)
Theorem fs_path_split_spec path max parts :
  Forall (fun c => c <> 0) path -> 0 < max <= zlen parts -> parts_ok parts ->
  wp (fs_path_split (Some path) max) (fun r parts' =>
    zlen parts' = zlen parts /\
    if zlen (components path) <=? max
    then r = zlen (components path) /\ holds parts' 0 (components path)
    else r = NM_ERR NM_EFAIL) parts.
Proof.
  intros Hp Hm Hok. unfold fs_path_split. destruct (Z.leb_spec max 0); [lia|].
  apply wp_split_loop; [done|done|lia|lia|done|..]; rewrite Z.add_0_l; intros parts' Hl Hle;
    destruct (Z.leb_spec (zlen (components path)) max); done || lia.
Qed.

Lemma fs_path_split_witness :
  wp (fs_path_split (Some [47; 97; 47; 47; 98; 99]) 16) (fun r parts' =>
    zlen parts' = zlen parts0 /\
    if zlen (components [47; 97; 47; 47; 98; 99]) <=? 16
    then r = zlen (components [47; 97; 47; 47; 98; 99]) /\ holds parts' 0 (components [47; 97; 47; 47; 98; 99])
    else r = NM_ERR NM_EFAIL) parts0.
Proof.
  apply (fs_path_split_spec [47; 97; 47; 47; 98; 99] 16 parts0); [by repeat constructor|done|].
  intros i b [-> _]%arr_elem%elem_of_replicate. done.
Defined.

Example components_run : components [47; 97; 47; 47; 98; 99] = [[97]; [98; 99]].
Proof. reflexivity. Qed.

(** *** A concrete machine: tmpfs mounted on the heap of two megabytes *)

#[local] Existing Instances Kheap.kheap_KHeap Tmpfs.tmpfs_Vnodes Tmpfs.tmpfs_MountedFs.

Definition tmpfs_fs : nm_filesystem (Tmpfs.tmpfs Kheap.kheap) :=
  mk_filesystem [116; 109; 112; 102; 115] (Some mf_ops).
(** tmpfs mounted, with no file open. *)
Definition vfs1 : vfs (Tmpfs.tmpfs Kheap.kheap) :=
  mk_vfs (replicate 64 no_file) (Some tmpfs_fs) (Some 0) 0 Tmpfs.fs1.
(** With the file "/f" open as descriptor 0, at offset 0 and at offset 5. *)
Definition file2 : nm_file := mk_file true 66 0 (Some 1).
Definition vfs2 : vfs (Tmpfs.tmpfs Kheap.kheap) :=
  mk_vfs (file2 :: replicate 63 no_file) (Some tmpfs_fs) (Some 0) 0 Tmpfs.fs2.
Definition file3 : nm_file := mk_file true 66 5 (Some 1).
Definition vfs3 : vfs (Tmpfs.tmpfs Kheap.kheap) :=
  mk_vfs (file3 :: replicate 63 no_file) (Some tmpfs_fs) (Some 0) 0 Tmpfs.fs2.

Lemma file_node : is_node (nodefs vfs2) 1.
Proof. eexists. split; reflexivity. Qed.

Lemma vfs1_inv : vfs_inv vfs1.
Proof.
  constructor; [done|done|by eexists|done|exists 1; exact Tmpfs.fs1_inv|].
  intros fd f [-> _]%arr_elem%elem_of_replicate. done.
Qed.

Lemma one_file_inv f : f_vnode f = Some 1 -> 0 <= f_offset f < 2 ^ 63 ->
  vfs_inv (mk_vfs (f :: replicate 63 no_file) (Some tmpfs_fs) (Some 0) 0 Tmpfs.fs2).
Proof.
  intros Hv Hoff. constructor; [done|done|by eexists|done|exists 2; exact Tmpfs.fs2_inv|].
  intros fd g Hg%arr_elem. cbn [fd_table] in Hg. apply elem_of_cons in Hg as [->|[-> _]%elem_of_replicate]; [|done].
  intros _. split; [exists 1; split; [done|exact file_node]|done].
Qed.

Lemma vfs2_inv : vfs_inv vfs2.
Proof. by apply one_file_inv. Qed.

Lemma vfs3_inv : vfs_inv vfs3.
Proof. by apply one_file_inv. Qed.

Lemma open_2 : open_at vfs2 0 file2 1.
Proof. split_and!; [reflexivity|reflexivity|reflexivity|exact file_node|done|done]. Qed.

Lemma open_3 : open_at vfs3 0 file3 1.
Proof. split_and!; [reflexivity|reflexivity|reflexivity|exact file_node|done|done]. Qed.

Lemma limit_2 : 1000 <= mf_limit (F := Tmpfs.tmpfs Kheap.kheap).
Proof. exact Tmpfs.fs_limit. Qed.

(** Opening "/f" for the first time makes the file and answers descriptor 0. *)
Example open_run : match fs_open (Some [47; 102]) 66 0 vfs1 with
  | Done fd s => fd = 0 /\ arr (fd_table s) 0 = Some file2
  | Stuck _ => False
  end.
Proof. vm_compute. done. Qed.


Lemma fs_write_seek_read_witness :
  open_at vfs2 0 file2 1 /\
  wp (r ← fs_write 0 (Some [7; 8; 9]) 3; q ← fs_lseek 0 0 NM_SEEK_SET; x ← fs_read 0 true 3; mret (r, q, x))
    (fun res s' => vfs_inv s' /\ (res.1.1 = 3 \/ res.1.1 = NM_ERR NM_EFAIL) /\
       (res.1.1 = 3 -> res.1.2 = 0 /\ res.2 = (3, take (Z.to_nat 3) [7; 8; 9]) /\
          forall m, content (nodefs s') m =
            if m =? 1 then Some (splice [] 0 (take (Z.to_nat 3) [7; 8; 9])) else content (nodefs vfs2) m)) vfs2.
Proof.
  split; [exact open_2|].
  apply (fs_write_seek_read vfs2 0 file2 1 [] [7; 8; 9] 3);
    [exact vfs2_inv|exact open_2|reflexivity|done|done|pose proof limit_2; change (f_offset file2) with 0; lia].
Defined.

Lemma fs_lseek_overflows_witness : fs_lseek 0 (2 ^ 63 - 1) NM_SEEK_CUR vfs3 = Stuck SignedOverflow.
Proof. apply (fs_lseek_overflows vfs3 0 file3 1); [exact vfs3_inv|exact open_3|done]. Defined.
End Vfs.
