(* ===== verification/Table.v ===== *)
(** * Tables searched by a key

    Several components keep a table of records, some of them unused, and search
    it for the record with a given key: ports of [udp.c] by number, connections
    of [tcp.c] by identifier. A table with distinct keys is a finite map from
    keys to records. *)

From S2P Require Import Prelude.

Module Table.

Section keyed.
Context {A : Type} (key : A -> option Z).
Implicit Types (l : list A) (x y : A) (i j k : Z).

Definition has k x : bool := bool_decide (key x = Some k).
Definition find_key l k : option Z := find_idx (has k) l.
Definition at_key l k : option A := i ← find_key l k; arr l i.
Definition keys l : list Z := omap key l.

Definition distinct l : Prop :=
  forall i j x y k, arr l i = Some x -> arr l j = Some y -> key x = Some k -> key y = Some k -> i = j.

Lemma has_true k x : has k x = true <-> key x = Some k.
Proof. apply bool_decide_eq_true. Qed.

Lemma has_some n k x : key x = Some k -> has n x = (n =? k).
Proof.
  intros E. unfold has. rewrite E. destruct (Z.eqb_spec n k) as [->|]; [by apply bool_decide_eq_true_2|].
  apply bool_decide_eq_false_2. congruence.
Qed.

Lemma has_none n x : key x = None -> has n x = false.
Proof. intros E. unfold has. by rewrite E. Qed.

Lemma find_key_some l i x k : distinct l -> arr l i = Some x -> key x = Some k -> find_key l k = Some i.
Proof.
  intros Hd Hx Hk. unfold find_key. destruct (find_idx (has k) l) as [j|] eqn:E.
  - apply find_idx_Some in E as (y & Hy & Hp%has_true & _). f_equal. by eapply Hd.
  - rewrite find_idx_None in E. apply has_true in Hk. rewrite E in Hk by (by eapply arr_elem). done.
Qed.

Lemma at_key_some l i x k : distinct l -> arr l i = Some x -> key x = Some k -> at_key l k = Some x.
Proof. intros Hd Hx Hk. unfold at_key. by rewrite (find_key_some l i x k Hd Hx Hk). Qed.

Lemma find_key_inv l i k : find_key l k = Some i -> exists x, arr l i = Some x /\ key x = Some k /\ at_key l k = Some x.
Proof.
  intros E. unfold at_key. rewrite E. apply find_idx_Some in E as (x & Hx & Hk%has_true & _). by exists x.
Qed.

Lemma at_key_inv l k x : at_key l k = Some x -> exists i, find_key l k = Some i /\ arr l i = Some x /\ key x = Some k.
Proof.
  unfold at_key. destruct (find_key l k) as [i|] eqn:E; [|done]. simpl. intros Hx. exists i.
  apply find_key_inv in E as (y & Hy & Hk & _). by simplify_eq.
Qed.

Lemma find_key_none l k : find_key l k = None <-> at_key l k = None.
Proof.
  unfold at_key. destruct (find_key l k) as [i|] eqn:E; [|done]. apply find_key_inv in E as (x & Hx & _). simpl. by rewrite Hx.
Qed.

Lemma at_key_none l k : at_key l k = None <-> forall i x, arr l i = Some x -> key x <> Some k.
Proof.
  rewrite <- find_key_none. unfold find_key. rewrite find_idx_None. split.
  - intros H i x Hx Hk%has_true. by rewrite H in Hk by (by eapply arr_elem).
  - intros H x [i Hx]%elem_arr. destruct (has k x) eqn:E; [|done]. apply has_true in E. by destruct (H i x Hx).
Qed.

(** Replacing a record by one whose key no other record has. *)
Definition fresh_at l i x : Prop :=
  forall k, key x = Some k -> forall j y, j <> i -> arr l j = Some y -> key y <> Some k.

Lemma distinct_upd l i x : 0 <= i < zlen l -> distinct l -> fresh_at l i x -> distinct (upd l i x).
Proof.
  intros Hi Hd Hf a b y z k. rewrite !arr_upd by done. intros Ha Hb Hy Hz.
  destruct (Z.eqb_spec i a), (Z.eqb_spec i b); simplify_eq; [done|..|by eapply Hd].
  - exfalso. by eapply (Hf k Hy b).
  - exfalso. by eapply (Hf k Hz a).
Qed.

Lemma at_key_upd l i x y k :
  distinct l -> arr l i = Some y -> fresh_at l i x ->
  at_key (upd l i x) k = if has k x then Some x else if has k y then None else at_key l k.
Proof.
  intros Hd Hy Hf. pose proof (arr_range _ _ _ Hy) as Hi. pose proof (distinct_upd l i x Hi Hd Hf) as Hd'.
  destruct (has k x) eqn:Ex.
  { apply has_true in Ex. eapply at_key_some; [done|by apply arr_upd_eq|done]. }
  assert (Hk : key x <> Some k) by (intros E%has_true; congruence). destruct (has k y) eqn:Ey.
  - apply has_true in Ey. apply at_key_none. intros j z. rewrite arr_upd by done.
    destruct (Z.eqb_spec i j); [by intros [= <-]|]. intros Hz Hkz. by assert (i = j) by (by eapply Hd).
  - destruct (at_key l k) as [z|] eqn:E.
    + apply at_key_inv in E as (j & _ & Hz & Hkz). eapply (at_key_some _ j); [done| |done].
      rewrite arr_upd_ne; [done|]. intros ->. simplify_eq. apply has_true in Hkz. congruence.
    + rewrite at_key_none in E |- *. intros j z. rewrite arr_upd by done.
      destruct (Z.eqb_spec i j); [by intros [= <-]|]. by apply E.
Qed.

(** A record that keeps its key. *)
Lemma fresh_same l i x y : distinct l -> arr l i = Some y -> key x = key y -> fresh_at l i x.
Proof. intros Hd Hy E k Hk j z Hne Hz Hkz. apply Hne. eapply Hd; [done..|]. by rewrite <- E. Qed.

Lemma fresh_unused l i x : key x = None -> fresh_at l i x.
Proof. intros E k Hk. by rewrite E in Hk. Qed.

Lemma fresh_new l i x k : key x = Some k -> at_key l k = None -> fresh_at l i x.
Proof. intros E Hn k' Hk j y _ Hy. rewrite E in Hk. simplify_eq. by eapply at_key_none. Qed.

Lemma keys_nodup l : distinct l -> NoDup (keys l).
Proof. intros Hd. apply NoDup_omap. intros i j x y k. apply Hd. Qed.

Lemma keys_spec l k : k ∈ keys l <-> at_key l k <> None.
Proof.
  unfold keys. rewrite list_elem_of_omap. split.
  - intros (x & [i Hx]%elem_arr & Hk) Hn. by eapply at_key_none.
  - intros Hn. destruct (at_key l k) as [x|] eqn:E; [|done]. apply at_key_inv in E as (i & _ & Hx & Hk).
    exists x. split; [by eapply arr_elem|done].
Qed.
End keyed.

End Table.
