(* ===== verification/Net.v ===== *)
(** * The network interface ([kernel/net/net.c], [kernel/drivers/rtl8139.c])

    The identity of the interface, its counters under [net_lock], and the driver
    of the card, which accepts a frame when a device was found and never
    receives one. [net_input_frame] and [net_poll], which call the protocols,
    are in [Ip]. *)

From S2P Require Import Prelude.

Module Net.

Definition NM_ETH_TYPE_ARP : Z := 2054.
Definition NM_ETH_TYPE_IPV4 : Z := 2048.
Definition NM_IP_PROTO_ICMP : Z := 1.
Definition NM_IP_PROTO_TCP : Z := 6.
Definition NM_IP_PROTO_UDP : Z := 17.

Record nm_net_stats := mk_stats {
  rx_frames : Z;
  tx_frames : Z;
  rx_dropped : Z;
  arp_hits : Z;
  arp_misses : Z;
  icmp_echo_req : Z;
  icmp_echo_rep : Z;
  udp_rx : Z;
  udp_tx : Z;
  tcp_conns : Z;
}.

Record net_config := mk_cfg { mac : list Z; ip : Z; gw : Z; mask : Z; loopback : bool }.

(** The static data of [net.c], with [rtl_dev] of [rtl8139.c] ([0] when null). *)
Record net := mk_net { net_cfg : net_config; stats : nm_net_stats; net_lock_word : Z; rtl_dev : Z }.

Definition set_net_cfg v s := mk_net v (stats s) (net_lock_word s) (rtl_dev s).
Definition set_stats v s := mk_net (net_cfg s) v (net_lock_word s) (rtl_dev s).
Definition set_net_lock v s := mk_net (net_cfg s) (stats s) v (rtl_dev s).
Definition set_rtl_dev v s := mk_net (net_cfg s) (stats s) (net_lock_word s) v.

Definition net_lock : M net unit := fun s =>
  if net_lock_word s =? 0 then Done tt (set_net_lock 1 s) else Stuck LockHeld.
Definition net_unlock : M net unit := modify (set_net_lock 0).

Definition bswap16 (v : Z) : Z := u16 (Z.lor (Z.shiftr v 8) (Z.shiftl v 8)).

Definition zero_stats : nm_net_stats := mk_stats 0 0 0 0 0 0 0 0 0 0.

Definition net_init : M net unit :=
  modify (set_net_lock 0) ;;
  net_lock ;;
  c ← gets net_cfg;
  m ← for_acc (upto 0 6) (mac c) (fun m i => match arr m i with
    | Some _ => mret (upd m i (u8 (82 + i)))
    | None => stuck OutOfBounds end);
  modify (set_net_cfg (mk_cfg m 3232235876 3232235777 4294967040 true)) ;;
  modify (set_stats zero_stats) ;;
  net_unlock.

Definition net_set_identity (new_mac : option (list Z)) (new_ip gateway new_mask : Z) : M net unit :=
  net_lock ;;
  c ← gets net_cfg;
  m ← match new_mac with
      | Some m => copy_bytes (mac c) m 6
      | None => mret (mac c)
      end;
  modify (set_net_cfg (mk_cfg m new_ip gateway new_mask (loopback c))) ;;
  net_unlock.

(** A counter goes up by one under the lock. *)
Definition note (f : nm_net_stats -> nm_net_stats) : M net unit :=
  net_lock ;;
  s ← gets stats;
  modify (set_stats (f s)) ;;
  net_unlock.

Definition inc_rx_frames s := mk_stats (u64 (rx_frames s + 1)) (tx_frames s) (rx_dropped s) (arp_hits s) (arp_misses s)
  (icmp_echo_req s) (icmp_echo_rep s) (udp_rx s) (udp_tx s) (tcp_conns s).
Definition inc_tx_frames s := mk_stats (rx_frames s) (u64 (tx_frames s + 1)) (rx_dropped s) (arp_hits s) (arp_misses s)
  (icmp_echo_req s) (icmp_echo_rep s) (udp_rx s) (udp_tx s) (tcp_conns s).
Definition inc_rx_dropped s := mk_stats (rx_frames s) (tx_frames s) (u64 (rx_dropped s + 1)) (arp_hits s) (arp_misses s)
  (icmp_echo_req s) (icmp_echo_rep s) (udp_rx s) (udp_tx s) (tcp_conns s).
Definition inc_arp_hits s := mk_stats (rx_frames s) (tx_frames s) (rx_dropped s) (u64 (arp_hits s + 1)) (arp_misses s)
  (icmp_echo_req s) (icmp_echo_rep s) (udp_rx s) (udp_tx s) (tcp_conns s).
Definition inc_arp_misses s := mk_stats (rx_frames s) (tx_frames s) (rx_dropped s) (arp_hits s) (u64 (arp_misses s + 1))
  (icmp_echo_req s) (icmp_echo_rep s) (udp_rx s) (udp_tx s) (tcp_conns s).
Definition inc_icmp_echo_req s := mk_stats (rx_frames s) (tx_frames s) (rx_dropped s) (arp_hits s) (arp_misses s)
  (u64 (icmp_echo_req s + 1)) (icmp_echo_rep s) (udp_rx s) (udp_tx s) (tcp_conns s).
Definition inc_icmp_echo_rep s := mk_stats (rx_frames s) (tx_frames s) (rx_dropped s) (arp_hits s) (arp_misses s)
  (icmp_echo_req s) (u64 (icmp_echo_rep s + 1)) (udp_rx s) (udp_tx s) (tcp_conns s).
Definition inc_udp_rx s := mk_stats (rx_frames s) (tx_frames s) (rx_dropped s) (arp_hits s) (arp_misses s)
  (icmp_echo_req s) (icmp_echo_rep s) (u64 (udp_rx s + 1)) (udp_tx s) (tcp_conns s).
Definition inc_udp_tx s := mk_stats (rx_frames s) (tx_frames s) (rx_dropped s) (arp_hits s) (arp_misses s)
  (icmp_echo_req s) (icmp_echo_rep s) (udp_rx s) (u64 (udp_tx s + 1)) (tcp_conns s).
Definition inc_tcp_conn s := mk_stats (rx_frames s) (tx_frames s) (rx_dropped s) (arp_hits s) (arp_misses s)
  (icmp_echo_req s) (icmp_echo_rep s) (udp_rx s) (udp_tx s) (u64 (tcp_conns s + 1)).

Definition net_stats_note_arp_hit : M net unit := note inc_arp_hits.
Definition net_stats_note_arp_miss : M net unit := note inc_arp_misses.
Definition net_stats_note_icmp_req : M net unit := note inc_icmp_echo_req.
Definition net_stats_note_icmp_rep : M net unit := note inc_icmp_echo_rep.
Definition net_stats_note_udp_rx : M net unit := note inc_udp_rx.
Definition net_stats_note_udp_tx : M net unit := note inc_udp_tx.
Definition net_stats_note_tcp_conn : M net unit := note inc_tcp_conn.

Definition net_get_stats : M net nm_net_stats :=
  net_lock ;; out ← gets stats; net_unlock ;; mret out.

Definition net_local_ip : M net Z :=
  net_lock ;; c ← gets net_cfg; net_unlock ;; mret (ip c).

(** Answers the six bytes it stores. *)
Definition net_local_mac : M net (list Z) :=
  net_lock ;; c ← gets net_cfg; out ← load_bytes (mac c) 6; net_unlock ;; mret out.

(** ** The card

    [pci_find_device] is another component: its answer is an argument. *)

Definition rtl8139_init (found : Z) : M net Z :=
  modify (set_rtl_dev found) ;;
  d ← gets rtl_dev;
  if d =? 0 then mret (NM_ERR NM_EFAIL) else mret 0.

Definition rtl8139_send (frame : option (list Z)) (len : Z) : M net Z :=
  d ← gets rtl_dev;
  if (d =? 0) || bool_decide (frame = None) || (len =? 0) || (1518 <? len) then mret (NM_ERR NM_EFAIL)
  else mret (i64 len).

(** The return value; nothing is stored to the buffer. *)
Definition rtl8139_recv (cap : Z) : M net Z :=
  d ← gets rtl_dev;
  if d =? 0 then mret (NM_ERR NM_EFAIL) else mret 0.

Definition net_send_frame (frame : option (list Z)) (len : Z) : M net Z :=
  if bool_decide (frame = None) || (len <? 14) then mret (NM_ERR NM_EFAIL) else
  note inc_tx_frames ;;
  r ← rtl8139_send frame len;
  mret (i32 r).

(** ** Lemmas *)

Record net_inv (s : net) : Prop := mk_net_inv {
  ni_lock : net_lock_word s = 0;
  ni_mac : zlen (mac (net_cfg s)) = 6;
}.

Lemma wp_net_lock s (Q : unit -> net -> Prop) :
  net_lock_word s = 0 -> Q tt (set_net_lock 1 s) -> wp net_lock Q s.
Proof. unfold wp, net_lock. by intros ->. Qed.

Lemma wp_note f s (Q : unit -> net -> Prop) :
  net_inv s -> Q tt (set_stats (f (stats s)) s) -> wp (note f) Q s.
Proof.
  intros [Hl Hm] HQ. unfold note. wp_step. apply wp_net_lock; [done|]. unfold net_unlock. wp_go.
  unfold set_net_lock, set_stats in *. simpl. by rewrite <- Hl at 1.
Qed.

Lemma net_inv_stats s v : net_inv s -> net_inv (set_stats v s).
Proof. by intros [? ?]. Qed.

Lemma wp_net_init s (Q : unit -> net -> Prop) :
  zlen (mac (net_cfg s)) = 6 ->
  (forall s', net_inv s' -> net_cfg s' = mk_cfg [82; 83; 84; 85; 86; 87] 3232235876 3232235777 4294967040 true ->
     stats s' = zero_stats -> rtl_dev s' = rtl_dev s -> Q tt s') -> wp net_init Q s.
Proof.
  intros Hm HQ. unfold net_init. do 2 wp_step. wp_step. apply wp_net_lock; [done|]. do 2 wp_step.
  cbn [net_cfg set_net_lock]. destruct (mac (net_cfg s)) as [|? [|? [|? [|? [|? [|? [|? ?]]]]]]] eqn:E; unfold zlen in Hm; simpl in Hm; try lia.
  unfold net_unlock, wp. simpl. by apply HQ.
Qed.

Lemma wp_net_set_identity s m i g k (Q : unit -> net -> Prop) :
  net_inv s -> (forall b, m = Some b -> zlen b = 6) ->
  Q tt (set_net_cfg (mk_cfg (default (mac (net_cfg s)) m) i g k (loopback (net_cfg s))) s) ->
  wp (net_set_identity m i g k) Q s.
Proof.
  intros [Hl Hm] Hb HQ. unfold net_set_identity. wp_step. apply wp_net_lock; [done|]. do 3 wp_step.
  destruct m as [b|].
  - specialize (Hb b eq_refl). apply wp_copy_bytes; cbn [net_cfg set_net_lock]; [lia|lia|].
    rewrite take_ge, drop_ge, app_nil_r by (unfold zlen in *; lia). unfold net_unlock. wp_go.
    unfold set_net_lock, set_net_cfg in *. simpl in *. by rewrite <- Hl at 1.
  - unfold net_unlock. wp_go. unfold set_net_lock, set_net_cfg in *. simpl in *. by rewrite <- Hl at 1.
Qed.

(** A frame goes out exactly when a device is there and its length is that of an
    Ethernet frame; the answer is the length. *)
Lemma wp_net_send_frame s frame len (Q : Z -> net -> Prop) :
  net_inv s -> 0 <= len ->
  (if bool_decide (frame = None) || (len <? 14) then Q (NM_ERR NM_EFAIL) s
   else Q (if (rtl_dev s =? 0) || (1518 <? len) then NM_ERR NM_EFAIL else len)
          (set_stats (inc_tx_frames (stats s)) s)) ->
  wp (net_send_frame frame len) Q s.
Proof.
  intros Hi Hlen HQ. unfold net_send_frame. case_match eqn:E; [by apply wp_ret|]. wp_step. apply wp_note; [done|].
  apply orb_false_iff in E as [Ef El%Z.ltb_ge]. unfold rtl8139_send. do 3 wp_step. cbn [rtl_dev set_stats].
  rewrite Ef. destruct (Z.eqb_spec len 0); [lia|]. rewrite !orb_false_r.
  destruct ((rtl_dev s =? 0) || (1518 <? len)) eqn:E2; wp_go; [done|].
  apply orb_false_iff in E2 as [_ E2%Z.ltb_ge]. by rewrite i64_small, i32_small by lia.
Qed.

(** ** A component over the interface

    The state of a protocol is its own table paired with the interface. *)

Section over_net.
Context {T : Type}.
Implicit Types (s : T * net).

Definition on_net {A} (c : M net A) : M (T * net) A := lift_to snd (fun n s => (s.1, n)) c.
Definition on_own {A} (c : M T A) : M (T * net) A := lift_to fst (fun t s => (t, s.2)) c.

Lemma wp_on_note f s (Q : unit -> T * net -> Prop) :
  net_inv s.2 -> Q tt (s.1, set_stats (f (stats s.2)) s.2) -> wp (on_net (note f)) Q s.
Proof. intros. unfold on_net. apply wp_lift. by apply wp_note. Qed.

Lemma wp_on_own {A} (c : M T A) s (Q : A -> T * net -> Prop) :
  wp c (fun a t => Q a (t, s.2)) s.1 -> wp (on_own c) Q s.
Proof. intros. unfold on_own. by apply wp_lift. Qed.
End over_net.

End Net.
