(* ===== verification/Arp.v ===== *)
(** * The address cache ([kernel/net/arp.c])

    A table of 32 pairs of an IP address and a hardware address with the time of
    the last addition; an addition to a full table replaces the oldest pair. The
    table refines the list of the most recently added pairs. *)

From Stdlib Require Import Sorted.
From S2P Require Import Prelude Net.
Import Net.

Module Arp.

Definition ARP_CACHE_SIZE : Z := 32.

Record arp_entry := mk_entry { used : bool; ip : Z; mac : list Z; age : Z }.

Record arp := mk_arp { cache : list arp_entry; age_tick : Z }.

Definition set_cache v (s : arp) := mk_arp v (age_tick s).
Definition set_age_tick v (s : arp) := mk_arp (cache s) v.

Definition copy_mac {S} (dst src : list Z) : M S (list Z) := copy_bytes dst src 6.

(** The local variables of the loop: [slot], [oldest] and [oldest_idx]. *)
Record scan := mk_scan { sc_slot : Z; sc_oldest : Z; sc_oldest_idx : Z }.

(** The search of [arp_cache_add]: [inr] when the pair was there and is updated. *)
Fixpoint add_scan (ixs : list Z) (new_ip : Z) (m : list Z) (v : scan) : M arp (scan + unit) :=
  match ixs with
  | [] => mret (inl v)
  | i :: ixs =>
      e ← rd cache i;
      if used e && (ip e =? new_ip) then
        m' ← copy_mac (mac e) m;
        t ← gets age_tick;
        wr cache set_cache i (mk_entry (used e) (ip e) m' t) ;;
        mret (inr tt)
      else
      let slot := if negb (used e) && (sc_slot v <? 0) then i else sc_slot v in
      let '(oldest, oldest_idx) :=
        if used e && (age e <? sc_oldest v) then (age e, i) else (sc_oldest v, sc_oldest_idx v) in
      add_scan ixs new_ip m (mk_scan slot oldest oldest_idx)
  end.

Definition arp_cache_add (new_ip : Z) (m : list Z) : M arp unit :=
  t ← gets age_tick;
  modify (set_age_tick (u64 (t + 1))) ;;
  r ← add_scan (upto 0 ARP_CACHE_SIZE) new_ip m (mk_scan (-1) UINT64_MAX 0);
  match r with
  | inr _ => mret tt
  | inl v =>
      let slot := if sc_slot v <? 0 then sc_oldest_idx v else sc_slot v in
      e ← rd cache slot;
      m' ← copy_mac (mac e) m;
      t ← gets age_tick;
      wr cache set_cache slot (mk_entry true new_ip m' t)
  end.

(** The answer is [true] with the address it stores, [None] for [false]. *)
Definition arp_cache_lookup (key : Z) : M (arp * net) (option (list Z)) :=
  r ← for_each (upto 0 ARP_CACHE_SIZE) (fun i =>
    e ← on_own (rd cache i);
    if used e && (ip e =? key) then
      out ← on_own (load_bytes (mac e) 6);
      on_net net_stats_note_arp_hit ;;
      mret (Some out)
    else mret None);
  match r with
  | Some out => mret (Some out)
  | None => on_net net_stats_note_arp_miss ;; mret None
  end.

Definition be32 (a b c d : Z) : Z :=
  Z.lor (Z.lor (Z.lor (u32 (Z.shiftl a 24)) (u32 (Z.shiftl b 16))) (u32 (Z.shiftl c 8))) d.

Definition arp_input (packet : option (list Z)) (len : Z) : M arp unit :=
  match packet with
  | None => mret tt
  | Some p =>
      if len <? 28 then mret tt else
      a ← rd (fun _ => p) 14; b ← rd (fun _ => p) 15; c ← rd (fun _ => p) 16; d ← rd (fun _ => p) 17;
      let spa := be32 a b c d in
      sha ← load_bytes (drop 8 p) 6;
      arp_cache_add spa sha
  end.

(** ** Specification: the pairs added, newest first, at most 32 of them *)

Abbreviation lru := (list (Z * list Z)) (only parsing).

Definition lru_add (new_ip : Z) (m : list Z) (l : lru) : lru :=
  take 32 ((new_ip, m) :: filter (fun p => p.1 <> new_ip) l).

Definition lru_lookup (key : Z) (l : lru) : option (list Z) :=
  snd <$> head (filter (fun p => p.1 = key) l).

Definition live (e : arp_entry) : option arp_entry := if used e then Some e else None.
Definition pair_of (e : arp_entry) : Z * list Z := (ip e, mac e).
Definition newer (e e' : arp_entry) : Prop := age e' < age e.

(** The table [s] holds the pairs [l]: the used entries, newest first, are
    those pairs. *)
Record arp_rep (s : arp) (l : lru) : Prop := mk_arp_rep {
  ar_len : zlen (cache s) = ARP_CACHE_SIZE;
  ar_mac : Forall (fun e => zlen (mac e) = 6) (cache s);
  ar_tick : 0 <= age_tick s;
  ar_age : Forall (fun e => 0 <= age e <= age_tick s) (omap live (cache s));
  ar_nodup : NoDup (fst <$> l);
  ar_list : exists es, es ≡ₚ omap live (cache s) /\ StronglySorted newer es /\ l = (pair_of <$> es);
}.

Lemma sorted_remove (R : arp_entry -> arp_entry -> Prop) a y b :
  StronglySorted R (a ++ y :: b) -> StronglySorted R (a ++ b).
Proof.
  induction a as [|x a IH]; simpl; intros [Hs Hx]%StronglySorted_inv; [done|]. constructor; [auto|].
  apply Forall_app in Hx as [? [? ?]%Forall_cons]. by apply Forall_app.
Qed.

Lemma sorted_suffix (R : arp_entry -> arp_entry -> Prop) a b : StronglySorted R (a ++ b) -> StronglySorted R b.
Proof. induction a as [|x a IH]; [done|]. simpl. intros [Hs _]%StronglySorted_inv. auto. Qed.

Lemma sorted_after y b : StronglySorted newer (y :: b) -> Forall (fun z => age z < age y) b.
Proof. by intros [? ?]%StronglySorted_inv. Qed.

Lemma live_elem s e : e ∈ omap live (cache s) <-> e ∈ cache s /\ used e = true.
Proof.
  rewrite list_elem_of_omap. unfold live. split.
  - intros (x & Hx & E). by destruct (used x) eqn:?; simplify_eq.
  - intros [? E]. exists e. by rewrite E.
Qed.

Lemma filter_other new_ip (l : lru) :
  (new_ip ∉ (fst <$> l)) -> filter (fun p => p.1 <> new_ip) l = l.
Proof.
  induction l as [|p l IH]; [done|]. rewrite fmap_cons, not_elem_of_cons. intros [Hp Hl].
  rewrite filter_cons_True by done. by rewrite IH.
Qed.

(** Replacing an entry: [x] becomes the newest, [y] leaves its place. *)
Lemma rep_replace s l i y new_ip m :
  arp_rep s l -> arr (cache s) i = Some y -> used y = true -> zlen m = 6 ->
  ip y = new_ip \/ (zlen l = 32 /\ (new_ip ∉ (fst <$> l)) /\ forall e, e ∈ omap live (cache s) -> age y <= age e) ->
  exists es, es ≡ₚ omap live (upd (cache s) i (mk_entry true new_ip m (age_tick s + 1))) /\
    StronglySorted newer es /\ lru_add new_ip m l = (pair_of <$> es).
Proof.
  intros [Hlen _ _ Hage Hnd (es & Hes & Hsort & Hl)] Hy Hu Hm Hcase.
  set (x := mk_entry true new_ip m (age_tick s + 1)).
  destruct (omap_upd live (cache s) i x y Hy) as (r & Hr & Hr').
  assert (Hly : live y = Some y) by (unfold live; by rewrite Hu). rewrite Hly in Hr. simpl in Hr, Hr'.
  assert (Hin : y ∈ es) by (rewrite Hes, Hr; by left).
  apply list_elem_of_split in Hin as (a & b & ->).
  assert (Hab : a ++ b ≡ₚ r).
  { apply (Permutation_cons_inv (a := y)). by rewrite <- Hr, <- Hes, Permutation_middle. }
  exists (x :: a ++ b). split; [by rewrite Hr', Hab|]. split.
  { constructor; [by eapply sorted_remove|]. apply Forall_forall. intros e He.
    eapply Forall_forall in Hage; [|rewrite Hr; right; by rewrite <- Hab]. unfold newer, x. simpl. lia. }
  assert (Hlenl : (length l <= 32)%nat).
  { rewrite Hl, length_fmap, Hes. pose proof (length_omap_le live (cache s)). unfold zlen, ARP_CACHE_SIZE in Hlen. lia. }
  unfold lru_add. change (pair_of <$> x :: a ++ b) with ((new_ip, m) :: (pair_of <$> (a ++ b))).
  destruct Hcase as [<-|(Hfull & Hni & Hmin)].
  - rewrite Hl, fmap_app, fmap_cons in Hnd |- *. rewrite fmap_app, fmap_cons in Hnd.
    apply NoDup_app in Hnd as (_ & Hd & [Hb _]%NoDup_cons).
    rewrite filter_app, filter_cons_False, !filter_other by (simpl; first [tauto | intros Ha; eapply Hd; [exact Ha|by left]]).
    rewrite take_ge, fmap_app; [done|]. rewrite Hl, fmap_app, fmap_cons in Hlenl.
    simpl in Hlenl |- *. rewrite !length_app in *. simpl in Hlenl. lia.
  - assert (b = []) as ->.
    { destruct b as [|z b]; [done|]. exfalso. apply sorted_suffix, sorted_after in Hsort as Hs.
      apply Forall_cons in Hs as [Hz _].
      assert (age y <= age z); [|lia]. apply Hmin. rewrite <- Hes. set_solver. }
    rewrite filter_other by done. rewrite Hl, app_nil_r, fmap_app in *. simpl in *.
    assert (length (pair_of <$> a) = 31%nat) as H31 by (unfold zlen in Hfull; rewrite length_app in Hfull; simpl in Hfull; lia).
    f_equal. by rewrite take_app_length'.
Qed.

Lemma rep_fresh s l i y new_ip m :
  arp_rep s l -> arr (cache s) i = Some y -> used y = false -> (new_ip ∉ (fst <$> l)) ->
  exists es, es ≡ₚ omap live (upd (cache s) i (mk_entry true new_ip m (age_tick s + 1))) /\
    StronglySorted newer es /\ lru_add new_ip m l = (pair_of <$> es).
Proof.
  intros [Hlen _ _ Hage Hnd (es & Hes & Hsort & Hl)] Hy Hu Hni.
  set (x := mk_entry true new_ip m (age_tick s + 1)).
  destruct (omap_upd live (cache s) i x y Hy) as (r & Hr & Hr').
  assert (Hly : live y = None) by (unfold live; by rewrite Hu). rewrite Hly in Hr. simpl in Hr, Hr'.
  exists (x :: es). split; [by rewrite Hr', Hes, Hr|]. split.
  { constructor; [done|]. apply Forall_forall. intros e He.
    eapply Forall_forall in Hage; [|by rewrite <- Hes]. unfold newer, x. simpl. lia. }
  unfold lru_add. rewrite filter_other, take_ge by (try done; simpl; rewrite Hl, length_fmap;
    pose proof (length_omap_le live (upd (cache s) i x)) as Hle; rewrite Hr', <- Hr, <- Hes in Hle;
    simpl in Hle; pose proof (zlen_upd (cache s) i x); unfold zlen, ARP_CACHE_SIZE in *; lia).
  by rewrite Hl.
Qed.

Lemma lru_add_nodup new_ip m l : NoDup (fst <$> l) -> NoDup (fst <$> lru_add new_ip m l).
Proof.
  intros H. unfold lru_add. rewrite fmap_take. eapply sublist_NoDup; [|apply sublist_take].
  simpl. constructor.
  - rewrite list_elem_of_fmap. intros (p & -> & [Hp _]%list_elem_of_filter). done.
  - induction l as [|p l IH]; [done|]. apply NoDup_cons in H as [Hp H]. rewrite filter_cons.
    case_decide; [|auto]. constructor; [|auto]. intros (q & E & [_ Hq]%list_elem_of_filter)%list_elem_of_fmap.
    apply Hp. rewrite E. by apply list_elem_of_fmap_2.
Qed.

(** One addition, from what the search finds. *)
Lemma rep_add s l i y new_ip m :
  arp_rep s l -> arr (cache s) i = Some y -> zlen m = 6 ->
  (if used y then ip y = new_ip \/ (zlen l = 32 /\ (new_ip ∉ (fst <$> l)) /\ forall e, e ∈ omap live (cache s) -> age y <= age e)
   else (new_ip ∉ (fst <$> l))) ->
  arp_rep (mk_arp (upd (cache s) i (mk_entry true new_ip m (age_tick s + 1))) (age_tick s + 1)) (lru_add new_ip m l).
Proof.
  intros Hrep Hy Hm Hcase. pose proof Hrep as [Hlen Hmac Ht Hage Hnd _]. constructor; simpl.
  - by rewrite zlen_upd.
  - by apply Forall_upd.
  - lia.
  - apply Forall_forall. intros e He. destruct (omap_upd live (cache s) i (mk_entry true new_ip m (age_tick s + 1)) y Hy) as (r & Hr & Hr').
    rewrite Hr' in He. simpl in He. apply elem_of_cons in He as [->|He]; simpl; [lia|].
    eapply Forall_forall in Hage; [|rewrite Hr; apply elem_of_app; right; exact He]. lia.
  - by apply (lru_add_nodup new_ip m).
  - destruct (used y) eqn:Hu; [by eapply rep_replace|by eapply rep_fresh].
Qed.

(** ** The search of [arp_cache_add] *)

Record scanned (c : list arp_entry) (i new_ip : Z) (v : scan) : Prop := mk_scanned {
  sd_other j e : 0 <= j < i -> arr c j = Some e -> used e = true -> ip e <> new_ip;
  sd_slot : (sc_slot v = -1 /\ forall j e, 0 <= j < i -> arr c j = Some e -> used e = true) \/
            (exists e, arr c (sc_slot v) = Some e /\ used e = false);
  sd_min j e : 0 <= j < i -> arr c j = Some e -> used e = true -> sc_oldest v <= age e;
  sd_idx : (sc_oldest v = UINT64_MAX) \/
           (exists e, arr c (sc_oldest_idx v) = Some e /\ used e = true /\ age e = sc_oldest v);
}.

(** One turn of the loop over an entry with another address. *)
Lemma scanned_step c i new_ip v e :
  0 <= i -> scanned c i new_ip v -> arr c i = Some e -> used e && (ip e =? new_ip) = false ->
  (used e = true -> age e <= UINT64_MAX) ->
  scanned c (i + 1) new_ip
    (let slot := if negb (used e) && (sc_slot v <? 0) then i else sc_slot v in
     let '(oldest, oldest_idx) :=
       if used e && (age e <? sc_oldest v) then (age e, i) else (sc_oldest v, sc_oldest_idx v) in
     mk_scan slot oldest oldest_idx).
Proof.
  intros Hi [Ho Hs Hm Hx] He Hne Hmax.
  assert (Hlast : forall j x, 0 <= j < i + 1 -> arr c j = Some x -> 0 <= j < i \/ (j = i /\ x = e)).
  { intros j x Hj Hjx. destruct (decide (j = i)) as [->|]; [right; by simplify_eq|left; lia]. }
  destruct (used e) eqn:Hu; simpl in *.
  - apply Z.eqb_neq in Hne. destruct (Z.ltb_spec (age e) (sc_oldest v)); constructor; simpl.
    1,5: intros j x Hj Hjx ?; destruct (Hlast j x Hj Hjx) as [|[-> ->]]; [by eapply Ho|done].
    1,4: destruct Hs as [[-> Hall]|?]; [left; split; [done|]|by right];
      intros j x Hj Hjx; destruct (Hlast j x Hj Hjx) as [|[-> ->]]; [by eapply Hall|done].
    1,3: intros j x Hj Hjx ?; destruct (Hlast j x Hj Hjx) as [|[-> ->]]; [|lia];
      assert (sc_oldest v <= age x) by (by eapply Hm); lia.
    + right. by exists e.
    + done.
  - constructor; simpl.
    + intros j x Hj Hjx Hux. destruct (Hlast j x Hj Hjx) as [|[-> ->]]; [by eapply Ho|congruence].
    + right. destruct (Z.ltb_spec (sc_slot v) 0); [by exists e|].
      destruct Hs as [[E _]|?]; [lia|done].
    + intros j x Hj Hjx Hux. destruct (Hlast j x Hj Hjx) as [|[-> ->]]; [by eapply Hm|congruence].
    + done.
Qed.

Lemma wp_add_scan s n i new_ip m v (Q : scan + unit -> arp -> Prop) :
  zlen (cache s) = ARP_CACHE_SIZE -> Forall (fun e => zlen (mac e) = 6) (cache s) -> zlen m = 6 ->
  (forall e, e ∈ cache s -> used e = true -> age e <= UINT64_MAX) ->
  0 <= i -> i + Z.of_nat n = ARP_CACHE_SIZE -> scanned (cache s) i new_ip v ->
  (forall j e, arr (cache s) j = Some e -> used e = true -> ip e = new_ip ->
     Q (inr tt) (set_cache (upd (cache s) j (mk_entry true new_ip m (age_tick s))) s)) ->
  (forall w, scanned (cache s) ARP_CACHE_SIZE new_ip w -> Q (inl w) s) ->
  wp (add_scan (upto i ARP_CACHE_SIZE) new_ip m v) Q s.
Proof.
  intros Hlen Hmac Hm Hage. revert i v. induction n as [|n IH]; intros i v Hi Hn Hsc HQ1 HQ2.
  { rewrite upto_nil by lia. apply wp_ret, HQ2. by replace ARP_CACHE_SIZE with i by lia. }
  rewrite upto_cons by lia. cbn [add_scan]. destruct (arr_lookup (cache s) i) as [e He]; [lia|].
  wp_step. eapply wp_rd; [done|]. destruct (used e && (ip e =? new_ip)) eqn:E.
  - apply andb_true_iff in E as [Hu E%Z.eqb_eq]. wp_step. unfold copy_mac.
    pose proof (Forall_arr _ _ _ _ Hmac He) as Hme. simpl in Hme. apply wp_copy_bytes; [lia|lia|].
    rewrite take_ge, drop_ge, app_nil_r by (unfold zlen in *; lia). do 2 wp_step. wp_step.
    apply wp_wr; [lia|]. wp_step. rewrite Hu, E. by eapply HQ1.
  - pose proof (scanned_step _ _ _ _ _ Hi Hsc He E (Hage e (arr_elem _ _ _ He))) as Hn'.
    destruct (if used e && (age e <? sc_oldest v) then _ else _) as [o oi] eqn:Eo.
    apply IH; [lia|lia| |done|done]. simpl in Hn'. exact Hn'.
Qed.

Lemma rep_absent s l new_ip :
  arp_rep s l -> (forall j e, arr (cache s) j = Some e -> used e = true -> ip e <> new_ip) ->
  new_ip ∉ (fst <$> l).
Proof.
  intros [_ _ _ _ _ (es & Hes & _ & ->)] Hno (p & -> & (e & -> & He)%list_elem_of_fmap)%list_elem_of_fmap.
  rewrite Hes in He. apply live_elem in He as [[j Hj]%elem_arr Hu]. by eapply Hno.
Qed.

Lemma rep_full s l :
  arp_rep s l -> (forall j e, arr (cache s) j = Some e -> used e = true) -> zlen l = 32.
Proof.
  intros [Hlen _ _ _ _ (es & Hes & _ & ->)] Hall. unfold zlen. rewrite length_fmap, Hes.
  transitivity (zlen (cache s)); [|done]. unfold zlen. f_equal. clear Hlen Hes.
  assert (H : forall e, e ∈ cache s -> used e = true) by (intros e [j Hj]%elem_arr; by eapply Hall).
  clear Hall. induction (cache s) as [|e c IH]; [done|]. cbn. unfold live at 1.
  rewrite H by (by left). cbn. f_equal. apply IH. intros. apply H. by right.
Qed.

Definition victim (w : scan) : Z := if sc_slot w <? 0 then sc_oldest_idx w else sc_slot w.

Lemma rep_age s l e : arp_rep s l -> e ∈ cache s -> used e = true -> age e <= age_tick s.
Proof. intros [_ _ _ Hage _ _] He Hu. eapply Forall_forall in Hage; [|by apply live_elem]. lia. Qed.

(** Without an entry of the address, the slot taken is unused, or the oldest of a
    full table. *)
Lemma victim_spec s l new_ip w :
  arp_rep s l -> age_tick s < UINT64_MAX -> scanned (cache s) ARP_CACHE_SIZE new_ip w ->
  exists y, arr (cache s) (victim w) = Some y /\
    (if used y then ip y = new_ip \/ (zlen l = 32 /\ (new_ip ∉ (fst <$> l)) /\
       forall e, e ∈ omap live (cache s) -> age y <= age e) else new_ip ∉ (fst <$> l)).
Proof.
  intros Hrep Hmax [Ho Hs Hmin Hx]. pose proof (ar_len _ _ Hrep) as Hlen.
  assert (Hin : forall j e, arr (cache s) j = Some e -> 0 <= j < ARP_CACHE_SIZE).
  { intros j e Hj. apply arr_range in Hj. lia. }
  pose proof (fun j e H => Ho j e (Hin j e H) H) as Ho'.
  assert (Hni : new_ip ∉ (fst <$> l)) by (by eapply rep_absent).
  unfold victim. destruct Hs as [[E Hall]|(e & He & Hu)].
  - rewrite E. simpl. pose proof (fun j e H => Hall j e (Hin j e H) H) as Hall'.
    destruct Hx as [Hx|(y & Hy & Hu & Hold)].
    + destruct (arr_lookup (cache s) 0) as [e0 He0]; [rewrite Hlen; done|].
      pose proof (Hmin 0 e0 ltac:(done) He0 (Hall' 0 e0 He0)).
      pose proof (rep_age s l e0 Hrep (arr_elem _ _ _ He0) (Hall' 0 e0 He0)). lia.
    + exists y. split; [done|]. rewrite Hu. right. split; [by eapply rep_full|]. split; [done|].
      intros e [[j Hj]%elem_arr Hue]%live_elem. rewrite Hold. eapply Hmin; [by eapply Hin|done|done].
  - pose proof (arr_range _ _ _ He). destruct (Z.ltb_spec (sc_slot w) 0); [lia|]. exists e. by rewrite Hu.
Qed.

Lemma wp_arp_cache_add s l new_ip m (Q : unit -> arp -> Prop) :
  arp_rep s l -> zlen m = 6 -> age_tick s + 1 < UINT64_MAX ->
  (forall s', arp_rep s' (lru_add new_ip m l) -> age_tick s' = age_tick s + 1 -> Q tt s') ->
  wp (arp_cache_add new_ip m) Q s.
Proof.
  intros Hrep Hm Hmax HQ. pose proof Hrep as [Hlen Hmac Ht _ _ _]. unfold arp_cache_add. do 4 wp_step.
  rewrite u64_small by (unfold UINT64_MAX in *; lia). wp_step.
  pose proof (fun i y Hy Hc => HQ _ (rep_add s l i y new_ip m Hrep Hy Hm Hc) eq_refl) as Hput.
  eapply (wp_add_scan _ (Z.to_nat ARP_CACHE_SIZE)); cbn [cache set_age_tick]; [done|done|done| |lia|done| | |].
  { intros e He Hu. pose proof (rep_age s l e Hrep He Hu). lia. }
  { constructor; simpl; [lia|left; split; [done|lia]|lia|by left]. }
  { intros j e Hj Hu He. wp_step. eapply Hput; [done|]. rewrite Hu. by left. }
  intros w Hw. destruct (victim_spec s l new_ip w Hrep ltac:(lia) Hw) as (y & Hy & Hc). cbv zeta.
  fold (victim w). wp_step. eapply wp_rd; [done|]. wp_step.
  pose proof (Forall_arr _ _ _ _ Hmac Hy) as Hmy. simpl in Hmy. unfold copy_mac. apply wp_copy_bytes; [lia|lia|].
  rewrite take_ge, drop_ge, app_nil_r by (unfold zlen in *; lia). do 2 wp_step.
  apply wp_wr; [cbn [cache set_age_tick]; by eapply arr_range|]. by eapply Hput.
Qed.

(** ** Lookup *)

Lemma lru_lookup_in key m l : NoDup (fst <$> l) -> (key, m) ∈ l -> lru_lookup key l = Some m.
Proof.
  unfold lru_lookup. induction l as [|p l IH]; [by intros _ ?%elem_of_nil|].
  rewrite fmap_cons. intros [Hp Hn]%NoDup_cons [<-|H]%elem_of_cons; rewrite filter_cons.
  - by rewrite decide_True.
  - rewrite decide_False; [auto|]. intros <-. apply Hp. by apply (list_elem_of_fmap_2 fst) in H.
Qed.

Lemma lru_lookup_absent key l : key ∉ (fst <$> l) -> lru_lookup key l = None.
Proof.
  unfold lru_lookup. induction l as [|p l IH]; [done|]. rewrite fmap_cons, not_elem_of_cons.
  intros [Hp Hl]. rewrite filter_cons_False by done. auto.
Qed.

Definition note_lookup (r : option (list Z)) (v : nm_net_stats) : nm_net_stats :=
  match r with Some _ => inc_arp_hits v | None => inc_arp_misses v end.

Lemma wp_arp_cache_lookup s n l key (Q : option (list Z) -> arp * net -> Prop) :
  arp_rep s l -> net_inv n ->
  Q (lru_lookup key l) (s, set_stats (note_lookup (lru_lookup key l) (stats n)) n) ->
  wp (arp_cache_lookup key) Q (s, n).
Proof.
  intros Hrep Hn HQ. pose proof Hrep as [Hlen Hmac _ _ Hnd (es & Hes & _ & Hl)]. unfold arp_cache_lookup. wp_step.
  apply (wp_for_each (fun i t => t = (s, n) /\ forall j e, 0 <= j < i -> arr (cache s) j = Some e -> used e = true -> ip e <> key)).
  - done.
  - split; [done|lia].
  - intros i t Hi [-> Hno]. destruct (arr_lookup (cache s) i) as [e He]; [lia|]. wp_step. apply wp_on_own.
    eapply wp_rd; [done|]. destruct (used e && (ip e =? key)) eqn:E.
    + apply andb_true_iff in E as [Hu E%Z.eqb_eq]. wp_step. apply wp_on_own.
      pose proof (Forall_arr _ _ _ _ Hmac He) as Hme. simpl in Hme. apply wp_load_bytes; [lia|].
      rewrite take_ge by (unfold zlen in Hme; lia). wp_step. apply wp_on_note; [done|]. do 2 wp_step.
      rewrite (lru_lookup_in key (mac e)) in HQ; [done|done|]. rewrite Hl.
      change (key, mac e) with (key, snd (pair_of e)). rewrite <- E. apply (list_elem_of_fmap_2 pair_of).
      rewrite Hes. apply live_elem. split; [by eapply arr_elem|done].
    + wp_step. split; [done|]. intros j x Hj Hx Hux. destruct (decide (j = i)) as [->|]; [|eapply Hno; [|done|done]; lia].
      simplify_eq. rewrite Hux in E. simpl in E. by apply Z.eqb_neq in E.
  - intros t [-> Hno]. wp_step. apply wp_on_note; [done|]. wp_step.
    rewrite lru_lookup_absent in HQ; [done|]. eapply rep_absent; [done|]. intros j e Hj. apply (Hno j e); [|done].
    apply arr_range in Hj. lia.
Qed.

(** The address pair of a packet. *)
Definition at_byte (p : list Z) (i : Z) : Z := default 0 (arr p i).
Definition sender (p : list Z) : Z * list Z :=
  (be32 (at_byte p 14) (at_byte p 15) (at_byte p 16) (at_byte p 17), take 6 (drop 8 p)).

Lemma wp_arp_input s l p len (Q : unit -> arp -> Prop) :
  arp_rep s l -> age_tick s + 1 < UINT64_MAX -> len <= zlen p ->
  (if len <? 28 then Q tt s
   else forall s', arp_rep s' (lru_add (sender p).1 (sender p).2 l) -> age_tick s' = age_tick s + 1 -> Q tt s') ->
  wp (arp_input (Some p) len) Q s.
Proof.
  intros Hrep Hmax Hp HQ. unfold arp_input. destruct (Z.ltb_spec len 28); [by apply wp_ret|].
  unfold sender, at_byte in HQ.
  destruct (arr_lookup p 14) as [a Ha]; [lia|]. destruct (arr_lookup p 15) as [b Hb]; [lia|].
  destruct (arr_lookup p 16) as [c Hc]; [lia|]. destruct (arr_lookup p 17) as [d Hd]; [lia|].
  rewrite Ha, Hb, Hc, Hd in HQ. do 4 (wp_step; eapply wp_rd; [done|]). cbv zeta. wp_step.
  assert (Hl : zlen (drop 8 p) = zlen p - 8) by (unfold zlen in *; rewrite length_drop; lia).
  apply wp_load_bytes; [lia|]. eapply wp_arp_cache_add; [done| |done|done].
  unfold zlen in *. rewrite length_take. lia.
Qed.

(** ** The cache refines the list of the latest additions *)

Fixpoint add_all (xs : list (Z * list Z)) : M arp unit :=
  match xs with
  | [] => mret tt
  | x :: xs => arp_cache_add x.1 x.2 ;; add_all xs
  end.

Definition latest (xs : list (Z * list Z)) (l : lru) : lru := fold_left (fun l x => lru_add x.1 x.2 l) xs l.

Lemma wp_add_all xs s l (Q : unit -> arp -> Prop) :
  arp_rep s l -> Forall (fun x => zlen x.2 = 6) xs -> age_tick s + zlen xs < UINT64_MAX ->
  (forall s', arp_rep s' (latest xs l) -> Q tt s') -> wp (add_all xs) Q s.
Proof.
  revert s l. induction xs as [|x xs IH]; intros s l Hr Hx Hm HQ; [by apply wp_ret, HQ|].
  apply Forall_cons in Hx as [Hx Hxs]. unfold zlen in Hm. simpl in Hm. cbn [add_all]. wp_step.
  eapply wp_arp_cache_add; [done|done|lia|]. intros s' Hr' Ht. eapply IH; [done|done| |done]. unfold zlen. lia.
Qed.

(** The cache at boot. *)
Definition arp0 : arp := mk_arp (replicate 32 (mk_entry false 0 (replicate 6 0) 0)) 0.

Lemma arp0_rep : arp_rep arp0 [].
Proof.
  constructor; [done| |done|by vm_compute|constructor|].
  - apply Forall_replicate. done.
  - exists []. split; [done|]. split; [constructor|done].
Qed.

(** C35: after any additions, the cache answers from the 32 most recently added
    addresses: [arp_cache_lookup] finds the hardware address last added for the
    key if the key is one of them, and nothing otherwise, and counts a hit or a
    miss; an addition to a full cache drops the least recently added address. *)
Theorem arp_cache_refines_lru s n l xs key :
  arp_rep s l -> net_inv n -> Forall (fun x => zlen x.2 = 6) xs -> age_tick s + zlen xs < UINT64_MAX ->
  let l' := latest xs l in
  wp (on_own (add_all xs) ;; arp_cache_lookup key)
    (fun r t => r = lru_lookup key l' /\ arp_rep t.1 l' /\
       t.2 = set_stats (note_lookup (lru_lookup key l') (stats n)) n) (s, n).
Proof.
  intros Hr Hn Hxs Hm l'. wp_step. apply wp_on_own. eapply wp_add_all; [done..|]. intros s' Hr'.
  by eapply wp_arp_cache_lookup.
Qed.

(** 33 addresses: the first is gone, the second is there. *)
Definition demo_adds : list (Z * list Z) := (fun i => (i, [i; 0; 0; 0; 0; 1])) <$> upto 1 34.

Lemma arp_cache_refines_lru_witness :
  wp (on_own (add_all demo_adds) ;; arp_cache_lookup 2)
    (fun r t => r = Some [2; 0; 0; 0; 0; 1] /\ tcp_conns (stats t.2) = 0)
    (arp0, mk_net (mk_cfg (replicate 6 0) 0 0 0 true) zero_stats 0 0) /\
  lru_lookup 1 (latest demo_adds []) = None.
Proof.
  split; [|by vm_compute]. eapply wp_mono.
  - apply (arp_cache_refines_lru arp0 _ [] demo_adds 2); [apply arp0_rep|done| |done].
    apply Forall_fmap, Forall_forall. intros i _. done.
  - intros r t (-> & _ & ->). split; [by vm_compute|done].
Defined.

End Arp.
