(* ===== verification/Udp.v ===== *)
(** * Datagrams ([kernel/net/udp.c])

    A table of 64 bound ports, each with 16 slots for received datagrams. The
    table refines a map from the bound ports to bags of at most 16 datagrams. *)

From S2P Require Import Prelude Table Net.
Import Table Net.

Module Udp.

Definition UDP_PORT_MAX : Z := 64.
Definition UDP_QUEUE_CAP : Z := 16.
Definition UDP_PAYLOAD_MAX : Z := 1500.

Record udp_msg := mk_msg {
  m_used : bool;
  m_src_ip : Z;
  m_src_port : Z;
  m_len : Z;
  m_payload : list Z;
}.

Record udp_port := mk_port { p_used : bool; p_port : Z; p_q : list udp_msg }.

Record udp := mk_udp { ports : list udp_port; udp_lock_word : Z }.

Definition set_ports v s := mk_udp v (udp_lock_word s).
Definition set_udp_lock v s := mk_udp (ports s) v.
Definition set_q v p := mk_port (p_used p) (p_port p) v.
Definition m_free m := mk_msg false (m_src_ip m) (m_src_port m) (m_len m) (m_payload m).

Definition udp_lock : M udp unit := fun s =>
  if udp_lock_word s =? 0 then Done tt (set_udp_lock 1 s) else Stuck LockHeld.
Definition udp_unlock : M udp unit := modify (set_udp_lock 0).

(** [ports[p].q[i]], read and written. *)
Definition rd_msg (p i : Z) : M udp udp_msg := x ← rd ports p; rd (fun _ => p_q x) i.
Definition wr_msg (p i : Z) (m : udp_msg) : M udp unit :=
  x ← rd ports p;
  match arr (p_q x) i with
  | Some _ => wr ports set_ports p (set_q (upd (p_q x) i m) x)
  | None => stuck OutOfBounds
  end.

Definition find_port (port : Z) : M udp (option Z) :=
  for_each (upto 0 UDP_PORT_MAX) (fun i =>
    p ← rd ports i;
    if p_used p && (p_port p =? port) then mret (Some i) else mret None).

Definition udp_bind (port : Z) : M udp Z :=
  if port =? 0 then mret (NM_ERR NM_EFAIL) else
  udp_lock ;;
  p ← find_port port;
  match p with
  | Some _ => udp_unlock ;; mret 0
  | None =>
      r ← for_each (upto 0 UDP_PORT_MAX) (fun i =>
        p ← rd ports i;
        if negb (p_used p) then
          wr ports set_ports i (mk_port true port (p_q p)) ;;
          for_all (upto 0 UDP_QUEUE_CAP) (fun j => m ← rd_msg i j; wr_msg i j (m_free m)) ;;
          udp_unlock ;;
          mret (Some 0)
        else mret None);
      match r with
      | Some x => mret x
      | None => udp_unlock ;; mret (NM_ERR NM_EFAIL)
      end
  end.

Definition udp_unbind (port : Z) : M udp Z :=
  udp_lock ;;
  p ← find_port port;
  match p with
  | None => udp_unlock ;; mret (NM_ERR NM_EFAIL)
  | Some i =>
      p ← rd ports i;
      wr ports set_ports i (mk_port false (p_port p) (p_q p)) ;;
      udp_unlock ;;
      mret 0
  end.

(** The callers pass a pointer that is not null: [payload] is the bytes there. *)
Definition udp_deliver (dst_port src_ip src_port : Z) (payload : list Z) (len : Z) : M (udp * net) Z :=
  on_own udp_lock ;;
  p ← on_own (find_port dst_port);
  match p with
  | None => on_own udp_unlock ;; mret (NM_ERR NM_EFAIL)
  | Some p =>
      r ← for_each (upto 0 UDP_QUEUE_CAP) (fun i =>
        m ← on_own (rd_msg p i);
        if negb (m_used m) then
          let n := if UDP_PAYLOAD_MAX <? len then UDP_PAYLOAD_MAX else len in
          b ← on_own (copy_bytes (m_payload m) payload n);
          on_own (wr_msg p i (mk_msg true src_ip src_port n b)) ;;
          on_net net_stats_note_udp_rx ;;
          on_own udp_unlock ;;
          m ← on_own (rd_msg p i);
          mret (Some (m_len m))
        else mret None);
      match r with
      | Some n => mret n
      | None => on_own udp_unlock ;; mret (NM_ERR NM_EFAIL)
      end
  end.

Definition udp_sendto (src_port dst_ip dst_port : Z) (payload : option (list Z)) (len : Z) : M (udp * net) Z :=
  match payload with
  | None => mret (NM_ERR NM_EFAIL)
  | Some b =>
      if len =? 0 then mret (NM_ERR NM_EFAIL) else
      on_net net_stats_note_udp_tx ;;
      udp_deliver dst_port dst_ip src_port b len
  end.

(** What a receive answers: the return value, the bytes stored to [payload], and
    what is stored through [src_ip] and [src_port]. *)
Record received := mk_received { r_ret : Z; r_bytes : list Z; r_ip : option Z; r_port : option Z }.
Definition got_nothing (ret : Z) : received := mk_received ret [] None None.

(** [payload], [src_ip] and [src_port]: whether the pointer is not null. *)
Definition udp_recv (port : Z) (payload : bool) (cap : Z) (src_ip src_port : bool) : M udp received :=
  udp_lock ;;
  p ← find_port port;
  match p with
  | None => udp_unlock ;; mret (got_nothing (NM_ERR NM_EFAIL))
  | Some p =>
      if negb payload then udp_unlock ;; mret (got_nothing (NM_ERR NM_EFAIL)) else
      r ← for_each (upto 0 UDP_QUEUE_CAP) (fun i =>
        m ← rd_msg p i;
        if m_used m then
          let n := if m_len m <? cap then m_len m else cap in
          b ← load_bytes (m_payload m) n;
          wr_msg p i (m_free m) ;;
          udp_unlock ;;
          mret (Some (mk_received n b (if src_ip then Some (m_src_ip m) else None)
                                      (if src_port then Some (m_src_port m) else None)))
        else mret None);
      match r with
      | Some x => mret x
      | None => udp_unlock ;; mret (got_nothing 0)
      end
  end.

Definition be16 (hi lo : Z) : Z := u16 (Z.lor (Z.shiftl hi 8) lo).

Definition udp_input (src_ip dst_ip : Z) (payload : option (list Z)) (len : Z) : M (udp * net) unit :=
  match payload with
  | None => mret tt
  | Some p =>
      if len <? 8 then mret tt else
      a ← rd (fun _ => p) 0; b ← rd (fun _ => p) 1;
      let src_port := be16 a b in
      c ← rd (fun _ => p) 2; d ← rd (fun _ => p) 3;
      let dst_port := be16 c d in
      e ← rd (fun _ => p) 4; f ← rd (fun _ => p) 5;
      let udp_len := be16 e f in
      if (udp_len <? 8) || (len <? udp_len) then mret tt else
      udp_deliver dst_port src_ip src_port (drop 8 p) (u16 (udp_len - 8)) ;;
      mret tt
  end.

(** ** Specification: bags of datagrams *)

Record dgram := mk_dgram { d_ip : Z; d_port : Z; d_data : list Z }.

Definition bags : Type := Z -> option (list dgram).

#[global] Instance bags_equiv : Equiv bags := fun a b => forall p, option_Forall2 Permutation (a p) (b p).

#[global] Instance bags_equivalence : Equivalence (≡@{bags}).
Proof.
  split.
  - intros a p. reflexivity.
  - intros a b H p. by symmetry.
  - intros a b c H H' p. by transitivity (b p).
Qed.

Definition put (a : bags) (port : Z) (o : option (list dgram)) : bags := fun p => if p =? port then o else a p.

#[global] Instance put_proper : Proper ((≡) ==> eq ==> option_Forall2 Permutation ==> (≡)) put.
Proof. intros a b H p ? <- o o' Ho q. unfold put. by destruct (q =? p). Qed.

#[global] Instance some_bag_proper : Proper (Permutation ==> option_Forall2 Permutation) (@Some (list dgram)).
Proof. intros b b' H. by constructor. Qed.

(** The bound ports of a state are [ps]. *)
Definition bound (a : bags) (ps : list Z) : Prop := NoDup ps /\ forall p, p ∈ ps <-> a p <> None.

Definition err : received := got_nothing (NM_ERR NM_EFAIL).

(** A datagram with [data] arrives for [port]. *)
Definition arrives (a : bags) (port : Z) (d : dgram) (r : Z) (a' : bags) : Prop :=
  match a port with
  | Some b =>
      if zlen b <? UDP_QUEUE_CAP then r = zlen (d_data d) /\ a' ≡ put a port (Some (d :: b))
      else r = NM_ERR NM_EFAIL /\ a' ≡ a
  | None => r = NM_ERR NM_EFAIL /\ a' ≡ a
  end.

Definition cut (data : list Z) (len : Z) : list Z := take (Z.to_nat (Z.min len UDP_PAYLOAD_MAX)) data.

Definition binds (a : bags) (port r : Z) (a' : bags) : Prop :=
  if port =? 0 then r = NM_ERR NM_EFAIL /\ a' ≡ a else
  match a port with
  | Some _ => r = 0 /\ a' ≡ a
  | None => exists ps, bound a ps /\
      if zlen ps <? UDP_PORT_MAX then r = 0 /\ a' ≡ put a port (Some []) else r = NM_ERR NM_EFAIL /\ a' ≡ a
  end.

Definition unbinds (a : bags) (port r : Z) (a' : bags) : Prop :=
  match a port with
  | Some _ => r = 0 /\ a' ≡ put a port None
  | None => r = NM_ERR NM_EFAIL /\ a' ≡ a
  end.

(** A receive takes one datagram of the bag, cut to the capacity. *)
Definition takes (a : bags) (port cap : Z) (r : received) (a' : bags) : Prop :=
  match a port with
  | None => r = err /\ a' ≡ a
  | Some [] => r = got_nothing 0 /\ a' ≡ a
  | Some b => exists d rest, b ≡ₚ d :: rest /\ a' ≡ put a port (Some rest) /\
      r = mk_received (Z.min (zlen (d_data d)) cap) (take (Z.to_nat cap) (d_data d)) (Some (d_ip d)) (Some (d_port d))
  end.

(** ** The bags of a table *)

Definition port_of (p : udp_port) : option Z := if p_used p then Some (p_port p) else None.
Definition dgram_of (m : udp_msg) : option dgram :=
  if m_used m then Some (mk_dgram (m_src_ip m) (m_src_port m) (take (Z.to_nat (m_len m)) (m_payload m))) else None.
Definition queue_of (p : udp_port) : list dgram := omap dgram_of (p_q p).
Definition bags_of (s : udp) : bags := fun port => queue_of <$> at_key port_of (ports s) port.

Definition msg_ok (m : udp_msg) : Prop := zlen (m_payload m) = UDP_PAYLOAD_MAX /\ 0 <= m_len m <= UDP_PAYLOAD_MAX.
Definition port_ok (p : udp_port) : Prop := zlen (p_q p) = UDP_QUEUE_CAP /\ Forall msg_ok (p_q p).

Record udp_inv (s : udp) : Prop := mk_udp_inv {
  ui_lock : udp_lock_word s = 0;
  ui_len : zlen (ports s) = UDP_PORT_MAX;
  ui_ports : Forall port_ok (ports s);
  ui_nonzero : at_key port_of (ports s) 0 = None;
  ui_distinct : distinct port_of (ports s);
}.

Lemma wp_udp_lock s (Q : unit -> udp -> Prop) :
  udp_lock_word s = 0 -> Q tt (set_udp_lock 1 s) -> wp udp_lock Q s.
Proof. unfold wp, udp_lock. by intros ->. Qed.

Lemma udp_relock s v : udp_lock_word s = 0 -> set_udp_lock 0 (set_ports v (set_udp_lock 1 s)) = set_ports v s.
Proof. destruct s. simpl. by intros ->. Qed.

Lemma udp_unlock_same s : udp_lock_word s = 0 -> set_udp_lock 0 (set_udp_lock 1 s) = s.
Proof. destruct s. simpl. by intros ->. Qed.

Lemma has_port port p : has port_of port p = p_used p && (p_port p =? port).
Proof.
  apply eq_true_iff_eq. rewrite has_true, andb_true_iff, Z.eqb_eq. unfold port_of.
  destruct (p_used p); split; [by intros [= ->]|by intros [_ ->]|done|by intros [? _]].
Qed.

Lemma wp_find_port port s (Q : option Z -> udp -> Prop) :
  zlen (ports s) = UDP_PORT_MAX -> Q (find_key port_of (ports s) port) s -> wp (find_port port) Q s.
Proof.
  intros Hl HQ. unfold find_port. apply (wp_search (has port_of port) (ports s)); [done| |].
  - intros i p Hp Hn. rewrite has_port in Hn. erewrite rd_bind by exact Hp. by rewrite Hn.
  - unfold find_key in HQ. destruct (find_idx _ _) as [i|]; [|done]. intros p Hp Hu. wp_step. eapply wp_rd; [done|].
    rewrite has_port in Hu. rewrite Hu. by apply wp_ret.
Qed.

(** Replacing one port of the table. *)
Lemma udp_set s i p p' :
  udp_inv s -> arr (ports s) i = Some p -> port_ok p' -> port_of p' <> Some 0 -> fresh_at port_of (ports s) i p' ->
  let s' := set_ports (upd (ports s) i p') s in
  udp_inv s' /\
  forall port, bags_of s' port = if has port_of port p' then Some (queue_of p') else
                                 if has port_of port p then None else bags_of s port.
Proof.
  intros [Hl Hlen Hps Hnz Hd] Hp Hok Hne Hf s'. pose proof (arr_range _ _ _ Hp) as Hr. split.
  - constructor; simpl; [done|by rewrite zlen_upd|by apply Forall_upd| |by apply distinct_upd].
    rewrite (at_key_upd _ _ _ _ p) by done. destruct (has _ 0 p') eqn:E; [by apply has_true in E|by destruct (has _ 0 p)].
  - intros port. unfold bags_of. simpl. rewrite (at_key_upd _ _ _ _ p) by done.
    destruct (has _ port p'); [done|by destruct (has _ port p)].
Qed.

(** The same, for the port that [bags_of] finds: only its bag changes. *)
Lemma udp_set_queue s port i p q :
  udp_inv s -> arr (ports s) i = Some p -> port_of p = Some port ->
  zlen q = UDP_QUEUE_CAP -> Forall msg_ok q ->
  let s' := set_ports (upd (ports s) i (set_q q p)) s in
  udp_inv s' /\ bags_of s' ≡ put (bags_of s) port (Some (omap dgram_of q)).
Proof.
  intros Hi Hp Hu Hq Hok s'. assert (Hsame : port_of (set_q q p) = port_of p) by done.
  destruct (udp_set s i p (set_q q p)) as [Hinv Hb]; [done|done|done| |by eapply fresh_same; [apply Hi|..]|].
  - rewrite Hsame. intros E. by apply (proj1 (at_key_none _ _ _) (ui_nonzero _ Hi) i p).
  - split; [done|]. intros x. unfold s'. rewrite Hb. unfold put.
    rewrite !(has_some _ x port) by (by rewrite ?Hsame). by destruct (x =? port).
Qed.

(** ** The operations refine the bags *)

Lemma wp_udp_unbind s port (Q : Z -> udp -> Prop) :
  udp_inv s -> (forall r s', udp_inv s' -> unbinds (bags_of s) port r (bags_of s') -> Q r s') ->
  wp (udp_unbind port) Q s.
Proof.
  intros Hi HQ. unfold udp_unbind. wp_step. apply wp_udp_lock; [apply Hi|]. wp_step.
  apply wp_find_port; [apply Hi|]. cbn [ports set_udp_lock]. unfold udp_unlock.
  unfold unbinds, bags_of at 1 in HQ. destruct (find_key port_of (ports s) port) as [i|] eqn:E.
  - apply find_key_inv in E as (p & Hp & Hu & Hat). rewrite Hat in HQ. wp_step. eapply wp_rd; [done|]. wp_step.
    apply wp_wr; [by eapply arr_range|]. wp_go. rewrite udp_relock by apply Hi.
    destruct (udp_set s i p (mk_port false (p_port p) (p_q p))) as [Hinv Hb]; [done|done| |done|by apply fresh_unused|].
    { exact (Forall_arr _ _ _ _ (ui_ports _ Hi) Hp). }
    apply HQ; [done|]. split; [done|]. intros x. rewrite Hb. unfold put.
    rewrite has_none, (has_some _ x port p) by done. by destruct (x =? port).
  - apply find_key_none in E. rewrite E in HQ. wp_go. rewrite udp_unlock_same by apply Hi. by apply HQ.
Qed.

Lemma wp_free_queue s i p (Q : unit -> udp -> Prop) :
  arr (ports s) i = Some p -> zlen (p_q p) = UDP_QUEUE_CAP ->
  Q tt (set_ports (upd (ports s) i (set_q (m_free <$> p_q p) p)) s) ->
  wp (for_all (upto 0 UDP_QUEUE_CAP) (fun j => m ← rd_msg i j; wr_msg i j (m_free m))) Q s.
Proof.
  intros Hp Hq HQ. pose proof (arr_range _ _ _ Hp) as Hr.
  set (q := fun j : Z => (m_free <$> take (Z.to_nat j) (p_q p)) ++ drop (Z.to_nat j) (p_q p)).
  apply (wp_for_all (fun j t => t = set_ports (upd (ports s) i (set_q (q j) p)) s)).
  - done.
  - unfold q. simpl. rewrite drop_0. destruct s, p. unfold set_q, set_ports. simpl in *. by rewrite upd_id.
  - intros j t Hj ->. destruct (arr_lookup (p_q p) j) as [m Hm]; [lia|].
    assert (Hql : zlen (m_free <$> take (Z.to_nat j) (p_q p)) = j).
    { unfold zlen in *. rewrite length_fmap, length_take. lia. }
    assert (Hmq : arr (q j) j = Some m).
    { unfold q, arr in *. rewrite (proj2 (Z.leb_le 0 j)) in * by lia. unfold zlen in Hql.
      rewrite lookup_app_r by lia. rewrite lookup_drop. rewrite <- Hm. f_equal. lia. }
    unfold rd_msg, wr_msg. wp_step. wp_step. eapply wp_rd; [simpl; by apply arr_upd_eq|].
    eapply wp_rd; [exact Hmq|]. wp_step. eapply wp_rd; [simpl; by apply arr_upd_eq|].
    simpl p_q. rewrite Hmq. apply wp_wr; [simpl; by rewrite zlen_upd|]. unfold set_ports, set_q. simpl. rewrite upd_upd.
    do 3 f_equal. unfold q, upd. rewrite (proj2 (Z.leb_le 0 j)) by lia. unfold zlen in Hql.
    rewrite insert_app_r_alt by lia. replace (Z.to_nat j - _)%nat with O by lia.
    rewrite (take_snoc_arr _ _ m), fmap_app, <- app_assoc by (done || lia). f_equal.
    unfold arr in Hm. rewrite (proj2 (Z.leb_le 0 j)) in Hm by lia. rewrite (drop_S _ _ _ Hm). simpl.
    by replace (Z.to_nat (j + 1)) with (S (Z.to_nat j)) by lia.
  - intros t ->. unfold q. by rewrite take_ge, drop_ge, app_nil_r by (unfold zlen in Hq; lia).
Qed.

Lemma bound_ports s : udp_inv s -> bound (bags_of s) (keys port_of (ports s)).
Proof.
  intros Hi. split; [apply keys_nodup, Hi|]. intros x. rewrite keys_spec. unfold bags_of.
  by destruct (at_key port_of (ports s) x).
Qed.

Lemma free_queue q : omap dgram_of (m_free <$> q) = [].
Proof. induction q as [|m q IH]; [done|]. cbn. by rewrite IH. Qed.

Lemma free_queue_ok q : Forall msg_ok q -> Forall msg_ok (m_free <$> q).
Proof. intros H. apply Forall_fmap. eapply Forall_impl; [exact H|]. done. Qed.

(** Binding a free slot to a port that is not bound. *)
Lemma udp_set_bind s i p port :
  udp_inv s -> arr (ports s) i = Some p -> p_used p = false -> port <> 0 -> bags_of s port = None ->
  let s' := set_ports (upd (ports s) i (mk_port true port (m_free <$> p_q p))) s in
  udp_inv s' /\ bags_of s' ≡ put (bags_of s) port (Some []).
Proof.
  intros Hi Hp Hu Hne Hno s'. destruct (Forall_arr _ _ _ _ (ui_ports _ Hi) Hp) as [Hq Hm].
  destruct (udp_set s i p (mk_port true port (m_free <$> p_q p))) as [Hinv Hb].
  - done.
  - done.
  - split; simpl; [unfold zlen in *; by rewrite length_fmap|by apply free_queue_ok].
  - by intros [= ?].
  - eapply fresh_new; [done|]. unfold bags_of in Hno. simpl. by destruct (at_key port_of (ports s) port).
  - split; [done|]. intros x. unfold s'. rewrite Hb. unfold put, queue_of. rewrite !has_port. simpl. rewrite Hu. simpl.
    rewrite (Z.eqb_sym x), free_queue. by destruct (port =? x).
Qed.

Lemma wp_udp_bind s port (Q : Z -> udp -> Prop) :
  udp_inv s -> (forall r s', udp_inv s' -> binds (bags_of s) port r (bags_of s') -> Q r s') ->
  wp (udp_bind port) Q s.
Proof.
  intros Hi HQ. unfold udp_bind, binds in *. destruct (Z.eqb_spec port 0) as [->|Hne].
  { apply wp_ret. by apply HQ. }
  wp_step. apply wp_udp_lock; [apply Hi|]. wp_step. apply wp_find_port; [apply Hi|]. cbn [ports set_udp_lock].
  unfold udp_unlock. destruct (find_key port_of (ports s) port) as [i|] eqn:E.
  { apply find_key_inv in E as (p & Hp & Hu & Hat). unfold bags_of at 1 in HQ. rewrite Hat in HQ.
    wp_go. rewrite udp_unlock_same by apply Hi. by apply HQ. }
  apply find_key_none in E. assert (Eb : bags_of s port = None) by (unfold bags_of; by rewrite E). rewrite Eb in HQ.
  assert (Hfree := zlen_omap_free port_of (fun p => negb (p_used p)) (ports s)).
  assert (Hf : forall x, port_of x = None <-> negb (p_used x) = true) by (intros x; unfold port_of; by destruct (p_used x)).
  specialize (Hfree Hf). rewrite (ui_len _ Hi) in Hfree. fold (keys port_of (ports s)) in Hfree. wp_step.
  apply (wp_search (fun p => negb (p_used p)) (ports s)); [apply Hi| |].
  { intros i p Hp Hn. erewrite rd_bind by exact Hp. by rewrite Hn. }
  destruct (find_idx _ (ports s)) as [i|].
  - intros p Hp Hu. wp_step. eapply wp_rd; [done|]. rewrite Hu. pose proof (arr_range _ _ _ Hp) as Hr.
    wp_step. apply wp_wr; [done|]. wp_step. eapply wp_free_queue; [by apply arr_upd_eq|..].
    { simpl. apply (Forall_arr _ _ _ _ (ui_ports _ Hi) Hp). }
    simpl. rewrite upd_upd. do 2 wp_step. do 2 wp_step. unfold set_q, set_ports, set_udp_lock. simpl.
    apply negb_true_iff in Hu. destruct (udp_set_bind s i p port) as [Hinv Hb]; [done..|].
    unfold set_ports in Hinv, Hb. rewrite (ui_lock _ Hi) in Hinv, Hb. apply HQ; [done|].
    exists (keys port_of (ports s)). split; [by apply bound_ports|]. by rewrite (proj2 (Z.ltb_lt _ _) Hfree).
  - wp_go. rewrite udp_unlock_same by apply Hi. apply HQ; [done|]. exists (keys port_of (ports s)).
    split; [by apply bound_ports|]. rewrite Hfree. done.
Qed.

Lemma wp_rd_msg s i p j m (Q : udp_msg -> udp -> Prop) :
  arr (ports s) i = Some p -> arr (p_q p) j = Some m -> Q m s -> wp (rd_msg i j) Q s.
Proof. intros. unfold rd_msg. wp_step. eapply wp_rd; [done|]. by eapply wp_rd. Qed.

Lemma wp_wr_msg s i p j m (Q : unit -> udp -> Prop) :
  arr (ports s) i = Some p -> 0 <= j < zlen (p_q p) ->
  Q tt (set_ports (upd (ports s) i (set_q (upd (p_q p) j m) p)) s) -> wp (wr_msg i j m) Q s.
Proof.
  intros Hp [x Hx]%arr_lookup HQ. unfold wr_msg. wp_step. eapply wp_rd; [done|]. rewrite Hx.
  apply wp_wr; [by eapply arr_range|done].
Qed.

Lemma zlen_cut data len : 0 <= len <= zlen data -> zlen (cut data len) = Z.min len UDP_PAYLOAD_MAX.
Proof. intros H. unfold cut, zlen, UDP_PAYLOAD_MAX in *. rewrite length_take. lia. Qed.

(** The message that a delivery writes into the free slot [m]. *)
Definition filled (m : udp_msg) (ip port : Z) (data : list Z) : udp_msg :=
  mk_msg true ip port (zlen data) (data ++ drop (length data) (m_payload m)).

Lemma filled_spec m ip port data len :
  msg_ok m -> 0 <= len <= zlen data ->
  msg_ok (filled m ip port (cut data len)) /\
  dgram_of (filled m ip port (cut data len)) = Some (mk_dgram ip port (cut data len)).
Proof.
  intros [Hp Hl] Hlen. pose proof (zlen_cut data len Hlen) as Hc. unfold filled, msg_ok, dgram_of, UDP_PAYLOAD_MAX in *. simpl. split.
  - unfold zlen in *. rewrite length_app, length_drop. lia.
  - do 2 f_equal. unfold zlen at 1. by rewrite Nat2Z.id, take_app_length.
Qed.

(** Changing one slot of the queue of a port changes one datagram of its bag. *)
Lemma udp_set_slot s port i p j m m' :
  udp_inv s -> arr (ports s) i = Some p -> port_of p = Some port -> arr (p_q p) j = Some m -> msg_ok m' ->
  let s' := set_ports (upd (ports s) i (set_q (upd (p_q p) j m') p)) s in
  udp_inv s' /\ exists r, queue_of p ≡ₚ olist (dgram_of m) ++ r /\
    bags_of s' ≡ put (bags_of s) port (Some (olist (dgram_of m') ++ r)).
Proof.
  intros Hi Hp Hu Hj Hm'. destruct (Forall_arr _ _ _ _ (ui_ports _ Hi) Hp) as [Hq Hm].
  destruct (udp_set_queue s port i p (upd (p_q p) j m')) as [Hinv Hb]; [done|done|done|by rewrite zlen_upd|by apply Forall_upd|].
  split; [done|]. destruct (omap_upd dgram_of (p_q p) j m' m Hj) as (r & Hr & Hr'). exists r. split; [done|].
  rewrite Hb. apply put_proper; [done|done|by constructor].
Qed.

Definition slot_free (m : udp_msg) : bool := negb (m_used m).

Lemma dgram_free x : dgram_of x = None <-> slot_free x = true.
Proof. unfold dgram_of, slot_free. by destruct (m_used x). Qed.

Definition delivered_stats (r : Z) (n : net) : net :=
  if r <? 0 then n else set_stats (inc_udp_rx (stats n)) n.

Lemma wp_udp_deliver s n port ip sp data len (Q : Z -> udp * net -> Prop) :
  udp_inv s -> net_inv n -> 0 <= len <= zlen data ->
  (forall r s', udp_inv s' -> arrives (bags_of s) port (mk_dgram ip sp (cut data len)) r (bags_of s') ->
     Q r (s', delivered_stats r n)) ->
  wp (udp_deliver port ip sp data len) Q (s, n).
Proof.
  intros Hi Hn Hlen HQ. pose proof (zlen_cut data len Hlen) as Hcut. unfold udp_deliver.
  wp_step. apply wp_on_own, wp_udp_lock; [apply Hi|]. wp_step.
  apply wp_on_own, wp_find_port; [apply Hi|]. cbn [ports set_udp_lock fst snd]. unfold udp_unlock, arrives in *.
  destruct (find_key port_of (ports s) port) as [i|] eqn:E.
  2: { apply find_key_none in E. unfold bags_of at 1 in HQ. rewrite E in HQ. wp_step. apply wp_on_own. do 2 wp_step. simpl.
       rewrite udp_unlock_same by apply Hi. by apply HQ. }
  apply find_key_inv in E as (p & Hp & Hu & Hat). destruct (Forall_arr _ _ _ _ (ui_ports _ Hi) Hp) as [Hq Hm].
  assert (Eb : bags_of s port = Some (queue_of p)) by (unfold bags_of; by rewrite Hat). rewrite Eb in HQ.
  pose proof (zlen_omap_free dgram_of slot_free (p_q p) dgram_free) as Hfree. fold (queue_of p) in Hfree.
  rewrite Hq in Hfree. wp_step. apply (wp_search slot_free (p_q p)); [done| |].
  { intros j m Hj Hused. unfold mbind, M_bind, on_own, lift_to, rd_msg. cbn [fst snd].
    erewrite rd_bind by exact Hp. unfold rd, slot_free in *. by rewrite Hj, Hused. }
  destruct (find_idx slot_free (p_q p)) as [j|].
  - intros m Hj Hfr. wp_step. apply wp_on_own. eapply wp_rd_msg; [exact Hp|done|].
    pose proof (proj2 (dgram_free m) Hfr) as Hdm. unfold slot_free in Hfr. rewrite Hfr. cbv zeta.
    assert (Hnn : (if UDP_PAYLOAD_MAX <? len then UDP_PAYLOAD_MAX else len) = Z.min len UDP_PAYLOAD_MAX).
    { destruct (Z.ltb_spec UDP_PAYLOAD_MAX len); lia. }
    rewrite Hnn. pose proof (Forall_arr _ _ _ _ Hm Hj) as Hmj. destruct (filled_spec m ip sp data len Hmj Hlen) as [Hok Hd].
    wp_step. apply wp_on_own, wp_copy_bytes; [unfold UDP_PAYLOAD_MAX; lia|destruct Hmj as [-> _]; lia|].
    pose proof (arr_range _ _ _ Hj) as Hjr. pose proof (arr_range _ _ _ Hp) as Hpr.
    replace (mk_msg _ _ _ _ _) with (filled m ip sp (cut data len)).
    2: { unfold filled. rewrite Hcut. unfold cut in *. unfold zlen in Hcut. repeat f_equal. lia. }
    wp_step. apply wp_on_own. eapply wp_wr_msg; [exact Hp|done|]. wp_step. apply wp_on_note; [done|].
    wp_step. apply wp_on_own. do 2 wp_step. apply wp_on_own. cbn [fst snd]. rewrite udp_relock by apply Hi.
    eapply wp_rd_msg; [simpl; by apply arr_upd_eq|simpl; by apply arr_upd_eq|]. do 2 wp_step. simpl.
    destruct (udp_set_slot s port i p j m (filled m ip sp (cut data len))) as (Hinv & r & Hr & Hb); [done..|].
    unfold delivered_stats in HQ. specialize (HQ (zlen (cut data len)) _ Hinv).
    rewrite (proj2 (Z.ltb_ge (zlen (cut data len)) 0)) in HQ by (unfold zlen; lia). apply HQ.
    rewrite (proj2 (Z.ltb_lt _ _) Hfree). split; [done|]. rewrite Hb, Hd, Hr, Hdm. done.
  - wp_step. apply wp_on_own. do 2 wp_step. cbn [fst snd]. rewrite udp_unlock_same by apply Hi. apply HQ; [done|].
    by rewrite Hfree.
Qed.

Lemma dgram_used x : m_used x = true -> dgram_of x =
  Some (mk_dgram (m_src_ip x) (m_src_port x) (take (Z.to_nat (m_len x)) (m_payload x))).
Proof. unfold dgram_of. by intros ->. Qed.

Lemma queue_empty q : find_idx m_used q = None -> omap dgram_of q = [].
Proof.
  rewrite find_idx_None. induction q as [|m q IH]; intros H; [done|]. cbn. unfold dgram_of at 1.
  rewrite (H m) by (by left). apply IH. intros. apply H. by right.
Qed.

Lemma wp_udp_recv s port cap (Q : received -> udp -> Prop) :
  udp_inv s -> 0 <= cap ->
  (forall r s', udp_inv s' -> takes (bags_of s) port cap r (bags_of s') -> Q r s') ->
  wp (udp_recv port true cap true true) Q s.
Proof.
  intros Hi Hcap HQ. unfold udp_recv. wp_step. apply wp_udp_lock; [apply Hi|]. wp_step.
  apply wp_find_port; [apply Hi|]. cbn [ports set_udp_lock]. unfold udp_unlock, takes in *.
  destruct (find_key port_of (ports s) port) as [i|] eqn:E.
  2: { apply find_key_none in E. unfold bags_of at 1 in HQ. rewrite E in HQ. wp_go. rewrite udp_unlock_same by apply Hi. by apply HQ. }
  apply find_key_inv in E as (p & Hp & Hu & Hat). destruct (Forall_arr _ _ _ _ (ui_ports _ Hi) Hp) as [Hq Hm].
  assert (Eb : bags_of s port = Some (queue_of p)) by (unfold bags_of; by rewrite Hat). rewrite Eb in HQ. cbn [negb]. wp_step. apply (wp_search m_used (p_q p)); [done| |].
  { intros j m Hj Hused. unfold mbind, M_bind, rd_msg, rd, mbind, M_bind. cbn [ports set_udp_lock]. by rewrite Hp, Hj, Hused. }
  destruct (find_idx m_used (p_q p)) as [j|] eqn:Ej.
  - intros m Hj Hus. wp_step. eapply wp_rd_msg; [exact Hp|done|]. rewrite Hus. cbv zeta.
    pose proof (Forall_arr _ _ _ _ Hm Hj) as [Hpl Hml]. pose proof (dgram_used m Hus) as Hdm.
    wp_step. apply wp_load_bytes; [destruct (Z.ltb_spec (m_len m) cap); lia|]. wp_step.
    eapply wp_wr_msg; [exact Hp|by eapply arr_range|]. do 4 wp_step. rewrite udp_relock by apply Hi.
    destruct (udp_set_slot s port i p j m (m_free m)) as (Hinv & rest & Hr & Hb); [done..|]. simpl in Hb.
    apply HQ; [done|]. rewrite Hdm in Hr. simpl in Hr.
    destruct (queue_of p) as [|d0 q0] eqn:Eq; [by apply Permutation_nil_cons in Hr|].
    eexists _, rest. split; [exact Hr|]. split; [exact Hb|]. simpl.
    assert (Hz : zlen (take (Z.to_nat (m_len m)) (m_payload m)) = m_len m) by (unfold zlen in *; rewrite length_take; lia).
    rewrite Hz, take_take. f_equal; [destruct (Z.ltb_spec (m_len m) cap); lia|].
    f_equal. destruct (Z.ltb_spec (m_len m) cap); lia.
  - wp_go. rewrite udp_unlock_same by apply Hi. apply HQ; [done|]. unfold queue_of. by rewrite (queue_empty _ Ej).
Qed.

Definition note_tx (n : net) : net := set_stats (inc_udp_tx (stats n)) n.

Lemma wp_udp_sendto s n sp ip port data len (Q : Z -> udp * net -> Prop) :
  udp_inv s -> net_inv n -> 0 < len <= zlen data ->
  (forall r s', udp_inv s' -> arrives (bags_of s) port (mk_dgram ip sp (cut data len)) r (bags_of s') ->
     Q r (s', delivered_stats r (note_tx n))) ->
  wp (udp_sendto sp ip port (Some data) len) Q (s, n).
Proof.
  intros Hi Hn Hlen HQ. unfold udp_sendto. destruct (Z.eqb_spec len 0); [lia|]. wp_step. apply wp_on_note; [done|].
  apply wp_udp_deliver; [done|by apply net_inv_stats|lia|done].
Qed.

(** ** Received segments *)

Definition field16 (p : list Z) (i : Z) : Z := 256 * default 0 (arr p i) + default 0 (arr p (i + 1)).

Lemma be16_val hi lo : is_byte hi -> is_byte lo -> be16 hi lo = 256 * hi + lo.
Proof.
  intros Hh Hl. unfold be16, is_byte in *. rewrite lor_shiftl by lia.
  unfold u16. rewrite Z.mod_small; lia.
Qed.

(** The source port, destination port and data length of a segment whose length
    field is between the header and the bytes that arrived. *)
Definition udp_segment (p : list Z) (len : Z) : option (Z * Z * Z) :=
  if (len <? 8) || (field16 p 4 <? 8) || (len <? field16 p 4) then None
  else Some (field16 p 0, field16 p 2, field16 p 4 - 8).

Lemma wp_byte {S} p i (Q : Z -> S -> Prop) s :
  Forall is_byte p -> 0 <= i < zlen p -> (is_byte (default 0 (arr p i)) -> Q (default 0 (arr p i)) s) -> wp (rd (fun _ => p) i) Q s.
Proof.
  intros Hb [x Hx]%arr_lookup HQ. eapply wp_rd; [done|]. rewrite Hx in HQ. apply HQ. exact (Forall_arr _ _ _ _ Hb Hx).
Qed.

Lemma wp_udp_input s n src dst p len (Q : unit -> udp * net -> Prop) :
  udp_inv s -> net_inv n -> Forall is_byte p -> 0 <= len <= zlen p -> len < 65536 ->
  (forall s' n', udp_inv s' -> net_inv n' ->
     match udp_segment p len with
     | Some (sp, port, k) => exists r, arrives (bags_of s) port (mk_dgram src sp (cut (drop 8 p) k)) r (bags_of s') /\
         n' = delivered_stats r n
     | None => s' = s /\ n' = n
     end -> Q tt (s', n')) ->
  wp (udp_input src dst (Some p) len) Q (s, n).
Proof.
  intros Hi Hn Hb Hlen Hmax HQ. unfold udp_input, udp_segment in *. destruct (Z.ltb_spec len 8).
  { apply wp_ret. by apply HQ. }
  do 6 (wp_step; apply wp_byte; [done|lia|intros ?]; cbv zeta). simpl orb in HQ.
  rewrite !be16_val by done.
  change (256 * default 0 (arr p 4) + default 0 (arr p 5)) with (field16 p 4).
  change (256 * default 0 (arr p 2) + default 0 (arr p 3)) with (field16 p 2).
  change (256 * default 0 (arr p 0) + default 0 (arr p 1)) with (field16 p 0).
  destruct ((field16 p 4 <? 8) || (len <? field16 p 4)) eqn:E; [apply wp_ret; by apply HQ|].
  apply orb_false_iff in E as [E1%Z.ltb_ge E2%Z.ltb_ge]. wp_step.
  assert (Hu : u16 (field16 p 4 - 8) = field16 p 4 - 8) by (unfold u16; rewrite Z.mod_small; lia). rewrite Hu.
  apply wp_udp_deliver; [done|done|unfold zlen in *; rewrite length_drop; lia|]. intros r s' Hi' Ha. wp_step.
  apply HQ; [done| |eauto]. unfold delivered_stats. destruct (r <? 0); [done|by apply net_inv_stats].
Qed.

(** ** Every sequence of operations refines the bags *)

Inductive udp_op :=
| OpBind (port : Z)
| OpUnbind (port : Z)
| OpSend (src_port dst_ip dst_port : Z) (data : list Z) (len : Z)
| OpInput (src_ip dst_ip : Z) (segment : list Z) (len : Z)
| OpRecv (port cap : Z).

Definition op_ok (o : udp_op) : Prop :=
  match o with
  | OpBind _ | OpUnbind _ => True
  | OpSend _ _ _ data len => 0 < len <= zlen data
  | OpInput _ _ p len => Forall is_byte p /\ 0 <= len <= zlen p /\ len < 65536
  | OpRecv _ cap => 0 <= cap
  end.

Definition run_op (o : udp_op) : M (udp * net) received :=
  match o with
  | OpBind port => r ← on_own (udp_bind port); mret (got_nothing r)
  | OpUnbind port => r ← on_own (udp_unbind port); mret (got_nothing r)
  | OpSend sp ip port data len => r ← udp_sendto sp ip port (Some data) len; mret (got_nothing r)
  | OpInput src dst p len => udp_input src dst (Some p) len ;; mret (got_nothing 0)
  | OpRecv port cap => on_own (udp_recv port true cap true true)
  end.

Definition bag_step (a : bags) (o : udp_op) (r : received) (a' : bags) : Prop :=
  match o with
  | OpBind port => exists x, r = got_nothing x /\ binds a port x a'
  | OpUnbind port => exists x, r = got_nothing x /\ unbinds a port x a'
  | OpSend sp ip port data len => exists x, r = got_nothing x /\ arrives a port (mk_dgram ip sp (cut data len)) x a'
  | OpInput src dst p len => r = got_nothing 0 /\
      match udp_segment p len with
      | Some (sp, port, k) => exists x, arrives a port (mk_dgram src sp (cut (drop 8 p) k)) x a'
      | None => a' ≡ a
      end
  | OpRecv port cap => takes a port cap r a'
  end.

Inductive bag_run : bags -> list udp_op -> list received -> bags -> Prop :=
| run_nil a : bag_run a [] [] a
| run_cons a o r a' os rs a'' : bag_step a o r a' -> bag_run a' os rs a'' -> bag_run a (o :: os) (r :: rs) a''.

Fixpoint run_ops (os : list udp_op) : M (udp * net) (list received) :=
  match os with
  | [] => mret []
  | o :: os => r ← run_op o; rs ← run_ops os; mret (r :: rs)
  end.

Lemma wp_udp_run s n o (Q : received -> udp * net -> Prop) :
  udp_inv s -> net_inv n -> op_ok o ->
  (forall r s' n', udp_inv s' -> net_inv n' -> bag_step (bags_of s) o r (bags_of s') -> Q r (s', n')) ->
  wp (run_op o) Q (s, n).
Proof.
  intros Hi Hn Ho HQ. destruct o as [port|port|sp ip port data len|src dst p len|port cap]; simpl in Ho, HQ |- *.
  - wp_step. apply wp_on_own, wp_udp_bind; [done|]. intros r s' Hi' Hb. wp_step. apply HQ; [done|done|eauto].
  - wp_step. apply wp_on_own, wp_udp_unbind; [done|]. intros r s' Hi' Hb. wp_step. apply HQ; [done|done|eauto].
  - wp_step. apply wp_udp_sendto; [done..|]. intros r s' Hi' Hb. wp_step. apply HQ; [done| |eauto].
    unfold delivered_stats. destruct (r <? 0); by repeat apply net_inv_stats.
  - destruct Ho as (? & ? & ?). wp_step. apply wp_udp_input; [done..|]. intros s' n' Hi' Hn' Hs. wp_step.
    apply HQ; [done|done|]. split; [done|]. destruct (udp_segment p len) as [[[? ?] ?]|]; [destruct Hs as (r & ? & _); by exists r|by destruct Hs as [-> _]].
  - apply wp_on_own, wp_udp_recv; [done..|]. intros r s' Hi' Hb. by apply HQ.
Qed.

(** C36: udp.c refines a map from bound ports to bags of at most 16 datagrams:
    whatever the sequence of binds, unbinds, sends, received segments (well formed
    or not) and receives, every call returns with the locks free, and its answer
    and effect are those the bags prescribe: a bind adds an empty bag while fewer
    than 64 ports are bound, a datagram is added, cut to 1500 bytes, exactly when
    its port is bound and its bag is not full, and a receive removes one datagram
    and answers its bytes and its source. *)
Theorem udp_refines_bags os s n :
  udp_inv s -> net_inv n -> Forall op_ok os ->
  wp (run_ops os) (fun rs t => udp_inv t.1 /\ net_inv t.2 /\ bag_run (bags_of s) os rs (bags_of t.1)) (s, n).
Proof.
  revert s n. induction os as [|o os IH]; intros s n Hi Hn Ho; cbn [run_ops].
  - apply wp_ret. split_and!; [done|done|constructor].
  - apply Forall_cons in Ho as [Ho Hos]. wp_step. apply wp_udp_run; [done..|]. intros r s' n' Hi' Hn' Hs. wp_step.
    wp_use IH; [done..|]. intros rs t (Hi2 & Hn2 & Hr). wp_step. split_and!; [done|done|by econstructor].
Qed.

(** The table at boot. *)
Definition udp0 : udp := mk_udp (replicate 64 (mk_port false 0 (replicate 16 (mk_msg false 0 0 0 (replicate 1500 0))))) 0.
Definition net0 : net := mk_net (mk_cfg (replicate 6 0) 0 0 0 true) zero_stats 0 0.

Lemma udp0_free i p : arr (ports udp0) i = Some p -> p_used p = false.
Proof. intros Hp%arr_elem. unfold udp0 in Hp. cbn [ports] in Hp. by apply elem_of_replicate in Hp as [-> _]. Qed.

Lemma udp0_inv : udp_inv udp0.
Proof.
  constructor; [done|done| | |].
  - apply Forall_replicate. split; [done|]. apply Forall_replicate. by split.
  - apply at_key_none. intros i p E%udp0_free. unfold port_of. by rewrite E.
  - intros i j p q k E%udp0_free _. unfold port_of. by rewrite E.
Qed.

Definition demo_ops : list udp_op :=
  [OpBind 7; OpSend 9 1 7 [5; 6] 2; OpInput 3 4 [0; 80; 0; 7; 0; 9; 0; 0; 42] 9; OpRecv 7 10].

Lemma udp_refines_bags_witness :
  wp (run_ops demo_ops)
    (fun rs t => udp_inv t.1 /\ net_inv t.2 /\ bag_run (bags_of udp0) demo_ops rs (bags_of t.1)) (udp0, net0).
Proof.
  apply udp_refines_bags; [apply udp0_inv|done|]. repeat constructor; simpl; try done.
Defined.

End Udp.
