(* ===== verification/Tcp.v ===== *)
(** * Connections ([kernel/net/tcp.c])

    A table of 64 connections on one machine: a connect makes both ends at once,
    an accept establishes the server's end, and a send leaves its bytes in the
    buffer of the peer. The table refines a finite map from identifiers to
    connections, whose peers stay paired. *)

From S2P Require Import Prelude Table Net.
Import Table Net.

Module Tcp.

Definition TCP_CONN_MAX : Z := 64.
Definition TCP_BUF_MAX : Z := 2048.

Inductive tcp_state := TCP_CLOSED | TCP_LISTEN | TCP_SYN_SENT | TCP_SYN_RECV | TCP_ESTABLISHED.

#[global] Instance tcp_state_eq : EqDecision tcp_state.
Proof. solve_decision. Defined.

Record tcp_conn := mk_conn {
  used : bool;
  id : Z;
  state : tcp_state;
  local_ip : Z;
  local_port : Z;
  peer_ip : Z;
  peer_port : Z;
  peer_id : Z;
  rx_len : Z;
  rx_buf : list Z;
}.

Record tcp := mk_tcp { conns : list tcp_conn; next_id : Z; tcp_lock_word : Z }.

Definition set_conns v s := mk_tcp v (next_id s) (tcp_lock_word s).
Definition set_next_id v s := mk_tcp (conns s) v (tcp_lock_word s).
Definition set_tcp_lock v s := mk_tcp (conns s) (next_id s) v.

Definition tcp_lock : M tcp unit := fun s =>
  if tcp_lock_word s =? 0 then Done tt (set_tcp_lock 1 s) else Stuck LockHeld.
Definition tcp_unlock : M tcp unit := modify (set_tcp_lock 0).

Definition mod_conn (i : Z) (f : tcp_conn -> tcp_conn) : M tcp unit := modify_at conns set_conns i f.

Definition find_by_id (n : Z) : M tcp (option Z) :=
  for_each (upto 0 TCP_CONN_MAX) (fun i =>
    c ← rd conns i;
    if used c && (id c =? n) then mret (Some i) else mret None).

Definition is_listener (port : Z) (c : tcp_conn) : bool :=
  used c && bool_decide (state c = TCP_LISTEN) && (local_port c =? port).

Definition find_listener (port : Z) : M tcp (option Z) :=
  for_each (upto 0 TCP_CONN_MAX) (fun i =>
    c ← rd conns i;
    if is_listener port c then mret (Some i) else mret None).

Definition fresh_conn (n : Z) (c : tcp_conn) : tcp_conn :=
  mk_conn true n TCP_CLOSED (local_ip c) (local_port c) (peer_ip c) (peer_port c) (-1) 0 (rx_buf c).

(** [next_id++] overflows at the largest [int]. *)
Definition alloc_conn : M tcp (option Z) :=
  for_each (upto 0 TCP_CONN_MAX) (fun i =>
    c ← rd conns i;
    if negb (used c) then
      n ← gets next_id;
      if n =? INT32_MAX then stuck SignedOverflow else
      modify (set_next_id (n + 1)) ;;
      mod_conn i (fresh_conn n) ;;
      mret (Some i)
    else mret None).

Definition tcp_listen (port : Z) : M tcp Z :=
  tcp_lock ;;
  c ← alloc_conn;
  match c with
  | None => tcp_unlock ;; mret (NM_ERR NM_EFAIL)
  | Some i =>
      mod_conn i (fun c => mk_conn (used c) (id c) TCP_LISTEN 0 port (peer_ip c) (peer_port c)
                                   (peer_id c) (rx_len c) (rx_buf c)) ;;
      c ← rd conns i;
      tcp_unlock ;;
      mret (id c)
  end.

(** A connection given back when the other one could not be allocated. *)
Definition undo_conn (c : tcp_conn) : tcp_conn :=
  mk_conn false (id c) TCP_CLOSED (local_ip c) (local_port c) (peer_ip c) (peer_port c) (-1) 0 (rx_buf c).

(** The end of [tcp_connect], once both connections are allocated. *)
Definition link_ends (dst_ip dst_port src_port cli srv : Z) : M (tcp * net) Z :=
  on_own (mod_conn cli (fun c => mk_conn (used c) (id c) TCP_ESTABLISHED 0 src_port dst_ip dst_port
                                         (peer_id c) (rx_len c) (rx_buf c))) ;;
  on_own (mod_conn srv (fun c => mk_conn (used c) (id c) TCP_SYN_RECV dst_ip dst_port dst_ip src_port
                                         (peer_id c) (rx_len c) (rx_buf c))) ;;
  s ← on_own (rd conns srv);
  on_own (mod_conn cli (fun c => mk_conn (used c) (id c) (state c) (local_ip c) (local_port c) (peer_ip c)
                                         (peer_port c) (id s) (rx_len c) (rx_buf c))) ;;
  c ← on_own (rd conns cli);
  on_own (mod_conn srv (fun d => mk_conn (used d) (id d) (state d) (local_ip d) (local_port d) (peer_ip d)
                                         (peer_port d) (id c) (rx_len d) (rx_buf d))) ;;
  on_net net_stats_note_tcp_conn ;;
  c ← on_own (rd conns cli);
  on_own tcp_unlock ;;
  mret (id c).

Definition tcp_connect (dst_ip dst_port src_port : Z) : M (tcp * net) Z :=
  on_own tcp_lock ;;
  l ← on_own (find_listener dst_port);
  match l with
  | None => on_own tcp_unlock ;; mret (NM_ERR NM_EFAIL)
  | Some _ =>
      cli ← on_own alloc_conn;
      srv ← on_own alloc_conn;
      match cli, srv with
      | Some cli, Some srv =>
          link_ends dst_ip dst_port src_port cli srv
      | _, _ =>
          match cli with Some i => on_own (mod_conn i undo_conn) | None => mret tt end ;;
          match srv with Some i => on_own (mod_conn i undo_conn) | None => mret tt end ;;
          on_own tcp_unlock ;;
          mret (NM_ERR NM_EFAIL)
      end
  end.

Definition is_pending (port : Z) (c : tcp_conn) : bool :=
  used c && bool_decide (state c = TCP_SYN_RECV) && (local_port c =? port).

Definition establish (c : tcp_conn) : tcp_conn :=
  mk_conn (used c) (id c) TCP_ESTABLISHED (local_ip c) (local_port c) (peer_ip c) (peer_port c) (peer_id c)
          (rx_len c) (rx_buf c).

Definition tcp_accept (listen_port : Z) : M tcp Z :=
  tcp_lock ;;
  r ← for_each (upto 0 TCP_CONN_MAX) (fun i =>
    c ← rd conns i;
    if is_pending listen_port c then
      mod_conn i establish ;;
      c ← rd conns i;
      tcp_unlock ;;
      mret (Some (id c))
    else mret None);
  match r with
  | Some n => mret n
  | None => tcp_unlock ;; mret (NM_ERR NM_EFAIL)
  end.

Definition set_rx (len : Z) (buf : list Z) (c : tcp_conn) : tcp_conn :=
  mk_conn (used c) (id c) (state c) (local_ip c) (local_port c) (peer_ip c) (peer_port c) (peer_id c) len buf.

(** [find_by_id], then the record found if it is established. *)
Definition established (n : Z) : M tcp (option (Z * tcp_conn)) :=
  i ← find_by_id n;
  match i with
  | None => mret None
  | Some i => c ← rd conns i; mret (if bool_decide (state c = TCP_ESTABLISHED) then Some (i, c) else None)
  end.

Definition tcp_send (conn_id : Z) (payload : option (list Z)) (len : Z) : M tcp Z :=
  tcp_lock ;;
  c ← established conn_id;
  match c, payload with
  | Some (_, c), Some data =>
      if len =? 0 then tcp_unlock ;; mret (NM_ERR NM_EFAIL) else
      p ← established (peer_id c);
      match p with
      | None => tcp_unlock ;; mret (NM_ERR NM_EFAIL)
      | Some (i, p) =>
          let n := if TCP_BUF_MAX <? len then TCP_BUF_MAX else len in
          b ← copy_bytes (rx_buf p) data n;
          mod_conn i (set_rx n b) ;;
          tcp_unlock ;;
          mret n
      end
  | _, _ => tcp_unlock ;; mret (NM_ERR NM_EFAIL)
  end.

(** The return value and the bytes stored to [payload]. *)
Definition tcp_recv (conn_id : Z) (payload : bool) (cap : Z) : M tcp (Z * list Z) :=
  tcp_lock ;;
  c ← established conn_id;
  match c with
  | Some (i, c) =>
      if negb payload then tcp_unlock ;; mret (NM_ERR NM_EFAIL, []) else
      if rx_len c =? 0 then tcp_unlock ;; mret (0, []) else
      let n := if rx_len c <? cap then rx_len c else cap in
      b ← load_bytes (rx_buf c) n;
      mod_conn i (fun c => set_rx 0 (rx_buf c) c) ;;
      tcp_unlock ;;
      mret (n, b)
  | None => tcp_unlock ;; mret (NM_ERR NM_EFAIL, [])
  end.

Definition tcp_close (conn_id : Z) : M tcp Z :=
  tcp_lock ;;
  c ← find_by_id conn_id;
  match c with
  | None => tcp_unlock ;; mret (NM_ERR NM_EFAIL)
  | Some i =>
      mod_conn i (fun c => mk_conn false (id c) (state c) (local_ip c) (local_port c) (peer_ip c) (peer_port c)
                                   (peer_id c) (rx_len c) (rx_buf c)) ;;
      tcp_unlock ;;
      mret 0
  end.

Definition tcp_input (src_ip dst_ip : Z) (payload : option (list Z)) (len : Z) : M tcp unit := mret tt.

(** ** Specification: a map from identifiers to connections

    [e_peer] is the identifier of the peer, [-1] for a listener; [e_inbox] the
    bytes that wait to be received. *)

Record endpoint := mk_end { e_state : tcp_state; e_port : Z; e_peer : Z; e_inbox : list Z }.

Record netmap := mk_map { m_next : Z; m_conn : Z -> option endpoint }.

Definition ins (n : Z) (o : option endpoint) (f : Z -> option endpoint) : Z -> option endpoint :=
  fun k => if k =? n then o else f k.

(** Maps are compared pointwise. *)
#[global] Instance netmap_equiv : Equiv netmap := fun a b => m_next a = m_next b /\ forall k, m_conn a k = m_conn b k.

#[global] Instance netmap_equivalence : Equivalence (≡@{netmap}).
Proof.
  split; [done|..].
  - intros a b [H1 H2]. split; [done|]. intros k. by rewrite H2.
  - intros a b c [H1 H2] [H3 H4]. split; [congruence|]. intros k. by rewrite H2.
Qed.

(** The identifiers in use are [ids]. *)
Definition in_use (a : netmap) (ids : list Z) : Prop := NoDup ids /\ forall k, k ∈ ids <-> m_conn a k <> None.

Definition fails (a : netmap) (r : Z) (a' : netmap) : Prop := r = NM_ERR NM_EFAIL /\ a' ≡ a.

Definition listens (a : netmap) (port r : Z) (a' : netmap) : Prop :=
  exists ids, in_use a ids /\
  if zlen ids <? TCP_CONN_MAX then
    r = m_next a /\ a' ≡ mk_map (r + 1) (ins r (Some (mk_end TCP_LISTEN port (-1) [])) (m_conn a))
  else fails a r a'.

Definition listening (a : netmap) (port : Z) : Prop :=
  exists k e, m_conn a k = Some e /\ e_state e = TCP_LISTEN /\ e_port e = port.

(** A connect that finds a listener makes two ends, each the other's peer; with
    one free slot left it fails and an identifier is lost. *)
Definition connects (a : netmap) (dst_port src_port r : Z) (a' : netmap) : Prop :=
  (~ listening a dst_port /\ fails a r a') \/
  (listening a dst_port /\ exists ids, in_use a ids /\
     if zlen ids + 1 <? TCP_CONN_MAX then
       r = m_next a /\
       a' ≡ mk_map (r + 2) (ins (r + 1) (Some (mk_end TCP_SYN_RECV dst_port r []))
                     (ins r (Some (mk_end TCP_ESTABLISHED src_port (r + 1) [])) (m_conn a)))
     else fails (mk_map (if zlen ids =? TCP_CONN_MAX then m_next a else m_next a + 1) (m_conn a)) r a').

Definition with_state (st : tcp_state) (e : endpoint) : endpoint := mk_end st (e_port e) (e_peer e) (e_inbox e).
Definition with_inbox (b : list Z) (e : endpoint) : endpoint := mk_end (e_state e) (e_port e) (e_peer e) b.

(** An accept establishes some pending end of the port. *)
Definition accepts (a : netmap) (port r : Z) (a' : netmap) : Prop :=
  (fails a r a' /\ forall k e, m_conn a k = Some e -> ~ (e_state e = TCP_SYN_RECV /\ e_port e = port)) \/
  (exists e, m_conn a r = Some e /\ e_state e = TCP_SYN_RECV /\ e_port e = port /\
     a' ≡ mk_map (m_next a) (ins r (Some (with_state TCP_ESTABLISHED e)) (m_conn a))).

Definition est (a : netmap) (k : Z) : option endpoint :=
  e ← m_conn a k; if bool_decide (e_state e = TCP_ESTABLISHED) then Some e else None.

Definition sends (a : netmap) (k : Z) (data : list Z) (len r : Z) (a' : netmap) : Prop :=
  if len =? 0 then fails a r a' else
  match est a k with
  | None => fails a r a'
  | Some e =>
      match est a (e_peer e) with
      | None => fails a r a'
      | Some p =>
          r = Z.min len TCP_BUF_MAX /\
          a' ≡ mk_map (m_next a) (ins (e_peer e) (Some (with_inbox (take (Z.to_nat r) data) p)) (m_conn a))
      end
  end.

Definition receives (a : netmap) (k cap : Z) (r : Z * list Z) (a' : netmap) : Prop :=
  match est a k with
  | None => fails a r.1 a' /\ r.2 = []
  | Some e =>
      r = (Z.min (zlen (e_inbox e)) cap, take (Z.to_nat cap) (e_inbox e)) /\
      a' ≡ mk_map (m_next a) (ins k (Some (with_inbox [] e)) (m_conn a))
  end.

Definition closes (a : netmap) (k r : Z) (a' : netmap) : Prop :=
  match m_conn a k with
  | None => fails a r a'
  | Some _ => r = 0 /\ a' ≡ mk_map (m_next a) (ins k None (m_conn a))
  end.

(** ** The map of a table *)

Definition id_of (c : tcp_conn) : option Z := if used c then Some (id c) else None.
Definition end_of (c : tcp_conn) : endpoint :=
  mk_end (state c) (local_port c) (peer_id c) (take (Z.to_nat (rx_len c)) (rx_buf c)).
Definition map_of (s : tcp) : netmap := mk_map (next_id s) (fun k => end_of <$> at_key id_of (conns s) k).

Definition conn_ok (c : tcp_conn) : Prop := zlen (rx_buf c) = TCP_BUF_MAX /\ 0 <= rx_len c <= TCP_BUF_MAX.

(** The invariant of the table, whatever its lock. *)
Record tcp_tab (s : tcp) : Prop := mk_tcp_tab {
  tt_len : zlen (conns s) = TCP_CONN_MAX;
  tt_conns : Forall conn_ok (conns s);
  tt_next : 0 < next_id s <= INT32_MAX;
  tt_ids k : at_key id_of (conns s) k <> None -> 0 < k < next_id s;
  tt_distinct : distinct id_of (conns s);
}.
Definition tcp_inv (s : tcp) : Prop := tcp_tab s /\ tcp_lock_word s = 0.

Lemma wp_tcp_lock s (Q : unit -> tcp -> Prop) :
  tcp_lock_word s = 0 -> Q tt (set_tcp_lock 1 s) -> wp tcp_lock Q s.
Proof. unfold wp, tcp_lock. by intros ->. Qed.

Lemma tcp_unlock_same s : tcp_lock_word s = 0 -> set_tcp_lock 0 (set_tcp_lock 1 s) = s.
Proof. destruct s. simpl. by intros ->. Qed.

Lemma tcp_relock s v : tcp_lock_word s = 0 -> set_tcp_lock 0 (set_conns v (set_tcp_lock 1 s)) = set_conns v s.
Proof. destruct s. simpl. by intros ->. Qed.

Lemma wp_mod_conn s i c f (Q : unit -> tcp -> Prop) :
  arr (conns s) i = Some c -> Q tt (set_conns (upd (conns s) i (f c)) s) -> wp (mod_conn i f) Q s.
Proof. apply wp_modify_at. Qed.

Lemma has_id n c : has id_of n c = used c && (id c =? n).
Proof.
  apply eq_true_iff_eq. rewrite has_true, andb_true_iff, Z.eqb_eq. unfold id_of.
  destruct (used c); split; [by intros [= ->]|by intros [_ ->]|done|by intros [? _]].
Qed.

Lemma wp_find_by_id n s (Q : option Z -> tcp -> Prop) :
  zlen (conns s) = TCP_CONN_MAX -> Q (find_key id_of (conns s) n) s -> wp (find_by_id n) Q s.
Proof.
  intros Hl HQ. unfold find_by_id. apply (wp_search (has id_of n) (conns s)); [done| |].
  - intros i c Hc Hn. rewrite has_id in Hn. erewrite rd_bind by exact Hc. by rewrite Hn.
  - unfold find_key in HQ. destruct (find_idx _ _) as [i|]; [|done]. intros c Hc Hu. wp_step. eapply wp_rd; [done|].
    rewrite has_id in Hu. rewrite Hu. by apply wp_ret.
Qed.

Lemma wp_established n s (Q : option (Z * tcp_conn) -> tcp -> Prop) :
  zlen (conns s) = TCP_CONN_MAX ->
  match est (map_of s) n with
  | None => Q None s
  | Some e => forall i c, arr (conns s) i = Some c -> id_of c = Some n -> e = end_of c -> Q (Some (i, c)) s
  end -> wp (established n) Q s.
Proof.
  intros Hl HQ. unfold established. wp_step. apply wp_find_by_id; [done|]. unfold est in HQ. simpl in HQ.
  destruct (find_key id_of (conns s) n) as [i|] eqn:E.
  - apply find_key_inv in E as (c & Hc & Hk & Hat). rewrite Hat in HQ. simpl in HQ.
    wp_step. eapply wp_rd; [done|]. wp_step. destruct (bool_decide _); [by apply HQ|done].
  - apply find_key_none in E. rewrite E in HQ. by apply wp_ret.
Qed.

(** Replacing one connection of the table. *)
Lemma tcp_set s i c c' nx lk :
  tcp_tab s -> arr (conns s) i = Some c -> conn_ok c' -> next_id s <= nx <= INT32_MAX ->
  (forall k, id_of c' = Some k -> 0 < k < nx) -> fresh_at id_of (conns s) i c' ->
  let s' := mk_tcp (upd (conns s) i c') nx lk in
  tcp_tab s' /\
  forall k, m_conn (map_of s') k = if has id_of k c' then Some (end_of c') else
                                   if has id_of k c then None else m_conn (map_of s) k.
Proof.
  intros [Hlen Hcs Hnx Hids Hd] Hc Hok Hn Hk Hf s'. pose proof (arr_range _ _ _ Hc) as Hr.
  assert (Hat : forall k, at_key id_of (conns s') k = if has id_of k c' then Some c' else
    if has id_of k c then None else at_key id_of (conns s) k) by (intros k; by apply at_key_upd).
  split.
  - constructor; simpl; [by rewrite zlen_upd|by apply Forall_upd|lia| |by apply distinct_upd].
    intros k. rewrite Hat. destruct (has id_of k c') eqn:E; [intros _; by apply Hk, has_true|].
    destruct (has id_of k c); [done|]. intros H%Hids. lia.
  - intros k. simpl. rewrite Hat. destruct (has id_of k c'); [done|by destruct (has id_of k c)].
Qed.

(** A connection that keeps its identifier. *)
Lemma tcp_keep s i c c' k :
  tcp_tab s -> arr (conns s) i = Some c -> id_of c = Some k -> id_of c' = Some k -> conn_ok c' ->
  let s' := set_conns (upd (conns s) i c') s in
  tcp_tab s' /\ map_of s' ≡ mk_map (next_id s) (ins k (Some (end_of c')) (m_conn (map_of s))).
Proof.
  intros Ht Hc Hk Hk' Hok s'. pose proof Ht as [_ _ Hn Hids Hd].
  destruct (tcp_set s i c c' (next_id s) (tcp_lock_word s)) as [Ht' Hm]; [done|done|done|lia| | |].
  - intros x Hx. rewrite Hk' in Hx. simplify_eq. apply Hids. intros Hnone. by eapply at_key_none.
  - eapply fresh_same; [done|done|congruence].
  - split; [done|]. split; [done|]. intros x. unfold s', set_conns. rewrite Hm. unfold ins.
    rewrite !(has_some _ x k) by done. simpl. by destruct (x =? k).
Qed.

(** A connection in a free slot, with an identifier that was never used. *)
Lemma tcp_add s i c c' k nx lk :
  tcp_tab s -> arr (conns s) i = Some c -> used c = false -> id_of c' = Some k -> conn_ok c' ->
  next_id s <= k < nx -> nx <= INT32_MAX ->
  let s' := mk_tcp (upd (conns s) i c') nx lk in
  tcp_tab s' /\ map_of s' ≡ mk_map nx (ins k (Some (end_of c')) (m_conn (map_of s))) /\
  zlen (keys id_of (conns s')) = zlen (keys id_of (conns s)) + 1.
Proof.
  intros Ht Hc Hu Hk Hok Hnx Hmax s'. pose proof Ht as [_ _ Hn Hids Hd].
  assert (Hno : id_of c = None) by (unfold id_of; by rewrite Hu).
  destruct (tcp_set s i c c' nx lk) as [Ht' Hm]; [done|done|done|lia| | |].
  - intros x Hx. simplify_eq. lia.
  - eapply fresh_new; [done|]. destruct (at_key id_of (conns s) k) eqn:E; [|done].
    assert (0 < k < next_id s) by (apply Hids; by rewrite E). lia.
  - split; [done|]. split.
    + split; [done|]. intros x. unfold s'. rewrite Hm. unfold ins.
      rewrite (has_some _ x k c'), has_none by done. simpl. by destruct (x =? k).
    + destruct (omap_upd id_of (conns s) i c' c Hc) as (r & Hr & Hr'). unfold zlen, keys, s'. simpl conns.
      rewrite Hr, Hr', Hk, Hno. simpl. lia.
Qed.

Lemma in_use_keys s : tcp_tab s -> in_use (map_of s) (keys id_of (conns s)).
Proof.
  intros Ht. split; [apply keys_nodup, Ht|]. intros x. rewrite keys_spec. simpl. by destruct (at_key id_of (conns s) x).
Qed.

Lemma id_free c : id_of c = None <-> negb (used c) = true.
Proof. unfold id_of. by destruct (used c). Qed.

Lemma wp_alloc_conn s (Q : option Z -> tcp -> Prop) :
  zlen (conns s) = TCP_CONN_MAX -> next_id s < INT32_MAX ->
  (zlen (keys id_of (conns s)) = TCP_CONN_MAX -> Q None s) ->
  (forall i c, arr (conns s) i = Some c -> used c = false -> zlen (keys id_of (conns s)) < TCP_CONN_MAX ->
     Q (Some i) (mk_tcp (upd (conns s) i (fresh_conn (next_id s) c)) (next_id s + 1) (tcp_lock_word s))) ->
  wp alloc_conn Q s.
Proof.
  intros Hl Hmax HQ1 HQ2. pose proof (zlen_omap_free id_of (fun c => negb (used c)) (conns s) id_free) as Hfree.
  fold (keys id_of (conns s)) in Hfree. rewrite Hl in Hfree. unfold alloc_conn.
  apply (wp_search (fun c => negb (used c)) (conns s)); [done| |].
  { intros i c Hc Hn. erewrite rd_bind by exact Hc. by rewrite Hn. }
  destruct (find_idx _ (conns s)) as [i|]; [|by apply HQ1].
  intros c Hc Hu. wp_step. eapply wp_rd; [done|]. rewrite Hu. do 2 wp_step.
  destruct (Z.eqb_spec (next_id s) INT32_MAX); [lia|]. do 2 wp_step. wp_step. eapply wp_mod_conn; [exact Hc|].
  wp_step. apply negb_true_iff in Hu. by apply HQ2.
Qed.

(** ** The operations refine the map *)

Lemma fresh_conn_ok n c : conn_ok c -> conn_ok (fresh_conn n c).
Proof. intros [? ?]. split; [done|]. simpl. unfold TCP_BUF_MAX. lia. Qed.

Lemma wp_tcp_listen s port (Q : Z -> tcp -> Prop) :
  tcp_inv s -> next_id s < INT32_MAX ->
  (forall r s', tcp_inv s' -> listens (map_of s) port r (map_of s') -> Q r s') -> wp (tcp_listen port) Q s.
Proof.
  intros [Ht Hl] Hmax HQ. pose proof (in_use_keys s Ht) as Hin. unfold tcp_listen. wp_step. apply wp_tcp_lock; [done|].
  wp_step. unfold tcp_unlock, listens in *. apply wp_alloc_conn; [apply Ht|done| |].
  - simpl. intros Hfull. wp_go. rewrite tcp_unlock_same by done. apply HQ; [done|]. exists (keys id_of (conns s)).
    split; [done|]. by rewrite Hfull.
  - simpl. intros i c Hc Hu Hroom. pose proof (arr_range _ _ _ Hc) as Hr.
    wp_step. eapply wp_mod_conn; [simpl; by apply arr_upd_eq|]. simpl. rewrite upd_upd.
    wp_step. eapply wp_rd; [simpl; by apply arr_upd_eq|]. wp_go. unfold set_conns, set_tcp_lock. simpl.
    set (c' := mk_conn true (next_id s) TCP_LISTEN 0 port (peer_ip c) (peer_port c) (-1) 0 (rx_buf c)).
    destruct (tcp_add s i c c' (next_id s) (next_id s + 1) 0) as (Ht' & Hm & _); try done; try lia.
    { apply (fresh_conn_ok 0). exact (Forall_arr _ _ _ _ (tt_conns _ Ht) Hc). }
    apply HQ; [done|]. exists (keys id_of (conns s)). split; [done|].
    rewrite (proj2 (Z.ltb_lt _ _) Hroom). split; [done|]. rewrite Hm. done.
Qed.

Lemma wp_search_conn {R} s p (k : Z -> M tcp (option R)) (Q : option R -> tcp -> Prop) :
  zlen (conns s) = TCP_CONN_MAX ->
  match find_idx p (conns s) with
  | Some i => forall c, arr (conns s) i = Some c -> p c = true ->
      wp (k i) (fun r t => match r with Some y => Q (Some y) t | None => False end) s
  | None => Q None s
  end ->
  wp (for_each (upto 0 TCP_CONN_MAX) (fun i => c ← rd conns i; if p c then k i else mret None)) Q s.
Proof.
  intros Hl HQ. apply (wp_search p (conns s)); [done| |].
  - intros i c Hc Hn. erewrite rd_bind by exact Hc. by rewrite Hn.
  - destruct (find_idx p (conns s)) as [i|]; [|done]. intros c Hc Hp. wp_step. eapply wp_rd; [done|].
    rewrite Hp. by eapply HQ.
Qed.

Lemma is_listener_true port c :
  is_listener port c = true <-> id_of c = Some (id c) /\ e_state (end_of c) = TCP_LISTEN /\ e_port (end_of c) = port.
Proof.
  unfold is_listener, id_of. rewrite !andb_true_iff, bool_decide_eq_true, Z.eqb_eq. simpl.
  destruct (used c); intuition congruence.
Qed.

Lemma is_pending_true port c :
  is_pending port c = true <-> id_of c = Some (id c) /\ e_state (end_of c) = TCP_SYN_RECV /\ e_port (end_of c) = port.
Proof.
  unfold is_pending, id_of. rewrite !andb_true_iff, bool_decide_eq_true, Z.eqb_eq. simpl.
  destruct (used c); intuition congruence.
Qed.

(** The connections of the map are the used records. *)
Lemma map_conn s k e :
  tcp_tab s -> m_conn (map_of s) k = Some e <-> exists i c, arr (conns s) i = Some c /\ id_of c = Some k /\ e = end_of c.
Proof.
  intros Ht. simpl. split.
  - destruct (at_key id_of (conns s) k) as [c|] eqn:E; [|done]. intros [= <-].
    apply at_key_inv in E as (i & _ & Hc & Hk). by exists i, c.
  - intros (i & c & Hc & Hk & ->). by rewrite (at_key_some id_of _ i c k (tt_distinct _ Ht) Hc Hk).
Qed.

Lemma listening_find s port :
  tcp_tab s -> listening (map_of s) port <-> find_idx (is_listener port) (conns s) <> None.
Proof.
  intros Ht. split.
  - intros (k & e & (i & c & Hc & Hk & ->)%map_conn & Hs & Hp); [|done]. rewrite find_idx_None. intros H.
    assert (Hx : is_listener port c = true).
    { apply is_listener_true. split; [|done]. unfold id_of in *. by destruct (used c). }
    by rewrite H in Hx by (by eapply arr_elem).
  - destruct (find_idx _ _) as [i|] eqn:E; [|done]. intros _.
    apply find_idx_Some in E as (c & Hc & (Hk & Hs & Hp)%is_listener_true & _).
    exists (id c), (end_of c). split_and!; [|done..]. apply map_conn; [done|]. by exists i, c.
Qed.

Lemma wp_tcp_accept s port (Q : Z -> tcp -> Prop) :
  tcp_inv s -> (forall r s', tcp_inv s' -> next_id s' = next_id s -> accepts (map_of s) port r (map_of s') -> Q r s') ->
  wp (tcp_accept port) Q s.
Proof.
  intros [Ht Hl] HQ. unfold tcp_accept. wp_step. apply wp_tcp_lock; [done|]. wp_step. unfold tcp_unlock.
  apply wp_search_conn; [apply Ht|]. simpl. destruct (find_idx (is_pending port) (conns s)) as [i|] eqn:E.
  - intros c Hc (Hk & Hs & Hp)%is_pending_true. pose proof (arr_range _ _ _ Hc) as Hr.
    wp_step. eapply wp_mod_conn; [exact Hc|]. wp_step. eapply wp_rd; [simpl; by apply arr_upd_eq|]. wp_go.
    rewrite tcp_relock by done. destruct (tcp_keep s i c (establish c) (id c)) as [Ht' Hm].
    { done. } { done. } { done. } { done. } { exact (Forall_arr _ _ _ _ (tt_conns _ Ht) Hc). }
    apply HQ; [by split|done|]. right. exists (end_of c). split_and!; [|done|done|done].
    apply map_conn; [done|]. by exists i, c.
  - wp_go. rewrite tcp_unlock_same by done. apply HQ; [done|done|]. left. split; [done|].
    intros k e (i & c & Hc & Hk & ->)%map_conn [Hs Hp]; [|done]. rewrite find_idx_None in E.
    assert (Hx : is_pending port c = true).
    { apply is_pending_true. split; [|done]. unfold id_of in *. by destruct (used c). }
    by rewrite E in Hx by (by eapply arr_elem).
Qed.

Lemma tab_lock s v : tcp_tab s -> tcp_tab (set_tcp_lock v s).
Proof. by intros [? ? ? ? ?]. Qed.

Lemma wp_tcp_close s k (Q : Z -> tcp -> Prop) :
  tcp_inv s -> (forall r s', tcp_inv s' -> next_id s' = next_id s -> closes (map_of s) k r (map_of s') -> Q r s') ->
  wp (tcp_close k) Q s.
Proof.
  intros [Ht Hl] HQ. unfold tcp_close. wp_step. apply wp_tcp_lock; [done|]. wp_step.
  apply wp_find_by_id; [apply Ht|]. simpl. unfold tcp_unlock, closes in *.
  destruct (find_key id_of (conns s) k) as [i|] eqn:E.
  - apply find_key_inv in E as (c & Hc & Hk & Hat). simpl in HQ. rewrite Hat in HQ. simpl in HQ.
    wp_step. eapply wp_mod_conn; [exact Hc|]. wp_go. rewrite tcp_relock by done.
    change (conns (set_tcp_lock 1 s)) with (conns s). match goal with |- context [upd (conns s) i ?x] => set (c' := x) end.
    destruct (tcp_set s i c c' (next_id s) 0) as [Ht' Hm]; [done|done| |pose proof (tt_next _ Ht); lia|done|by apply fresh_unused|].
    { exact (Forall_arr _ _ _ _ (tt_conns _ Ht) Hc). }
    unfold set_conns. rewrite Hl. apply HQ; [done|done|]. split; [done|]. split; [done|]. intros x. rewrite Hm. unfold ins.
    rewrite (has_none _ x c'), (has_some _ x k c) by done. simpl. by destruct (x =? k).
  - apply find_key_none in E. simpl in HQ. rewrite E in HQ. wp_go. rewrite tcp_unlock_same by done. by apply HQ.
Qed.

(** The two ends that a connect makes in the free slots [c] and [d]. *)
Definition client_end (n dst_ip dst_port src_port : Z) (c : tcp_conn) : tcp_conn :=
  mk_conn true n TCP_ESTABLISHED 0 src_port dst_ip dst_port (n + 1) 0 (rx_buf c).
Definition server_end (n dst_ip dst_port src_port : Z) (d : tcp_conn) : tcp_conn :=
  mk_conn true (n + 1) TCP_SYN_RECV dst_ip dst_port dst_ip src_port n 0 (rx_buf d).

Lemma wp_link_ends s n i j c d dst_ip dst_port src_port k (Q : Z -> tcp * net -> Prop) :
  net_inv n -> zlen (conns s) = TCP_CONN_MAX -> next_id s = k + 2 -> i <> j ->
  arr (conns s) i = Some (fresh_conn k c) -> arr (conns s) j = Some (fresh_conn (k + 1) d) ->
  Q k (mk_tcp (upd (upd (conns s) i (client_end k dst_ip dst_port src_port c)) j
                   (server_end k dst_ip dst_port src_port d)) (k + 2) 0, set_stats (inc_tcp_conn (stats n)) n) ->
  wp (link_ends dst_ip dst_port src_port i j) Q (s, n).
Proof.
  intros Hn Hlen Hnext Hij Hc Hd HQ. pose proof (arr_range _ _ _ Hc) as Hr. pose proof (arr_range _ _ _ Hd) as Hrd.
  assert (Hat : forall x y, arr (upd (upd (conns s) i x) j y) i = Some x).
  { intros x y. by rewrite arr_upd_ne, arr_upd_eq. }
  unfold link_ends, tcp_unlock.
  wp_step. apply wp_on_own. eapply wp_mod_conn; [exact Hc|]. simpl.
  wp_step. apply wp_on_own. eapply wp_mod_conn; [simpl; by rewrite arr_upd_ne|]. simpl.
  wp_step. apply wp_on_own. eapply wp_rd; [simpl; apply arr_upd_eq; by rewrite zlen_upd|].
  wp_step. apply wp_on_own. eapply wp_mod_conn; [simpl; by apply Hat|]. simpl. rewrite (upd_swap _ j i), upd_upd by done.
  wp_step. apply wp_on_own. eapply wp_rd; [simpl; by apply Hat|].
  wp_step. apply wp_on_own. eapply wp_mod_conn; [simpl; apply arr_upd_eq; by rewrite zlen_upd|]. simpl. rewrite upd_upd.
  wp_step. apply wp_on_note; [done|]. wp_step. apply wp_on_own. eapply wp_rd; [simpl; by apply Hat|].
  wp_step. apply wp_on_own. do 2 wp_step. unfold set_conns, set_tcp_lock. simpl. by rewrite Hnext.
Qed.

Lemma tcp_add_pair s i j c d dst_ip dst_port src_port :
  tcp_tab s -> next_id s + 2 <= INT32_MAX -> i <> j -> arr (conns s) i = Some c -> arr (conns s) j = Some d ->
  used c = false -> used d = false ->
  let n := next_id s in
  let s' := mk_tcp (upd (upd (conns s) i (client_end n dst_ip dst_port src_port c)) j
                        (server_end n dst_ip dst_port src_port d)) (n + 2) 0 in
  tcp_inv s' /\
  map_of s' ≡ mk_map (n + 2) (ins (n + 1) (Some (mk_end TCP_SYN_RECV dst_port n []))
                (ins n (Some (mk_end TCP_ESTABLISHED src_port (n + 1) [])) (m_conn (map_of s)))).
Proof.
  intros Ht Hmax Hij Hc Hd Hu Hud n s'.
  destruct (tcp_add s i c (client_end n dst_ip dst_port src_port c) n (n + 1) 0) as (Ht1 & [_ Hm1] & _); try done; try lia.
  { apply (fresh_conn_ok 0). exact (Forall_arr _ _ _ _ (tt_conns _ Ht) Hc). }
  destruct (tcp_add _ j d (server_end n dst_ip dst_port src_port d) (n + 1) (n + 2) 0 Ht1) as (Ht2 & [_ Hm2] & _);
    simpl; try done; try lia.
  { by rewrite arr_upd_ne. }
  { apply (fresh_conn_ok 0 d). exact (Forall_arr _ _ _ _ (tt_conns _ Ht) Hd). }
  split; [by split|]. split; [done|]. intros k. unfold s'. rewrite Hm2. simpl m_conn. unfold ins at 1 2.
  destruct (k =? n + 1); [done|]. apply Hm1.
Qed.

(** A connection given back: only the counter has moved. *)
Lemma tcp_undo s i c :
  tcp_tab s -> next_id s < INT32_MAX -> arr (conns s) i = Some c -> used c = false ->
  let s' := mk_tcp (upd (conns s) i (undo_conn (fresh_conn (next_id s) c))) (next_id s + 1) 0 in
  tcp_inv s' /\ map_of s' ≡ mk_map (next_id s + 1) (m_conn (map_of s)).
Proof.
  intros Ht Hmax Hc Hu s'.
  destruct (tcp_set s i c (undo_conn (fresh_conn (next_id s) c)) (next_id s + 1) 0) as [Ht' Hm];
    [done|done| |lia|done|by apply fresh_unused|].
  { apply (fresh_conn_ok 0). exact (Forall_arr _ _ _ _ (tt_conns _ Ht) Hc). }
  split; [by split|]. split; [done|]. intros k. unfold s'. rewrite Hm. rewrite !has_none; [done| |done].
  unfold id_of. by rewrite Hu.
Qed.

Definition connected_stats (r : Z) (n : net) : net := if r <? 0 then n else set_stats (inc_tcp_conn (stats n)) n.

Lemma wp_tcp_connect s n dst_ip dst_port src_port (Q : Z -> tcp * net -> Prop) :
  tcp_inv s -> net_inv n -> next_id s + 2 <= INT32_MAX ->
  (forall r s', tcp_inv s' -> connects (map_of s) dst_port src_port r (map_of s') -> Q r (s', connected_stats r n)) ->
  wp (tcp_connect dst_ip dst_port src_port) Q (s, n).
Proof.
  intros [Ht Hl] Hn Hmax HQ. pose proof (in_use_keys s Ht) as Hin. pose proof (listening_find s dst_port Ht) as Hlis.
  pose proof (tt_next _ Ht) as Hnx.
  unfold tcp_connect. wp_step. apply wp_on_own, wp_tcp_lock; [done|]. wp_step. apply wp_on_own.
  unfold find_listener. apply wp_search_conn; [apply Ht|]. simpl. unfold tcp_unlock, connects in *.
  destruct (find_idx (is_listener dst_port) (conns s)) as [x|]; simpl.
  2: { wp_step. apply wp_on_own. do 2 wp_step. cbn [fst snd]. rewrite tcp_unlock_same by done. apply (HQ (NM_ERR NM_EFAIL)); [done|].
       left. split; [|done]. rewrite Hlis. by intros []. }
  assert (Hyes : listening (map_of s) dst_port) by (by apply Hlis).
  intros _ _ _. apply wp_ret. wp_step. apply wp_on_own, wp_alloc_conn; simpl; [apply Ht|lia| |].
  { intros Hfull. wp_step. apply wp_on_own, wp_alloc_conn; simpl; [apply Ht|lia| |].
    2: { intros. lia. }
    intros _. do 4 wp_step. wp_step. apply wp_on_own. do 2 wp_step. cbn [fst snd]. rewrite tcp_unlock_same by done.
    apply (HQ (NM_ERR NM_EFAIL)); [done|]. right. split; [done|]. exists (keys id_of (conns s)). split; [done|].
    by rewrite Hfull. }
  intros i c Hc Hu Hroom. pose proof (arr_range _ _ _ Hc) as Hr.
  assert (Hk1 : zlen (keys id_of (upd (conns s) i (fresh_conn (next_id s) c))) = zlen (keys id_of (conns s)) + 1).
  { destruct (tcp_add s i c (fresh_conn (next_id s) c) (next_id s) (next_id s + 1) 0) as (_ & _ & Hk); try done; try lia.
    apply fresh_conn_ok. exact (Forall_arr _ _ _ _ (tt_conns _ Ht) Hc). }
  wp_step. apply wp_on_own, wp_alloc_conn; simpl; [rewrite zlen_upd; apply Ht|lia|rewrite Hk1..].
  - intros Hfull. wp_step. apply wp_on_own. eapply wp_mod_conn; [simpl; by apply arr_upd_eq|]. simpl. rewrite upd_upd.
    do 2 wp_step. wp_step. apply wp_on_own. do 2 wp_step. destruct (tcp_undo s i c) as [Hi' Hm]; [done|lia|done|done|].
    apply (HQ (NM_ERR NM_EFAIL)); [done|]. right. split; [done|]. exists (keys id_of (conns s)). split; [done|].
    rewrite Hfull. simpl. split; [done|]. rewrite (proj2 (Z.eqb_neq _ _)) by lia. done.
  - intros j d Hd Hud Hroom2. assert (Hij : i <> j).
    { intros ->. rewrite arr_upd_eq in Hd by done. by simplify_eq. }
    rewrite arr_upd_ne in Hd by done. pose proof (arr_range _ _ _ Hd) as Hrd.
    apply (wp_link_ends _ _ _ _ c d _ _ _ (next_id s)); simpl; [done|rewrite !zlen_upd; apply Ht|lia|done|..].
    { by rewrite arr_upd_ne, arr_upd_eq. }
    { apply arr_upd_eq. by rewrite zlen_upd. }
    rewrite (upd_swap _ j i), !upd_upd by done.
    destruct (tcp_add_pair s i j c d dst_ip dst_port src_port) as [Hi' Hm]; [done|lia|done..|].
    specialize (HQ (next_id s) _ Hi'). unfold connected_stats in HQ. rewrite (proj2 (Z.ltb_ge (next_id s) 0)) in HQ by lia.
    apply HQ. right. split; [done|].
    exists (keys id_of (conns s)). split; [done|]. by rewrite (proj2 (Z.ltb_lt _ _) Hroom2).
Qed.

Lemma set_rx_ok n b c : zlen b = TCP_BUF_MAX -> 0 <= n <= TCP_BUF_MAX -> conn_ok (set_rx n b c).
Proof. by split. Qed.

Lemma wp_tcp_send s k data len (Q : Z -> tcp -> Prop) :
  tcp_inv s -> 0 <= len <= zlen data ->
  (forall r s', tcp_inv s' -> next_id s' = next_id s -> sends (map_of s) k data len r (map_of s') -> Q r s') ->
  wp (tcp_send k (Some data) len) Q s.
Proof.
  intros [Ht Hl] Hlen HQ. unfold tcp_send. wp_step. apply wp_tcp_lock; [done|]. wp_step. unfold tcp_unlock, sends in *.
  apply wp_established; [apply Ht|]. change (est (map_of (set_tcp_lock 1 s)) k) with (est (map_of s) k).
  destruct (est (map_of s) k) as [e|].
  2: { wp_go. rewrite tcp_unlock_same by done. apply HQ; [done|done|]. by destruct (len =? 0). }
  intros i c Hc Hk ->. destruct (Z.eqb_spec len 0) as [|Hne].
  { wp_go. rewrite tcp_unlock_same by done. by apply HQ. }
  wp_step. apply wp_established; [apply Ht|].
  simpl e_peer in HQ. change (est (map_of (set_tcp_lock 1 s)) (peer_id c)) with (est (map_of s) (peer_id c)).
  destruct (est (map_of s) (peer_id c)) as [p|].
  2: { wp_go. rewrite tcp_unlock_same by done. by apply HQ. }
  intros j d Hd Hkd ->. simpl in Hd. destruct (Forall_arr _ _ _ _ (tt_conns _ Ht) Hd) as [Hb Hx]. cbv zeta.
  assert (Hn : (if TCP_BUF_MAX <? len then TCP_BUF_MAX else len) = Z.min len TCP_BUF_MAX).
  { destruct (Z.ltb_spec TCP_BUF_MAX len); lia. }
  rewrite Hn. set (n := Z.min len TCP_BUF_MAX) in *. assert (0 <= n <= zlen data) by (unfold n, TCP_BUF_MAX; lia).
  wp_step. apply wp_copy_bytes; [lia|unfold n; lia|]. wp_step. eapply wp_mod_conn; [exact Hd|]. wp_go.
  rewrite tcp_relock by done. set (b := take (Z.to_nat n) data ++ drop (Z.to_nat n) (rx_buf d)).
  assert (Hbl : zlen b = TCP_BUF_MAX).
  { unfold b. unfold zlen in *. rewrite length_app, length_take, length_drop. unfold n, TCP_BUF_MAX in *. lia. }
  destruct (tcp_keep s j d (set_rx n b d) (peer_id c)) as [Ht' Hm]; [done..|apply set_rx_ok; [done|unfold n, TCP_BUF_MAX; lia]|].
  apply HQ; [done|done|]. split; [done|]. rewrite Hm. split; [done|]. intros x. simpl. unfold ins.
  destruct (x =? peer_id c); [|done]. do 2 f_equal. unfold end_of, with_inbox. simpl. f_equal. unfold b.
  apply take_app_length'. unfold zlen in *. rewrite length_take. lia.
Qed.

Lemma wp_tcp_recv s k cap (Q : Z * list Z -> tcp -> Prop) :
  tcp_inv s -> 0 <= cap ->
  (forall r s', tcp_inv s' -> next_id s' = next_id s -> receives (map_of s) k cap r (map_of s') -> Q r s') ->
  wp (tcp_recv k true cap) Q s.
Proof.
  intros [Ht Hl] Hcap HQ. unfold tcp_recv. wp_step. apply wp_tcp_lock; [done|]. wp_step. unfold tcp_unlock, receives in *.
  apply wp_established; [apply Ht|]. change (est (map_of (set_tcp_lock 1 s)) k) with (est (map_of s) k).
  destruct (est (map_of s) k) as [e|] eqn:Ee.
  2: { wp_go. rewrite tcp_unlock_same by done. by apply HQ. }
  intros i c Hc Hk ->. simpl in Hc. destruct (Forall_arr _ _ _ _ (tt_conns _ Ht) Hc) as [Hb Hx]. cbn [negb].
  assert (Hz : zlen (e_inbox (end_of c)) = rx_len c) by (simpl; unfold zlen in *; rewrite length_take; lia).
  destruct (tcp_keep s i c (set_rx 0 (rx_buf c) c) k) as [Ht' Hm]; [done..|by apply set_rx_ok|].
  destruct (Z.eqb_spec (rx_len c) 0) as [E|].
  - wp_go. rewrite tcp_unlock_same by done. apply HQ; [done|done|]. rewrite Hz, E. split.
    { simpl. rewrite E, Z.min_l, take_take by lia. by rewrite Nat.min_0_r. }
    split; [done|]. intros x. simpl. unfold ins. destruct (Z.eqb_spec x k) as [->|]; [|done].
    rewrite (at_key_some id_of _ i c k (tt_distinct _ Ht) Hc Hk). simpl. unfold end_of, with_inbox. simpl. by rewrite E.
  - cbv zeta. wp_step. apply wp_load_bytes; [destruct (Z.ltb_spec (rx_len c) cap); lia|].
    wp_step. eapply wp_mod_conn; [exact Hc|]. wp_go. rewrite tcp_relock by done. apply HQ; [done|done|]. split; [|done].
    rewrite Hz. simpl. rewrite take_take. f_equal; [destruct (Z.ltb_spec (rx_len c) cap); lia|].
    f_equal. destruct (Z.ltb_spec (rx_len c) cap); lia.
Qed.

(** ** Well-formed maps: peers are paired *)

Definition end_ok (a : netmap) (k : Z) (e : endpoint) : Prop :=
  0 < k < m_next a /\ zlen (e_inbox e) <= TCP_BUF_MAX /\
  match e_state e with
  | TCP_LISTEN => e_peer e = -1 /\ e_inbox e = []
  | TCP_SYN_RECV => 0 < e_peer e < m_next a /\ e_inbox e = []
  | TCP_ESTABLISHED => 0 < e_peer e < m_next a
  | _ => False
  end.

Record wf (a : netmap) : Prop := mk_wf {
  wf_end k e : m_conn a k = Some e -> end_ok a k e;
  wf_peer k e p : m_conn a k = Some e -> m_conn a (e_peer e) = Some p -> e_peer e <> k /\ e_peer p = k;
}.

#[global] Instance wf_proper : Proper ((≡) ==> iff) wf.
Proof.
  assert (H : forall a b, a ≡ b -> wf a -> wf b).
  { intros a b [Hn Hc] [H1 H2]. constructor.
    - intros k e Hk. rewrite <- Hc in Hk. specialize (H1 k e Hk). unfold end_ok in *. by rewrite <- Hn.
    - intros k e p Hk Hp. rewrite <- Hc in Hk, Hp. by eapply H2. }
  intros a b Hab. split; by apply H.
Qed.

(** An end that keeps its peer may change otherwise. *)
Lemma wf_update a k e e' :
  wf a -> m_conn a k = Some e -> e_peer e' = e_peer e -> end_ok a k e' -> wf (mk_map (m_next a) (ins k (Some e') (m_conn a))).
Proof.
  intros [H1 H2] Hk Hp Hok. constructor; simpl; unfold ins.
  - intros x y. destruct (Z.eqb_spec x k) as [->|]; [by intros [= <-]|by apply H1].
  - intros x y z. destruct (Z.eqb_spec x k) as [->|].
    + intros [= <-]. rewrite Hp. destruct (Z.eqb_spec (e_peer e) k) as [E|].
      * destruct (H2 k e e Hk ltac:(congruence)). done.
      * by apply H2.
    + intros Hx. destruct (Z.eqb_spec (e_peer y) k) as [E|]; [|by apply H2]. intros [= <-]. rewrite Hp.
      apply (H2 x y e Hx). by rewrite E.
Qed.

Lemma wf_remove a k : wf a -> wf (mk_map (m_next a) (ins k None (m_conn a))).
Proof.
  intros [H1 H2]. constructor; simpl; unfold ins.
  - intros x y. destruct (x =? k); [done|by apply H1].
  - intros x y z. destruct (x =? k); [done|]. destruct (e_peer y =? k); [done|by apply H2].
Qed.

Lemma wf_next a n : wf a -> m_next a <= n -> wf (mk_map n (m_conn a)).
Proof.
  intros [H1 H2] Hn. constructor; simpl; [|done]. intros k e Hk. destruct (H1 k e Hk) as (Hr & Hi & Hs).
  split; [simpl; lia|]. split; [done|]. simpl. destruct (e_state e); try done; [|lia]. destruct Hs. split; [lia|done].
Qed.

(** ** Every sequence of operations refines the map *)

Inductive tcp_op :=
| OpListen (port : Z)
| OpConnect (dst_ip dst_port src_port : Z)
| OpAccept (port : Z)
| OpSend (conn : Z) (data : list Z) (len : Z)
| OpRecv (conn cap : Z)
| OpClose (conn : Z).

Definition op_ok (o : tcp_op) : Prop :=
  match o with
  | OpSend _ data len => 0 <= len <= zlen data
  | OpRecv _ cap => 0 <= cap
  | _ => True
  end.

Definition run_op (o : tcp_op) : M (tcp * net) (Z * list Z) :=
  match o with
  | OpListen port => r ← on_own (tcp_listen port); mret (r, [])
  | OpConnect ip dp sp => r ← tcp_connect ip dp sp; mret (r, [])
  | OpAccept port => r ← on_own (tcp_accept port); mret (r, [])
  | OpSend k data len => r ← on_own (tcp_send k (Some data) len); mret (r, [])
  | OpRecv k cap => on_own (tcp_recv k true cap)
  | OpClose k => r ← on_own (tcp_close k); mret (r, [])
  end.

Definition map_step (a : netmap) (o : tcp_op) (r : Z * list Z) (a' : netmap) : Prop :=
  match o with
  | OpListen port => listens a port r.1 a'
  | OpConnect _ dp sp => connects a dp sp r.1 a'
  | OpAccept port => accepts a port r.1 a'
  | OpSend k data len => sends a k data len r.1 a'
  | OpRecv k cap => receives a k cap r a'
  | OpClose k => closes a k r.1 a'
  end.

Inductive map_run : netmap -> list tcp_op -> list (Z * list Z) -> netmap -> Prop :=
| run_nil a : map_run a [] [] a
| run_cons a o r a' os rs a'' : map_step a o r a' -> map_run a' os rs a'' -> map_run a (o :: os) (r :: rs) a''.

Fixpoint run_ops (os : list tcp_op) : M (tcp * net) (list (Z * list Z)) :=
  match os with
  | [] => mret []
  | o :: os => r ← run_op o; rs ← run_ops os; mret (r :: rs)
  end.

Lemma wf_fresh a n e :
  wf a -> m_next a < n -> e_peer e = -1 -> end_ok (mk_map n (m_conn a)) (m_next a) e ->
  wf (mk_map n (ins (m_next a) (Some e) (m_conn a))).
Proof.
  intros Hw Hn Hp Hok. destruct (wf_next a n Hw ltac:(lia)) as [H1 H2]. constructor; simpl; unfold ins.
  - intros x y. destruct (Z.eqb_spec x (m_next a)) as [->|]; [by intros [= <-]|by apply H1].
  - intros x y z. destruct (Z.eqb_spec x (m_next a)) as [->|].
    + intros [= <-]. rewrite Hp. destruct (Z.eqb_spec (-1) (m_next a)) as [E|]; [destruct Hok as [? _]; simpl in *; lia|].
      intros Hz. destruct (wf_end a Hw _ _ Hz) as [? _]. lia.
    + intros Hx. destruct (Z.eqb_spec (e_peer y) (m_next a)) as [E|]; [|by apply H2].
      exfalso. destruct (wf_end a Hw _ _ Hx) as (? & _ & Hs). destruct (e_state y); simpl in *; try done; lia.
Qed.

Lemma wf_pair a port port' :
  wf a -> 0 < m_next a ->
  let n := m_next a in
  wf (mk_map (n + 2) (ins (n + 1) (Some (mk_end TCP_SYN_RECV port n []))
    (ins n (Some (mk_end TCP_ESTABLISHED port' (n + 1) [])) (m_conn a)))).
Proof.
  intros Hw Hpos n. destruct (wf_next a (n + 2) Hw ltac:(lia)) as [H1 H2].
  assert (Hold : forall x y, m_conn a x = Some y -> 0 < x < n /\ e_peer y < n).
  { intros x y Hx. destruct (wf_end a Hw _ _ Hx) as (? & _ & Hs). destruct (e_state y); simpl in *; lia. }
  constructor; simpl; unfold ins.
  - intros x y. destruct (Z.eqb_spec x (n + 1)) as [->|]; [intros [= <-]; repeat split; simpl; unfold zlen, TCP_BUF_MAX; simpl; lia|].
    destruct (Z.eqb_spec x n) as [->|]; [intros [= <-]; repeat split; simpl; unfold zlen, TCP_BUF_MAX; simpl; lia|by apply H1].
  - intros x y z. destruct (Z.eqb_spec x (n + 1)) as [->|]; [intros [= <-]|destruct (Z.eqb_spec x n) as [->|]; [intros [= <-]|]]; simpl.
    + destruct (Z.eqb_spec n (n + 1)); [lia|]. rewrite Z.eqb_refl. intros [= <-]. split; [lia|done].
    + rewrite Z.eqb_refl. intros [= <-]. split; [lia|done].
    + intros Hx. destruct (Hold x y Hx). destruct (Z.eqb_spec (e_peer y) (n + 1)); [lia|].
      destruct (Z.eqb_spec (e_peer y) n); [lia|]. by apply H2.
Qed.

Lemma est_some a k e : est a k = Some e -> m_conn a k = Some e /\ e_state e = TCP_ESTABLISHED.
Proof. unfold est. destruct (m_conn a k) as [x|]; [|done]. simpl. case_bool_decide; [|done]. by intros [= <-]. Qed.

(** Every step of the map keeps it well formed. *)
Lemma wf_step a o r a' : wf a -> 0 < m_next a -> op_ok o -> map_step a o r a' -> wf a'.
Proof.
  intros Hw Hpos Ho Hs. destruct o as [port|ip dp sp|port|k data len|k cap|k]; simpl in Ho, Hs.
  - destruct Hs as (ids & _ & Hs). destruct (zlen ids <? TCP_CONN_MAX); [|by destruct Hs as [_ ->]].
    destruct Hs as [-> ->]. apply wf_fresh; [done|lia|done|]. repeat split; simpl; unfold zlen, TCP_BUF_MAX; simpl; lia.
  - destruct Hs as [[_ [_ ->]]|(_ & ids & _ & Hs)]; [done|]. destruct (zlen ids + 1 <? TCP_CONN_MAX).
    + destruct Hs as [-> ->]. by apply wf_pair.
    + destruct Hs as [_ ->]. apply wf_next; [done|]. destruct (zlen ids =? TCP_CONN_MAX); lia.
  - destruct Hs as [[[_ ->] _]|(e & Hk & Hst & Hp & ->)]; [done|]. eapply wf_update; [done..|].
    destruct (wf_end a Hw _ _ Hk) as (H1 & H2 & H3). rewrite Hst in H3. split; [done|]. split; [done|]. simpl. lia.
  - unfold sends in Hs. destruct (len =? 0); [by destruct Hs as [_ ->]|]. destruct (est a k) as [e|]; [|by destruct Hs as [_ ->]].
    destruct (est a (e_peer e)) as [p|] eqn:E; [|by destruct Hs as [_ ->]]. destruct Hs as [-> ->].
    apply est_some in E as [Hk Hst]. destruct (wf_end a Hw _ _ Hk) as (H1 & H2 & H3). eapply wf_update; [done..|].
    rewrite Hst in H3. split; [done|]. split; [|simpl; by rewrite Hst].
    simpl. unfold zlen, TCP_BUF_MAX in *. rewrite length_take. lia.
  - unfold receives in Hs. destruct (est a k) as [e|] eqn:E; [|by destruct Hs as [[_ ->] _]]. destruct Hs as [_ ->].
    apply est_some in E as [Hk Hst]. destruct (wf_end a Hw _ _ Hk) as (H1 & H2 & H3). eapply wf_update; [done..|].
    rewrite Hst in H3. split; [done|]. split; [done|]. simpl. by rewrite Hst.
  - unfold closes in Hs. destruct (m_conn a k); [|by destruct Hs as [_ ->]]. destruct Hs as [_ ->]. by apply wf_remove.
Qed.

Lemma wp_tcp_run s n o (Q : Z * list Z -> tcp * net -> Prop) :
  tcp_inv s -> net_inv n -> op_ok o -> next_id s + 2 <= INT32_MAX ->
  (forall r s' n', tcp_inv s' -> net_inv n' -> map_step (map_of s) o r (map_of s') -> Q r (s', n')) ->
  wp (run_op o) Q (s, n).
Proof.
  intros Hi Hn Ho Hmax HQ. destruct o as [port|ip dp sp|port|k data len|k cap|k]; simpl in Ho, HQ |- *.
  - wp_step. apply wp_on_own, wp_tcp_listen; [done|simpl; lia|]. intros r s' Hi' Hs. wp_step. by apply HQ.
  - wp_step. apply wp_tcp_connect; [done..|]. intros r s' Hi' Hs. wp_step. apply HQ; [done| |done].
    unfold connected_stats. destruct (r <? 0); [done|by apply net_inv_stats].
  - wp_step. apply wp_on_own, wp_tcp_accept; [done|]. intros r s' Hi' _ Hs. wp_step. by apply HQ.
  - wp_step. apply wp_on_own, wp_tcp_send; [done..|]. intros r s' Hi' _ Hs. wp_step. by apply HQ.
  - apply wp_on_own, wp_tcp_recv; [done..|]. intros r s' Hi' _ Hs. by apply HQ.
  - wp_step. apply wp_on_own, wp_tcp_close; [done|]. intros r s' Hi' _ Hs. wp_step. by apply HQ.
Qed.

(** A step moves the counter by at most two. *)
Lemma step_next a o r a' : map_step a o r a' -> m_next a <= m_next a' <= m_next a + 2.
Proof.
  intros Hs. assert (Hf : forall b x, fails b x a' -> m_next a' = m_next b) by (by intros b x [_ [-> _]]).
  destruct o as [port|ip dp sp|port|k data len|k cap|k]; simpl in Hs.
  - destruct Hs as (ids & _ & Hs). destruct (zlen ids <? TCP_CONN_MAX); [destruct Hs as [-> [-> _]]; simpl; lia|].
    apply Hf in Hs. lia.
  - destruct Hs as [[_ Hs]|(_ & ids & _ & Hs)]; [apply Hf in Hs; lia|].
    destruct (zlen ids + 1 <? TCP_CONN_MAX); [destruct Hs as [-> [-> _]]; simpl; lia|].
    apply Hf in Hs. simpl in Hs. destruct (zlen ids =? TCP_CONN_MAX); lia.
  - destruct Hs as [[Hs _]|(e & _ & _ & _ & [-> _])]; [apply Hf in Hs; lia|simpl; lia].
  - unfold sends in Hs. destruct (len =? 0); [apply Hf in Hs; lia|]. destruct (est a k) as [e|]; [|apply Hf in Hs; lia].
    destruct (est a (e_peer e)); [destruct Hs as [_ [-> _]]; simpl; lia|apply Hf in Hs; lia].
  - unfold receives in Hs. destruct (est a k); [destruct Hs as [_ [-> _]]; simpl; lia|].
    destruct Hs as [Hs _]. apply Hf in Hs. lia.
  - unfold closes in Hs. destruct (m_conn a k); [destruct Hs as [_ [-> _]]; simpl; lia|apply Hf in Hs; lia].
Qed.

(** C37: tcp.c refines a finite map from connection identifiers to ends: whatever
    the sequence of listens, connects, accepts, sends, receives and closes, as long
    as fewer than [2^31] identifiers are handed out, every call returns with the
    locks free and its answer and effect are those the map prescribes (a connect
    makes two ends exactly when there is a listener and two free slots; a send
    replaces the inbox of the established peer; a receive empties it), and the map
    stays well formed: an end's peer has that end as its peer, and only
    established ends hold bytes, at most 2048. *)
Theorem tcp_refines_map os s n :
  tcp_inv s -> wf (map_of s) -> net_inv n -> Forall op_ok os -> next_id s + 2 * zlen os <= INT32_MAX ->
  wp (run_ops os) (fun rs t => tcp_inv t.1 /\ net_inv t.2 /\ wf (map_of t.1) /\
    map_run (map_of s) os rs (map_of t.1)) (s, n).
Proof.
  revert s n. induction os as [|o os IH]; intros s n Hi Hw Hn Ho Hmax; cbn [run_ops].
  - apply wp_ret. split_and!; [done|done|done|constructor].
  - apply Forall_cons in Ho as [Ho Hos]. unfold zlen in Hmax. simpl in Hmax. wp_step.
    apply wp_tcp_run; [done|done|done|lia|]. intros r s' n' Hi' Hn' Hs. wp_step. pose proof (step_next _ _ _ _ Hs) as Hnx.
    simpl in Hnx. wp_use IH; [done| |done|done|unfold zlen; lia|].
    + eapply wf_step; [done| |done|done]. simpl. destruct Hi as [[_ _ ? _ _] _]. lia.
    + intros rs t (Hi2 & Hn2 & Hw2 & Hr). wp_step. split_and!; [done|done|done|by econstructor].
Qed.

(** A second send before a receive replaces the bytes of the first. *)
Theorem send_overwrites a k e p d1 l1 r1 a1 d2 l2 r2 a2 cap x a3 :
  est a k = Some e -> est a (e_peer e) = Some p -> e_peer e <> k -> 0 < l1 <= zlen d1 -> 0 < l2 <= zlen d2 -> 0 <= cap ->
  sends a k d1 l1 r1 a1 -> sends a1 k d2 l2 r2 a2 -> receives a2 (e_peer e) cap x a3 ->
  x.2 = take (Z.to_nat cap) (take (Z.to_nat r2) d2).
Proof.
  intros He Hp Hne H1 H2 Hcap Hs1 Hs2 Hr. unfold sends in Hs1. rewrite He, Hp, (proj2 (Z.eqb_neq l1 0)) in Hs1 by lia.
  destruct Hs1 as [-> [_ E1]]. pose proof (est_some _ _ _ He) as [Hk Hst]. pose proof (est_some _ _ _ Hp) as [Hkp Hstp].
  assert (He1 : est a1 k = Some e).
  { unfold est. rewrite E1. simpl. unfold ins. rewrite (proj2 (Z.eqb_neq k (e_peer e))) by done. rewrite Hk. simpl.
    by rewrite bool_decide_eq_true_2. }
  assert (Hp1 : est a1 (e_peer e) = Some (with_inbox (take (Z.to_nat (l1 `min` TCP_BUF_MAX)) d1) p)).
  { unfold est. rewrite E1. simpl. unfold ins. rewrite Z.eqb_refl. simpl. by rewrite bool_decide_eq_true_2. }
  unfold sends in Hs2. rewrite He1, Hp1, (proj2 (Z.eqb_neq l2 0)) in Hs2 by lia. destruct Hs2 as [-> [_ E2]].
  unfold receives, est in Hr. rewrite E2 in Hr. simpl in Hr. unfold ins in Hr. rewrite Z.eqb_refl in Hr. simpl in Hr.
  rewrite bool_decide_eq_true_2 in Hr by done. by destruct Hr as [-> _].
Qed.

(** The table at boot. *)
Definition tcp0 : tcp := mk_tcp (replicate 64 (mk_conn false 0 TCP_CLOSED 0 0 0 0 0 0 (replicate 2048 0))) 1 0.

Lemma tcp0_none k : at_key id_of (conns tcp0) k = None.
Proof. apply at_key_none. intros i c Hc%arr_elem. unfold tcp0 in Hc. cbn [conns] in Hc. by apply elem_of_replicate in Hc as [-> _]. Qed.

Lemma tcp0_inv : tcp_inv tcp0 /\ wf (map_of tcp0).
Proof.
  split; [split; [|done]; constructor|constructor; unfold map_of; cbn [m_conn]].
  - done.
  - apply Forall_replicate. by split.
  - done.
  - intros k. by rewrite tcp0_none.
  - intros i j c d k Hc _ Hk. exfalso. by eapply (proj1 (at_key_none _ _ _) (tcp0_none k)).
  - intros k e. by rewrite tcp0_none.
  - intros k e p. by rewrite tcp0_none.
Qed.

Definition demo_calls : list tcp_op :=
  [OpListen 80; OpConnect 1 80 4000; OpAccept 80; OpSend 2 [1; 2; 3] 3; OpRecv 3 10; OpClose 2].

Lemma tcp_refines_map_witness :
  wp (run_ops demo_calls) (fun rs t => tcp_inv t.1 /\ net_inv t.2 /\ wf (map_of t.1) /\
    map_run (map_of tcp0) demo_calls rs (map_of t.1))
    (tcp0, mk_net (mk_cfg (replicate 6 0) 0 0 0 true) zero_stats 0 0).
Proof.
  apply tcp_refines_map; [apply tcp0_inv|apply tcp0_inv|done| |done]. repeat constructor; simpl; done.
Defined.

End Tcp.
