(* ===== verification/Ip.v ===== *)
(** * Received frames ([net_input_frame] of [kernel/net/net.c],
    [kernel/net/ipv4.c], [kernel/net/icmp.c])

    A frame is taken apart into its headers and handed to the protocol it is
    for. The bytes come from outside, so nothing is assumed of them. *)

From S2P Require Import Prelude Table Net Arp Udp Tcp.
Import Net.

Module Ip.

(** The whole stack: the interface and the tables of the protocols. *)
Record stack := mk_stack { k_net : net; k_arp : Arp.arp; k_udp : Udp.udp; k_tcp : Tcp.tcp }.

Definition on_if {A} (c : M net A) : M stack A :=
  lift_to k_net (fun n s => mk_stack n (k_arp s) (k_udp s) (k_tcp s)) c.
Definition on_arp {A} (c : M Arp.arp A) : M stack A :=
  lift_to k_arp (fun a s => mk_stack (k_net s) a (k_udp s) (k_tcp s)) c.
Definition on_udp {A} (c : M (Udp.udp * net) A) : M stack A :=
  lift_to (fun s => (k_udp s, k_net s)) (fun t s => mk_stack t.2 (k_arp s) t.1 (k_tcp s)) c.
Definition on_tcp {A} (c : M (Tcp.tcp * net) A) : M stack A :=
  lift_to (fun s => (k_tcp s, k_net s)) (fun t s => mk_stack t.2 (k_arp s) (k_udp s) t.1) c.

(** ** ICMP *)

Definition icmp_send_echo (dst_ip ident seq : Z) (payload : option (list Z)) (len : Z) : M net Z :=
  net_stats_note_icmp_req ;; net_stats_note_icmp_rep ;; mret 0.

Definition icmp_input (src_ip dst_ip : Z) (payload : option (list Z)) (len : Z) : M net unit :=
  match payload with
  | None => mret tt
  | Some p =>
      if len <? 8 then mret tt else
      type ← rd (fun _ => p) 0;
      if type =? 8 then net_stats_note_icmp_req ;; net_stats_note_icmp_rep
      else if type =? 0 then net_stats_note_icmp_rep
      else mret tt
  end.

(** ** IPv4 *)

Definition rd_be32 {S} (p : list Z) (i : Z) : M S Z :=
  a ← rd (fun _ => p) i; b ← rd (fun _ => p) (i + 1); c ← rd (fun _ => p) (i + 2); d ← rd (fun _ => p) (i + 3);
  mret (Arp.be32 a b c d).

Definition ipv4_input (packet : option (list Z)) (len : Z) : M stack unit :=
  match packet with
  | None => mret tt
  | Some p =>
      if len <? 20 then mret tt else
      b0 ← rd (fun _ => p) 0;
      let ihl := u8 (Z.land b0 15 * 4) in
      if (ihl <? 20) || (len <? ihl) then mret tt else
      proto ← rd (fun _ => p) 9;
      src_ip ← rd_be32 p 12;
      dst_ip ← rd_be32 p 16;
      let payload := Some (drop (Z.to_nat ihl) p) in
      let payload_len := u16 (len - ihl) in
      if proto =? NM_IP_PROTO_ICMP then on_if (icmp_input src_ip dst_ip payload payload_len)
      else if proto =? NM_IP_PROTO_UDP then on_udp (Udp.udp_input src_ip dst_ip payload payload_len)
      else if proto =? NM_IP_PROTO_TCP then on_tcp (on_own (Tcp.tcp_input src_ip dst_ip payload payload_len))
      else mret tt
  end.

(** ** Ethernet *)

Definition net_input_frame (frame : option (list Z)) (len : Z) : M stack Z :=
  match frame with
  | None => on_if (note inc_rx_dropped) ;; mret (NM_ERR NM_EFAIL)
  | Some f =>
      if len <? 14 then on_if (note inc_rx_dropped) ;; mret (NM_ERR NM_EFAIL) else
      lo ← rd (fun _ => f) 12; hi ← rd (fun _ => f) 13;
      let eth_type := bswap16 (Z.lor lo (Z.shiftl hi 8)) in
      on_if (note inc_rx_frames) ;;
      let payload := Some (drop 14 f) in
      let payload_len := u16 (len - 14) in
      if eth_type =? NM_ETH_TYPE_ARP then on_arp (Arp.arp_input payload payload_len) ;; mret 0
      else if eth_type =? NM_ETH_TYPE_IPV4 then ipv4_input payload payload_len ;; mret 0
      else on_if (note inc_rx_dropped) ;; mret (NM_ERR NM_EFAIL)
  end.

(** [frame] is what the buffer on the stack holds before the call. *)
Definition net_poll (frame : list Z) : M stack unit :=
  n ← on_if (rtl8139_recv (zlen frame));
  if 0 <? n then net_input_frame (Some frame) n ;; mret tt else mret tt.

(** ** Specification: what a frame is *)

Inductive frame_kind :=
| Runt
| Unknown
| IsArp (sender : option (Z * list Z))
| BadIp
| IsUdp (src_ip src_port dst_port : Z) (data : list Z)
| Icmp (type : Z)
| OtherIp.

Definition byte (p : list Z) (i : Z) : Z := default 0 (arr p i).
Definition field32 (p : list Z) (i : Z) : Z :=
  byte p i * 16777216 + byte p (i + 1) * 65536 + byte p (i + 2) * 256 + byte p (i + 3).

Definition ip_kind (p : list Z) (len : Z) : frame_kind :=
  let ihl := 4 * (byte p 0 `mod` 16) in
  if (len <? 20) || (ihl <? 20) || (len <? ihl) then BadIp else
  let q := drop (Z.to_nat ihl) p in
  let n := len - ihl in
  if byte p 9 =? 1 then (if n <? 8 then OtherIp else Icmp (byte q 0))
  else if byte p 9 =? 17 then
    match Udp.udp_segment q n with
    | Some (sp, port, k) => IsUdp (field32 p 12) sp port (take (Z.to_nat k) (drop 8 q))
    | None => OtherIp
    end
  else OtherIp.

Definition kind_of (f : list Z) : frame_kind :=
  if zlen f <? 14 then Runt else
  let t := byte f 12 * 256 + byte f 13 in
  if t =? 2054 then IsArp (if u16 (zlen f - 14) <? 28 then None else Some (field32 (drop 14 f) 14, take 6 (drop 22 f))) else
  if t =? 2048 then ip_kind (drop 14 f) (u16 (zlen f - 14)) else Unknown.

(** ** The integers of the headers *)

Lemma byte_is p i : Forall is_byte p -> is_byte (byte p i).
Proof.
  intros H. unfold byte. destruct (arr p i) as [x|] eqn:E; [exact (Forall_arr _ _ _ _ H E)|by unfold is_byte].
Qed.

Lemma eth_type_val lo hi : is_byte lo -> is_byte hi -> bswap16 (Z.lor lo (Z.shiftl hi 8)) = lo * 256 + hi.
Proof.
  intros Hl Hh. unfold is_byte in *. rewrite Z.lor_comm, lor_shiftl by lia. unfold bswap16.
  rewrite Z.lor_comm, Z.shiftr_div_pow2 by lia. change (2 ^ 8) with 256.
  replace ((hi * 256 + lo) / 256) with hi by (Z.to_euclidean_division_equations; lia).
  rewrite lor_shiftl by lia. unfold u16. change (2 ^ 8) with 256. Z.to_euclidean_division_equations. lia.
Qed.

Lemma be32_val a b c d : is_byte a -> is_byte b -> is_byte c -> is_byte d ->
  Arp.be32 a b c d = a * 16777216 + b * 65536 + c * 256 + d.
Proof.
  intros Ha Hb Hc Hd. unfold Arp.be32, is_byte in *. rewrite !Z.shiftl_mul_pow2, !u32_small by lia.
  rewrite <- (Z.shiftl_mul_pow2 a 24), lor_shiftl by lia.
  replace (a * 2 ^ 24 + b * 2 ^ 16) with (Z.shiftl (a * 256 + b) 16) by (rewrite Z.shiftl_mul_pow2 by lia; lia).
  rewrite lor_shiftl by lia.
  replace ((a * 256 + b) * 2 ^ 16 + c * 2 ^ 8) with (Z.shiftl ((a * 256 + b) * 256 + c) 8) by (rewrite Z.shiftl_mul_pow2 by lia; lia).
  rewrite lor_shiftl by lia. lia.
Qed.

Lemma wp_rd_byte {S} p i (Q : Z -> S -> Prop) s : 0 <= i < zlen p -> Q (byte p i) s -> wp (rd (fun _ => p) i) Q s.
Proof. intros [x Hx]%arr_lookup HQ. eapply wp_rd; [done|]. unfold byte in HQ. by rewrite Hx in HQ. Qed.

Lemma wp_rd_be32 {S} p i (Q : Z -> S -> Prop) s :
  Forall is_byte p -> 0 <= i -> i + 3 < zlen p -> Q (field32 p i) s -> wp (rd_be32 p i) Q s.
Proof.
  intros Hb Hi Hl HQ. unfold rd_be32. do 4 (wp_step; apply wp_rd_byte; [lia|]). wp_step.
  by rewrite be32_val by (by apply byte_is).
Qed.

Lemma ihl_val b : is_byte b -> u8 (Z.land b 15 * 4) = 4 * (b `mod` 16).
Proof.
  intros Hb. change 15 with (Z.ones 4). rewrite Z.land_ones by lia. change (2 ^ 4) with 16.
  pose proof (Z.mod_pos_bound b 16 ltac:(lia)). unfold u8. rewrite Z.mod_small; lia.
Qed.

Lemma bytes_drop n p : Forall is_byte p -> Forall is_byte (drop n p).
Proof. apply Forall_drop. Qed.

Lemma zlen_drop {A} n (p : list A) : 0 <= n <= zlen p -> zlen (drop (Z.to_nat n) p) = zlen p - n.
Proof. intros H. unfold zlen in *. rewrite length_drop. lia. Qed.

(** ** A frame is handled as its kind says *)

Definition stack_inv (s : stack) (l : list (Z * list Z)) : Prop :=
  net_inv (k_net s) /\ Arp.arp_rep (k_arp s) l /\ Udp.udp_inv (k_udp s) /\ Tcp.tcp_inv (k_tcp s).

Definition with_stats (f : nm_net_stats -> nm_net_stats) (s : stack) : stack :=
  mk_stack (set_stats (f (stats (k_net s))) (k_net s)) (k_arp s) (k_udp s) (k_tcp s).

Definition icmp_note (type : Z) (v : nm_net_stats) : nm_net_stats :=
  if type =? 8 then inc_icmp_echo_rep (inc_icmp_echo_req v) else if type =? 0 then inc_icmp_echo_rep v else v.

(** The effect of an IPv4 packet. *)
Definition ip_effect (k : frame_kind) (s s' : stack) : Prop :=
  match k with
  | Icmp t => s' = with_stats (icmp_note t) s
  | IsUdp src sp port data => exists x u,
      Udp.udp_inv u /\
      Udp.arrives (Udp.bags_of (k_udp s)) port (Udp.mk_dgram src sp (take 1500 data)) x (Udp.bags_of u) /\
      s' = mk_stack (Udp.delivered_stats x (k_net s)) (k_arp s) u (k_tcp s)
  | _ => s' = s
  end.

Lemma wp_on_if_note f s (Q : unit -> stack -> Prop) :
  net_inv (k_net s) -> Q tt (with_stats f s) -> wp (on_if (note f)) Q s.
Proof. intros Hn HQ. unfold on_if. apply wp_lift. by apply wp_note. Qed.

Lemma with_stats_id s : with_stats id s = s.
Proof. by destruct s as [[? ? ? ?] ? ? ?]. Qed.

Lemma wp_icmp s src dst p len (Q : unit -> stack -> Prop) :
  net_inv (k_net s) -> len <= zlen p ->
  Q tt (if len <? 8 then s else with_stats (icmp_note (byte p 0)) s) -> wp (on_if (icmp_input src dst (Some p) len)) Q s.
Proof.
  intros Hn Hl HQ. unfold on_if. apply wp_lift. unfold icmp_input. destruct (Z.ltb_spec len 8).
  { apply wp_ret. by destruct s. }
  wp_step. apply wp_rd_byte; [lia|]. unfold icmp_note in HQ. destruct (byte p 0 =? 8).
  { wp_step. apply wp_note; [done|]. apply wp_note; [by apply net_inv_stats|done]. }
  destruct (byte p 0 =? 0); [by apply wp_note|]. apply wp_ret. destruct s as [[? ? ? ?] ? ? ?]. exact HQ.
Qed.

Lemma wp_ipv4_input s l p len (Q : unit -> stack -> Prop) :
  stack_inv s l -> Forall is_byte p -> 0 <= len <= zlen p -> len < 65536 ->
  (forall s', stack_inv s' l -> ip_effect (ip_kind p len) s s' -> Q tt s') ->
  wp (ipv4_input (Some p) len) Q s.
Proof.
  intros (Hn & Ha & Hu & Ht) Hb Hlen Hmax HQ. assert (Hi : stack_inv s l) by done. unfold ipv4_input, ip_kind in *.
  destruct (Z.ltb_spec len 20); [apply wp_ret; by apply HQ|]. wp_step. apply wp_rd_byte; [lia|]. cbv zeta in *.
  rewrite ihl_val by (by apply byte_is). set (ihl := 4 * (byte p 0 `mod` 16)) in *. simpl orb in HQ.
  destruct ((ihl <? 20) || (len <? ihl)) eqn:E; [apply wp_ret; by apply HQ|].
  apply orb_false_iff in E as [E1%Z.ltb_ge E2%Z.ltb_ge]. wp_step. apply wp_rd_byte; [lia|].
  wp_step. apply wp_rd_be32; [done|lia|lia|]. wp_step. apply wp_rd_be32; [done|lia|lia|].
  pose proof (zlen_drop ihl p ltac:(lia)) as Hd. unfold u16. rewrite Z.mod_small by lia.
  unfold NM_IP_PROTO_ICMP, NM_IP_PROTO_UDP. destruct (byte p 9 =? 1).
  { apply wp_icmp; [done|lia|]. destruct (len - ihl <? 8); [by apply HQ|]. apply HQ; [|done].
    split; [by apply net_inv_stats|done]. }
  destruct (byte p 9 =? 17).
  - unfold on_udp. apply wp_lift. apply Udp.wp_udp_input; [done|done|by apply bytes_drop|lia|lia|].
    intros u n Hu' Hn' Hs. destruct (Udp.udp_segment _ _) as [[[sp port] k]|] eqn:Es.
    + destruct Hs as (x & Hx & ->). apply HQ; [by split_and!|]. exists x, u. split_and!; [done| |done].
      unfold Udp.cut in Hx. rewrite take_take. unfold Udp.UDP_PAYLOAD_MAX in Hx.
      replace (1500 `min` Z.to_nat k)%nat with (Z.to_nat (k `min` 1500)) by lia. done.
    + destruct Hs as [-> ->]. destruct s. by apply HQ.
  - destruct (byte p 9 =? NM_IP_PROTO_TCP); [|apply wp_ret; by apply HQ]. unfold on_tcp. apply wp_lift. apply wp_on_own.
    apply wp_ret. destruct s. by apply HQ.
Qed.

(** The effect of a frame, with its return value. *)
Definition frame_effect (k : frame_kind) (l : list (Z * list Z)) (r : Z) (s s' : stack) : Prop :=
  match k with
  | Runt => r = NM_ERR NM_EFAIL /\ s' = with_stats inc_rx_dropped s
  | Unknown => r = NM_ERR NM_EFAIL /\ s' = with_stats (fun v => inc_rx_dropped (inc_rx_frames v)) s
  | IsArp None => r = 0 /\ s' = with_stats inc_rx_frames s
  | IsArp (Some (i, m)) => r = 0 /\ exists a, Arp.arp_rep a (Arp.lru_add i m l) /\
      s' = mk_stack (k_net (with_stats inc_rx_frames s)) a (k_udp s) (k_tcp s)
  | k => r = 0 /\ ip_effect k (with_stats inc_rx_frames s) s'
  end.

Lemma ip_frame_effect p len l s s' :
  ip_effect (ip_kind p len) (with_stats inc_rx_frames s) s' -> frame_effect (ip_kind p len) l 0 s s'.
Proof.
  unfold ip_kind. destruct (_ || _); [done|]. destruct (byte p 9 =? 1); [by destruct (_ <? 8)|].
  destruct (byte p 9 =? 17); [|done]. by destruct (Udp.udp_segment _ _) as [[[? ?] ?]|].
Qed.

Lemma field32_sender p : Forall is_byte p -> Arp.sender p = (field32 p 14, take 6 (drop 8 p)).
Proof. intros Hb. unfold Arp.sender. f_equal. apply be32_val; by apply byte_is. Qed.

Lemma wp_net_input_frame s l f (Q : Z -> stack -> Prop) :
  stack_inv s l -> Forall is_byte f -> Arp.age_tick (k_arp s) + 1 < UINT64_MAX ->
  (forall r s' l', stack_inv s' l' -> frame_effect (kind_of f) l r s s' -> Q r s') ->
  wp (net_input_frame (Some f) (zlen f)) Q s.
Proof.
  intros Hi Hb Hage HQ. pose proof Hi as (Hn & Ha & Hu & Ht).
  assert (Hs : forall g, stack_inv (with_stats g s) l) by (intros g; split; [by apply net_inv_stats|done]).
  unfold net_input_frame, kind_of in *. destruct (Z.ltb_spec (zlen f) 14).
  { wp_step. apply wp_on_if_note; [done|]. wp_step. by eapply HQ. }
  do 2 (wp_step; apply wp_rd_byte; [lia|]). cbv zeta in *. rewrite eth_type_val by (by apply byte_is).
  wp_step. apply wp_on_if_note; [done|]. set (s1 := with_stats inc_rx_frames s).
  assert (Hd : zlen (drop 14 f) = zlen f - 14) by (apply (zlen_drop 14); lia).
  assert (Hlen : 0 <= u16 (zlen f - 14) <= zlen f - 14) by (unfold u16; Z.to_euclidean_division_equations; lia).
  assert (Hmax : u16 (zlen f - 14) < 65536) by (unfold u16; Z.to_euclidean_division_equations; lia).
  pose proof (bytes_drop 14 f Hb) as Hb'. unfold NM_ETH_TYPE_ARP, NM_ETH_TYPE_IPV4.
  destruct (byte f 12 * 256 + byte f 13 =? 2054); [|destruct (byte f 12 * 256 + byte f 13 =? 2048)].
  - wp_step. unfold on_arp. apply wp_lift. eapply Arp.wp_arp_input; [exact Ha|done|lia|].
    rewrite field32_sender by done. cbn [fst snd]. rewrite drop_drop. destruct (u16 (zlen f - 14) <? 28).
    + wp_step. eapply HQ; [exact (Hs inc_rx_frames)|]. split; [done|]. by destruct s.
    + intros a Hra _. wp_step. eapply HQ; [split; [by apply net_inv_stats|done]|]. split; [done|]. by exists a.
  - wp_step. eapply wp_ipv4_input; [apply Hs|done|lia|done|]. intros s' Hi' He. wp_step. eapply HQ; [done|].
    by apply ip_frame_effect.
  - wp_step. apply wp_on_if_note; [by apply net_inv_stats|]. wp_step. eapply HQ; [|done].
    exact (Hs (fun v => inc_rx_dropped (inc_rx_frames v))).
Qed.

(** C40: [net_input_frame] is safe on every frame a network can deliver: whatever
    the bytes, no read leaves the frame, the call returns with the locks free and
    the tables in order, and its effect is the one the kind of the frame
    prescribes: a frame that is too short or of an unknown type is counted as
    dropped, an ARP packet adds its sender to the cache, an IPv4 packet with bad
    lengths is ignored, an ICMP message is counted, and a UDP segment is delivered
    to its port with the source and the bytes of its fields. *)
Theorem net_input_frame_spec s l f :
  stack_inv s l -> Forall is_byte f -> Arp.age_tick (k_arp s) + 1 < UINT64_MAX ->
  wp (net_input_frame (Some f) (zlen f))
    (fun r s' => (exists l', stack_inv s' l') /\ frame_effect (kind_of f) l r s s') s.
Proof. intros. eapply wp_net_input_frame; [done..|]. eauto. Qed.

(** ** Frames as a sender builds them *)

Definition put16 (v : Z) : list Z := [v / 256; v `mod` 256].
Definition put32 (v : Z) : list Z := [v / 16777216; (v / 65536) `mod` 256; (v / 256) `mod` 256; v `mod` 256].

(** A UDP datagram in an IPv4 packet in an Ethernet frame; [macs], [mid], [ck] and
    [opts] are the fields that the receiver ignores. *)
Definition udp_seg (sp port : Z) (ck data : list Z) : list Z :=
  put16 sp ++ put16 port ++ put16 (8 + zlen data) ++ ck ++ data.
Definition ip_packet (mid ck opts : list Z) (src dst : Z) (seg : list Z) : list Z :=
  (69 + zlen opts / 4) :: mid ++ 17 :: ck ++ put32 src ++ put32 dst ++ opts ++ seg.
Definition eth_frame (macs packet : list Z) : list Z := macs ++ put16 2048 ++ packet.

Record frame_fields := mk_fields {
  ff_macs : list Z;
  ff_mid : list Z;
  ff_ck : list Z;
  ff_opts : list Z;
  ff_dst : Z;
  ff_uck : list Z;
}.
Definition fields_ok (h : frame_fields) : Prop :=
  zlen (ff_macs h) = 12 /\ zlen (ff_mid h) = 8 /\ zlen (ff_ck h) = 2 /\ zlen (ff_uck h) = 2 /\
  zlen (ff_opts h) `mod` 4 = 0 /\ zlen (ff_opts h) <= 40 /\ is_u32 (ff_dst h) /\
  Forall is_byte (ff_macs h ++ ff_mid h ++ ff_ck h ++ ff_opts h ++ ff_uck h).

Definition udp_frame (h : frame_fields) (src sp port : Z) (data : list Z) : list Z :=
  eth_frame (ff_macs h) (ip_packet (ff_mid h) (ff_ck h) (ff_opts h) src (ff_dst h) (udp_seg sp port (ff_uck h) data)).

Lemma put16_val v r : Udp.field16 (put16 v ++ r) 0 = v.
Proof. transitivity (256 * (v / 256) + v `mod` 256); [done|]. Z.to_euclidean_division_equations. lia. Qed.

Lemma put32_val v a : is_u32 v -> length a = 12%nat -> forall r, field32 (a ++ put32 v ++ r) 12 = v.
Proof.
  intros Hv Ha r. do 12 (destruct a as [|? a]; [done|]). destruct a; [|done].
  transitivity (v / 16777216 * 16777216 + (v / 65536) `mod` 256 * 65536 + (v / 256) `mod` 256 * 256 + v `mod` 256); [done|].
  unfold is_u32 in Hv. Z.to_euclidean_division_equations. lia.
Qed.

Lemma udp_segment_seg sp port ck data :
  zlen ck = 2 -> Udp.udp_segment (udp_seg sp port ck data) (8 + zlen data) = Some (sp, port, zlen data).
Proof.
  intros Hck. unfold Udp.udp_segment, udp_seg.
  assert (H0 : Udp.field16 (put16 sp ++ put16 port ++ put16 (8 + zlen data) ++ ck ++ data) 0 = sp) by apply put16_val.
  assert (H2 : Udp.field16 (put16 sp ++ put16 port ++ put16 (8 + zlen data) ++ ck ++ data) 2 = port).
  { etransitivity; [|apply (put16_val port [])]. done. }
  assert (H4 : Udp.field16 (put16 sp ++ put16 port ++ put16 (8 + zlen data) ++ ck ++ data) 4 = 8 + zlen data).
  { etransitivity; [|apply (put16_val (8 + zlen data) [])]. done. }
  rewrite H0, H2, H4. assert (0 <= zlen data) by (unfold zlen; lia).
  rewrite !(proj2 (Z.ltb_ge _ _)) by lia. simpl. do 2 f_equal. lia.
Qed.

Lemma drop_seg sp port ck data : zlen ck = 2 -> drop 8 (udp_seg sp port ck data) = data.
Proof. intros Hck. destruct ck as [|? [|? [|? ?]]]; unfold zlen in Hck; simpl in Hck; try lia. done. Qed.

(** The parser inverts the layout of a packet. *)
Lemma ip_kind_packet mid ck opts src dst seg sp port data len :
  zlen mid = 8 -> zlen ck = 2 -> zlen opts `mod` 4 = 0 -> zlen opts <= 40 -> is_u32 src ->
  len = zlen (ip_packet mid ck opts src dst seg) ->
  Udp.udp_segment seg (zlen seg) = Some (sp, port, zlen data) -> drop 8 seg = data ->
  ip_kind (ip_packet mid ck opts src dst seg) len = IsUdp src sp port data.
Proof.
  intros Hm Hc Ho Ho' Hs Hl Hseg Hd. set (p := ip_packet mid ck opts src dst seg) in *.
  assert (Hz : 0 <= zlen opts) by (unfold zlen; lia). assert (Hz' : 0 <= zlen seg) by (unfold zlen; lia).
  assert (Hlen : len = 20 + zlen opts + zlen seg).
  { rewrite Hl. unfold p, ip_packet, put32, zlen in *. simpl. rewrite !length_app. simpl. rewrite !length_app. simpl. rewrite length_app. lia. }
  assert (Hb0 : byte p 0 = 69 + zlen opts / 4) by done.
  assert (Hp : p = ((69 + zlen opts / 4) :: mid ++ 17 :: ck) ++ put32 src ++ put32 dst ++ opts ++ seg).
  { unfold p, ip_packet. simpl. by rewrite <- !app_assoc. }
  assert (Hh : length ((69 + zlen opts / 4) :: mid ++ 17 :: ck) = 12%nat) by (simpl; rewrite length_app; unfold zlen in *; simpl; lia).
  assert (Hihl : 4 * (byte p 0 `mod` 16) = 20 + zlen opts) by (rewrite Hb0; Z.to_euclidean_division_equations; lia).
  assert (Hdrop : drop (Z.to_nat (20 + zlen opts)) p = seg).
  { rewrite Hp. rewrite !app_assoc. apply drop_app_length'. rewrite !length_app, Hh. unfold zlen in *. simpl. lia. }
  assert (Hb9 : byte p 9 = 17).
  { unfold byte, arr. simpl. rewrite lookup_app_r by (unfold zlen in Hm; lia). unfold zlen in Hm.
    by replace (8 - length mid)%nat with O by lia. }
  unfold ip_kind. cbv zeta. rewrite Hihl, Hdrop, Hb9. rewrite !(proj2 (Z.ltb_ge _ _)) by lia. simpl.
  replace (len - (20 + zlen opts)) with (zlen seg) by lia. rewrite Hseg, Hd. f_equal.
  - rewrite Hp. by apply put32_val.
  - apply take_ge. unfold zlen. lia.
Qed.

Lemma kind_udp_frame h src sp port data :
  fields_ok h -> is_u32 src -> zlen data <= 65000 -> kind_of (udp_frame h src sp port data) = IsUdp src sp port data.
Proof.
  intros (Hm & Hmid & Hck & Huck & Ho & Ho' & _ & _) Hs Hd. unfold udp_frame, eth_frame.
  set (p := ip_packet _ _ _ _ _ _). destruct (ff_macs h) as [|a0 l0]; [done|].
  do 11 (destruct l0 as [|? l0]; [done|]). destruct l0; [|unfold zlen in Hm; simpl in Hm; lia].
  assert (Hseg : zlen (udp_seg sp port (ff_uck h) data) = 8 + zlen data).
  { unfold udp_seg, put16, zlen in *. simpl. rewrite length_app. lia. }
  assert (Hp : zlen p = 20 + zlen (ff_opts h) + (8 + zlen data)).
  { rewrite <- Hseg. unfold p, ip_packet, put32, zlen in *. simpl. rewrite !length_app. simpl. rewrite !length_app. simpl.
    rewrite length_app. lia. }
  unfold kind_of. assert (0 <= zlen data) by (unfold zlen; lia). assert (0 <= zlen (ff_opts h)) by (unfold zlen; lia).
  match goal with |- context [zlen ?f <? 14] => assert (Hf : zlen f = 14 + zlen p) by (unfold zlen; simpl; lia) end.
  rewrite Hf, (proj2 (Z.ltb_ge _ _)) by lia. cbn -[ip_kind u16 p zlen].
  replace (14 + zlen p - 14) with (zlen p) by lia. unfold u16. rewrite (Z.mod_small (zlen p)) by lia.
  eapply ip_kind_packet; [done..| |by apply drop_seg]. rewrite Hseg. by apply udp_segment_seg.
Qed.

Lemma put16_bytes v : 0 <= v < 65536 -> Forall is_byte (put16 v).
Proof. intros. unfold put16, is_byte. repeat constructor; Z.to_euclidean_division_equations; lia. Qed.

Lemma put32_bytes v : is_u32 v -> Forall is_byte (put32 v).
Proof. unfold is_u32. intros. unfold put32, is_byte. repeat constructor; Z.to_euclidean_division_equations; lia. Qed.

Lemma udp_frame_bytes h src sp port data :
  fields_ok h -> is_u32 src -> 0 <= sp < 65536 -> 0 <= port < 65536 -> zlen data <= 65000 -> Forall is_byte data ->
  Forall is_byte (udp_frame h src sp port data).
Proof.
  intros (_ & _ & _ & _ & _ & Ho & Hdst & Hb) Hs Hsp Hport Hd Hdata. rewrite !Forall_app in Hb.
  destruct Hb as (? & ? & ? & ? & ?). assert (0 <= zlen data) by (unfold zlen; lia).
  assert (0 <= zlen (ff_opts h)) by (unfold zlen; lia).
  pose proof (put16_bytes sp Hsp). pose proof (put16_bytes port Hport). pose proof (put16_bytes (8 + zlen data) ltac:(lia)).
  pose proof (put32_bytes src Hs). pose proof (put32_bytes (ff_dst h) Hdst). pose proof (put16_bytes 2048 ltac:(lia)).
  unfold udp_frame, eth_frame, ip_packet, udp_seg. rewrite !Forall_app, Forall_cons, !Forall_app, Forall_cons, !Forall_app.
  split_and!; try done; unfold is_byte; Z.to_euclidean_division_equations; lia.
Qed.

(** A datagram sent to a bound port arrives: when the frame of a UDP datagram
    comes in, whatever the fields the receiver ignores and with or without IP
    options, and the queue of the port is empty, the next receive on the port
    answers the bytes of the datagram (cut to the capacity, and to 1500 bytes) and
    its source address and port. *)
Theorem udp_frame_delivered s l h src sp port data cap :
  stack_inv s l -> Arp.age_tick (k_arp s) + 1 < UINT64_MAX -> fields_ok h ->
  is_u32 src -> 0 <= sp < 65536 -> 0 <= port < 65536 -> zlen data <= 1500 -> Forall is_byte data -> 0 <= cap ->
  Udp.bags_of (k_udp s) port = Some [] ->
  let f := udp_frame h src sp port data in
  wp (net_input_frame (Some f) (zlen f) ;; on_udp (on_own (Udp.udp_recv port true cap true true)))
    (fun r s' => r = Udp.mk_received (Z.min (zlen data) cap) (take (Z.to_nat cap) data) (Some src) (Some sp) /\
       Udp.bags_of (k_udp s') ≡ Udp.bags_of (k_udp s)) s.
Proof.
  intros Hi Hage Hh Hsrc Hsp Hport Hd Hdata Hcap Hbag f. wp_step.
  apply (wp_net_input_frame s l f _ Hi); [apply udp_frame_bytes; (done || lia)|done|].
  intros r s1 l' Hi1 He. unfold f in He. rewrite kind_udp_frame in He by (done || lia).
  destruct He as (-> & x & u & Hu & Ha & ->). unfold Udp.arrives in Ha. simpl in Ha. rewrite Hbag in Ha.
  destruct Ha as [-> Ha]. simpl in Ha. rewrite (take_ge data) in * by (unfold zlen in Hd; lia).
  unfold on_udp. apply wp_lift. apply wp_on_own. apply Udp.wp_udp_recv; [done|done|]. intros r s' Hinv Ht. cbn [k_udp fst snd] in *.
  unfold Udp.takes in Ht. pose proof (Ha port) as Hp. unfold Udp.put in Hp. rewrite Z.eqb_refl in Hp.
  inversion Hp as [b b' Hbb Hb1 Hb2|]; subst. rewrite <- Hb1 in Ht.
  apply Permutation_singleton_r in Hbb as ->. destruct Ht as (d & rest & Hperm & Hput & ->).
  apply Permutation_singleton_l in Hperm. injection Hperm as <- <-. split; [done|]. rewrite Hput. intros q.
  unfold Udp.put. destruct (Z.eqb_spec q port) as [->|]; [by rewrite Hbag|]. specialize (Ha q). unfold Udp.put in Ha.
  by rewrite (proj2 (Z.eqb_neq _ _)) in Ha.
Qed.

(** The driver never has a frame, so a poll changes nothing. *)
Lemma net_poll_idle frame s : net_poll frame s = Done tt s.
Proof.
  unfold net_poll, mbind, M_bind, on_if, lift_to, rtl8139_recv, gets. destruct s as [n a u t]. simpl.
  unfold mbind, M_bind. by destruct (rtl_dev n =? 0).
Qed.

(** ** Witnesses: the stack after boot, with port 7 bound *)

Definition port0 : Udp.udp_port := Udp.mk_port false 0 (replicate 16 (Udp.mk_msg false 0 0 0 (replicate 1500 0))).
Definition udp7 : Udp.udp :=
  Udp.set_ports (upd (Udp.ports Udp.udp0) 0 (Udp.mk_port true 7 (Udp.m_free <$> Udp.p_q port0))) Udp.udp0.
Definition stack7 : stack := mk_stack Udp.net0 Arp.arp0 udp7 Tcp.tcp0.

Lemma udp0_unbound port : Udp.bags_of Udp.udp0 port = None.
Proof.
  unfold Udp.bags_of. rewrite (proj2 (Table.at_key_none Udp.port_of (Udp.ports Udp.udp0) port)); [done|].
  intros i p E%Udp.udp0_free. unfold Udp.port_of. by rewrite E.
Qed.

Lemma udp7_ok : Udp.udp_inv udp7 /\ Udp.bags_of udp7 ≡ Udp.put (Udp.bags_of Udp.udp0) 7 (Some []).
Proof. apply (Udp.udp_set_bind Udp.udp0 0 port0 7); [apply Udp.udp0_inv|done|done|done|apply udp0_unbound]. Qed.

Lemma stack7_inv : stack_inv stack7 [].
Proof. split_and!; [done|apply Arp.arp0_rep|apply udp7_ok|apply Tcp.tcp0_inv]. Qed.

Lemma put_empty a b port : a ≡ Udp.put b port (Some []) -> a port = Some [].
Proof.
  intros H. specialize (H port). unfold Udp.put in H. rewrite Z.eqb_refl in H.
  inversion H as [x y Hp Hx Hy|]. by apply Permutation_nil_r in Hp as ->.
Qed.

Lemma udp7_bag : Udp.bags_of (k_udp stack7) 7 = Some [].
Proof. exact (put_empty _ _ _ (proj2 udp7_ok)). Qed.

Definition fields0 : frame_fields :=
  mk_fields (replicate 12 2) (replicate 8 0) [0; 0] [1; 1; 1; 0] 3232235876 [0; 0].

Lemma fields0_ok : fields_ok fields0.
Proof. split_and!; [done..|repeat constructor; by unfold is_byte]. Qed.

Lemma net_input_frame_witness :
  wp (net_input_frame (Some [1; 2; 3]) 3)
    (fun r s' => (exists l', stack_inv s' l') /\ frame_effect (kind_of [1; 2; 3]) [] r stack7 s') stack7.
Proof.
  apply (net_input_frame_spec stack7 [] [1; 2; 3]); [apply stack7_inv|repeat constructor; by unfold is_byte|done].
Defined.

Lemma udp_frame_delivered_witness :
  let f := udp_frame fields0 167772161 53 7 [104; 105] in
  wp (net_input_frame (Some f) (zlen f) ;; on_udp (on_own (Udp.udp_recv 7 true 100 true true)))
    (fun r s' => r = Udp.mk_received 2 [104; 105] (Some 167772161) (Some 53) /\
       Udp.bags_of (k_udp s') ≡ Udp.bags_of (k_udp stack7)) stack7.
Proof.
  apply (udp_frame_delivered stack7 [] fields0 167772161 53 7 [104; 105] 100);
    [apply stack7_inv|done|apply fields0_ok|done|done|done|done|repeat constructor; by unfold is_byte|done|apply udp7_bag].
Defined.

End Ip.
