(* ===== verification/Socket.v ===== *)
(** * Sockets ([kernel/net/socket.c])

    The table of 64 sockets over udp.c and tcp.c. The socket lock is not held
    while the protocols are called. *)

From S2P Require Import Prelude Table Net Arp Udp Tcp Ip.
Import Net.

Module Socket.

Definition SOCK_MAX : Z := 64.
Definition NM_AF_INET : Z := 2.
Definition NM_SOCK_STREAM : Z := 1.
Definition NM_SOCK_DGRAM : Z := 2.

Record nm_sockaddr_in := mk_addr { sin_family : Z; sin_port : Z; sin_addr : Z }.

Record nm_socket_entry := mk_sock {
  used : bool;
  type : Z;
  proto : Z;
  local_port : Z;
  peer_ip : Z;
  peer_port : Z;
  tcp_conn_id : Z;
  listening : bool;
}.

(** The static data of [socket.c], with the state of the network stack. *)
Record sockets := mk_sockets {
  socks : list nm_socket_entry;
  eph_port : Z;
  sock_lock_word : Z;
  net_stack : Ip.stack;
}.

Definition set_socks v s := mk_sockets v (eph_port s) (sock_lock_word s) (net_stack s).
Definition set_eph_port v s := mk_sockets (socks s) v (sock_lock_word s) (net_stack s).
Definition set_sock_lock v s := mk_sockets (socks s) (eph_port s) v (net_stack s).
Definition set_stack v s := mk_sockets (socks s) (eph_port s) (sock_lock_word s) v.

Definition sock_lock : M sockets unit := fun s =>
  if sock_lock_word s =? 0 then Done tt (set_sock_lock 1 s) else Stuck LockHeld.
Definition sock_unlock : M sockets unit := modify (set_sock_lock 0).

Definition on_udp {A} (c : M (Udp.udp * net) A) : M sockets A := lift_to net_stack set_stack (Ip.on_udp c).
Definition on_tcp {A} (c : M (Tcp.tcp * net) A) : M sockets A := lift_to net_stack set_stack (Ip.on_tcp c).

Definition mod_sock (fd : Z) (f : nm_socket_entry -> nm_socket_entry) : M sockets unit := modify_at socks set_socks fd f.

Definition with_port (v : Z) (e : nm_socket_entry) := mk_sock (used e) (type e) (proto e) v (peer_ip e) (peer_port e)
  (tcp_conn_id e) (listening e).
Definition with_conn (v : Z) (e : nm_socket_entry) := mk_sock (used e) (type e) (proto e) (local_port e) (peer_ip e)
  (peer_port e) v (listening e).
Definition with_peer (ip port : Z) (e : nm_socket_entry) := mk_sock (used e) (type e) (proto e) (local_port e) ip port
  (tcp_conn_id e) (listening e).
Definition with_listening (v : bool) (e : nm_socket_entry) := mk_sock (used e) (type e) (proto e) (local_port e)
  (peer_ip e) (peer_port e) (tcp_conn_id e) v.
Definition with_used (v : bool) (e : nm_socket_entry) := mk_sock v (type e) (proto e) (local_port e) (peer_ip e)
  (peer_port e) (tcp_conn_id e) (listening e).

(** The entry of a descriptor, [None] when it is out of range or not in use. *)
Definition get_sock (fd : Z) : M sockets (option nm_socket_entry) :=
  if (fd <? 0) || (SOCK_MAX <=? fd) then mret None else
  e ← rd socks fd;
  mret (if used e then Some e else None).

Definition fresh_sock (ty protocol : Z) : nm_socket_entry := mk_sock true ty protocol 0 0 0 (-1) false.

Definition alloc_socket_unlocked (ty protocol : Z) : M sockets Z :=
  r ← for_each (upto 0 SOCK_MAX) (fun i =>
    e ← rd socks i;
    if negb (used e) then mod_sock i (fun _ => fresh_sock ty protocol) ;; mret (Some i) else mret None);
  mret (default (NM_ERR NM_EFAIL) r).

Definition nm_socket (domain ty protocol : Z) : M sockets Z :=
  if negb (domain =? NM_AF_INET) then mret (NM_ERR NM_EFAIL) else
  if negb (ty =? NM_SOCK_DGRAM) && negb (ty =? NM_SOCK_STREAM) then mret (NM_ERR NM_EFAIL) else
  sock_lock ;;
  fd ← alloc_socket_unlocked ty protocol;
  sock_unlock ;;
  mret fd.

Definition nm_bind (sockfd : Z) (addr : option nm_sockaddr_in) : M sockets Z :=
  sock_lock ;;
  s ← get_sock sockfd;
  match s, addr with
  | Some e, Some a =>
      if negb (sin_family a =? NM_AF_INET) then sock_unlock ;; mret (NM_ERR NM_EFAIL) else
      let old_port := local_port e in
      mod_sock sockfd (with_port (sin_port a)) ;;
      sock_unlock ;;
      if type e =? NM_SOCK_DGRAM then
        r ← on_udp (on_own (Udp.udp_bind (sin_port a)));
        if negb (r =? 0) then
          sock_lock ;;
          s ← get_sock sockfd;
          match s with Some _ => mod_sock sockfd (with_port old_port) | None => mret tt end ;;
          sock_unlock ;;
          mret (NM_ERR NM_EFAIL)
        else mret 0
      else mret 0
  | _, _ => sock_unlock ;; mret (NM_ERR NM_EFAIL)
  end.

Definition nm_listen (sockfd backlog : Z) : M sockets Z :=
  sock_lock ;;
  s ← get_sock sockfd;
  match s with
  | None => sock_unlock ;; mret (NM_ERR NM_EFAIL)
  | Some e =>
      if negb (type e =? NM_SOCK_STREAM) || (local_port e =? 0) then sock_unlock ;; mret (NM_ERR NM_EFAIL) else
      let port := local_port e in
      sock_unlock ;;
      n ← on_tcp (on_own (Tcp.tcp_listen port));
      if n <? 0 then mret (NM_ERR NM_EFAIL) else
      sock_lock ;;
      s ← get_sock sockfd;
      match s with
      | None => sock_unlock ;; on_tcp (on_own (Tcp.tcp_close n)) ;; mret (NM_ERR NM_EFAIL)
      | Some _ => mod_sock sockfd (fun e => with_listening true (with_conn n e)) ;; sock_unlock ;; mret 0
      end
  end.

(** The return value and what is stored through [addr], when it is not null. *)
Definition nm_accept (sockfd : Z) (addr : bool) : M sockets (Z * option nm_sockaddr_in) :=
  sock_lock ;;
  s ← get_sock sockfd;
  match s with
  | None => sock_unlock ;; mret (NM_ERR NM_EFAIL, None)
  | Some e =>
      if negb (listening e) then sock_unlock ;; mret (NM_ERR NM_EFAIL, None) else
      let port := local_port e in
      sock_unlock ;;
      conn ← on_tcp (on_own (Tcp.tcp_accept port));
      if conn <? 0 then mret (NM_ERR NM_EFAIL, None) else
      sock_lock ;;
      child ← alloc_socket_unlocked NM_SOCK_STREAM 0;
      if child <? 0 then
        sock_unlock ;; on_tcp (on_own (Tcp.tcp_close conn)) ;; mret (NM_ERR NM_EFAIL, None)
      else
      mod_sock child (fun e => with_conn conn (with_port port e)) ;;
      sock_unlock ;;
      mret (child, if addr then Some (mk_addr NM_AF_INET port 0) else None)
  end.

(** The port a socket sends from; one without a port gets the next ephemeral one. *)
Definition auto_port (sockfd : Z) (e : nm_socket_entry) : M sockets Z :=
  if local_port e =? 0 then
    port ← gets eph_port;
    modify (set_eph_port (u16 (port + 1))) ;;
    mod_sock sockfd (with_port port) ;;
    mret port
  else mret (local_port e).

Definition nm_connect (sockfd : Z) (addr : option nm_sockaddr_in) : M sockets Z :=
  sock_lock ;;
  s ← get_sock sockfd;
  match s, addr with
  | Some e, Some a =>
      if negb (type e =? NM_SOCK_STREAM) then sock_unlock ;; mret (NM_ERR NM_EFAIL) else
      let local_port_was_auto := local_port e =? 0 in
      port ← auto_port sockfd e;
      sock_unlock ;;
      conn ← on_tcp (Tcp.tcp_connect (sin_addr a) (sin_port a) port);
      if conn <? 0 then
        (if local_port_was_auto then
           sock_lock ;;
           s ← get_sock sockfd;
           match s with
           | Some e => if local_port e =? port then mod_sock sockfd (with_port 0) else mret tt
           | None => mret tt
           end ;;
           sock_unlock
         else mret tt) ;;
        mret (NM_ERR NM_EFAIL)
      else
      sock_lock ;;
      s ← get_sock sockfd;
      match s with
      | None => sock_unlock ;; on_tcp (on_own (Tcp.tcp_close conn)) ;; mret (NM_ERR NM_EFAIL)
      | Some _ =>
          mod_sock sockfd (fun e => with_conn conn (with_peer (sin_addr a) (sin_port a) e)) ;;
          sock_unlock ;;
          mret 0
      end
  | _, _ => sock_unlock ;; mret (NM_ERR NM_EFAIL)
  end.

Definition nm_sendto (sockfd : Z) (buf : option (list Z)) (len : Z) (addr : option nm_sockaddr_in) : M sockets Z :=
  sock_lock ;;
  s ← get_sock sockfd;
  match s, buf with
  | Some e, Some data =>
      if len =? 0 then sock_unlock ;; mret (NM_ERR NM_EFAIL) else
      if type e =? NM_SOCK_DGRAM then
        match addr with
        | None => sock_unlock ;; mret (NM_ERR NM_EFAIL)
        | Some a =>
            src_port ← auto_port sockfd e;
            sock_unlock ;;
            r ← on_udp (on_own (Udp.udp_bind src_port));
            if negb (r =? 0) then mret (NM_ERR NM_EFAIL) else
            on_udp (Udp.udp_sendto src_port (sin_addr a) (sin_port a) (Some data) (u16 len))
        end
      else
      sock_unlock ;;
      if tcp_conn_id e <=? 0 then mret (NM_ERR NM_EFAIL) else
      on_tcp (on_own (Tcp.tcp_send (tcp_conn_id e) (Some data) (u16 len)))
  | _, _ => sock_unlock ;; mret (NM_ERR NM_EFAIL)
  end.

(** The return value, the bytes stored to [buf] and what is stored through
    [addr]; [buf] and [addr]: whether the pointer is not null. *)
Definition nm_recvfrom (sockfd : Z) (buf : bool) (len : Z) (addr : bool) :
    M sockets (Z * list Z * option nm_sockaddr_in) :=
  sock_lock ;;
  s ← get_sock sockfd;
  match s with
  | None => sock_unlock ;; mret (NM_ERR NM_EFAIL, [], None)
  | Some e =>
      if negb buf || (len =? 0) then sock_unlock ;; mret (NM_ERR NM_EFAIL, [], None) else
      if type e =? NM_SOCK_DGRAM then
        sock_unlock ;;
        r ← on_udp (on_own (Udp.udp_recv (local_port e) true (u16 len) true true));
        mret (Udp.r_ret r, Udp.r_bytes r,
              if (0 <=? Udp.r_ret r) && addr
              then Some (mk_addr NM_AF_INET (default 0 (Udp.r_port r)) (default 0 (Udp.r_ip r))) else None)
      else
      sock_unlock ;;
      if tcp_conn_id e <=? 0 then mret (NM_ERR NM_EFAIL, [], None) else
      r ← on_tcp (on_own (Tcp.tcp_recv (tcp_conn_id e) true (u16 len)));
      mret (r.1, r.2, None)
  end.

Definition nm_close_socket (sockfd : Z) : M sockets Z :=
  sock_lock ;;
  s ← get_sock sockfd;
  match s with
  | None => sock_unlock ;; mret (NM_ERR NM_EFAIL)
  | Some e =>
      mod_sock sockfd (with_used false) ;;
      sock_unlock ;;
      (if (type e =? NM_SOCK_DGRAM) && negb (local_port e =? 0)
       then on_udp (on_own (Udp.udp_unbind (local_port e))) ;; mret tt else mret tt) ;;
      (if (type e =? NM_SOCK_STREAM) && (0 <? tcp_conn_id e)
       then on_tcp (on_own (Tcp.tcp_close (tcp_conn_id e))) ;; mret tt else mret tt) ;;
      mret 0
  end.

(** ** Views of the state and its invariant *)

Definition sock_at (s : sockets) (fd : Z) : option nm_socket_entry :=
  e ← arr (socks s) fd; if used e then Some e else None.
Definition tmap (s : sockets) : Tcp.netmap := Tcp.map_of (Ip.k_tcp (net_stack s)).
Definition ubags (s : sockets) : Udp.bags := Udp.bags_of (Ip.k_udp (net_stack s)).

(** The connection that a socket owns. *)
Definition conn_of (e : nm_socket_entry) : option Z :=
  if used e && (0 <? tcp_conn_id e) then Some (tcp_conn_id e) else None.

(** A connection past the handshake. *)
Definition held (m : Tcp.netmap) (k : Z) : Prop :=
  exists x, Tcp.m_conn m k = Some x /\ Tcp.e_state x <> Tcp.TCP_SYN_RECV.

Definition sock_ok (m : Tcp.netmap) (e : nm_socket_entry) : Prop :=
  used e = true ->
  (type e = NM_SOCK_STREAM \/ type e = NM_SOCK_DGRAM) /\ 0 <= local_port e < 65536 /\
  (0 < tcp_conn_id e -> type e = NM_SOCK_STREAM /\ held m (tcp_conn_id e)).

(** Every stream socket with a connection owns one that exists, and no two
    sockets own the same. *)
Record owned (m : Tcp.netmap) (l : list nm_socket_entry) : Prop := mk_owned {
  ow_len : zlen l = SOCK_MAX;
  ow_ok : Forall (sock_ok m) l;
  ow_distinct : Table.distinct conn_of l;
}.

Definition stack_ok (k : Ip.stack) : Prop := (exists l, Ip.stack_inv k l) /\ Tcp.wf (Tcp.map_of (Ip.k_tcp k)).

Record sock_inv (s : sockets) : Prop := mk_sock_inv {
  si_lock : sock_lock_word s = 0;
  si_eph : 0 <= eph_port s < 65536;
  si_stack : stack_ok (net_stack s);
  si_owned : owned (tmap s) (socks s);
}.

(** Only the entry of [fd] is different, and is [o] in [s']. *)
Definition socks_upd (s : sockets) (fd : Z) (o : option nm_socket_entry) (s' : sockets) : Prop :=
  forall x, sock_at s' x = if x =? fd then o else sock_at s x.

Definition same_socks (s s' : sockets) : Prop := forall x, sock_at s' x = sock_at s x.

(** ** Helper lemmas *)

Lemma wp_sock_lock s (Q : unit -> sockets -> Prop) :
  sock_lock_word s = 0 -> Q tt (set_sock_lock 1 s) -> wp sock_lock Q s.
Proof. unfold wp, sock_lock. by intros ->. Qed.

Lemma wp_get_sock fd s (Q : option nm_socket_entry -> sockets -> Prop) :
  zlen (socks s) = SOCK_MAX -> Q (sock_at s fd) s -> wp (get_sock fd) Q s.
Proof.
  intros Hl HQ. unfold get_sock, sock_at in *. destruct ((fd <? 0) || (SOCK_MAX <=? fd)) eqn:E.
  - apply wp_ret. apply orb_true_iff in E. rewrite arr_none in HQ; [done|]. lia.
  - apply orb_false_iff in E as [E1%Z.ltb_ge E2%Z.leb_gt]. destruct (arr_lookup (socks s) fd) as [e He]; [lia|].
    rewrite He in HQ. wp_step. eapply wp_rd; [done|]. by apply wp_ret.
Qed.

Lemma wp_mod_sock fd e f s (Q : unit -> sockets -> Prop) :
  arr (socks s) fd = Some e -> Q tt (set_socks (upd (socks s) fd (f e)) s) -> wp (mod_sock fd f) Q s.
Proof. apply wp_modify_at. Qed.

Lemma sock_at_some s fd e : sock_at s fd = Some e -> arr (socks s) fd = Some e /\ used e = true.
Proof. unfold sock_at. destruct (arr (socks s) fd) as [x|]; [|done]. simpl. destruct (used x) eqn:E; [|done]. by intros [= <-]. Qed.

Lemma sock_at_upd s fd e e' l eph lk k :
  l = upd (socks s) fd e' -> arr (socks s) fd = Some e ->
  socks_upd s fd (if used e' then Some e' else None) (mk_sockets l eph lk k).
Proof.
  intros -> He x. unfold sock_at. simpl. rewrite arr_upd by (by eapply arr_range).
  rewrite (Z.eqb_sym x). by destruct (fd =? x).
Qed.

(** What the sockets own survives when no connection disappears. *)
Lemma owned_mono m m' l : owned m l -> (forall k, held m k -> held m' k) -> owned m' l.
Proof.
  intros [Hl Hok Hd] Hm. constructor; [done| |done]. eapply Forall_impl; [exact Hok|]. intros e He Hu.
  destruct (He Hu) as (? & ? & Hc). split_and!; [done|lia..|]. intros Hpos. destruct (Hc Hpos). auto.
Qed.

Lemma owned_upd m l fd e e' :
  owned m l -> arr l fd = Some e -> sock_ok m e' -> Table.fresh_at conn_of l fd e' -> owned m (upd l fd e').
Proof.
  intros [Hl Hok Hd] He Hn Hf. constructor; [by rewrite zlen_upd|by apply Forall_upd|].
  apply Table.distinct_upd; [by eapply arr_range|done|done].
Qed.

(** A socket that keeps its connection. *)
Lemma owned_keep m l fd e e' :
  owned m l -> arr l fd = Some e -> used e = true -> used e' = used e -> type e' = type e -> tcp_conn_id e' = tcp_conn_id e ->
  0 <= local_port e' < 65536 -> owned m (upd l fd e').
Proof.
  intros Ho He Hu Hu' Ht Hc Hp. eapply owned_upd; [done|done|..].
  - intros _. destruct (Forall_arr _ _ _ _ (ow_ok _ _ Ho) He Hu) as (H1 & _ & H3). rewrite Ht, Hc. split_and!; [done|lia..|done].
  - eapply Table.fresh_same; [apply Ho|done|]. unfold conn_of. by rewrite Hu', Hc.
Qed.

(** A socket that takes over a connection no socket owns. *)
Lemma owned_take m l fd e e' k :
  owned m l -> arr l fd = Some e -> used e' = true -> type e' = NM_SOCK_STREAM -> tcp_conn_id e' = k ->
  0 <= local_port e' < 65536 -> 0 < k -> held m k -> Table.at_key conn_of l k = None -> owned m (upd l fd e').
Proof.
  intros Ho He Hu Ht Hc Hp Hk Hm Hn. eapply owned_upd; [done|done|..].
  - intros _. rewrite Hc. split_and!; [by left|lia..|done].
  - eapply (Table.fresh_new _ _ _ _ k); [|done]. unfold conn_of. rewrite Hu, Hc. by rewrite (proj2 (Z.ltb_lt _ _) Hk).
Qed.

(** A connection that no socket owns may disappear. *)
Lemma owned_drop m m' l k :
  owned m l -> Table.at_key conn_of l k = None ->
  (forall x, x <> k -> held m x -> held m' x) -> owned m' l.
Proof.
  intros [Hl Hok Hd] Hn Hm. constructor; [done| |done]. apply Forall_forall. intros e [i He]%elem_arr Hu.
  destruct (Forall_arr _ _ _ _ Hok He Hu) as (? & ? & Hc). split_and!; [done|lia..|]. intros Hpos. destruct (Hc Hpos). split; [done|].
  apply Hm; [|done]. intros E. apply (proj1 (Table.at_key_none _ _ _) Hn i e He). unfold conn_of.
  rewrite Hu, E. by rewrite (proj2 (Z.ltb_lt 0 k)) by congruence.
Qed.

(** A connection that does not exist or is pending has no owner. *)
Lemma owned_fresh m l k : owned m l -> ~ held m k -> Table.at_key conn_of l k = None.
Proof.
  intros [Hl Hok Hd] Hn. apply Table.at_key_none. intros i e He Hk. unfold conn_of in Hk.
  destruct (used e) eqn:Hu; [|done]. simpl in Hk. destruct (Z.ltb_spec 0 (tcp_conn_id e)); [|done]. simplify_eq.
  destruct (Forall_arr _ _ _ _ Hok He Hu) as (_ & _ & Hc). by destruct (Hc ltac:(done)).
Qed.

Lemma owned_equiv m m' l : m' ≡ m -> owned m l -> owned m' l.
Proof. intros [_ E] Ho. eapply owned_mono; [done|]. intros k (x & Hx & Hs). exists x. by rewrite E. Qed.

(** ** Calls into the protocols *)

Lemma held_lt m k : Tcp.wf m -> held m k -> 0 < k < Tcp.m_next m.
Proof. intros Hw (x & Hx & _). by destruct (Tcp.wf_end _ Hw _ _ Hx). Qed.

Lemma held_equiv m m' k : m' ≡ m -> held m k -> held m' k.
Proof. intros [_ E] (x & Hx & Hs). exists x. by rewrite E. Qed.

Lemma held_ins m n k e c :
  (k = c -> Tcp.e_state e <> Tcp.TCP_SYN_RECV) -> held m k -> held (Tcp.mk_map n (Tcp.ins c (Some e) (Tcp.m_conn m))) k.
Proof.
  intros He (x & Hx & Hs). unfold held, Tcp.ins. simpl. destruct (Z.eqb_spec k c) as [->|]; [|by exists x].
  exists e. split; [done|by apply He].
Qed.

(** Only a close takes a connection away. *)
Lemma held_step m o r m' k :
  Tcp.wf m -> Tcp.map_step m o r m' -> match o with Tcp.OpClose c => k <> c | _ => True end -> held m k -> held m' k.
Proof.
  intros Hw Hs Hne Hk. pose proof (held_lt m k Hw Hk) as Hlt.
  assert (Hf : forall b x, Tcp.fails b x m' -> Tcp.m_conn b = Tcp.m_conn m -> held m' k).
  { intros b x [_ E] Eb. eapply held_equiv; [exact E|]. unfold held. by rewrite Eb. }
  destruct o as [port|ip dp sp|port|c data len|c cap|c]; simpl in Hs.
  - destruct Hs as (ids & _ & Hs). destruct (_ <? _); [destruct Hs as [-> E]|by eapply Hf].
    eapply held_equiv; [exact E|]. apply held_ins; [lia|done].
  - destruct Hs as [[_ Hs]|(_ & ids & _ & Hs)]; [by eapply Hf|]. destruct (_ <? _); [destruct Hs as [-> E]|by eapply Hf].
    eapply held_equiv; [exact E|].
    apply (held_ins (Tcp.mk_map (Tcp.m_next m) _)); [lia|]. apply held_ins; [lia|done].
  - destruct Hs as [[Hs _]|(e & _ & _ & _ & E)]; [by eapply Hf|]. eapply held_equiv; [exact E|]. by apply held_ins.
  - unfold Tcp.sends in Hs. destruct (len =? 0); [by eapply Hf|]. destruct (Tcp.est m c) as [e|]; [|by eapply Hf].
    destruct (Tcp.est m (Tcp.e_peer e)) as [p|] eqn:Ep; [|by eapply Hf]. destruct Hs as [_ E]. eapply held_equiv; [exact E|].
    apply held_ins; [|done]. intros _. apply Tcp.est_some in Ep as [_ Ep]. simpl. by rewrite Ep.
  - unfold Tcp.receives in Hs. destruct (Tcp.est m c) as [e|] eqn:Ee; [|by destruct Hs as [Hs _]; eapply Hf].
    destruct Hs as [_ E]. eapply held_equiv; [exact E|]. apply held_ins; [|done]. intros _.
    apply Tcp.est_some in Ee as [_ Ee]. simpl. by rewrite Ee.
  - unfold Tcp.closes in Hs. destruct (Tcp.m_conn m c); [|by eapply Hf]. destruct Hs as [_ E]. eapply held_equiv; [exact E|].
    destruct Hk as (x & Hx & Hst). exists x. simpl. unfold Tcp.ins. by rewrite (proj2 (Z.eqb_neq _ _) Hne).
Qed.

(** Identifiers are left for two more connections. *)
Definition ids_left (s : sockets) : Prop := Tcp.m_next (tmap s) + 2 <= INT32_MAX.

Section tcp_calls.
Context (s : sockets) (Hi : sock_inv s).
Implicit Types (k : Ip.stack).

(** A call of tcp.c that performs the operation [o] of the map. *)
Definition after_tcp (o : Tcp.tcp_op) (r : Z * list Z) (s' : sockets) : Prop :=
  exists k, s' = set_stack k s /\ stack_ok k /\ Ip.k_udp k = Ip.k_udp (net_stack s) /\
    Tcp.map_step (tmap s) o r (tmap s') /\
    (match o with Tcp.OpClose c => Table.at_key conn_of (socks s) c = None | _ => True end -> sock_inv s').

Lemma wp_tcp_op {A} (c : M (Tcp.tcp * net) A) o (ret : A -> Z * list Z) (Q : A -> sockets -> Prop) :
  Tcp.op_ok o ->
  (forall Q' : A -> Tcp.tcp * net -> Prop,
     (forall a t n, Tcp.tcp_inv t -> net_inv n -> Tcp.map_step (tmap s) o (ret a) (Tcp.map_of t) -> Q' a (t, n)) ->
     wp c Q' (Ip.k_tcp (net_stack s), Ip.k_net (net_stack s))) ->
  (forall a s', after_tcp o (ret a) s' -> Q a s') -> wp (on_tcp c) Q s.
Proof.
  intros Ho Hc HQ. pose proof Hi as [Hl He [[l (Hn & Ha & Hu & Ht)] Hw] Hown]. unfold on_tcp. apply wp_lift.
  unfold Ip.on_tcp. apply wp_lift. apply Hc. intros a t n Ht' Hn' Hs. cbn [fst snd]. apply HQ.
  assert (Hw' : Tcp.wf (Tcp.map_of t)).
  { eapply Tcp.wf_step; [exact Hw| |exact Ho|exact Hs]. simpl. destruct Ht as [[_ _ ? _ _] _]. lia. }
  assert (Hk : stack_ok (Ip.mk_stack n (Ip.k_arp (net_stack s)) (Ip.k_udp (net_stack s)) t)) by (split; [by exists l|done]).
  eexists. split; [done|]. split_and!; [done|done|done|]. intros Hclose. constructor; [done|done|done|].
  destruct o as [| | | | |c0]; try (eapply owned_mono; [exact Hown|]; intros x Hx; exact (held_step (tmap s) _ _ _ x Hw Hs I Hx)).
  eapply owned_drop; [exact Hown|exact (Hclose)|]. intros x Hne Hx. exact (held_step (tmap s) _ _ _ x Hw Hs Hne Hx).
Qed.

Hypothesis Hids : ids_left s.

Lemma tcp_ok_stack : Tcp.tcp_inv (Ip.k_tcp (net_stack s)) /\ net_inv (Ip.k_net (net_stack s)).
Proof. destruct Hi as [_ _ [[l (Hn & _ & _ & Ht)] _] _]. done. Qed.

Lemma wp_s_listen port (Q : Z -> sockets -> Prop) :
  (forall r s', after_tcp (Tcp.OpListen port) (r, []) s' -> Q r s') -> wp (on_tcp (on_own (Tcp.tcp_listen port))) Q s.
Proof.
  destruct tcp_ok_stack. apply (wp_tcp_op _ _ (fun r => (r, []))); [done|]. intros Q' HQ'. apply wp_on_own.
  apply Tcp.wp_tcp_listen; [done|unfold ids_left in Hids; simpl in *; lia|]. intros r t Ht Hs. by apply HQ'.
Qed.

Lemma wp_s_connect ip dp sp (Q : Z -> sockets -> Prop) :
  (forall r s', after_tcp (Tcp.OpConnect ip dp sp) (r, []) s' -> Q r s') -> wp (on_tcp (Tcp.tcp_connect ip dp sp)) Q s.
Proof.
  destruct tcp_ok_stack. apply (wp_tcp_op _ _ (fun r => (r, []))); [done|]. intros Q' HQ'.
  apply Tcp.wp_tcp_connect; [done|done|unfold ids_left in Hids; simpl in *; lia|]. intros r t Ht Hs. apply HQ'; [done| |done].
  unfold Tcp.connected_stats. destruct (r <? 0); [done|by apply net_inv_stats].
Qed.

Lemma wp_s_accept port (Q : Z -> sockets -> Prop) :
  (forall r s', after_tcp (Tcp.OpAccept port) (r, []) s' -> Q r s') -> wp (on_tcp (on_own (Tcp.tcp_accept port))) Q s.
Proof.
  destruct tcp_ok_stack. apply (wp_tcp_op _ _ (fun r => (r, []))); [done|]. intros Q' HQ'. apply wp_on_own.
  apply Tcp.wp_tcp_accept; [done|]. intros r t Ht _ Hs. by apply HQ'.
Qed.

Lemma wp_s_send c data len (Q : Z -> sockets -> Prop) :
  0 <= len <= zlen data ->
  (forall r s', after_tcp (Tcp.OpSend c data len) (r, []) s' -> Q r s') -> wp (on_tcp (on_own (Tcp.tcp_send c (Some data) len))) Q s.
Proof.
  intros Hlen. destruct tcp_ok_stack. apply (wp_tcp_op _ _ (fun r => (r, []))); [done|]. intros Q' HQ'. apply wp_on_own.
  apply Tcp.wp_tcp_send; [done|done|]. intros r t Ht _ Hs. by apply HQ'.
Qed.

Lemma wp_s_recv c cap (Q : Z * list Z -> sockets -> Prop) :
  0 <= cap ->
  (forall r s', after_tcp (Tcp.OpRecv c cap) r s' -> Q r s') -> wp (on_tcp (on_own (Tcp.tcp_recv c true cap))) Q s.
Proof.
  intros Hcap. destruct tcp_ok_stack. apply (wp_tcp_op _ _ (fun r => r)); [done|]. intros Q' HQ'. apply wp_on_own.
  apply Tcp.wp_tcp_recv; [done|done|]. intros r t Ht _ Hs. by apply HQ'.
Qed.

Lemma wp_s_close c (Q : Z -> sockets -> Prop) :
  (forall r s', after_tcp (Tcp.OpClose c) (r, []) s' -> Q r s') -> wp (on_tcp (on_own (Tcp.tcp_close c))) Q s.
Proof.
  destruct tcp_ok_stack. apply (wp_tcp_op _ _ (fun r => (r, []))); [done|]. intros Q' HQ'. apply wp_on_own.
  apply Tcp.wp_tcp_close; [done|]. intros r t Ht _ Hs. by apply HQ'.
Qed.

(** A call of udp.c: only its table and the counters change. *)
Definition after_udp (s' : sockets) : Prop :=
  exists k, s' = set_stack k s /\ stack_ok k /\ Ip.k_tcp k = Ip.k_tcp (net_stack s) /\ sock_inv s'.

Lemma after_udp_intro u n :
  Udp.udp_inv u -> net_inv n ->
  after_udp (set_stack (Ip.mk_stack n (Ip.k_arp (net_stack s)) u (Ip.k_tcp (net_stack s))) s).
Proof.
  intros Hu Hn. pose proof Hi as [Hl He [[l (_ & Ha & _ & Ht)] Hw] Hown].
  assert (Hk : stack_ok (Ip.mk_stack n (Ip.k_arp (net_stack s)) u (Ip.k_tcp (net_stack s)))) by (split; [by exists l|done]).
  eexists. split; [done|]. split_and!; [done|done|]. constructor; done.
Qed.

Lemma udp_ok_stack : Udp.udp_inv (Ip.k_udp (net_stack s)) /\ net_inv (Ip.k_net (net_stack s)).
Proof. destruct Hi as [_ _ [[l (Hn & _ & Hu & _)] _] _]. done. Qed.

Lemma wp_s_bind port (Q : Z -> sockets -> Prop) :
  (forall r s', after_udp s' -> Udp.binds (ubags s) port r (ubags s') -> Q r s') ->
  wp (on_udp (on_own (Udp.udp_bind port))) Q s.
Proof.
  intros HQ. destruct udp_ok_stack. unfold on_udp. apply wp_lift. unfold Ip.on_udp. apply wp_lift, wp_on_own.
  apply Udp.wp_udp_bind; [done|]. intros r u Hu Hb. apply HQ; [by apply after_udp_intro|done].
Qed.

Lemma wp_s_unbind port (Q : Z -> sockets -> Prop) :
  (forall r s', after_udp s' -> Udp.unbinds (ubags s) port r (ubags s') -> Q r s') ->
  wp (on_udp (on_own (Udp.udp_unbind port))) Q s.
Proof.
  intros HQ. destruct udp_ok_stack. unfold on_udp. apply wp_lift. unfold Ip.on_udp. apply wp_lift, wp_on_own.
  apply Udp.wp_udp_unbind; [done|]. intros r u Hu Hb. apply HQ; [by apply after_udp_intro|done].
Qed.

Lemma wp_s_udp_recv port cap (Q : Udp.received -> sockets -> Prop) :
  0 <= cap -> (forall r s', after_udp s' -> Udp.takes (ubags s) port cap r (ubags s') -> Q r s') ->
  wp (on_udp (on_own (Udp.udp_recv port true cap true true))) Q s.
Proof.
  intros Hcap HQ. destruct udp_ok_stack. unfold on_udp. apply wp_lift. unfold Ip.on_udp. apply wp_lift, wp_on_own.
  apply Udp.wp_udp_recv; [done|done|]. intros r u Hu Hb. apply HQ; [by apply after_udp_intro|done].
Qed.

(** A send of no bytes fails. *)
Definition udp_sends (a : Udp.bags) (port : Z) (d : Udp.dgram) (len r : Z) (a' : Udp.bags) : Prop :=
  if len =? 0 then r = NM_ERR NM_EFAIL /\ a' ≡ a else Udp.arrives a port d r a'.

Lemma wp_s_sendto sp ip port data len (Q : Z -> sockets -> Prop) :
  0 <= len <= zlen data ->
  (forall r s', after_udp s' -> udp_sends (ubags s) port (Udp.mk_dgram ip sp (Udp.cut data len)) len r (ubags s') -> Q r s') ->
  wp (on_udp (Udp.udp_sendto sp ip port (Some data) len)) Q s.
Proof.
  intros Hlen HQ. destruct udp_ok_stack as [Hu Hn]. unfold on_udp. apply wp_lift. unfold Ip.on_udp. apply wp_lift.
  unfold udp_sends in HQ. destruct (Z.eqb_spec len 0) as [->|].
  - apply wp_ret. cbn [fst snd]. apply HQ; [by apply after_udp_intro|done].
  - apply Udp.wp_udp_sendto; [done|done|lia|]. intros r u Hu' Ha. apply HQ; [|done]. apply after_udp_intro; [done|].
    unfold Udp.delivered_stats. destruct (r <? 0); by repeat apply net_inv_stats.
Qed.
End tcp_calls.

(** ** Specification of the calls *)

Definition refused (s : sockets) (r : Z) (s' : sockets) : Prop := r = NM_ERR NM_EFAIL /\ s' = s.

Definition free_sock (e : nm_socket_entry) : bool := negb (used e).
Definition lowest_free (s : sockets) : option Z := find_idx free_sock (socks s).

Definition socket_spec (s : sockets) (domain ty protocol r : Z) (s' : sockets) : Prop :=
  if (domain =? NM_AF_INET) && ((ty =? NM_SOCK_DGRAM) || (ty =? NM_SOCK_STREAM)) then
    match lowest_free s with
    | Some fd => r = fd /\ sock_at s fd = None /\ socks_upd s fd (Some (fresh_sock ty protocol)) s' /\
                 net_stack s' = net_stack s
    | None => refused s r s'
    end
  else refused s r s'.

Definition bind_spec (s : sockets) (fd : Z) (addr : option nm_sockaddr_in) (r : Z) (s' : sockets) : Prop :=
  match sock_at s fd, addr with
  | Some e, Some a =>
      if negb (sin_family a =? NM_AF_INET) then refused s r s' else
      if type e =? NM_SOCK_DGRAM then
        exists x, Udp.binds (ubags s) (sin_port a) x (ubags s') /\ tmap s' = tmap s /\
          if x =? 0 then r = 0 /\ socks_upd s fd (Some (with_port (sin_port a) e)) s'
          else r = NM_ERR NM_EFAIL /\ same_socks s s'
      else r = 0 /\ socks_upd s fd (Some (with_port (sin_port a) e)) s' /\ net_stack s' = net_stack s
  | _, _ => refused s r s'
  end.

Definition listen_spec (s : sockets) (fd r : Z) (s' : sockets) : Prop :=
  match sock_at s fd with
  | Some e =>
      if negb (type e =? NM_SOCK_STREAM) || (local_port e =? 0) then refused s r s' else
      exists n, Tcp.listens (tmap s) (local_port e) n (tmap s') /\ ubags s' = ubags s /\
        if n <? 0 then r = NM_ERR NM_EFAIL /\ same_socks s s'
        else r = 0 /\ socks_upd s fd (Some (with_listening true (with_conn n e))) s'
  | None => refused s r s'
  end.

Definition accept_spec (s : sockets) (fd : Z) (r : Z) (s' : sockets) : Prop :=
  match sock_at s fd with
  | Some e =>
      if negb (listening e) then refused s r s' else
      exists conn m, Tcp.accepts (tmap s) (local_port e) conn m /\ ubags s' = ubags s /\
        if conn <? 0 then r = NM_ERR NM_EFAIL /\ same_socks s s' /\ tmap s' = m else
        match lowest_free s with
        | Some child => r = child /\ sock_at s child = None /\ tmap s' = m /\
            socks_upd s child (Some (with_conn conn (with_port (local_port e) (fresh_sock NM_SOCK_STREAM 0)))) s'
        | None => r = NM_ERR NM_EFAIL /\ same_socks s s' /\ exists x, Tcp.closes m conn x (tmap s')
        end
  | None => refused s r s'
  end.

(** The port a socket sends from: its own, or the next ephemeral one. *)
Definition source_port (s : sockets) (e : nm_socket_entry) : Z :=
  if local_port e =? 0 then eph_port s else local_port e.

(** The next ephemeral port once the socket has the port it sends from. *)
Definition port_left (s : sockets) (e : nm_socket_entry) : Z :=
  if local_port e =? 0 then (eph_port s + 1) `mod` 65536 else eph_port s.

Definition connect_spec (s : sockets) (fd : Z) (addr : option nm_sockaddr_in) (r : Z) (s' : sockets) : Prop :=
  match sock_at s fd, addr with
  | Some e, Some a =>
      if negb (type e =? NM_SOCK_STREAM) then refused s r s' else
      exists conn, Tcp.connects (tmap s) (sin_port a) (source_port s e) conn (tmap s') /\ ubags s' = ubags s /\
        if conn <? 0 then r = NM_ERR NM_EFAIL /\ same_socks s s'
        else r = 0 /\ socks_upd s fd (Some (with_conn conn (with_peer (sin_addr a) (sin_port a)
                                              (with_port (source_port s e) e)))) s'
  | _, _ => refused s r s'
  end.

Definition sendto_spec (s : sockets) (fd : Z) (data : list Z) (len : Z) (addr : option nm_sockaddr_in)
    (r : Z) (s' : sockets) : Prop :=
  match sock_at s fd with
  | None => refused s r s'
  | Some e =>
      if len =? 0 then refused s r s' else
      if type e =? NM_SOCK_DGRAM then
        match addr with
        | None => refused s r s'
        | Some a =>
            let src := source_port s e in
            exists x b, Udp.binds (ubags s) src x b /\ tmap s' = tmap s /\ socks_upd s fd (Some (with_port src e)) s' /\
              if x =? 0 then udp_sends b (sin_port a) (Udp.mk_dgram (sin_addr a) src (Udp.cut data (u16 len))) (u16 len) r (ubags s')
              else r = NM_ERR NM_EFAIL /\ ubags s' = b
        end
      else if tcp_conn_id e <=? 0 then refused s r s'
      else Tcp.sends (tmap s) (tcp_conn_id e) data (u16 len) r (tmap s') /\ ubags s' = ubags s /\ same_socks s s'
  end.

Definition recvfrom_spec (s : sockets) (fd len : Z) (r : Z * list Z * option nm_sockaddr_in) (s' : sockets) : Prop :=
  match sock_at s fd with
  | None => r = (NM_ERR NM_EFAIL, [], None) /\ s' = s
  | Some e =>
      if len =? 0 then r = (NM_ERR NM_EFAIL, [], None) /\ s' = s else
      if type e =? NM_SOCK_DGRAM then
        exists x, Udp.takes (ubags s) (local_port e) (u16 len) x (ubags s') /\ tmap s' = tmap s /\ same_socks s s' /\
          r = (Udp.r_ret x, Udp.r_bytes x,
               if 0 <=? Udp.r_ret x then Some (mk_addr NM_AF_INET (default 0 (Udp.r_port x)) (default 0 (Udp.r_ip x))) else None)
      else if tcp_conn_id e <=? 0 then r = (NM_ERR NM_EFAIL, [], None) /\ s' = s
      else Tcp.receives (tmap s) (tcp_conn_id e) (u16 len) r.1 (tmap s') /\ r.2 = None /\ ubags s' = ubags s /\ same_socks s s'
  end.

Definition close_spec (s : sockets) (fd r : Z) (s' : sockets) : Prop :=
  match sock_at s fd with
  | None => refused s r s'
  | Some e => r = 0 /\ socks_upd s fd None s' /\
      (if (type e =? NM_SOCK_DGRAM) && negb (local_port e =? 0)
       then exists x, Udp.unbinds (ubags s) (local_port e) x (ubags s') else ubags s' = ubags s) /\
      (if (type e =? NM_SOCK_STREAM) && (0 <? tcp_conn_id e)
       then exists x, Tcp.closes (tmap s) (tcp_conn_id e) x (tmap s') else tmap s' = tmap s)
  end.

(** The next ephemeral port after a connect and after a send; no other call takes
    one. *)
Definition connect_port (s : sockets) (fd : Z) (addr : option nm_sockaddr_in) : Z :=
  match sock_at s fd, addr with
  | Some e, Some _ => if negb (type e =? NM_SOCK_STREAM) then eph_port s else port_left s e
  | _, _ => eph_port s
  end.

Definition sendto_port (s : sockets) (fd len : Z) (addr : option nm_sockaddr_in) : Z :=
  match sock_at s fd with
  | None => eph_port s
  | Some e =>
      if len =? 0 then eph_port s else
      if type e =? NM_SOCK_DGRAM then match addr with None => eph_port s | Some _ => port_left s e end else eph_port s
  end.

(** ** The calls meet their specifications *)

Definition same_eph (s s' : sockets) : Prop := eph_port s' = eph_port s.

#[local] Instance same_eph_preorder : PreOrder same_eph.
Proof. split; [by intros s|]. unfold same_eph. intros s1 s2 s3. congruence. Qed.

Lemma keeps_mod_sock i f : keeps same_eph (mod_sock i f).
Proof. by apply keeps_modify_at. Qed.

Lemma keeps_sock_lock : keeps same_eph sock_lock.
Proof. intros s a s'. unfold sock_lock. destruct (_ =? 0); [|done]. by intros [= _ <-]. Qed.

(** Only [auto_port] changes the ephemeral port. *)
Ltac keeps_eph :=
  repeat lazymatch goal with
  | |- keeps _ (mbind _ _) => apply keeps_bind; [apply _| |intros ?]
  | |- keeps _ (mret _) => apply keeps_ret; apply _
  | |- keeps _ (gets _) => apply keeps_gets; apply _
  | |- keeps _ (stuck _) => apply keeps_stuck
  | |- keeps _ (rd _ _) => apply keeps_rd; apply _
  | |- keeps _ (modify _) => by apply keeps_modify
  | |- keeps _ (mod_sock _ _) => apply keeps_mod_sock
  | |- keeps _ sock_lock => apply keeps_sock_lock
  | |- keeps _ (lift_to _ _ _) => by apply keeps_lift
  | |- keeps _ (for_each _ _) => apply keeps_for_each; [apply _|intros ?]
  | |- keeps _ (if ?b then _ else _) => destruct b
  | |- keeps _ (match ?x with _ => _ end) => destruct x
  | |- keeps _ (let _ := _ in _) => cbv zeta
  | |- keeps _ _ => progress (unfold sock_unlock, get_sock, on_tcp, on_udp, on_own, alloc_socket_unlocked)
  end.

Lemma relock_same s : sock_lock_word s = 0 -> set_sock_lock 0 (set_sock_lock 1 s) = s.
Proof. destruct s. simpl. by intros ->. Qed.

Lemma relock_socks s l : sock_lock_word s = 0 -> set_sock_lock 0 (set_socks l (set_sock_lock 1 s)) = set_socks l s.
Proof. destruct s. simpl. by intros ->. Qed.

Lemma inv_socks s l : sock_inv s -> owned (tmap s) l -> sock_inv (set_socks l s).
Proof. intros [H1 H2 H3 H4] Ho. by constructor. Qed.

Lemma sock_upd s fd e e' : arr (socks s) fd = Some e -> used e' = true -> socks_upd s fd (Some e') (set_socks (upd (socks s) fd e') s).
Proof. intros He Hu. pose proof (sock_at_upd s fd e e' _ (eph_port s) (sock_lock_word s) (net_stack s) eq_refl He) as H. by rewrite Hu in H. Qed.

(** The lock and the entry, at the start of every call. *)
Lemma wp_enter {A} s fd (k : option nm_socket_entry -> M sockets A) Q :
  sock_inv s -> wp (k (sock_at s fd)) Q (set_sock_lock 1 s) -> wp (sock_lock ;; e ← get_sock fd; k e) Q s.
Proof.
  intros Hi HQ. wp_step. apply wp_sock_lock; [apply Hi|]. wp_step. apply wp_get_sock; [apply Hi|exact HQ].
Qed.

Lemma wp_refuse {A} s (a : A) Q : sock_inv s -> Q a s -> wp (sock_unlock ;; mret a) Q (set_sock_lock 1 s).
Proof. intros Hi HQ. unfold sock_unlock. wp_go. by rewrite relock_same by apply Hi. Qed.

Lemma wp_alloc_socket s ty protocol (Q : Z -> sockets -> Prop) :
  zlen (socks s) = SOCK_MAX ->
  match lowest_free s with
  | Some fd => forall e, arr (socks s) fd = Some e -> used e = false -> 0 <= fd ->
      Q fd (set_socks (upd (socks s) fd (fresh_sock ty protocol)) s)
  | None => Q (NM_ERR NM_EFAIL) s
  end -> wp (alloc_socket_unlocked ty protocol) Q s.
Proof.
  intros Hl HQ. unfold alloc_socket_unlocked, lowest_free in *. wp_step. apply (wp_search free_sock (socks s)); [done| |].
  - intros i e He Hn. unfold free_sock in Hn. erewrite rd_bind by exact He. by rewrite Hn.
  - destruct (find_idx free_sock (socks s)) as [fd|]; [|by apply wp_ret]. intros e He Hf. pose proof (arr_range _ _ _ He).
    wp_step. eapply wp_rd; [done|]. unfold free_sock in Hf. rewrite Hf. wp_step. eapply wp_mod_sock; [done|].
    do 2 wp_step. apply negb_true_iff in Hf. simpl. eapply HQ; [done|done|lia].
Qed.

Lemma fresh_owned m l fd e ty protocol :
  owned m l -> arr l fd = Some e -> ty = NM_SOCK_STREAM \/ ty = NM_SOCK_DGRAM -> owned m (upd l fd (fresh_sock ty protocol)).
Proof.
  intros Ho He Hty. eapply owned_upd; [done|done|..].
  - intros _. simpl. split_and!; [done|lia..|lia].
  - by apply Table.fresh_unused.
Qed.

Lemma wp_nm_socket s domain ty protocol (Q : Z -> sockets -> Prop) :
  sock_inv s -> (forall r s', sock_inv s' -> socket_spec s domain ty protocol r s' -> Q r s') ->
  wp (nm_socket domain ty protocol) Q s.
Proof.
  intros Hi HQ. unfold nm_socket, socket_spec in *. destruct (domain =? NM_AF_INET); simpl in *.
  2: { apply wp_ret. by apply HQ. }
  rewrite <- negb_orb. destruct ((ty =? NM_SOCK_DGRAM) || (ty =? NM_SOCK_STREAM)) eqn:E; simpl; [|apply wp_ret; by apply HQ].
  apply orb_true_iff in E. rewrite !Z.eqb_eq in E.
  wp_step. apply wp_sock_lock; [apply Hi|]. wp_step. apply wp_alloc_socket; [apply Hi|].
  change (lowest_free (set_sock_lock 1 s)) with (lowest_free s). destruct (lowest_free s) as [fd|].
  2: { apply wp_refuse; [done|by apply HQ]. }
  cbn [socks set_sock_lock]. intros e He Hu Hfd. unfold sock_unlock. wp_go. rewrite relock_socks by apply Hi. apply HQ.
  - apply inv_socks; [done|]. eapply fresh_owned; [apply Hi|done|tauto].
  - split_and!; [done| |by apply sock_upd with e|done]. unfold sock_at. rewrite He. simpl. by rewrite Hu.
Qed.

Lemma with_port_id e : with_port (local_port e) e = e.
Proof. by destruct e. Qed.

Lemma after_udp_socks s s' : after_udp s s' -> socks s' = socks s /\ tmap s' = tmap s /\ sock_inv s' /\ eph_port s' = eph_port s.
Proof. intros (k & -> & _ & Ht & Hi). split_and!; [done| |done|done]. unfold tmap. simpl. by rewrite Ht. Qed.

Lemma after_tcp_socks s o r s' : after_tcp s o r s' -> socks s' = socks s /\ ubags s' = ubags s /\ eph_port s' = eph_port s.
Proof. intros (k & -> & _ & Hu & _). split_and!; [done| |done]. unfold ubags. simpl. by rewrite Hu. Qed.

Lemma sock_at_socks s s' fd : socks s' = socks s -> sock_at s' fd = sock_at s fd.
Proof. intros E. unfold sock_at. by rewrite E. Qed.

Lemma used_at s fd e : arr (socks s) fd = Some e -> used e = true -> sock_at s fd = Some e.
Proof. intros He Hu. unfold sock_at. rewrite He. simpl. by rewrite Hu. Qed.

(** The port of a socket in use changes. *)
Lemma inv_with_port s fd e port :
  sock_inv s -> sock_at s fd = Some e -> 0 <= port < 65536 ->
  sock_inv (set_socks (upd (socks s) fd (with_port port e)) s) /\
  socks_upd s fd (Some (with_port port e)) (set_socks (upd (socks s) fd (with_port port e)) s).
Proof.
  intros Hi [He Hu]%sock_at_some Hp. split; [|by apply sock_upd with e].
  apply inv_socks; [done|]. by eapply owned_keep; [apply Hi|..].
Qed.

Lemma wp_nm_bind s fd addr (Q : Z -> sockets -> Prop) :
  sock_inv s -> (forall a, addr = Some a -> 0 <= sin_port a < 65536) ->
  (forall r s', sock_inv s' -> bind_spec s fd addr r s' -> Q r s') -> wp (nm_bind fd addr) Q s.
Proof.
  intros Hi Hport HQ. unfold nm_bind. apply wp_enter; [done|]. unfold bind_spec in HQ.
  destruct (sock_at s fd) as [e|] eqn:Es; [|apply wp_refuse; [done|by apply HQ]].
  destruct addr as [a|]; [|apply wp_refuse; [done|by apply HQ]]. specialize (Hport a eq_refl).
  destruct (negb (sin_family a =? NM_AF_INET)); [apply wp_refuse; [done|by apply HQ]|]. cbv zeta.
  pose proof (sock_at_some _ _ _ Es) as [He Hu]. wp_step. eapply wp_mod_sock; [exact He|]. cbv beta. wp_step. unfold sock_unlock at 1. wp_step.
  rewrite relock_socks by apply Hi. cbn [socks set_sock_lock].
  destruct (inv_with_port s fd e (sin_port a) Hi Es Hport) as [Hi1 Hup]. set (s1 := set_socks _ s) in *.
  destruct (type e =? NM_SOCK_DGRAM); [|apply wp_ret; by apply HQ].
  wp_step. apply wp_s_bind; [done|]. intros x s2 Hs2 Hb. pose proof (after_udp_socks _ _ Hs2) as (Hk & Hm & Hi2 & _).
  destruct (Z.eqb_spec x 0) as [->|Hx]; cbn [negb].
  - apply wp_ret. apply HQ; [done|]. exists 0. split; [done|]. split; [done|]. split; [done|]. intros y. rewrite (sock_at_socks s1 s2 y Hk). apply Hup.
  - apply wp_enter; [done|]. pose proof (arr_range _ _ _ He) as Hr.
    assert (E2 : arr (socks s2) fd = Some (with_port (sin_port a) e)) by (rewrite Hk; by apply arr_upd_eq).
    rewrite (used_at s2 fd _ E2 Hu). wp_step. eapply wp_mod_sock; [exact E2|]. unfold sock_unlock. wp_go.
    rewrite relock_socks by apply Hi2. cbn [socks set_sock_lock]. rewrite Hk. unfold s1 at 1. cbn [socks set_socks]. rewrite upd_upd.
    replace (with_port (local_port e) (with_port (sin_port a) e)) with e by (by destruct e). rewrite (upd_id _ _ _ He). apply HQ.
    + apply inv_socks; [done|]. eapply owned_equiv; [|apply Hi]. by rewrite Hm.
    + exists x. split; [done|]. split; [done|]. rewrite (proj2 (Z.eqb_neq _ _) Hx). done.
Qed.

(** A listen or a connect leaves its socket with a new connection. *)
Lemma inv_with_conn s fd e e' n :
  sock_inv s -> arr (socks s) fd = Some e -> used e' = true -> type e' = NM_SOCK_STREAM -> tcp_conn_id e' = n ->
  0 <= local_port e' < 65536 -> 0 < n -> held (tmap s) n -> Table.at_key conn_of (socks s) n = None ->
  sock_inv (set_socks (upd (socks s) fd e') s).
Proof. intros Hi He Hu Ht Hn Hp Hpos Hh Hfree. apply inv_socks; [done|]. by eapply owned_take; [apply Hi|..]. Qed.

Lemma ids_pos s : sock_inv s -> 0 < Tcp.m_next (tmap s).
Proof. intros [_ _ [[l (_ & _ & _ & [[_ _ ? _ _] _])] _] _]. simpl. lia. Qed.

Lemma listens_held m port n m' : Tcp.wf m -> Tcp.listens m port n m' -> 0 <= n -> held m' n /\ ~ held m n.
Proof.
  intros Hw (ids & _ & Hs) Hn. destruct (_ <? _); [|destruct Hs as [-> _]; unfold NM_ERR, NM_EFAIL in Hn; lia].
  destruct Hs as [-> E]. split.
  - eapply held_equiv; [exact E|]. eexists. simpl. unfold Tcp.ins. rewrite Z.eqb_refl. done.
  - intros Hh%held_lt; [lia|done].
Qed.

Lemma wp_nm_listen s fd backlog (Q : Z -> sockets -> Prop) :
  sock_inv s -> ids_left s ->
  (forall r s', sock_inv s' -> listen_spec s fd r s' -> Q r s') -> wp (nm_listen fd backlog) Q s.
Proof.
  intros Hi Hids HQ. unfold nm_listen. apply wp_enter; [done|]. unfold listen_spec in HQ.
  destruct (sock_at s fd) as [e|] eqn:Es; [|apply wp_refuse; [done|by apply HQ]].
  destruct (negb (type e =? NM_SOCK_STREAM) || (local_port e =? 0)) eqn:Ety; [apply wp_refuse; [done|by apply HQ]|]. cbv zeta.
  apply orb_false_iff in Ety as [Ety%negb_false_iff%Z.eqb_eq _].
  pose proof (sock_at_some _ _ _ Es) as [He Hu]. wp_step. apply wp_modify. rewrite relock_same by apply Hi.
  wp_step. apply wp_s_listen; [done|done|]. intros n s1 Hs1. pose proof (after_tcp_socks _ _ _ _ Hs1) as (Hk & Hb & _).
  destruct Hs1 as (k & E1 & Hst & _ & Hstep & Hinv). specialize (Hinv I). simpl in Hstep.
  destruct (Z.ltb_spec n 0).
  { apply wp_ret. apply HQ; [done|]. exists n. split; [done|]. split; [done|]. rewrite (proj2 (Z.ltb_lt n 0)) by done.
    split; [done|]. intros x. by apply sock_at_socks. }
  apply wp_enter; [done|]. rewrite (sock_at_socks s s1 fd Hk), Es. rewrite <- Hk in He.
  wp_step. eapply wp_mod_sock; [exact He|]. unfold sock_unlock. wp_go. rewrite relock_socks by apply Hinv. cbn [socks set_sock_lock].
  destruct (listens_held (tmap s) (local_port e) n (tmap s1)) as [Hh Hnh]; [apply Hi|done|done|].
  pose proof (held_lt (tmap s1) n ltac:(apply Hinv) Hh) as Hlt. apply HQ.
  - eapply (inv_with_conn _ _ _ _ n); [done|done|done|done|done| |lia|done|].
    + simpl. rewrite Hk in He. by destruct (Forall_arr _ _ _ _ (ow_ok _ _ (si_owned _ Hi)) He Hu) as (_ & ? & _).
    + rewrite Hk. eapply owned_fresh; [apply Hi|done].
  - exists n. split; [done|]. split; [done|]. rewrite (proj2 (Z.ltb_ge n 0)) by done. split; [done|].
    intros x. pose proof (sock_upd s1 fd e (with_listening true (with_conn n e)) He Hu x) as Hx. rewrite Hx.
    by rewrite (sock_at_socks s s1 x Hk).
Qed.

Lemma accepts_held m port n m' : Tcp.wf m -> Tcp.accepts m port n m' -> 0 <= n -> held m' n /\ ~ held m n.
Proof.
  intros Hw [[[-> _] _]|(x & Hx & Hst & _ & E)] Hn; [unfold NM_ERR, NM_EFAIL in Hn; lia|]. split.
  - eapply held_equiv; [exact E|]. eexists. simpl. unfold Tcp.ins. rewrite Z.eqb_refl. split; [done|by simpl].
  - intros (y & Hy & Hs). by simplify_eq.
Qed.

Lemma sock_port s fd e : sock_inv s -> sock_at s fd = Some e -> 0 <= local_port e < 65536.
Proof.
  intros Hi [He Hu]%sock_at_some. by destruct (Forall_arr _ _ _ _ (ow_ok _ _ (si_owned _ Hi)) He Hu) as (_ & ? & _).
Qed.

Lemma wp_nm_accept s fd addr (Q : Z * option nm_sockaddr_in -> sockets -> Prop) :
  sock_inv s -> ids_left s ->
  (forall r s', sock_inv s' -> accept_spec s fd r.1 s' -> Q r s') -> wp (nm_accept fd addr) Q s.
Proof.
  intros Hi Hids HQ. unfold nm_accept. apply wp_enter; [done|]. unfold accept_spec in HQ.
  destruct (sock_at s fd) as [e|] eqn:Es; [|apply wp_refuse; [done|by apply HQ]].
  destruct (negb (listening e)); [apply wp_refuse; [done|by apply HQ]|]. cbv zeta. pose proof (sock_port s fd e Hi Es) as Hport.
  wp_step. apply wp_modify. rewrite relock_same by apply Hi.
  wp_step. apply wp_s_accept; [done|]. intros n s1 Hs1. pose proof (after_tcp_socks _ _ _ _ Hs1) as (Hk & Hb & _).
  destruct Hs1 as (k & E1 & Hst & _ & Hstep & Hinv). specialize (Hinv I). simpl in Hstep.
  destruct (Z.ltb_spec n 0).
  { apply wp_ret. apply HQ; [done|]. exists n, (tmap s1). split; [done|]. split; [done|]. rewrite (proj2 (Z.ltb_lt n 0)) by done.
    split_and!; [done| |done]. intros x. by apply sock_at_socks. }
  destruct (accepts_held (tmap s) (local_port e) n (tmap s1)) as [Hh Hnh]; [apply Hi|done|done|].
  assert (Hfree : Table.at_key conn_of (socks s) n = None) by (eapply owned_fresh; [apply Hi|done]).
  wp_step. apply wp_sock_lock; [apply Hinv|]. wp_step. apply wp_alloc_socket; [apply Hinv|].
  assert (Hlow : lowest_free (set_sock_lock 1 s1) = lowest_free s) by (unfold lowest_free; cbn [socks set_sock_lock]; by rewrite Hk).
  rewrite Hlow. destruct (lowest_free s) as [child|] eqn:Elow.
  - cbn [socks set_sock_lock]. intros e0 He0 Hu0 Hc. destruct (Z.ltb_spec child 0); [lia|].
    pose proof (arr_range _ _ _ He0) as Hr. wp_step. eapply wp_mod_sock; [simpl; by apply arr_upd_eq|].
    unfold sock_unlock. wp_go. cbn [socks set_socks]. rewrite upd_upd.
    change (set_socks ?a (set_socks ?b ?c)) with (set_socks a c). rewrite relock_socks by apply Hinv.
    set (e' := with_conn n (with_port (local_port e) (fresh_sock NM_SOCK_STREAM 0))).
    pose proof (held_lt (tmap s1) n ltac:(apply Hinv) Hh) as Hlt. apply HQ.
    + eapply (inv_with_conn _ _ _ _ n); [done|done|done|done|done|done|lia|done|]. by rewrite Hk.
    + exists n, (tmap s1). split; [done|]. split; [done|]. rewrite (proj2 (Z.ltb_ge n 0)) by done. simpl fst.
      split_and!; [done| |done|].
      * rewrite <- (sock_at_socks s s1 child Hk). unfold sock_at. rewrite He0. simpl. by rewrite Hu0.
      * intros x. rewrite <- (sock_at_socks s s1 x Hk). by apply (sock_upd s1 child e0 e').
  - change (NM_ERR NM_EFAIL <? 0) with true. cbv iota. wp_step. apply wp_modify. rewrite relock_same by apply Hinv.
    wp_step. apply wp_s_close; [done|]. intros x s2 Hs2. pose proof (after_tcp_socks _ _ _ _ Hs2) as (Hk2 & Hb2 & _).
    destruct Hs2 as (k2 & E2 & Hst2 & _ & Hstep2 & Hinv2). apply wp_ret. apply HQ.
    + apply Hinv2. by rewrite Hk.
    + exists n, (tmap s1). split; [done|]. split; [by rewrite Hb2|]. rewrite (proj2 (Z.ltb_ge n 0)) by done.
      split_and!; [done| |by exists x]. intros y. rewrite (sock_at_socks s1 s2 y Hk2). by apply sock_at_socks.
Qed.

Lemma connects_held m dp sp n m' : Tcp.wf m -> Tcp.connects m dp sp n m' -> 0 <= n -> held m' n /\ ~ held m n.
Proof.
  intros Hw [[_ [-> _]]|(_ & ids & _ & Hs)] Hn; [unfold NM_ERR, NM_EFAIL in Hn; lia|].
  destruct (_ <? _); [|destruct Hs as [-> _]; unfold NM_ERR, NM_EFAIL in Hn; lia]. destruct Hs as [-> E]. split.
  - eapply held_equiv; [exact E|]. eexists. simpl. unfold Tcp.ins.
    rewrite (proj2 (Z.eqb_neq _ _)), Z.eqb_refl by lia. split; [done|by simpl].
  - intros Hh%held_lt; [lia|done].
Qed.

Lemma inv_eph s v : sock_inv s -> sock_inv (set_eph_port (u16 v) s).
Proof. intros [H1 H2 H3 H4]. constructor; [done| |done|done]. simpl. apply Z.mod_pos_bound. lia. Qed.

Lemma source_range s fd e : sock_inv s -> sock_at s fd = Some e -> 0 <= source_port s e < 65536.
Proof.
  intros Hi Es. unfold source_port. pose proof (sock_port s fd e Hi Es). pose proof (si_eph s Hi). by destruct (_ =? 0).
Qed.

(** The socket has the port it will send from. *)
Lemma wp_auto_port s fd e (Q : Z -> sockets -> Prop) :
  sock_inv s -> sock_at s fd = Some e ->
  (forall s1, sock_inv s1 -> net_stack s1 = net_stack s -> arr (socks s1) fd = Some (with_port (source_port s e) e) ->
     socks_upd s fd (Some (with_port (source_port s e) e)) s1 -> eph_port s1 = port_left s e ->
     Q (source_port s e) (set_sock_lock 1 s1)) ->
  wp (auto_port fd e) Q (set_sock_lock 1 s).
Proof.
  intros Hi Es HQ. pose proof (source_range s fd e Hi Es) as Hr. unfold auto_port.
  destruct (sock_at_some _ _ _ Es) as [He Hu]. pose proof (arr_range _ _ _ He) as Hr'.
  unfold source_port, port_left in *. destruct (local_port e =? 0) eqn:E0.
  - do 4 wp_step. wp_step. eapply wp_mod_sock; [exact He|]. wp_step. cbn [socks set_eph_port set_sock_lock eph_port].
    set (e1 := with_port (eph_port s) e) in *. set (s1 := set_eph_port (u16 (eph_port s + 1)) s).
    change (set_socks ?l (set_eph_port ?v (set_sock_lock 1 s))) with (set_sock_lock 1 (set_socks l s1)).
    pose proof (inv_eph s (eph_port s + 1) Hi) as Hi1. fold s1 in Hi1.
    destruct (inv_with_port s1 fd e (eph_port s) Hi1 Es Hr) as [Hi2 Hup2]. apply HQ; [done|done|by apply arr_upd_eq|done|done].
  - apply wp_ret. apply HQ; [done|done|by rewrite with_port_id| |done]. rewrite with_port_id. intros x.
    destruct (Z.eqb_spec x fd) as [->|]; [done|done].
Qed.

Lemma wp_nm_connect s fd addr (Q : Z -> sockets -> Prop) :
  sock_inv s -> ids_left s ->
  (forall r s', sock_inv s' -> connect_spec s fd addr r s' -> eph_port s' = connect_port s fd addr -> Q r s') ->
  wp (nm_connect fd addr) Q s.
Proof.
  intros Hi Hids HQ. unfold nm_connect. apply wp_enter; [done|]. unfold connect_spec, connect_port in HQ.
  destruct (sock_at s fd) as [e|] eqn:Es; [|apply wp_refuse; [done|by apply HQ]].
  destruct addr as [a|]; [|apply wp_refuse; [done|by apply HQ]].
  destruct (negb (type e =? NM_SOCK_STREAM)) eqn:Ety; [apply wp_refuse; [done|by apply HQ]|].
  apply negb_false_iff, Z.eqb_eq in Ety. pose proof (source_range s fd e Hi Es) as Hr. destruct (sock_at_some _ _ _ Es) as [He Hu].
  cbv zeta. wp_step. apply wp_auto_port; [done|done|]. intros s1 Hi1 Hn1 He1 Hup1 Hep. set (p := source_port s e) in *.
  apply (wp_keeps same_eph). { keeps_eph. }
  set (Q' := fun r s' => same_eph (set_sock_lock 1 s1) s' -> Q r s').
  assert (HQ' : forall r s', sock_inv s' -> connect_spec s fd (Some a) r s' -> Q' r s').
  { intros r s' Hi' Hs Hse. unfold connect_spec in Hs. rewrite Es, Ety in Hs. apply HQ; [done|exact Hs|]. unfold same_eph in Hse. by rewrite Hse. }
  unfold connect_spec in HQ'. rewrite Es, Ety in HQ'. change (negb (NM_SOCK_STREAM =? NM_SOCK_STREAM)) with false in HQ'. cbv iota in HQ'.
  clearbody Q'. clear HQ Q. rename Q' into Q, HQ' into HQ.
  assert (Ht1 : tmap s1 = tmap s) by (unfold tmap; by rewrite Hn1). assert (Hb1 : ubags s1 = ubags s) by (unfold ubags; by rewrite Hn1).
  wp_step. apply wp_modify. rewrite relock_same by apply Hi1.
  wp_step. apply wp_s_connect; [done|unfold ids_left; by rewrite Ht1|]. intros n s2 Hs2.
  pose proof (after_tcp_socks _ _ _ _ Hs2) as (Hk & Hb & _).
  destruct Hs2 as (k & _ & _ & _ & Hstep & Hi2). specialize (Hi2 I). simpl in Hstep. rewrite Ht1 in Hstep. rewrite Hb1 in Hb.
  assert (He2 : arr (socks s2) fd = Some (with_port p e)) by (by rewrite Hk).
  assert (Hup2 : socks_upd s fd (Some (with_port p e)) s2) by (intros x; rewrite (sock_at_socks s1 s2 x Hk); apply Hup1).
  destruct (Z.ltb_spec n 0).
  - assert (Hfin : forall s3, sock_inv s3 -> socks s3 = socks s2 \/ (local_port e = 0 /\ socks s3 = upd (socks s2) fd e) ->
      net_stack s3 = net_stack s2 -> (local_port e = 0 -> socks s3 = upd (socks s2) fd e) -> Q (NM_ERR NM_EFAIL) s3).
    { intros s3 Hi3 Hor Hn3 H0. apply HQ; [done|]. exists n. unfold tmap, ubags. rewrite Hn3. split; [done|]. split; [done|].
      rewrite (proj2 (Z.ltb_lt n 0)) by done. split; [done|]. intros x. destruct (Z.eqb_spec (local_port e) 0) as [E0|E0].
      - unfold sock_at. rewrite (H0 E0), arr_upd by (by eapply arr_range). destruct (Z.eqb_spec fd x) as [<-|Hne].
        + simpl. rewrite He. simpl. by rewrite Hu.
        + pose proof (Hup2 x) as Hx. by rewrite (proj2 (Z.eqb_neq x fd)) in Hx by done.
      - destruct Hor as [E|[? _]]; [|done]. rewrite (sock_at_socks s2 s3 x E), Hup2. unfold p, source_port.
        rewrite (proj2 (Z.eqb_neq _ _) E0), with_port_id. by destruct (Z.eqb_spec x fd) as [->|]. }
    wp_step. destruct (Z.eqb_spec (local_port e) 0) as [E0|E0].
    + apply wp_enter; [done|]. rewrite (used_at s2 fd _ He2 Hu). simpl local_port. rewrite Z.eqb_refl.
      wp_step. eapply wp_mod_sock; [exact He2|]. unfold sock_unlock. wp_go. rewrite relock_socks by apply Hi2. cbn [socks set_sock_lock].
      replace (with_port 0 (with_port p e)) with e by (destruct e; simpl in *; by rewrite E0).
      apply Hfin; [|by right|done|done]. apply inv_socks; [done|]. eapply owned_keep; [apply Hi2|done|done|done|done|done|].
      simpl. rewrite E0. lia.
    + do 2 wp_step. apply Hfin; [done|by left|done|done].
  - apply wp_enter; [done|]. rewrite (used_at s2 fd _ He2 Hu). wp_step. eapply wp_mod_sock; [exact He2|].
    unfold sock_unlock. wp_go. rewrite relock_socks by apply Hi2. cbn [socks set_sock_lock].
    destruct (connects_held (tmap s) (sin_port a) p n (tmap s2)) as [Hh Hnh]; [apply Hi|done|done|].
    pose proof (held_lt (tmap s2) n ltac:(apply Hi2) Hh) as Hlt. apply HQ.
    + eapply (inv_with_conn _ _ _ _ n); [done|done|done|done|done|done|lia|done|]. rewrite Hk. eapply owned_fresh; [apply Hi1|by rewrite Ht1].
    + exists n. split; [done|]. split; [done|]. rewrite (proj2 (Z.ltb_ge n 0)) by done. split; [done|]. intros x.
      rewrite (sock_upd s2 fd _ (with_conn n (with_peer (sin_addr a) (sin_port a) (with_port p e))) He2 Hu x), Hup2. by destruct (x =? fd).
Qed.

Lemma u16_range v : 0 <= u16 v < 65536.
Proof. apply Z.mod_pos_bound. lia. Qed.

Lemma u16_le v : 0 <= v -> u16 v <= v.
Proof. intros. unfold u16. apply Z.mod_le; lia. Qed.

Lemma wp_nm_sendto s fd data len addr (Q : Z -> sockets -> Prop) :
  sock_inv s -> 0 <= len <= zlen data ->
  (forall r s', sock_inv s' -> sendto_spec s fd data len addr r s' -> eph_port s' = sendto_port s fd len addr -> Q r s') ->
  wp (nm_sendto fd (Some data) len addr) Q s.
Proof.
  intros Hi Hlen HQ. pose proof (u16_range len). pose proof (u16_le len ltac:(lia)).
  unfold nm_sendto. apply wp_enter; [done|]. unfold sendto_spec, sendto_port in HQ.
  destruct (sock_at s fd) as [e|] eqn:Es; [|apply wp_refuse; [done|by apply HQ]].
  destruct (len =? 0); [apply wp_refuse; [done|by apply HQ]|].
  destruct (type e =? NM_SOCK_DGRAM).
  - destruct addr as [a|]; [|apply wp_refuse; [done|by apply HQ]]. cbv zeta in HQ.
    wp_step. apply wp_auto_port; [done|done|]. intros s1 Hi1 Hn1 He1 Hup1 Hep. set (p := source_port s e) in *.
    assert (Ht1 : tmap s1 = tmap s) by (unfold tmap; by rewrite Hn1). assert (Hb1 : ubags s1 = ubags s) by (unfold ubags; by rewrite Hn1).
    wp_step. apply wp_modify. rewrite relock_same by apply Hi1.
    wp_step. apply wp_s_bind; [done|]. intros x s2 Hs2 Hb. pose proof (after_udp_socks _ _ Hs2) as (Hk & Hm & Hi2 & Hep2).
    rewrite Hb1 in Hb. rewrite Ht1 in Hm.
    assert (Hup2 : socks_upd s fd (Some (with_port p e)) s2) by (intros y; rewrite (sock_at_socks s1 s2 y Hk); apply Hup1).
    destruct (Z.eqb_spec x 0) as [->|Hx]; cbn [negb].
    + apply wp_s_sendto; [done|lia|]. intros r s3 Hs3 Hs. pose proof (after_udp_socks _ _ Hs3) as (Hk3 & Hm3 & Hi3 & Hep3).
      apply HQ; [done| |congruence]. exists 0, (ubags s2). split_and!; [done|by rewrite Hm3| |done].
      intros y. rewrite (sock_at_socks s2 s3 y Hk3). apply Hup2.
    + apply wp_ret. apply HQ; [done| |congruence]. exists x, (ubags s2). split_and!; [done|done|done|]. by rewrite (proj2 (Z.eqb_neq _ _) Hx).
  - wp_step. apply wp_modify. rewrite relock_same by apply Hi. destruct (tcp_conn_id e <=? 0); [apply wp_ret; by apply HQ|].
    apply wp_s_send; [done|lia|]. intros r s2 Hs2. pose proof (after_tcp_socks _ _ _ _ Hs2) as (Hk & Hb & Hep).
    destruct Hs2 as (k & _ & _ & _ & Hstep & Hi2). apply HQ; [by apply Hi2| |done]. split; [exact Hstep|]. split; [done|].
    intros x. by apply sock_at_socks.
Qed.

Lemma wp_nm_recvfrom s fd len (Q : Z * list Z * option nm_sockaddr_in -> sockets -> Prop) :
  sock_inv s -> 0 <= len ->
  (forall r s', sock_inv s' -> recvfrom_spec s fd len r s' -> Q r s') -> wp (nm_recvfrom fd true len true) Q s.
Proof.
  intros Hi Hlen HQ. pose proof (u16_range len). unfold nm_recvfrom. apply wp_enter; [done|]. unfold recvfrom_spec in HQ.
  destruct (sock_at s fd) as [e|] eqn:Es; [|apply wp_refuse; [done|by apply HQ]]. simpl negb. simpl orb.
  destruct (len =? 0); [apply wp_refuse; [done|by apply HQ]|].
  destruct (type e =? NM_SOCK_DGRAM); wp_step; apply wp_modify; rewrite relock_same by apply Hi.
  - wp_step. apply wp_s_udp_recv; [done|lia|]. intros x s2 Hs2 Hb. pose proof (after_udp_socks _ _ Hs2) as (Hk & Hm & Hi2 & _).
    wp_step. apply HQ; [done|]. exists x. split_and!; [done|done| |by rewrite andb_true_r]. intros y. by apply sock_at_socks.
  - destruct (tcp_conn_id e <=? 0); [apply wp_ret; by apply HQ|].
    wp_step. apply wp_s_recv; [done|lia|]. intros r s2 Hs2. pose proof (after_tcp_socks _ _ _ _ Hs2) as (Hk & Hb & _).
    destruct Hs2 as (k & _ & _ & _ & Hstep & Hi2). wp_step. apply HQ; [by apply Hi2|]. destruct r as [x b]. split_and!; [done|done|done|].
    intros y. by apply sock_at_socks.
Qed.

(** A socket that is closed owns nothing. *)
Lemma owned_unused m l fd e : owned m l -> arr l fd = Some e -> owned m (upd l fd (with_used false e)).
Proof. intros Ho He. eapply owned_upd; [done|done|by intros ?|by apply Table.fresh_unused]. Qed.

Lemma wp_nm_close_socket s fd (Q : Z -> sockets -> Prop) :
  sock_inv s -> (forall r s', sock_inv s' -> close_spec s fd r s' -> Q r s') -> wp (nm_close_socket fd) Q s.
Proof.
  intros Hi HQ. unfold nm_close_socket. apply wp_enter; [done|]. unfold close_spec in HQ.
  destruct (sock_at s fd) as [e|] eqn:Es; [|apply wp_refuse; [done|by apply HQ]].
  destruct (sock_at_some _ _ _ Es) as [He Hu]. pose proof (arr_range _ _ _ He) as Hr.
  wp_step. eapply wp_mod_sock; [exact He|]. cbv beta. wp_step. apply wp_modify. rewrite relock_socks by apply Hi. cbn [socks set_sock_lock].
  set (s1 := set_socks (upd (socks s) fd (with_used false e)) s).
  assert (Hi1 : sock_inv s1) by (apply inv_socks; [done|]; apply owned_unused; [apply Hi|done]).
  assert (Hup : socks_upd s fd None s1) by exact (sock_at_upd s fd e (with_used false e) _ _ _ _ eq_refl He).
  wp_step. apply (wp_mono _ (fun _ s2 => sock_inv s2 /\ socks s2 = socks s1 /\ tmap s2 = tmap s1 /\
    (if (type e =? NM_SOCK_DGRAM) && negb (local_port e =? 0)
     then exists x, Udp.unbinds (ubags s) (local_port e) x (ubags s2) else ubags s2 = ubags s))).
  { destruct (_ && _); [|by apply wp_ret]. wp_step. apply wp_s_unbind; [done|]. intros x s2 Hs2 Hb. wp_step.
    pose proof (after_udp_socks _ _ Hs2) as (Hk & Hm & Hi2 & _). split_and!; [done|done|done|by exists x]. }
  intros _ s2 (Hi2 & Hk2 & Hm2 & Hb2).
  assert (Hup2 : socks_upd s fd None s2) by (intros x; rewrite (sock_at_socks s1 s2 x Hk2); apply Hup).
  destruct ((type e =? NM_SOCK_STREAM) && (0 <? tcp_conn_id e)) eqn:Ec; wp_step.
  2: { do 2 wp_step. apply HQ; [done|]. split_and!; [done|done|done|done]. }
  wp_step. apply wp_s_close; [done|]. intros x s3 Hs3. pose proof (after_tcp_socks _ _ _ _ Hs3) as (Hk & Hb & _).
  destruct Hs3 as (k & _ & _ & _ & Hstep & Hi3). do 2 wp_step. apply HQ.
  - apply Hi3. rewrite Hk2. unfold s1. simpl. apply andb_true_iff in Ec as [_ Ec].
    assert (Hke : conn_of e = Some (tcp_conn_id e)) by (unfold conn_of; by rewrite Hu, Ec).
    rewrite (Table.at_key_upd conn_of _ fd _ e); [|apply Hi|done|by apply Table.fresh_unused].
    by rewrite Table.has_none, (Table.has_some _ _ _ _ Hke), Z.eqb_refl.
  - split_and!; [done| |by rewrite Hb|].
    + intros y. rewrite (sock_at_socks s2 s3 y Hk). apply Hup2.
    + exists x. unfold Tcp.map_step in Hstep. rewrite Hm2 in Hstep. exact Hstep.
Qed.

(** ** Every sequence of calls *)

Inductive call :=
| CSocket (domain ty protocol : Z)
| CBind (fd : Z) (addr : option nm_sockaddr_in)
| CListen (fd backlog : Z)
| CAccept (fd : Z) (addr : bool)
| CConnect (fd : Z) (addr : option nm_sockaddr_in)
| CSend (fd : Z) (data : list Z) (len : Z) (addr : option nm_sockaddr_in)
| CRecv (fd len : Z)
| CClose (fd : Z).

Definition call_ok (c : call) : Prop :=
  match c with
  | CBind _ addr => forall a, addr = Some a -> 0 <= sin_port a < 65536
  | CSend _ data len _ => 0 <= len <= zlen data
  | CRecv _ len => 0 <= len
  | _ => True
  end.

Definition answer : Type := Z * list Z * option nm_sockaddr_in.

Definition run_call (c : call) : M sockets answer :=
  match c with
  | CSocket d t p => r ← nm_socket d t p; mret (r, [], None)
  | CBind fd a => r ← nm_bind fd a; mret (r, [], None)
  | CListen fd b => r ← nm_listen fd b; mret (r, [], None)
  | CAccept fd a => r ← nm_accept fd a; mret (r.1, [], r.2)
  | CConnect fd a => r ← nm_connect fd a; mret (r, [], None)
  | CSend fd data len a => r ← nm_sendto fd (Some data) len a; mret (r, [], None)
  | CRecv fd len => nm_recvfrom fd true len true
  | CClose fd => r ← nm_close_socket fd; mret (r, [], None)
  end.

Definition call_spec (s : sockets) (c : call) (r : answer) (s' : sockets) : Prop :=
  match c with
  | CSocket d t p => socket_spec s d t p r.1.1 s'
  | CBind fd a => bind_spec s fd a r.1.1 s'
  | CListen fd _ => listen_spec s fd r.1.1 s'
  | CAccept fd _ => accept_spec s fd r.1.1 s'
  | CConnect fd a => connect_spec s fd a r.1.1 s'
  | CSend fd data len a => sendto_spec s fd data len a r.1.1 s'
  | CRecv fd len => recvfrom_spec s fd len r s'
  | CClose fd => close_spec s fd r.1.1 s'
  end.

(** The next ephemeral port after a call. *)
Definition next_port (s : sockets) (c : call) : Z :=
  match c with
  | CConnect fd a => connect_port s fd a
  | CSend fd _ len a => sendto_port s fd len a
  | _ => eph_port s
  end.

Inductive calls_run : sockets -> list call -> list answer -> sockets -> Prop :=
| calls_nil s : calls_run s [] [] s
| calls_cons s c r s' cs rs s'' : call_spec s c r s' -> eph_port s' = next_port s c -> calls_run s' cs rs s'' -> calls_run s (c :: cs) (r :: rs) s''.

Fixpoint run_calls (cs : list call) : M sockets (list answer) :=
  match cs with
  | [] => mret []
  | c :: cs => r ← run_call c; rs ← run_calls cs; mret (r :: rs)
  end.

Lemma wp_run_call s c (Q : answer -> sockets -> Prop) :
  sock_inv s -> ids_left s -> call_ok c ->
  (forall r s', sock_inv s' -> call_spec s c r s' -> eph_port s' = next_port s c -> Q r s') -> wp (run_call c) Q s.
Proof.
  intros Hi Hids Hc HQ. destruct c as [d t p|fd a|fd b|fd a|fd a|fd data len a|fd len|fd]; simpl in Hc, HQ |- *.
  5: { wp_step. apply wp_nm_connect; [done..|]. intros r s' Hi' Hs He. wp_step. by apply HQ. }
  5: { wp_step. apply wp_nm_sendto; [done..|]. intros r s' Hi' Hs He. wp_step. by apply HQ. }
  all: apply (wp_keeps same_eph);
    [unfold nm_socket, nm_bind, nm_listen, nm_accept, nm_recvfrom, nm_close_socket; keeps_eph|].
  - wp_step. apply wp_nm_socket; [done|]. intros r s' Hi' Hs. wp_step. by apply HQ.
  - wp_step. apply wp_nm_bind; [done..|]. intros r s' Hi' Hs. wp_step. by apply HQ.
  - wp_step. apply wp_nm_listen; [done..|]. intros r s' Hi' Hs. wp_step. by apply HQ.
  - wp_step. apply wp_nm_accept; [done..|]. intros r s' Hi' Hs. wp_step. by apply HQ.
  - apply wp_nm_recvfrom; [done..|]. intros r s' Hi' Hs He. by apply HQ.
  - wp_step. apply wp_nm_close_socket; [done|]. intros r s' Hi' Hs. wp_step. by apply HQ.
Qed.

(** A call hands out at most two identifiers. *)
Lemma call_next s c r s' : call_spec s c r s' -> Tcp.m_next (tmap s') <= Tcp.m_next (tmap s) + 2.
Proof.
  intros Hs. assert (Hsame : forall x, refused s x s' -> Tcp.m_next (tmap s') <= Tcp.m_next (tmap s) + 2) by (intros x [_ ->]; lia).
  assert (Hstack : net_stack s' = net_stack s -> Tcp.m_next (tmap s') <= Tcp.m_next (tmap s) + 2) by (intros E; unfold tmap; rewrite E; lia).
  destruct c as [d t p|fd a|fd b|fd a|fd a|fd data len a|fd len|fd]; simpl in Hs.
  - unfold socket_spec in Hs. destruct (_ && _); [|by eapply Hsame]. destruct (lowest_free s); [|by eapply Hsame]. by apply Hstack, Hs.
  - unfold bind_spec in Hs. destruct (sock_at s fd), a; try by eapply Hsame. destruct (negb _); [by eapply Hsame|].
    destruct (_ =? _); [destruct Hs as (x & _ & -> & _); lia|by apply Hstack, Hs].
  - unfold listen_spec in Hs. destruct (sock_at s fd) as [e|]; [|by eapply Hsame]. destruct (_ || _); [by eapply Hsame|].
    destruct Hs as (n & Hs & _). apply (Tcp.step_next _ (Tcp.OpListen _) (n, [])) in Hs. lia.
  - unfold accept_spec in Hs. destruct (sock_at s fd) as [e|]; [|by eapply Hsame]. destruct (negb _); [by eapply Hsame|].
    destruct Hs as (conn & m & Ha & _ & Hs). apply (Tcp.step_next _ (Tcp.OpAccept _) (conn, [])) in Ha.
    destruct (conn <? 0); [destruct Hs as (_ & _ & ->); lia|]. destruct (lowest_free s).
    + destruct Hs as (_ & _ & -> & _). lia.
    + destruct Hs as (_ & _ & x & Hx). unfold Tcp.closes in Hx. destruct (Tcp.m_conn m conn); destruct Hx as [_ [-> _]]; cbn [Tcp.m_next]; lia.
  - unfold connect_spec in Hs. destruct (sock_at s fd) as [e|], a as [a|]; try by eapply Hsame. destruct (negb _); [by eapply Hsame|].
    destruct Hs as (n & Hs & _). apply (Tcp.step_next _ (Tcp.OpConnect 0 _ _) (n, [])) in Hs. lia.
  - unfold sendto_spec in Hs. destruct (sock_at s fd) as [e|]; [|by eapply Hsame]. destruct (len =? 0); [by eapply Hsame|].
    destruct (type e =? _); [destruct a; [|by eapply Hsame]; destruct Hs as (x & b & _ & -> & _); lia|].
    destruct (_ <=? 0); [by eapply Hsame|]. destruct Hs as [Hs _].
    apply (Tcp.step_next _ (Tcp.OpSend _ _ _) (r.1.1, [])) in Hs. lia.
  - unfold recvfrom_spec in Hs. destruct (sock_at s fd) as [e|]; [|destruct Hs as [_ ->]; lia].
    destruct (len =? 0); [destruct Hs as [_ ->]; lia|]. destruct (type e =? _); [destruct Hs as (x & _ & -> & _); lia|].
    destruct (_ <=? 0); [destruct Hs as [_ ->]; lia|]. destruct Hs as [Hs _].
    apply (Tcp.step_next _ (Tcp.OpRecv _ _)) in Hs. lia.
  - unfold close_spec in Hs. destruct (sock_at s fd) as [e|]; [|by eapply Hsame]. destruct Hs as (_ & _ & _ & Hs).
    destruct (_ && _); [|by rewrite Hs; lia]. destruct Hs as [x Hs].
    apply (Tcp.step_next _ (Tcp.OpClose _) (x, [])) in Hs. lia.
Qed.

(** C38: whatever the sequence of socket calls (valid or not), every call returns
    with all locks free and does what its specification says on every branch, and
    the invariant of the socket table is kept: a stream socket with a connection
    owns one that exists and is past its handshake, no two sockets own the same
    connection, ports fit in 16 bits, and the tables of the protocols stay in
    order.  A socket without a port that connects or sends gets the next ephemeral
    port, which moves on by one (and from 65535 to 0) then, also when the call fails,
    and in no other call.  Fewer than [2^31] connection identifiers may be handed out. *)
Theorem socket_calls_spec cs s :
  sock_inv s -> Forall call_ok cs -> Tcp.m_next (tmap s) + 2 * zlen cs <= INT32_MAX ->
  wp (run_calls cs) (fun rs s' => sock_inv s' /\ calls_run s cs rs s') s.
Proof.
  revert s. induction cs as [|c cs IH]; intros s Hi Hc Hmax; cbn [run_calls].
  - apply wp_ret. split; [done|constructor].
  - apply Forall_cons in Hc as [Hc Hcs]. unfold zlen in Hmax. cbn [length] in Hmax. wp_step.
    apply wp_run_call; [done|unfold ids_left; lia|done|]. intros r s' Hi' Hs He. wp_step. pose proof (call_next s c r s' Hs).
    wp_use IH; [done|done|unfold zlen; lia|]. intros rs s2 [Hi2 Hr]. wp_step. split; [done|by econstructor].
Qed.

(** ** From one socket to another *)

Lemma in_use_len m ids ids' : Tcp.in_use m ids -> Tcp.in_use m ids' -> zlen ids = zlen ids'.
Proof.
  intros [Hn H] [Hn' H']. unfold zlen. f_equal. apply Permutation_length, NoDup_Permutation; [done|done|].
  intros x. by rewrite H, H'.
Qed.

Lemma lowest_free_some s x : sock_inv s -> 0 <= x < SOCK_MAX -> sock_at s x = None -> exists c, lowest_free s = Some c.
Proof.
  intros Hi Hx Hn. unfold lowest_free. destruct (find_idx free_sock (socks s)) as [c|] eqn:E; [by exists c|].
  rewrite find_idx_None in E. destruct (arr_lookup (socks s) x) as [e He]; [by rewrite (ow_len _ _ (si_owned _ Hi))|].
  unfold sock_at in Hn. rewrite He in Hn. simpl in Hn. specialize (E e (arr_elem _ _ _ He)). unfold free_sock in E.
  by destruct (used e).
Qed.

(** Room for the two ends of a connection. *)
Definition tcp_room (m : Tcp.netmap) : Prop := exists ids, Tcp.in_use m ids /\ zlen ids + 1 < Tcp.TCP_CONN_MAX.

Definition no_pending (m : Tcp.netmap) (port : Z) : Prop :=
  forall k e, Tcp.m_conn m k = Some e -> ~ (Tcp.e_state e = Tcp.TCP_SYN_RECV /\ Tcp.e_port e = port).

Lemma connects_ok m dp sp n m' :
  Tcp.connects m dp sp n m' -> Tcp.listening m dp -> tcp_room m ->
  n = Tcp.m_next m /\ m' ≡ Tcp.mk_map (n + 2) (Tcp.ins (n + 1) (Some (Tcp.mk_end Tcp.TCP_SYN_RECV dp n []))
    (Tcp.ins n (Some (Tcp.mk_end Tcp.TCP_ESTABLISHED sp (n + 1) [])) (Tcp.m_conn m))).
Proof.
  intros [[Hno _]|(_ & ids & Hin & Hs)] Hl (ids' & Hin' & Hroom); [done|].
  rewrite (in_use_len m ids ids' Hin Hin'), (proj2 (Z.ltb_lt _ _) Hroom) in Hs. done.
Qed.

(** The state of the map after a connect and the accept of its other end. *)
Definition paired (m : Tcp.netmap) (n dp sp : Z) (m' : Tcp.netmap) : Prop :=
  Tcp.m_conn m' n = Some (Tcp.mk_end Tcp.TCP_ESTABLISHED sp (n + 1) []) /\
  Tcp.m_conn m' (n + 1) = Some (Tcp.mk_end Tcp.TCP_ESTABLISHED dp n []).

Lemma accepts_pair m dp sp n m1 c m2 :
  no_pending m dp ->
  m1 ≡ Tcp.mk_map (n + 2) (Tcp.ins (n + 1) (Some (Tcp.mk_end Tcp.TCP_SYN_RECV dp n []))
    (Tcp.ins n (Some (Tcp.mk_end Tcp.TCP_ESTABLISHED sp (n + 1) [])) (Tcp.m_conn m))) ->
  Tcp.accepts m1 dp c m2 -> c = n + 1 /\ paired m n dp sp m2.
Proof.
  intros Hp [_ E] Ha. assert (Hs : Tcp.m_conn m1 (n + 1) = Some (Tcp.mk_end Tcp.TCP_SYN_RECV dp n [])).
  { rewrite E. simpl. unfold Tcp.ins. by rewrite Z.eqb_refl. }
  destruct Ha as [[_ Hno]|(e & He & Hst & Hport & [_ E2])]; [exfalso; by eapply Hno|].
  assert (c = n + 1) as ->.
  { rewrite E in He. simpl in He. unfold Tcp.ins in He. destruct (Z.eqb_spec c (n + 1)); [done|].
    destruct (c =? n); [by simplify_eq|]. exfalso. by eapply (Hp c e). }
  rewrite Hs in He. injection He as <-. split; [done|]. split; rewrite E2; simpl; unfold Tcp.ins.
  - rewrite (proj2 (Z.eqb_neq _ _)) by lia. rewrite E. simpl. unfold Tcp.ins.
    by rewrite (proj2 (Z.eqb_neq _ _)), Z.eqb_refl by lia.
  - by rewrite Z.eqb_refl.
Qed.

Lemma est_at m k e : Tcp.m_conn m k = Some e -> Tcp.e_state e = Tcp.TCP_ESTABLISHED -> Tcp.est m k = Some e.
Proof. intros He Hs. unfold Tcp.est. rewrite He. simpl. by rewrite bool_decide_eq_true_2. Qed.

(** Between paired ends, what one sends the other receives. *)
Lemma paired_deliver m n dp sp m1 data len r m2 cap x m3 :
  paired m n dp sp m1 -> 0 < len <= zlen data -> 0 <= cap ->
  Tcp.sends m1 n data len r m2 -> Tcp.receives m2 (n + 1) cap x m3 ->
  r = Z.min len Tcp.TCP_BUF_MAX /\ x = (Z.min r cap, take (Z.to_nat cap) (take (Z.to_nat r) data)).
Proof.
  intros [H1 H2] Hlen Hcap Hs Hr. unfold Tcp.sends in Hs. rewrite (proj2 (Z.eqb_neq len 0)) in Hs by lia.
  rewrite (est_at _ _ _ H1 eq_refl) in Hs. simpl Tcp.e_peer in Hs. rewrite (est_at _ _ _ H2 eq_refl) in Hs.
  destruct Hs as [-> [_ E]]. set (r := Z.min len Tcp.TCP_BUF_MAX) in *.
  assert (H3 : Tcp.m_conn m2 (n + 1) = Some (Tcp.mk_end Tcp.TCP_ESTABLISHED dp n (take (Z.to_nat r) data))).
  { rewrite E. simpl. unfold Tcp.ins. by rewrite Z.eqb_refl. }
  unfold Tcp.receives in Hr. rewrite (est_at _ _ _ H3 eq_refl) in Hr. destruct Hr as [-> _]. split; [done|]. simpl.
  f_equal. f_equal. unfold zlen in *. rewrite length_take. unfold r, Tcp.TCP_BUF_MAX. lia.
Qed.

Definition exchange (lfd cfd : Z) (a : nm_sockaddr_in) (data : list Z) (len cap : Z) :
    M sockets (Z * Z * Z * answer) :=
  r ← nm_connect cfd (Some a);
  c ← nm_accept lfd true;
  n ← nm_sendto cfd (Some data) len None;
  m ← nm_recvfrom c.1 true cap true;
  mret (r, c.1, n, m).

(** C39: a stream between two sockets: when a stream socket connects to the port of
    a listening socket (with room for the connection and a socket, and no other
    connection pending there), the connect succeeds, the accept answers a new
    socket, and the bytes that the client sends, up to 2048, are what a receive on
    the new socket answers, up to its capacity. *)
Theorem stream_roundtrip s lfd cfd le ce a data len cap free :
  sock_inv s -> Tcp.m_next (tmap s) + 4 <= INT32_MAX ->
  sock_at s lfd = Some le -> listening le = true -> local_port le = sin_port a ->
  sock_at s cfd = Some ce -> type ce = NM_SOCK_STREAM -> lfd <> cfd ->
  Tcp.listening (tmap s) (sin_port a) -> no_pending (tmap s) (sin_port a) -> tcp_room (tmap s) ->
  0 <= free < SOCK_MAX -> sock_at s free = None ->
  0 < len <= zlen data -> len < 65536 -> 0 < cap < 65536 ->
  wp (exchange lfd cfd a data len cap) (fun r s' =>
    let '(ret, child, n, got) := r in
    ret = 0 /\ sock_at s child = None /\ n = Z.min len 2048 /\
    got = (Z.min n cap, take (Z.to_nat cap) (take (Z.to_nat n) data), None) /\ sock_inv s') s.
Proof.
  intros Hi Hids Hl Hlis Hport Hc Hty Hne Hlisten Hpend Hroom Hfree Hnone Hlen Hmax Hcap. unfold exchange.
  wp_step. apply wp_nm_connect; [done|unfold ids_left; lia|]. intros r s1 Hi1 Hs1 _.
  unfold connect_spec in Hs1. rewrite Hc, Hty in Hs1. simpl negb in Hs1. cbv iota in Hs1.
  destruct Hs1 as (n & Hconn & _ & Hs1). apply connects_ok in Hconn as [-> Hm1]; [|done|done].
  set (n := Tcp.m_next (tmap s)) in *. pose proof (ids_pos s Hi) as Hpos. fold n in Hpos.
  rewrite (proj2 (Z.ltb_ge n 0)) in Hs1 by lia. destruct Hs1 as [-> Hup1].
  wp_step. apply wp_nm_accept; [done|destruct Hm1 as [E _]; unfold ids_left; rewrite E; cbn [Tcp.m_next]; lia|].
  intros [rc oa] s2 Hi2 Hs2. simpl fst in *. unfold accept_spec in Hs2.
  rewrite (Hup1 lfd), (proj2 (Z.eqb_neq _ _) Hne), Hl, Hlis in Hs2. simpl negb in Hs2. cbv iota in Hs2.
  destruct Hs2 as (c & m & Hacc & _ & Hs2). rewrite Hport in Hacc.
  destruct (accepts_pair (tmap s) (sin_port a) _ n _ _ _ Hpend Hm1 Hacc) as [-> Hpair].
  rewrite (proj2 (Z.ltb_ge (n + 1) 0)) in Hs2 by lia.
  assert (Hcfree : free <> cfd) by congruence.
  destruct (lowest_free_some s1 free Hi1 Hfree) as [child Elow].
  { by rewrite (Hup1 free), (proj2 (Z.eqb_neq _ _) Hcfree). }
  rewrite Elow in Hs2. destruct Hs2 as (-> & Hchild & Ht2 & Hup2). rewrite (Hup1 child) in Hchild.
  destruct (Z.eqb_spec child cfd) as [|Hcc]; [done|].
  wp_step. apply wp_nm_sendto; [done|lia|]. intros x s3 Hi3 Hs3 _. unfold sendto_spec in Hs3.
  rewrite (Hup2 cfd), (proj2 (Z.eqb_neq cfd child)), (Hup1 cfd), Z.eqb_refl in Hs3 by done.
  simpl type in Hs3. simpl tcp_conn_id in Hs3. rewrite Hty, (proj2 (Z.eqb_neq len 0)), (proj2 (Z.leb_gt n 0)) in Hs3 by lia.
  simpl in Hs3. destruct Hs3 as (Hsend & _ & Hsame3). unfold u16 in Hsend. rewrite Z.mod_small in Hsend by lia.
  wp_step. apply wp_nm_recvfrom; [done|lia|]. intros y s4 Hi4 Hs4. unfold recvfrom_spec in Hs4.
  rewrite (Hsame3 child), (Hup2 child), Z.eqb_refl in Hs4. simpl type in Hs4. simpl tcp_conn_id in Hs4.
  rewrite (proj2 (Z.eqb_neq cap 0)), (proj2 (Z.leb_gt (n + 1) 0)) in Hs4 by lia. simpl in Hs4.
  destruct Hs4 as (Hrecv & Hy & _ & _). unfold u16 in Hrecv. rewrite Z.mod_small in Hrecv by lia.
  rewrite Ht2 in Hsend. assert (Hcap0 : 0 <= cap) by lia. destruct (paired_deliver _ _ _ _ _ _ _ _ _ _ _ _ Hpair Hlen Hcap0 Hsend Hrecv) as [-> Hxy].
  wp_step. split_and!; [done|done|done| |done]. destruct y as [y1 y2]. simpl in *. by rewrite Hxy, Hy.
Qed.

(** Closing a datagram socket unbinds its port for every socket that shares it. *)
Theorem close_unbinds_shared s a b ea eb :
  sock_inv s -> sock_at s a = Some ea -> sock_at s b = Some eb -> a <> b -> type ea = NM_SOCK_DGRAM ->
  local_port ea = local_port eb -> local_port ea <> 0 ->
  wp (nm_close_socket a) (fun _ s' => sock_at s' b = Some eb /\ ubags s' (local_port eb) = None) s.
Proof.
  intros Hi Ha Hb Hne Hty Hp H0. apply wp_nm_close_socket; [done|]. intros r s' _ Hs. unfold close_spec in Hs.
  rewrite Ha, Hty, (proj2 (Z.eqb_neq _ _) H0) in Hs. simpl in Hs. destruct Hs as (_ & Hup & (x & Hu) & _).
  split; [by rewrite Hup, (proj2 (Z.eqb_neq b a)) by done|]. unfold Udp.unbinds in Hu. rewrite <- Hp.
  destruct (ubags s (local_port ea)) eqn:E.
  - destruct Hu as [_ Hu]. specialize (Hu (local_port ea)). unfold Udp.put in Hu. rewrite Z.eqb_refl in Hu. by inversion Hu.
  - destruct Hu as [_ Hu]. specialize (Hu (local_port ea)). rewrite E in Hu. by inversion Hu.
Qed.

(** ** Witnesses: boot, and a machine with a listening socket and a client *)

Definition sock_free : nm_socket_entry := mk_sock false 0 0 0 0 0 0 false.
Definition socks0 : sockets := mk_sockets (replicate 64 sock_free) 40000 0 (Ip.mk_stack Udp.net0 Arp.arp0 Udp.udp0 Tcp.tcp0).

Lemma free_owned m : owned m (replicate 64 sock_free).
Proof.
  constructor; [done|by apply Forall_replicate|].
  intros i j x y k Hx%arr_elem _. apply elem_of_replicate in Hx as [-> _]. done.
Qed.

Lemma socks0_inv : sock_inv socks0.
Proof.
  constructor; [done|done| |apply free_owned]. split; [|apply Tcp.tcp0_inv].
  exists []. split_and!; [done|apply Arp.arp0_rep|apply Udp.udp0_inv|apply Tcp.tcp0_inv].
Qed.

Definition conn0 : Tcp.tcp_conn := Tcp.mk_conn false 0 Tcp.TCP_CLOSED 0 0 0 0 0 0 (replicate 2048 0).
Definition connL : Tcp.tcp_conn := Tcp.mk_conn true 1 Tcp.TCP_LISTEN 0 80 0 0 (-1) 0 (replicate 2048 0).
Definition tcpL : Tcp.tcp := Tcp.mk_tcp (upd (Tcp.conns Tcp.tcp0) 0 connL) 2 0.
Definition mapL : Tcp.netmap :=
  Tcp.mk_map 2 (Tcp.ins 1 (Some (Tcp.mk_end Tcp.TCP_LISTEN 80 (-1) [])) (Tcp.m_conn (Tcp.map_of Tcp.tcp0))).

Lemma tcpL_ok : Tcp.tcp_inv tcpL /\ Tcp.map_of tcpL ≡ mapL.
Proof.
  destruct (Tcp.tcp_add Tcp.tcp0 0 conn0 connL 1 2 0) as (Ht & Hm & _); [apply Tcp.tcp0_inv|done|done|done|by split|done|done|].
  by split; [split|].
Qed.

Lemma conn_boot k : Tcp.m_conn (Tcp.map_of Tcp.tcp0) k = None.
Proof. unfold Tcp.map_of. cbn [Tcp.m_conn]. by rewrite Tcp.tcp0_none. Qed.

Lemma mapL_conn k : Tcp.m_conn mapL k = if k =? 1 then Some (Tcp.mk_end Tcp.TCP_LISTEN 80 (-1) []) else None.
Proof. unfold mapL, Tcp.ins. cbn [Tcp.m_conn]. by rewrite conn_boot. Qed.

Lemma tcpL_conn k : Tcp.m_conn (Tcp.map_of tcpL) k = if k =? 1 then Some (Tcp.mk_end Tcp.TCP_LISTEN 80 (-1) []) else None.
Proof. destruct tcpL_ok as [_ [_ E]]. by rewrite E, mapL_conn. Qed.

Lemma mapL_wf : Tcp.wf (Tcp.map_of tcpL).
Proof.
  constructor.
  - intros k e. rewrite tcpL_conn. destruct (Z.eqb_spec k 1) as [->|]; [|done]. by intros [= <-].
  - intros k e p. rewrite tcpL_conn. destruct (Z.eqb_spec k 1) as [->|]; [|done]. intros [= <-]. by rewrite tcpL_conn.
Qed.

Definition sockL : nm_socket_entry := mk_sock true NM_SOCK_STREAM 0 80 0 0 1 true.
Definition sockC : nm_socket_entry := fresh_sock NM_SOCK_STREAM 0.
Definition socksL : sockets :=
  mk_sockets (upd (upd (replicate 64 sock_free) 0 sockL) 1 sockC) 40000 0 (Ip.mk_stack Udp.net0 Arp.arp0 Udp.udp0 tcpL).

Lemma socksL_inv : sock_inv socksL.
Proof.
  constructor; [done|done| |].
  - split; [|apply mapL_wf]. exists []. split_and!; [done|apply Arp.arp0_rep|apply Udp.udp0_inv|apply tcpL_ok].
  - unfold tmap, socksL. cbn [net_stack Ip.k_tcp socks]. eapply fresh_owned; [|done|by left].
    eapply (owned_take _ _ _ _ _ 1); [apply free_owned|done|done|done|done|done|done| |].
    + eexists. by rewrite tcpL_conn.
    + eapply (owned_fresh (Tcp.map_of Tcp.tcp0)); [apply free_owned|]. intros (x & Hx & _). by rewrite conn_boot in Hx.
Qed.

Definition demo_session : list call :=
  [CSocket 2 2 0; CBind 0 (Some (mk_addr 2 7777 0)); CSend 0 [1; 2] 2 (Some (mk_addr 2 7777 9)); CRecv 0 10; CClose 0].

Lemma socket_calls_witness :
  wp (run_calls demo_session) (fun rs s' => sock_inv s' /\ calls_run socks0 demo_session rs s') socks0.
Proof.
  apply socket_calls_spec; [apply socks0_inv| |done]. unfold demo_session. rewrite !Forall_cons.
  split_and!; try done. by intros a [= <-].
Defined.

Lemma tmapL : tmap socksL = Tcp.map_of tcpL.
Proof. done. Qed.

Lemma stream_roundtrip_witness :
  wp (exchange 0 1 (mk_addr 2 80 1) [10; 20; 30] 3 2) (fun r _ => exists child, r = (0, child, 3, (2, [10; 20], None))) socksL.
Proof.
  eapply wp_mono; [eapply (stream_roundtrip socksL 0 1 sockL sockC (mk_addr 2 80 1) [10; 20; 30] 3 2 2)|].
  1: apply socksL_inv. 1-7: done. 4-8: done.
  - rewrite tmapL. eexists 1, _. by rewrite tcpL_conn.
  - rewrite tmapL. intros k e. rewrite tcpL_conn. destruct (k =? 1); [|done]. intros [= <-] [? _]. done.
  - rewrite tmapL. exists [1]. split; [|done]. split; [apply NoDup_singleton|]. intros k.
    rewrite list_elem_of_singleton, tcpL_conn. destruct (Z.eqb_spec k 1); [by split|]. by split.
  - intros [[[r c] n] m] s' (-> & _ & -> & -> & _). by exists c.
Defined.

End Socket.
