(* ===== verification/Exec.v ===== *)
(** * The registry of programs ([kernel/proc/exec_registry.c])

    Strings are the characters before the terminating NUL; [char_at] reads the
    NUL itself at the end.  [nm_exec_resolve_entry] is shown to be a lookup in the
    table of programs. *)

From Stdlib Require Import String.
From S2P Require Import Prelude.

Module Exec.

Record nm_builtin_prog := mk_prog { path : option (list Z); entry : Z }.

Definition builtin_programs : list nm_builtin_prog :=
  [mk_prog (Some (chars "/init")) 4096; mk_prog (Some (chars "/sh")) 4352;
   mk_prog (Some (chars "/ping")) 4608; mk_prog None 0].

(** [s[i]]: past the last character, only the NUL may be read. *)
Definition char_at (s : list Z) (i : Z) : option Z := if i =? zlen s then Some 0 else arr s i.

Definition char {S} (s : list Z) (i : Z) : M S Z :=
  match char_at s i with Some c => mret c | None => stuck OutOfBounds end.

(** The loop of [str_eq] from [i] on. *)
Fixpoint str_eq_from {S} (fuel : nat) (a b : list Z) (i : Z) : M S bool :=
  match fuel with
  | O => stuck OutOfFuel
  | Datatypes.S fuel =>
      x ← char a i;
      y ← char b i;
      if negb (x =? 0) && negb (y =? 0)
      then if negb (x =? y) then mret false else str_eq_from fuel a b (i + 1)
      else mret (x =? y)
  end.

Definition str_eq {S} (a b : option (list Z)) : M S bool :=
  match a, b with
  | Some a, Some b => str_eq_from (Datatypes.S (length a)) a b 0
  | _, _ => mret false
  end.

(** The loop over the programs from a given one on. *)
Fixpoint find_entry {S} (progs : list nm_builtin_prog) (name : list Z) : M S (Z * option Z) :=
  match progs with
  | [] => stuck OutOfBounds
  | p :: progs =>
      match path p with
      | None => mret (NM_ERR NM_ENOENT, None)
      | Some _ =>
          eq ← str_eq (Some name) (path p);
          if (eq : bool) then mret (0, Some (entry p)) else find_entry progs name
      end
  end.

(** The return value, and what is stored to [*entry_out]. *)
Definition nm_exec_resolve_entry {S} (name : option (list Z)) (entry_out : bool) : M S (Z * option Z) :=
  match name with
  | Some name => if entry_out then find_entry builtin_programs name else mret (NM_ERR NM_EINVAL, None)
  | None => mret (NM_ERR NM_EINVAL, None)
  end.

(** ** Comparing strings *)

Lemma char_end {S} s i (Q : Z -> S -> Prop) st : i = zlen s -> Q 0 st -> wp (char s i) Q st.
Proof. intros -> HQ. unfold char, char_at. rewrite Z.eqb_refl. by apply wp_ret. Qed.

Lemma char_mid {S} s i c (Q : Z -> S -> Prop) st : arr s i = Some c -> Q c st -> wp (char s i) Q st.
Proof.
  intros Hc HQ. pose proof (arr_range _ _ _ Hc). unfold char, char_at.
  destruct (Z.eqb_spec i (zlen s)); [lia|]. rewrite Hc. by apply wp_ret.
Qed.

(** Two strings are compared without reading past their ends. *)
Lemma wp_str_eq_from {S} a b i fuel (Q : bool -> S -> Prop) st :
  Forall (fun c => c <> 0) a -> Forall (fun c => c <> 0) b -> 0 <= i <= zlen a -> i <= zlen b ->
  take (Z.to_nat i) a = take (Z.to_nat i) b -> (Z.to_nat (zlen a - i) < fuel)%nat ->
  Q (bool_decide (a = b)) st -> wp (str_eq_from fuel a b i) Q st.
Proof.
  revert i. induction fuel as [|fuel IH]; intros i Ha Hb Hi Hib Hpre Hf HQ; [lia|]. simpl. wp_step.
  assert (Htake : forall l : list Z, i = zlen l -> take (Z.to_nat i) l = l)
    by (intros l ->; apply firstn_all2; unfold zlen; lia).
  assert (Hne : zlen a <> zlen b -> bool_decide (a = b) = false)
    by (intros Hn; apply bool_decide_eq_false_2; congruence).
  destruct (decide (i = zlen a)) as [Ea|Hna].
  - apply char_end; [done|]. wp_step. destruct (decide (i = zlen b)) as [Eb|Hnb].
    + apply char_end; [done|]. wp_go. rewrite bool_decide_eq_true_2 in HQ; [done|].
      by rewrite <- (Htake a), <- (Htake b).
    + destruct (arr_lookup b i) as [y Hy]; [lia|]. eapply char_mid; [done|]. wp_go. rewrite Hne in HQ by lia.
      destruct (Z.eqb_spec 0 y) as [<-|]; [|done]. by pose proof (Forall_arr _ _ _ _ Hb Hy).
  - destruct (arr_lookup a i) as [x Hx]; [lia|]. pose proof (Forall_arr _ _ _ _ Ha Hx) as Hx0. simpl in Hx0.
    eapply char_mid; [done|]. wp_step. destruct (decide (i = zlen b)) as [Eb|Hnb].
    + apply char_end; [done|]. rewrite andb_false_r. wp_go. rewrite Hne in HQ by lia.
      destruct (Z.eqb_spec x 0); done.
    + destruct (arr_lookup b i) as [y Hy]; [lia|]. pose proof (Forall_arr _ _ _ _ Hb Hy) as Hy0. simpl in Hy0.
      eapply char_mid; [done|]. destruct (Z.eqb_spec x 0), (Z.eqb_spec y 0); try done. cbn [negb andb].
      destruct (Z.eqb_spec x y) as [<-|Hxy]; cbn [negb].
      * apply IH; [done|done|lia|lia| |lia|done]. replace (Z.to_nat (i + 1)) with (Datatypes.S (Z.to_nat i)) by lia.
        unfold arr in Hx, Hy. destruct (Z.leb_spec 0 i); [|lia].
        rewrite (take_S_r _ _ _ Hx), (take_S_r _ _ _ Hy). congruence.
      * wp_step. rewrite bool_decide_eq_false_2 in HQ by congruence. done.
Qed.

Lemma wp_str_eq {S} a b (Q : bool -> S -> Prop) st :
  Forall (fun c => c <> 0) a -> Forall (fun c => c <> 0) b ->
  Q (bool_decide (a = b)) st -> wp (str_eq (Some a) (Some b)) Q st.
Proof.
  intros. unfold str_eq. apply wp_str_eq_from; try done; unfold zlen; lia.
Qed.

(** ** The registry is a lookup *)

Definition program_entry (name : list Z) : option Z :=
  if bool_decide (name = chars "/init") then Some 4096
  else if bool_decide (name = chars "/sh") then Some 4352
  else if bool_decide (name = chars "/ping") then Some 4608 else None.

Lemma wp_resolve_entry {S} name (Q : Z * option Z -> S -> Prop) st :
  Forall (fun c => c <> 0) name ->
  match program_entry name with
  | Some e => Q (0, Some e) st
  | None => Q (NM_ERR NM_ENOENT, None) st
  end -> wp (nm_exec_resolve_entry (Some name) true) Q st.
Proof.
  intros Hn HQ. unfold nm_exec_resolve_entry, program_entry in *. cbn [find_entry builtin_programs path].
  assert (Hp : Forall (fun c => c <> 0) (chars "/init") /\ Forall (fun c => c <> 0) (chars "/sh") /\
               Forall (fun c => c <> 0) (chars "/ping"))
    by (split_and!; apply (bool_decide_unpack _); vm_compute; done).
  destruct Hp as (H1 & H2 & H3).
  wp_step. apply wp_str_eq; [done..|]. case_bool_decide; [by apply wp_ret|].
  wp_step. apply wp_str_eq; [done..|]. case_bool_decide; [by apply wp_ret|].
  wp_step. apply wp_str_eq; [done..|]. case_bool_decide; by apply wp_ret.
Qed.

End Exec.
