(* ===== verification/Shell.v ===== *)
(** * The shell ([userspace/shell.c])

    The commands echo, cat and ls over the virtual file system, a pipe or a
    redirection in a line, and scripts of lines.  A [char *] is the bytes of its
    buffer, [None] when null; a text that is only read is its characters before
    the NUL.  The array [tmp] of a line with a pipe is not initialised: its bytes
    are a parameter. *)

From Stdlib Require Import String.
From S2P Require Import Prelude Interfaces Kheap Fs Split Tmpfs Vfs Exec.

Module Shell.
Import Vfs.

Definition PIPE : Z := 124.
Definition REDIRECT : Z := 62.
Definition NEWLINE : Z := 10.
Definition NM_O_RDONLY : Z := 0.
Definition NM_O_RDWR : Z := 2.

(** [line[i] == ' ' || line[i] == '\t']. *)
Definition blank (c : Z) : bool := (c =? 32) || (c =? 9).

(** The state is the array [tokens]; -1, the answer when there are too many, is
    [NM_ERR NM_EFAIL]. *)
Definition split_tokens (line : list Z) (max_tokens : Z) : M (list (list Z)) Z :=
  Split.split_loop blank (length line) line 0 max_tokens.

Section ops.
Context {F : Type} `{!Vnodes F}.
(** The bytes of an array before anything is stored to it. *)
Context (stack : list Z).
Abbreviation S := (vfs F).

(** [b[i] = c]. *)
Definition put (b : option (list Z)) (i c : Z) : M S (option (list Z)) :=
  match b with
  | None => stuck NullDeref
  | Some l => if (0 <=? i) && (i <? zlen l) then mret (Some (upd l i c)) else stuck OutOfBounds
  end.

(** The string in a buffer. *)
Definition text (b : option (list Z)) : M S (list Z) :=
  match b with None => stuck NullDeref | Some l => rd_str l end.

(** The loop over the array at [s], which ends at its NUL, or when the output is
    full. *)
Fixpoint append_loop (cap : Z) (out : option (list Z)) (used : Z) (s : list Z) : M S (option (list Z) * Z) :=
  match s with
  | [] => stuck OutOfBounds
  | c :: s =>
      if negb (c =? 0) && (u64 (used + 1) <? cap)
      then out ← put out used c; append_loop cap out (u64 (used + 1)) s
      else mret (out, used)
  end.

(** Answers the buffer and [*used]. *)
Definition append_array (out : option (list Z)) (cap used : Z) (s : list Z) : M S (option (list Z) * Z) :=
  if bool_decide (out = None) || (cap =? 0) then mret (out, used) else
  r ← append_loop cap out used s;
  out ← put r.1 r.2 0;
  mret (out, r.2).

(** [s] by its characters. *)
Definition out_append (out : option (list Z)) (cap used : Z) (s : option (list Z)) : M S (option (list Z) * Z) :=
  match s with
  | Some s => append_array out cap used (s ++ [0])
  | None => mret (out, used)
  end.

Definition str_eq (a b : list Z) : M S bool := Exec.str_eq_from (Datatypes.S (length a)) a b 0.

Definition str_len (s : option (list Z)) : M S Z :=
  match s with None => mret 0 | Some _ => t ← text s; mret (zlen t) end.

(** [argv[i]] as a string. *)
Definition arg (argv : list (list Z)) (i : Z) : M S (list Z) := b ← rd (fun _ => argv) i; rd_str b.

(** A command answers its result and its output buffer. *)
Definition cmd_echo (argc : Z) (argv : list (list Z)) (out : option (list Z)) (out_cap : Z) :
    M S (Z * option (list Z)) :=
  r ← for_acc (upto 1 argc) (out, 0) (fun acc i =>
    a ← arg argv i;
    r ← out_append acc.1 out_cap acc.2 (Some a);
    if i + 1 <? argc then out_append r.1 out_cap r.2 (Some (chars " ")) else mret r);
  r ← out_append r.1 out_cap r.2 (Some [NEWLINE]);
  mret (0, r.1).

(** [for (i = 0; i < n && used + 1 < out_cap; i++) out[used++] = buf[i];] *)
Fixpoint copy_out (out_cap : Z) (out : option (list Z)) (used : Z) (buf : list Z) : M S (option (list Z) * Z) :=
  match buf with
  | b :: buf =>
      if u64 (used + 1) <? out_cap then out ← put out used b; copy_out out_cap out (u64 (used + 1)) buf
      else mret (out, used)
  | [] => mret (out, used)
  end.

(** Every read but the last takes bytes of the file, so one more read than its
    size is enough. *)
Definition reads_left (s : S) (fd : Z) : nat :=
  match arr (fd_table s) fd with
  | Some (mk_file _ _ _ (Some n)) =>
      match vnode_at (nodefs s) n with Some v => Datatypes.S (Z.to_nat (size v)) | None => O end
  | _ => O
  end.

Fixpoint cat_loop (fuel : nat) (fd out_cap : Z) (out : option (list Z)) (used : Z) : M S (option (list Z) * Z) :=
  r ← fs_read fd true 128;
  if negb (0 <? r.1) then mret (out, used) else
  match fuel with
  | O => stuck OutOfFuel
  | Datatypes.S fuel => q ← copy_out out_cap out used r.2; cat_loop fuel fd out_cap q.1 q.2
  end.

Definition cmd_cat (argc : Z) (argv : list (list Z)) (out : option (list Z)) (out_cap : Z)
    (inp : option (list Z)) : M S (Z * option (list Z)) :=
  if argc =? 1 then
    r ← append_array out out_cap 0 (default [0] inp);
    mret (0, r.1)
  else
  path ← arg argv 1;
  fd ← fs_open (Some path) NM_O_RDONLY 0;
  if fd <? 0 then mret (-1, out) else
  fuel ← gets (fun s => reads_left s fd);
  r ← cat_loop fuel fd out_cap out 0;
  out ← (if r.2 <? out_cap then put r.1 r.2 0 else mret r.1);
  fs_close fd ;;
  mret (0, out).

Definition candidates : list (list Z) :=
  [chars "/hello.txt"; chars "/motd"; chars "/tmp.log"; chars "/ext2-file"].

Fixpoint ls_loop (names : list (list Z)) (out : option (list Z)) (out_cap used : Z) : M S (option (list Z) * Z) :=
  match names with
  | [] => mret (out, used)
  | p :: names =>
      st ← fs_stat (Some p) true;
      r ← (if st.1 =? 0 then
             r ← out_append out out_cap used (Some p); out_append r.1 out_cap r.2 (Some [NEWLINE])
           else mret (out, used));
      ls_loop names r.1 out_cap r.2
  end.

Definition cmd_ls (out : option (list Z)) (out_cap : Z) : M S (Z * option (list Z)) :=
  r ← ls_loop candidates out out_cap 0; mret (0, r.1).

(** The arrays [argv] and [toks], filled by [split_tokens] before they are read. *)
Definition argv0 (n : nat) : list (list Z) := replicate n (replicate 64 0).

Definition run_simple (line : list Z) (out : option (list Z)) (out_cap : Z) (inp : option (list Z)) :
    M S (Z * option (list Z)) :=
  match split_tokens line 16 (argv0 16) with
  | Stuck f => stuck f
  | Done argc argv =>
      if argc <=? 0 then
        out ← (if bool_decide (is_Some out) && negb (out_cap =? 0) then put out 0 0 else mret out);
        mret (0, out)
      else
      name ← arg argv 0;
      echo ← str_eq name (chars "echo");
      if (echo : bool) then cmd_echo argc argv out out_cap else
      cat ← str_eq name (chars "cat");
      if (cat : bool) then cmd_cat argc argv out out_cap inp else
      ls ← str_eq name (chars "ls");
      if (ls : bool) then cmd_ls out out_cap else mret (-1, out)
  end.

(** The locals of [shell_execute_line] while it cuts the line. *)
Record halves := mk_halves { left : list Z; li : Z; right : list Z; ri : Z; mode : Z }.

Definition set_at (l : list Z) (i c : Z) : M S (list Z) :=
  if (0 <=? i) && (i <? zlen l) then mret (upd l i c) else stuck OutOfBounds.

Fixpoint cut_line (line : list Z) (h : halves) : M S halves :=
  match line with
  | [] => mret h
  | c :: line =>
      if (c =? PIPE) && (mode h =? 0) then cut_line line (mk_halves (left h) (li h) (right h) (ri h) 1) else
      if (c =? REDIRECT) && (mode h =? 0) then cut_line line (mk_halves (left h) (li h) (right h) (ri h) 2) else
      if (mode h =? 0) && (li h + 1 <? 128) then
        l ← set_at (left h) (li h) c; cut_line line (mk_halves l (li h + 1) (right h) (ri h) (mode h))
      else if negb (mode h =? 0) && (ri h + 1 <? 128) then
        r ← set_at (right h) (ri h) c; cut_line line (mk_halves (left h) (li h) r (ri h + 1) (mode h))
      else cut_line line h
  end.

Definition halves0 : halves := mk_halves (replicate 128 0) 0 (replicate 128 0) 0 0.

(** The redirection of what is in [tmp] to the file that [right] names. *)
Definition redirect (tmp : option (list Z)) (right : list Z) (out : option (list Z)) : M S (Z * option (list Z)) :=
  match split_tokens right 8 (argv0 8) with
  | Stuck f => stuck f
  | Done c toks =>
      if negb (c =? 1) then mret (-1, out) else
      path ← arg toks 0;
      fd ← fs_open (Some path) (Z.lor NM_O_CREAT NM_O_RDWR) 420;
      if fd <? 0 then mret (-1, out) else
      len ← str_len tmp;
      fs_write fd tmp len ;;
      fs_close fd ;;
      mret (0, out)
  end.

Definition shell_execute_line (line out : option (list Z)) (out_cap : Z) : M S (Z * option (list Z)) :=
  match line with
  | None => mret (-1, out)
  | Some line =>
      if bool_decide (out = None) || (out_cap =? 0) then mret (-1, out) else
      out ← put out 0 0;
      h ← cut_line line halves0;
      l ← set_at (left h) (li h) 0;
      r ← set_at (right h) (ri h) 0;
      left ← rd_str l;
      right ← rd_str r;
      if mode h =? 0 then run_simple left out out_cap None else
      let tmp := Some stack in
      q ← run_simple left tmp 512 None;
      if negb (q.1 =? 0) then mret (-1, out) else
      if mode h =? 1 then run_simple right out out_cap q.2 else redirect q.2 right out
  end.

(** The end of a line of a script: it runs unless it is empty. *)
Definition run_line (line : list Z) (li : Z) (out : option (list Z)) (out_cap used : Z) : M S (option (list Z) * Z) :=
  if 0 <? li then
    l ← rd_str line;
    q ← shell_execute_line (Some l) (Some stack) 512;
    if negb (q.1 =? 0) then mret (out, used) else
    first ← rd (fun _ => default [] q.2) 0;
    if first =? 0 then mret (out, used) else
    t ← text q.2; out_append out out_cap used (Some t)
  else mret (out, used).

(** The loop of [shell_run_script]; [script] ends with its NUL. *)
Fixpoint script_loop (script line : list Z) (li : Z) (out : option (list Z)) (out_cap used : Z) :
    M S (option (list Z)) :=
  match script with
  | [] => stuck OutOfBounds
  | ch :: script =>
      if negb (ch =? NEWLINE) && negb (ch =? 0) && (li + 1 <? 256) then
        line ← set_at line li ch; script_loop script line (li + 1) out out_cap used
      else
        line ← set_at line li 0;
        r ← run_line line li out out_cap used;
        if ch =? 0 then mret r.1 else script_loop script line 0 r.1 out_cap r.2
  end.

Definition shell_run_script (script out : option (list Z)) (out_cap : Z) : M S (Z * option (list Z)) :=
  match script with
  | None => mret (-1, out)
  | Some script =>
      if bool_decide (out = None) || (out_cap =? 0) then mret (-1, out) else
      out ← put out 0 0;
      out ← script_loop (script ++ [0]) (replicate 256 0) 0 out out_cap 0;
      mret (0, out)
  end.

End ops.

(** ** Buffers that hold a text *)

(** The first [zlen t] bytes of a buffer of [cap] bytes are [t], with room for a
    NUL after them; [filled]: the NUL is there. *)
Definition begun (l : list Z) (cap : Z) (t : list Z) : Prop :=
  zlen l = cap /\ zlen t < cap /\ take (length t) l = t.
Definition filled (l : list Z) (cap : Z) (t : list Z) : Prop := zlen l = cap /\ exists rest, l = t ++ 0 :: rest.

Lemma filled_begun l cap t : filled l cap t -> begun l cap t.
Proof.
  intros (Hl & rest & ->). split_and!; [done| |apply take_app_length].
  unfold zlen in *. rewrite length_app in Hl. simpl in Hl. lia.
Qed.

Lemma begun_nil l cap : zlen l = cap -> 0 < cap -> begun l cap [].
Proof. done. Qed.

Lemma begun_snoc l cap t c : begun l cap t -> zlen t + 1 < cap -> begun (upd l (zlen t) c) cap (t ++ [c]).
Proof.
  intros (Hl & Ht & E) Hr. split_and!; [by rewrite zlen_upd|unfold zlen in *; rewrite length_app; simpl; lia|].
  rewrite length_app. simpl. replace (length t + 1)%nat with (S (length t)) by lia.
  rewrite (take_S_r _ _ c).
  - f_equal. rewrite <- E at 3. unfold upd, zlen. destruct (Z.leb_spec 0 (Z.of_nat (length t))); [|lia].
    rewrite Nat2Z.id. by apply take_insert_ge.
  - rewrite <- arr_nat. apply arr_upd_eq. unfold zlen in *. lia.
Qed.

Lemma begun_filled l cap t : begun l cap t -> filled (upd l (zlen t) 0) cap t.
Proof.
  intros (Hl & Ht & E). split; [by rewrite zlen_upd|]. exists (drop (S (length t)) l).
  unfold upd, zlen in *. destruct (Z.leb_spec 0 (Z.of_nat (length t))); [|lia]. rewrite Nat2Z.id.
  rewrite insert_take_drop by lia. by rewrite E.
Qed.

Lemma filled_cstr l cap t : filled l cap t -> Forall (fun c => c <> 0) t -> cstr_of l = Some t.
Proof. intros (_ & rest & ->) Ht. by apply cstr_of_app. Qed.

Lemma cstr_of_some l : 0 ∈ l -> exists t, cstr_of l = Some t.
Proof.
  induction l as [|c l IH]; [by intros ?%elem_of_nil|]. simpl. destruct (Z.eqb_spec c 0); [by eexists|].
  intros [|Hin]%elem_of_cons; [congruence|]. destruct (IH Hin) as [t ->]. by eexists.
Qed.

Lemma cstr_len l t : cstr_of l = Some t -> zlen t < zlen l.
Proof.
  revert t. induction l as [|c l IH]; intros t; [done|]. simpl. destruct (c =? 0); [intros [= <-]; unfold zlen; simpl; lia|].
  destruct (cstr_of l) as [u|]; [|done]. simpl. intros [= <-]. specialize (IH u eq_refl). unfold zlen in *. simpl. lia.
Qed.

Lemma cstr_split l t : cstr_of l = Some t -> exists rest, l = t ++ 0 :: rest.
Proof.
  revert t. induction l as [|c l IH]; intros t; [done|]. simpl. destruct (Z.eqb_spec c 0) as [->|]; [intros [= <-]; by exists l|].
  destruct (cstr_of l) as [u|]; [|done]. simpl. intros [= <-]. destruct (IH u eq_refl) as [rest ->]. by exists rest.
Qed.

Lemma cstr_nonzero l t : cstr_of l = Some t -> Forall (fun c => c <> 0) t.
Proof.
  revert t. induction l as [|c l IH]; intros t; [done|]. simpl. destruct (Z.eqb_spec c 0); [by intros [= <-]|].
  destruct (cstr_of l) as [u|]; [|done]. simpl. intros [= <-]. constructor; [done|by apply IH].
Qed.

Lemma filled_zero l cap t : filled l cap t -> 0 ∈ l.
Proof. intros (_ & rest & ->). apply elem_of_app. right. by left. Qed.

Lemma take_take_app {A} n (t s : list A) : take n (take n t ++ s) = take n (t ++ s).
Proof.
  destruct (decide (length t <= n)%nat).
  - by rewrite (take_ge t n).
  - rewrite !take_app, length_take. replace (n - min n (length t))%nat with O by lia.
    replace (n - length t)%nat with O by lia. rewrite !take_0, !app_nil_r, take_take. f_equal. lia.
Qed.

(** What of a text a buffer of [cap] bytes shows. *)
Definition fit (cap : Z) (t : list Z) : list Z := take (Z.to_nat (cap - 1)) t.

Lemma zlen_fit cap t : 0 < cap -> zlen (fit cap t) < cap.
Proof. intros. unfold fit, zlen. rewrite length_take. lia. Qed.

Lemma fit_small cap t : zlen t < cap -> fit cap t = t.
Proof. intros. unfold fit, zlen in *. apply take_ge. lia. Qed.

Lemma fit_app cap t s : fit cap (fit cap t ++ s) = fit cap (t ++ s).
Proof. apply take_take_app. Qed.

Lemma fit_full cap t s : zlen t = cap - 1 -> fit cap (t ++ s) = t.
Proof. intros Ht. unfold fit. rewrite <- Ht. unfold zlen. rewrite Nat2Z.id. apply take_app_length. Qed.

Lemma fit_nonzero cap t : Forall (fun c => c <> 0) t -> Forall (fun c => c <> 0) (fit cap t).
Proof. apply Forall_take. Qed.

Section spec.
Context {F : Type} `{!Vnodes F, !MountedFs F}.
Implicit Types (s : vfs F).

Lemma wp_put s l i c (Q : option (list Z) -> vfs F -> Prop) :
  0 <= i < zlen l -> Q (Some (upd l i c)) s -> wp (put (Some l) i c) Q s.
Proof.
  intros Hi HQ. unfold put. rewrite (proj2 (Z.leb_le 0 i)), (proj2 (Z.ltb_lt i (zlen l))) by lia. by apply wp_ret.
Qed.

(** The loops of [cmd_cat] and of [out_append] append what fits. *)
Lemma wp_copy_out cap x l t s (Q : option (list Z) * Z -> vfs F -> Prop) :
  begun l cap t -> cap < 2 ^ 63 ->
  (forall l', begun l' cap (fit cap (t ++ x)) -> Q (Some l', zlen (fit cap (t ++ x))) s) ->
  wp (copy_out cap (Some l) (zlen t) x) Q s.
Proof.
  intros Hb Hcap. revert l t Hb. induction x as [|c x IH]; intros l t Hb HQ; cbn [copy_out].
  - rewrite app_nil_r, fit_small in HQ by apply Hb. by apply wp_ret, HQ.
  - pose proof (Zle_0_nat (length t)) as H0. fold (zlen t) in H0. pose proof Hb as (Hl & Ht & _).
    rewrite u64_small by lia. destruct (Z.ltb_spec (zlen t + 1) cap).
    + wp_step. apply wp_put; [lia|]. replace (zlen t + 1) with (zlen (t ++ [c])) by (unfold zlen; rewrite length_app; simpl; lia).
      apply IH; [by apply begun_snoc|]. rewrite <- app_assoc. exact HQ.
    + rewrite fit_full in HQ by lia. by apply wp_ret, HQ.
Qed.

Lemma append_loop_string cap a t s : cstr_of a = Some t -> forall out used,
  append_loop (F := F) cap out used a s = copy_out cap out used t s.
Proof.
  revert t s. induction a as [|c a IH]; intros t s; simpl; [done|]. destruct (Z.eqb_spec c 0); [by intros [= <-]|].
  destruct (cstr_of a) as [u|]; [|done]. intros [= <-] out used. simpl. destruct (u64 (used + 1) <? cap); [|done].
  unfold mbind, M_bind. destruct (put out used c s); [by apply IH|done].
Qed.

Lemma wp_append_array cap a x l t s (Q : option (list Z) * Z -> vfs F -> Prop) :
  begun l cap t -> cap < 2 ^ 63 -> cstr_of a = Some x ->
  (forall l', filled l' cap (fit cap (t ++ x)) -> Q (Some l', zlen (fit cap (t ++ x))) s) ->
  wp (append_array (Some l) cap (zlen t) a) Q s.
Proof.
  intros Hb Hcap Ha HQ. pose proof Hb as (Hl & Ht & _). pose proof (Zle_0_nat (length t)) as H0. fold (zlen t) in H0.
  unfold append_array. destruct (Z.eqb_spec cap 0); [lia|]. rewrite bool_decide_false by done. cbn [orb].
  wp_step. unfold wp. rewrite (append_loop_string _ _ _ _ Ha). change (wp (copy_out cap (Some l) (zlen t) x)
    (fun a0 s' => wp (out ← put a0.1 a0.2 0; mret (out, a0.2)) Q s') s).
  eapply wp_copy_out; [done|done|]. intros l' Hb'. wp_step. cbn [fst snd].
  apply wp_put; [destruct Hb' as (-> & ? & _); unfold zlen in *; lia|]. wp_step. apply HQ. by apply begun_filled.
Qed.

Lemma wp_out_append cap x l t s (Q : option (list Z) * Z -> vfs F -> Prop) :
  begun l cap t -> cap < 2 ^ 63 -> Forall (fun c => c <> 0) x ->
  (forall l', filled l' cap (fit cap (t ++ x)) -> Q (Some l', zlen (fit cap (t ++ x))) s) ->
  wp (out_append (Some l) cap (zlen t) (Some x)) Q s.
Proof. intros Hb Hcap Hx. apply wp_append_array; [done|done|]. by apply cstr_of_app. Qed.

(** *** Tokens *)

Abbreviation words := (Split.components blank).

Lemma argv0_ok n : Split.parts_ok (argv0 n).
Proof. intros i b [-> _]%arr_elem%elem_of_replicate. done. Qed.

Lemma split_tokens_run line n : Forall (fun c => c <> 0) line -> exists r argv,
  split_tokens line (Z.of_nat n) (argv0 n) = Done r argv /\
  if zlen (words line) <=? Z.of_nat n then r = zlen (words line) /\ Split.holds argv 0 (words line) else r = -1.
Proof.
  intros Hl. assert (Hw : wp (split_tokens line (Z.of_nat n)) (fun r argv =>
    if zlen (words line) <=? Z.of_nat n then r = zlen (words line) /\ Split.holds argv 0 (words line) else r = -1) (argv0 n)).
  { apply Split.wp_split_loop; [done|done|lia|unfold zlen, argv0; rewrite length_replicate; lia|apply argv0_ok|..];
      rewrite Z.add_0_l; intros parts' _ Hle; destruct (Z.leb_spec (zlen (words line)) (Z.of_nat n)); done || lia. }
  apply wp_done in Hw as (r & argv & E & H). eauto.
Qed.

Lemma wp_arg argv line i w s (Q : list Z -> vfs F -> Prop) :
  Split.holds argv 0 (words line) -> arr (words line) i = Some w -> Q w s -> wp (arg argv i) Q s.
Proof.
  intros Hh Hi HQ. destruct (Hh _ _ Hi) as (b & Hb & Hs). unfold arg. wp_step. eapply wp_rd; [exact Hb|].
  unfold rd_str. rewrite Hs. by apply wp_ret.
Qed.

Lemma word_ok line i w : Forall (fun c => c <> 0) line -> arr (words line) i = Some w -> Forall (fun c => c <> 0) w.
Proof. intros Hl Hi. by destruct (Split.component_ok _ _ _ _ Hl Hi). Qed.

Lemma wp_word_eq a b s (Q : bool -> vfs F -> Prop) :
  Forall (fun c => c <> 0) a -> Forall (fun c => c <> 0) b -> Q (bool_decide (a = b)) s -> wp (str_eq a b) Q s.
Proof.
  intros Ha Hb HQ. unfold str_eq. apply Exec.wp_str_eq_from; try done.
  - unfold zlen. lia.
  - unfold zlen. lia.
  - unfold zlen. lia.
Qed.

(** *** echo *)

Fixpoint echo_text (args : list (list Z)) : list Z :=
  match args with
  | [] => [NEWLINE]
  | a :: args => a ++ (match args with [] => [] | _ => [32] end) ++ echo_text args
  end.

Lemma wp_cmd_echo line argv l cap s (Q : Z * option (list Z) -> vfs F -> Prop) :
  Forall (fun c => c <> 0) line ->
  Split.holds argv 0 (words line) -> words line <> [] -> begun l cap [] -> cap < 2 ^ 63 ->
  (forall l', filled l' cap (fit cap (echo_text (tail (words line)))) -> Q (0, Some l') s) ->
  wp (cmd_echo (zlen (words line)) argv (Some l) cap) Q s.
Proof.
  intros Hnz Hh Hne Hb Hcap HQ. assert (Hws : forall i w, arr (words line) i = Some w -> Forall (fun c => c <> 0) w)
    by (intros i w; by apply word_ok). set (ws := words line) in *. pose proof Hb as (Hl & Hc0 & _).
  assert (H1 : 1 <= zlen ws) by (destruct ws; [done|unfold zlen; simpl; lia]).
  unfold cmd_echo. wp_step. apply (wp_for_acc (fun i acc t => t = s /\ exists l' pre,
    acc = (Some l', zlen (fit cap pre)) /\ begun l' cap (fit cap pre) /\
    echo_text (tail ws) = pre ++ echo_text (drop (Z.to_nat i) ws))); [lia| | |].
  - split; [done|]. exists l, []. unfold fit. rewrite take_nil. split_and!; [done|done|]. by destruct ws.
  - intros i acc t Hi (-> & l' & pre & -> & Hb' & Ht). destruct (arr_lookup ws i) as [w Hw]; [lia|].
    wp_step. eapply wp_arg; [done|done|]. cbn [fst snd]. wp_step. eapply wp_out_append; [done|done|by eapply Hws|].
    intros l2 Hf2. rewrite fit_app in *. apply filled_begun in Hf2.
    assert (Hd : drop (Z.to_nat i) ws = w :: drop (Z.to_nat (i + 1)) ws).
    { replace (Z.to_nat (i + 1)) with (Datatypes.S (Z.to_nat i)) by lia. apply drop_S.
      unfold arr in Hw. by destruct (Z.leb_spec 0 i); [|lia]. }
    rewrite Hd in Ht. cbn [echo_text fst snd] in *. destruct (Z.ltb_spec (i + 1) (zlen ws)) as [Hlt|Hge].
    + eapply wp_out_append; [done|done|by repeat constructor|]. intros l3 Hf3. rewrite fit_app in *. split; [done|].
      exists l3, ((pre ++ w) ++ chars " "). split_and!; [done|by apply filled_begun|].
      rewrite Ht. destruct (drop (Z.to_nat (i + 1)) ws) eqn:Ed.
      { apply (f_equal length) in Ed. rewrite length_drop in Ed. unfold zlen in Hlt. simpl in Ed. lia. }
      by rewrite <- !app_assoc.
    + wp_step. split; [done|]. exists l2, (pre ++ w). split_and!; [done|done|]. rewrite Ht.
      rewrite (drop_ge ws (Z.to_nat (i + 1))) by (unfold zlen in Hge; lia). by rewrite <- !app_assoc.
  - intros acc t (-> & l' & pre & -> & Hb' & Ht). wp_step. cbn [fst snd]. eapply wp_out_append; [done|done|by repeat constructor|].
    intros l2 Hf2. rewrite fit_app in Hf2. wp_step. apply HQ. rewrite Ht.
    rewrite drop_ge by (unfold zlen; lia). exact Hf2.
Qed.

(** *** Opening and closing a file for one command *)

(** Between the two states, files were opened and closed again. *)
Record tidy s s' : Prop := mk_tidy {
  td_inv : vfs_inv s';
  td_free : free_file <$> fd_table s' = free_file <$> fd_table s;
  td_open fd f : arr (fd_table s') fd = Some f -> f_used f = true -> arr (fd_table s) fd = Some f;
}.

Lemma tidy_refl s : vfs_inv s -> tidy s s.
Proof. by constructor. Qed.

Lemma tidy_trans s s' s'' : tidy s s' -> tidy s' s'' -> tidy s s''.
Proof. intros [H1 H2 H3] [H4 H5 H6]. constructor; [done|congruence|auto]. Qed.

Lemma find_free_same (l l' : list nm_file) :
  free_file <$> l' = free_file <$> l -> find_idx free_file l' = find_idx free_file l.
Proof.
  unfold find_idx. generalize 0. revert l'. induction l as [|x l IH]; intros [|y l'] z E; try done.
  simpl in *. injection E as E1 E2. rewrite E1. destruct (free_file x); [done|]. by apply IH.
Qed.

(** The slot [fd] of [s], free, was used for a file and is closed again. *)
Lemma tidy_closed s s1 fd : find_idx free_file (fd_table s) = Some fd -> vfs_inv s1 ->
  (forall i, i <> fd -> arr (fd_table s1) i = arr (fd_table s) i) -> zlen (fd_table s1) = zlen (fd_table s) ->
  tidy s (set_fd_table (upd (fd_table s1) fd no_file) s1).
Proof.
  intros Hfd Hi1 Hsame Hlen. pose proof (find_idx_range _ _ _ Hfd) as Hr.
  assert (Hfree : exists f, arr (fd_table s) fd = Some f /\ free_file f = true) by (apply find_idx_Some in Hfd as (f & ? & ? & _); by exists f).
  assert (Hinv : vfs_inv (set_fd_table (upd (fd_table s1) fd no_file) s1)).
  { destruct Hi1 as [H1 H2 H3 H4 H5 H6]. constructor; try done; simpl; [by rewrite zlen_upd|].
    intros i f. rewrite arr_upd by lia. destruct (fd =? i); [by intros [= <-]|apply H6]. }
  constructor; [done| |].
  - simpl. apply arr_ext; [unfold zlen; rewrite !length_fmap; fold (zlen (upd (fd_table s1) fd no_file)); by rewrite zlen_upd|].
    intros i. rewrite !arr_fmap, arr_upd by lia. destruct (Z.eqb_spec fd i) as [<-|].
    + destruct Hfree as (f & -> & Hf). simpl. by rewrite Hf.
    + by rewrite Hsame by done.
  - intros i f. simpl. rewrite arr_upd by lia. destruct (Z.eqb_spec fd i) as [<-|]; [by intros [= <-]|].
    by rewrite Hsame by done.
Qed.

Lemma opened_at s fd flags n s' : opened s fd flags n s' -> open_at s' fd (mk_file true flags 0 (Some n)) n.
Proof.
  intros (Hfd & Hn & ->). pose proof (find_idx_range _ _ _ Hfd). split_and!; try done. simpl. by apply arr_upd_eq.
Qed.

(** Since [s], only the slot [fd] changed: it is open on [n] at [off]. *)
Record in_use s fd n off t : Prop := mk_in_use {
  us_inv : vfs_inv t;
  us_len : zlen (fd_table t) = zlen (fd_table s);
  us_same i : i <> fd -> arr (fd_table t) i = arr (fd_table s) i;
  us_open : exists f, open_at t fd f n /\ f_offset f = off;
}.

Lemma in_use_opened s0 s fd flags n s' :
  vfs_inv s -> fd_table s = fd_table s0 -> opened s fd flags n s' -> in_use s0 fd n 0 s' /\ nodefs s' = nodefs s.
Proof.
  intros Hi E Ho. pose proof (opened_inv _ _ _ _ _ Hi Ho). pose proof (opened_at _ _ _ _ _ Ho) as Hat.
  destruct Ho as (_ & _ & ->). split; [|done]. constructor; simpl.
  - done.
  - by rewrite zlen_upd, E.
  - intros i Hne. rewrite arr_upd_ne by done. by rewrite E.
  - by eexists.
Qed.

Lemma in_use_moved s fd n off t f off' :
  in_use s fd n off t -> open_at t fd f n -> 0 <= off' < 2 ^ 63 -> in_use s fd n off' (moved t fd f off').
Proof.
  intros [H1 H2 H3 _] Ho Hoff. constructor.
  - by eapply moved_inv.
  - simpl. by rewrite zlen_upd.
  - intros i Hne. simpl. rewrite arr_upd_ne by done. by apply H3.
  - eexists. split; [by apply moved_open|done].
Qed.

Lemma in_use_close s fd n off t (Q : Z -> vfs F -> Prop) :
  find_idx free_file (fd_table s) = Some fd -> in_use s fd n off t ->
  (forall t', tidy s t' -> nodefs t' = nodefs t -> Q 0 t') -> wp (fs_close fd) Q t.
Proof.
  intros Hfd [H1 H2 H3 (f & Ho & _)] HQ. apply wp_fs_close; [done| |].
  - intros Hno. destruct Ho as (Hf & Hu & _). rewrite (Hno _ Hf) in Hu. done.
  - intros f' n' _. apply HQ; [|done]. by apply tidy_closed.
Qed.

(** *** cat *)

Lemma take_slice (c : list Z) off : 0 <= off ->
  take (Z.to_nat off) c ++ slice c off 128 = take (Z.to_nat (off + zlen (slice c off 128))) c.
Proof.
  intros Ho. unfold slice. rewrite take_take_drop. unfold zlen. rewrite length_take, length_drop.
  destruct (decide (length c <= Z.to_nat off)%nat).
  - rewrite !take_ge by lia. done.
  - destruct (decide (length c <= Z.to_nat off + Z.to_nat 128)%nat); [rewrite !take_ge by lia; done|].
    f_equal. lia.
Qed.

Lemma wp_cat_loop s fd n c off t l cap fuel (Q : option (list Z) * Z -> vfs F -> Prop) :
  in_use s fd n off t -> nodefs t = nodefs s -> content (nodefs s) n = Some c -> 0 <= off ->
  zlen c - off < Z.of_nat fuel -> begun l cap (fit cap (take (Z.to_nat off) c)) -> cap < 2 ^ 63 ->
  (forall t' off' l', in_use s fd n off' t' -> nodefs t' = nodefs s -> begun l' cap (fit cap c) ->
     Q (Some l', zlen (fit cap c)) t') ->
  wp (cat_loop fuel fd cap (Some l) (zlen (fit cap (take (Z.to_nat off) c)))) Q t.
Proof.
  intros Hu Hnd Hc Ho Hf Hb Hcap HQ. revert off t l Hu Hnd Ho Hf Hb. induction fuel as [|fuel IH];
    intros off t l Hu Hnd Ho Hf Hb; destruct (us_open _ _ _ _ _ Hu) as (f & Hat & Hoff); cbn [cat_loop].
  all: wp_step; apply wp_fs_read; [apply (us_inv _ _ _ _ _ Hu)|lia| |].
  1,3: intros Hno; destruct Hat as (Hat & Hus & _); rewrite (Hno _ Hat) in Hus; done.
  all: intros f' n' Ho'; assert (f' = f /\ n' = n) as [-> ->]
    by (destruct Hat as (? & ? & ? & _), Ho' as (? & ? & ? & _); split; congruence).
  all: rewrite Hnd, Hc, Hoff; cbv zeta; pose proof (zlen_slice c off 128 ltac:(lia) ltac:(lia)) as Hz; intros Hend; cbn [fst snd].
  - destruct (Z.ltb_spec 0 (zlen (slice c off 128))); [lia|]. cbn [negb]. wp_step.
    rewrite take_ge in * by (unfold zlen in *; lia). eapply HQ; [eapply in_use_moved; [done|done|lia]|done|done].
  - destruct (Z.ltb_spec 0 (zlen (slice c off 128))) as [Hpos|Hzero]; cbn [negb].
    + wp_step. eapply wp_copy_out; [done|done|]. intros l' Hb'.
      rewrite fit_app, take_slice in * by lia. cbn [fst snd].
      apply IH; [eapply in_use_moved; [done|done|lia]|done|lia|lia|done].
    + wp_step. rewrite take_ge in * by (unfold zlen in *; lia). eapply HQ; [eapply in_use_moved; [done|done|lia]|done|done].
Qed.

Lemma wp_cat_all s fd n c t l cap fuel (Q : option (list Z) * Z -> vfs F -> Prop) :
  in_use s fd n 0 t -> nodefs t = nodefs s -> content (nodefs s) n = Some c ->
  zlen c < Z.of_nat fuel -> begun l cap [] -> cap < 2 ^ 63 ->
  (forall t' off' l', in_use s fd n off' t' -> nodefs t' = nodefs s -> begun l' cap (fit cap c) ->
     Q (Some l', zlen (fit cap c)) t') ->
  wp (cat_loop fuel fd cap (Some l) 0) Q t.
Proof.
  intros Hu Hnd Hc Hf Hb Hcap HQ. assert (E : fit cap (take (Z.to_nat 0) c) = []) by (unfold fit; by rewrite take_0, take_nil).
  pose proof (wp_cat_loop s fd n c 0 t l cap fuel Q Hu Hnd Hc) as Hw. rewrite E in Hw. apply Hw; [lia|lia|done|done|done].
Qed.

(** What cat prints for a path: the contents of a file, nothing for a directory;
    [None] when there is no such path or no descriptor. *)
Definition cat_text s (path : list Z) : option (list Z) :=
  match target s path false, find_idx free_file (fd_table s) with
  | Some n, Some _ => Some (default [] (content (nodefs s) n))
  | _, _ => None
  end.

Lemma wp_cat_file s path l cap (Q : Z * option (list Z) -> vfs F -> Prop) :
  vfs_inv s -> Forall (fun c => c <> 0) path -> begun l cap [] -> cap < 2 ^ 63 ->
  match cat_text s path with
  | None => Q (-1, Some l) s
  | Some t => forall l' s', tidy s s' -> nodefs s' = nodefs s -> filled l' cap (fit cap t) -> Q (0, Some l') s'
  end ->
  wp (fd ← fs_open (Some path) NM_O_RDONLY 0;
      if fd <? 0 then mret (-1, Some l) else
      fuel ← gets (fun s => reads_left s fd);
      r ← cat_loop fuel fd cap (Some l) 0;
      out ← (if r.2 <? cap then put r.1 r.2 0 else mret r.1);
      fs_close fd ;;
      mret (0, out)) Q s.
Proof.
  intros Hi Hp Hb Hcap HQ. pose proof Hb as (Hl & Hcap0 & _). change (zlen (@nil Z)) with 0 in Hcap0.
  unfold cat_text in HQ. wp_step. apply wp_fs_open; [done|done|intros Hno; rewrite Hno in HQ; by wp_step|].
  intros n s1 [[Ht ->]|(_ & Hcr & _)]; [|done]. rewrite Ht in HQ. destruct (find_idx free_file (fd_table s)) as [fd|] eqn:Hfd; [|by wp_step].
  intros s1 Hopen. pose proof (find_idx_range _ _ _ Hfd). destruct (Z.ltb_spec fd 0); [lia|]. do 2 wp_step.
  destruct (in_use_opened s s fd _ n s1 Hi eq_refl Hopen) as [Hu Hnd].
  assert (Hfin : forall t off l' c, in_use s fd n off t -> nodefs t = nodefs s -> begun l' cap (fit cap c) ->
    (forall l' s', tidy s s' -> nodefs s' = nodefs s -> filled l' cap (fit cap c) -> Q (0, Some l') s') ->
    wp (out ← (if zlen (fit cap c) <? cap then put (Some l') (zlen (fit cap c)) 0 else mret (Some l')); fs_close fd ;; mret (0, out)) Q t).
  { intros t off l' c Hu' Hnd' Hb' HQ'. pose proof (zlen_fit cap c Hcap0). pose proof Hb' as (Hl' & _).
    destruct (Z.ltb_spec (zlen (fit cap c)) cap); [|lia]. wp_step. apply wp_put; [unfold zlen in *; lia|].
    wp_step. eapply in_use_close; [done|done|]. intros t' Htd Hnt. wp_step. apply HQ'; [done|congruence|by apply begun_filled]. }
  destruct (content (nodefs s) n) as [c|] eqn:Hc; simpl in HQ.
  - wp_step. eapply (wp_cat_all s fd n c); [done|done|done| |done|done|].
    + unfold reads_left. destruct (us_open _ _ _ _ _ Hu) as ([u fl o vn] & (Hf & _ & Hv & Hin & _) & _). simpl in Hv. subst vn.
      rewrite Hf. rewrite Hnd in *. destruct (node_law _ _ (vi_nodes _ Hi) Hin) as (v & -> & _ & _ & _ & Hsz).
      rewrite (Hsz _ Hc). unfold zlen. lia.
    + intros t' off' l' Hu' Hnt Hb'. cbn [fst snd]. by eapply Hfin.
  - wp_step. assert (Hz : forall fuel, wp (cat_loop fuel fd cap (Some l) 0) (fun r t => r = (Some l, 0) /\ t = s1) s1).
    { intros fuel. assert (Hr : wp (fs_read fd true 128) (fun r t => r = (NM_ERR NM_EFAIL, []) /\ t = s1) s1).
      { apply wp_fs_read; [apply (us_inv _ _ _ _ _ Hu)|lia|done|]. intros f' n' Ho'.
        destruct (us_open _ _ _ _ _ Hu) as (f & Hat & _).
        assert (n' = n) as -> by (destruct Hat as (? & ? & ? & _), Ho' as (? & ? & ? & _); congruence). by rewrite Hnd, Hc. }
      destruct fuel; cbn [cat_loop]; wp_step; (eapply wp_mono; [exact Hr|]); intros r t [-> ->]; by wp_step. }
    eapply wp_mono; [apply Hz|]. intros r t [-> ->]. cbn [fst snd].
    assert (E : fit cap (@nil Z) = []) by (unfold fit; by rewrite take_nil).
    pose proof (Hfin s1 0 l [] Hu Hnd) as Hf'. rewrite E in *. by apply Hf'.
Qed.

(** *** ls *)

Definition ls_text s (names : list (list Z)) : list Z :=
  concat ((fun p => if bool_decide (is_Some (target s p false)) then p ++ [NEWLINE] else []) <$> names).

Lemma wp_ls_loop s names l cap t (Q : option (list Z) * Z -> vfs F -> Prop) :
  vfs_inv s -> Forall (Forall (fun c => c <> 0)) names -> begun l cap t -> cap < 2 ^ 63 ->
  (ls_text s names = [] -> Q (Some l, zlen t) s) ->
  (forall l', ls_text s names <> [] -> filled l' cap (fit cap (t ++ ls_text s names)) ->
     Q (Some l', zlen (fit cap (t ++ ls_text s names))) s) ->
  wp (ls_loop names (Some l) cap (zlen t)) Q s.
Proof.
  intros Hi Hn Hb Hcap. revert l t Hb. induction Hn as [|p names Hp Hn IH]; intros l t Hb HQ0 HQ; cbn [ls_loop].
  { wp_step. by apply HQ0. }
  assert (E : ls_text s (p :: names) =
    (if bool_decide (is_Some (target s p false)) then p ++ [NEWLINE] else []) ++ ls_text s names) by done.
  rewrite E in HQ0, HQ. wp_step. apply wp_fs_stat; [done|done|]. destruct (target s p false) as [n|].
  - rewrite bool_decide_true in HQ0, HQ by eauto. intros v st _ _. wp_step. cbn [fst]. change (0 =? 0) with true. cbv iota. wp_step. eapply wp_out_append; [done|done|done|].
    intros l1 Hf1. cbn [fst snd]. apply filled_begun in Hf1. eapply wp_out_append; [done|done|by repeat constructor|]. intros l2 Hf2.
    rewrite fit_app in *. cbn [fst snd]. rewrite <- !app_assoc in *.
    assert (Hne : p ++ [NEWLINE] ++ ls_text s names <> []) by (by destruct p).
    apply IH; [by apply filled_begun| |]; rewrite ?fit_app.
    + intros En. rewrite En, app_nil_r in *. by apply (HQ l2).
    + intros l' Hne' Hf. rewrite <- !app_assoc in *. by apply HQ.
  - rewrite bool_decide_false in HQ0, HQ by (by intros [? ?]). wp_step. cbn [fst]. change (NM_ERR NM_EFAIL =? 0) with false. cbv iota. wp_step. cbn [fst snd]. by apply IH.
Qed.

(** *** A command *)

(** What a command answers for a line, given its input: [None] an error,
    [Some None] success with nothing stored, otherwise the text it stores. *)
Definition simple s (line inp : list Z) : option (option (list Z)) :=
  match words line with
  | [] => Some (Some [])
  | name :: args =>
      if 16 <? zlen (words line) then Some (Some []) else
      if bool_decide (name = chars "echo") then Some (Some (echo_text args)) else
      if bool_decide (name = chars "cat") then
        match args with [] => Some (Some inp) | path :: _ => Some <$> cat_text s path end
      else if bool_decide (name = chars "ls") then
        Some (match ls_text s candidates with [] => None | t => Some t end)
      else None
  end.

(** The answer of a command with the output buffer [l]. *)
Definition result_is (res : option (option (list Z))) (l : list Z) (cap : Z) (q : Z * option (list Z)) : Prop :=
  match res with
  | None => q = (-1, Some l)
  | Some None => q = (0, Some l)
  | Some (Some t) => exists l', q = (0, Some l') /\ filled l' cap (fit cap t)
  end.

Record simple_outcome s (line : list Z) (cap : Z) (l inp : list Z) (q : Z * option (list Z)) s' : Prop := mk_simple {
  so_tidy : tidy s s';
  so_nodes : nodefs s' = nodefs s;
  so_result : result_is (simple s line inp) l cap q;
}.

Lemma names_nonzero : Forall (fun c => c <> 0) (chars "echo") /\ Forall (fun c => c <> 0) (chars "cat") /\
  Forall (fun c => c <> 0) (chars "ls") /\ Forall (Forall (fun c => c <> 0)) candidates.
Proof. split_and!; apply (bool_decide_unpack _); vm_compute; done. Qed.

Definition input_is (inp : option (list Z)) (it : list Z) : Prop :=
  match inp with None => it = [] | Some b => cstr_of b = Some it end.

(** A line of no word, or of too many, stores the empty text. *)
Lemma wp_no_words argc l cap s (Q : Z * option (list Z) -> vfs F -> Prop) (k : M (vfs F) (Z * option (list Z))) :
  argc <= 0 -> begun l cap [] -> (forall l', filled l' cap (fit cap []) -> Q (0, Some l') s) ->
  wp (if argc <=? 0 then
        out ← (if bool_decide (is_Some (Some l)) && negb (cap =? 0) then put (Some l) 0 0 else mret (Some l)); mret (0, out)
      else k) Q s.
Proof.
  intros Ha Hb HQ. pose proof Hb as (Hlen & Hcap0 & _). change (zlen (@nil Z)) with 0 in Hcap0.
  destruct (Z.leb_spec argc 0); [|lia]. rewrite bool_decide_true by eauto. destruct (Z.eqb_spec cap 0); [lia|].
  cbn [negb andb]. wp_step. apply wp_put; [lia|]. wp_step. apply HQ. unfold fit. rewrite take_nil. by apply (begun_filled l cap []).
Qed.

(** The command cat. *)
Lemma wp_cmd_cat s line argv name args l cap inp it (Q : Z * option (list Z) -> vfs F -> Prop) :
  vfs_inv s -> Forall (fun c => c <> 0) line -> Split.holds argv 0 (words line) -> words line = name :: args ->
  begun l cap [] -> cap < 2 ^ 63 -> input_is inp it ->
  (forall q s', tidy s s' -> nodefs s' = nodefs s ->
     result_is (match args with [] => Some (Some it) | path :: _ => Some <$> cat_text s path end) l cap q -> Q q s') ->
  wp (cmd_cat (zlen (words line)) argv (Some l) cap inp) Q s.
Proof.
  intros Hi Hl Hh Ew Hb Hcap Hin HQ. unfold cmd_cat. rewrite Ew. destruct args as [|path args].
  - change (zlen [name] =? 1) with true. cbv iota. wp_step.
    assert (Hin' : cstr_of (default [0] inp) = Some it) by (destruct inp as [b|]; simpl in Hin; [done|by subst it]).
    change 0 with (zlen (@nil Z)) at 1.
    eapply wp_append_array; [done|done|exact Hin'|]. intros l' Hf. wp_step. cbn [fst]. apply HQ; [by apply tidy_refl|done|by exists l'].
  - destruct (Z.eqb_spec (zlen (name :: path :: args)) 1) as [E1|]; [unfold zlen in E1; simpl in E1; lia|].
    assert (Hpath : arr (words line) 1 = Some path) by (by rewrite Ew).
    wp_step. eapply wp_arg; [done|exact Hpath|]. apply wp_cat_file; [done|exact (word_ok line 1 path Hl Hpath)|done|done|].
    destruct (cat_text s path) as [t|] eqn:Et; simpl in HQ; [|by apply HQ; [apply tidy_refl|..]].
    intros l' s' Htd Hnd Hf. apply HQ; [done|done|by exists l'].
Qed.

Lemma wp_run_simple s line l cap inp it (Q : Z * option (list Z) -> vfs F -> Prop) :
  vfs_inv s -> Forall (fun c => c <> 0) line -> begun l cap [] -> cap < 2 ^ 63 -> input_is inp it ->
  (forall q s', simple_outcome s line cap l it q s' -> Q q s') ->
  wp (run_simple line (Some l) cap inp) Q s.
Proof.
  intros Hi Hl Hb Hcap Hin HQ. destruct names_nonzero as (He & Hc & Hls & Hcand).
  assert (HQ' : forall res, simple s line it = res -> forall q s', tidy s s' -> nodefs s' = nodefs s -> result_is res l cap q -> Q q s')
    by (intros res <- q s' ? ? ?; apply HQ; by constructor).
  assert (HQs : forall res, simple s line it = res -> forall q, result_is res l cap q -> Q q s)
    by (intros res Er q; apply (HQ' res Er); [by apply tidy_refl|done]).
  clear HQ. unfold simple in HQ', HQs. unfold run_simple. change 16 with (Z.of_nat 16).
  destruct (split_tokens_run line 16 Hl) as (argc & argv & -> & Hs). change (Z.of_nat 16) with 16 in *.
  destruct (words line) as [|name args] eqn:Ew.
  { destruct Hs as [-> _]. apply wp_no_words; [done|done|]. intros l' Hf. eapply HQs; [done|]. by exists l'. }
  rewrite Z.ltb_antisym in HQ', HQs. destruct (Z.leb_spec (zlen (name :: args)) 16) as [Hle|Hgt]; cbn [negb] in HQ', HQs.
  2: { subst argc. apply wp_no_words; [done|done|]. intros l' Hf. eapply HQs; [done|]. by exists l'. }
  destruct Hs as [-> Hh]. assert (Hpos : 1 <= zlen (name :: args)) by (unfold zlen; simpl; lia).
  destruct (Z.leb_spec (zlen (name :: args)) 0); [lia|]. rewrite <- Ew in Hh.
  assert (Hname : arr (words line) 0 = Some name) by (by rewrite Ew).
  pose proof (word_ok _ _ _ Hl Hname) as Hnz. wp_step. eapply wp_arg; [done|done|]. wp_step. apply wp_word_eq; [done|done|].
  destruct (bool_decide (name = chars "echo")).
  { rewrite <- Ew. apply wp_cmd_echo; [done|done|by rewrite Ew|done|done|]. intros l'. rewrite Ew. intros Hf. eapply HQs; [done|]. by exists l'. }
  wp_step. apply wp_word_eq; [done|done|]. destruct (bool_decide (name = chars "cat")).
  { rewrite <- Ew. eapply wp_cmd_cat; [done|done|done|done|done|done|done|]. intros q s' Htd Hnd Hr. by eapply HQ'. }
  wp_step. apply wp_word_eq; [done|done|]. destruct (bool_decide (name = chars "ls")); [|wp_step; by eapply HQs].
  unfold cmd_ls. wp_step. change 0 with (zlen (@nil Z)). apply wp_ls_loop; [done|done|done|done|..].
  - intros E. rewrite E in HQs. wp_step. by eapply HQs.
  - intros l' Hne Hf. wp_step. destruct (ls_text s candidates) as [|x t] eqn:Et; [done|]. eapply HQs; [done|]. by exists l'.
Qed.

(** *** A line *)

(** The part before the first pipe or redirection, which of them it is (1 or 2;
    0 without), and the part after it. *)
Fixpoint halve (line : list Z) : list Z * Z * list Z :=
  match line with
  | [] => ([], 0, [])
  | c :: line =>
      if c =? PIPE then ([], 1, line) else if c =? REDIRECT then ([], 2, line) else
      let '(a, m, b) := halve line in (c :: a, m, b)
  end.

(** The locals hold the texts [a] and [b]. *)
Record cut_ok (h : halves) (a : list Z) (m : Z) (b : list Z) : Prop := mk_cut_ok {
  ct_left : begun (left h) 128 a;
  ct_li : li h = zlen a;
  ct_right : begun (right h) 128 b;
  ct_ri : ri h = zlen b;
  ct_mode : mode h = m;
}.

Lemma wp_set_at l i c s (Q : list Z -> vfs F -> Prop) :
  0 <= i < zlen l -> Q (upd l i c) s -> wp (set_at l i c) Q s.
Proof.
  intros Hi HQ. unfold set_at. rewrite (proj2 (Z.leb_le 0 i)), (proj2 (Z.ltb_lt i (zlen l))) by lia. by apply wp_ret.
Qed.

(** One more character for a local buffer, dropped when it is full. *)
Lemma grow l t c rest : begun l 128 t -> zlen t + 1 < 128 ->
  begun (upd l (zlen t) c) 128 (t ++ [c]) /\ zlen t + 1 = zlen (t ++ [c]) /\ (t ++ [c]) ++ rest = t ++ c :: rest /\ 0 <= zlen t < zlen l.
Proof.
  intros Hb Hr. pose proof Hb as (Hl & _ & _). split_and!; [by apply begun_snoc| |by rewrite <- app_assoc|unfold zlen; lia|lia].
  unfold zlen. rewrite length_app. simpl. lia.
Qed.

Lemma wp_cut_right line h a m b s (Q : halves -> vfs F -> Prop) :
  cut_ok h a m b -> m <> 0 -> (forall h', cut_ok h' a m (fit 128 (b ++ line)) -> Q h' s) -> wp (cut_line line h) Q s.
Proof.
  revert h b. induction line as [|c line IH]; intros h b Hh Hm HQ; cbn [cut_line].
  { apply wp_ret, HQ. rewrite app_nil_r, fit_small; [done|]. apply Hh. }
  destruct Hh as [H1 H2 H3 H4 H5]. rewrite (proj2 (Z.eqb_neq (mode h) 0)) by congruence. rewrite !andb_false_r. cbn [andb negb].
  pose proof H3 as (_ & Hlt & _). destruct (Z.ltb_spec (ri h + 1) 128).
  - rewrite H4 in *. destruct (grow (right h) b c line) as (Hg & Hz & Ha & Hr); [done|lia|]. wp_step. apply wp_set_at; [done|].
    apply (IH _ (b ++ [c])); [by constructor|done|]. by rewrite Ha.
  - assert (Hf : zlen b = 128 - 1) by lia. apply (IH h b); [by constructor|done|]. intros h' Hh'. apply HQ.
    by rewrite fit_full in Hh' |- * by done.
Qed.

Lemma wp_cut_line line h t s (Q : halves -> vfs F -> Prop) :
  cut_ok h t 0 [] ->
  (forall h', let '(a, m, b) := halve line in cut_ok h' (fit 128 (t ++ a)) m (fit 128 b) -> Q h' s) -> wp (cut_line line h) Q s.
Proof.
  revert h t. induction line as [|c line IH]; intros h t Hh HQ; cbn [cut_line halve] in *.
  { apply wp_ret, HQ. rewrite app_nil_r, !fit_small; [done|done|]. apply Hh. }
  destruct Hh as [H1 H2 H3 H4 H5]. rewrite H5 in *. change (0 =? 0) with true. rewrite !andb_true_r. cbn [andb negb].
  destruct (c =? PIPE); [|destruct (c =? REDIRECT)].
  1,2: eapply (wp_cut_right _ _ t _ []); [by constructor|done|]; intros h' Hh'; apply HQ; rewrite app_nil_r, (fit_small 128 t); [done|apply H1].
  pose proof H1 as (_ & Hlt & _). destruct (halve line) as [[a m] b]. destruct (Z.ltb_spec (li h + 1) 128).
  - rewrite H2 in *. destruct (grow (left h) t c a) as (Hg & Hz & Ha & Hr); [done|lia|]. wp_step. apply wp_set_at; [done|].
    apply (IH _ (t ++ [c])); [by constructor|]. by rewrite Ha.
  - assert (Hf : zlen t = 128 - 1) by lia. apply (IH h t); [by constructor|]. intros h' Hh'. apply HQ.
    by rewrite fit_full in Hh' |- * by done.
Qed.

Lemma halve_nonzero line : Forall (fun c => c <> 0) line ->
  Forall (fun c => c <> 0) (halve line).1.1 /\ Forall (fun c => c <> 0) (halve line).2.
Proof.
  induction 1 as [|c l Hc Hl IH]; [done|]. simpl. destruct (c =? PIPE); [done|]. destruct (c =? REDIRECT); [done|].
  destruct (halve l) as [[a m] b]. simpl in *. split; [constructor; [done|apply IH]|apply IH].
Qed.

(** *** Redirection *)

(** The node that the path had, or has after it was made. *)
Definition found s path n s1 : Prop :=
  (target s path false = Some n /\ s1 = s) \/ (target s path false = None /\ made s path n s1).

Record redirected s path (it : list Z) s' : Prop := mk_redirected {
  rd_tidy : tidy s s';
  rd_free : is_Some (find_idx free_file (fd_table s));
  rd_file : exists n s1, found s path n s1 /\ target s' path false = Some n /\
    (nodefs s' = nodefs s1 \/ exists c, content (nodefs s1) n = Some c /\
       forall m, content (nodefs s') m = if m =? n then Some (splice c 0 it) else content (nodefs s1) m);
}.

Definition redirect_outcome s (line it : list Z) (r : Z) s' : Prop :=
  match words line with
  | [path] =>
      (r = 0 /\ redirected s path it s') \/
      (r = -1 /\ (s' = s \/ exists n, made s path n s') /\
       (target s path false <> None -> find_idx free_file (fd_table s) = None))
  | _ => r = -1 /\ s' = s
  end.

Lemma found_node s path n s1 : vfs_inv s -> found s path n s1 ->
  vfs_inv s1 /\ is_node (nodefs s1) n /\ fd_table s1 = fd_table s /\ target s1 path false = Some n.
Proof.
  intros Hi [[Ht ->]|[_ Hm]]; [split_and!; [done|by eapply target_node|done|done]|].
  split_and!; [apply Hm|apply Hm|apply Hm|apply Hm].
Qed.

Lemma tidy_table s s1 s' : fd_table s1 = fd_table s -> tidy s1 s' -> tidy s s'.
Proof. intros E [H1 H2 H3]. constructor; [done|congruence|]. by rewrite <- E. Qed.

Lemma walk_same (f f' : F) d nms :
  (forall e nm, entry f' e nm = entry f e nm) -> walk f' d nms = walk f d nms.
Proof. intros E. revert d. induction nms as [|nm nms IH]; intros d; simpl; [done|]. rewrite E. destruct (entry f d nm); [apply IH|done]. Qed.

Lemma wp_redirect s line buf it l (Q : Z * option (list Z) -> vfs F -> Prop) :
  vfs_inv s -> Forall (fun c => c <> 0) line -> cstr_of buf = Some it -> zlen it <= mf_limit (F := F) ->
  (forall r s', redirect_outcome s line it r s' -> Q (r, l) s') ->
  wp (redirect (Some buf) line l) Q s.
Proof.
  intros Hi Hl Hit Hlim HQ. unfold redirect. change 8 with (Z.of_nat 8).
  destruct (split_tokens_run line 8 Hl) as (c & toks & -> & Hs). change (Z.of_nat 8) with 8 in *. unfold redirect_outcome in HQ.
  assert (Hc : c = 1 <-> exists path, words line = [path]).
  { destruct (words line) as [|w [|w' ws]] eqn:Ew.
    - destruct Hs as [-> _]. split; [done|]. by intros [? ?].
    - destruct Hs as [-> _]. split; [|done]. by exists w.
    - split; [|by intros [? ?]]. intros ->. destruct (zlen (w :: w' :: ws) <=? 8); [|done]. destruct Hs as [E _]. unfold zlen in E. simpl in E. lia. }
  destruct (Z.eqb_spec c 1) as [->|Hne]; cbn [negb].
  2: { wp_step. destruct (words line) as [|w [|w' ws]]; [by apply HQ| |by apply HQ]. exfalso. apply Hne, Hc. by exists w. }
  destruct (proj1 Hc eq_refl) as [path Ew]. rewrite Ew in *. destruct Hs as [_ Hh]. rewrite <- Ew in Hh.
  assert (Hpath : arr (words line) 0 = Some path) by (by rewrite Ew). wp_step. eapply wp_arg; [done|exact Hpath|].
  wp_step. apply wp_fs_open; [done|exact (word_ok line 0 path Hl Hpath)| |].
  { intros Hno. wp_step. apply HQ. right. split_and!; [done|by left|done]. }
  intros n s1 Hf0. assert (Hf : found s path n s1) by (destruct Hf0 as [?|(? & _ & ?)]; [by left|by right]). clear Hf0.
  destruct (found_node _ _ _ _ Hi Hf) as (Hi1 & Hn1 & Htab & Ht1).
  destruct (find_idx free_file (fd_table s)) as [fd|] eqn:Hfd.
  2: { wp_step. apply HQ. right. split_and!; [done|destruct Hf as [[_ ->]|[_ Hm]]; [by left|right; by exists n]|done]. }
  intros s2 Hop. pose proof (find_idx_range _ _ _ Hfd). destruct (Z.ltb_spec fd 0); [lia|].
  destruct (in_use_opened s s1 fd _ n s2 Hi1 Htab Hop) as [Hu Hnd]. pose proof (opened_at _ _ _ _ _ Hop) as Hat.
  unfold str_len, text, rd_str. rewrite Hit. do 5 wp_step.
  pose proof (cstr_len _ _ Hit) as Hlen. assert (Htake : take (Z.to_nat (zlen it)) buf = it).
  { destruct (cstr_split _ _ Hit) as [rest ->]. unfold zlen. rewrite Nat2Z.id. apply take_app_length. }
  assert (Hit0 : 0 <= zlen it) by (unfold zlen; lia).
  assert (Heq : forall f' n', open_at s2 fd f' n' -> f' = mk_file true (Z.lor NM_O_CREAT NM_O_RDWR) 0 (Some n) /\ n' = n).
  { intros f' n' Ho. destruct Hat as (? & ? & ? & _), Ho as (? & ? & ? & _). split; congruence. }
  assert (Hend : forall t off, in_use s fd n off t -> target t path false = Some n ->
    (nodefs t = nodefs s1 \/ exists c, content (nodefs s1) n = Some c /\
       forall m, content (nodefs t) m = if m =? n then Some (splice c 0 it) else content (nodefs s1) m) ->
    wp (fs_close fd ;; mret (0, l)) Q t).
  { intros t off Hu' Htt Hc'. wp_step. eapply in_use_close; [done|done|]. intros t' Htd Hnt. wp_step. apply HQ. left. split; [done|].
    constructor; [done|by rewrite Hfd|]. exists n, s1. unfold target in *. rewrite Hnt. done. }
  apply wp_fs_write; [apply (us_inv _ _ _ _ _ Hu)|lia| | |].
  - intros f' n' Ho. destruct (Heq _ _ Ho) as [-> _]. simpl. lia.
  - eapply Hend; [exact Hu| |left; congruence]. unfold target in *. by rewrite Hnd.
  - intros f' n' c' s' Ho Hw. destruct (Heq _ _ Ho) as [-> ->]. rewrite Htake in Hw.
    assert (Hbig : 0 + zlen it < 2 ^ 63) by (pose proof (mf_limit_max (F := F)); lia).
    destruct (wrote_inv _ _ _ _ it _ _ (us_inv _ _ _ _ _ Hu) Ho Hbig Hw) as [Hi' Ho'].
    destruct Hw as (c0 & f1 & Hc0 & Hwr & Hok & Hnodes & Hent & Hcont & ->). simpl in *.
    apply (Hend _ (zlen it)).
    + destruct Hu as [U1 U2 U3 _]. constructor; simpl; [exact Hi'|by rewrite zlen_upd| |].
      * intros i Hne. rewrite arr_upd_ne by done. by apply U3.
      * eexists. split; [exact Ho'|done].
    + unfold target in *. simpl. rewrite (walk_same (nodefs s2) f1) by done. by rewrite Hnd.
    + right. exists c0. rewrite Hnd in *. split; [done|]. intros m. rewrite Hcont. destruct (m =? n); [|done]. f_equal.
      apply written_splice; [unfold zlen; lia|done].
Qed.

(** *** Lines and scripts *)

Section lines.
Context (stack : list Z).
Context (Hstack : zlen stack = 512) (Hlim : 511 <= mf_limit (F := F)).

(** The outcome of a line with the output buffer [l]: a command alone, or one whose
    output goes to the next command or to a file. *)
Definition line_outcome s (line : list Z) (cap : Z) (l : list Z) (q : Z * option (list Z)) s' : Prop :=
  let '(a, m, b) := halve line in
  let l0 := upd l 0 0 in
  if m =? 0 then simple_outcome s (fit 128 a) cap l0 [] q s' else
  exists q1 s1, simple_outcome s (fit 128 a) 512 stack [] q1 s1 /\
    ((q1.1 = -1 /\ q = (-1, Some l0) /\ s' = s1) \/
     (q1.1 = 0 /\ exists buf it, q1.2 = Some buf /\ cstr_of buf = Some it /\
        if m =? 1 then simple_outcome s1 (fit 128 b) cap l0 it q s'
        else q.2 = Some l0 /\ redirect_outcome s1 (fit 128 b) it q.1 s')).

(** The left command of the line is an ls that finds none of its files, and stores
    nothing into the array [tmp] that is then read as a string. *)
Definition starved s (line : list Z) : Prop :=
  let '(a, m, _) := halve line in
  m <> 0 /\ (exists args, words (fit 128 a) = chars "ls" :: args /\ zlen args < 16) /\
  Forall (fun p => target s p false = None) candidates.

Lemma nothing_stored s line inp : simple s line inp = Some None ->
  (exists args, words line = chars "ls" :: args /\ zlen args < 16) /\ Forall (fun p => target s p false = None) candidates.
Proof.
  unfold simple. destruct (words line) as [|name args]; [done|]. destruct (Z.ltb_spec 16 (zlen (name :: args))) as [|Hle]; [done|].
  case_bool_decide; [done|]. case_bool_decide; [by destruct args; [|destruct (cat_text _ _)]|]. case_bool_decide as Els; [|done].
  destruct (ls_text s candidates) eqn:E; [|done]. intros _. subst name. split.
  { exists args. split; [done|]. unfold zlen in *. simpl in Hle. lia. }
  revert E. unfold ls_text. generalize candidates. intros names. induction names as [|p names IH]; [done|]. simpl.
  case_bool_decide as Hp; [by destruct p|]. intros E. constructor; [|by apply IH]. destruct (target s p false); [by destruct Hp|done].
Qed.

(** The buffer that a command leaves when it succeeds holds a string, if it did
    before a command that stores nothing. *)
Lemma simple_buffer s line l inp q s' :
  (simple s line inp = Some None -> 0 ∈ l) -> zlen l = 512 -> simple_outcome s line 512 l inp q s' ->
  q.1 = -1 \/ (q.1 = 0 /\ exists buf it, q.2 = Some buf /\ cstr_of buf = Some it /\ zlen buf = 512).
Proof.
  intros H0 Hl [_ _ Hr]. destruct (simple s line inp) as [[t|]|]; simpl in Hr.
  - destruct Hr as (l' & -> & Hf). destruct (cstr_of_some _ (filled_zero _ _ _ Hf)) as [it' Hit']. right. split; [done|].
    exists l', it'. split_and!; [done|done|apply Hf].
  - subst q. destruct (cstr_of_some _ (H0 eq_refl)) as [it Hit]. right. split; [done|]. by exists l, it.
  - subst q. by left.
Qed.

Lemma wp_execute_line s line l cap (Q : Z * option (list Z) -> vfs F -> Prop) :
  vfs_inv s -> Forall (fun c => c <> 0) line -> zlen l = cap -> 0 < cap < 2 ^ 63 -> (starved s line -> 0 ∈ stack) ->
  (forall q s', line_outcome s line cap l q s' -> Q q s') ->
  wp (shell_execute_line stack (Some line) (Some l) cap) Q s.
Proof.
  intros Hi Hline Hl Hcap Hnul HQ. unfold shell_execute_line. rewrite bool_decide_false by done.
  destruct (Z.eqb_spec cap 0); [lia|]. cbn [orb]. wp_step. apply wp_put; [lia|]. wp_step.
  assert (Hb0 : begun (upd l 0 0) cap []) by (apply begun_nil; [by rewrite zlen_upd|lia]).
  apply (wp_cut_line _ _ []). { by constructor. } unfold line_outcome in HQ. unfold starved in Hnul.
  intros h'. pose proof (halve_nonzero line Hline) as [Ha Hb]. destruct (halve line) as [[a m] b]. cbn [fst snd app] in *.
  intros [H1 H2 H3 H4 H5]. rewrite H2, H4, H5. pose proof H1 as (Hl1 & Hlt1 & _). pose proof H3 as (Hl3 & Hlt3 & _).
  wp_step. apply wp_set_at; [unfold zlen in *; lia|]. wp_step. apply wp_set_at; [unfold zlen in *; lia|].
  apply (fit_nonzero 128) in Ha, Hb. unfold rd_str. rewrite (filled_cstr _ _ _ (begun_filled _ _ _ H1) Ha).
  rewrite (filled_cstr _ _ _ (begun_filled _ _ _ H3) Hb). do 4 wp_step. cbv zeta.
  destruct (Z.eqb_spec m 0) as [|Hm]. { apply (wp_run_simple _ _ _ _ _ []); [done|done|done|lia|done|done]. }
  wp_step. apply (wp_run_simple _ _ _ _ _ []); [done|done|by apply begun_nil|lia|done|]. intros q1 s1 Hq1.
  assert (H0 : simple s (fit 128 a) [] = Some None -> 0 ∈ stack) by (intros (? & ?)%nothing_stored; by apply Hnul).
  destruct (simple_buffer _ _ _ _ _ _ H0 Hstack Hq1) as [Eq|(Eq & buf & it & Ebuf & Hit & Hlb)]; rewrite Eq.
  { change (negb (-1 =? 0)) with true. cbv iota. wp_step. apply HQ. exists q1, s1. split; [done|]. by left. }
  change (negb (0 =? 0)) with false. cbv iota. rewrite Ebuf. pose proof (td_inv _ _ (so_tidy _ _ _ _ _ _ _ Hq1)) as Hi1.
  destruct (m =? 1).
  - eapply wp_run_simple; [done|done|done|lia|exact Hit|]. intros q s' Hq. apply HQ. exists q1, s1. split; [done|]. right.
    split; [done|]. by exists buf, it.
  - pose proof (cstr_len _ _ Hit). apply (wp_redirect _ _ _ it); [done|done|done|lia|]. intros r s' Hr. apply HQ.
    exists q1, s1. split; [done|]. right. split; [done|]. by exists buf, it.
Qed.

(** Whatever the line, the virtual file system stays in order, nothing stays open,
    and the answer is 0 or -1 with a string in the buffer. *)
Record line_safe s (cap : Z) (q : Z * option (list Z)) s' : Prop := mk_line_safe {
  ls_tidy : tidy s s';
  ls_result : q.1 = 0 \/ q.1 = -1;
  ls_buffer : exists l' t, q.2 = Some l' /\ zlen l' = cap /\ cstr_of l' = Some t;
}.

Lemma simple_safe s line l cap inp q s' :
  0 ∈ l -> zlen l = cap -> simple_outcome s line cap l inp q s' -> line_safe s cap q s'.
Proof.
  intros H0 Hl [Htd _ Hr]. destruct (cstr_of_some _ H0) as [it Hit]. destruct (simple s line inp) as [[t|]|]; simpl in Hr.
  - destruct Hr as (l' & -> & Hf). destruct (cstr_of_some _ (filled_zero _ _ _ Hf)) as [it' Hit'].
    constructor; [done|by left|]. exists l', it'. split_and!; [done|apply Hf|done].
  - subst q. constructor; [done|by left|]. by exists l, it.
  - subst q. constructor; [done|by right|]. by exists l, it.
Qed.

Lemma safe_tidy s s1 cap q s' : tidy s s1 -> line_safe s1 cap q s' -> line_safe s cap q s'.
Proof. intros Htd [H1 H2 H3]. constructor; [by eapply tidy_trans|done|done]. Qed.

Lemma redirect_tidy s line it r s' : vfs_inv s -> redirect_outcome s line it r s' -> tidy s s' /\ (r = 0 \/ r = -1).
Proof.
  intros Hi. assert (Hmade : forall path n, made s path n s' -> tidy s s').
  { intros path n Hm. apply (tidy_table s s' s'); [apply Hm|apply tidy_refl, Hm]. }
  unfold redirect_outcome. destruct (words line) as [|path [|]]; [by intros [-> ->]; split; [apply tidy_refl|right]| |
    by intros [-> ->]; split; [apply tidy_refl|right]].
  intros [[-> Hr]|(-> & [->|[n Hm]] & _)]; [split; [apply Hr|by left]|split; [by apply tidy_refl|by right]|].
  split; [by eapply Hmade|by right].
Qed.

Lemma line_outcome_safe s line cap l q s' :
  vfs_inv s -> zlen l = cap -> 0 < cap -> line_outcome s line cap l q s' -> line_safe s cap q s'.
Proof.
  intros Hi Hl Hcap. unfold line_outcome. destruct (halve line) as [[a m] b].
  assert (H0 : 0 ∈ upd l 0 0) by (apply (arr_elem _ 0); apply arr_upd_eq; lia).
  assert (Hl0 : zlen (upd l 0 0) = cap) by (by rewrite zlen_upd).
  destruct (m =? 0); [by apply simple_safe|]. intros (q1 & s1 & Hq1 & Hor).
  pose proof (so_tidy _ _ _ _ _ _ _ Hq1) as Htd. apply (safe_tidy _ s1); [done|]. pose proof (td_inv _ _ Htd) as Hi1.
  destruct (cstr_of_some _ H0) as [it0 Hit0].
  destruct Hor as [(_ & -> & ->)|(_ & buf & it & _ & _ & Hq)].
  - constructor; [by apply tidy_refl|by right|]. by exists (upd l 0 0), it0.
  - destruct (m =? 1); [by eapply simple_safe|]. destruct Hq as [Eq Hr]. apply redirect_tidy in Hr as [Ht Hr]; [|done].
    constructor; [done|done|]. by exists (upd l 0 0), it0.
Qed.

(** A script as lines: a newline ends one, and so does the character after 255
    others, which is dropped; empty lines are left out. *)
Fixpoint script_lines (script li : list Z) : list (list Z) :=
  let here := if 0 <? zlen li then [li] else [] in
  match script with
  | [] => here
  | ch :: script =>
      if negb (ch =? NEWLINE) && (zlen li + 1 <? 256) then script_lines script (li ++ [ch])
      else here ++ script_lines script []
  end.

(** What the answer of a line adds to the text [t] of its script. *)
Definition shows (cap : Z) (t : list Z) (q : Z * option (list Z)) (t' : list Z) : Prop :=
  if q.1 =? 0 then exists b o, q.2 = Some b /\ cstr_of b = Some o /\ t' = fit cap (t ++ o) else t' = t.

(** The lines run in order, with the text so far on each side. *)
Inductive ran (cap : Z) : vfs F -> list Z -> list (list Z) -> list Z -> vfs F -> Prop :=
| ran_nil s t : ran cap s t [] t s
| ran_cons s t line lines q s1 t1 t2 s2 :
    line_outcome s line 512 stack q s1 -> shows cap t q t1 -> ran cap s1 t1 lines t2 s2 ->
    ran cap s t (line :: lines) t2 s2.

Lemma ran_tidy cap s t lines t' s' : vfs_inv s -> ran cap s t lines t' s' -> tidy s s'.
Proof.
  intros Hi Hr. induction Hr as [s t|s t line lines q s1 t1 t2 s2 Hq _ Hr IH]; [by apply tidy_refl|].
  assert (Htd : tidy s s1) by (eapply line_outcome_safe; [done|exact Hstack|lia|exact Hq]).
  eapply tidy_trans; [done|]. apply IH, Htd.
Qed.

Lemma ran_app cap s t l1 t1 s1 l2 t2 s2 :
  ran cap s t l1 t1 s1 -> ran cap s1 t1 l2 t2 s2 -> ran cap s t (l1 ++ l2) t2 s2.
Proof. intros H1 H2. induction H1; [done|]. simpl. eapply ran_cons; [done|done|auto]. Qed.

(** Every line of the script that is starved when it comes to run finds a NUL in the
    array. *)
Definition fed (cap : Z) s (t : list Z) (lines : list (list Z)) : Prop :=
  forall pre line post t1 s1, lines = pre ++ line :: post -> ran cap s t pre t1 s1 -> starved s1 line -> 0 ∈ stack.

Lemma fed_rest cap s t l1 t1 s1 l2 : ran cap s t l1 t1 s1 -> fed cap s t (l1 ++ l2) -> fed cap s1 t1 l2.
Proof.
  intros Hr Hf pre line post t2 s2 -> Hr2. apply (Hf (l1 ++ pre) line post t2 s2); [by rewrite <- app_assoc|by eapply ran_app].
Qed.

Lemma fed_app cap s t l1 l2 : fed cap s t (l1 ++ l2) -> fed cap s t l1.
Proof. intros Hf pre line post t1 s1 ->. apply (Hf pre line (post ++ l2)). by rewrite <- app_assoc. Qed.

(** It is enough that the array has a NUL, or that no line runs ls before a pipe or
    a redirection. *)
Lemma fed_nul cap s t lines : 0 ∈ stack -> fed cap s t lines.
Proof. by intros ? ? ?. Qed.

Definition lists (line : list Z) : bool :=
  let '(a, m, _) := halve line in
  negb (m =? 0) && match words (fit 128 a) with name :: _ => bool_decide (name = chars "ls") | [] => false end.

Lemma fed_plain cap s t lines : forallb (fun line => negb (lists line)) lines = true -> fed cap s t lines.
Proof.
  intros Hp pre line post t1 s1 -> _ Hst. rewrite forallb_app in Hp. apply andb_true_iff in Hp as [_ Hp]. simpl in Hp.
  apply andb_true_iff in Hp as [Hp _]. unfold lists, starved in *. destruct (halve line) as [[a m] b].
  destruct Hst as (Hm & (args & Ew & _) & _). rewrite Ew, bool_decide_eq_true_2, (proj2 (Z.eqb_neq m 0)) in Hp by done. done.
Qed.

Lemma wp_run_line line li l cap t s (Q : option (list Z) * Z -> vfs F -> Prop) :
  vfs_inv s -> begun line 256 li -> Forall (fun c => c <> 0) li -> filled l cap t -> Forall (fun c => c <> 0) t -> cap < 2 ^ 63 ->
  fed cap s t (if 0 <? zlen li then [li] else []) ->
  (forall l' t' s', ran cap s t (if 0 <? zlen li then [li] else []) t' s' -> filled l' cap t' -> Forall (fun c => c <> 0) t' ->
     Q (Some l', zlen t') s') ->
  wp (run_line stack (upd line (zlen li) 0) (zlen li) (Some l) cap (zlen t)) Q s.
Proof.
  intros Hi Hline Hli Hf Ht Hcap Hfed HQ. unfold run_line. destruct (Z.ltb_spec 0 (zlen li)); [|wp_step; apply HQ; [constructor|done|done]].
  unfold rd_str. rewrite (filled_cstr _ _ _ (begun_filled _ _ _ Hline) Hli). do 2 wp_step. wp_step.
  apply wp_execute_line; [done|done|done|lia|by apply (Hfed [] li [] t s); [|constructor]|]. intros q s' Hq.
  assert (Hsafe : line_safe s 512 q s') by (eapply line_outcome_safe; [done|exact Hstack|lia|exact Hq]).
  assert (Hone : forall t', shows cap t q t' -> ran cap s t [li] t' s') by (intros; eapply ran_cons; [done|done|constructor]).
  destruct Hsafe as [_ [E|E] (b & bt & Eb & Hbl & Hbt)]; unfold shows in Hone; rewrite E in *; cbn [Z.eqb negb] in *.
  2: by wp_step; apply HQ; [apply Hone|..].
  destruct (arr_lookup b 0) as [c0 Hc0]; [lia|]. rewrite Eb. wp_step. eapply wp_rd; [exact Hc0|].
  pose proof (filled_begun _ _ _ Hf) as (_ & Hlt & _).
  destruct (Z.eqb_spec c0 0) as [->|_].
  - wp_step. apply HQ; [|done|done]. apply Hone. exists b, []. split_and!; [done| |by rewrite app_nil_r, fit_small].
    destruct b as [|c b]; [done|]. rewrite arr_cons_0 in Hc0. by injection Hc0 as ->.
  - unfold text, rd_str. rewrite Hbt. do 2 wp_step. eapply wp_out_append; [by apply filled_begun|done|by eapply cstr_nonzero|].
    intros l' Hl'. apply HQ; [|done|].
    + apply Hone. by exists b, bt.
    + apply fit_nonzero, Forall_app. split; [done|by eapply cstr_nonzero].
Qed.

Lemma wp_script_loop script line li l cap t s (Q : option (list Z) -> vfs F -> Prop) :
  vfs_inv s -> Forall (fun c => c <> 0) script -> begun line 256 li -> Forall (fun c => c <> 0) li -> filled l cap t ->
  Forall (fun c => c <> 0) t -> cap < 2 ^ 63 -> fed cap s t (script_lines script li) ->
  (forall l' t' s', ran cap s t (script_lines script li) t' s' -> filled l' cap t' -> Forall (fun c => c <> 0) t' ->
     Q (Some l') s') ->
  wp (script_loop stack (script ++ [0]) line (zlen li) (Some l) cap (zlen t)) Q s.
Proof.
  intros Hi Hs. revert line li l t s Hi Q. induction script as [|ch script IH]; intros line li l t s Hi Q Hline Hli Hf Ht Hcap Hfed HQ.
  all: pose proof Hline as (Hll & Hlt & _); assert (H0 : 0 <= zlen li) by (unfold zlen; lia).
  all: cbn [script_loop app].
  2: inversion Hs as [|? ? Hch Hs']; subst.
  1: change (negb (0 =? 0)) with false; rewrite andb_false_r; cbn [andb].
  2: rewrite (proj2 (Z.eqb_neq ch 0)), andb_true_r by done; cbn [script_lines] in HQ, Hfed.
  2: destruct (negb (ch =? NEWLINE) && (zlen li + 1 <? 256)) eqn:Ecut.
  2: { pose proof Ecut as [_ Hlt2%Z.ltb_lt]%andb_true_iff. wp_step. apply wp_set_at; [lia|].
    replace (zlen li + 1) with (zlen (li ++ [ch])) by (unfold zlen; rewrite length_app; simpl; lia).
    eapply IH; try done; [by apply begun_snoc|]. apply Forall_app. by split; [|repeat constructor]. }
  - wp_step. apply wp_set_at; [lia|]. wp_step. apply wp_run_line; [done..|]. intros l' t' s' Hr Hf' Ht'.
    change (0 =? 0) with true. wp_step. by eapply HQ.
  - wp_step. apply wp_set_at; [lia|]. wp_step. apply wp_run_line; [done..|by eapply fed_app|]. intros l' t' s' Hr Hf' Ht'.
    cbn [fst snd].
    apply (IH Hs' (upd line (zlen li) 0) [] l' t'); [eapply (ran_tidy cap s); [done|exact Hr]| |constructor|done|done|done|by eapply fed_rest|].
    + apply begun_nil; [by rewrite zlen_upd|done].
    + intros l2 t2 s2 Hr2. apply HQ. by eapply ran_app.
Qed.

Lemma wp_run_script s script l cap (Q : Z * option (list Z) -> vfs F -> Prop) :
  vfs_inv s -> Forall (fun c => c <> 0) script -> zlen l = cap -> 0 < cap < 2 ^ 63 -> fed cap s [] (script_lines script []) ->
  (forall l' t' s', ran cap s [] (script_lines script []) t' s' -> filled l' cap t' -> Forall (fun c => c <> 0) t' ->
     Q (0, Some l') s') ->
  wp (shell_run_script stack (Some script) (Some l) cap) Q s.
Proof.
  intros Hi Hs Hl Hcap Hfed HQ. unfold shell_run_script. rewrite bool_decide_false by done. destruct (Z.eqb_spec cap 0); [lia|].
  cbn [orb]. wp_step. apply wp_put; [lia|]. wp_step.
  apply (wp_script_loop _ _ [] _ _ []); [done|done|done|constructor| |constructor|lia|done|].
  - apply (begun_filled l cap []). apply begun_nil; [done|lia].
  - intros l' t' s' Hr Hf Ht. wp_step. by apply (HQ l' t').
Qed.

(** ** Properties *)


(** C26: the shell stays within its buffers.  Every script, with lines of any length
    and any number of words, runs to its end without a store or a read outside an
    array, provided that the uninitialised array holds a NUL whenever a line that
    pipes or redirects an ls comes to run while none of the files of ls exist (without
    it the shell reads past that array).  The script answers 0 and leaves in the
    output buffer a string shorter than its capacity; the file system is in order and
    every file the shell opened is closed.  The lines of the script, cut at 255
    characters, have run in order, and the string is what those that answered 0
    printed, cut to the buffer. *)
Theorem shell_run_script_safe s script l cap :
  vfs_inv s -> Forall (fun c => c <> 0) script -> zlen l = cap -> 0 < cap < 2 ^ 63 -> fed cap s [] (script_lines script []) ->
  wp (shell_run_script stack (Some script) (Some l) cap) (fun q s' =>
    q.1 = 0 /\ tidy s s' /\ exists l' t, q.2 = Some l' /\ zlen l' = cap /\ cstr_of l' = Some t /\ zlen t < cap /\
      ran cap s [] (script_lines script []) t s') s.
Proof.
  intros Hi Hs Hl Hcap Hfed. apply wp_run_script; [done..|]. intros l' t' s' Hr Hf Ht. split; [done|].
  split; [by eapply ran_tidy|]. exists l', t'.
  split_and!; [done|apply Hf|by eapply filled_cstr|apply (filled_begun _ _ _ Hf)|done].
Qed.

Lemma echo_nonzero args : Forall (Forall (fun c => c <> 0)) args -> Forall (fun c => c <> 0) (echo_text args).
Proof.
  induction 1 as [|a args Ha Hargs IH]; [by repeat constructor|]. cbn [echo_text]. apply Forall_app. split; [done|].
  apply Forall_app. split; [|done]. destruct args; by repeat constructor.
Qed.

(** The bytes of the file at a path; none when there is no such file. *)
Definition file_text s (path : list Z) : list Z := default [] (n ← target s path false; content (nodefs s) n).

Lemma found_text s path n s1 : vfs_inv s -> found s path n s1 -> default [] (content (nodefs s1) n) = file_text s path.
Proof.
  intros Hi. unfold file_text. intros [[Ht ->]|[Ht Hm]]; rewrite Ht; [done|]. rewrite (ma_content _ _ _ _ Hm). by rewrite Z.eqb_refl.
Qed.

(** What a line that redirected echo to a path leaves, a line that runs cat on it
    shows. *)
Lemma cat_after_redirect s a b args path l q s1 line2 cap2 l2 r s2 :
  vfs_inv s -> Forall (fun c => c <> 0) (a ++ REDIRECT :: b) -> halve (a ++ REDIRECT :: b) = (a, 2, b) ->
  halve line2 = (line2, 0, []) -> words (fit 128 a) = chars "echo" :: args -> zlen args < 16 ->
  words (fit 128 b) = [path] -> words (fit 128 line2) = [chars "cat"; path] ->
  line_outcome s (a ++ REDIRECT :: b) (zlen l) l q s1 -> q.1 = 0 -> line_outcome s1 line2 cap2 l2 r s2 ->
  exists l' c, r = (0, Some l') /\ filled l' cap2 (fit cap2 c) /\ c = file_text s2 path /\
    (c = file_text s path \/ c = splice (file_text s path) 0 (fit 512 (echo_text args))).
Proof.
  intros Hi Hn1 Eh1 Eh2 Ewa Hargs Ewb Ew2 Ho Hres Ho2.
  unfold line_outcome in Ho, Ho2. rewrite Eh1 in Ho. rewrite Eh2 in Ho2. destruct Ho2 as [_ Hnd2 Hr2].
  destruct Ho as (q1 & s0 & [Htd0 Hnd0 Hr0] & [(_ & -> & _)|(_ & buf & it & Ebuf & Hit & _ & Hred)]); [done|].
  assert (Es : forall s inp, simple s (fit 128 a) inp = Some (Some (echo_text args))).
  { intros s' inp. unfold simple. rewrite Ewa. rewrite Z.ltb_antisym, (proj2 (Z.leb_le _ 16)) by (unfold zlen in *; simpl; lia).
    by rewrite bool_decide_true. }
  rewrite Es in Hr0. destruct Hr0 as (l0 & -> & Hf0). injection Ebuf as <-.
  assert (Hz : Forall (fun c => c <> 0) (fit 512 (echo_text args))).
  { apply fit_nonzero, echo_nonzero. apply Forall_app in Hn1 as [Hna _]. apply Forall_lookup. intros i w Hw.
    apply (word_ok (fit 128 a) (Z.of_nat (Datatypes.S i))); [by apply fit_nonzero|]. by rewrite Ewa, arr_nat. }
  rewrite (filled_cstr _ _ _ Hf0 Hz) in Hit. injection Hit as <-.
  assert (Hsame : file_text s0 path = file_text s path) by (unfold file_text, target; by rewrite Hnd0).
  unfold redirect_outcome in Hred. rewrite Ewb, Hres in Hred. destruct Hred as [[_ [Htd1 Hfree (n & s3 & Hfound & Ht1 & Hc)]]|(? & _)]; [|done].
  assert (Hcat : cat_text s1 path = Some (file_text s1 path)).
  { unfold cat_text, file_text. rewrite Ht1. rewrite (find_free_same _ _ (td_free _ _ Htd1)). by destruct Hfree as [fd ->]. }
  unfold simple in Hr2. rewrite Ew2 in Hr2. change (16 <? zlen [chars "cat"; path]) with false in Hr2. cbv iota in Hr2.
  rewrite bool_decide_false, bool_decide_true, Hcat in Hr2 by (vm_compute; congruence). destruct Hr2 as (l' & -> & Hf).
  exists l', (file_text s1 path). split_and!; [done|done|unfold file_text, target; by rewrite Hnd2|].
  rewrite <- Hsame, <- (found_text _ _ _ _ (td_inv _ _ Htd0) Hfound). unfold file_text. rewrite Ht1. cbn [mbind option_bind].
  destruct Hc as [->|(c & Hc & Hc')]; [by left|right]. rewrite Hc', Z.eqb_refl, Hc. done.
Qed.

(** When there was no such file, the second line prints the words, or nothing; it
    prints nothing or fails when the first one failed. *)
Lemma cat_after_new_file s a b args path l q s1 line2 cap2 l2 r s2 :
  vfs_inv s -> Forall (fun c => c <> 0) (a ++ REDIRECT :: b) -> halve (a ++ REDIRECT :: b) = (a, 2, b) ->
  halve line2 = (line2, 0, []) -> words (fit 128 a) = chars "echo" :: args -> zlen args < 16 ->
  words (fit 128 b) = [path] -> words (fit 128 line2) = [chars "cat"; path] -> target s path false = None -> 0 < zlen l ->
  line_outcome s (a ++ REDIRECT :: b) (zlen l) l q s1 -> line_outcome s1 line2 cap2 l2 r s2 ->
  r.1 = -1 \/ exists l' c, r = (0, Some l') /\ filled l' cap2 (fit cap2 c) /\ c = file_text s2 path /\
    (c = [] \/ c = fit 512 (echo_text args)).
Proof.
  intros Hi Hn1 Eh1 Eh2 Ewa Hargs Ewb Ew2 Hnew Hl Ho Ho2.
  assert (Hold : file_text s path = []) by (unfold file_text; by rewrite Hnew).
  destruct (line_outcome_safe _ _ _ _ _ _ Hi eq_refl Hl Ho) as [_ [Hres|Hres] _].
  { right. destruct (cat_after_redirect _ _ _ _ _ _ _ _ _ _ _ _ _ Hi Hn1 Eh1 Eh2 Ewa Hargs Ewb Ew2 Ho Hres Ho2)
      as (l' & c & Er & Hf & Hc & Hor). exists l', c. split_and!; [done..|]. rewrite Hold in Hor.
    destruct Hor as [?| ->]; [by left|right]. unfold splice. by rewrite take_nil, drop_nil, app_nil_r. }
  unfold line_outcome in Ho, Ho2. rewrite Eh1 in Ho. rewrite Eh2 in Ho2. destruct Ho2 as [_ Hnd2 Hr2].
  assert (Hs1 : file_text s1 path = []).
  { destruct Ho as (q1 & s0 & [Htd0 Hnd0 Hr0] & Ho).
    assert (Hold0 : file_text s0 path = [] /\ target s0 path false = None).
    { unfold file_text, target in *. rewrite Hnd0. by rewrite Hnew. }
    destruct Ho as [(_ & _ & ->)|(_ & buf & it & _ & _ & _ & Hred)]; [apply Hold0|]. unfold redirect_outcome in Hred.
    rewrite Ewb, Hres in Hred. destruct Hred as [[? _]|(_ & [->|[n Hm]] & _)]; [done|apply Hold0|].
    unfold file_text. rewrite (ma_target _ _ _ _ Hm). cbn. by rewrite (ma_content _ _ _ _ Hm), Z.eqb_refl. }
  unfold simple in Hr2. rewrite Ew2 in Hr2. change (16 <? zlen [chars "cat"; path]) with false in Hr2. cbv iota in Hr2.
  rewrite bool_decide_false, bool_decide_true in Hr2 by (vm_compute; congruence).
  assert (Hcat : cat_text s1 path = None \/ cat_text s1 path = Some (file_text s1 path)).
  { unfold cat_text, file_text. destruct (target s1 path false); [|by left]. destruct (find_idx _ _); [by right|by left]. }
  destruct Hcat as [E|E]; rewrite E in Hr2; [left; by rewrite Hr2|right]. destruct Hr2 as (l' & -> & Hf).
  exists l', (file_text s1 path). split_and!; [done|done|unfold file_text, target; by rewrite Hnd2|by left].
Qed.

(** The same two lines as a script. *)
Lemma ran_new_file cap s a b args path line2 t s' :
  vfs_inv s -> Forall (fun c => c <> 0) (a ++ REDIRECT :: b) -> halve (a ++ REDIRECT :: b) = (a, 2, b) ->
  halve line2 = (line2, 0, []) -> words (fit 128 a) = chars "echo" :: args -> zlen args < 16 ->
  words (fit 128 b) = [path] -> words (fit 128 line2) = [chars "cat"; path] -> target s path false = None ->
  ran cap s [] [a ++ REDIRECT :: b; line2] t s' ->
  tidy s s' /\ (t = [] \/ t = fit cap (fit 512 (echo_text args)) /\ file_text s' path = fit 512 (echo_text args)).
Proof.
  intros Hi Hn1 Eh1 Eh2 Ewa Hargs Ewb Ew2 Hnew Hr. split; [by eapply ran_tidy|].
  inversion Hr as [|? ? ? ? q s1 t1 ? ? Ho Hsh Hr1]; subst. inversion Hr1 as [|? ? ? ? r s2 t2 ? ? Ho2 Hsh2 Hr2]; subst.
  inversion Hr2; subst. rewrite <- Hstack in Ho.
  assert (Et1 : t1 = []).
  { unfold shows in Hsh. destruct (q.1 =? 0) eqn:Eq; [|done]. destruct Hsh as (buf & o & Eb & Eo & ->).
    unfold line_outcome in Ho. rewrite Eh1 in Ho. destruct Ho as (q1 & s0 & _ & [(_ & -> & _)|(_ & buf1 & it & _ & _ & E2 & _)]); [done|].
    assert (Hz : cstr_of (upd stack 0 0) = Some []) by (destruct stack; [done|done]). rewrite E2 in Eb. injection Eb as <-.
    rewrite Hz in Eo. injection Eo as <-. unfold fit. by destruct (Z.to_nat (cap - 1)). }
  subst t1. assert (Hw : Forall (fun c => c <> 0) (fit 512 (echo_text args))).
  { apply fit_nonzero, echo_nonzero. assert (Hf : Forall (Forall (fun c => c <> 0)) (words (fit 128 a))).
    - apply Forall_forall. intros w [i Hi']%elem_arr. eapply word_ok; [|exact Hi']. apply fit_nonzero. by apply Forall_app in Hn1 as [? _].
    - rewrite Ewa in Hf. by inversion Hf. }
  destruct (cat_after_new_file _ _ _ _ _ _ _ _ _ _ _ _ _ Hi Hn1 Eh1 Eh2 Ewa Hargs Ewb Ew2 Hnew ltac:(rewrite Hstack; lia) Ho Ho2)
    as [E|(l' & c & -> & Hf & Hc & Hor)]; unfold shows in Hsh2; [rewrite E in Hsh2; by left|].
  destruct Hsh2 as (buf & o & [= <-] & Eo & ->). cbn [app]. destruct Hor as [->| ->].
  - left. assert (E0 : fit 512 [] = []) by done. rewrite E0 in Hf. rewrite (filled_cstr _ _ _ Hf) in Eo by constructor.
    injection Eo as <-. unfold fit. by destruct (Z.to_nat (cap - 1)).
  - rewrite (filled_cstr _ _ _ Hf) in Eo by (by apply fit_nonzero). injection Eo as <-. right. split; [|done]. f_equal. apply fit_small, zlen_fit. lia.
Qed.

End lines.
End spec.

(** *** A concrete machine: tmpfs mounted, with no file *)

Section examples.
#[local] Existing Instances Kheap.kheap_KHeap Tmpfs.tmpfs_Vnodes Tmpfs.tmpfs_MountedFs.

(** An uninitialised array whose bytes spell "old". *)
Definition stack0 : list Z := chars "old" ++ replicate 509 0.
Definition out0 : list Z := replicate 64 7.
Definition out512 : list Z := replicate 512 7.

Lemma stack0_nul : 0 ∈ stack0.
Proof. apply elem_of_app. right. by apply elem_of_replicate. Qed.

Lemma stack0_limit : 511 <= mf_limit (F := Tmpfs.tmpfs Kheap.kheap).
Proof. pose proof Vfs.limit_2. lia. Qed.

(** The texts that lines print, run in order from the concrete machine. *)
Fixpoint texts (lines : list (list Z)) (s : vfs (Tmpfs.tmpfs Kheap.kheap)) : list (Z * option (list Z)) :=
  match lines with
  | [] => []
  | line :: lines =>
      match shell_execute_line stack0 (Some line) (Some out0) 64 s with
      | Done q s => (q.1, q.2 ≫= cstr_of) :: texts lines s
      | Stuck _ => []
      end
  end.

Example redirect_run :
  texts [chars "echo a  b > /f"; chars "cat /f"; chars "echo c d | cat"; chars "cat /g"] Vfs.vfs1 =
  [(0, Some []); (0, Some (chars "a b" ++ [NEWLINE])); (0, Some (chars "c d" ++ [NEWLINE])); (-1, Some [])].
Proof. vm_compute. reflexivity. Qed.

(** A redirection does not truncate the file: the end of a longer old text stays. *)
Example redirect_keeps_tail :
  texts [chars "echo abcdef > /f"; chars "echo x > /f"; chars "cat /f"] Vfs.vfs1 =
  [(0, Some []); (0, Some []); (0, Some (chars "x" ++ [NEWLINE] ++ chars "cdef" ++ [NEWLINE]))].
Proof. vm_compute. reflexivity. Qed.

(** When no candidate exists, ls stores nothing, not even a NUL: the next command
    of a pipe prints what was in the array before. *)
Example ls_pipe_leaks : texts [chars "ls | cat"] Vfs.vfs1 = [(0, Some (chars "old"))].
Proof. vm_compute. reflexivity. Qed.

(** Without a NUL in the array the shell reads past its end, into a file here and
    into a buffer larger than the array below. *)
Example ls_redirect_overruns :
  shell_execute_line out512 (Some (chars "ls > /f")) (Some out0) 64 Vfs.vfs1 = Stuck OutOfBounds.
Proof. vm_compute. reflexivity. Qed.

Example ls_pipe_overruns :
  shell_execute_line out512 (Some (chars "ls | cat")) (Some (replicate 600 7)) 600 Vfs.vfs1 = Stuck OutOfBounds.
Proof. vm_compute. reflexivity. Qed.

(** A line of more than sixteen words answers success and prints nothing. *)
Example too_many_words : texts [chars "echo 1 2 3 4 5 6 7 8 9 a b c d e f g"] Vfs.vfs1 = [(0, Some [])].
Proof. vm_compute. reflexivity. Qed.

(** A script line of more than 255 characters is run in two pieces, and the character
    between them is lost: this one should print "XY". *)
Example long_line_cut :
  match shell_run_script stack0 (Some (chars "echo" ++ replicate 251 32 ++ chars "XY")) (Some out0) 64 Vfs.vfs1 with
  | Done q _ => q.2 ≫= cstr_of = Some [NEWLINE]
  | Stuck _ => False
  end.
Proof. vm_compute. reflexivity. Qed.


(** Any array will do for a script that pipes no ls. *)
Definition script0 : list Z := chars "echo hi > /motd" ++ [NEWLINE] ++ chars "ls" ++ [NEWLINE] ++ chars "cat /motd | cat".

Lemma shell_run_script_witness :
  wp (shell_run_script out512 (Some script0) (Some out0) 64) (fun q s' =>
    q.1 = 0 /\ tidy Vfs.vfs1 s' /\ exists l' t, q.2 = Some l' /\ zlen l' = 64 /\ cstr_of l' = Some t /\ zlen t < 64 /\
      ran out512 64 Vfs.vfs1 [] (script_lines script0 []) t s') Vfs.vfs1.
Proof.
  apply (shell_run_script_safe out512 eq_refl stack0_limit Vfs.vfs1 script0 out0 64);
    [exact Vfs.vfs1_inv|apply (bool_decide_unpack _); vm_compute; exact I|reflexivity|lia|apply fed_plain; vm_compute; reflexivity].
Defined.

End examples.

End Shell.
