(* ===== verification/Syscall.v ===== *)
(** * System calls ([kernel/syscall/syscall.c])

    The dispatcher and its eleven handlers over processes ([Task]), descriptors
    ([Fd]), files ([Vfs]) and the registry of programs ([Exec]).  The components
    share their state as in the kernel: the descriptors live in the task table.
    Pointers of the caller are addresses into its memory, a partial map from
    addresses to bytes.  The handlers follow them unchecked: an access to an
    address that is not in the map, be it unmapped or the kernel's own, is the
    fault [BadAddress]. *)

From S2P Require Import Prelude Interfaces Kheap Task Fd Fs Tmpfs Vfs Exec.

Module Syscall.
Import Task Fd.
#[local] Existing Instance Vfs.vfs_FileSys.

(** ** Memory of the caller *)

Abbreviation memory := (gmap Z Z).

(** Whether the program has all of the [n] bytes from [a] on. *)
Definition mapped (m : memory) (a n : Z) : bool := forallb (fun x => bool_decide (is_Some (m !! x))) (upto a (a + n)).

Definition byte_at (m : memory) (a : Z) : Z := default 0 (m !! a).

(** The [n] bytes from [a] on, where the program has them. *)
Definition bytes_at (m : memory) (a n : Z) : list Z := byte_at m <$> upto a (a + n).

Fixpoint put_bytes (m : memory) (a : Z) (bs : list Z) : memory :=
  match bs with
  | [] => m
  | b :: bs => put_bytes (<[a := b]> m) (a + 1) bs
  end.

(** An [int32_t] in memory. *)
Definition le32 (v : Z) : list Z :=
  let u := u32 v in [u `mod` 256; (u / 256) `mod` 256; (u / 65536) `mod` 256; (u / 16777216) `mod` 256].

Definition put_i32 (m : memory) (a v : Z) : memory := put_bytes m a (le32 v).

Definition i32_at (m : memory) (a : Z) : Z :=
  i32 (byte_at m a + 256 * (byte_at m (a + 1) + 256 * (byte_at m (a + 2) + 256 * byte_at m (a + 3)))).

(** A pointer in memory. *)
Definition ptr_at (m : memory) (a : Z) : Z := foldr (fun i acc => byte_at m (a + i) + 256 * acc) 0 (upto 0 8).

(** The characters from [a] to the NUL, if the program has them all; a string has
    fewer characters than there are bytes in memory. *)
Fixpoint str_from (fuel : nat) (m : memory) (a : Z) : option (list Z) :=
  match fuel with
  | O => None
  | S fuel =>
      match m !! a with
      | None => None
      | Some b => if b =? 0 then Some [] else cons b <$> str_from fuel m (a + 1)
      end
  end.

Definition str_at (m : memory) (a : Z) : option (list Z) := str_from (base.size m) m a.

(** The pointers from [a] to the null pointer, at most [n], if the program has
    them all. *)
Fixpoint ptrs_at (n : nat) (m : memory) (a : Z) : option (list Z) :=
  match n with
  | O => Some []
  | S n =>
      if negb (mapped m a 8) then None
      else if ptr_at m a =? 0 then Some [] else cons (ptr_at m a) <$> ptrs_at n m (a + 8)
  end.

(** ** State *)

Definition NM_SYSCALL_MAX : Z := 128.

Inductive nm_syscall_nr :=
  | NM_SYS_GETPID | NM_SYS_WRITE | NM_SYS_READ | NM_SYS_CLOSE | NM_SYS_EXIT | NM_SYS_WAITPID
  | NM_SYS_PIPE | NM_SYS_DUP2 | NM_SYS_FORK | NM_SYS_EXEC | NM_SYS_FD_CLOEXEC.

Definition number (n : nm_syscall_nr) : Z :=
  match n with
  | NM_SYS_GETPID => 0 | NM_SYS_WRITE => 1 | NM_SYS_READ => 2 | NM_SYS_CLOSE => 3 | NM_SYS_EXIT => 4
  | NM_SYS_WAITPID => 5 | NM_SYS_PIPE => 6 | NM_SYS_DUP2 => 7 | NM_SYS_FORK => 8 | NM_SYS_EXEC => 9
  | NM_SYS_FD_CLOEXEC => 10
  end.

(** A handler: the address of one of the functions below. *)
Inductive handler :=
  | Sys_getpid | Sys_write | Sys_read | Sys_close | Sys_exit | Sys_waitpid | Sys_pipe | Sys_dup2
  | Sys_fork | Sys_exec | Sys_fd_cloexec.

(** The table of handlers, the data of the components, the bytes of the addresses
    that belong to programs, and the characters sent to the console. *)
Record kernel (H F : Type) := mk_kernel {
  syscall_table : list (option handler);
  k_proc : proc H;
  k_pipes : list nm_pipe;
  k_objs : list nm_fdobj;
  k_fd_lock : Z;
  k_vfs : Vfs.vfs F;
  k_mem : memory;
  k_console : list Z;
}.
#[global] Arguments mk_kernel {H F} _ _ _ _ _ _ _ _.
#[global] Arguments syscall_table {H F} _.
#[global] Arguments k_proc {H F} _.
#[global] Arguments k_pipes {H F} _.
#[global] Arguments k_objs {H F} _.
#[global] Arguments k_fd_lock {H F} _.
#[global] Arguments k_vfs {H F} _.
#[global] Arguments k_mem {H F} _.
#[global] Arguments k_console {H F} _.

Section Ops.
Context {H F : Type} `{KHeap H, !Vnodes F, !MountedFs F}.
Abbreviation K := (kernel H F).

Definition set_syscall_table t (k : K) : K :=
  mk_kernel t (k_proc k) (k_pipes k) (k_objs k) (k_fd_lock k) (k_vfs k) (k_mem k) (k_console k).
Definition set_k_proc p (k : K) : K :=
  mk_kernel (syscall_table k) p (k_pipes k) (k_objs k) (k_fd_lock k) (k_vfs k) (k_mem k) (k_console k).
Definition set_k_mem m (k : K) : K :=
  mk_kernel (syscall_table k) (k_proc k) (k_pipes k) (k_objs k) (k_fd_lock k) (k_vfs k) m (k_console k).
Definition set_k_console c (k : K) : K :=
  mk_kernel (syscall_table k) (k_proc k) (k_pipes k) (k_objs k) (k_fd_lock k) (k_vfs k) (k_mem k) c.
Definition set_k_vfs v (k : K) : K :=
  mk_kernel (syscall_table k) (k_proc k) (k_pipes k) (k_objs k) (k_fd_lock k) v (k_mem k) (k_console k).

(** What [fd.c] sees of the kernel: the task table, its own data and the files. *)
Definition fds (k : K) : fdst (Vfs.vfs F) :=
  mk_fdst (task_table (k_proc k)) (k_pipes k) (k_objs k) (k_fd_lock k) (k_vfs k).
Definition set_fds (f : fdst (Vfs.vfs F)) (k : K) : K :=
  mk_kernel (syscall_table k) (Task.set_table (fd_tasks f) (k_proc k)) (pipe_table f) (fdobj_table f)
    (fd_lock_word f) (fd_fs f) (k_mem k) (k_console k).

Definition on_proc {A} (c : M (proc H) A) : M K A := lift_to k_proc set_k_proc c.
Definition on_fd {A} (c : M (fdst (Vfs.vfs F)) A) : M K A := lift_to fds set_fds c.
Definition on_vfs {A} (c : M (Vfs.vfs F) A) : M K A := lift_to k_vfs set_k_vfs c.
Definition mod_mem (f : memory -> memory) : M K unit := modify (fun k => set_k_mem (f (k_mem k)) k).
Definition console_putc (c : Z) : M K unit := modify (fun k => set_k_console (k_console k ++ [c]) k).

(** ** Accesses through a pointer of the caller *)

(** The [n] bytes from [a] on are accessed. *)
Definition touch (a n : Z) : M K unit := m ← gets k_mem; if mapped m a n then mret tt else stuck BadAddress.

Definition store (a : Z) (bs : list Z) : M K unit := touch a (zlen bs) ;; mod_mem (fun m => put_bytes m a bs).

Definition load_byte (a : Z) : M K Z :=
  m ← gets k_mem;
  match m !! a with Some b => mret b | None => stuck BadAddress end.

Definition load_str (a : Z) : M K (list Z) :=
  m ← gets k_mem;
  match str_at m a with Some s => mret s | None => stuck BadAddress end.

(** A vector of strings, as [count_ptr_vector] looks at it. *)
Definition load_vec (a : Z) : M K (option ptrvec) :=
  if a =? 0 then mret None else
  m ← gets k_mem;
  match ptrs_at 64 m a with Some l => mret (Some (mk_vec a l)) | None => stuck BadAddress end.

(** ** Handlers *)

Definition sys_getpid : M K Z :=
  cur ← on_proc task_current;
  match cur with
  | None => mret (NM_ERR NM_EFAIL)
  | Some c => t ← on_proc (get_task c); mret (pid t)
  end.

(** The write takes the first [n] bytes of the buffer, and no more; none when it
    fails, which is the touch of a negative number of bytes. *)
Definition sys_write (fd buf len : Z) : M K Z :=
  if buf =? 0 then mret (NM_ERR NM_EINVAL) else
  cur ← on_proc task_current;
  match cur with
  | None => mret (NM_ERR NM_EFAIL)
  | Some c =>
      m ← gets k_mem;
      n ← on_fd (nm_fd_write (Some c) (i32 fd) (Some (bytes_at m buf len)) len);
      touch buf n ;;
      if 0 <=? n then mret n else
      if negb (fd =? 1) then mret (NM_ERR NM_EFAIL) else
      for_all (upto 0 len) (fun i => b ← load_byte (buf + i); console_putc b) ;;
      mret (i64 len)
  end.

Definition sys_read (fd buf len : Z) : M K Z :=
  if buf =? 0 then mret (NM_ERR NM_EINVAL) else
  cur ← on_proc task_current;
  match cur with
  | None => mret (NM_ERR NM_EFAIL)
  | Some c =>
      r ← on_fd (nm_fd_read (Some c) (i32 fd) true len);
      store buf r.2 ;;
      mret r.1
  end.

Definition sys_close (fd : Z) : M K Z :=
  cur ← on_proc task_current;
  match cur with
  | None => mret (NM_ERR NM_EFAIL)
  | Some c => if NM_MAX_FDS <=? fd then mret (NM_ERR NM_EFAIL) else on_fd (nm_fd_close (Some c) (i32 fd))
  end.

Definition sys_exit (code : Z) : M K Z := on_proc (proc_exit_current (i32 code)) ;; mret 0.

Definition sys_waitpid (pid status_ptr : Z) : M K Z :=
  r ← on_proc (proc_waitpid (i32 pid) true);
  if r.1 <? 0 then mret (NM_ERR NM_EFAIL) else
  (if negb (status_ptr =? 0) then store status_ptr (le32 (default 0 r.2)) else mret tt) ;;
  mret r.1.

Definition sys_pipe (fds_ptr : Z) : M K Z :=
  cur ← on_proc task_current;
  match cur with
  | None => mret (NM_ERR NM_EINVAL)
  | Some c =>
      if fds_ptr =? 0 then mret (NM_ERR NM_EINVAL) else
      r ← on_fd (nm_fd_pipe (Some c) true);
      if negb (r.1 =? 0) then mret (NM_ERR NM_EFAIL) else
      let '(rd, wr) := default (-1, -1) r.2 in
      store fds_ptr (le32 rd) ;;
      store (fds_ptr + 4) (le32 wr) ;;
      mret 0
  end.

Definition sys_dup2 (oldfd newfd : Z) : M K Z :=
  cur ← on_proc task_current;
  match cur with
  | None => mret (NM_ERR NM_EFAIL)
  | Some c =>
      if (NM_MAX_FDS <=? oldfd) || (NM_MAX_FDS <=? newfd) then mret (NM_ERR NM_EFAIL)
      else on_fd (nm_fd_dup2 (Some c) (i32 oldfd) (i32 newfd))
  end.

Definition sys_fd_cloexec (fd enabled : Z) : M K Z :=
  cur ← on_proc task_current;
  match cur with
  | None => mret (NM_ERR NM_EFAIL)
  | Some c =>
      if NM_MAX_FDS <=? fd then mret (NM_ERR NM_EFAIL) else
      if (enabled =? 0) || (enabled =? 1) then on_fd (nm_fd_set_cloexec (Some c) (i32 fd) (negb (enabled =? 0))) else
      if enabled =? 2 then on_fd (nm_fd_get_cloexec (Some c) (i32 fd)) else mret (NM_ERR NM_EINVAL)
  end.

Definition sys_fork : M K Z :=
  parent ← on_proc task_current;
  match parent with
  | None => mret (NM_ERR NM_EFAIL)
  | Some p =>
      child ← on_proc proc_fork_current;
      match child with
      | None => mret (NM_ERR NM_EFAIL)
      | Some c =>
          on_fd (nm_fd_on_fork_child (Some c)) ;;
          x ← on_proc (get_task c);
          on_proc (mod_task p (fun t => set_regs (set_rax (u64 (pid x)) (regs t)) t)) ;;
          x ← on_proc (get_task c);
          mret (pid x)
      end
  end.

(** The entry point that [sys_exec] takes, and the argument vector it passes on. *)
Definition exec_target (resolved argv_ptr envp_ptr a4 : Z) : Z * Z :=
  if negb (argv_ptr =? 0) && (envp_ptr =? 0) && (a4 =? 0) && (argv_ptr <? 1048576) then (argv_ptr, 0)
  else if negb (a4 =? 0) then (a4, argv_ptr) else (resolved, argv_ptr).

(** The vectors are looked at by [proc_exec_current], when there is a task. *)
Definition sys_exec (name_ptr argv_ptr envp_ptr a4 : Z) : M K Z :=
  if name_ptr =? 0 then mret (NM_ERR NM_EFAIL) else
  name ← load_str name_ptr;
  st ← on_vfs (Vfs.fs_stat (Some name) true);
  if negb (st.1 =? 0) then mret (NM_ERR NM_EFAIL) else
  r ← Exec.nm_exec_resolve_entry (Some name) true;
  let resolved := if negb (r.1 =? 0) then 0 else default 0 r.2 in
  let '(final_entry, argv) := exec_target resolved argv_ptr envp_ptr a4 in
  if final_entry =? 0 then mret (NM_ERR NM_EFAIL) else
  cur ← on_proc task_current;
  on_fd (nm_fd_close_on_exec cur) ;;
  vecs ← (if bool_decide (cur = None) then mret (None, None) else
          v ← load_vec argv; w ← load_vec envp_ptr; mret (v, w));
  on_proc (proc_exec_current (Some (mk_cstr name_ptr name)) final_entry vecs.1 vecs.2).

(** ** The table *)

Definition syscall_register (nr : Z) (fn : option handler) : M K Z :=
  if (NM_SYSCALL_MAX <=? nr) || bool_decide (fn = None) then mret (NM_ERR NM_EFAIL) else
  wr syscall_table set_syscall_table nr fn ;; mret 0.

Definition syscall_init : M K unit :=
  for_all (upto 0 NM_SYSCALL_MAX) (fun i => wr syscall_table set_syscall_table i None) ;;
  on_fd nm_fd_init ;;
  syscall_register (number NM_SYS_GETPID) (Some Sys_getpid) ;;
  syscall_register (number NM_SYS_WRITE) (Some Sys_write) ;;
  syscall_register (number NM_SYS_READ) (Some Sys_read) ;;
  syscall_register (number NM_SYS_CLOSE) (Some Sys_close) ;;
  syscall_register (number NM_SYS_EXIT) (Some Sys_exit) ;;
  syscall_register (number NM_SYS_WAITPID) (Some Sys_waitpid) ;;
  syscall_register (number NM_SYS_PIPE) (Some Sys_pipe) ;;
  syscall_register (number NM_SYS_DUP2) (Some Sys_dup2) ;;
  syscall_register (number NM_SYS_FORK) (Some Sys_fork) ;;
  syscall_register (number NM_SYS_EXEC) (Some Sys_exec) ;;
  syscall_register (number NM_SYS_FD_CLOEXEC) (Some Sys_fd_cloexec) ;;
  mret tt.

(** The call through the pointer. *)
Definition run_handler (h : handler) (a1 a2 a3 a4 : Z) : M K Z :=
  match h with
  | Sys_getpid => sys_getpid
  | Sys_write => sys_write a1 a2 a3
  | Sys_read => sys_read a1 a2 a3
  | Sys_close => sys_close a1
  | Sys_exit => sys_exit a1
  | Sys_waitpid => sys_waitpid a1 a2
  | Sys_pipe => sys_pipe a1
  | Sys_dup2 => sys_dup2 a1 a2
  | Sys_fork => sys_fork
  | Sys_exec => sys_exec a1 a2 a3 a4
  | Sys_fd_cloexec => sys_fd_cloexec a1 a2
  end.

Definition syscall_dispatch (nr arg1 arg2 arg3 arg4 arg5 arg6 : Z) : M K Z :=
  if NM_SYSCALL_MAX <=? nr then mret (NM_ERR NM_ENOSYS) else
  fn ← rd syscall_table nr;
  match fn with
  | None => mret (NM_ERR NM_ENOSYS)
  | Some h => run_handler h arg1 arg2 arg3 arg4
  end.

End Ops.

(** ** Values in memory *)

Lemma zlen_bytes_at m a n : 0 <= n -> zlen (bytes_at m a n) = n.
Proof. intros. unfold bytes_at, zlen. rewrite length_fmap. pose proof (zlen_upto a (a + n)). unfold zlen in *. lia. Qed.

Lemma put_bytes_at m a bs x :
  put_bytes m a bs !! x = if (a <=? x) && (x <? a + zlen bs) then arr bs (x - a) else m !! x.
Proof.
  revert m a. induction bs as [|b bs IH]; intros m a; simpl.
  { change (zlen (@nil Z)) with 0. destruct (Z.leb_spec a x), (Z.ltb_spec x (a + 0)); try lia; done. }
  rewrite IH. assert (Hz : zlen (b :: bs) = zlen bs + 1) by (unfold zlen; simpl; lia). rewrite Hz.
  assert (0 <= zlen bs) by (unfold zlen; lia). destruct (decide (x = a)) as [->|Hne].
  - rewrite lookup_insert_eq, Z.sub_diag. rewrite arr_cons_0.
    destruct (Z.leb_spec (a + 1) a), (Z.leb_spec a a), (Z.ltb_spec a (a + (zlen bs + 1))); done || lia.
  - rewrite lookup_insert_ne by done. replace (x - a) with (x - (a + 1) + 1) by lia.
    destruct (Z.leb_spec (a + 1) x), (Z.leb_spec a x); try lia; [|done]. simpl.
    rewrite arr_cons_S by lia. replace (a + (zlen bs + 1)) with (a + 1 + zlen bs) by lia. done.
Qed.

Lemma bytes_at_put m a bs : bytes_at (put_bytes m a bs) a (zlen bs) = bs.
Proof.
  assert (0 <= zlen bs) by (unfold zlen; lia).
  apply arr_ext; [by apply zlen_bytes_at|]. intros j. unfold bytes_at. rewrite arr_fmap. unfold upto.
  destruct (decide (0 <= j < zlen bs)) as [Hj|Hj].
  - assert (E : arr (seqZ a (a + zlen bs - a)) j = Some (a + j)).
    { unfold arr. destruct (Z.leb_spec 0 j); [|lia]. rewrite lookup_seqZ_lt by lia. f_equal. lia. }
    rewrite E. simpl. unfold byte_at. rewrite put_bytes_at.
    destruct (Z.leb_spec a (a + j)), (Z.ltb_spec (a + j) (a + zlen bs)); try lia. simpl. replace (a + j - a) with j by lia.
    destruct (arr_lookup bs j Hj) as [b ->]. done.
  - rewrite !arr_none; [done|done|]. unfold zlen in *. rewrite length_seqZ. lia.
Qed.

Lemma bytes_at_other m a bs b n : b + n <= a \/ a + zlen bs <= b -> bytes_at (put_bytes m a bs) b n = bytes_at m b n.
Proof.
  intros Hd. unfold bytes_at. apply list_fmap_ext. intros i x Hx%list_elem_of_lookup_2%elem_of_upto.
  unfold byte_at. rewrite put_bytes_at. destruct (Z.leb_spec a x), (Z.ltb_spec x (a + zlen bs)); done || lia.
Qed.

(** An [int32_t] is read back as it was stored. *)
Lemma byte_of_i32 m a v j b : 0 <= j -> le32 v !! Z.to_nat j = Some b -> byte_at (put_i32 m a v) (a + j) = b.
Proof.
  intros Hj Hb. unfold byte_at, put_i32. rewrite put_bytes_at. pose proof (lookup_lt_Some _ _ _ Hb) as Hl.
  destruct (Z.leb_spec a (a + j)), (Z.ltb_spec (a + j) (a + zlen (le32 v))); unfold zlen in *; try lia.
  cbn [andb]. replace (a + j - a) with j by lia. unfold arr. destruct (Z.leb_spec 0 j); [|lia]. by rewrite Hb.
Qed.

Lemma i32_at_put m a v : -2147483648 <= v < 2147483648 -> i32_at (put_i32 m a v) a = v.
Proof.
  intros Hv. unfold i32_at. rewrite <- (Z.add_0_r a) at 2. rewrite (byte_of_i32 m a v 0 (u32 v `mod` 256)) by done.
  rewrite (byte_of_i32 m a v 1 ((u32 v / 256) `mod` 256)), (byte_of_i32 m a v 2 ((u32 v / 65536) `mod` 256)),
    (byte_of_i32 m a v 3 ((u32 v / 16777216) `mod` 256)) by done.
  pose proof (u32_range v) as Hu. unfold is_u32 in Hu. set (u := u32 v) in *.
  assert (E : u `mod` 256 + 256 * ((u / 256) `mod` 256 + 256 * ((u / 65536) `mod` 256 + 256 * ((u / 16777216) `mod` 256))) = u).
  { clear -Hu. change 65536 with (256 * 256). change 16777216 with (256 * 256 * 256). rewrite <- !Z.div_div by lia.
    Z.to_euclidean_division_equations; lia. }
  rewrite E. unfold u, i32, u32. clear -Hv. Z.to_euclidean_division_equations; lia.
Qed.

Lemma i32_at_other m a v b : b + 4 <= a \/ a + 4 <= b -> i32_at (put_i32 m a v) b = i32_at m b.
Proof.
  intros Hd. unfold i32_at, put_i32, byte_at. rewrite !put_bytes_at. change (zlen (le32 v)) with 4.
  repeat match goal with |- context [(a <=? ?x) && (?x <? a + 4)] =>
    destruct (Z.leb_spec a x), (Z.ltb_spec x (a + 4)); try lia; cbn [andb] end; done.
Qed.

Lemma mapped_spec m a n : mapped m a n = true <-> forall x, a <= x < a + n -> is_Some (m !! x).
Proof.
  unfold mapped. rewrite forallb_forall. split.
  - intros Hm x Hx. eapply bool_decide_eq_true. apply Hm. by apply list_elem_of_In, elem_of_upto.
  - intros Hm x Hx%list_elem_of_In%elem_of_upto. apply bool_decide_eq_true. by apply Hm.
Qed.

Lemma mapped_sub m a n b k : mapped m a n = true -> a <= b -> b + k <= a + n -> mapped m b k = true.
Proof. rewrite !mapped_spec. intros Hm ? ? x Hx. apply Hm. lia. Qed.

(** A store takes no address away. *)
Lemma mapped_put m a bs b n : mapped m b n = true -> mapped (put_bytes m a bs) b n = true.
Proof.
  rewrite !mapped_spec. intros Hm x Hx. rewrite put_bytes_at. destruct (Z.leb_spec a x); [|by apply Hm].
  destruct (Z.ltb_spec x (a + zlen bs)); [|by apply Hm]. apply arr_lookup. lia.
Qed.

(** The bytes from [a] on are the characters of [s] and a NUL. *)
Definition holds_string (m : memory) (a : Z) (s : list Z) : Prop :=
  mapped m a (zlen s + 1) = true /\ bytes_at m a (zlen s + 1) = s ++ [0] /\ Forall (fun c => c <> 0) s.

Lemma bytes_cons m a n : 0 <= n -> bytes_at m a (n + 1) = byte_at m a :: bytes_at m (a + 1) n.
Proof. intros Hn. unfold bytes_at. rewrite upto_cons by lia. by replace (a + (n + 1)) with (a + 1 + n) by lia. Qed.

Lemma mem_bytes_snoc m a n : 0 <= n -> bytes_at m a (n + 1) = bytes_at m a n ++ [byte_at m (a + n)].
Proof.
  intros Hn. unfold bytes_at. rewrite (upto_app a (a + n) (a + (n + 1))) by lia.
  rewrite (upto_cons (a + n) (a + (n + 1))), (upto_nil (a + n + 1)) by lia. by rewrite fmap_app.
Qed.

Lemma bytes_nil m a : bytes_at m a 0 = [].
Proof. unfold bytes_at. by rewrite upto_nil by lia. Qed.

Lemma zlen_S {A} (x : A) l : zlen (x :: l) = zlen l + 1.
Proof. unfold zlen. simpl. lia. Qed.

Lemma holds_head m a n : 0 <= n -> mapped m a (n + 1) = true -> m !! a = Some (byte_at m a).
Proof. intros Hn Hm. unfold byte_at. destruct (proj1 (mapped_spec _ _ _) Hm a) as [x ->]; [lia|done]. Qed.

Lemma holds_tail m a c s : holds_string m a (c :: s) -> m !! a = Some c /\ c <> 0 /\ holds_string m (a + 1) s.
Proof.
  intros (Hm & Hb & [Hc Hz]%Forall_cons). rewrite zlen_S in *. assert (0 <= zlen s) by (unfold zlen; lia).
  rewrite bytes_cons in Hb by lia. simpl in Hb. injection Hb as Hb1 Hb2. rewrite <- Hb1 at 1.
  split_and!; [eapply holds_head; [|done]; lia|done|]. split_and!; [|done|done]. eapply mapped_sub; [done|lia..].
Qed.

Lemma str_from_holds m s : forall fuel a, (length s < fuel)%nat -> holds_string m a s -> str_from fuel m a = Some s.
Proof.
  induction s as [|c s IH]; intros [|fuel] a Hf Hs; simpl in *; try lia.
  - destruct Hs as (Hm & Hb & _). change (zlen (@nil Z) + 1) with (0 + 1) in *. rewrite bytes_cons in Hb by done.
    injection Hb as Hb. rewrite (holds_head m a 0), Hb by done. done.
  - destruct (holds_tail _ _ _ _ Hs) as (-> & Hc & Hs'). destruct (Z.eqb_spec c 0); [done|]. rewrite (IH fuel); [done|lia|done].
Qed.

Lemma str_from_sound fuel m a s : str_from fuel m a = Some s -> holds_string m a s.
Proof.
  revert a s. induction fuel as [|fuel IH]; intros a s; simpl; [done|].
  destruct (m !! a) as [b|] eqn:Eb; [|done]. assert (Hb : byte_at m a = b) by (unfold byte_at; by rewrite Eb).
  destruct (Z.eqb_spec b 0) as [->|Hb0].
  { intros [= <-]. unfold holds_string. change (zlen (@nil Z) + 1) with (0 + 1). split_and!; [|by rewrite bytes_cons, Hb, bytes_nil|done].
    apply mapped_spec. intros x Hx. replace x with a by lia. eauto. }
  destruct (str_from fuel m (a + 1)) as [s'|] eqn:Es; [|done]. intros [= <-]. destruct (IH _ _ Es) as (Hm & Hby & Hz).
  assert (0 <= zlen s') by (unfold zlen; lia). rewrite mapped_spec in Hm.
  unfold holds_string. rewrite !zlen_S. split_and!; [|by rewrite bytes_cons, Hb, Hby by lia|by constructor].
  apply mapped_spec. intros x Hx. destruct (decide (x = a)) as [->|]; [eauto|]. apply Hm. lia.
Qed.

(** [str_at] finds the string at an address whenever there is one. *)
Lemma str_at_iff m a s : str_at m a = Some s <-> holds_string m a s.
Proof.
  split; [apply str_from_sound|]. intros Hs. apply str_from_holds; [|done]. destruct Hs as [Hm _]. rewrite mapped_spec in Hm.
  assert (Hsub : list_to_set (C := gset Z) (upto a (a + (zlen s + 1))) ⊆ dom m).
  { intros b Hb. apply elem_of_list_to_set, elem_of_upto in Hb. apply elem_of_dom. by apply Hm. }
  apply subseteq_size in Hsub. rewrite size_list_to_set, size_dom in Hsub by apply NoDup_upto.
  pose proof (zlen_upto a (a + (zlen s + 1))). unfold zlen in *. lia.
Qed.

(** The vector at [a]: no pointers at the null address, else the pointers before
    the null pointer, or the first [n] of them. *)
Definition vector (n : Z) (m : memory) (a : Z) (l : list Z) : Prop :=
  (a = 0 /\ l = []) \/
  (a <> 0 /\ zlen l <= n /\ mapped m a (8 * Z.min n (zlen l + 1)) = true /\
   (forall i p, arr l i = Some p -> p <> 0 /\ ptr_at m (a + 8 * i) = p) /\
   (zlen l < n -> ptr_at m (a + 8 * zlen l) = 0)).

Lemma ptrs_at_sound n m a l : ptrs_at n m a = Some l -> a <> 0 -> vector (Z.of_nat n) m a l.
Proof.
  intros Hl Ha. right. split; [done|]. clear Ha. revert a l Hl. induction n as [|n IH]; intros a l; simpl.
  { intros [= <-]. change (zlen (@nil Z)) with 0. split_and!; [done|apply mapped_spec; lia|intros ? ? Hx%arr_range; unfold zlen in Hx; simpl in Hx; lia|done]. }
  destruct (mapped m a 8) eqn:Em; [|done]. cbn [negb]. pose proof (proj1 (mapped_spec _ _ _) Em) as Hm.
  destruct (Z.eqb_spec (ptr_at m a) 0) as [E0|E0].
  { intros [= <-]. change (zlen (@nil Z)) with 0. replace (Z.min (Z.of_nat (S n)) (0 + 1)) with 1 by lia.
    split_and!; [lia|done|intros ? ? Hx%arr_range; unfold zlen in Hx; simpl in Hx; lia|]. intros _. by replace (a + 8 * 0) with a by lia. }
  destruct (ptrs_at n m (a + 8)) as [l'|] eqn:El; [|done]. intros [= <-].
  destruct (IH _ _ El) as (Hn & Hm' & Hp & Hend). assert (0 <= zlen l') by (unfold zlen; lia). rewrite !zlen_S.
  rewrite mapped_spec in Hm'. split_and!; [lia| | |].
  - apply mapped_spec. intros x Hx. destruct (decide (x < a + 8)); [apply Hm; lia|]. apply Hm'. lia.
  - intros i p Hi. destruct (decide (i = 0)) as [->|].
    + rewrite arr_cons_0 in Hi. injection Hi as <-. by replace (a + 8 * 0) with a by lia.
    + pose proof (arr_range _ _ _ Hi). replace i with (i - 1 + 1) in Hi by lia. rewrite arr_cons_S in Hi by lia.
      replace (a + 8 * i) with (a + 8 + 8 * (i - 1)) by lia. by apply Hp.
  - intros Hlt. replace (a + 8 * (zlen l' + 1)) with (a + 8 + 8 * zlen l') by lia. apply Hend. lia.
Qed.

Lemma ptrs_at_complete n m a l : vector (Z.of_nat n) m a l -> a <> 0 -> ptrs_at n m a = Some l.
Proof.
  intros [[? _]|(_ & Hl)] Ha; [done|]. clear Ha. revert a l Hl. induction n as [|n IH]; intros a l (Hn & Hm & Hp & Hend); simpl.
  { destruct l; [done|]. unfold zlen in Hn. simpl in Hn. lia. }
  assert (0 <= zlen l) by (unfold zlen; lia). rewrite (mapped_sub _ _ _ a 8 Hm) by lia. cbn [negb]. destruct l as [|q l].
  - change (zlen (@nil Z)) with 0 in Hend. replace (a + 8 * 0) with a in Hend by lia. by rewrite Hend by lia.
  - destruct (Hp 0 q (arr_cons_0 _ _)) as [Hq <-]. replace (a + 8 * 0) with a in * by lia.
    destruct (Z.eqb_spec (ptr_at m a) 0); [done|]. rewrite zlen_S in *. rewrite (IH (a + 8) l); [done|]. split_and!; [lia| | |].
    + eapply mapped_sub; [exact Hm|lia..].
    + intros i p Hi. pose proof (arr_range _ _ _ Hi). replace (a + 8 + 8 * i) with (a + 8 * (i + 1)) by lia.
      apply Hp. by rewrite arr_cons_S by lia.
    + intros Hlt. replace (a + 8 + 8 * zlen l) with (a + 8 * (zlen l + 1)) by lia. apply Hend. lia.
Qed.

(** ** Calls that may stop at a bad address *)

(** [safe bad c Q s]: [c] finishes as [Q] says, or is stuck at a bad address, and
    that only if [bad]. *)
Definition safe {S A} (bad : Prop) (c : M S A) (Q : A -> S -> Prop) (s : S) : Prop :=
  match c s with
  | Done a s' => Q a s'
  | Stuck BadAddress => bad
  | Stuck _ => False
  end.

Section Safe.
Context {S A B : Type} (bad : Prop).
Implicit Types (s : S).

Lemma safe_of_wp (c : M S A) Q s : wp c Q s -> safe bad c Q s.
Proof. unfold safe, wp. by destruct (c s). Qed.

Lemma safe_bind (c : M S A) (k : A -> M S B) Q s : safe bad c (fun a s' => safe bad (k a) Q s') s -> safe bad (c ≫= k) Q s.
Proof. unfold safe, mbind, M_bind. by destruct (c s). Qed.

Lemma safe_mono (c : M S A) (Q Q' : A -> S -> Prop) s : safe bad c Q s -> (forall a s', Q a s' -> Q' a s') -> safe bad c Q' s.
Proof. unfold safe. destruct (c s); auto. Qed.

Lemma safe_done (c : M S A) Q s a s' : safe bad c Q s -> c s = Done a s' -> Q a s'.
Proof. unfold safe. intros Hs E. by rewrite E in Hs. Qed.

(** Without a bad address it is a weakest precondition. *)
Lemma wp_of_safe (c : M S A) Q s : safe False c Q s -> wp c Q s.
Proof. unfold safe, wp. destruct (c s) as [|[]]; done. Qed.

End Safe.

Lemma safe_for_all {S} bad (I : Z -> S -> Prop) (body : Z -> M S unit) a b Q s :
  a <= b -> I a s -> (forall i t, a <= i < b -> I i t -> safe bad (body i) (fun _ t' => I (i + 1) t') t) ->
  (forall t, I b t -> Q tt t) -> safe bad (for_all (upto a b) body) Q s.
Proof.
  intros Hab. remember (Z.to_nat (b - a)) as n eqn:En. revert a s Hab En.
  induction n as [|n IH]; intros a s Hab En HI Hstep Hend.
  - rewrite upto_nil by lia. change (Q tt s). apply Hend. by replace b with a by lia.
  - rewrite upto_cons by lia. simpl. apply safe_bind. eapply safe_mono; [apply Hstep; [lia|done]|].
    intros ? t Ht. apply IH; [lia|lia|done| |done]. intros. apply Hstep; [lia|done].
Qed.

(** The step of [wp_step] for [safe]: the command in front, which is not an access
    to memory, must finish. *)
Ltac safe_step :=
  lazymatch goal with
  | |- safe _ (mbind _ _) _ _ => apply safe_bind, safe_of_wp
  | |- safe _ _ _ _ => apply safe_of_wp
  end; cbv beta.

(** ** Descriptor operations change nothing else of a task *)

(** Two tasks that differ at most in their descriptors. *)
Definition only_fds (t t' : nm_task) : Prop :=
  exists tbl mask, t' = set_fd_cloexec_mask mask (set_fd_table tbl t) /\ (0 <= fd_cloexec_mask t -> 0 <= mask).

#[local] Instance only_fds_preorder : PreOrder only_fds.
Proof.
  split.
  - intros t. exists (fd_table t), (fd_cloexec_mask t). by destruct t.
  - intros t t' t'' (tbl & mask & -> & Hm) (tbl' & mask' & -> & Hm'). exists tbl', mask'. split; [done|]. auto.
Qed.

Section DescriptorFrame.
Context {G : Type} `{FileSys G}.

Definition same_people (s s' : fdst G) : Prop := Forall2 only_fds (fd_tasks s) (fd_tasks s').

#[local] Instance same_people_preorder : PreOrder same_people.
Proof. split; [intros s; unfold same_people; reflexivity|intros s s' s'' ? ?; unfold same_people in *; by etrans]. Qed.

Lemma people_id (s s' : fdst G) : fd_tasks s' = fd_tasks s -> same_people s s'.
Proof. intros E. unfold same_people. by rewrite E. Qed.

Lemma people_upd (s : fdst G) i x y :
  arr (fd_tasks s) i = Some x -> only_fds x y -> same_people s (Fd.set_fd_tasks (upd (fd_tasks s) i y) s).
Proof.
  intros Hx Hy. unfold same_people. simpl. unfold upd, arr in *. destruct (0 <=? i); [|done].
  rewrite <- (list_insert_id _ _ _ Hx) at 1. by apply Forall2_insert.
Qed.

Lemma keeps_mod_task i f : (forall t, only_fds t (f t)) -> keeps same_people (mod_task_at (F := G) i f).
Proof. intros Hf. apply keeps_modify_at. intros s x Hx. by eapply people_upd. Qed.

Lemma keeps_fd_lock : keeps same_people (fd_lock (F := G)).
Proof. intros s a s'. unfold fd_lock. destruct (_ =? 0); [|done]. intros [= _ <-]. by apply people_id. Qed.

Lemma keeps_at_pipe {A} k (c : M nm_pipe A) : keeps same_people (at_pipe (F := G) k c).
Proof.
  intros s a s'. unfold at_pipe. destruct (arr _ k); [|done]. destruct (c _); [|done]. intros [= _ <-]. by apply people_id.
Qed.

(** One command after the other. *)
Ltac keeps_go :=
  repeat lazymatch goal with
  | |- keeps _ (mbind _ _) => apply keeps_bind; [apply _| |intros ?]
  | |- keeps _ (mret _) => apply keeps_ret; apply _
  | |- keeps _ (gets _) => apply keeps_gets; apply _
  | |- keeps _ (stuck _) => apply keeps_stuck
  | |- keeps _ (rd _ _) => apply keeps_rd; apply _
  | |- keeps _ (modify _) => apply keeps_modify; intros ?; by apply people_id
  | |- keeps _ fd_lock => apply keeps_fd_lock
  | |- keeps _ fd_unlock => apply keeps_modify; intros ?; by apply people_id
  | |- keeps _ (at_pipe _ _) => apply keeps_at_pipe
  | |- keeps _ (lift_to _ _ _) => apply keeps_lift; intros ? ?; by apply people_id
  | |- keeps _ (mod_obj _ _) => apply keeps_modify_at; intros ? ? ?; by apply people_id
  | |- keeps _ (mod_pipe _ _) => apply keeps_modify_at; intros ? ? ?; by apply people_id
  | |- keeps _ (for_all _ _) => apply keeps_for_all; [apply _|intros ?]
  | |- keeps _ (if ?b then _ else _) => destruct b
  | |- keeps _ (match ?x with _ => _ end) => destruct x
  end.

Lemma clear_mask_only fd t : only_fds t (clear_cloexec fd t).
Proof.
  exists (fd_table t), (mask_clear (fd_cloexec_mask t) fd). split; [by destruct t|]. intros Hm.
  unfold mask_clear. apply Z.land_nonneg. by left.
Qed.

Lemma set_table_only tbl t : only_fds t (Task.set_fd_table tbl t).
Proof. exists tbl, (fd_cloexec_mask t). by destruct t. Qed.

Lemma keeps_set_entry i fd id : keeps same_people (set_fd_entry (F := G) i fd id).
Proof. unfold set_fd_entry, task_at. keeps_go. apply keeps_mod_task. intros. apply set_table_only. Qed.

Lemma keeps_release id : keeps same_people (fdobj_release (F := G) id).
Proof. unfold fdobj_release, fdobj_get, obj_at, pipe_on_endpoint_release, pipe_at. keeps_go. Qed.

Lemma keeps_retain id : keeps same_people (fdobj_retain (F := G) id).
Proof. unfold fdobj_retain, fdobj_get, obj_at, pipe_on_endpoint_acquire, pipe_at. keeps_go. Qed.

Lemma keeps_create_end k pid : keeps same_people (create_pipe_endpoint_obj (F := G) k pid).
Proof. unfold create_pipe_endpoint_obj, alloc_fdobj. keeps_go. Qed.

Lemma keeps_install task fd id : keeps same_people (task_install_fdobj (F := G) task fd id).
Proof. unfold task_install_fdobj. keeps_go. apply keeps_set_entry. Qed.

Lemma keeps_object_id task fd : keeps same_people (task_fdobj_id (F := G) task fd).
Proof. unfold task_fdobj_id, fd_entry, task_at. keeps_go. Qed.

Lemma keeps_close_fd task fd : keeps same_people (task_close_fd (F := G) task fd).
Proof.
  unfold task_close_fd, fd_entry, task_at. keeps_go;
    [apply keeps_release|apply keeps_set_entry|apply keeps_mod_task, clear_mask_only].
Qed.

Lemma keeps_adopt task fd : keeps same_people (adopt_legacy_fs_fd (F := G) task fd).
Proof.
  unfold adopt_legacy_fs_fd, create_fs_obj, alloc_fdobj, fdobj_get, obj_at.
  keeps_go; [apply keeps_object_id|apply keeps_install].
Qed.

Lemma keeps_adopt_if task fd id : keeps same_people (adopt_if_legacy (F := G) task fd id).
Proof. unfold adopt_if_legacy, fdobj_get, obj_at. keeps_go. apply keeps_adopt. Qed.

Lemma keeps_fd_read task fd buf len : keeps same_people (nm_fd_read (F := G) task fd buf len).
Proof.
  unfold nm_fd_read, read_from_fdobj, fdobj_get, obj_at. keeps_go; apply keeps_object_id || apply keeps_adopt.
Qed.

Lemma keeps_fd_write task fd buf len : keeps same_people (nm_fd_write (F := G) task fd buf len).
Proof.
  unfold nm_fd_write, write_to_fdobj, fdobj_get, obj_at. keeps_go; apply keeps_object_id || apply keeps_adopt.
Qed.

Lemma keeps_fd_close task fd : keeps same_people (nm_fd_close (F := G) task fd).
Proof. unfold nm_fd_close. keeps_go; [apply keeps_object_id|apply keeps_adopt_if|apply keeps_close_fd]. Qed.

Lemma keeps_fd_pipe task ptrs : keeps same_people (nm_fd_pipe (F := G) task ptrs).
Proof.
  unfold nm_fd_pipe, alloc_task_fd, task_at.
  keeps_go; apply keeps_set_entry || apply keeps_create_end || apply keeps_release || apply keeps_install.
Qed.

Lemma keeps_fd_dup2 task oldfd newfd : keeps same_people (nm_fd_dup2 (F := G) task oldfd newfd).
Proof.
  unfold nm_fd_dup2. keeps_go; apply keeps_object_id || apply keeps_close_fd || apply keeps_retain ||
    apply keeps_install || apply keeps_mod_task, clear_mask_only.
Qed.

Lemma keeps_fork_child child : keeps same_people (nm_fd_on_fork_child (F := G) child).
Proof. unfold nm_fd_on_fork_child, fd_entry, task_at. keeps_go; apply keeps_retain || apply keeps_set_entry. Qed.

Lemma keeps_set_cloexec task fd enabled : keeps same_people (nm_fd_set_cloexec (F := G) task fd enabled).
Proof.
  unfold nm_fd_set_cloexec, fd_entry, task_at. keeps_go. apply keeps_mod_task. intros t.
  destruct enabled; [|apply clear_mask_only]. exists (fd_table t), (mask_set (fd_cloexec_mask t) fd).
  split; [by destruct t|]. intros Hm. unfold mask_set. apply Z.lor_nonneg. split; [done|].
  apply Z.shiftl_nonneg. lia.
Qed.

Lemma keeps_get_cloexec task fd : keeps same_people (nm_fd_get_cloexec (F := G) task fd).
Proof. unfold nm_fd_get_cloexec, fd_entry, task_at. keeps_go. Qed.

Lemma keeps_close_on_exec task : keeps same_people (nm_fd_close_on_exec (F := G) task).
Proof.
  unfold nm_fd_close_on_exec, task_at. keeps_go; apply keeps_object_id || apply keeps_adopt_if || apply keeps_close_fd ||
    apply keeps_mod_task, clear_mask_only.
Qed.

End DescriptorFrame.

(** ** The invariant of the kernel *)

Section Invariant.
Context {H F : Type} `{KHeap H, !Vnodes F, !MountedFs F}.
Implicit Types (k : kernel H F).

(** Processes and descriptors are in order on the one task table. *)
Record kernel_inv k : Prop := mk_kernel_inv {
  ki_proc : proc_inv (k_proc k);
  ki_fd : fd_inv (fds k);
  ki_masks : Forall (fun t => 0 <= fd_cloexec_mask t) (task_table (k_proc k));
  ki_calls : zlen (syscall_table k) = NM_SYSCALL_MAX;
}.

Lemma people_at (l l' : list nm_task) i t' :
  Forall2 only_fds l l' -> arr l' i = Some t' -> exists t, arr l i = Some t /\ only_fds t t'.
Proof.
  intros Hl Ht. unfold arr in *. destruct (0 <=? i); [|done].
  destruct (Forall2_lookup_r _ _ _ _ _ Hl Ht) as (t & ? & ?). eauto.
Qed.

Lemma only_fds_same t t' : only_fds t t' ->
  live t' = live t /\ pid t' = pid t /\ ppid t' = ppid t /\ kernel_stack_top t' = kernel_stack_top t.
Proof. intros (tbl & mask & -> & _). done. Qed.

Lemma only_fds_stack t t' : only_fds t t' -> (on_own_stack t' <-> on_own_stack t) /\ stack_base t' = stack_base t.
Proof. intros (tbl & mask & -> & _). done. Qed.

(** The process invariant does not depend on descriptors. *)
Lemma people_inv (p : proc H) l :
  proc_inv p -> Forall2 only_fds (task_table p) l -> Forall task_shape l -> proc_inv (Task.set_table l p).
Proof.
  intros [[Hlen _ Hpid Hdist] Hused Hn Hcur Hlk Hh [Hown Hap]] Hl Hsh. pose proof (Forall2_length _ _ _ Hl) as Hll.
  split; simpl; try done.
  - split; [unfold zlen in *; congruence|done|..].
    + intros i t' Ht Hlt. destruct (people_at _ _ _ _ Hl Ht) as (t & Ht0 & Ho).
      destruct (only_fds_same _ _ Ho) as (E & -> & -> & _). apply (Hpid i t Ht0). congruence.
    + intros i j t' u' Ht Hu Hlt Hlu Hp. destruct (people_at _ _ _ _ Hl Ht) as (t & Ht0 & Ho).
      destruct (people_at _ _ _ _ Hl Hu) as (u & Hu0 & Ho').
      destruct (only_fds_same _ _ Ho) as (E1 & E2 & _), (only_fds_same _ _ Ho') as (E1' & E2' & _).
      apply (Hdist i j t u); congruence.
  - rewrite Hused. clear -Hl. unfold countb. induction Hl as [|t t' l l' Ho Hl IH]; [done|]. simpl.
    destruct (only_fds_same _ _ Ho) as (-> & _). lia.
  - intros c Hc. destruct (Hcur c Hc) as (t & Ht & Hlt). pose proof (arr_range _ _ _ Ht).
    destruct (arr_lookup l c) as [t' Ht']; [unfold zlen in *; lia|]. exists t'. split; [done|].
    destruct (people_at _ _ _ _ Hl Ht') as (u & Hu & Ho). destruct (only_fds_same _ _ Ho) as (-> & _). congruence.
  - split.
    + intros i t' Ht Ho'. destruct (people_at _ _ _ _ Hl Ht) as (t & Ht0 & Ho).
      destruct (only_fds_stack _ _ Ho) as [Hs ->]. apply (Hown i t Ht0). by apply Hs.
    + intros i j t' u' Ht Hu Hij Hot Hou. destruct (people_at _ _ _ _ Hl Ht) as (t & Ht0 & Ho).
      destruct (people_at _ _ _ _ Hl Hu) as (u & Hu0 & Ho').
      destruct (only_fds_same _ _ Ho) as (_ & _ & _ & ->), (only_fds_same _ _ Ho') as (_ & _ & _ & ->).
      destruct (only_fds_stack _ _ Ho) as [Hs ->], (only_fds_stack _ _ Ho') as [Hs' ->].
      apply (Hap i j); [done|done|done|by apply Hs|by apply Hs'].
Qed.

Lemma people_masks l l' :
  Forall2 only_fds l l' -> Forall (fun t => 0 <= fd_cloexec_mask t) l -> Forall (fun t => 0 <= fd_cloexec_mask t) l'.
Proof.
  induction 1 as [|t t' l l' (tbl & mask & -> & Hm) Hl IH]; [done|]. intros [Ht Hr]%Forall_cons.
  apply Forall_cons. split; [by apply Hm|auto].
Qed.

Lemma set_fds_fds k f : fds (set_fds f k) = f.
Proof. by destruct f. Qed.

Lemma set_fds_same k : set_fds (fds k) k = k.
Proof. destruct k as [? [] ? ? ? ? ? ?]. done. Qed.

Lemma set_fds_inv k f : kernel_inv k -> fd_inv f -> same_people (fds k) f -> kernel_inv (set_fds f k).
Proof.
  intros [Hp Hf Hm Ht] Hf' Hs. split; simpl; [|by rewrite set_fds_fds| |done].
  - apply people_inv; [done|exact Hs|apply Hf'].
  - by eapply people_masks.
Qed.

(** A descriptor operation as part of a call. *)
Lemma wp_on_fd {A} (c : M (fdst (Vfs.vfs F)) A) k (P : A -> fdst (Vfs.vfs F) -> Prop) (Q : A -> kernel H F -> Prop) :
  kernel_inv k -> keeps same_people c -> wp c P (fds k) -> (forall a f, P a f -> fd_inv f) ->
  (forall a f, P a f -> same_people (fds k) f -> kernel_inv (set_fds f k) -> Q a (set_fds f k)) -> wp (on_fd c) Q k.
Proof.
  intros Hi Hk Hc Hinv HQ. apply wp_lift. eapply wp_keeps; [exact Hk|]. eapply wp_mono; [exact Hc|].
  intros a f Ha Hs. apply HQ; [done|done|]. apply set_fds_inv; [done|by eapply Hinv|done].
Qed.

(** The descriptors are in order on a changed task table when the shapes are and
    no object is referred to more often. *)
Lemma core_tasks (s : fdst (Vfs.vfs F)) l :
  fd_inv s -> Forall task_shape l -> (forall id, id <> -1 -> refs l id <= refs (fd_tasks s) id) ->
  fd_inv (Fd.set_fd_tasks l s).
Proof.
  intros [[Htb _ Hct Hfs] Hlk] Hsh Hr. split; [|done]. split; simpl; try done.
  intros id Hid. etrans; [by apply Hr|by apply Hct].
Qed.

Lemma fds_set_proc k p : fds (set_k_proc p k) = Fd.set_fd_tasks (task_table p) (fds k).
Proof. done. Qed.

(** A process operation that changes one task and adds no reference. *)
Lemma set_proc_inv k p i t t' :
  kernel_inv k -> proc_inv p -> task_table p = upd (task_table (k_proc k)) i t' ->
  arr (task_table (k_proc k)) i = Some t -> 0 <= fd_cloexec_mask t' ->
  (live t' = false \/ (live t' = live t /\ fd_table t' = fd_table t)) -> kernel_inv (set_k_proc p k).
Proof.
  intros [Hp Hf Hm Ht] Hp' Htab Hi Hmask Hl. split; [done| |simpl|done].
  - rewrite fds_set_proc. apply core_tasks; [done|apply (pi_table _ Hp')|]. intros id Hid. rewrite Htab. simpl.
    destruct Hl as [Hl|[Hl Hfd]]; [by eapply refs_drop|]. by rewrite (refs_same _ i t).
  - rewrite Htab. by apply Forall_upd.
Qed.

(** The scheduler changes nothing that the descriptors depend on. *)
Definition same_fds (t t' : nm_task) : Prop :=
  live t' = live t /\ fd_table t' = fd_table t /\ fd_cloexec_mask t' = fd_cloexec_mask t.

Lemma sched_inv_kept k p : kernel_inv k -> proc_inv p -> Forall2 same_fds (task_table (k_proc k)) (task_table p) -> kernel_inv (set_k_proc p k).
Proof.
  intros [_ Hf Hm Ht] Hp' Hl. split; [done| | |done].
  - rewrite fds_set_proc. apply core_tasks; [done|apply (pi_table _ Hp')|]. intros id _. unfold refs.
    rewrite (sumZ_Forall2 _ (fd_tasks (fds k)) (task_table p)); [done|]. eapply Forall2_impl; [exact Hl|].
    by intros t t' (-> & -> & _).
  - rewrite Forall_forall in Hm. simpl. apply Forall_forall. intros t' Ht'%list_elem_of_lookup. destruct Ht' as [i Hi].
    destruct (Forall2_lookup_r _ _ _ _ _ Hl Hi) as (t & Hti & _ & _ & ->). by eapply Hm, list_elem_of_lookup_2.
Qed.

End Invariant.

(** ** The handlers *)

Section Handlers.
Context {H F : Type} `{KHeap H, !Vnodes F, !MountedFs F}.
Implicit Types (k : kernel H F) (Q : Z -> kernel H F -> Prop).

Lemma set_proc_id k : set_k_proc (k_proc k) k = k.
Proof. by destruct k. Qed.

Lemma wp_current k (Q : option Z -> kernel H F -> Prop) :
  kernel_inv k -> Q (current_task (k_proc k)) k -> wp (on_proc task_current) Q k.
Proof.
  intros Hi HQ. apply wp_lift. unfold task_current. wp_step. apply wp_proc_lock; [apply Hi|]. wp_step. wp_step.
  wp_step. apply wp_proc_unlock. wp_step. rewrite unlock_id by apply Hi. rewrite set_proc_id. exact HQ.
Qed.

Lemma current_live k c : kernel_inv k -> current_task (k_proc k) = Some c ->
  exists t, arr (task_table (k_proc k)) c = Some t /\ live t = true.
Proof. intros Hi. apply Hi. Qed.

Lemma wp_task_at k c t (Q : nm_task -> kernel H F -> Prop) :
  arr (task_table (k_proc k)) c = Some t -> Q t k -> wp (on_proc (get_task c)) Q k.
Proof. intros Ht HQ. apply wp_lift. eapply wp_rd; [exact Ht|]. by rewrite set_proc_id. Qed.

Lemma wp_sys_getpid k Q :
  kernel_inv k ->
  match current_task (k_proc k) with
  | None => Q (NM_ERR NM_EFAIL) k
  | Some c => forall t, arr (task_table (k_proc k)) c = Some t -> Q (pid t) k
  end -> wp sys_getpid Q k.
Proof.
  intros Hi HQ. unfold sys_getpid. wp_step. apply wp_current; [done|].
  destruct (current_task (k_proc k)) as [c|] eqn:Hc; [|by wp_step].
  destruct (current_live k c Hi Hc) as (t & Ht & _). wp_step. eapply wp_task_at; [done|]. wp_step. by apply HQ.
Qed.

(** *** Accesses to memory *)

Lemma safe_touch bad a n (Q : unit -> kernel H F -> Prop) k :
  (mapped (k_mem k) a n = false -> bad) -> Q tt k -> safe bad (touch a n) Q k.
Proof. intros Hb HQ. unfold touch. safe_step. wp_step. destruct (mapped (k_mem k) a n); [done|by apply Hb]. Qed.

Lemma safe_store bad a bs (Q : unit -> kernel H F -> Prop) k :
  (mapped (k_mem k) a (zlen bs) = false -> bad) -> Q tt (set_k_mem (put_bytes (k_mem k) a bs) k) ->
  safe bad (store a bs) Q k.
Proof. intros Hb HQ. unfold store. apply safe_bind, safe_touch; [done|]. exact HQ. Qed.

Lemma safe_load_str bad a (Q : list Z -> kernel H F -> Prop) k :
  (~ (exists s, holds_string (k_mem k) a s) -> bad) -> (forall s, holds_string (k_mem k) a s -> Q s k) ->
  safe bad (load_str a) Q k.
Proof.
  intros Hb HQ. unfold load_str. safe_step. wp_step. destruct (str_at (k_mem k) a) as [s|] eqn:E.
  - apply (HQ s). by apply str_at_iff.
  - apply Hb. intros (s & Hs%str_at_iff). congruence.
Qed.

(** What the process code gets of the vector at [a]: its length and its address. *)
Definition vec_loaded (m : memory) (a : Z) (v : option ptrvec) : Prop :=
  exists l, vector 64 m a l /\ count_ptr_vector v = zlen l /\ vec_ptr v = a.

Lemma safe_load_vec bad a (Q : option ptrvec -> kernel H F -> Prop) k :
  (~ (exists l, vector 64 (k_mem k) a l) -> bad) -> (forall v, vec_loaded (k_mem k) a v -> Q v k) ->
  safe bad (load_vec a) Q k.
Proof.
  intros Hb HQ. unfold load_vec. destruct (Z.eqb_spec a 0) as [->|Ha].
  { apply (HQ None). exists []. split; [by left|done]. }
  safe_step. wp_step. destruct (ptrs_at 64 (k_mem k) a) as [l|] eqn:E.
  - apply (HQ (Some (mk_vec a l))). pose proof (ptrs_at_sound _ _ _ _ E Ha) as Hv. exists l. split; [done|].
    destruct Hv as [[? ->]|(_ & Hl & _)]; [done|]. simpl. split; [lia|done].
  - apply Hb. intros (l & Hl). change 64 with (Z.of_nat 64) in Hl. rewrite (ptrs_at_complete _ _ _ _ Hl Ha) in E. done.
Qed.

Lemma safe_print bad buf len (Q : unit -> kernel H F -> Prop) k :
  0 <= len -> (mapped (k_mem k) buf len = false -> bad) ->
  Q tt (set_k_console (k_console k ++ bytes_at (k_mem k) buf len) k) ->
  safe bad (for_all (upto 0 len) (fun i => b ← load_byte (buf + i); console_putc b)) Q k.
Proof.
  intros Hl Hb HQ.
  apply (safe_for_all bad (fun i k' => k' = set_k_console (k_console k ++ bytes_at (k_mem k) buf i) k)); [done|..].
  - rewrite bytes_nil, app_nil_r. by destruct k.
  - intros i k' Hi ->. unfold load_byte. do 2 apply safe_bind. apply safe_of_wp. wp_step. cbn [k_mem set_k_console].
    destruct (k_mem k !! (buf + i)) as [b|] eqn:E.
    + change (set_k_console (k_console (set_k_console (k_console k ++ bytes_at (k_mem k) buf i) k) ++ [b])
        (set_k_console (k_console k ++ bytes_at (k_mem k) buf i) k) = set_k_console (k_console k ++ bytes_at (k_mem k) buf (i + 1)) k).
      rewrite mem_bytes_snoc by lia. cbn [k_console set_k_console]. rewrite app_assoc. unfold byte_at. by rewrite E.
    + apply Hb. apply not_true_iff_false. intros Hm. destruct (proj1 (mapped_spec _ _ _) Hm (buf + i)); [lia|congruence].
  - by intros k' ->.
Qed.

(** *** The calls *)

Lemma safe_sys_write bad k fd buf len Q :
  kernel_inv k -> 0 <= len -> positions_ok (fds k) ->
  (forall c t o, current_task (k_proc k) = Some c -> arr (task_table (k_proc k)) c = Some t ->
     (arr (fd_table t) (i32 fd) ≫= fun id => obj_view (fds k) id) = Some o -> kind o = NM_FDOBJ_FS ->
     Vfs.room (k_vfs k) len) ->
  (buf <> 0 -> mapped (k_mem k) buf len = false -> bad) ->
  (buf = 0 -> Q (NM_ERR NM_EINVAL) k) ->
  (buf <> 0 -> current_task (k_proc k) = None -> Q (NM_ERR NM_EFAIL) k) ->
  (forall c r f, buf <> 0 -> current_task (k_proc k) = Some c ->
     write_result (fds k) c (i32 fd) (bytes_at (k_mem k) buf len) r f -> kernel_inv (set_fds f k) ->
     (0 <= r -> Q r (set_fds f k)) /\
     (r < 0 -> fd <> 1 -> Q (NM_ERR NM_EFAIL) (set_fds f k)) /\
     (r < 0 -> fd = 1 -> Q (i64 len) (set_k_console (k_console k ++ bytes_at (k_mem k) buf len) (set_fds f k)))) ->
  safe bad (sys_write fd buf len) Q k.
Proof.
  intros Hi Hl Hpos Hroom Hbad Hnull Hnone HQ. unfold sys_write. destruct (Z.eqb_spec buf 0) as [Hb|Hb]; [by apply Hnull|].
  safe_step. apply wp_current; [done|]. destruct (current_task (k_proc k)) as [c|] eqn:Hc; [|by apply Hnone].
  destruct (current_live k c Hi Hc) as (t & Ht & Hlt). safe_step. wp_step. safe_step.
  pose proof (zlen_bytes_at (k_mem k) buf len Hl) as Hz. rewrite <- Hz at 2.
  apply (wp_on_fd _ k (fun r f => write_result (fds k) c (i32 fd) (bytes_at (k_mem k) buf len) r f)); [done|apply keeps_fd_write| |by intros ? ? []|].
  { eapply wp_write; [apply Hi|done|exact Ht|done| |by intros ? ? ?]. intros o Hv Hk. rewrite Hz. by eapply Hroom. }
  intros r f Hr Hs Hk. destruct (HQ c r f Hb eq_refl Hr Hk) as (H1 & H2 & H3). apply safe_bind, safe_touch.
  { intros Hm. apply (Hbad Hb). apply not_true_iff_false. intros Hm'. apply not_true_iff_false in Hm. apply Hm.
    cbn [k_mem set_fds]. eapply mapped_sub; [done|lia|]. pose proof (write_at_most _ _ _ _ _ _ Hr). lia. }
  destruct (Z.leb_spec 0 r); [by apply H1|]. destruct (Z.eqb_spec fd 1); cbn [negb]; [|by apply H2].
  apply safe_bind, safe_print; [done|by apply Hbad|]. by apply H3.
Qed.

Lemma safe_sys_read bad k fd buf len Q :
  kernel_inv k -> 0 <= len ->
  (buf <> 0 -> mapped (k_mem k) buf len = false -> bad) ->
  (buf = 0 -> Q (NM_ERR NM_EINVAL) k) ->
  (buf <> 0 -> current_task (k_proc k) = None -> Q (NM_ERR NM_EFAIL) k) ->
  (forall c r f, buf <> 0 -> current_task (k_proc k) = Some c -> read_result (fds k) c (i32 fd) len r f ->
     kernel_inv (set_fds f k) -> Q r.1 (set_k_mem (put_bytes (k_mem k) buf r.2) (set_fds f k))) ->
  safe bad (sys_read fd buf len) Q k.
Proof.
  intros Hi Hl Hbad Hnull Hnone HQ. unfold sys_read. destruct (Z.eqb_spec buf 0) as [Hb|Hb]; [by apply Hnull|].
  safe_step. apply wp_current; [done|]. destruct (current_task (k_proc k)) as [c|] eqn:Hc; [|by apply Hnone].
  destruct (current_live k c Hi Hc) as (t & Ht & Hlt). safe_step.
  apply (wp_on_fd _ k (fun r f => read_result (fds k) c (i32 fd) len r f)); [done|apply keeps_fd_read| |by intros ? ? []|].
  { eapply wp_read; [apply Hi|exact Ht|done|done|by intros ? ? ?]. }
  intros r f Hr Hs Hk. apply safe_bind, safe_store.
  { intros Hm. apply (Hbad Hb). apply not_true_iff_false. intros Hm'. apply not_true_iff_false in Hm. apply Hm.
    cbn [k_mem set_fds]. eapply mapped_sub; [done|lia|]. pose proof (read_at_most _ _ _ _ _ _ Hl Hr). lia. }
  by eapply HQ.
Qed.

Lemma mem_inv k m : kernel_inv k -> kernel_inv (set_k_mem m k).
Proof. intros []. by split. Qed.

Lemma console_inv k c : kernel_inv k -> kernel_inv (set_k_console c k).
Proof. intros []. by split. Qed.

(** A call that asks one thing of the descriptors of the current task. *)
Lemma wp_fd_call k fail (c : Z -> M (fdst (Vfs.vfs F)) Z) Q :
  kernel_inv k -> (forall i, keeps same_people (c i)) ->
  (forall i t, arr (task_table (k_proc k)) i = Some t -> live t = true -> wp (c i) (fun _ f => fd_inv f) (fds k)) ->
  (forall r k', kernel_inv k' -> syscall_table k' = syscall_table k -> Q r k') ->
  wp (cur ← on_proc task_current; match cur with None => mret fail | Some i => on_fd (c i) end) Q k.
Proof.
  intros Hi Hk Hc HQ. wp_step. apply wp_current; [done|].
  destruct (current_task (k_proc k)) as [i|] eqn:Ec; [|wp_step; by apply HQ].
  destruct (current_live k i Hi Ec) as (t & Ht & Hl).
  eapply (wp_on_fd _ k (fun _ f => fd_inv f)); [done|apply Hk|by eapply Hc|done|]. intros r f _ _ Hf. by apply HQ.
Qed.

Lemma wp_get_cloexec (s : fdst (Vfs.vfs F)) i t fd (Q : Z -> fdst (Vfs.vfs F) -> Prop) :
  fd_inv s -> arr (fd_tasks s) i = Some t -> (forall r, Q r s) -> wp (nm_fd_get_cloexec (Some i) fd) Q s.
Proof.
  intros [Hc Hlk] Ht HQ. unfold nm_fd_get_cloexec. wp_step. apply wp_fd_lock; [done|].
  destruct (bad_fd fd) eqn:Eb.
  { wp_step. apply wp_fd_unlock. rewrite fd_relock by done. by wp_step. }
  destruct (entry_exists s i t fd Hc Ht Eb) as [id Hid]. wp_step. eapply wp_entry; [exact Ht|done|].
  destruct (id =? -1); wp_step; [|eapply wp_rd; [exact Ht|]; wp_step]; apply wp_fd_unlock; rewrite fd_relock by done; by wp_step.
Qed.

Lemma wp_sys_close k fd Q :
  kernel_inv k -> (forall r k', kernel_inv k' -> syscall_table k' = syscall_table k -> Q r k') -> wp (sys_close fd) Q k.
Proof.
  intros Hi HQ. unfold sys_close. destruct (Z.leb_spec NM_MAX_FDS fd).
  { wp_step. apply wp_current; [done|]. destruct (current_task _); wp_step; by apply HQ. }
  apply wp_fd_call; [done|intros; apply keeps_fd_close| |done].
  intros i t Ht Hl. eapply wp_fd_close; [apply Hi|exact Ht|done|]. by intros r f [? _].
Qed.

Lemma wp_sys_dup2 k oldfd newfd Q :
  kernel_inv k -> all_room (k_objs k) 1 ->
  (forall r k', kernel_inv k' -> syscall_table k' = syscall_table k -> Q r k') -> wp (sys_dup2 oldfd newfd) Q k.
Proof.
  intros Hi Hr HQ. unfold sys_dup2. destruct (_ || _).
  { wp_step. apply wp_current; [done|]. destruct (current_task _); wp_step; by apply HQ. }
  apply wp_fd_call; [done|intros; apply keeps_fd_dup2| |done].
  intros i t Ht Hl. eapply wp_dup2; [apply Hi|exact Ht|done|done|]. by intros r f [? _].
Qed.

Lemma wp_sys_fd_cloexec k fd enabled Q :
  kernel_inv k -> (forall r k', kernel_inv k' -> syscall_table k' = syscall_table k -> Q r k') -> wp (sys_fd_cloexec fd enabled) Q k.
Proof.
  intros Hi HQ. unfold sys_fd_cloexec. destruct (NM_MAX_FDS <=? fd).
  { wp_step. apply wp_current; [done|]. destruct (current_task _); wp_step; by apply HQ. }
  destruct (_ || _).
  { apply wp_fd_call; [done|intros; apply keeps_set_cloexec| |done].
    intros i t Ht Hl. eapply wp_set_cloexec; [apply Hi|exact Ht|done]. }
  destruct (enabled =? 2).
  - apply wp_fd_call; [done| | |done].
    + intros i. apply keeps_get_cloexec.
    + intros i t Ht Hl. eapply wp_get_cloexec; [apply Hi|exact Ht|]. intros r. apply Hi.
  - wp_step. apply wp_current; [done|]. destruct (current_task _); wp_step; by apply HQ.
Qed.

Lemma safe_sys_pipe bad k fds_ptr Q :
  kernel_inv k ->
  (fds_ptr <> 0 -> mapped (k_mem k) fds_ptr 8 = false -> bad) ->
  (fds_ptr = 0 \/ current_task (k_proc k) = None -> Q (NM_ERR NM_EINVAL) k) ->
  (forall c f, current_task (k_proc k) = Some c -> pipe_result (fds k) c (NM_ERR NM_ENOMEM, None) f ->
     kernel_inv (set_fds f k) -> Q (NM_ERR NM_EFAIL) (set_fds f k)) ->
  (forall c f rdfd wrfd, fds_ptr <> 0 -> current_task (k_proc k) = Some c -> fd_inv f ->
     pipe_made (fds k) f c rdfd wrfd -> kernel_inv (set_fds f k) ->
     Q 0 (set_k_mem (put_i32 (put_i32 (k_mem k) fds_ptr rdfd) (fds_ptr + 4) wrfd) (set_fds f k))) ->
  safe bad (sys_pipe fds_ptr) Q k.
Proof.
  intros Hi Hbad Hnull Hfail HQ. unfold sys_pipe. safe_step. apply wp_current; [done|].
  destruct (current_task (k_proc k)) as [c|] eqn:Ec; [|apply Hnull; by right].
  destruct (current_live k c Hi Ec) as (t & Ht & Hl). destruct (Z.eqb_spec fds_ptr 0); [apply Hnull; by left|]. safe_step.
  apply (wp_on_fd _ k (pipe_result (fds k) c)); [done|apply keeps_fd_pipe| |by intros ? ? []|].
  { eapply wp_pipe; [apply Hi|exact Ht|done|by intros ? ? ?]. }
  intros [e [[rdfd wrfd]|]] f Hr Hs Hk; destruct Hr as [Hf Hr].
  - destruct Hr as [-> Hm]. cbn [fst snd]. change (negb (0 =? 0)) with false. cbv iota. cbn [default].
    assert (Hno : forall m a, m = k_mem k \/ m = put_bytes (k_mem k) fds_ptr (le32 rdfd) -> a = fds_ptr \/ a = fds_ptr + 4 ->
      mapped m a 4 = false -> bad).
    { intros m a Em Ea Hma. apply Hbad; [done|]. apply not_true_iff_false. intros Hmap. apply not_true_iff_false in Hma. apply Hma.
      destruct Em as [->| ->]; [|apply mapped_put]; (eapply mapped_sub; [exact Hmap|lia|lia]). }
    apply safe_bind, safe_store; [apply Hno; auto|]. apply safe_bind, safe_store; [apply Hno; auto|].
    by eapply (HQ c f rdfd wrfd).
  - pose proof Hr as [-> _]. change (NM_ERR NM_ENOMEM =? 0) with false. cbn [negb fst]. eapply Hfail; [done| |done]. by split.
Qed.

Lemma mask_at k i t : kernel_inv k -> arr (task_table (k_proc k)) i = Some t -> 0 <= fd_cloexec_mask t.
Proof. intros Hi Ht. exact (Forall_arr _ _ _ _ (ki_masks _ Hi) Ht). Qed.

Lemma wp_sys_exit k code Q :
  kernel_inv k ->
  (current_task (k_proc k) = None -> Q 0 k) ->
  (forall c t p, current_task (k_proc k) = Some c -> arr (task_table (k_proc k)) c = Some t ->
     p = Task.set_table (upd (task_table (k_proc k)) c (zombie (i32 code) t)) (k_proc k) ->
     kernel_inv (set_k_proc p k) -> Q 0 (set_k_proc p k)) ->
  wp (sys_exit code) Q k.
Proof.
  intros Hi Hnone HQ. unfold sys_exit. wp_step. apply wp_lift. apply wp_exit; [apply Hi|..].
  - intros c t Hc Ht Hinv. wp_step. eapply HQ; [done|done|done|]. destruct (current_live k c Hi Hc) as (t' & Ht' & Hl).
    eapply (set_proc_inv k _ c t (zombie (i32 code) t)); [done|done|done|done| |].
    + exact (mask_at k c t Hi Ht).
    + right. split; [|done]. replace t' with t in Hl by congruence. rewrite Hl. done.
  - intros Hc. wp_step. rewrite set_proc_id. auto.
Qed.

Lemma safe_sys_waitpid bad k want ptr Q :
  kernel_inv k ->
  (ptr <> 0 -> mapped (k_mem k) ptr 4 = false -> bad) ->
  (wait_result (k_proc k) (i32 want) true (NM_ERR NM_EFAIL, None) (k_proc k) -> Q (NM_ERR NM_EFAIL) k) ->
  (forall n code p, wait_result (k_proc k) (i32 want) true (n, Some code) p -> 0 < n -> kernel_inv (set_k_proc p k) ->
     Q n (if ptr =? 0 then set_k_proc p k else set_k_mem (put_i32 (k_mem k) ptr code) (set_k_proc p k))) ->
  safe bad (sys_waitpid want ptr) Q k.
Proof.
  intros Hi Hbad Hnone HQ. unfold sys_waitpid. safe_step. apply wp_lift. apply wp_waitpid; [apply Hi|].
  intros r p Hr. pose proof Hr as [Hp [(-> & -> & _)|(i & t & _ & Ht & Hre & _ & -> & Ep)]].
  - change ((NM_ERR NM_EFAIL, None : option Z).1 <? 0) with true. rewrite set_proc_id. by apply Hnone.
  - destruct (awaited_live _ _ _ Hre) as [Hl _].
    destruct (to_pid _ _ (pi_table _ (ki_proc _ Hi)) i t Ht Hl) as [[Hpid _] _].
    assert (Hk : kernel_inv (set_k_proc p k)).
    { eapply (set_proc_inv k p i t (freed t)); [done|done|by rewrite Ep|done|simpl; lia|by left]. }
    specialize (HQ _ _ _ Hr ltac:(lia) Hk). cbn [fst snd]. destruct (Z.ltb_spec (pid t) 0); [lia|].
    destruct (Z.eqb_spec ptr 0); cbn [negb]; [exact HQ|]. by apply safe_bind, safe_store; [apply Hbad|].
Qed.

(** What a fork leaves: a new process in slot [i], like the caller in slot [c],
    with references of its own to the caller's objects. *)
Record forked_in k (c i : Z) (me x : nm_task) k' : Prop := mk_forked_in {
  fk_inv : kernel_inv k';
  fk_child : arr (task_table (k_proc k')) i = Some x /\ live x = true;
  fk_added : pid x = next_pid (k_proc k) /\ ppid x = pid me /\ fd_table x = fd_table me;
  fk_parent : arr (task_table (k_proc k)) c = Some me /\
    arr (task_table (k_proc k')) c = Some (set_regs (set_rax (u64 (pid x)) (regs me)) me) /\ i <> c;
  fk_rest : current_task (k_proc k') = Some c /\ k_mem k' = k_mem k /\ syscall_table k' = syscall_table k;
}.

Lemma wp_sys_fork k Q :
  kernel_inv k -> next_pid (k_proc k) < INT32_MAX -> all_room (k_objs k) NM_MAX_FDS ->
  (forall p, kernel_inv (set_k_proc p k) -> only_heap (k_proc k) p -> Q (NM_ERR NM_EFAIL) (set_k_proc p k)) ->
  (forall c i me x k', current_task (k_proc k) = Some c -> forked_in k c i me x k' -> Q (pid x) k') ->
  wp sys_fork Q k.
Proof.
  intros Hi Hmax Hroom Hfail HQ. unfold sys_fork. wp_step. apply wp_current; [done|].
  assert (Hheap : forall p, only_heap (k_proc k) p -> proc_inv p -> kernel_inv (set_k_proc p k)).
  { intros p [h ->] Hp. destruct Hi. by split. }
  destruct (current_task (k_proc k)) as [c|] eqn:Hc.
  2:{ wp_step. rewrite <- (set_proc_id k). apply Hfail; [by rewrite set_proc_id|apply only_heap_refl]. }
  wp_step. apply wp_lift. apply wp_fork; [apply Hi|done|]. intros r p' (Hp' & Hr & _).
  destruct r as [i|]; [|wp_step; by apply Hfail; [apply Hheap|]].
  destruct Hr as (c' & me & x & Hc' & Hme & [(old & Ho & Hlo) Htab Hst [Hpid _] Hppid _ Hcur] & Hfk & _ & Hne).
  assert (c' = c) as -> by congruence. destruct (current_live k c Hi Hc) as (me' & Hme' & Hlme).
  assert (me' = me) as -> by congruence. clear Hme'. destruct Hfk as (Hfx & Hmx & _ & Hnx & _).
  assert (Hlx : live x = true) by (unfold live, is_state; by rewrite Hst). pose proof (arr_range _ _ _ Ho) as Hrng.
  assert (Hpp : ppid x = pid me) by (rewrite Hppid; unfold current_pid; by rewrite Hc, Hme).
  wp_step. apply wp_lift. rewrite fds_set_proc, Htab. change (upd (task_table (k_proc k)) i x) with (upd (fd_tasks (fds k)) i x).
  eapply wp_fork_child; [by apply (fork_pre_of (fds k) i c old me x); try done; apply Hi|].
  intros f Hf Hft. set (k1 := set_fds f (set_k_proc p' k)).
  assert (Etab : task_table (k_proc k1) = upd (task_table (k_proc k)) i x) by (simpl; by rewrite Hft).
  assert (Hk1 : kernel_inv k1).
  { split; [|unfold k1; by rewrite set_fds_fds| |apply Hi].
    - simpl. rewrite Hft. change (fd_tasks (Fd.set_fd_tasks _ _)) with (upd (task_table (k_proc k)) i x). rewrite <- Htab.
      by destruct p'.
    - rewrite Etab. apply Forall_upd; [apply Hi|]. rewrite Hmx. exact (mask_at k c me Hi Hme). }
  assert (Hx : arr (task_table (k_proc k1)) i = Some x) by (rewrite Etab; by apply arr_upd_eq).
  assert (Hcx : arr (task_table (k_proc k1)) c = Some me) by (rewrite Etab; by rewrite arr_upd_ne).
  wp_step. eapply wp_task_at; [exact Hx|]. wp_step. apply wp_lift. eapply wp_modify_at; [exact Hcx|].
  set (p2 := Task.set_table _ (k_proc k1)). set (me' := set_regs _ me) in *.
  assert (Hc1 : current_task (k_proc k1) = Some c) by (simpl; by rewrite Hcur).
  pose proof (slot_shape (k_proc k1) c me (ki_proc _ Hk1) Hcx) as Hshape.
  assert (Hk2 : kernel_inv (set_k_proc p2 k1)).
  { eapply (set_proc_inv k1 p2 c me me'); [done| |done|done|exact (mask_at k c me Hi Hme)|by right].
    by apply (current_change (k_proc k1) c me me'); try apply Hk1. }
  wp_step. eapply (wp_task_at _ i x); [simpl; by rewrite arr_upd_ne|]. wp_step.
  apply (HQ c i me x); [done|]. split; [done|split; [simpl; by rewrite arr_upd_ne|done]|done| |done].
  split_and!; [done| |done]. simpl. pose proof (arr_range _ _ _ Hcx). by apply arr_upd_eq.
Qed.

(** Where a program starts and with which argument vector: at a second argument
    below 1 MiB that comes without environment and fourth argument, which is then no
    vector; else at the fourth argument; else at the address registered for it. *)
Inductive starts_at (registered : option Z) (argv_ptr envp_ptr a4 : Z) : Z -> Z -> Prop :=
| at_second : argv_ptr <> 0 -> argv_ptr < 0x100000 -> envp_ptr = 0 -> a4 = 0 ->
    starts_at registered argv_ptr envp_ptr a4 argv_ptr 0
| at_fourth : a4 <> 0 -> starts_at registered argv_ptr envp_ptr a4 a4 argv_ptr
| at_registered e : registered = Some e -> e <> 0 -> a4 = 0 -> argv_ptr = 0 \/ envp_ptr <> 0 \/ 0x100000 <= argv_ptr ->
    starts_at registered argv_ptr envp_ptr a4 e argv_ptr.

(** [exec_target] finds it; the entry 0 stands for none. *)
Lemma exec_target_spec registered argv_ptr envp_ptr a4 :
  let '(entry, argv) := exec_target (default 0 registered) argv_ptr envp_ptr a4 in
  (entry <> 0 -> starts_at registered argv_ptr envp_ptr a4 entry argv) /\
  (forall e v, starts_at registered argv_ptr envp_ptr a4 e v -> e = entry /\ v = argv /\ e <> 0).
Proof.
  unfold exec_target. destruct (Z.eqb_spec argv_ptr 0), (Z.eqb_spec envp_ptr 0), (Z.eqb_spec a4 0), (Z.ltb_spec argv_ptr 1048576);
    cbn [negb andb]; (split; [intros He; (destruct registered; simpl in * )|intros ? ? [| |? ->]; simpl]); try lia; try done;
    solve [apply at_second; lia|apply at_fourth; lia|apply at_registered; lia || done|split_and!; done || lia].
Qed.

(** The pointers that [sys_exec] follows lead to a string and to vectors. *)
Definition exec_pointers k name_ptr argv_ptr envp_ptr a4 : Prop :=
  name_ptr <> 0 -> exists name, holds_string (k_mem k) name_ptr name /\
    forall entry argv, starts_at (Exec.program_entry name) argv_ptr envp_ptr a4 entry argv ->
      (exists l, vector 64 (k_mem k) argv l) /\ (exists l, vector 64 (k_mem k) envp_ptr l).

Lemma holds_unique m a s s' : holds_string m a s -> holds_string m a s' -> s = s'.
Proof. rewrite <- !str_at_iff. congruence. Qed.

(** The end of [sys_exec], once the entry point is known. *)
Lemma safe_exec_tail bad k nm entry argv_ptr envp_ptr Q :
  kernel_inv k ->
  (~ ((exists l, vector 64 (k_mem k) argv_ptr l) /\ (exists l, vector 64 (k_mem k) envp_ptr l)) -> bad) ->
  (current_task (k_proc k) = None -> Q (NM_ERR NM_EFAIL) k) ->
  (forall c t t1 f p argv envp, current_task (k_proc k) = Some c -> arr (task_table (k_proc k)) c = Some t ->
     vec_loaded (k_mem k) argv_ptr argv -> vec_loaded (k_mem k) envp_ptr envp ->
     fd_tasks f = upd (task_table (k_proc k)) c t1 -> exec_closed NM_MAX_FDS t t1 -> only_fds t t1 ->
     p = Task.set_table (upd (task_table (k_proc k)) c (exec_task nm entry argv envp t1)) (k_proc (set_fds f k)) ->
     kernel_inv (set_k_proc p (set_fds f k)) -> Q 0 (set_k_proc p (set_fds f k))) ->
  safe bad (cur ← on_proc task_current; on_fd (nm_fd_close_on_exec cur) ;;
    vecs ← (if bool_decide (cur = None) then mret (None, None) else
            v ← load_vec argv_ptr; w ← load_vec envp_ptr; mret (v, w));
    on_proc (proc_exec_current (Some nm) entry vecs.1 vecs.2)) Q k.
Proof.
  intros Hi Hbad Hfail HQ. safe_step. apply wp_current; [done|]. safe_step.
  destruct (current_task (k_proc k)) as [c|] eqn:Hc.
  2:{ apply wp_lift, wp_ret. rewrite set_fds_same. safe_step. rewrite bool_decide_eq_true_2 by done. wp_step. safe_step.
      apply wp_lift. apply wp_exec; [apply Hi|congruence|]. intros _. rewrite set_proc_id. auto. }
  destruct (current_live k c Hi Hc) as (t & Ht & Hl).
  apply (wp_on_fd _ k (fun _ f => exec_result (fds k) c f)); [done|apply keeps_close_on_exec| |by intros ? ? []|].
  { eapply wp_close_on_exec; [apply Hi|exact Ht|done|exact (mask_at k c t Hi Ht)|by intros ? ?]. }
  intros _ f (Hf & t0 & t1 & Ht0 & Htab & Hcl) Hs Hk1. simpl in Ht0. assert (t0 = t) as -> by congruence.
  simpl in Htab. pose proof (arr_range _ _ _ Ht) as Hr.
  assert (Ht1 : arr (task_table (k_proc (set_fds f k))) c = Some t1) by (simpl; rewrite Htab; by apply arr_upd_eq).
  assert (Hof : only_fds t t1).
  { unfold same_people in Hs. destruct (people_at _ _ c t1 Hs) as (t2 & Ht2 & ?); [exact Ht1|]. simpl in Ht2. congruence. }
  rewrite bool_decide_eq_false_2 by done. do 2 apply safe_bind. apply safe_load_vec; [intros Hno; apply Hbad; tauto|].
  intros argv Hargv. apply safe_bind, safe_load_vec; [intros Hno; apply Hbad; tauto|]. intros envp Henvp.
  apply safe_of_wp, wp_ret. safe_step. apply wp_lift. apply wp_exec; [apply Hk1| |].
  - intros c' t' nm' Hc' Hnm Ht' Hp. simpl in Hc'. assert (c' = c) as -> by congruence. assert (t' = t1) as -> by congruence.
    injection Hnm as <-. eapply (HQ c t t1 f); try done.
    + simpl. by rewrite Htab, upd_upd.
    + eapply (set_proc_inv (set_fds f k) _ c t1); [done|done|done|exact Ht1|exact (mask_at _ c t1 Hk1 Ht1)|by right].
  - intros [?|?]; [simpl in *; congruence|done].
Qed.

Lemma safe_sys_exec bad k name_ptr argv_ptr envp_ptr a4 Q :
  kernel_inv k ->
  (~ exec_pointers k name_ptr argv_ptr envp_ptr a4 -> bad) ->
  (name_ptr = 0 -> Q (NM_ERR NM_EFAIL) k) ->
  (forall name, holds_string (k_mem k) name_ptr name -> name_ptr <> 0 ->
     let start := starts_at (Exec.program_entry name) argv_ptr envp_ptr a4 in
     (Vfs.target (k_vfs k) name false = None \/ (~ exists e v, start e v) \/ current_task (k_proc k) = None ->
        Q (NM_ERR NM_EFAIL) k) /\
     (forall entry argv_ptr' c t t1 f p argv envp, start entry argv_ptr' ->
        current_task (k_proc k) = Some c -> arr (task_table (k_proc k)) c = Some t ->
        is_Some (Vfs.target (k_vfs k) name false) -> entry <> 0 ->
        vec_loaded (k_mem k) argv_ptr' argv -> vec_loaded (k_mem k) envp_ptr envp ->
        fd_tasks f = upd (task_table (k_proc k)) c t1 -> exec_closed NM_MAX_FDS t t1 -> only_fds t t1 ->
        p = Task.set_table (upd (task_table (k_proc k)) c
              (exec_task (mk_cstr name_ptr name) entry argv envp t1)) (k_proc (set_fds f k)) ->
        kernel_inv (set_k_proc p (set_fds f k)) -> Q 0 (set_k_proc p (set_fds f k)))) ->
  safe bad (sys_exec name_ptr argv_ptr envp_ptr a4) Q k.
Proof.
  intros Hi Hbad Hnull HQ. unfold sys_exec. destruct (Z.eqb_spec name_ptr 0) as [|Hn]; [by apply Hnull|].
  apply safe_bind, safe_load_str.
  { intros Hno. apply Hbad. intros He. destruct (He Hn) as (s & Hs & _). eauto. }
  intros name Hname. destruct (HQ name Hname Hn) as [Hfail HQ']. clear HQ.
  safe_step. apply wp_lift. apply Vfs.wp_fs_stat; [apply Hi|apply Hname|].
  assert (Hk : set_k_vfs (k_vfs k) k = k) by (by destruct k).
  destruct (Vfs.target (k_vfs k) name false) as [node|] eqn:Et.
  2:{ change (negb ((NM_ERR NM_EFAIL, None : option nm_stat).1 =? 0)) with true. rewrite Hk. apply Hfail. by left. }
  intros v st _ _. rewrite Hk. change (negb ((0, Some st).1 =? 0)) with false. cbv iota. safe_step.
  apply Exec.wp_resolve_entry; [apply Hname|].
  pose proof (exec_target_spec (Exec.program_entry name) argv_ptr envp_ptr a4) as Htgt.
  assert (Hgo : safe bad (let '(final_entry, argv) := exec_target (default 0 (Exec.program_entry name)) argv_ptr envp_ptr a4 in
                    if final_entry =? 0 then mret (NM_ERR NM_EFAIL) else
                    cur ← on_proc task_current;
                    on_fd (nm_fd_close_on_exec cur) ;;
                    vecs ← (if bool_decide (cur = None) then mret (None, None) else
                            v ← load_vec argv; w ← load_vec envp_ptr; mret (v, w));
                    on_proc (proc_exec_current (Some (mk_cstr name_ptr name)) final_entry vecs.1 vecs.2)) Q k).
  2:{ destruct (Exec.program_entry name); exact Hgo. }
  destruct (exec_target _ _ _ _) as [entry argv]. destruct Htgt as [Hst Honly].
  destruct (Z.eqb_spec entry 0) as [->|He].
  { apply Hfail. right. left. intros (e & v' & Hv). by destruct (Honly e v' Hv) as (-> & _ & ?). }
  apply safe_exec_tail; [done| |auto|].
  - intros Hno. apply Hbad. intros Hp. destruct (Hp Hn) as (s & Hs & Hv). apply Hno.
    rewrite (holds_unique _ _ _ _ Hs Hname) in Hv. by apply (Hv entry), Hst.
  - intros c t t1 f p v1 v2 Hc Ht. apply (HQ' entry argv); [by apply Hst|done..].
Qed.

(** ** Dispatch *)

(** The limits within which a call keeps its promise: no write position and no
    file near the width of its fields, pids left, and no reference count near its
    width. *)
Definition limits_ok k (nr a3 : Z) : Prop :=
  0 <= nr /\ 0 <= a3 /\
  match arr (syscall_table k) nr with
  | Some (Some Sys_write) => positions_ok (fds k) /\ Vfs.room (k_vfs k) a3
  | Some (Some Sys_dup2) => all_room (k_objs k) 1
  | Some (Some Sys_fork) => next_pid (k_proc k) < INT32_MAX /\ all_room (k_objs k) NM_MAX_FDS
  | _ => True
  end.

(** The pointers that the call follows lead to memory of the program. *)
Definition pointers_ok k (nr a1 a2 a3 a4 : Z) : Prop :=
  match arr (syscall_table k) nr with
  | Some (Some Sys_write) | Some (Some Sys_read) => a2 = 0 \/ mapped (k_mem k) a2 a3 = true
  | Some (Some Sys_waitpid) => a2 = 0 \/ mapped (k_mem k) a2 4 = true
  | Some (Some Sys_pipe) => a1 = 0 \/ mapped (k_mem k) a1 8 = true
  | Some (Some Sys_exec) => exec_pointers k a1 a2 a3 a4
  | _ => True
  end.

Lemma wp_unknown k nr a1 a2 a3 a4 a5 a6 Q :
  kernel_inv k -> 0 <= nr -> default None (arr (syscall_table k) nr) = None ->
  Q (NM_ERR NM_ENOSYS) k -> wp (syscall_dispatch nr a1 a2 a3 a4 a5 a6) Q k.
Proof.
  intros Hi Hnr Ht HQ. unfold syscall_dispatch. destruct (Z.leb_spec NM_SYSCALL_MAX nr); [by wp_step|].
  pose proof (ki_calls _ Hi) as Hlen. destruct (arr_lookup (syscall_table k) nr) as [h Hh]; [lia|].
  wp_step. eapply wp_rd; [exact Hh|]. rewrite Hh in Ht. simpl in Ht. subst h. by wp_step.
Qed.

Lemma safe_known bad k nr h a1 a2 a3 a4 a5 a6 Q :
  arr (syscall_table k) nr = Some (Some h) -> nr < NM_SYSCALL_MAX ->
  safe bad (run_handler h a1 a2 a3 a4) Q k -> safe bad (syscall_dispatch nr a1 a2 a3 a4 a5 a6) Q k.
Proof.
  intros Hh Hnr HQ. unfold syscall_dispatch. destruct (Z.leb_spec NM_SYSCALL_MAX nr); [lia|].
  safe_step. eapply wp_rd; [exact Hh|]. done.
Qed.

(** Within the limits a call returns, with the kernel in order, unless a pointer
    of the caller leads to a bad address. *)
Lemma safe_dispatch k nr a1 a2 a3 a4 a5 a6 Q :
  kernel_inv k -> limits_ok k nr a3 ->
  (forall r k', kernel_inv k' -> syscall_table k' = syscall_table k -> Q r k') ->
  safe (~ pointers_ok k nr a1 a2 a3 a4) (syscall_dispatch nr a1 a2 a3 a4 a5 a6) Q k.
Proof.
  intros Hi (Hnr & Ha3 & Hok) HQ. destruct (arr (syscall_table k) nr) as [[h|]|] eqn:Hh.
  2,3: apply safe_of_wp, wp_unknown; [done|done|by rewrite Hh|by apply HQ].
  eapply safe_known; [exact Hh|pose proof (ki_calls _ Hi); pose proof (arr_range _ _ _ Hh); lia|].
  assert (Hbuf : forall a n, (a <> 0 -> mapped (k_mem k) a n = false -> ~ (a = 0 \/ mapped (k_mem k) a n = true)))
    by (intros a n Ha Hm [?|?]; congruence).
  unfold pointers_ok. rewrite Hh. destruct h; cbn [run_handler].
  - apply safe_of_wp, wp_sys_getpid; [done|]. destruct (current_task _); [intros t _|]; by apply HQ.
  - destruct Hok. apply safe_sys_write; try done; [by apply Hbuf|by intros; apply HQ..|]. intros c r f _ _ _ Hk.
    split_and!; intros; apply HQ; try done. by apply console_inv.
  - apply safe_sys_read; try done; [by apply Hbuf|by intros; apply HQ..|]. intros c r f _ _ _ Hk. apply HQ; [by apply mem_inv|done].
  - by apply safe_of_wp, wp_sys_close.
  - apply safe_of_wp, wp_sys_exit; [done|by intros; apply HQ|]. intros c t p _ _ _ Hk. by apply HQ.
  - apply safe_sys_waitpid; [done|by apply Hbuf|by intros; apply HQ|]. intros n code p _ _ Hk.
    destruct (a2 =? 0); apply HQ; try done. by apply mem_inv.
  - apply safe_sys_pipe; [done|by apply Hbuf|by intros; apply HQ|by intros; apply HQ|].
    intros c f rdfd wrfd _ _ _ _ Hk. apply HQ; [by apply mem_inv|done].
  - by apply safe_of_wp, wp_sys_dup2.
  - destruct Hok. apply safe_of_wp, wp_sys_fork; [done|done|done|by intros; apply HQ|]. intros c i me x k' _ [? _ _ _ (_ & _ & ?)]. by apply HQ.
  - apply safe_sys_exec; [done|done|by intros; apply HQ|]. intros name _ _. split; [by intros; apply HQ|]. intros. by apply HQ.
  - by apply safe_of_wp, wp_sys_fd_cloexec.
Qed.

(** ** Initialisation *)

(** The table after [syscall_init]. *)
Definition calls : list (option handler) :=
  [Some Sys_getpid; Some Sys_write; Some Sys_read; Some Sys_close; Some Sys_exit; Some Sys_waitpid; Some Sys_pipe;
   Some Sys_dup2; Some Sys_fork; Some Sys_exec; Some Sys_fd_cloexec] ++ replicate 117 None.

Lemma wp_clear_table k (Q : unit -> kernel H F -> Prop) :
  zlen (syscall_table k) = NM_SYSCALL_MAX -> Q tt (set_syscall_table (replicate 128 None) k) ->
  wp (for_all (upto 0 NM_SYSCALL_MAX) (fun i => wr syscall_table set_syscall_table i None)) Q k.
Proof.
  intros Hl HQ.
  apply (wp_for_all (fun i k' => exists l, k' = set_syscall_table l k /\ zlen l = 128 /\ forall j, 0 <= j < i -> arr l j = Some None)); [done|..].
  - exists (syscall_table k). split_and!; [by destruct k|done|lia].
  - intros i k' Hi (l & -> & Hll & Hj). unfold NM_SYSCALL_MAX in Hi. apply wp_wr; [simpl; lia|]. exists (upd l i None).
    split_and!; [done|by rewrite zlen_upd|]. intros j Hj'. rewrite arr_upd by lia.
    destruct (Z.eqb_spec i j); [done|apply Hj; lia].
  - intros k' (l & -> & Hll & Hj). replace l with (replicate 128 (None : option handler)) in *; [done|].
    apply arr_ext; [rewrite Hll; done|]. intros j. destruct (decide (0 <= j < 128)).
    + rewrite arr_replicate by lia. symmetry. apply Hj. unfold NM_SYSCALL_MAX. lia.
    + rewrite !arr_none; [done|lia|change (~ 0 <= j < 128); lia].
Qed.

Lemma wp_register k nr h Q :
  0 <= nr < NM_SYSCALL_MAX -> zlen (syscall_table k) = NM_SYSCALL_MAX ->
  Q 0 (set_syscall_table (upd (syscall_table k) nr (Some h)) k) -> wp (syscall_register nr (Some h)) Q k.
Proof.
  intros Hnr Hl HQ. unfold syscall_register. destruct (Z.leb_spec NM_SYSCALL_MAX nr); [lia|].
  rewrite bool_decide_eq_false_2 by done. cbn [orb]. wp_step. apply wp_wr; [lia|]. by wp_step.
Qed.

(** The state at boot, before the calls are set up; the file system may be mounted
    before or after. *)
Record early_ok k : Prop := mk_early_ok {
  bo_proc : proc_inv (k_proc k);
  bo_masks : Forall (fun t => 0 <= fd_cloexec_mask t) (task_table (k_proc k));
  bo_calls : zlen (syscall_table k) = NM_SYSCALL_MAX;
  bo_pipes : zlen (k_pipes k) = NM_PIPE_MAX /\ Forall (fun p => zlen (p_buf p) = NM_PIPE_BUF) (k_pipes k);
  bo_objs : zlen (k_objs k) = NM_FDOBJ_MAX;
  bo_fds : no_descriptors (task_table (k_proc k));
}.

Definition boot_ok k : Prop := early_ok k /\ Vfs.vfs_inv (k_vfs k).

Lemma wp_syscall_init_early k (Q : unit -> kernel H F -> Prop) :
  early_ok k ->
  (forall k', (forall v, Vfs.vfs_inv v -> kernel_inv (set_k_vfs v k')) -> syscall_table k' = calls -> k_proc k' = k_proc k ->
     k_vfs k' = k_vfs k -> k_mem k' = k_mem k -> Q tt k') ->
  wp syscall_init Q k.
Proof.
  intros [Hp Hm Hc [Hpl Hpb] Ho Hn] HQ. unfold syscall_init. wp_step. apply wp_clear_table; [done|]. wp_step. apply wp_lift.
  apply wp_fd_init_early; [done|done|done|apply (to_shape _ _ (pi_table _ Hp))|done|]. intros f Hf Htab Hfs. simpl in Htab, Hfs.
  set (k1 := set_fds f _).
  assert (Hk1 : (forall v, Vfs.vfs_inv v -> kernel_inv (set_k_vfs v (set_syscall_table calls k1))) /\ k_proc k1 = k_proc k).
  { assert (E : k_proc k1 = k_proc k) by (unfold k1; simpl; rewrite Htab; by destruct (k_proc k)).
    split; [|done]. intros v Hv. split; [change (proc_inv (k_proc k1)); by rewrite E|exact (Hf v Hv)| |done].
    simpl. by rewrite Htab. }
  do 11 (wp_step; apply wp_register; [done|done|]). wp_step.
  assert (E : forall k', syscall_table k' = calls -> k_proc k' = k_proc k1 -> k_pipes k' = k_pipes k1 -> k_objs k' = k_objs k1 ->
    k_fd_lock k' = k_fd_lock k1 -> k_vfs k' = k_vfs k1 -> k_mem k' = k_mem k1 -> k_console k' = k_console k1 ->
    k' = set_syscall_table calls k1) by (intros []; simpl; intros; by subst).
  apply HQ; [rewrite (E _); [apply Hk1|vm_compute; reflexivity|done..]|vm_compute; reflexivity|apply Hk1|exact Hfs|done].
Qed.

Lemma wp_syscall_init k (Q : unit -> kernel H F -> Prop) :
  boot_ok k -> (forall k', kernel_inv k' -> syscall_table k' = calls -> k_proc k' = k_proc k -> k_mem k' = k_mem k -> Q tt k') ->
  wp syscall_init Q k.
Proof.
  intros [He Hv] HQ. apply wp_syscall_init_early; [done|]. intros k' Hi Ht Hp Hf Hm. apply HQ; [|done..].
  specialize (Hi (k_vfs k') ltac:(by rewrite Hf)). by destruct k'.
Qed.

(** ** The kernel as a transition system *)

Section Steps.
Context (nm_kthread_trampoline : Z).

(** A system call that returns, whatever its pointers, a switch to a live task, a new
    kernel thread, or user code that changes the memory. *)
Inductive kernel_step : kernel H F -> kernel H F -> Prop :=
| ks_call k nr a1 a2 a3 a4 a5 a6 r k' :
    limits_ok k nr a3 -> syscall_dispatch nr a1 a2 a3 a4 a5 a6 k = Done r k' -> kernel_step k k'
| ks_switch k c t p :
    arr (task_table (k_proc k)) c = Some t -> live t = true -> proc_set_current (Some c) (k_proc k) = Done tt p ->
    kernel_step k (set_k_proc p k)
| ks_thread k nm entry arg r p :
    next_pid (k_proc k) < INT32_MAX ->
    task_create_kernel_thread nm_kthread_trampoline nm entry arg (k_proc k) = Done r p -> kernel_step k (set_k_proc p k)
| ks_user k m : kernel_step k (set_k_mem m k).

Lemma switch_inv k c t :
  kernel_inv k -> arr (task_table (k_proc k)) c = Some t -> live t = true ->
  kernel_inv (set_k_proc (Task.set_current (Some c) (k_proc k)) k).
Proof.
  intros Hi Ht Hl. pose proof Hi as [[] [] ? ?]. split; try done. split; simpl; try done. intros c' [= <-]. eauto.
Qed.

Lemma thread_inv k nm entry arg r p :
  kernel_inv k -> create_result nm_kthread_trampoline (k_proc k) nm entry arg r p -> kernel_inv (set_k_proc p k).
Proof.
  intros Hi (Hp & Hr & _). destruct r as [i|].
  - destruct Hr as (x & [(old & Ho & Hlo) Htab _ _ _ _ _] & (_ & _ & Hfd & Hmask & _) & _).
    split; [done| |simpl; rewrite Htab; apply Forall_upd; [apply Hi|lia]|apply Hi].
    rewrite fds_set_proc. apply core_tasks; [apply Hi|apply (pi_table _ Hp)|]. intros id Hid. rewrite Htab. simpl.
    rewrite (refs_free _ i old); [done|done|done| |done]. intros y Hy. rewrite Hfd in Hy. by apply elem_of_replicate in Hy as [-> _].
  - destruct Hr as [h ->]. destruct Hi. by split.
Qed.

Lemma kernel_step_inv k k' : kernel_inv k -> kernel_step k k' -> kernel_inv k'.
Proof.
  intros Hi Hst. revert Hi. destruct Hst as [k0 nr a1 a2 a3 a4 a5 a6 r k0' Hok E|k0 c t p Ht Hl E|k0 nm entry arg r p Hn E|k0 m]; intros Hi.
  - eapply (safe_done _ _ (fun _ => kernel_inv)); [|exact E]. apply safe_dispatch; [done|done|]. by intros r0 k1 ? _.
  - assert (p = Task.set_current (Some c) (k_proc k0)) as ->; [|by eapply switch_inv].
    unfold proc_set_current in E. pose proof (pi_lock _ (ki_proc _ Hi)) as Hlk.
    eapply (wp_result _ (fun _ p => p = _)); [|exact E]. wp_step. apply wp_proc_lock; [done|]. wp_step. wp_step.
    apply wp_proc_unlock. clear -Hlk. revert Hlk. generalize (k_proc k0). intros []; simpl. by intros ->.
  - eapply (thread_inv k0 nm entry arg r); [done|].
    eapply (wp_result _ (fun r p => create_result _ (k_proc k0) nm entry arg r p)); [|exact E]. by apply wp_create; [apply Hi|..].
  - by apply mem_inv.
Qed.

End Steps.

End Handlers.

(** ** What the calls promise *)

Section Claims.
Context {H F : Type} `{KHeap H, !Vnodes F, !MountedFs F}.
Implicit Types (k : kernel H F).


(** A program can stop the kernel with a pointer: a [read] of a pipe that holds a
    byte, into an address that is not mapped, is a bad access in the kernel. *)
Theorem bad_pointer_faults k c fd buf len r f :
  kernel_inv k -> current_task (k_proc k) = Some c -> buf <> 0 ->
  nm_fd_read (Some c) (i32 fd) true len (fds k) = Done r f -> r.2 <> [] -> k_mem k !! buf = None ->
  sys_read fd buf len k = Stuck BadAddress.
Proof.
  intros Hi Hc Hb Hr Hne Hm. unfold sys_read. destruct (Z.eqb_spec buf 0); [done|].
  assert (Hcur : on_proc task_current k = Done (Some c) k).
  { assert (Hw : wp (on_proc task_current) (fun a k' => a = Some c /\ k' = k) k) by (by apply wp_current).
    apply wp_done in Hw as (a & k' & E & -> & ->). done. }
  assert (Hread : on_fd (nm_fd_read (Some c) (i32 fd) true len) k = Done r (set_fds f k)) by (unfold on_fd, lift_to; by rewrite Hr).
  assert (Hgo : forall A B (g : M (kernel H F) A) (h : A -> M (kernel H F) B) a k0 k1, g k0 = Done a k1 -> (g ≫= h) k0 = h a k1)
    by (intros A B g h a k0 k1 E; unfold mbind, M_bind; by rewrite E).
  rewrite (Hgo _ _ _ _ _ _ _ Hcur), (Hgo _ _ _ _ _ _ _ Hread). unfold store, touch, mbind, M_bind, gets.
  cbn [k_mem set_fds]. destruct (mapped (k_mem k) buf (zlen r.2)) eqn:E; [|done].
  destruct (proj1 (mapped_spec _ _ _) E buf); [|congruence]. destruct r.2; [done|]. unfold zlen. simpl. lia.
Qed.

(** A number with no handler, or past the table, answers [NM_ENOSYS] and changes
    nothing. *)
Theorem unknown_call k nr a1 a2 a3 a4 a5 a6 :
  kernel_inv k -> 0 <= nr -> default None (arr (syscall_table k) nr) = None ->
  wp (syscall_dispatch nr a1 a2 a3 a4 a5 a6) (fun r k' => r = NM_ERR NM_ENOSYS /\ k' = k) k.
Proof. intros. by apply wp_unknown. Qed.

(** The child in slot [i] runs and exits; the parent in slot [c] waits for it. *)
Definition exit_and_wait (i c code n ptr : Z) : M (kernel H F) Z :=
  on_proc (proc_set_current (Some i)) ;; sys_exit code ;; on_proc (proc_set_current (Some c)) ;; sys_waitpid n ptr.

(** C13: an exit code travels through the system calls.  When a program forks, it
    gets the pid of a child in another slot, a copy of it with the same
    descriptors; when the child then exits with a code and the program waits for
    that pid, it gets the pid, and the [int32_t] at its status pointer is the exit
    code; the kernel is in order all along. *)
Theorem fork_exit_wait_status k code ptr :
  kernel_inv k -> next_pid (k_proc k) < INT32_MAX -> all_room (k_objs k) NM_MAX_FDS ->
  ptr <> 0 -> mapped (k_mem k) ptr 4 = true ->
  wp sys_fork (fun n k1 => kernel_inv k1 /\
    (n = NM_ERR NM_EFAIL \/
     exists c i me x, current_task (k_proc k) = Some c /\ arr (task_table (k_proc k)) c = Some me /\
       arr (task_table (k_proc k1)) i = Some x /\ pid x = n /\ fd_table x = fd_table me /\ i <> c /\
       wp (exit_and_wait i c code n ptr)
         (fun r k2 => r = n /\ kernel_inv k2 /\ i32_at (k_mem k2) ptr = i32 code /\
            current_task (k_proc k2) = Some c) k1)) k.
Proof.
  intros Hi Hmax Hroom Hptr Hmap. apply wp_sys_fork; [done|done|done|intros p Hp _; auto|].
  intros c i me x k1 Hc [Hi1 [Hx Hlx] (Hpid & Hpp & Hfd) (Hme & Hme1 & Hne) (Hc1 & Em & _)]. split; [done|]. right.
  exists c, i, me, x. split_and!; try done. unfold exit_and_wait.
  destruct (current_live k1 c Hi1 Hc1) as (t1 & Ht1 & Hlt1).
  destruct (to_pid _ _ (pi_table _ (ki_proc _ Hi1)) i x Hx Hlx) as [Hpr _].
  pose proof (pi_next _ (ki_proc _ Hi1)) as Hnext. unfold INT32_MAX in Hnext.
  wp_step. apply wp_lift. apply wp_set_current; [apply Hi1|intros t [= <-]; eauto|]. intros _.
  pose proof (switch_inv k1 i x Hi1 Hx Hlx) as Hi2. set (k2 := set_k_proc _ k1) in *.
  wp_step. apply wp_sys_exit; [done|done|]. intros i' x' p [= <-] Hx' -> Hi3. simpl in Hx'.
  assert (x' = x) as -> by congruence. set (k3 := set_k_proc _ k2) in *. pose proof (arr_range _ _ _ Hx).
  assert (Hc3 : arr (task_table (k_proc k3)) c = Some t1) by (simpl; by rewrite arr_upd_ne).
  wp_step. apply wp_lift. apply wp_set_current; [apply Hi3|intros t [= <-]; eauto|]. intros _.
  pose proof (switch_inv k3 c t1 Hi3 Hc3 Hlt1) as Hi4. set (k4 := set_k_proc _ k3) in *.
  assert (Hz : arr (task_table (k_proc k4)) i = Some (zombie (i32 code) x)) by (simpl; by apply arr_upd_eq).
  assert (Hcp : current_pid (k_proc k4) = pid me).
  { unfold current_pid. simpl. rewrite arr_upd_ne, Ht1 by done. simpl. rewrite Hme1 in Ht1. by injection Ht1 as <-. }
  unfold sys_waitpid. wp_step. apply wp_lift. rewrite (i32_small (pid x)) by lia.
  apply (wp_wait_zombie (k_proc k4) i (zombie (i32 code) x)); [apply Hi4|done|exact Hz|done|by rewrite Hcp|].
  cbv zeta. intros Hp5. cbn [fst snd pid zombie Task.set_state set_exit_code exit_code].
  destruct (Z.ltb_spec (pid x) 0); [lia|]. destruct (Z.eqb_spec ptr 0); [done|]. cbn [negb default].
  wp_step. apply wp_of_safe, safe_store.
  { change (mapped (k_mem k1) ptr 4 = false -> False). rewrite Em. congruence. }
  wp_step. split_and!; [done| | |done].
  - apply mem_inv. eapply (set_proc_inv k4 _ i _ (freed (zombie (i32 code) x))); [done|done|done|exact Hz|simpl; lia|by left].
  - simpl. apply i32_at_put. unfold i32. Z.to_euclidean_division_equations; lia.
Qed.

(** What a successful exec of the program [name] makes of the calling task. *)
Definition launched (name_ptr : Z) (name : list Z) (entry argv argc envp envc : Z) (t x : nm_task) : Prop :=
  exists nm, c_str nm = take 23 name /\
    x = set_regs (set_rdx envp (set_rsi argv (set_rdi argc (set_rip entry (regs t)))))
          (set_envc envc (set_argc argc (set_name nm (set_entry_name name_ptr t)))).

Lemma launched_spec k c t t1 name_ptr name entry argv envp v w (la lw : list Z) :
  kernel_inv k -> arr (task_table (k_proc k)) c = Some t -> only_fds t t1 -> Forall (fun x => x <> 0) name -> entry <> 0 ->
  count_ptr_vector v = zlen la -> vec_ptr v = argv -> count_ptr_vector w = zlen lw -> vec_ptr w = envp ->
  launched name_ptr name entry argv (zlen la) envp (zlen lw) t1 (exec_task (mk_cstr name_ptr name) entry v w t1).
Proof.
  intros Hi Ht (tbl & mask & -> & _) Hz He Hv <- Hw <-. destruct (slot_shape (k_proc k) c t (ki_proc _ Hi) Ht) as [_ Hnm].
  exists (copy_name (Task.name t) (Some (mk_cstr name_ptr name)) NM_TASK_NAME_MAX). split.
  - change 23%nat with (Z.to_nat (NM_TASK_NAME_MAX - 1)). apply copy_name_c_str; [by rewrite Hnm|done].
  - unfold exec_task. destruct (Z.eqb_spec entry 0); [done|]. rewrite Hv, Hw. reflexivity.
Qed.

(** C15: [sys_exec] on every branch, for pointers that lead to a string and to
    vectors.  It answers an error and changes nothing when the name pointer is null,
    when the file system has no such path, when no entry point is known, or without
    a current task.  Otherwise it answers 0: the calling task, and no other, has
    exactly its close-on-exec descriptors closed and starts at the entry point, with
    the first 23 characters of the path as its name and in its registers the number
    of arguments and the two vectors.  The entry point is the second argument when
    that is below 1 MiB and comes without environment and fourth argument (there are
    no arguments then), else the fourth argument if there is one, else the address
    registered for the path.  Memory is as before. *)
Theorem sys_exec_spec k name_ptr argv_ptr envp_ptr a4 :
  kernel_inv k -> exec_pointers k name_ptr argv_ptr envp_ptr a4 ->
  wp (sys_exec name_ptr argv_ptr envp_ptr a4) (fun r k' =>
    kernel_inv k' /\
    ((r = NM_ERR NM_EFAIL /\ k' = k /\
      (name_ptr = 0 \/ exists name, holds_string (k_mem k) name_ptr name /\
         (Vfs.target (k_vfs k) name false = None \/ current_task (k_proc k) = None \/
          ~ exists entry argv, starts_at (Exec.program_entry name) argv_ptr envp_ptr a4 entry argv))) \/
     (r = 0 /\ k_mem k' = k_mem k /\ k_console k' = k_console k /\ name_ptr <> 0 /\
      exists name entry argv args env c t t1 x,
        holds_string (k_mem k) name_ptr name /\ is_Some (Vfs.target (k_vfs k) name false) /\
        starts_at (Exec.program_entry name) argv_ptr envp_ptr a4 entry argv /\
        vector 64 (k_mem k) argv args /\ vector 64 (k_mem k) envp_ptr env /\
        current_task (k_proc k) = Some c /\ arr (task_table (k_proc k)) c = Some t /\
        exec_closed NM_MAX_FDS t t1 /\ only_fds t t1 /\
        launched name_ptr name entry argv (zlen args) envp_ptr (zlen env) t1 x /\
        task_table (k_proc k') = upd (task_table (k_proc k)) c x))) k.
Proof.
  intros Hi Hp. apply wp_of_safe, safe_sys_exec; [done|done|intros Hn; split; [done|]; left; auto|].
  intros name Hname Hn start. split.
  - intros Hwhy. split; [done|]. left. split_and!; [done|done|]. right. exists name. split; [done|]. tauto.
  - intros entry argv c t t1 f p v w Hst Hc Ht Htg He (la & Hla & Hcv & Hpv) (lw & Hlw & Hcw & Hpw) Hf Hcl Hof -> Hk.
    split; [done|]. right. split_and!; [done..|].
    exists name, entry, argv, la, lw, c, t, t1, (exec_task (mk_cstr name_ptr name) entry v w t1).
    split_and!; try done. eapply (launched_spec k); try done. apply Hname.
Qed.

(** ** Bytes through a pipe *)

Lemma holds_fds (f : fdst (Vfs.vfs F)) c rdfd wrfd n q :
  holds f c rdfd wrfd n q -> 0 <= rdfd < 32 /\ 0 <= wrfd < 32.
Proof.
  intros [Hf (t & rid & wid & ro & wo & p & Ht & _ & Hr & Hw & _) _].
  destruct (Forall_arr task_shape _ _ _ (fc_shape _ (proj1 Hf)) Ht) as [Hl _]. unfold NM_MAX_FDS in Hl.
  pose proof (arr_range _ _ _ Hr). pose proof (arr_range _ _ _ Hw). lia.
Qed.

Lemma wp_write_end k c rdfd wrfd n q buf len (Q : Z -> kernel H F -> Prop) :
  kernel_inv k -> current_task (k_proc k) = Some c -> holds (fds k) c rdfd wrfd n q -> 1 <= n -> buf <> 0 -> 0 <= len ->
  mapped (k_mem k) buf len = true ->
  (forall f, let w := Z.min len (NM_PIPE_BUF - zlen q) in
     holds f c rdfd wrfd (n - 1) (q ++ take (Z.to_nat w) (bytes_at (k_mem k) buf len)) ->
     kernel_inv (set_fds f k) -> 0 <= w -> Q w (set_fds f k)) ->
  wp (sys_write wrfd buf len) Q k.
Proof.
  intros Hi Hc Hh Hn Hb Hl Hmap HQ. destruct (holds_fds _ _ _ _ _ _ Hh) as [_ Hwr]. pose proof (zlen_bytes_at (k_mem k) buf len Hl) as Hz.
  unfold sys_write. destruct (Z.eqb_spec buf 0); [done|]. wp_step. apply wp_current; [done|]. rewrite Hc. wp_step. wp_step. wp_step.
  rewrite i32_small by lia. rewrite <- Hz at 2. set (data := bytes_at (k_mem k) buf len) in *.
  assert (Hq : 0 <= NM_PIPE_BUF - zlen q).
  { destruct Hh as [Hf (t & rid & wid & ro & wo & p & _ & _ & _ & _ & _ & _ & _ & _ & _ & Hp & <-) _].
    destruct (pipe_view_arr _ _ _ Hp) as [Hpa Hpu].
    destruct (po_ends _ _ _ (tb_pipe _ _ (fc_tables _ (proj1 Hf)) _ _ Hpa) Hpu) as (Hwf & _). rewrite contents_len by done.
    pose proof (pw_bound _ Hwf). lia. }
  apply (wp_on_fd _ k (fun w f => w = Z.min len (NM_PIPE_BUF - zlen q) /\
    holds f c rdfd wrfd (n - 1) (q ++ take (Z.to_nat w) data))); [done|apply keeps_fd_write| |by intros ? ? [_ []]|].
  - eapply wp_mono; [exact (wp_bind_inv _ _ _ _ (fifo_step (fds k) c rdfd wrfd n q (Write data) Hh I Hn))|].
    intros w f [Hw Hf]. simpl in Hw, Hf. injection Hw as ->. rewrite Hz in *. done.
  - intros w f [-> Hf] _ Hk. wp_step. apply wp_of_safe, safe_touch.
    { cbn [k_mem set_fds]. rewrite (mapped_sub _ _ _ buf (Z.min len (NM_PIPE_BUF - zlen q)) Hmap) by lia. done. }
    destruct (Z.leb_spec 0 (Z.min len (NM_PIPE_BUF - zlen q))); [|lia]. wp_step. by apply HQ.
Qed.

Lemma wp_read_end k c rdfd wrfd n q dst len (Q : Z -> kernel H F -> Prop) :
  kernel_inv k -> current_task (k_proc k) = Some c -> holds (fds k) c rdfd wrfd n q -> 1 <= n -> dst <> 0 -> 0 <= len ->
  mapped (k_mem k) dst len = true ->
  (forall f, let r := Z.min len (zlen q) in
     holds f c rdfd wrfd (n - 1) (drop (Z.to_nat r) q) -> kernel_inv (set_fds f k) ->
     Q r (set_k_mem (put_bytes (k_mem k) dst (take (Z.to_nat r) q)) (set_fds f k))) ->
  wp (sys_read rdfd dst len) Q k.
Proof.
  intros Hi Hc Hh Hn Hb Hl Hmap HQ. destruct (holds_fds _ _ _ _ _ _ Hh) as [Hrd _].
  unfold sys_read. destruct (Z.eqb_spec dst 0); [done|]. wp_step. apply wp_current; [done|]. rewrite Hc. wp_step.
  rewrite i32_small by lia.
  apply (wp_on_fd _ k (fun r f => r = (Z.min len (zlen q), take (Z.to_nat (Z.min len (zlen q))) q) /\
    holds f c rdfd wrfd (n - 1) (drop (Z.to_nat (Z.min len (zlen q))) q))); [done|apply keeps_fd_read| |by intros ? ? [_ []]|].
  - eapply wp_mono; [exact (wp_bind_inv _ _ _ _ (fifo_step (fds k) c rdfd wrfd n q (Read len) Hh Hl Hn))|].
    intros [r bs] f [Hw Hf]. simpl in Hw, Hf. by injection Hw as -> ->.
  - intros r f [-> Hf] _ Hk. wp_step. apply wp_of_safe, safe_store; [|wp_step; by apply HQ].
    cbn [k_mem set_fds snd]. rewrite (mapped_sub _ _ _ dst _ Hmap); [done|lia|]. unfold zlen in *. rewrite length_take. lia.
Qed.

(** A program makes a pipe, reads the two descriptors from its memory, writes
    [len] bytes and reads them into another place. *)
Definition pipe_copy (ptr buf dst len : Z) : M (kernel H F) (option (Z * Z)) :=
  r ← sys_pipe ptr;
  if negb (r =? 0) then mret None else
  m ← gets k_mem;
  w ← sys_write (i32_at m (ptr + 4)) buf len;
  n ← sys_read (i32_at m ptr) dst len;
  mret (Some (w, n)).

(** C14: bytes travel through the system calls, between places in the memory of the
    program.  When a program makes a pipe, the two [int32_t] at its pointer are the
    descriptors of the two ends: up to 512 bytes written to the one and read from the
    other arrive in memory as they were, and the kernel is in order; the pipe can only
    fail for want of pipes, descriptors or objects. *)
Theorem pipe_copy_spec k c t ptr buf dst len :
  kernel_inv k -> current_task (k_proc k) = Some c -> arr (task_table (k_proc k)) c = Some t ->
  (forall j p, arr (k_pipes k) j = Some p -> p_used p = true -> write_pos p + 3 * NM_PIPE_BUF < 2 ^ 64) ->
  ptr <> 0 -> buf <> 0 -> dst <> 0 -> 0 <= len <= NM_PIPE_BUF -> buf + len <= ptr \/ ptr + 8 <= buf ->
  mapped (k_mem k) ptr 8 = true -> mapped (k_mem k) buf len = true -> mapped (k_mem k) dst len = true ->
  wp (pipe_copy ptr buf dst len) (fun r k' => kernel_inv k' /\
    match r with
    | None => shortage (fds k) t
    | Some (w, n) => w = len /\ n = len /\ bytes_at (k_mem k') dst len = bytes_at (k_mem k) buf len
    end) k.
Proof.
  intros Hi Hc Ht Hpos Hptr Hbuf Hdst Hlen Hdis Hmp Hmb Hmd. destruct (current_live k c Hi Hc) as (t' & Ht' & Hl).
  assert (t' = t) as -> by congruence. unfold pipe_copy. wp_step. apply wp_of_safe, safe_sys_pipe; [done|by rewrite Hmp|intros []; congruence|..].
  { intros c' f Hc' (_ & _ & _ & t0 & Ht0 & Hs) Hk. change (negb (NM_ERR NM_EFAIL =? 0)) with true. wp_go. split; [done|].
    assert (c' = c) as -> by congruence. simpl in Ht0. by assert (t0 = t) as -> by congruence. }
  intros c' f rdfd wrfd _ Hc' Hf Hmade Hk. assert (c' = c) as -> by congruence.
  assert (Hh : holds f c rdfd wrfd 2 []) by (by eapply (made_holds (fds k) f c t)).
  destruct (holds_fds _ _ _ _ _ _ Hh) as [Hrd Hwr].
  change (negb (0 =? 0)) with false. wp_step. wp_step. wp_step. cbn [k_mem set_k_mem].
  rewrite i32_at_put, (i32_at_other _ (ptr + 4)), i32_at_put by lia. wp_step.
  set (k1 := set_k_mem _ _). set (m1 := put_i32 (put_i32 _ _ _) _ _) in *.
  assert (Hmem : bytes_at m1 buf len = bytes_at (k_mem k) buf len).
  { unfold m1, put_i32. rewrite !bytes_at_other; [done|change (zlen (le32 rdfd)) with 4; lia|change (zlen (le32 wrfd)) with 4; lia]. }
  assert (Hz : zlen (bytes_at m1 buf len) = len) by (apply zlen_bytes_at; lia).
  eapply (wp_write_end k1 c rdfd wrfd 2 []); [by apply mem_inv|done| |lia|done|lia|by do 2 apply mapped_put|].
  { unfold k1. change (fds (set_k_mem m1 (set_fds f k))) with (fds (set_fds f k)). by rewrite set_fds_fds. }
  intros f2 w Hh2 Hk2 _. change (zlen (@nil Z)) with 0 in *. assert (w = len) as Hw by (unfold w; lia).
  change (k_mem k1) with m1 in Hh2. rewrite app_nil_l, Hw, firstn_all2 in Hh2 by (unfold zlen in Hz; lia). rewrite Hw. wp_step.
  eapply (wp_read_end (set_fds f2 k1) c rdfd wrfd (2 - 1)); [done|done|by rewrite set_fds_fds|lia|done|lia|by do 2 apply mapped_put|].
  intros f3 r _ Hk3. assert (r = len) as Hr by (unfold r; lia). wp_step. split; [by apply mem_inv|]. split_and!; [done|done|].
  cbn [k_mem set_k_mem]. rewrite Hr, firstn_all2 by (unfold zlen in Hz; lia). rewrite <- Hz at 2. rewrite bytes_at_put. done.
Qed.

End Claims.

(** ** A concrete kernel

    The first task after boot, tmpfs mounted with no file open, and a program that
    has the string "/" at address 100, a vector of that one string at 240, and zeros
    from 200 to 399 elsewhere. *)

Section Examples.
#[local] Existing Instances Kheap.kheap_KHeap Tmpfs.tmpfs_Vnodes Tmpfs.tmpfs_MountedFs.
Abbreviation concrete := (kernel Kheap.kheap (Tmpfs.tmpfs Kheap.kheap)).

Definition memory0 : memory := put_bytes (put_bytes (put_bytes ∅ 100 [47; 0]) 200 (replicate 200 0)) 240 [100].

Definition kernel0_on (v : Vfs.vfs (Tmpfs.tmpfs Kheap.kheap)) : concrete :=
  mk_kernel (replicate 128 None) boot1 (replicate 16 (mk_pipe false (replicate 512 0) 0 0 0 0))
    (replicate 128 (mk_obj false 0 NM_FDOBJ_NONE 0 0)) 0 v memory0 [].
Definition kernel1_on (v : Vfs.vfs (Tmpfs.tmpfs Kheap.kheap)) : concrete := Eval vm_compute in
  match syscall_init (kernel0_on v) with Done _ k => k | Stuck _ => kernel0_on v end.
(** After a fork. *)
Definition kernel2_on (v : Vfs.vfs (Tmpfs.tmpfs Kheap.kheap)) : concrete := Eval vm_compute in
  match syscall_dispatch 8 0 0 0 0 0 0 (kernel1_on v) with Done _ k => k | Stuck _ => kernel0_on v end.

Definition kernel0 : concrete := kernel0_on Vfs.vfs1.
Definition kernel1 : concrete := kernel1_on Vfs.vfs1.
Definition kernel2 : concrete := kernel2_on Vfs.vfs1.

Lemma kernel1_run v : syscall_init (kernel0_on v) = Done tt (kernel1_on v).
Proof. vm_compute. reflexivity. Qed.

Lemma kernel2_run v : syscall_dispatch 8 0 0 0 0 0 0 (kernel1_on v) = Done 2 (kernel2_on v).
Proof. vm_compute. reflexivity. Qed.

Lemma kernel0_ok : boot_ok kernel0.
Proof.
  split; [|exact Vfs.vfs1_inv]. split; [exact boot1_inv| | |split; [done|by apply Forall_replicate]|done|].
  - by repeat constructor.
  - done.
  - intros id Hid. apply sumZ_zero. intros t Ht. apply elem_of_cons in Ht as [->|Ht].
    2: { change (t ∈ drop 1 (task_table boot1)) in Ht. assert (E : drop 1 (task_table boot1) = replicate 127 task0) by (vm_compute; reflexivity).
      rewrite E in Ht. by apply elem_of_replicate in Ht as [-> _]. }
    change (countb (fun x => x =? id) (replicate 32 (-1)) = 0). apply countb_none.
    intros x [-> _]%elem_of_replicate. apply Z.eqb_neq. lia.
Qed.

Lemma kernel1_init : syscall_init kernel0 = Done tt kernel1.
Proof. apply kernel1_run. Qed.

Lemma kernel1_inv : kernel_inv kernel1.
Proof.
  eapply (wp_result _ (fun _ => kernel_inv)); [|exact kernel1_init]. apply wp_syscall_init; [exact kernel0_ok|].
  by intros k' ? _ _ _.
Qed.

Lemma kernel1_room : all_room (k_objs kernel1) NM_MAX_FDS.
Proof.
  assert (Hu : Forall (fun o => o_used o = false) (k_objs kernel1)) by repeat constructor.
  intros id o Ho Ho'. pose proof (Forall_arr _ _ _ _ Hu Ho) as E. simpl in E. congruence.
Qed.


(** An address that the program does not have stops the kernel. *)
Example bad_pointer_run : pipe_copy 200 100 5000 2 kernel1 = Stuck BadAddress.
Proof. vm_compute. reflexivity. Qed.

Lemma fork_exit_status_witness :
  wp sys_fork (fun n k1 => kernel_inv k1 /\
    (n = NM_ERR NM_EFAIL \/
     exists c i me x, current_task (k_proc kernel1) = Some c /\ arr (task_table (k_proc kernel1)) c = Some me /\
       arr (task_table (k_proc k1)) i = Some x /\ pid x = n /\ fd_table x = fd_table me /\ i <> c /\
       wp (exit_and_wait i c 7 n 200)
         (fun r k2 => r = n /\ kernel_inv k2 /\ i32_at (k_mem k2) 200 = i32 7 /\
            current_task (k_proc k2) = Some c) k1)) kernel1.
Proof. apply (fork_exit_wait_status kernel1 7 200); [exact kernel1_inv|vm_compute; reflexivity|exact kernel1_room|done|vm_compute; reflexivity]. Defined.

Lemma exec_pointers_100 : exec_pointers kernel1 100 240 0 4096.
Proof.
  intros _. exists [47]. split; [apply str_at_iff; vm_compute; reflexivity|].
  intros entry argv Hst. assert (argv = 240) as -> by (by inversion Hst).
  split; [exists [100]|exists []; by left]. apply (ptrs_at_sound 64); [vm_compute; reflexivity|done].
Qed.

Lemma sys_exec_witness :
  wp (sys_exec 100 240 0 4096) (fun r k' =>
    kernel_inv k' /\
    ((r = NM_ERR NM_EFAIL /\ k' = kernel1 /\
      (100 = 0 \/ exists name, holds_string (k_mem kernel1) 100 name /\
         (Vfs.target (k_vfs kernel1) name false = None \/ current_task (k_proc kernel1) = None \/
          ~ exists entry argv, starts_at (Exec.program_entry name) 240 0 4096 entry argv))) \/
     (r = 0 /\ k_mem k' = k_mem kernel1 /\ k_console k' = k_console kernel1 /\ 100 <> 0 /\
      exists name entry argv args env c t t1 x,
        holds_string (k_mem kernel1) 100 name /\ is_Some (Vfs.target (k_vfs kernel1) name false) /\
        starts_at (Exec.program_entry name) 240 0 4096 entry argv /\
        vector 64 (k_mem kernel1) argv args /\ vector 64 (k_mem kernel1) 0 env /\
        current_task (k_proc kernel1) = Some c /\ arr (task_table (k_proc kernel1)) c = Some t /\
        exec_closed NM_MAX_FDS t t1 /\ only_fds t t1 /\
        launched 100 name entry argv (zlen args) 0 (zlen env) t1 x /\
        task_table (k_proc k') = upd (task_table (k_proc kernel1)) c x))) kernel1.
Proof. apply (sys_exec_spec kernel1 100 240 0 4096); [exact kernel1_inv|exact exec_pointers_100]. Defined.

(** The call succeeds there: the path is the root directory. *)
Definition after_exec (argv_ptr a4 : Z) : option (Z * Z * Z * Z) :=
  match sys_exec 100 argv_ptr 0 a4 kernel1 with
  | Done 0 k => (fun t => (rip (regs t), argc t, rdi (regs t), rsi (regs t))) <$> arr (task_table (k_proc k)) 0
  | _ => None
  end.

Example exec_run : after_exec 240 4096 = Some (4096, 1, 1, 240).
Proof. vm_compute. reflexivity. Qed.

(** The second argument as the entry point. *)
Example exec_second_run : after_exec 8192 0 = Some (8192, 0, 0, 0).
Proof. vm_compute. reflexivity. Qed.

(** No entry point. *)
Example exec_none_run : match sys_exec 100 0 0 0 kernel1 with Done r _ => r = NM_ERR NM_EFAIL | Stuck _ => False end.
Proof. vm_compute. reflexivity. Qed.

Definition first_task : nm_task := Eval vm_compute in default task0 (arr (task_table (k_proc kernel1)) 0).

Lemma pipe_copy_witness :
  wp (pipe_copy 200 100 300 2) (fun r k' => kernel_inv k' /\
    match r with
    | None => shortage (fds kernel1) first_task
    | Some (w, n) => w = 2 /\ n = 2 /\ bytes_at (k_mem k') 300 2 = bytes_at (k_mem kernel1) 100 2
    end) kernel1.
Proof.
  apply (pipe_copy_spec kernel1 0 first_task 200 100 300 2);
    [exact kernel1_inv|reflexivity|reflexivity| |done|done|done|unfold NM_PIPE_BUF; lia|lia|vm_compute; reflexivity..].
  assert (Hu : Forall (fun p => write_pos p = 0) (k_pipes kernel1)) by repeat constructor.
  intros j p Hp _. rewrite (Forall_arr _ _ _ _ Hu Hp). done.
Defined.

Example pipe_copy_run :
  match pipe_copy 200 100 300 2 kernel1 with
  | Done r k => r = Some (2, 2) /\ bytes_at (k_mem k) 300 2 = [47; 0]
  | Stuck _ => False
  end.
Proof. vm_compute. done. Qed.

End Examples.

End Syscall.
