(* ===== verification/Boot.v ===== *)
(** * Boot ([kernel/kmain.c], [kernel/userspace/init.c], [mm_init] of [mm/kheap.c])

    The start of the kernel over all the components, on one machine: one heap,
    which the tasks and tmpfs share, one page allocator, which the heap and the
    page tables share, and one set of devices behind the ports.  A routine of a
    component runs on the view of the machine that the component has. *)

From S2P Require Import Prelude Interfaces Pmm Vmm Kheap Task Sched Threads Fd Ring Klog Ports Console Irq Drivers Desc Pci.
From S2P Require Import Fs Tmpfs Vfs Net Exec Shell Syscall.
From Stdlib Require Import String.
Import Ports.

#[local] Existing Instances Drivers.pc_pic Drivers.pc_kbd.

(** The devices of the board: each answers at its own ports and ignores the
    others. *)
Class Board (D : Type) `{PortIO D} := {
  bd_uart :: Uart D;
  bd_pc :: Drivers.PcDevices D;
  bd_pci :: PciHost D;

  line_in p d : ~ Console.uart_port p -> lcr (port_in p d).2 = lcr d /\ sent (port_in p d).2 = sent d;
  line_out p v d : ~ Console.uart_port p -> lcr (port_out p v d) = lcr d /\ sent (port_out p v d) = sent d;
  pics_in p d : ~ Drivers.driver_port p -> pics (port_in p d).2 = pics d;
  pics_out p v d : ~ Drivers.driver_port p -> pics (port_out p v d) = pics d;
  keys_in p d : p <> 0x60 -> scancodes (port_in p d).2 = scancodes d;
  keys_out p v d : p <> 0x60 -> p <> 0x64 -> scancodes (port_out p v d) = scancodes d;
  bus_in p d : ~ Pci.pci_port p -> cfg_address (port_in p d).2 = cfg_address d /\ cfg_register (port_in p d).2 = cfg_register d;
  bus_out p v d : ~ Pci.pci_port p -> cfg_address (port_out p v d) = cfg_address d /\ cfg_register (port_out p v d) = cfg_register d;
}.

Module Boot.

#[local] Existing Instances Kheap.kheap_KHeap Tmpfs.tmpfs_Vnodes Tmpfs.tmpfs_MountedFs Vfs.vfs_FileSys.

Abbreviation files := (Tmpfs.tmpfs Kheap.kheap).

(** ** The machine *)

(** The addresses the linker and the assembler give: the ends of the image and of
    the stack of the boot code, the tables of the processor, the stubs, the trampoline, the names and bodies of the
    two threads, and the table of devices. *)
Record image := mk_image {
  kernel_start : Z; kernel_end : Z; boot_stack : Z; boot_stack_top : Z;
  gdt_addr : Z; idt_addr : Z; tss_addr : Z;
  isr_ud : Z; isr_df : Z; isr_gp : Z; isr_pf : Z; isr_irq0 : Z; isr_irq1 : Z;
  trampoline : Z; idle_name : Z; idle_thread : Z; worker_name : Z; worker_thread : Z;
  pci_table : Z;
}.

(** The parts hold no second copy of what they share: the heap in [m_kernel], the
    allocator in [m_vmm], the devices in [m_irq] and [m_pci] are replaced by
    [m_heap] and [m_dev] whenever a routine runs. *)
Record machine (D : Type) := mk_machine {
  m_dev : D;
  m_log : Klog.klog;
  m_vga : Console.vga;
  m_desc : Desc.desc;
  m_heap : Kheap.kheap;
  m_vmm : Vmm.vmm Pmm.pmm;
  m_kernel : Syscall.kernel Kheap.kheap files;
  m_sched : Sched.sched_st Kheap.kheap;
  m_irq : Irq.irqst (Drivers.drv D);
  m_pci : Pci.pci (D := D);
  m_net : Net.net;
}.
Arguments mk_machine {D} _ _ _ _ _ _ _ _ _ _ _.
Arguments m_dev {D} _.
Arguments m_log {D} _.
Arguments m_vga {D} _.
Arguments m_desc {D} _.
Arguments m_heap {D} _.
Arguments m_vmm {D} _.
Arguments m_kernel {D} _.
Arguments m_sched {D} _.
Arguments m_irq {D} _.
Arguments m_pci {D} _.
Arguments m_net {D} _.

(** ** The views *)

Section views.
Context {D : Type}.
Implicit Types (s : machine D).

Definition console_of s : Console.console D := Console.mk_console (m_log s) (m_dev s) (m_vga s).
Definition set_console (c : Console.console D) s : machine D :=
  mk_machine (Console.c_dev c) (Console.c_log c) (Console.c_vga c) (m_desc s) (m_heap s) (m_vmm s) (m_kernel s) (m_sched s)
    (m_irq s) (m_pci s) (m_net s).

Definition set_desc (x : Desc.desc) s : machine D :=
  mk_machine (m_dev s) (m_log s) (m_vga s) x (m_heap s) (m_vmm s) (m_kernel s) (m_sched s) (m_irq s) (m_pci s) (m_net s).

Definition set_heap (h : Kheap.kheap) s : machine D :=
  mk_machine (m_dev s) (m_log s) (m_vga s) (m_desc s) h (m_vmm s) (m_kernel s) (m_sched s) (m_irq s) (m_pci s) (m_net s).

Definition pmm_of s : Pmm.pmm := Kheap.kh_pmm (m_heap s).
Definition set_pmm (p : Pmm.pmm) s : machine D := set_heap (Kheap.set_pmm p (m_heap s)) s.

Definition vmm_of s : Vmm.vmm Pmm.pmm := Vmm.set_phys (pmm_of s) (m_vmm s).
Definition set_vmm (v : Vmm.vmm Pmm.pmm) s : machine D :=
  mk_machine (m_dev s) (m_log s) (m_vga s) (m_desc s) (Kheap.set_pmm (Vmm.phys v) (m_heap s)) v (m_kernel s) (m_sched s)
    (m_irq s) (m_pci s) (m_net s).

Definition set_kernel (k : Syscall.kernel Kheap.kheap files) s : machine D :=
  mk_machine (m_dev s) (m_log s) (m_vga s) (m_desc s) (m_heap s) (m_vmm s) k (m_sched s) (m_irq s) (m_pci s) (m_net s).

Definition proc_of s : Task.proc Kheap.kheap := Task.set_heap (m_heap s) (Syscall.k_proc (m_kernel s)).
Definition set_proc (p : Task.proc Kheap.kheap) s : machine D :=
  set_heap (Task.proc_heap p) (set_kernel (Syscall.set_k_proc p (m_kernel s)) s).

Definition vfs_of s : Vfs.vfs files :=
  let v := Syscall.k_vfs (m_kernel s) in
  Vfs.set_nodefs (Tmpfs.set_heap (m_heap s) (Vfs.nodefs v)) v.
Definition set_vfs (v : Vfs.vfs files) s : machine D :=
  set_heap (Tmpfs.heap (Vfs.nodefs v)) (set_kernel (Syscall.set_k_vfs v (m_kernel s)) s).

(** What the system calls see. *)
Definition kernel_of s : Syscall.kernel Kheap.kheap files := Syscall.set_k_vfs (vfs_of s) (Syscall.set_k_proc (proc_of s) (m_kernel s)).

Definition sched_of s : Sched.sched_st Kheap.kheap := Sched.set_sc_proc (proc_of s) (m_sched s).
Definition set_sched (x : Sched.sched_st Kheap.kheap) s : machine D :=
  let s := set_proc (Sched.sc_proc x) s in
  mk_machine (m_dev s) (m_log s) (m_vga s) (m_desc s) (m_heap s) (m_vmm s) (m_kernel s) x (m_irq s) (m_pci s) (m_net s).

Definition irq_of s : Irq.irqst (Drivers.drv D) := Irq.set_world (Drivers.set_dev (m_dev s) (Irq.world (m_irq s))) (m_irq s).
Definition set_irq (i : Irq.irqst (Drivers.drv D)) s : machine D :=
  mk_machine (Drivers.d_dev (Irq.world i)) (m_log s) (m_vga s) (m_desc s) (m_heap s) (m_vmm s) (m_kernel s) (m_sched s)
    i (m_pci s) (m_net s).

Definition pci_of s : Pci.pci (D := D) := Pci.set_dev (m_dev s) (m_pci s).
Definition set_pci (x : Pci.pci (D := D)) s : machine D :=
  mk_machine (Pci.p_dev x) (m_log s) (m_vga s) (m_desc s) (m_heap s) (m_vmm s) (m_kernel s) (m_sched s) (m_irq s) x (m_net s).

Definition set_net (x : Net.net) s : machine D :=
  mk_machine (m_dev s) (m_log s) (m_vga s) (m_desc s) (m_heap s) (m_vmm s) (m_kernel s) (m_sched s) (m_irq s) (m_pci s) x.

Definition on_console {A} (c : M (Console.console D) A) : M (machine D) A := lift_to console_of set_console c.
Definition on_desc {A} (c : M Desc.desc A) : M (machine D) A := lift_to m_desc set_desc c.
Definition on_pmm {A} (c : M Pmm.pmm A) : M (machine D) A := lift_to pmm_of set_pmm c.
Definition on_vmm {A} (c : M (Vmm.vmm Pmm.pmm) A) : M (machine D) A := lift_to vmm_of set_vmm c.
(** For the routines that touch no heap. *)
Definition on_kernel {A} (c : M (Syscall.kernel Kheap.kheap files) A) : M (machine D) A := lift_to kernel_of set_kernel c.
Definition on_proc {A} (c : M (Task.proc Kheap.kheap) A) : M (machine D) A := lift_to proc_of set_proc c.
Definition on_vfs {A} (c : M (Vfs.vfs files) A) : M (machine D) A := lift_to vfs_of set_vfs c.
Definition on_sched {A} (c : M (Sched.sched_st Kheap.kheap) A) : M (machine D) A := lift_to sched_of set_sched c.
Definition on_irq {A} (c : M (Irq.irqst (Drivers.drv D)) A) : M (machine D) A := lift_to irq_of set_irq c.
Definition on_pci {A} (c : M (Pci.pci (D := D)) A) : M (machine D) A := lift_to pci_of set_pci c.
Definition on_net {A} (c : M Net.net A) : M (machine D) A := lift_to m_net set_net c.
End views.

(** ** The routines *)

Definition NEWLINE : Z := 10.
Definition line (t : string) : list Z := chars t ++ [NEWLINE].

(** [tmpfs_filesystem]. *)
Definition tmpfs_filesystem : Vfs.nm_filesystem files := Vfs.mk_filesystem (chars "tmpfs") (Some Tmpfs.tmpfs_ops).

Definition boot_script : list Z := line "echo NeverMind shell booted > /motd" ++ line "cat /motd".

Section ops.
Context {D : Type} `{Board D}.
(** The addresses; the boot information and where the boot code put the root of the
    page tables; what is on the stack where the C code declares an array. *)
Context (im : image) (info : Z -> Z) (cr3 : Z) (stack out_stack num_stack : list Z).
Abbreviation S := (machine D).

Definition console_write (t : list Z) : M S unit := on_console (Console.console_write t).
Definition console_write_u64 (value : Z) : M S unit := on_console (Console.console_write_u64 num_stack value).

Definition kernel_banner : M S unit :=
  console_write (line "NeverMind kernel (M8)") ;;
  console_write (line "arch: x86_64") ;;
  console_write (line "boot: BIOS+UEFI via GRUB multiboot2").

Definition mm_init (mb2_info_ptr : Z) : M S unit :=
  on_pmm (Pmm.pmm_init_from_multiboot2 (kernel_start im) (kernel_end im) info mb2_info_ptr) ;;
  on_vmm (Vmm.vmm_init cr3).

(** The address of a device of the table. *)
Definition device_ptr (r : option Z) : Z := match r with None => 0 | Some i => pci_table im + i * 32 end.

Definition rtl8139_init : M S Z :=
  r ← on_pci (Pci.pci_find_device 0x10EC 0x8139);
  on_net (Net.rtl8139_init (device_ptr r)).

(** [shell_init] is empty. *)
Definition userspace_init : M S unit :=
  console_write (line "[00.001100] userspace shell ready") ;;
  r ← on_vfs (Shell.shell_run_script stack (Some boot_script) (Some out_stack) 512);
  if negb (r.1 =? 0) then mret tt else
  first ← rd (fun _ => default [] r.2) 0;
  if first =? 0 then mret tt else
  t ← rd_str (default [] r.2);
  console_write t.

(** [kmain], in the parts its messages mark, up to the loop. *)
Definition start_processor : M S unit :=
  on_console (Console.on_log Klog.klog_init) ;;
  on_console Console.console_init ;;
  console_write (line "[00.000000] early console ready") ;;
  on_desc (Desc.gdt_init (gdt_addr im) (tss_addr im)) ;;
  console_write (line "[00.000100] gdt ready") ;;
  on_desc Desc.cpu_enable_sse ;;
  on_desc (Desc.idt_init (idt_addr im) (isr_ud im) (isr_df im) (isr_gp im) (isr_pf im) (isr_irq0 im) (isr_irq1 im)) ;;
  console_write (line "[00.000200] idt ready") ;;
  on_desc Desc.tss_init ;;
  console_write (line "[00.000300] tss ready").

Definition start_memory (mb2_info : Z) : M S unit :=
  mm_init mb2_info ;;
  stats ← on_pmm Pmm.pmm_get_stats;
  console_write (chars "[00.000400] mm ready: free_pages=") ;;
  console_write_u64 (Pmm.free_frames stats) ;;
  console_write (chars " used_pages=") ;;
  console_write_u64 (Pmm.used_frames stats) ;;
  console_write [NEWLINE].

Definition start_processes : M S unit :=
  on_proc Task.proc_init ;;
  on_proc (Task.task_create_kernel_thread (trampoline im) (Some (mk_cstr (idle_name im) (chars "idle/0"))) (idle_thread im) 0) ;;
  on_proc (Task.task_create_kernel_thread (trampoline im) (Some (mk_cstr (worker_name im) (chars "kworker/0"))) (worker_thread im) 0) ;;
  on_sched (Sched.sched_init Sched.NM_SCHED_RR) ;;
  console_write (line "[00.000500] proc+sched ready: policy=RR").

Definition start_files : M S unit :=
  on_kernel Syscall.syscall_init ;;
  console_write (line "[00.000600] syscall ready") ;;
  on_vfs Vfs.fs_init ;;
  r ← on_vfs (Vfs.fs_mount_root (Some tmpfs_filesystem));
  if r =? 0 then console_write (line "[00.000700] fs ready: root=tmpfs")
  else console_write (line "[00.000700] fs ready: mount failed").

Definition start_devices : M S unit :=
  on_irq (Drivers.start 100) ;;
  on_pci Pci.pci_init ;;
  r ← rtl8139_init;
  (if r =? 0 then console_write (line "[00.000800] drivers ready: pit/kbd/pci/rtl8139")
   else console_write (line "[00.000800] drivers ready: pit/kbd/pci (rtl8139 missing)")) ;;
  on_net Net.net_init ;;
  console_write (line "[00.000900] net ready: arp/ipv4/icmp/udp/tcp/socket").

Definition kmain (mb2_info : Z) : M S unit :=
  start_processor ;;
  start_memory mb2_info ;;
  start_processes ;;
  start_files ;;
  start_devices ;;
  userspace_init ;;
  kernel_banner ;;
  console_write (line "[00.001000] NeverMind: M8 hardening+ci ready").
End ops.

(** ** The devices are left alone by the others *)

Section devices.
Context {D : Type} `{Board D}.
Implicit Types (d : D).

Lemma not_driver p : Console.uart_port p \/ Pci.pci_port p -> ~ Drivers.driver_port p.
Proof.
  unfold Console.uart_port, Pci.pci_port, Drivers.driver_port. intros Hp Hin.
  repeat (apply elem_of_cons in Hin as [->|Hin]; [lia|]). by apply elem_of_nil in Hin.
Qed.

Lemma not_line p : Drivers.driver_port p \/ Pci.pci_port p -> ~ Console.uart_port p.
Proof. intros [Hp|Hp] Hu; [eapply not_driver; eauto|]. unfold Console.uart_port, Pci.pci_port in *. lia. Qed.

Lemma not_bus p : Drivers.driver_port p \/ Console.uart_port p -> ~ Pci.pci_port p.
Proof. intros [Hp|Hp] Hu; [eapply not_driver; eauto|]. unfold Console.uart_port, Pci.pci_port in *. lia. Qed.

Lemma not_keys p : Drivers.driver_port p \/ Console.uart_port p \/ Pci.pci_port p -> p <> 0x60 /\ p <> 0x64.
Proof.
  unfold Console.uart_port, Pci.pci_port, Drivers.driver_port. intros [Hp|Hp]; [|lia].
  repeat (apply elem_of_cons in Hp as [->|Hp]; [done|]). by apply elem_of_nil in Hp.
Qed.

Lemma line_via P d d' : (forall p, P p -> Drivers.driver_port p \/ Pci.pci_port p) -> via P d d' -> lcr d' = lcr d /\ sent d' = sent d.
Proof. intros HP Hv. split; eapply via_same; try exact Hv; intros; [apply line_in|apply line_out|apply line_in|apply line_out]; by apply not_line, HP. Qed.

Lemma pics_via P d d' : (forall p, P p -> Console.uart_port p \/ Pci.pci_port p) -> via P d d' -> pics d' = pics d.
Proof. intros HP Hv. eapply via_same; [| |exact Hv]; intros; [apply pics_in|apply pics_out]; by apply not_driver, HP. Qed.

Lemma keys_via P d d' :
  (forall p, P p -> Drivers.driver_port p \/ Console.uart_port p \/ Pci.pci_port p) -> via P d d' -> scancodes d' = scancodes d.
Proof. intros HP Hv. eapply via_same; [| |exact Hv]; intros; [apply keys_in|apply keys_out]; by apply (not_keys p), HP. Qed.

Lemma bus_via P d d' : (forall p, P p -> Drivers.driver_port p \/ Console.uart_port p) -> via P d d' ->
  cfg_register d' = cfg_register d /\ (Pci.idle d -> Pci.idle d').
Proof.
  intros HP Hv. assert (cfg_address d' = cfg_address d) as Ea.
  { eapply via_same; [| |exact Hv]; intros; [apply bus_in|apply bus_out]; by apply not_bus, HP. }
  split; [|unfold Pci.idle; by rewrite Ea]. eapply via_same; [| |exact Hv]; intros; [apply bus_in|apply bus_out]; by apply not_bus, HP.
Qed.

(** What the console leaves alone: the controllers and the keys, and before the scan
    the bus. *)
Record calm (d0 : D) (ps : Drivers.chip * Drivers.chip) d : Prop := mk_calm {
  ca_pics : pics d = ps;
  ca_keys : scancodes d = scancodes d0;
}.
Record fresh_bus (d0 : D) d : Prop := mk_fresh_bus {
  fb_register : cfg_register d = cfg_register d0;
  fb_idle : Pci.idle d;
}.

Definition stable (P : D -> Prop) : Prop := forall d d', via Console.uart_port d d' -> P d -> P d'.

Lemma calm_stable d0 ps : stable (calm d0 ps).
Proof. intros d d' Hv [Hp Hk]. split; [rewrite <- Hp; eapply pics_via; [|done]; auto|rewrite <- Hk; eapply keys_via; [|done]; auto]. Qed.

Lemma early_stable d0 ps : stable (fun d => calm d0 ps d /\ fresh_bus d0 d).
Proof.
  intros d d' Hv [Hc [Hr Hi]]. split; [by eapply calm_stable|]. destruct (bus_via Console.uart_port d d') as [E1 E2]; [auto|done|].
  split; [by rewrite E1|auto].
Qed.

Lemma printed_at m0 base text log d d' vga :
  Console.printed m0 base text (Console.mk_console log d vga) -> lcr d' = lcr d -> sent d' = sent d ->
  Console.printed m0 base text (Console.mk_console log d' vga).
Proof. intros [H1 H2 H3 H4] El Es. split; cbn in *; [done|unfold Console.line_up in *; by rewrite El|by rewrite Es|done]. Qed.

(** Writing to the console, on the whole machine. *)
Lemma wp_say (P : D -> Prop) t m0 base text d log vga ds hp vm k sc iq pc nt (Q : unit -> machine D -> Prop) :
  stable P -> Console.printed m0 base text (Console.mk_console log d vga) -> P d ->
  (forall d' log' vga', Console.printed m0 base (text ++ t) (Console.mk_console log' d' vga') -> P d' ->
     Q tt (mk_machine d' log' vga' ds hp vm k sc iq pc nt)) ->
  wp (console_write t) Q (mk_machine d log vga ds hp vm k sc iq pc nt).
Proof.
  intros HP Hp Hd HQ. apply wp_lift. unfold console_of. cbn [m_log m_dev m_vga].
  eapply wp_keeps; [apply Console.keeps_console_write|]. eapply Console.wp_console_write; [exact Hp|].
  intros [log' d' vga'] Hp' Hv. unfold set_console. cbn. apply HQ; [done|]. by eapply HP.
Qed.

Lemma wp_say_u64 num_stack value (P : D -> Prop) m0 base text d log vga ds hp vm k sc iq pc nt (Q : unit -> machine D -> Prop) :
  zlen num_stack = 32 -> 0 <= value ->
  stable P -> Console.printed m0 base text (Console.mk_console log d vga) -> P d ->
  (forall d' log' vga', Console.printed m0 base (text ++ Console.decimal value) (Console.mk_console log' d' vga') -> P d' ->
     Q tt (mk_machine d' log' vga' ds hp vm k sc iq pc nt)) ->
  wp (console_write_u64 num_stack value) Q (mk_machine d log vga ds hp vm k sc iq pc nt).
Proof.
  intros Hst Hv0 HP Hp Hd HQ. apply wp_lift. unfold console_of. cbn [m_log m_dev m_vga].
  eapply wp_keeps; [apply Console.keeps_write_u64|]. eapply Console.wp_write_u64; [done|done|exact Hp|].
  intros [log' d' vga'] Hp' Hv. unfold set_console. cbn. apply HQ; [done|]. by eapply HP.
Qed.
End devices.

(** ** Task tables without descriptors *)

Record plain (l : list Task.nm_task) : Prop := mk_plain {
  pl_masks : Forall (fun t => 0 <= Task.fd_cloexec_mask t) l;
  pl_fds : Fd.no_descriptors l;
  pl_priority : Forall (fun t => 0 <= Task.priority (Task.sched t)) l;
}.

Lemma no_refs t id : Task.fd_table t = replicate 32 (-1) -> id <> -1 -> countb (fun x => x =? id) (Task.fd_table t) = 0.
Proof. intros -> Hid. apply countb_none. intros x [-> _]%elem_of_replicate. apply Z.eqb_neq. congruence. Qed.

Lemma plain_init l : l <> [] -> Forall (fun t => 0 <= Task.priority (Task.sched t)) l -> plain (Task.init_table l).
Proof.
  destruct l as [|b l]; [done|]. intros _ [_ Hl]%Forall_cons. cbn [Task.init_table]. split.
  - constructor; [done|]. by apply Forall_fmap, Forall_true.
  - intros id Hid. apply sumZ_zero. intros t [->|(u & -> & _)%list_elem_of_fmap]%elem_of_cons; [|done].
    by rewrite no_refs; [destruct (Task.live _)|..].
  - constructor; [done|]. by apply Forall_fmap.
Qed.

Section create.
Context (tramp : Z) (p : Task.proc Kheap.kheap) (nm : option cstring) (entry arg : Z) (r : option Z) (p' : Task.proc Kheap.kheap).

Lemma plain_create : plain (Task.task_table p) -> Task.create_result tramp p nm entry arg r p' -> plain (Task.task_table p').
Proof.
  intros [Hm Hf Hp] (_ & Hr & _). destruct r as [i|]; [|by destruct Hr as [h ->]].
  destruct Hr as (x & [(old & Ho & Hlo) Htab _ _ _ _ _] & (_ & Hs & Hfd & Hmask & _) & _). rewrite Htab. split.
  - apply Forall_upd; [done|]. rewrite Hmask. lia.
  - intros id Hid. rewrite (Fd.refs_free _ i old); [by apply Hf|done|done| |done]. intros y. rewrite Hfd.
    by intros [-> _]%elem_of_replicate.
  - apply Forall_upd; [done|]. by rewrite Hs.
Qed.

Lemma create_pid : Task.create_result tramp p nm entry arg r p' -> Task.next_pid p' <= Task.next_pid p + 1.
Proof.
  intros (_ & Hr & _). destruct r as [i|]; [|destruct Hr as [h ->]; cbn; lia].
  destruct Hr as (x & [_ _ _ [_ ->] _ _ _] & _). lia.
Qed.
End create.

(** ** Sharing the heap

    The tasks keep their stacks in the heap, and tmpfs its buffers: tmpfs runs on
    the heap less the stacks. *)

Definition own_stack (t : Task.nm_task) : bool := Task.live t && negb (Task.pid t =? 1).
Definition stack_blocks (l : list Task.nm_task) : list (Z * Z) :=
  (fun t => (Task.stack_base t, Task.KSTACK_SIZE)) <$> filter (fun t => own_stack t = true) l.

Definition rest_of_heap (l : list Task.nm_task) : KHeap Kheap.kheap := shared_heap (stack_blocks l).

Section shared.
Context (l : list Task.nm_task).

Definition heap_left (h : Kheap.kheap) : Prop := heap_ok (KHeap := rest_of_heap l) h.
#[local] Instance fs_nodes : Vnodes files := Tmpfs.tmpfs_Vnodes (KHeap0 := rest_of_heap l).
#[local] Instance fs_mounted : MountedFs files := Tmpfs.tmpfs_MountedFs (KHeap0 := rest_of_heap l).

(** The files, with their buffers apart from the stacks; and processes, descriptors
    and files together. *)
Definition files_ok (v : Vfs.vfs files) : Prop := Vfs.vfs_inv v.
Definition system_ok (k : Syscall.kernel Kheap.kheap files) : Prop := Syscall.kernel_inv k.

Lemma own_stack_spec t : own_stack t = true <-> Task.on_own_stack t.
Proof. unfold own_stack, Task.on_own_stack. rewrite andb_true_iff, negb_true_iff, Z.eqb_neq. done. Qed.

Lemma stack_block i t : arr l i = Some t -> Task.on_own_stack t -> (Task.stack_base t, Task.KSTACK_SIZE) ∈ stack_blocks l.
Proof.
  intros Ht Ho. apply list_elem_of_fmap. exists t. split; [done|]. apply list_elem_of_filter.
  split; [by apply own_stack_spec|by eapply arr_elem].
Qed.

Lemma left_of_stacks p : Task.proc_inv p -> Task.task_table p = l -> heap_left (Task.proc_heap p).
Proof.
  intros Hi El. split; [apply Hi|]. apply Forall_forall. intros b (t & -> & Ht)%list_elem_of_fmap.
  apply list_elem_of_filter in Ht as [Ho [i Hi']%elem_arr]. split; [done|].
  apply (Task.so_owned _ _ (Task.pi_stacks _ Hi) i t); [by rewrite El|by apply own_stack_spec].
Qed.

(** The stacks stay in order while tmpfs uses the rest. *)
Lemma stacks_left p h : Task.proc_inv p -> Task.task_table p = l -> heap_left h -> Task.proc_inv (Task.set_heap h p).
Proof.
  intros Hi El [Hh Hk]. apply Task.set_heap_inv; [done|done|]. destruct (Task.pi_stacks _ Hi) as [_ Hap]. split; [|exact Hap].
  intros i t Ht Ho. rewrite El in Ht. pose proof (proj1 (Forall_forall _ _) Hk _ (stack_block i t Ht Ho)) as [_ Hb]. exact Hb.
Qed.

Lemma files_left v : files_ok v -> heap_left (Tmpfs.heap (Vfs.nodefs v)).
Proof. intros Hv. destruct (Vfs.vi_nodes _ Hv) as [n Hn]. exact (Tmpfs.fi_heap _ _ Hn). Qed.

Lemma system_left k v h :
  system_ok (Syscall.set_k_vfs v k) -> Task.task_table (Syscall.k_proc k) = l -> heap_left h ->
  system_ok (Syscall.set_k_vfs v (Syscall.set_k_proc (Task.set_heap h (Syscall.k_proc k)) k)).
Proof. intros [Hp Hf Hm Hc] El Hh. split; [by apply stacks_left|exact Hf|exact Hm|exact Hc]. Qed.
End shared.

(** ** The parts of [kmain] *)

Section parts.
Context {D : Type} `{Board D}.
Context (im : image) (info : Z -> Z) (cr3 : Z) (stack out_stack num_stack : list Z).
Context (m0 base : list Z).
Implicit Types (Q : unit -> machine D -> Prop) (P : D -> Prop).

Definition shown (text : list Z) (d : D) log vga : Prop := Console.printed m0 base text (Console.mk_console log d vga).

Definition processor_text : list Z :=
  line "[00.000000] early console ready" ++ line "[00.000100] gdt ready" ++ line "[00.000200] idt ready" ++ line "[00.000300] tss ready".

Definition tables_ready (ds : Desc.desc) : Prop :=
  Desc.tables_ok (gdt_addr im) (idt_addr im) (tss_addr im) (isr_ud im) (isr_df im) (isr_gp im) (isr_pf im) (isr_irq0 im) (isr_irq1 im) ds.

(** Write, keeping the facts about the devices. *)
Ltac say Hp HP :=
  first [eapply (wp_say _ _ m0 base); [exact HP|exact Hp|eassumption|]
        |eapply (wp_say_u64 num_stack _ _ m0 base); [assumption|assumption|exact HP|exact Hp|eassumption|]];
  clear Hp; intros ? ? ? Hp ?.

Lemma wp_start_processor P d log ds hp vm k sc iq pc nt Q :
  stable P -> P d -> zlen (Klog.ring log) = Klog.KLOG_CAP -> zlen m0 = Console.VGA_ROWS * Console.VGA_COLS -> base = sent d ->
  zlen (Desc.idt ds) = 256 ->
  Forall is_u64 [tss_addr im; isr_ud im; isr_df im; isr_gp im; isr_pf im; isr_irq0 im; isr_irq1 im] ->
  (forall d' log' vga' ds', shown processor_text d' log' vga' -> P d' -> tables_ready ds' -> Desc.sse_on ds ds' ->
     Q tt (mk_machine d' log' vga' ds' hp vm k sc iq pc nt)) ->
  wp (start_processor im) Q (mk_machine d log (Console.mk_vga m0 0 0 Console.ATTR) ds hp vm k sc iq pc nt).
Proof.
  intros HP Hd Hlog Hm Hb Hidt Hall HQ. unfold start_processor. wp_step. do 2 apply wp_lift. unfold Klog.klog_init. wp_go.
  apply wp_lift. eapply wp_keeps; [apply Console.keeps_console_init|]. cbn. eapply (Console.wp_console_init []); [|done|done|done|].
  { cbn. constructor; cbn; [done|by constructor|]. unfold Klog.log_of. cbn. by rewrite Ring.items_empty. }
  intros [log1 d1 vga1] Hp Hv. cbn in Hp. rewrite <- Hb in Hp. unfold set_console. cbn. assert (Hd1 : P d1) by (by eapply HP).
  wp_step. say Hp HP. wp_step. apply wp_lift, Desc.wp_gdt_init. wp_step. say Hp HP. wp_step. apply wp_lift, Desc.wp_enable_sse.
  intros a b Hsse. wp_step. apply wp_lift, Desc.wp_idt_init; [done|]. intros l Hl Hg. wp_step. say Hp HP. wp_step. apply wp_lift.
  eapply (Desc.wp_tss_init (gdt_addr im)); [exact Hall|reflexivity|reflexivity|reflexivity|done|done|exact Hg|].
  intros ds' Hok E0 E4. say Hp HP. apply HQ; [|done|exact Hok|].
  - unfold shown, processor_text. by rewrite <- !app_assoc in Hp.
  - intros i Hi. destruct (Hsse i Hi) as [H0' H4']. cbn in *. rewrite E0, E4. done.
Qed.
(** *** Memory *)

(** The allocator after [mm_init]: in order, with the frames of the kernel, of the
    boot information and of what the memory map leaves out in use. *)
Record pmm_ready (ptr : Z) (t : Pmm.pmm) : Prop := mk_pmm_ready {
  pr_inv : Pmm.inv t;
  pr_limit : Pmm.frame_limit t = Pmm.clamp_frames (foldl Pmm.event_end 0 (Pmm.info_events info ptr) / Pmm.PAGE_SIZE);
  pr_used f : 0 <= f < Pmm.frame_limit t ->
    Pmm.frame_used t f = Pmm.kernel_frames (kernel_start im) (kernel_end im) t f || Pmm.touches ptr (Pmm.read32 info ptr) f
                         || Pmm.replay (Pmm.info_events info ptr) f true;
}.

Definition memory_text (t : Pmm.pmm) : list Z :=
  chars "[00.000400] mm ready: free_pages=" ++ Console.decimal (Pmm.free_count t) ++ chars " used_pages=" ++
  Console.decimal (Pmm.frame_limit t - Pmm.free_count t) ++ [NEWLINE].

Lemma wp_get_stats t (R : Pmm.nm_mm_stats -> Pmm.pmm -> Prop) :
  Pmm.pmm_lock_word t = 0 -> R (Pmm.mm_stats t) t -> wp Pmm.pmm_get_stats R t.
Proof.
  intros Hl HR. unfold Pmm.pmm_get_stats, Pmm.pmm_lock, Pmm.pmm_unlock. unfold wp, mbind, M_bind. rewrite Hl. cbn.
  destruct t. cbn in *. by subst.
Qed.

Lemma wp_mm_init ptr d log vga ds p r ram pp k sc iq pc nt Q :
  Pmm.kernel_ok (kernel_start im) (kernel_end im) -> Pmm.info_ok info ptr ->
  (forall t, pmm_ready ptr t ->
     Q tt (mk_machine d log vga ds (Kheap.mk_heap t ∅ 0) (Vmm.mk_vmm (Z.land cr3 Vmm.MASK_4K) 0 ram [] t) k sc iq pc nt)) ->
  wp (mm_init im info cr3 ptr) Q (mk_machine d log vga ds (Kheap.mk_heap p ∅ 0) (Vmm.mk_vmm r 0 ram [] pp) k sc iq pc nt).
Proof.
  intros Hk Hinfo HQ. unfold mm_init. wp_step. apply wp_lift, Pmm.wp_init_from_multiboot2; [done|done|].
  intros t Ht Hlim _ Hused. apply wp_lift. unfold Vmm.vmm_init. apply wp_modify. by apply (HQ t).
Qed.

Lemma wp_start_memory ptr P text d log vga ds p r ram pp k sc iq pc nt Q :
  stable P -> P d -> shown text d log vga -> zlen num_stack = 32 ->
  Pmm.kernel_ok (kernel_start im) (kernel_end im) -> Pmm.info_ok info ptr ->
  (forall d' log' vga' t, shown (text ++ memory_text t) d' log' vga' -> P d' -> pmm_ready ptr t ->
     Q tt (mk_machine d' log' vga' ds (Kheap.mk_heap t ∅ 0) (Vmm.mk_vmm (Z.land cr3 Vmm.MASK_4K) 0 ram [] t) k sc iq pc nt)) ->
  wp (start_memory im info cr3 num_stack ptr) Q (mk_machine d log vga ds (Kheap.mk_heap p ∅ 0) (Vmm.mk_vmm r 0 ram [] pp) k sc iq pc nt).
Proof.
  intros HP Hd Hp Hns Hk Hinfo HQ. unfold start_memory. wp_step. apply wp_mm_init; [done|done|]. intros t Hr.
  pose proof (pr_inv _ _ Hr) as Ht. wp_step. apply wp_lift, wp_get_stats; [apply Ht|].
  unfold set_pmm, set_heap, Kheap.set_pmm, pmm_of. cbn.
  rewrite (Pmm.wf_free _ (Pmm.inv_wf _ Ht)), (Pmm.wf_used _ (Pmm.inv_wf _ Ht)).
  pose proof (countb_range (fun f => negb (Pmm.frame_used t f)) (upto 0 (Pmm.frame_limit t))) as Hc.
  change (countb _ _) with (Pmm.free_count t) in Hc. pose proof (Pmm.wf_limit _ (Pmm.wf_bm _ (Pmm.inv_wf _ Ht))) as Hl. rewrite zlen_upto in Hc by lia.
  assert (0 <= Pmm.free_count t) by lia. assert (0 <= Pmm.frame_limit t - Pmm.free_count t) by lia.
  wp_step. say Hp HP. wp_step. say Hp HP. wp_step. say Hp HP. wp_step. say Hp HP. say Hp HP. apply HQ; [|done|done].
  unfold memory_text. by rewrite <- !app_assoc in Hp.
Qed.
(** *** Processes *)

(** The process component once the two threads were asked for; either may be
    missing for want of memory. *)
Definition started (p : Task.proc Kheap.kheap) (h : Kheap.kheap) (p2 : Task.proc Kheap.kheap) : Prop :=
  let p0 := Task.mk_proc (Task.init_table (Task.task_table p)) 1 2 (Some 0) 0 (Task.stack_mem p) h in
  exists r1 p1 r2,
    Task.create_result (trampoline im) p0 (Some (mk_cstr (idle_name im) (chars "idle/0"))) (idle_thread im) 0 r1 p1 /\
    Task.create_result (trampoline im) p1 (Some (mk_cstr (worker_name im) (chars "kworker/0"))) (worker_thread im) 0 r2 p2.

(** The heap stays away from the boot stack. *)
Section boot_stack.
Context (Hroom : 0 <= boot_stack im /\ boot_stack im + Task.KSTACK_SIZE <= boot_stack_top im < 2 ^ 63).

Lemma boot_stack_lt : boot_stack im < boot_stack_top im.
Proof. unfold Task.KSTACK_SIZE in Hroom. lia. Qed.

#[local] Instance off_boot_stack : KHeap Kheap.kheap := Kheap.kheap_off (boot_stack im) (boot_stack_top im) boot_stack_lt.

Lemma off_inv p : Task.proc_inv p -> Task.proc_inv (H0 := Kheap.kheap_KHeap) p.
Proof.
  intros [Ht Hu Hn Hc Hl [Hh _] [Ho Ha]]. split; [done|done|done|done|done|done|]. split; [|done]. intros i t Hi Ho'.
  apply (Ho i t Hi Ho').
Qed.

Lemma off_apart p pol k cpu : Task.proc_inv p -> Threads.boot_apart (boot_stack im) (boot_stack_top im) (Sched.mk_st p pol k cpu).
Proof.
  intros [_ _ _ _ _ _ [Ho _]] i t Ht Hs. destruct (Ho i t Ht Hs) as [_ Hd]. unfold Task.stack_base in *. lia.
Qed.

Lemma off_created tramp p nm entry arg r p' :
  Task.create_result tramp p nm entry arg r p' -> Task.create_result (H0 := Kheap.kheap_KHeap) tramp p nm entry arg r p'.
Proof. intros (Hi & Hr). split; [by apply off_inv|exact Hr]. Qed.

Definition threads_up (s : Sched.sched_st Kheap.kheap) : Prop :=
  Threads.threads_ok (H0 := Kheap.kheap_KHeap) (boot_stack im) (boot_stack_top im) s /\ Threads.staffed s.

Lemma created_up p pol k cpu nm entry arg r p' :
  threads_up (Sched.mk_st p pol k cpu) -> Task.create_result (trampoline im) p nm entry arg r p' -> threads_up (Sched.mk_st p' pol k cpu).
Proof.
  intros [Hi Hs] Hc. destruct (Threads.created_ok (H0 := Kheap.kheap_KHeap) (boot_stack im) (boot_stack_top im) (trampoline im)
    (Sched.mk_st p pol k cpu) nm entry arg r p') as [Hi' Hs']; [exact Hi|by apply off_created|apply off_apart, Hc|].
  split; [exact Hi'|by apply Hs'].
Qed.

Lemma wp_start_processes P text d log vga ds hp vm k sc iq pc nt Q :
  stable P -> P d -> shown text d log vga -> Kheap.in_order hp -> Kheap.avoids (boot_stack im) (boot_stack_top im) hp ->
  zlen (Task.task_table (Syscall.k_proc k)) = Task.NM_MAX_TASKS -> Forall Task.task_shape (Task.task_table (Syscall.k_proc k)) ->
  Forall (fun t => 0 <= Task.priority (Task.sched t)) (Task.task_table (Syscall.k_proc k)) ->
  (forall d' log' vga' p, shown (text ++ line "[00.000500] proc+sched ready: policy=RR") d' log' vga' -> P d' ->
     started (Syscall.k_proc k) hp p -> Task.proc_inv (H0 := Kheap.kheap_KHeap) p -> plain (Task.task_table p) ->
     threads_up (Sched.mk_st p Sched.NM_SCHED_RR 0 (Sched.sc_cpu sc)) ->
     Q tt (mk_machine d' log' vga' ds (Task.proc_heap p) vm (Syscall.set_k_proc p k) (Sched.mk_st p Sched.NM_SCHED_RR 0 (Sched.sc_cpu sc))
       iq pc nt)) ->
  wp (start_processes im) Q (mk_machine d log vga ds hp vm k sc iq pc nt).
Proof.
  intros HP Hd Hp Hh Hav Hl Hsh Hprio HQ. unfold start_processes. wp_step. apply wp_lift, Task.wp_proc_init; [exact Hl|].
  set (p0 := Task.mk_proc _ _ _ _ _ _ _). assert (Hi0 : Task.proc_inv p0) by (by apply Task.init_inv).
  assert (Hpl0 : plain (Task.task_table p0)) by (apply plain_init; [by intros E; cbn in E; rewrite E in Hl|exact Hprio]).
  assert (Hu0 : threads_up (Sched.mk_st p0 Sched.NM_SCHED_RR 0 (Sched.sc_cpu sc))).
  { apply Threads.alone_ok; [by apply off_inv|done| | |apply Hpl0|by apply Hroom..].
    - intros i t [(-> & _)|Hn]%Task.init_arr Hne; done.
    - intros t [(_ & b & _ & ->)|Hn]%Task.init_arr Hlv; [done|congruence]. }
  wp_step. apply wp_lift. change (proc_of _) with p0. apply (Task.wp_create (H0 := off_boot_stack)); [done|done|]. intros r1 p1 H1.
  pose proof (plain_create _ _ _ _ _ _ _ Hpl0 (off_created _ _ _ _ _ _ _ H1)) as Hpl1. pose proof (create_pid _ _ _ _ _ _ _ (off_created _ _ _ _ _ _ _ H1)) as Hn1. cbn in Hn1.
  pose proof (created_up _ _ _ _ _ _ _ _ _ Hu0 H1) as Hu1.
  wp_step. apply wp_lift. assert (E1 : forall s, proc_of (set_proc p1 (s : machine D)) = p1) by (intros; by destruct p1). rewrite E1.
  apply (Task.wp_create (H0 := off_boot_stack)); [apply H1|unfold INT32_MAX in *; lia|]. intros r2 p2 H2.
  pose proof (plain_create _ _ _ _ _ _ _ Hpl1 (off_created _ _ _ _ _ _ _ H2)) as Hpl2. pose proof (created_up _ _ _ _ _ _ _ _ _ Hu1 H2) as Hu2.
  wp_step. apply wp_lift. unfold Sched.sched_init. wp_go.
  match goal with |- wp _ _ ?s => replace s with (mk_machine d log vga ds (Task.proc_heap p2) vm (Syscall.set_k_proc p2 k)
    (Sched.mk_st p2 Sched.NM_SCHED_RR 0 (Sched.sc_cpu sc)) iq pc nt) by (by destruct p2) end.
  say Hp HP.
  apply HQ; [done|done| |apply off_inv, H2|done|done]. exists r1, p1, r2. split; by apply off_created.
Qed.
End boot_stack.

(** *** Files *)

Section files.
Context (l : list Task.nm_task).
#[local] Instance left_nodes : Vnodes files := fs_nodes l.
#[local] Instance left_mounted : MountedFs files := fs_mounted l.

(** A new file system: in order, no file open, and an empty root. *)
Record new_files (v : Vfs.vfs files) : Prop := mk_new_files {
  nf_ok : files_ok l v;
  nf_closed fd f : arr (Vfs.fd_table v) fd = Some f -> f = Vfs.no_file;
  nf_empty nm : entry (Vfs.nodefs v) (mf_root (F := files)) nm = None;
}.

Lemma wp_mount_tmpfs v (R : Z -> Vfs.vfs files -> Prop) :
  zlen (Vfs.fd_table v) = NM_FD_MAX -> Vfs.fs_lock_word v = 0 -> Tmpfs.table_ok (Vfs.nodefs v) -> heap_left l (Tmpfs.heap (Vfs.nodefs v)) ->
  (forall fd f, arr (Vfs.fd_table v) fd = Some f -> f = Vfs.no_file) ->
  (forall v', new_files v' -> R 0 v') -> wp (Vfs.fs_mount_root (Some tmpfs_filesystem)) R v.
Proof.
  intros Hl Hlk Htb Hh Hno HR.
  assert (E : tmpfs_filesystem = Vfs.mk_filesystem (chars "tmpfs") (Some mf_ops)) by reflexivity. rewrite E.
  apply Vfs.wp_fs_mount; [done|done|exact (conj Htb Hh)| |].
  - intros fd f Hf. by rewrite (Hno fd f Hf).
  - intros v' Hv' Hfd He. apply HR. split; [done| |exact He]. by rewrite Hfd.
Qed.

Lemma wp_start_files P text d log vga ds vm k sc iq pc nt Q :
  stable P -> P d -> shown text d log vga ->
  Task.proc_inv (Syscall.k_proc k) -> plain (Task.task_table (Syscall.k_proc k)) -> Task.task_table (Syscall.k_proc k) = l ->
  zlen (Syscall.syscall_table k) = Syscall.NM_SYSCALL_MAX ->
  zlen (Syscall.k_pipes k) = Fd.NM_PIPE_MAX -> Forall (fun p => zlen (Fd.p_buf p) = Fd.NM_PIPE_BUF) (Syscall.k_pipes k) ->
  zlen (Syscall.k_objs k) = Fd.NM_FDOBJ_MAX ->
  zlen (Vfs.fd_table (Syscall.k_vfs k)) = NM_FD_MAX -> Tmpfs.table_ok (Vfs.nodefs (Syscall.k_vfs k)) ->
  (forall d' log' vga' k', shown (text ++ line "[00.000600] syscall ready" ++ line "[00.000700] fs ready: root=tmpfs") d' log' vga' -> P d' ->
     (forall v, files_ok l v -> system_ok l (Syscall.set_k_vfs v k')) -> Syscall.syscall_table k' = Syscall.calls ->
     Syscall.k_proc k' = Syscall.k_proc k -> new_files (Syscall.k_vfs k') ->
     Q tt (mk_machine d' log' vga' ds (Tmpfs.heap (Vfs.nodefs (Syscall.k_vfs k'))) vm k' sc iq pc nt)) ->
  wp start_files Q (mk_machine d log vga ds (Task.proc_heap (Syscall.k_proc k)) vm k sc iq pc nt).
Proof.
  intros HP Hd Hp Hproc Hpl El Hst Hpi Hpb Hob Hfd Htb HQ. unfold start_files. wp_step. apply wp_lift.
  set (k0 := kernel_of _). assert (Ep : Syscall.k_proc k0 = Syscall.k_proc k) by (subst k0; cbn; unfold proc_of; cbn; by destruct (Syscall.k_proc k)).
  apply (Syscall.wp_syscall_init_early k0).
  { split; rewrite ?Ep; [done|apply Hpl|done|by split|done|apply Hpl]. }
  intros k1 Hk1 Ht1 Hp1 Hv1 _. wp_step. say Hp HP. wp_step. apply wp_lift, Vfs.wp_fs_init; [by cbn; rewrite Hv1|].
  intros v1 Hl1 Hlk1 Hn1 Hno1. cbn in Hn1. rewrite Hv1 in Hn1. wp_step. apply wp_lift. apply wp_mount_tmpfs.
  - done.
  - done.
  - cbn. rewrite Hn1. exact Htb.
  - cbn. rewrite Hn1. cbn. apply (left_of_stacks l (Syscall.k_proc k)); done.
  - exact Hno1.
  - intros v2 Hv2. change (0 =? 0) with true. say Hp HP. apply (HQ _ _ _ (Syscall.set_k_vfs v2 k1)).
    + by rewrite <- !app_assoc in Hp.
    + done.
    + exact Hk1.
    + done.
    + by etrans.
    + done.
Qed.

(** *** The first script *)

Definition motd : list Z := chars "/motd".
Definition booted : list Z := line "NeverMind shell booted".
Definition write_motd : list Z := chars "echo NeverMind shell booted ".
Definition to_motd : list Z := chars " /motd".
Definition show_motd : list Z := chars "cat /motd".

Lemma script_limit : 511 <= mf_limit (F := files).
Proof. cbn. unfold Tmpfs.file_limit. vm_compute. congruence. Qed.

Lemma boot_script_lines : Shell.script_lines boot_script [] = [write_motd ++ Shell.REDIRECT :: to_motd; show_motd].
Proof. vm_compute. reflexivity. Qed.

Lemma booted_once : Shell.fit 512 (Shell.echo_text [chars "NeverMind"; chars "shell"; chars "booted"]) = booted.
Proof. vm_compute. reflexivity. Qed.

Lemma booted_text : Shell.fit 512 booted = booted.
Proof. vm_compute. reflexivity. Qed.

(** The script answers nothing, when there was no memory for the file, or the line
    that the file then holds. *)
Record script_ran (v v' : Vfs.vfs files) (t : list Z) : Prop := mk_script_ran {
  sr_tidy : Shell.tidy v v';
  sr_text : t = [] \/ t = booted /\ Shell.file_text v' motd = booted;
}.

Lemma wp_boot_script v (Q : Z * option (list Z) -> Vfs.vfs files -> Prop) :
  new_files v -> zlen stack = 512 -> zlen out_stack = 512 ->
  (forall b v' t, script_ran v v' t -> Shell.filled b 512 t -> Forall (fun c => c <> 0) t -> Q (0, Some b) v') ->
  wp (Shell.shell_run_script stack (Some boot_script) (Some out_stack) 512) Q v.
Proof.
  intros [Hok Hno He] Hs Ho HQ. apply Shell.wp_run_script.
  - done.
  - apply script_limit.
  - exact Hok.
  - apply (bool_decide_unpack _). vm_compute. exact I.
  - done.
  - done.
  - rewrite boot_script_lines. apply Shell.fed_plain. vm_compute. reflexivity.
  - rewrite boot_script_lines. intros b t v' Hr Hf Ht.
    destruct (Shell.ran_new_file stack Hs 512 v write_motd to_motd [chars "NeverMind"; chars "shell"; chars "booted"] motd show_motd t v')
      as [Htd Hor]; [exact Hok|by apply (bool_decide_unpack _); vm_compute|vm_compute; reflexivity..| |exact Hr|].
    + unfold Vfs.target. change (bool_decide _ && _) with true. cbv iota. change (Vfs.components motd) with [chars "motd"]. change (mbind (M := option) (fun d => Some d) (entry (Vfs.nodefs v) mf_root (chars "motd")) = None). by rewrite He.
    + apply (HQ b v' t); [|done|done]. split; [exact Htd|]. rewrite booted_once, booted_text in Hor. exact Hor.
Qed.

Lemma wp_userspace_init P text d log vga ds vm k sc iq pc nt Q :
  stable P -> P d -> shown text d log vga -> new_files (Syscall.k_vfs k) -> zlen stack = 512 -> zlen out_stack = 512 ->
  (forall d' log' vga' v' t, shown (text ++ line "[00.001100] userspace shell ready" ++ t) d' log' vga' -> P d' ->
     script_ran (Syscall.k_vfs k) v' t ->
     Q tt (mk_machine d' log' vga' ds (Tmpfs.heap (Vfs.nodefs v')) vm (Syscall.set_k_vfs v' k) sc iq pc nt)) ->
  wp (userspace_init stack out_stack) Q (mk_machine d log vga ds (Tmpfs.heap (Vfs.nodefs (Syscall.k_vfs k))) vm k sc iq pc nt).
Proof.
  intros HP Hd Hp Hv Hs Ho HQ. unfold userspace_init. wp_step. say Hp HP. wp_step. apply wp_lift.
  assert (Ev : vfs_of (mk_machine d' log' vga' ds (Tmpfs.heap (Vfs.nodefs (Syscall.k_vfs k))) vm k sc iq pc nt) = Syscall.k_vfs k).
  { unfold vfs_of. cbn. destruct (Syscall.k_vfs k) as [? ? ? ? v]. cbn. by destruct v. }
  rewrite Ev. clear Ev. apply wp_boot_script; [done..|]. intros b v' t Hr (Hb & rest & Eb) Ht. cbn [fst snd default]. change (negb (0 =? 0)) with false.
  cbv iota. unfold set_vfs, set_kernel, set_heap. cbn. destruct t as [|c t].
  - cbn in Eb. wp_step. eapply wp_rd; [by rewrite Eb|]. cbn. apply wp_ret.
    eapply (HQ _ _ _ v' []); [by rewrite app_nil_r|done|done].
  - wp_step. eapply wp_rd; [by rewrite Eb|]. apply Forall_cons in Ht as [Hc Ht]. rewrite (proj2 (Z.eqb_neq c 0)) by done.
    wp_step. unfold rd_str. rewrite Eb, cstr_of_app by (by constructor). apply wp_ret. say Hp HP.
    eapply (HQ _ _ _ v' (c :: t)); [by rewrite <- app_assoc in Hp|done|done].
Qed.
End files.

(** *** Devices *)

Definition started_pics (d0 : D) : Drivers.chip * Drivers.chip :=
  (Drivers.mk_chip 32 0xFC 0 (Drivers.eois (pics d0).1), Drivers.mk_chip 40 0xFF 0 (Drivers.eois (pics d0).2)).

Definition card_of (pc : Pci.pci (D := D)) : option Z := find_idx (Pci.is_device 0x10EC 0x8139) (Pci.table pc).

Definition devices_text (card : option Z) : list Z :=
  (if bool_decide (card = None) then line "[00.000800] drivers ready: pit/kbd/pci (rtl8139 missing)"
   else line "[00.000800] drivers ready: pit/kbd/pci/rtl8139") ++
  line "[00.000900] net ready: arp/ipv4/icmp/udp/tcp/socket".

(** The handlers are installed, the bus is scanned, and the network interface has its
    configuration and the card that was found. *)
Record devices_ready (d0 : D) (iq : Irq.irqst (Drivers.drv D)) (pc : Pci.pci (D := D)) (nt : Net.net) : Prop := mk_devices_ready {
  dr_irq : Drivers.installed iq;
  dr_none : Irq.pending iq = [];
  dr_pci : Pci.found d0 pc;
  dr_net : Net.net_inv nt;
  dr_cfg : Net.net_cfg nt = Net.mk_cfg [82; 83; 84; 85; 86; 87] 3232235876 3232235777 4294967040 true;
  dr_card : Net.rtl_dev nt = device_ptr im (card_of pc);
}.

Lemma present_same d0 d k : cfg_register d = cfg_register d0 -> Pci.present d k = Pci.present d0 k.
Proof.
  intros E. unfold Pci.present. induction (upto 0 k) as [|i l IH]; [done|]. cbn. rewrite IH.
  unfold Pci.device_at. by rewrite !(Pci.config_eq d0 d).
Qed.

Lemma found_same d0 d x : cfg_register d = cfg_register d0 -> Pci.found d x -> Pci.found d0 x.
Proof.
  intros E [H1 H2 H3]. rewrite (present_same d0 d) in H3; [|exact E]. exact (Pci.mk_found _ _ H1 H2 H3).
Qed.

Lemma wp_find_card pc nt d log vga ds hp vm k sc iq (R : Z -> machine D -> Prop) :
  0 < pci_table im -> Pci.pci_count pc = zlen (Pci.table pc) -> d = Pci.p_dev pc ->
  (let card := card_of pc in
   R (if bool_decide (card = None) then NM_ERR NM_EFAIL else 0)
     (mk_machine d log vga ds hp vm k sc iq pc (Net.set_rtl_dev (device_ptr im card) nt))) ->
  wp (rtl8139_init im) R (mk_machine d log vga ds hp vm k sc iq pc nt).
Proof.
  intros Hpt Hc -> HR. unfold rtl8139_init. wp_step. apply wp_lift. unfold pci_of. cbn [m_pci m_dev].
  assert (E : Pci.set_dev (Pci.p_dev pc) pc = pc) by (by destruct pc). rewrite E. apply Pci.wp_find_device; [done|].
  fold (card_of pc). apply wp_lift. unfold Net.rtl8139_init. wp_step. wp_step. unfold wp, mbind, M_bind. cbn. cbv zeta in HR.
  destruct (card_of pc) as [i|] eqn:Ec.
  - apply find_idx_Some in Ec as (x & Hx%arr_range & _). rewrite bool_decide_false in HR by done.
    cbn [device_ptr] in *. rewrite (proj2 (Z.eqb_neq _ 0)) by lia. exact HR.
  - rewrite bool_decide_true in HR by done. exact HR.
Qed.

Lemma wp_start_devices text d0 d log vga ds hp vm k sc iq pc nt Q :
  calm d0 (pics d0) d -> fresh_bus d0 d -> shown text d log vga -> 0 < pci_table im ->
  zlen (Irq.irq_table iq) = Irq.NM_MAX_IRQ -> zlen (Irq.bh_queue iq) = Irq.NM_BH_QUEUE_CAP ->
  zlen (Pci.pci_devices pc) = Pci.NM_PCI_MAX_DEVICES -> zlen (Net.mac (Net.net_cfg nt)) = 6 ->
  (forall d' log' vga' iq' pc' nt', shown (text ++ devices_text (card_of pc')) d' log' vga' -> calm d0 (started_pics d0) d' ->
     devices_ready d0 iq' pc' nt' -> Q tt (mk_machine d' log' vga' ds hp vm k sc iq' pc' nt')) ->
  wp (start_devices im) Q (mk_machine d log vga ds hp vm k sc iq pc nt).
Proof.
  intros [Hps Hks] [Hreg Hidle] Hp Hpt Hit Hbq Hpd Hmac HQ. unfold start_devices. wp_step. apply wp_lift.
  eapply wp_keeps; [apply Drivers.keeps_start|]. apply Drivers.wp_start; [exact Hit|exact Hbq|done|].
  intros iq1 Hinst _ _ Hcodes Hctrl Hnone Hv1. cbn in Hv1. unfold Drivers.codes, Drivers.ctrl in *. cbn in Hcodes, Hctrl.
  unfold set_irq. cbn. set (d1 := Drivers.d_dev (Irq.world iq1)) in *.
  destruct (bus_via Drivers.driver_port d d1) as [Er1 Hi1]; [auto|exact Hv1|].
  destruct (line_via Drivers.driver_port d d1) as [El1 Es1]; [auto|exact Hv1|].
  assert (Hp1 : shown text d1 log vga) by (by eapply printed_at). clear Hp.
  wp_step. apply wp_lift. eapply wp_keeps; [apply Pci.keeps_pci_init|]. apply Pci.wp_pci_init; [exact Hpd|by apply Hi1|].
  intros pc1 Hf Hv2. cbn in Hf, Hv2. unfold set_pci. cbn. set (d2 := Pci.p_dev pc1) in *.
  destruct (line_via Pci.pci_port d1 d2) as [El2 Es2]; [auto|exact Hv2|].
  assert (Hp : shown text d2 log vga) by (by eapply printed_at). clear Hp1.
  assert (Hd2 : calm d0 (started_pics d0) d2).
  { split; [rewrite (pics_via Pci.pci_port d1 d2) by auto; by rewrite Hctrl, Hps|].
    rewrite (keys_via Pci.pci_port d1 d2) by auto. by rewrite Hcodes, Hks. }
  apply (found_same d0) in Hf; [|by rewrite Er1].
  wp_step. apply wp_find_card; [done|apply Hf|done|]. cbv zeta. set (card := card_of pc1). wp_step.
  pose proof (calm_stable d0 (started_pics d0)) as HP.
  assert (Hsay : wp (if (if bool_decide (card = None) then NM_ERR NM_EFAIL else 0) =? 0
                     then console_write (line "[00.000800] drivers ready: pit/kbd/pci/rtl8139")
                     else console_write (line "[00.000800] drivers ready: pit/kbd/pci (rtl8139 missing)"))
    (fun _ t => exists d' log' vga', t = mk_machine d' log' vga' ds hp vm k sc iq1 pc1 (Net.set_rtl_dev (device_ptr im card) nt) /\
       calm d0 (started_pics d0) d' /\
       shown (text ++ (if bool_decide (card = None) then line "[00.000800] drivers ready: pit/kbd/pci (rtl8139 missing)"
                       else line "[00.000800] drivers ready: pit/kbd/pci/rtl8139")) d' log' vga')
    (mk_machine d2 log vga ds hp vm k sc iq1 pc1 (Net.set_rtl_dev (device_ptr im card) nt))).
  { destruct (bool_decide (card = None)); cbn [Z.eqb]; [change (NM_ERR NM_EFAIL =? 0) with false; cbv iota|]; say Hp HP; eauto 10. }
  eapply wp_mono; [exact Hsay|]. intros [] t (d3 & log3 & vga3 & -> & Hd3 & Hp3). clear Hp Hsay.
  wp_step. apply wp_lift, Net.wp_net_init; [exact Hmac|]. intros nt' Hni Hcfg _ Hrtl. say Hp3 HP. apply HQ; [|done|].
  - unfold devices_text. by rewrite app_assoc.
  - by split.
Qed.

(** ** The whole start *)

Definition boot_text (t : Pmm.pmm) (card : option Z) (said : list Z) : list Z :=
  processor_text ++ memory_text t ++ line "[00.000500] proc+sched ready: policy=RR" ++
  (line "[00.000600] syscall ready" ++ line "[00.000700] fs ready: root=tmpfs") ++ devices_text card ++
  (line "[00.001100] userspace shell ready" ++ said) ++
  (line "NeverMind kernel (M8)" ++ line "arch: x86_64" ++ line "boot: BIOS+UEFI via GRUB multiboot2") ++
  line "[00.001000] NeverMind: M8 hardening+ci ready".

Lemma wp_kernel_banner P text d log vga ds hp vm k sc iq pc nt Q :
  stable P -> P d -> shown text d log vga ->
  (forall d' log' vga', shown (text ++ line "NeverMind kernel (M8)" ++ line "arch: x86_64" ++ line "boot: BIOS+UEFI via GRUB multiboot2") d' log' vga' ->
     P d' -> Q tt (mk_machine d' log' vga' ds hp vm k sc iq pc nt)) ->
  wp kernel_banner Q (mk_machine d log vga ds hp vm k sc iq pc nt).
Proof.
  intros HP Hd Hp HQ. unfold kernel_banner. wp_step. say Hp HP. wp_step. say Hp HP. say Hp HP. apply HQ; [|done].
  by rewrite <- !app_assoc in Hp.
Qed.
End parts.

Section start.
Context {D : Type} `{Board D}.
Context (im : image) (info : Z -> Z) (cr3 : Z) (stack out_stack num_stack : list Z).

(** The heap of the tasks may change. *)
Lemma threads_heap p h pol k cpu : threads_up im (Sched.mk_st p pol k cpu) -> Task.proc_inv (Task.set_heap h p) ->
  threads_up im (Sched.mk_st (Task.set_heap h p) pol k cpu).
Proof. intros [[[_ Hc Hpr] Hr Hcu Hb Hw] Hs] Hi. split; [|exact Hs]. by split. Qed.

(** The static data before [kmain]: the tables have their sizes and are empty, and
    no byte of an address waits in the bridge. *)
Record power_on (s : machine D) : Prop := mk_power_on {
  po_log : zlen (Klog.ring (m_log s)) = Klog.KLOG_CAP;
  po_vga : exists screen, zlen screen = Console.VGA_ROWS * Console.VGA_COLS /\ m_vga s = Console.mk_vga screen 0 0 Console.ATTR;
  po_idt : zlen (Desc.idt (m_desc s)) = 256;
  po_heap : exists p, m_heap s = Kheap.mk_heap p ∅ 0;
  po_vmm : exists r ram p, m_vmm s = Vmm.mk_vmm r 0 ram [] p;
  po_tasks : zlen (Task.task_table (Syscall.k_proc (m_kernel s))) = Task.NM_MAX_TASKS;
  po_shape : Forall (fun t => Task.task_shape t /\ 0 <= Task.priority (Task.sched t)) (Task.task_table (Syscall.k_proc (m_kernel s)));
  po_calls : zlen (Syscall.syscall_table (m_kernel s)) = Syscall.NM_SYSCALL_MAX;
  po_pipes : zlen (Syscall.k_pipes (m_kernel s)) = Fd.NM_PIPE_MAX;
  po_bufs : Forall (fun p => zlen (Fd.p_buf p) = Fd.NM_PIPE_BUF) (Syscall.k_pipes (m_kernel s));
  po_objs : zlen (Syscall.k_objs (m_kernel s)) = Fd.NM_FDOBJ_MAX;
  po_files : zlen (Vfs.fd_table (Syscall.k_vfs (m_kernel s))) = NM_FD_MAX;
  po_nodes : Tmpfs.table_ok (Vfs.nodefs (Syscall.k_vfs (m_kernel s)));
  po_irqs : zlen (Irq.irq_table (m_irq s)) = Irq.NM_MAX_IRQ;
  po_queue : zlen (Irq.bh_queue (m_irq s)) = Irq.NM_BH_QUEUE_CAP;
  po_devices : zlen (Pci.pci_devices (m_pci s)) = Pci.NM_PCI_MAX_DEVICES;
  po_mac : zlen (Net.mac (Net.net_cfg (m_net s))) = 6;
  po_bus : Pci.idle (m_dev s);
}.

(** What the linker, the loader and the compiler leave to [kmain]. *)
Record placed_at (ptr : Z) : Prop := mk_placed_at {
  pl_kernel : Pmm.kernel_ok (kernel_start im) (kernel_end im);
  pl_info : Pmm.info_ok info ptr;
  pl_addrs : Forall is_u64 [tss_addr im; isr_ud im; isr_df im; isr_gp im; isr_pf im; isr_irq0 im; isr_irq1 im];
  pl_table : 0 < pci_table im;
  pl_stack : zlen stack = 512;
  pl_out : zlen out_stack = 512;
  pl_num : zlen num_stack = 32;
  pl_boot : 0 <= boot_stack im /\ boot_stack_top im = boot_stack im + 16384 /\ boot_stack_top im < 2 ^ 63;
  pl_inside : Pmm.kernel_symbol_to_phys (kernel_start im) <= boot_stack im /\
    boot_stack_top im <= Pmm.kernel_symbol_to_phys (kernel_end im);
  pl_memory : boot_stack_top im <= 4096 * Pmm.clamp_frames (foldl Pmm.event_end 0 (Pmm.info_events info ptr) / Pmm.PAGE_SIZE);
}.

(** The allocator never gives the boot stack away. *)
Lemma boot_stack_avoided ptr t : placed_at ptr -> pmm_ready im info ptr t -> Kheap.avoids (boot_stack im) (boot_stack_top im) (Kheap.mk_heap t ∅ 0).
Proof.
  intros [Hk _ _ _ _ _ _ Hb [Hi1 Hi2] Hm] [_ El Hu]. rewrite <- El in Hm. split; [|done].
  unfold Pmm.touches, Pmm.PAGE_SIZE. intros f [H1 H2]%andb_true_iff. apply Z.ltb_lt in H1, H2. destruct Hk as [Hk _]. cbn.
  rewrite Hu by lia. unfold Pmm.kernel_frames, Pmm.touches, Pmm.PAGE_SIZE. apply orb_true_iff. left. apply orb_true_iff. left.
  apply orb_true_iff. left. apply orb_true_iff. right. apply andb_true_iff. rewrite !Z.ltb_lt. lia.
Qed.

(** The machine after the start: what was printed, to the log, the serial line and
    the screen; the processor; the memory; the processes, the files and the system
    calls, all in order on one heap; the scheduler; the devices; and what the first
    script left. *)
Record up (ptr : Z) (s s' : machine D) : Prop := mk_up {
  up_text : exists t said,
    Console.printed (Console.vga_mem (m_vga s)) (sent (m_dev s)) (boot_text t (card_of (m_pci s')) said) (console_of s') /\
    pmm_ready im info ptr t /\
    started im (Syscall.k_proc (m_kernel s)) (Kheap.mk_heap t ∅ 0) (Syscall.k_proc (m_kernel s')) /\
    (said = [] \/ said = booted /\ Shell.file_text (Syscall.k_vfs (m_kernel s')) motd = booted);
  up_tables : tables_ready im (m_desc s') /\ Desc.sse_on (m_desc s) (m_desc s');
  up_system : system_ok (Task.task_table (Syscall.k_proc (m_kernel s'))) (kernel_of s');
  up_calls : Syscall.syscall_table (m_kernel s') = Syscall.calls;
  up_threads : threads_up im (sched_of s');
  up_sched : Sched.global_policy (m_sched s') = Sched.NM_SCHED_RR /\ Sched.rr_cursor (m_sched s') = 0;
  up_devices : devices_ready im (m_dev s) (m_irq s') (m_pci s') (m_net s');
  up_chips : calm (m_dev s) (started_pics (m_dev s)) (m_dev s');
  up_closed fd f : arr (Vfs.fd_table (Syscall.k_vfs (m_kernel s'))) fd = Some f -> Vfs.f_used f = false;
}.

(** The tables of the boot code lie in the image and in the memory that the
    allocator manages, and every frame of it is memory. *)
Record tables_inside (ptr : Z) (mem : Vmm.memory) : Prop := mk_tables_inside {
  ti_range : 0 < cr3 < 2 ^ 32 - 8192 /\ cr3 `mod` 4096 = 0;
  ti_image : Pmm.kernel_symbol_to_phys (kernel_start im) <= cr3 /\ cr3 + 12288 <= Pmm.kernel_symbol_to_phys (kernel_end im);
  ti_limit : cr3 + 12288 <= 4096 * Pmm.clamp_frames (foldl Pmm.event_end 0 (Pmm.info_events info ptr) / Pmm.PAGE_SIZE);
  ti_pages a : 0 < a < 4096 * Pmm.clamp_frames (foldl Pmm.event_end 0 (Pmm.info_events info ptr) / Pmm.PAGE_SIZE) ->
    a `mod` 4096 = 0 -> Vmm.is_page mem a;
}.

Lemma table_used ptr mem t k : tables_inside ptr mem -> pmm_ready im info ptr t -> 0 <= k < 3 -> Pmm.page_in_use t (cr3 + 4096 * k).
Proof.
  intros [[Hr Ha] Hi Hl _] [Hinv El Hu] Hk. rewrite <- El in Hl. unfold Pmm.PAGE_SIZE in *. apply Pmm.page_in_use_spec.
  assert (Hm : (cr3 + 4096 * k) `mod` 4096 = 0) by (by rewrite Z.add_comm, Z.mul_comm, Z.add_mod, Z.mod_mul, Ha).
  assert (Hq : cr3 + 4096 * k = 4096 * ((cr3 + 4096 * k) / 4096)) by (apply Z_div_exact_full_2; lia).
  assert (0 <= (cr3 + 4096 * k) / 4096 < Pmm.frame_limit t) by lia. split.
  - unfold Pmm.page_at. split; [lia|split; [exact Hm|lia]].
  - rewrite Hu by done. unfold Pmm.kernel_frames, Pmm.touches, Pmm.PAGE_SIZE. apply orb_true_iff. left. apply orb_true_iff. left.
    apply orb_true_iff. left. apply orb_true_iff. right. apply andb_true_iff. rewrite Z.ltb_lt, Z.ltb_lt. lia.
Qed.

(** After [mm_init] the allocator, the heap and the page tables are in order
    together: the boot tables are the address space of [Vmm.space], and no frame of
    theirs can be handed out. *)
Theorem mm_init_ready ptr mem (s : machine D) :
  (exists p, m_heap s = Kheap.mk_heap p ∅ 0) -> (exists r p, m_vmm s = Vmm.mk_vmm r 0 (Vmm.setup_page_tables cr3 mem) [] p) ->
  Pmm.kernel_ok (kernel_start im) (kernel_end im) -> Pmm.info_ok info ptr -> tables_inside ptr mem ->
  wp (mm_init im info cr3 ptr) (fun _ s' =>
    pmm_ready im info ptr (pmm_of s') /\ Kheap.in_order (m_heap s') /\
    Vmm.space Vmm.boot_own cr3 {[ [] := cr3 ]} (vmm_of s')) s.
Proof.
  destruct s as [d0 log0 vga0 ds0 hp0 vm0 k0 sc0 iq0 pc0 nt0]. cbn [m_heap m_vmm].
  intros (p & ->) (r & pp & ->) Hk Hi Ht. apply wp_mm_init; [done|done|]. intros t Hr.
  split; [exact Hr|]. split; [apply Kheap.empty_in_order, Hr|].
  assert (E : Z.land cr3 Vmm.MASK_4K = cr3).
  { destruct Ht as [[? Ha] _ _ _]. rewrite Vmm.mask_4k, Vmm.field_small by lia. change (2 ^ 12) with 4096. lia. }
  rewrite E. change (vmm_of _) with (Vmm.boot_state cr3 mem t).
  pose proof (table_used ptr mem t 0 Ht Hr) as H4. pose proof (table_used ptr mem t 1 Ht Hr) as H3.
  pose proof (table_used ptr mem t 2 Ht Hr) as H2. rewrite Z.add_0_r in H4.
  destruct Ht as [[Hrg Ha] _ _ Hpg]. apply Vmm.boot_space; [apply Hr| |done|done|by apply H4; lia|by apply H3; lia|by apply H2; lia].
  intros a (Ha0 & Ham & Hal). apply Hpg; [|done]. rewrite <- (pr_limit _ _ _ _ Hr). split; [done|].
  rewrite (Z_div_exact_full_2 a 4096) by lia. lia.
Qed.

Lemma wp_kmain ptr s : power_on s -> placed_at ptr -> wp (kmain im info cr3 stack out_stack num_stack ptr) (fun _ s' => up ptr s s') s.
Proof.
  destruct s as [d0 log0 vga0 ds0 hp0 vm0 k0 sc0 iq0 pc0 nt0].
  intros [Hlog (screen & Hscr & Evga) Hidt (p0 & Ehp) (r & ram & pp & Evm) Htl Hsh Hst Hpi Hpb Hob Hfd Htb Hit Hbq Hpd Hmac Hbus] Hpl. pose proof Hpl as [Hk Hi Ha Hpt Hs Ho Hn Hbs _ _].
  assert (Hroom : 0 <= boot_stack im /\ boot_stack im + Task.KSTACK_SIZE <= boot_stack_top im < 2 ^ 63) by (unfold Task.KSTACK_SIZE; lia).
  cbn [m_dev m_log m_vga m_desc m_heap m_vmm m_kernel m_sched m_irq m_pci m_net] in *. subst vga0 hp0 vm0.
  set (early := fun d => calm d0 (pics d0) d /\ fresh_bus d0 d). pose proof (early_stable d0 (pics d0)) as He. fold early in He.
  assert (Hd : early d0) by (by split).
  unfold kmain. wp_step. eapply (wp_start_processor im screen (sent d0) early); [done..|]. intros d1 log1 vga1 ds Hp Hd1 Hds Hsse.
  wp_step. eapply (wp_start_memory im info cr3 num_stack screen (sent d0)); [exact He|exact Hd1|exact Hp|done..|]. clear Hp. intros d2 log2 vga2 t Hp Hd2 Ht.
  wp_step. eapply (wp_start_processes im screen (sent d0) Hroom); [exact He|exact Hd2|exact Hp|apply Kheap.empty_in_order, Ht|by eapply boot_stack_avoided|exact Htl|
    by eapply Forall_impl; [exact Hsh|]; intros ? []|by eapply Forall_impl; [exact Hsh|]; intros ? []|].
  clear Hp. intros d3 log3 vga3 p Hp Hd3 Hst3 Hproc Hplain Hthr. set (l := Task.task_table p).
  wp_step. eapply (wp_start_files screen (sent d0) l early _ d3 log3 vga3 ds _ (Syscall.set_k_proc p k0)); [exact He|exact Hd3|exact Hp|done..|].
  clear Hp. intros d4 log4 vga4 k4 Hp Hd4 Hsys Hcalls Ep Hnew.
  wp_step. eapply (wp_start_devices im screen (sent d0) _ d0); [apply Hd4|apply Hd4|exact Hp|done..|].
  clear Hp. intros d5 log5 vga5 iq5 pc5 nt5 Hp Hd5 Hdev. pose proof (calm_stable d0 (started_pics d0)) as Hc.
  wp_step. eapply (wp_userspace_init stack out_stack screen (sent d0) l); [exact Hc|exact Hd5|exact Hp|done..|].
  clear Hp. intros d6 log6 vga6 v t6 Hp Hd6 [Htidy Hsaid].
  wp_step. eapply (wp_kernel_banner screen (sent d0)); [exact Hc|exact Hd6|exact Hp|]. clear Hp. intros d7 log7 vga7 Hp Hd7.
  eapply (wp_say _ _ screen (sent d0)); [exact Hc|exact Hp|exact Hd7|]. clear Hp. intros d8 log8 vga8 Hp Hd8.
  assert (Hv : files_ok l v) by exact (Shell.td_inv _ _ Htidy).
  assert (El : Task.task_table (Syscall.k_proc k4) = l) by (by rewrite Ep).
  split; cbn [m_dev m_log m_vga m_desc m_kernel m_sched m_irq m_pci m_net Syscall.k_proc Syscall.k_vfs Syscall.syscall_table Syscall.set_k_vfs].
  - exists t, t6. split; [|split; [exact Ht|split; [by rewrite Ep|exact Hsaid]]].
    match type of Hp with Console.printed _ _ ?x _ => assert (Et : x = boot_text t (card_of pc5) t6) by (unfold boot_text; by rewrite !app_assoc) end.
    rewrite Et in Hp. exact Hp.
  - done.
  - rewrite El. unfold kernel_of, vfs_of, proc_of. cbn. replace (Vfs.set_nodefs _ v) with v by (destruct v as [? ? ? ? w]; by destruct w).
    apply (system_left l k4 v _); [by apply Hsys|exact El|by apply files_left].
  - exact Hcalls.
  - unfold sched_of, proc_of. cbn. rewrite Ep. apply threads_heap; [exact Hthr|].
    apply (stacks_left l p _); [exact Hproc|done|by apply files_left].
  - done.
  - exact Hdev.
  - exact Hd8.
  - intros fd f Hf. destruct (Vfs.f_used f) eqn:Eu; [|done]. pose proof (Shell.td_open _ _ Htidy _ _ Hf Eu) as Ho2.
    by rewrite (nf_closed _ _ Hnew _ _ Ho2) in Eu.
Qed.

(** C5: the kernel starts.  From static data of the right sizes and any boot
    information in order, on any devices that keep their contracts, [kmain] reaches
    its loop without a fault.  The text that it prints tells the free pages and
    whether a card was found, and is on the serial line, the screen and in the log.
    The tables of the processor, the page allocator, the processes, system calls and
    files on their one heap, the interrupt handlers, the table of devices and the
    network are in order; every thread waits with its context on its own stack; the first script left its line in [/motd] and printed it,
    or printed nothing for want of memory, and no file stays open. *)
Theorem kmain_boots ptr s : power_on s -> placed_at ptr -> wp (kmain im info cr3 stack out_stack num_stack ptr) (fun _ s' => up ptr s s') s.
Proof. apply wp_kmain. Qed.
End start.

(** *** A concrete board, of the devices of the three drivers *)

#[local] Existing Instances Console.com_ports Console.com_uart Drivers.pc_ports Drivers.pc_8259 Drivers.pc_8042 Drivers.pc_devices
  Pci.br_ports Pci.br_host.

Record board := mk_board { b_com : Console.com; b_pc : Drivers.pc; b_pci : Pci.bridge false }.

Definition at_line (p : Z) : bool := (0x3F8 <=? p) && (p <=? 0x3FF).
Definition at_bridge (p : Z) : bool := (0xCF8 <=? p) && (p <=? 0xCFF).

Definition board_in (p : Z) (d : board) : Z * board :=
  if at_line p then let r := port_in p (b_com d) in (r.1, mk_board r.2 (b_pc d) (b_pci d))
  else if at_bridge p then let r := port_in p (b_pci d) in (r.1, mk_board (b_com d) (b_pc d) r.2)
  else let r := port_in p (b_pc d) in (r.1, mk_board (b_com d) r.2 (b_pci d)).

Definition board_out (p v : Z) (d : board) : board :=
  if at_line p then mk_board (port_out p v (b_com d)) (b_pc d) (b_pci d)
  else if at_bridge p then mk_board (b_com d) (b_pc d) (port_out p v (b_pci d))
  else mk_board (b_com d) (port_out p v (b_pc d)) (b_pci d).

#[local] Instance board_ports : PortIO board.
Proof.
  refine {| port_in := board_in; port_out := board_out |}. intros p d. unfold board_in.
  destruct (at_line p); [|destruct (at_bridge p)]; apply port_in_byte.
Defined.

#[local] Instance board_uart : Uart board.
Proof.
  refine {| lcr d := lcr (b_com d); sent d := sent (b_com d); thr_empty d := thr_empty (b_com d); thr_wait d := thr_wait (b_com d) |}.
  - intros d. exact (lsr_read (b_com d)).
  - intros v d. exact (lcr_write v (b_com d)).
  - intros p v d Hp. pose proof (ctl_write p v (b_com d) Hp). by destruct Hp as [->|[->| ->]].
  - intros v d. exact (divisor_write v (b_com d)).
  - intros v d. exact (thr_write v (b_com d)).
Defined.

#[local] Instance board_pc : Drivers.PcDevices board.
Proof.
  unshelve refine {| Drivers.pc_pic := _; Drivers.pc_kbd := _ |}.
  - refine {| pics d := pics (b_pc d) |}; done.
  - refine {| scancodes d := scancodes (b_pc d) |}; [intros d; exact (kbd_status (b_pc d))|intros d; exact (kbd_data (b_pc d))].
  - intros p d Hp. pose proof (Drivers.kbd_pics p (b_pc d) Hp). by destruct Hp as [-> | ->].
  - intros p v d Hp. pose proof (Drivers.pit_pics p v (b_pc d) Hp). by destruct Hp as [-> | ->].
  - intros p v d Hp. pose proof (Drivers.out_codes p v (b_pc d) Hp) as E. repeat (apply elem_of_cons in Hp as [->|Hp]; [exact E|]).
    by apply elem_of_nil in Hp.
  - intros p d Hp. pose proof (Drivers.in_codes p (b_pc d) Hp) as E. repeat (apply elem_of_cons in Hp as [->|Hp]; [exact E|]).
    by apply elem_of_nil in Hp.
Defined.

#[local] Instance board_bridge : PciHost board.
Proof.
  refine {| byte_address := false; cfg_address d := cfg_address (b_pci d); cfg_register d := cfg_register (b_pci d) |}.
  - intros d. apply cfg_word.
  - intros d. apply cfg_address_word.
  - intros k v d Hk Hv. pose proof (addr_write k v (b_pci d) Hk Hv) as E. cbn. unfold board_out, at_line, at_bridge.
    rewrite (proj2 (Z.leb_le 0x3F8 _)), (proj2 (Z.leb_gt _ 0x3FF)), (proj2 (Z.leb_le 0xCF8 _)), (proj2 (Z.leb_le _ 0xCFF)) by lia. exact E.
  - intros k d Hk. pose proof (data_read k (b_pci d) Hk) as E. cbn. unfold board_in, at_line, at_bridge.
    rewrite (proj2 (Z.leb_le 0x3F8 _)), (proj2 (Z.leb_gt _ 0x3FF)), (proj2 (Z.leb_le 0xCF8 _)), (proj2 (Z.leb_le _ 0xCFF)) by lia. exact E.
Defined.

#[local] Instance board_Board : Board board.
Proof.
  refine {| bd_uart := board_uart; bd_pc := board_pc; bd_pci := board_bridge |}; cbn; unfold board_in, board_out.
  1, 2: intros; destruct (at_line p) eqn:E; [unfold at_line, Console.uart_port in *; lia|by destruct (at_bridge p)].
  5, 6: intros; destruct (at_line p); [done|]; destruct (at_bridge p) eqn:E; [unfold at_bridge, Pci.pci_port in *; lia|done].
  - intros p d Hp. destruct (at_line p); [done|]. destruct (at_bridge p); [done|]. cbn. unfold Drivers.pc_in.
    repeat case_match; done.
  - intros p v d Hp. destruct (at_line p); [done|]. destruct (at_bridge p); [done|]. cbn. unfold Drivers.pc_out.
    destruct (Z.eqb_spec p 0x20) as [->|]; [by destruct Hp; do 1 constructor|].
    destruct (Z.eqb_spec p 0xA0) as [->|]; [by destruct Hp; do 3 constructor|].
    destruct (Z.eqb_spec p 0x21) as [->|]; [by destruct Hp; do 2 constructor|].
    destruct (Z.eqb_spec p 0xA1) as [->|]; [by destruct Hp; do 4 constructor|done].
  - intros p d Hp. destruct (at_line p); [done|]. destruct (at_bridge p); [done|]. cbn. unfold Drivers.pc_in.
    destruct (Z.eqb_spec p 0x60) as [->|]; [done|]. repeat case_match; done.
  - intros p v d _ _. destruct (at_line p); [done|]. destruct (at_bridge p); [done|]. cbn. unfold Drivers.pc_out.
    repeat case_match; done.
Defined.

Definition device0 : board := mk_board (Console.mk_com 0x83 5 []) (Drivers.mk_pc (Drivers.mk_chip 8 0 3 0, Drivers.mk_chip 112 0 0 5) [0x23]) (Pci.mk_bridge 0).

(** The static data as the loader clears it, over the two-megabyte memory. *)
Definition machine0 : machine board :=
  mk_machine device0 (Klog.mk_klog (replicate (Z.to_nat 8192) 0) 0 0 false) (Console.mk_vga (replicate 2000 0x0741) 0 0 7) Desc.desc0
    (Kheap.mk_heap Pmm.pmm0 ∅ 0) (Vmm.mk_vmm 0 0 (Vmm.setup_page_tables Vmm.demo_root Vmm.demo_ram) [] Pmm.pmm0)
    (Syscall.mk_kernel (replicate 128 None) Task.boot0 (replicate 16 (Fd.mk_pipe false (replicate 512 0) 0 0 0 0))
      (replicate 128 (Fd.mk_obj false 0 Fd.NM_FDOBJ_NONE 0 0)) 0 (Vfs.mk_vfs (replicate 64 Vfs.no_file) None None 0 Tmpfs.fs0) ∅ [])
    (Sched.mk_st Task.boot0 Sched.NM_SCHED_RR 0 (Sched.mk_cpu 0 [] 0))
    (Irq.mk_irqst (replicate 256 (Irq.mk_desc false 0 0 0 0 0 0)) (replicate 256 Irq.item0) 0 0 0 (Drivers.mk_drv 0 (-1) device0))
    (Pci.mk_pci (replicate 64 (Pci.mk_device [] 0 0 0 0 0 0 0 0 0)) 0 device0)
    (Net.mk_net (Net.mk_cfg (replicate 6 0) 0 0 0 false) Net.zero_stats 0 0).

Definition image0 : image :=
  mk_image Pmm.demo_ks Pmm.demo_ke 1048576 1064960 0xFFFFFFFF80100000 0xFFFFFFFF80110000 0xFFFFFFFF80123450 0xFFFFFFFF80101000 0xFFFFFFFF80101010
    0xFFFFFFFF80101020 0xFFFFFFFF80101030 0xFFFFFFFF80101040 0xFFFFFFFF80101050 0xFFFFFFFF80102000 0xFFFFFFFF80103000 0xFFFFFFFF80102100
    0xFFFFFFFF80103010 0xFFFFFFFF80102200 0xFFFFFFFF80124000.

Lemma machine0_on : power_on machine0.
Proof.
  split; try (vm_compute; reflexivity).
  - exists (replicate 2000 0x0741). split; vm_compute; reflexivity.
  - by exists Pmm.pmm0.
  - by exists 0, (Vmm.setup_page_tables Vmm.demo_root Vmm.demo_ram), Pmm.pmm0.
  - apply Forall_replicate. split; [split; vm_compute; reflexivity|cbn; lia].
  - apply Forall_replicate. vm_compute. reflexivity.
  - split; [vm_compute; reflexivity|]. intros i n Hn%arr_elem. cbn [Tmpfs.nodes] in Hn. apply elem_of_replicate in Hn as [-> _]. vm_compute. reflexivity.
Qed.

Lemma image0_placed : placed_at image0 Pmm.demo_mem Shell.stack0 (replicate 512 7) (replicate 32 9) 65536.
Proof.
  split.
  - exact Pmm.demo_kernel_ok.
  - exact Pmm.demo_info_ok.
  - repeat constructor; discriminate.
  - vm_compute. reflexivity.
  - vm_compute; reflexivity.
  - vm_compute; reflexivity.
  - vm_compute; reflexivity.
  - vm_compute. split; [discriminate|split; reflexivity].
  - vm_compute. split; discriminate.
  - vm_compute. discriminate.
Qed.

Lemma kmain_boots_witness :
  wp (kmain image0 Pmm.demo_mem Vmm.demo_root Shell.stack0 (replicate 512 7) (replicate 32 9) 65536)
    (fun _ s' => up image0 Pmm.demo_mem 65536 machine0 s') machine0.
Proof.
  apply (kmain_boots image0 Pmm.demo_mem Vmm.demo_root Shell.stack0 (replicate 512 7) (replicate 32 9) 65536 machine0).
  - exact machine0_on.
  - exact image0_placed.
Defined.

Lemma mm_init_ready_witness :
  wp (mm_init image0 Pmm.demo_mem Vmm.demo_root 65536) (fun _ s' =>
    pmm_ready image0 Pmm.demo_mem 65536 (pmm_of s') /\ Kheap.in_order (m_heap s') /\
    Vmm.space Vmm.boot_own Vmm.demo_root {[ [] := Vmm.demo_root ]} (vmm_of s')) machine0.
Proof.
  apply (mm_init_ready image0 Pmm.demo_mem Vmm.demo_root 65536 Vmm.demo_ram machine0).
  - by exists Pmm.pmm0.
  - by exists 0, Pmm.pmm0.
  - exact Pmm.demo_kernel_ok.
  - exact Pmm.demo_info_ok.
  - assert (El : Pmm.clamp_frames (foldl Pmm.event_end 0 (Pmm.info_events Pmm.demo_mem 65536) / Pmm.PAGE_SIZE) = 512) by (vm_compute; reflexivity).
    split; rewrite ?El.
    + unfold Vmm.demo_root. split; [lia|reflexivity].
    + vm_compute. split; discriminate.
    + unfold Vmm.demo_root. lia.
    + intros a Ha Hm. apply Vmm.demo_pages; [lia|exact Hm].
Defined.

End Boot.
