(* ===== verification/Run.v ===== *)
(** * The running kernel (the loops of [kernel/kmain.c])

    After the start the threads call [sched_yield] for ever: the loop of [kmain],
    which also runs the bottom halves, and the loops of those it made.
    The timer and the keyboard interrupt them.  A step of the machine is code of the
    current thread on its own stack, a turn of its loop, an interrupt, or a change
    of the devices. *)

From S2P Require Import Prelude Interfaces Kheap Task Sched Threads Ports Irq Drivers.
From S2P Require Import Pmm Vmm Shell Syscall Boot.
Import Ports Boot.

#[local] Existing Instances Drivers.pc_pic Drivers.pc_kbd Kheap.kheap_KHeap.

Module Run.

Section run.
Context {D : Type} `{Board D}.
(** No driver has a bottom half, so what they would do is any function. *)
Context (im : image) (run_bottom : Z -> Z -> Drivers.drv D -> Drivers.drv D).
Implicit Types (s : machine D) (t : Task.nm_task).

(** ** The loops *)

Definition irq_run_bottom_halves : M (machine D) unit := on_irq (Irq.irq_run_bottom_halves run_bottom).
Definition sched_yield : M (machine D) unit := on_sched Sched.sched_yield.

(** One turn of each loop, up to the instruction that waits. *)
Definition kmain_turn : M (machine D) unit := irq_run_bottom_halves ;; sched_yield.
Definition idle_turn : M (machine D) unit := sched_yield.
Definition worker_turn : M (machine D) unit := sched_yield.

(** The loop of [kmain] is the bootstrap task. *)
Inductive turn_of t : M (machine D) unit -> Prop :=
| turn_kmain : Task.pid t = 1 -> turn_of t kmain_turn
| turn_idle : Task.pid t <> 1 -> turn_of t idle_turn
| turn_worker : Task.pid t <> 1 -> turn_of t worker_turn.

(** ** Steps *)

Inductive event :=
| Own
| Turn (n : Z) (** to the thread of the slot [n] *)
| Interrupt (v : Z)
| Keys (q : list Z). (** scan codes that arrive *)

(** A vector that the controllers let through. *)
Definition deliverable (d : D) (v : Z) : Prop :=
  exists line, 0 <= line < 16 /\ Drivers.mask_of (pics d) line = false /\
    v = if line <? 8 then Drivers.base (pics d).1 + line else Drivers.base (pics d).2 + (line - 8).

Definition set_device (d : D) s : machine D := set_irq (Irq.set_world (Drivers.set_dev d (Irq.world (irq_of s))) (irq_of s)) s.

Abbreviation code := (Threads.code (boot_stack im) (boot_stack_top im)).
Abbreviation calling := (Threads.calling (boot_stack im) (boot_stack_top im)).
Abbreviation call := (Threads.call (boot_stack im) (boot_stack_top im)).

Inductive step s : event -> machine D -> Prop :=
| step_own c x : Sched.current (sched_of s) = Some c -> code (sched_of s) c x -> step s Own (set_sched x s)
| step_turn c t ret m n s' :
    Sched.current (sched_of s) = Some c -> arr (Sched.tasks (sched_of s)) c = Some t -> calling (sched_of s) t ret ->
    turn_of t m -> m s = Done tt s' -> Sched.current (sched_of s') = Some n -> step s (Turn n) s'
| step_interrupt v c s1 x : (** the handler runs on the stack of the thread it interrupts *)
    deliverable (m_dev s) v -> on_irq (Drivers.isr v) s = Done tt s1 ->
    Sched.current (sched_of s1) = Some c -> code (sched_of s1) c x -> step s (Interrupt v) (set_sched x s1)
| step_keys q d : pics d = pics (m_dev s) -> scancodes d = scancodes (m_dev s) ++ q -> step s (Keys q) (set_device d s).

Inductive steps : machine D -> list event -> machine D -> Prop :=
| steps_nil s : steps s [] s
| steps_cons s e s1 l s2 : step s e s1 -> steps s1 l s2 -> steps s (e :: l) s2.

(** The threads that the turns went to. *)
Definition went (l : list event) : list Z := omap (fun e => match e with Turn n => Some n | _ => None end) l.

(** ** What the drivers have at hand *)

(** The count of the timer, the last character, the scan codes that wait and the
    interrupts ended. *)
Record hands := mk_hands { h_ticks : Z; h_last : Z; h_codes : list Z; h_ended : Z }.

Definition hands_of s : hands :=
  let w := Irq.world (irq_of s) in mk_hands (Drivers.g_pit_ticks w) (Drivers.g_last_char w) (scancodes (m_dev s)) (Drivers.eois (pics (m_dev s)).1).

Definition take_event (h : hands) (e : event) : hands :=
  match e with
  | Interrupt v =>
      if Drivers.is_key v
      then mk_hands (h_ticks h) (foldl Drivers.key (h_last h) (take 1 (h_codes h))) (drop 1 (h_codes h)) (h_ended h + 1)
      else mk_hands (u64 (h_ticks h + 1)) (h_last h) (h_codes h) (h_ended h + 1)
  | Keys q => mk_hands (h_ticks h) (h_last h) (h_codes h ++ q) (h_ended h)
  | _ => h
  end.

(** ** The invariant *)

(** The tasks of the start, whose stacks the files stay off. *)
Section invariant.
Context (l0 : list Task.nm_task).

Record running s : Prop := mk_running {
  rn_threads : threads_up im (sched_of s);
  rn_policy : Sched.global_policy (sched_of s) = Sched.NM_SCHED_RR;
  rn_system : system_ok l0 (kernel_of s);
  rn_handlers : Drivers.installed (irq_of s);
  rn_none : Irq.pending (irq_of s) = [];
  rn_chips : exists n1 n2, pics (m_dev s) = (Drivers.mk_chip 32 0xFC 0 n1, Drivers.mk_chip 40 0xFF 0 n2);
}.

Lemma sched_of_set x s : sched_of (set_sched x s) = x.
Proof. destruct x as [p]. by destruct p. Qed.

Lemma irq_of_set i s : irq_of (set_irq i s) = i.
Proof. by destruct i as [? ? ? ? ? []]. Qed.

Lemma threads_of s : running s -> Threads.threads_ok (boot_stack im) (boot_stack_top im) (sched_of s).
Proof. intros Hi. apply Hi. Qed.

(** Only the timer and the keyboard can interrupt. *)
Lemma delivered s v : running s -> deliverable (m_dev s) v -> v = 32 \/ v = 33.
Proof.
  intros [_ _ _ _ _ (n1 & n2 & Ep)] (k & Hk & Hm & ->). rewrite Ep in *. unfold Drivers.mask_of in Hm. cbn [fst snd Drivers.imr Drivers.base] in *.
  destruct (Z.ltb_spec k 8).
  - assert (k = 0 \/ k = 1 \/ 2 <= k < 8) as [->|[->|Hr]] by lia; [by left|by right|].
    assert (k ∈ upto 2 8) as Hin by (by apply elem_of_upto). repeat (apply elem_of_cons in Hin as [->|Hin]; [done|]). by apply elem_of_nil in Hin.
  - assert (k - 8 ∈ upto 0 8) as Hin by (apply elem_of_upto; lia). revert Hm. generalize dependent (k - 8). intros j Hin Hm.
    repeat (apply elem_of_cons in Hin as [->|Hin]; [done|]). by apply elem_of_nil in Hin.
Qed.

(** *** An interrupt *)

Lemma wp_on_isr s v (Q : unit -> machine D -> Prop) :
  running s -> deliverable (m_dev s) v ->
  (forall i, Drivers.installed i -> Irq.pending i = [] -> Irq.world i = Drivers.serve v (Irq.world (irq_of s)) -> Q tt (set_irq i s)) ->
  wp (on_irq (Drivers.isr v)) Q s.
Proof.
  intros Hi Hv HQ. apply wp_lift, Drivers.wp_isr; [apply Hi|by eapply delivered|]. intros i Hin Hw Hp. apply HQ; [done| |done].
  rewrite Hp. apply Hi.
Qed.

Lemma served s v i :
  running s -> deliverable (m_dev s) v -> Irq.world i = Drivers.serve v (Irq.world (irq_of s)) ->
  hands_of (set_irq i s) = take_event (hands_of s) (Interrupt v) /\
  pics (Drivers.d_dev (Irq.world i)) = (Drivers.chip_command 0x20 (pics (m_dev s)).1, (pics (m_dev s)).2).
Proof.
  intros Hi Hv Hw. pose proof (Drivers.serve_spec v (Irq.world (irq_of s)) ltac:(by eapply delivered)) as Hsv. cbv zeta in Hsv.
  rewrite <- Hw in Hsv. destruct Hsv as (Et & El & Ec & Ep). unfold Drivers.codes, Drivers.ctrl in *. cbn [irq_of Irq.set_world Irq.world Drivers.set_dev Drivers.d_dev] in *.
  split; [|exact Ep]. unfold hands_of, take_event. cbn. rewrite Et, El, Ec, Ep. cbn. destruct (Drivers.is_key v); done.
Qed.

(** *** A turn *)

(** The bottom halves leave the machine as it is. *)
Lemma wp_no_bottoms s (Q : unit -> machine D -> Prop) :
  running s -> (forall i, Drivers.installed i -> Irq.pending i = [] -> Irq.world i = Irq.world (irq_of s) -> Q tt (set_irq i s)) ->
  wp irq_run_bottom_halves Q s.
Proof.
  intros [_ _ _ [Hi Hsb] Hn _] HQ. apply wp_lift, Irq.wp_run_bottoms; [done|by rewrite Hn|]. intros i Hi' Hp Htb Hw. rewrite Hn in Hw.
  apply HQ; [|done|done]. split; [done|]. by rewrite Htb.
Qed.

Lemma wp_on_yield s c t ret (Q : unit -> machine D -> Prop) :
  Threads.threads_ok (boot_stack im) (boot_stack_top im) (sched_of s) ->
  Sched.current (sched_of s) = Some c -> arr (Sched.tasks (sched_of s)) c = Some t -> calling (sched_of s) t ret ->
  (forall x, call (sched_of s) c x -> Q tt (set_sched x s)) -> wp sched_yield Q s.
Proof.
  intros Hi Hc Ht Hcall HQ. assert (Hw : wp Sched.sched_yield (fun _ _ => True) (sched_of s)) by (by eapply Threads.wp_thread_yield).
  apply wp_done in Hw as ([] & x & E & _). unfold sched_yield, on_sched, lift_to, wp. rewrite E. apply HQ. by exists t, ret.
Qed.

Lemma wp_turn s c t ret m (Q : unit -> machine D -> Prop) :
  running s -> Sched.current (sched_of s) = Some c -> arr (Sched.tasks (sched_of s)) c = Some t -> calling (sched_of s) t ret -> turn_of t m ->
  (forall s', call (sched_of s) c (sched_of s') -> kernel_of s' = kernel_of (set_sched (sched_of s') s) ->
     Drivers.installed (irq_of s') -> Irq.pending (irq_of s') = [] -> Irq.world (irq_of s') = Irq.world (irq_of s) -> Q tt s') -> wp m Q s.
Proof.
  intros Hi Hc Ht Hcall Hm HQ. assert (Hy : forall s1, sched_of s1 = sched_of s -> (forall x, kernel_of (set_sched x s1) = kernel_of (set_sched x s)) ->
    Drivers.installed (irq_of s1) -> Irq.pending (irq_of s1) = [] -> Irq.world (irq_of s1) = Irq.world (irq_of s) -> wp sched_yield Q s1).
  { intros s1 E Ek Hin Hp Hw. eapply wp_on_yield; rewrite ?E; [by apply threads_of|done..|]. intros x Hx.
    apply HQ; rewrite ?sched_of_set; [done|by rewrite Ek|done..]. }
  destruct Hm; [|apply Hy; [done|done|apply Hi|apply Hi|done]..]. unfold kmain_turn. wp_step. apply wp_no_bottoms; [done|]. intros i Hin Hp Hw.
  by apply Hy; rewrite ?irq_of_set.
Qed.

(** *** All steps *)

(** What code and turns do to the processes. *)
Record scheduled s (x : Sched.sched_st Kheap.kheap) : Prop := mk_scheduled {
  sd_threads : threads_up im x;
  sd_policy : Sched.global_policy x = Sched.NM_SCHED_RR;
  sd_tasks : Forall2 Threads.same_task (Sched.tasks (sched_of s)) (Sched.tasks x);
  sd_heap : Task.proc_heap (Sched.sc_proc x) = m_heap s;
}.

Lemma code_scheduled s c x : running s -> Sched.current (sched_of s) = Some c -> code (sched_of s) c x -> scheduled s x.
Proof.
  intros [[Hi Hall] Hpol _ _ _ _] Hc Hcode. destruct (Threads.code_ok _ _ _ _ _ Hi Hc Hcode) as (Hi' & Hc' & Ht' & _).
  destruct Hcode as (t & mem & k & _ & -> & _). split; [by split|done|reflexivity|done].
Qed.

Lemma call_scheduled s c x : running s -> Sched.current (sched_of s) = Some c -> call (sched_of s) c x -> scheduled s x.
Proof.
  intros [[Hi Hall] Hpol _ _ _ _] Hc Hcall. destruct (Threads.call_ok _ _ _ _ _ Hi Hc Hcall) as (t & ret & _ & _ & Hi' & _).
  destruct (Threads.call_kept _ _ _ _ _ Hi Hc Hcall) as (Hl & Hh & Hp & Hst).
  split; [split; [done|by apply Hst]|by rewrite Hp|exact Hl|exact Hh].
Qed.

Lemma scheduled_system s x : system_ok l0 (kernel_of s) -> scheduled s x -> system_ok l0 (kernel_of (set_sched x s)).
Proof.
  intros Hs [[Hi _] _ Hl Hh]. assert (Ek : kernel_of (set_sched x s) = Syscall.set_k_proc (Sched.sc_proc x) (kernel_of s)).
  { clear Hi Hl. destruct x as [[] ? ? ?]. cbn in Hh. by subst. }
  rewrite Ek. apply Syscall.sched_inv_kept; [exact Hs|apply Hi|]. eapply Forall2_impl; [exact Hl|].
  by intros t t' (_ & _ & ? & ? & ?).
Qed.

(** What a step does to the threads. *)
Definition threads_step s (e : event) s' : Prop :=
  match e with
  | Turn n => exists c, Sched.current (sched_of s) = Some c /\ call (sched_of s) c (sched_of s') /\ Sched.current (sched_of s') = Some n
  | Keys _ => sched_of s' = sched_of s
  | _ => exists c, Sched.current (sched_of s) = Some c /\ code (sched_of s) c (sched_of s')
  end.

Lemma running_code s c x : running s -> Sched.current (sched_of s) = Some c -> code (sched_of s) c x -> running (set_sched x s).
Proof.
  intros Hi Hc Hcode. pose proof (code_scheduled _ _ _ Hi Hc Hcode) as Hsd. pose proof Hi as [_ _ Hs Hin Hn Hp]. pose proof Hsd as [? ? _ _].
  split; rewrite ?sched_of_set; [done|done|by apply scheduled_system|done|done|done].
Qed.

Lemma running_interrupt s v s1 : running s -> deliverable (m_dev s) v -> on_irq (Drivers.isr v) s = Done tt s1 ->
  running s1 /\ hands_of s1 = take_event (hands_of s) (Interrupt v) /\ sched_of s1 = sched_of s.
Proof.
  intros Hi Hv Hrun. apply (wp_result (on_irq (Drivers.isr v)) (fun _ s1 => running s1 /\ hands_of s1 = take_event (hands_of s) (Interrupt v) /\ sched_of s1 = sched_of s) s tt); [|done].
  apply wp_on_isr; [done|done|]. intros i Hii Hpi Hwi. destruct (served s v i Hi Hv Hwi) as [Hh Hps].
  destruct Hi as [Hth Hpol Hs _ _ (n1 & n2 & Ep)]. split; [|by split].
  split; rewrite ?irq_of_set; [done|done|exact Hs|done|done|]. cbn. rewrite Hps, Ep. by eexists _, _.
Qed.

Lemma running_turn s c t ret m s' : running s -> Sched.current (sched_of s) = Some c -> arr (Sched.tasks (sched_of s)) c = Some t ->
  calling (sched_of s) t ret -> turn_of t m -> m s = Done tt s' ->
  running s' /\ hands_of s' = hands_of s /\ call (sched_of s) c (sched_of s').
Proof.
  intros Hi Hc Ht Hcall Hm Hrun. apply (wp_result m (fun _ s' => running s' /\ hands_of s' = hands_of s /\ call (sched_of s) c (sched_of s')) s tt); [|done].
  apply (wp_turn s c t ret m); [done..|]. intros s2 Hcl Hk Hin2 Hn2 Hw2. pose proof (call_scheduled _ _ _ Hi Hc Hcl) as Hsd.
  assert (Ed : m_dev s2 = m_dev s) by (change (Drivers.d_dev (Irq.world (irq_of s2)) = m_dev s); by rewrite Hw2).
  split; [|split; [unfold hands_of; by rewrite Hw2, Ed|done]]. pose proof Hsd as [? ? _ _]. destruct Hi as [_ _ Hs _ _ Hp].
  split; [done|done|rewrite Hk; by apply scheduled_system|done|done|by rewrite Ed].
Qed.

Lemma step_running s e s' : running s -> step s e s' ->
  running s' /\ hands_of s' = take_event (hands_of s) e /\ threads_step s e s'.
Proof.
  intros Hi Hst. destruct Hst as [c x Hc Hcode|c t ret m n s' Hc Ht Hcall Hm Hrun Hn'|v c s1 x Hv Hrun Hc Hcode|q d Hp Hq].
  - split; [by eapply running_code|]. split; [done|]. exists c. by rewrite sched_of_set.
  - destruct (running_turn _ _ _ _ _ _ Hi Hc Ht Hcall Hm Hrun) as (Hr & Hh & Hcl). split; [done|]. split; [done|]. by exists c.
  - destruct (running_interrupt _ _ _ Hi Hv Hrun) as (Hr & Hh & Es). split; [by eapply running_code|]. split; [exact Hh|].
    exists c. rewrite sched_of_set, <- Es. done.
  - destruct Hi as [Hth Hpol Hs [[] ?] Hn (n1 & n2 & Ep)]. split; [|split; [|done]].
    + split; [done|done|exact Hs|by split|done|]. cbn. rewrite Hp. by exists n1, n2.
    + unfold hands_of. cbn. by rewrite Hp, Hq.
Qed.

Lemma steps_running s l s' : running s -> steps s l s' -> running s' /\ hands_of s' = foldl take_event (hands_of s) l.
Proof.
  intros Hi Hst. induction Hst as [|s e s1 l s2 Hs Hst IH]; [done|]. destruct (step_running _ _ _ Hi Hs) as (Hi1 & Hh & _).
  cbn [foldl]. rewrite <- Hh. by apply IH.
Qed.

(** Between two turns the current thread only runs code. *)
Lemma steps_rounds s l s' x c : running s -> steps s l s' -> Sched.current x = Some c -> code x c (sched_of s) ->
  exists y, Threads.rounds (boot_stack im) (boot_stack_top im) x (went l) y.
Proof.
  intros Hi Hst. revert x c. induction Hst as [s|s e s1 l s2 Hs Hst IH]; intros x c Hc Hcode; [exists x; constructor|].
  destruct (step_running _ _ _ Hi Hs) as (Hi1 & _ & Hts). assert (Hc1 : Sched.current (sched_of s) = Some c).
  { destruct Hcode as (t & mem & k & _ & -> & _). exact Hc. }
  destruct e as [|n|v|q]; unfold threads_step in Hts.
  - destruct Hts as (c' & Hc' & Hcd). assert (c' = c) as -> by congruence. apply (IH Hi1 x c Hc). by eapply Threads.code_trans.
  - destruct Hts as (c' & Hc' & Hcl & Hn). assert (c' = c) as -> by congruence.
    destruct (call_scheduled _ _ _ Hi Hc1 Hcl) as [[Hth _] _ _ _].
    destruct (Task.pi_current _ (Sched.si_proc _ (Threads.th_sched _ _ _ Hth)) n Hn) as (u & Hu & _).
    destruct (IH Hi1 (sched_of s1) n Hn) as [y Hy]; [by eapply Threads.code_refl|]. exists y. by econstructor.
  - destruct Hts as (c' & Hc' & Hcd). assert (c' = c) as -> by congruence. apply (IH Hi1 x c Hc). by eapply Threads.code_trans.
  - apply (IH Hi1 x c Hc). by rewrite Hts.
Qed.

(** The slots keep their threads. *)
Definition same_threads s s' : Prop := Forall2 Threads.same_task (Sched.tasks (sched_of s)) (Sched.tasks (sched_of s')).

Lemma step_threads s e s' : running s -> threads_step s e s' -> same_threads s s'.
Proof.
  intros Hi Hst. destruct e as [|n|v|q]; unfold threads_step in Hst; [| | |unfold same_threads; by rewrite Hst].
  all: destruct Hst as (c & Hc & Hst); first [by eapply code_scheduled|by eapply call_scheduled; [| |apply Hst]].
Qed.

Lemma steps_threads s l s' : running s -> steps s l s' -> same_threads s s'.
Proof.
  intros Hi Hst. induction Hst as [s|s e s1 l s2 Hs Hst IH]; [unfold same_threads; reflexivity|].
  destruct (step_running _ _ _ Hi Hs) as (Hi1 & _ & Hts). unfold same_threads in *. etrans; [by eapply step_threads|by apply IH].
Qed.

Lemma steps_fair s l s' i t : running s -> steps s l s' ->
  arr (Sched.tasks (sched_of s)) i = Some t -> Task.live t = true -> 129 <= zlen (went l) -> i ∈ went l.
Proof.
  intros Hi Hst Ht Hl Hlen. pose proof Hi as [[Hth Hall] Hpol _ _ _ _]. destruct (Sched.current (sched_of s)) as [c|] eqn:Hc; [|by destruct (Threads.th_current _ _ _ Hth)].
  destruct (Task.pi_current _ (Sched.si_proc _ (Threads.th_sched _ _ _ Hth)) c Hc) as (u & Hu & _).
  destruct (steps_rounds s l s' (sched_of s) c Hi Hst Hc) as [y Hy]; [by eapply Threads.code_refl|].
  by eapply (Threads.staffed_fair _ _ (sched_of s)).
Qed.

End invariant.

(** The start leaves the kernel running. *)
Lemma up_running info ptr s s' : up im info ptr s s' -> running (Sched.tasks (sched_of s')) s'.
Proof.
  intros [_ _ Hs _ Hth [Hpol _] [[Hi Hsb] Hn _ _ _] [Hp _] _]. split; [done|done|exact Hs| |done|].
  - destruct Hi. split; [by split|done].
  - rewrite Hp. by eexists _, _.
Qed.

(** The machine can go on for as many turns as one likes. *)
Lemma goes_on l0 s k : running l0 s -> exists l s', steps s l s' /\ length (went l) = k.
Proof.
  revert s. induction k as [|k IH]; intros s Hi; [exists [], s; split; [constructor|done]|].
  assert (Hc : exists c, Sched.current (sched_of s) = Some c).
  { destruct (Sched.current (sched_of s)) as [c|] eqn:E; [by exists c|]. by destruct (Threads.th_current _ _ _ (threads_of _ _ Hi)). }
  destruct Hc as [c Hc]. destruct (Threads.comes_to_call _ _ _ _ (threads_of _ _ Hi) Hc) as (t & x & Ht & Hcode & Hcl).
  pose proof (running_code _ _ _ _ Hi Hc Hcode) as Hi1. set (s1 := set_sched x s) in *.
  assert (E1 : sched_of s1 = x) by apply sched_of_set.
  assert (Hc1 : Sched.current (sched_of s1) = Some c /\ arr (Sched.tasks (sched_of s1)) c = Some t).
  { rewrite E1. by destruct Hcode as (? & ? & ? & _ & -> & _). }
  destruct Hc1 as [Hc1 Ht1]. rewrite <- E1 in Hcl.
  assert (Hm : exists m, turn_of t m) by (destruct (decide (Task.pid t = 1)); eexists; [by apply turn_kmain|by apply turn_idle]).
  destruct Hm as [m Hm]. assert (Hw : wp m (fun _ s2 => running l0 s2) s1).
  { assert (Hw' : wp m (fun _ _ => True) s1) by (by eapply wp_turn). apply wp_done in Hw' as ([] & s2 & E & _). unfold wp. rewrite E.
    by eapply running_turn. }
  apply wp_done in Hw as ([] & s2 & E & Hi2). destruct (Sched.current (sched_of s2)) as [n|] eqn:Hn.
  2: { by destruct (Threads.th_current _ _ _ (threads_of _ _ Hi2)). }
  destruct (IH s2 Hi2) as (l & s' & Hst & Hk). exists (Own :: Turn n :: l), s'. split; [|by rewrite <- Hk].
  econstructor; [by eapply step_own|]. econstructor; [by eapply step_turn|done].
Qed.

(** What holds after any steps from [s1]. *)
Record kept s1 (l : list event) s2 : Prop := mk_kept {
  kp_running : running (Sched.tasks (sched_of s1)) s2;
  kp_threads : same_threads s1 s2;
  kp_drivers : hands_of s2 = foldl take_event (hands_of s1) l;
  kp_fair l' s3 i t : steps s2 l' s3 -> arr (Sched.tasks (sched_of s2)) i = Some t -> Task.live t = true ->
    129 <= zlen (went l') -> i ∈ went l';
  kp_goes_on k : exists l' s3, steps s2 l' s3 /\ length (went l') = k;
  kp_interrupt v : deliverable (m_dev s2) v -> exists s3, on_irq (Drivers.isr v) s2 = Done tt s3;
  kp_turn c t ret m : Sched.current (sched_of s2) = Some c -> arr (Sched.tasks (sched_of s2)) c = Some t ->
    calling (sched_of s2) t ret -> turn_of t m -> exists s3, m s2 = Done tt s3;
}.

(** ** Properties *)

(** C6: the kernel keeps running.  Once [kmain] is at its loop, whatever the threads
    run on their stacks, whichever interrupts the controllers let through between
    their turns and whichever keys arrive, in any order: threads, handlers, processes,
    descriptors and files stay in order, the next turn of a loop and the next
    interrupt never fault, there is always a next turn, every thread gets the
    processor within 129 turns, and the drivers hold exactly what the sequence of interrupts and keys gives them, each
    tick counted, each scan code taken once and in order, each interrupt ended at its
    controller. *)
Theorem kernel_runs info cr3 stack out_stack num_stack ptr s :
  power_on s -> placed_at im info stack out_stack num_stack ptr ->
  wp (kmain im info cr3 stack out_stack num_stack ptr) (fun _ s1 => forall l s2, steps s1 l s2 -> kept s1 l s2) s.
Proof.
  intros Hp Hpl. eapply wp_mono; [by apply wp_kmain|]. intros [] s1 Hup%up_running l s2 Hst.
  destruct (steps_running _ _ _ _ Hup Hst) as [Hi Hh]. split; [done|by eapply steps_threads|done|..].
  - intros l' s3 i t Hst'. by eapply steps_fair.
  - intros k. by eapply goes_on.
  - intros v Hv. assert (Hw : wp (on_irq (Drivers.isr v)) (fun _ _ => True) s2) by (by eapply wp_on_isr).
    apply wp_done in Hw as ([] & s3 & E & _). by exists s3.
  - intros c t ret m Hc Ht Hcl Hm. assert (Hw : wp m (fun _ _ => True) s2) by (by eapply wp_turn).
    apply wp_done in Hw as ([] & s3 & E & _). by exists s3.
Qed.

(** An interrupt inside a turn of [kmain] can hang the machine.  The turn takes the
    lock of the bottom halves with interrupts enabled; one that is delivered before
    it gives the lock back waits for it for ever, on the same processor. *)
Theorem interrupt_in_turn_hangs l0 s v : running l0 s -> deliverable (m_dev s) v ->
  exists s1, on_irq Irq.irq_lock s = Done tt s1 /\ deliverable (m_dev s1) v /\ on_irq (Drivers.isr v) s1 = Stuck LockHeld.
Proof.
  intros Hi Hv. exists (set_irq (Irq.set_irq_lock 1 (irq_of s)) s). split; [|split; [exact Hv|]].
  - unfold on_irq, lift_to, Irq.irq_lock. destruct Hi as [_ _ _ [[_ _ Hl] _] _ _]. by rewrite Hl.
  - unfold on_irq, lift_to. rewrite irq_of_set. by destruct (delivered _ _ _ Hi Hv) as [-> | ->].
Qed.
End run.

(** *** On the concrete board *)

#[local] Existing Instances board_ports board_Board.

Lemma kernel_runs_witness :
  wp (kmain image0 Pmm.demo_mem Vmm.demo_root Shell.stack0 (replicate 512 7) (replicate 32 9) 65536)
    (fun _ s1 => forall l s2, steps image0 (fun _ _ w => w) s1 l s2 -> kept image0 (fun _ _ w => w) s1 l s2) machine0.
Proof.
  apply (kernel_runs image0 (fun _ _ w => w) Pmm.demo_mem Vmm.demo_root Shell.stack0 (replicate 512 7) (replicate 32 9) 65536 machine0).
  - exact machine0_on.
  - exact image0_placed.
Defined.

End Run.
